(* ===== verification/_CoqProject ===== *)
-Q . S2P
Prelude.v
Word32.v
Structures.v
State.v
CdtOrder.v
AATree.v
CapOps.v
Cdt.v
CdtProofs.v
CdtInv.v
CdtWalk.v
CdtSpec.v
CdtTheorems.v
VSpace.v
Sched.v
Queue.v
SchedInv.v
SchedTheorems.v
CSpace.v
Finalise.v
Ipc.v
Labels.v
Untyped.v
Boot.v
CNode.v
Interrupt.v
TcbInvocation.v
ArmInvocation.v
Syscall.v
Fastpath.v
Partition.v
PartitionInv.v
PartitionTime.v
PartitionTheorems.v
DataStruct.v
DataVec.v
DataPool.v
DataTheorems.v
PartitionCalls.v
PartitionCallsTheorems.v
Apex.v
WindowAssoc.v
WindowInv.v
WindowTheorems.v
Nameserv.v
Procserv.v
Dataspace.v
DataspaceInv.v
Memserv.v
RingBuffer.v
AddrSpace.v
Process.v
Proc.v
Share.v
Handlers.v
Servlib.v
FileServer.v
Devices.v
Fault.v
RingBufferInv.v
DataspaceTheorems.v
MemservInv.v
MemservTheorems.v
HandlersInv.v
HandlersTheorems.v
ProcessTheorems.v
CapTheorems.v
CSpaceTheorems.v
EndpointInv.v
IpcTheorems.v
FinaliseTheorems.v
FastpathInv.v
FastpathCall.v
FastpathReply.v
FastpathTheorems.v
BootTheorems.v
NameservTheorems.v
ShareTheorems.v
DevicesTheorems.v
FileTheorems.v
