(* ===== verification/Prelude.v ===== *)
(** * partition-seL4: a verification library (root file)

    The repository is a RefOS system on a modified seL4 microkernel, with an
    ARINC-653 style partition layer in the process server.  This library models
    the C code of the kernel's portable core and of its ARM (ARMv6, 32 bits,
    KZM platform) part under [src/kernel/], and the partition layer under
    [src/projects/refos/impl/apps/process_server/src/system/partition/], as
    executable definitions, and proves what makes them correct.  The rest of
    the process server, the data structures of RefOS under
    [src/projects/refos/impl/libs/libdatastruct/] and the APEX library of the
    partitions ([src/libs/libapex/]) are modelled beside them.

    ** The parts of the program and their models

    - Words, bit fields, objects: [Word32] (macros of [include/util.h] and the
      fields of the bitfield generator), [Structures] ([structures.h],
      [structures.bf], [types.h], [failures.h]: capabilities, slots, faults,
      threads, endpoints, page-table entries, message headers), [State] (the
      globals of [statedata.c] and the typed memory, one finite map per type of
      object, as the record [kstate]; the accesses to them).
    - Capability derivation tree ([src/kernel/src/kernel/cdt.c]): [CdtOrder]
      (the order of slots), [Cdt] (the AA tree threaded through the slots, its
      insertion, removal, traversals and searches).  [AATree] is the reference:
      a functional AA tree and its sorted sequence.
    - Capabilities: [CapOps] (the pure functions of [objecttype.c]), [CSpace]
      ([cspace.c]), [CNode] and [Finalise] ([cnode.c] and finalisation,
      deletion, revocation, recycling, with [preemption.c]).
    - Threads: [Sched] (ready queues with bitmaps, endpoint queues, scheduling
      decisions, domains, time slices: [thread.c] and [tcb.c]), [TcbInvocation]
      (thread and domain invocations).
    - Communication: [Ipc] ([endpoint.c], [asyncendpoint.c], message and
      capability transfer, replies, faults).
    - Memory: [VSpace] ([arch/arm/kernel/vspace.c]), [ArmInvocation] (the
      decoding of address-space invocations), [Untyped] (retyping), [Labels]
      (invocation labels and object types).
    - Interrupts ([Interrupt]) and system calls ([Syscall]: the entry points
      and the dispatch on the capability's type).
    - The fast path ([Fastpath]: [arch/arm/fastpath/fastpath.c] and the entry of
      [traps.S]): for a call and for a reply with a wait, the checks, which
      change nothing, and the commit after them.
    - The boot of the kernel ([Boot]): [src/kernel/boot.c],
      [arch/arm/kernel/boot.c] and the boot part of [vspace.c], from
      [try_init_kernel] to the first thread: the kernel's window, free memory
      and its allocator, the first objects and capabilities, untyped memory and
      the boot information.  Its state is the kernel's with [ndks_boot].
    - Partitions ([Partition]): [sched.c], [partition.c], [port.c], and the
      order of [partinit.c]; [PartitionCalls]: the messages that [main.c] takes
      from the threads of partitions and the system calls on ports; [Apex]: the
      services of libapex, as the messages they send.
    - Data structures of RefOS ([DataStruct]): vectors, queues, pools of
      identifiers, bit maps, object tables and hash tables, over an allocator
      that is a parameter ([malloc_ok] tells which sizes it serves);
      among them the object tables with callbacks that are computations of a server.
    - The memory of RefOS processes ([apps/process_server/src/]): [WindowAssoc]
      (the lists of windows of [window.c]), [Procserv] (the state of the process
      server and the helpers of [state.c]), [Dataspace] ([dataspace.c]: pages,
      sizes, reading and writing, content initialisation), [Memserv] (the tables
      of dataspaces and windows of [dataspace.c] and [window.c], their
      references, and the unmapping of windows of [vspace.c]) and [RingBuffer]
      ([ringbuffer.c]).
    - Processes and system calls of RefOS: [AddrSpace] (the windows and mappings
      of an address space, [vspace.c]), [Process] (identifiers, page
      directories, threads and processes: [pid.c], [pagedir.c], [thread.c],
      [process.c]), [Proc] (watched clients and buffers, the start and the exit
      of processes), [Handlers] (the dispatchers of dataspaces, windows and
      processes: [data_syscall.c], [mem_syscall.c], [proc_syscall.c]) and
      [Fault] ([fault_handler.c]).
    - Names ([Nameserv]: [nameserv.c] of librefos, and the resolution of a path
      from server to server of [name_client_helper.c]).  The process
      server's calls on names, [name_syscall.c], are the end of [Handlers].
    - The library of servers ([libs/librefos/src/]): [Share] (rings in shared
      memory, [share.c]; the slots of a CSpace, [cspace.c]; the loop over
      notifications of [serv_common.c]) and [Servlib] (the table of clients,
      [serv_connect.c], and the handlers of connections).
    - The file server ([FileServer]: [apps/file_server/src/]): dataspaces,
      associations, frames, the calls on files and the notifications.
    - The timer and the console servers ([Devices]: [apps/timer_server/src/],
      [apps/console_server/src/]): sleeping clients, input and those who wait
      for it, the calls on the dataspaces of devices.

    A kernel function is a computation in the monad [M kstate] below: it threads
    the state, and a failed [assert] or [fail], or an access to memory that
    holds no object of the type, is [Panic].  The code's error returns are
    values ([exception_t], and the current fault or system-call error in the
    state).  The components call each other as in the code: [Syscall] dispatches
    to the decoders, which call [CNode], [Finalise], [Ipc], [Untyped] and
    [ArmInvocation]; these share the tree of [Cdt], the queues of [Sched] and
    the page tables of [VSpace].  The scheduler of partitions runs above the
    kernel, in a process: it has a state of its own ([pok_state]) and its system
    calls are events of a log.  So does the process server ([procserv]), whose
    computations are in the monad [P]; its windows and dataspaces are objects
    of tables ([coat]), and what it asks of the kernel and of libraries changes
    an environment of which nothing else is known.

    ** Interfaces

    [KernelConfig] (in [State]) and [PartConfig] (in [Partition]) are classes
    with the build options, and so is [BootConfig] (in [Boot]) with the memory
    of the platform and the addresses of the linker; [kzm_boot], [kzm_config], [two_domain_config] and [deployment]
    are instances, [KernelConfigOk], [PartConfigOk] and [LayoutOk] the
    conditions the theorems need of them.  [Links] (in [Queue]) abstracts the
    two pairs of links of a thread, so that the shape of ready queues and of
    endpoint queues is proved once.  [runs] is a total-correctness triple, [meq]
    the pointwise equality of computations with its [Proper] instances, and
    [frames] (in [Queue], with a hint database) says what a function leaves alone.  [Refines] (below)
    is the class of simulations between the operations of a data structure and
    those of its specification, with [refines_run] for sequences of operations.
    [Env] (in [Procserv]) is the class of environments of the process server:
    allocators, address spaces and kernel invocations; [EnvOk] and [EnvPlenty]
    (in [DataspaceInv]) are what the theorems need of them, that new frames are
    new and that there are enough, and [numbered] is an instance.  [NameRpc] is
    the class of networks of name servers that a client resolves paths in, with
    [NetOk] for what the theorem needs of one; [ServerEnv], [FileEnv] and [DeviceEnv]
    are the environments of a server, of the file server and of the servers of
    devices; the callbacks of
    notifications are a record ([srv_common_notify_handler_callbacks_t]).
    [syscall_inv] (in [FastpathInv]) is what the kernel keeps between system
    calls as far as the fast path needs it, and [same_live] the equivalence of
    states that differ in dead fields only.

    ** What the theorems show

    - The tree ([CdtProofs], [CdtInv], [CdtWalk], [CdtSpec], [CdtTheorems];
      [CdtSpec] also decides the invariant on concrete states): insertion, removal,
      move and update of a slot keep a balanced, sorted AA tree whose elements
      are exactly the slots expected; traversals are the neighbours in the
      sequence; the searches find what the sequence contains; finality of a
      capability is a property of all slots although the code looks at two; a
      badged endpoint is overlooked by one search.
    - The scheduler ([SchedInv], [SchedTheorems]): bitmaps and queues agree;
      enqueue, append and dequeue are operations on lists; the thread chosen is
      the head of the highest non-empty queue; domains come round; a thread is
      lost by [possibleSwitchTo] with several domains.
    - Capability addresses ([CSpaceTheorems]): resolution refines a walk; slots
      returned exist; the guard's value is never compared.
    - Capabilities ([CapTheorems]): field widths are kept, rights only shrink
      and masks compose, badges are set once, packed words round-trip.
    - Communication ([EndpointInv], [IpcTheorems]): the threads that wait on an
      endpoint form a first-in first-out queue, kept by blocking, by taking the
      first and by cancelling; signals accumulate until they are received.
    - Deletion ([FinaliseTheorems]): the mutual recursion is two levels deep.
    - The fast path ([FastpathInv], [FastpathCall], [FastpathReply],
      [FastpathTheorems]): through the entry of [traps.S] every system call
      gives the value and, up to dead fields, the state of the slow path; a
      capability address that overshoots 32 bits is where they differ.
    - Boot ([BootTheorems]): the free memory is the memory of
      the platform without the reserved regions; the allocator gives an aligned
      block of it and keeps the rest, and answers nothing only when no block
      fits; the untyped capabilities tile what is left, and the boot
      information lists them.
    - Data structures ([DataVec], [DataPool], [DataTheorems]):
      vectors are lists, queues first-in first-out lists of bounded length, hash
      tables finite maps; pools hand out fresh identifiers; bit maps find a free
      range whenever there is one.
    - The memory of processes: the windows of a process are disjoint intervals
      until one is removed ([WindowInv], [WindowTheorems]); dataspaces are flat
      arrays of bytes and ring buffers bounded queues, up to a read that moves
      the wrong end ([DataspaceInv], [RingBufferInv], [DataspaceTheorems]);
      references to dataspaces are counted right and the last one deletes, as
      long as a window does not hold it ([MemservInv], [MemservTheorems]).
    - The system calls of RefOS ([HandlersInv], [HandlersTheorems]): no sequence
      of them fails an assertion about references or leaves a count wrong, and a
      closed dataspace is nowhere in use; watch lists are maps and the pool of
      page directories is one too large ([ProcessTheorems]).
    - Names ([NameservTheorems]): the registrations of a server are a finite
      map, the system calls on names keep it and the other state, and the
      resolution of a path ends and walks the servers the path names.
    - Messages to servers ([ShareTheorems]): the ring between the process server
      and a server is a queue of bytes, and the loop over it hands every
      notification to its callback once and in order.
    - Files ([FileTheorems]): a page fault maps the file's bytes where the page,
      the window and the file meet; what is written is read back and nothing
      else changes, but for a write whose end wraps around a word.
    - Devices ([DevicesTheorems]): every sleeper whose time has come is answered,
      and the others stay; characters go to the waiting clients in order, but a
      client that died while it waited is still in the list.
    - The calls of partitions ([PartitionCallsTheorems], [Apex]): a message of
      one partition leaves the others as they are; stopping on the last tick of
      a time slice and resuming do not do what they say.
    - Partitions ([PartitionInv], [PartitionTime],
      [PartitionTheorems]): from start-up on, at every instant the partition
      running is the one of the schedule, only the elected thread's capability
      is resumed, every slot comes round, the round robin is a search, and no
      tick fails; thread creation and ports with their flaws.

    Each of these files states its theorems after the lemmas they use; a
    property's comment starts with its number.

    ** Budgets

    Recursion that is not structural takes a budget, and running out of it is
    the third outcome [NoFuel].  The tree's loops are given the number of slots
    plus one ([cdt_fuel]), which exceeds the height of the tree and the length
    of its sequence; capability resolution the number of bits plus one (each
    level resolves one); the walks along thread queues the number of threads
    plus one ([tcb_fuel]); the round robin the number of threads plus one; the
    nesting of deletion 2, which [deletion_nesting_bounded] shows is enough;
    the rounds of one deletion twice the number of slots plus two
    ([delete_fuel]), an estimate without a theorem.  The theorems on the tree,
    the schedulers and the resolution show that a result is returned, so their
    budgets are never exhausted.
    [lookup_fp] is given 33 rounds: each consumes a bit of 32.  The binary search
    of windows is given their number plus one, an access to a dataspace a
    round per page and three more ([page_rounds]), the replies to the waiters of
    a dataspace their number plus one, and the recursion between dropping a
    reference and emptying windows a depth of 2 ([unref_depth]): a deeper call
    fails its assertion first.  At boot a region is cut into at most 60 blocks,
    two for each size, and [untypeds_fuel] is 66 ([create_untypeds_correct]
    shows a result is returned); the loops over pages have a round for each
    ([blocks_fuel]).  The resolution of a path has a round for each of its
    characters and one more ([nsv_resolve_walks] shows it ends), the loop over
    notifications one for each byte of the ring and one more
    ([notifications_delivered]), and the reading of a device one for each
    character that the device says it holds ([input_served]).

    ** What is not modelled

    Debug output and the x86 port of the kernel; device drivers and assembly
    (requests to the hardware are events of the log [ks_log]); the IPC buffer
    and user memory only as words; compile-time options other than those of
    [KernelConfig] are fixed to the KZM build.  Of RefOS, the applications, the
    start-up of the servers ([srv_common_init] and the drivers included), the debug
    names of the process server and the code generated from the interface files
    (a handler is given the unmarshalled arguments); the libraries other than
    libdatastruct, the parts of librefos named above and libapex, of which the
    queries that assemble a status record from several calls are left out; and of
    the partition layer the creation of the timer thread and the loading of
    programs, which are calls to other servers. *)

From Stdlib Require Export ZArith Lia.
From stdpp Require Export base list gmap.

#[global] Open Scope Z_scope.

(** ** The kernel monad

    Kernel code threads one mutable state through every call and may stop in
    an [assert] or a [fail].  [res] is the outcome of a run: a value and the
    final state, a panic (a failed assertion), or an exhausted recursion
    budget.  The last case only exists so that the recursive and looping
    functions of the source are executable here; totality theorems show which
    budget is enough. *)
Inductive res (S A : Type) : Type :=
| Ok (a : A) (s : S)
| Panic
| NoFuel.
Arguments Ok {S A} a s.
Arguments Panic {S A}.
Arguments NoFuel {S A}.

Definition M (S A : Type) : Type := S → res S A.

Definition kret {S A} (a : A) : M S A := λ s, Ok a s.

Definition kbind {S A B} (m : M S A) (k : A → M S B) : M S B := λ s,
  match m s with
  | Ok a s' => k a s'
  | Panic => Panic
  | NoFuel => NoFuel
  end.

Definition kfail {S A} : M S A := λ _, Panic.
Definition kdiverge {S A} : M S A := λ _, NoFuel.
Definition gets {S A} (f : S → A) : M S A := λ s, Ok (f s) s.
Definition modify {S} (f : S → S) : M S unit := λ s, Ok tt (f s).
Definition kassert {S} (b : bool) : M S unit := if b then kret tt else kfail.
Definition kwhen {S} (b : bool) (m : M S unit) : M S unit :=
  if b then m else kret tt.
Definition kopt {S A} (o : option A) : M S A :=
  match o with Some a => kret a | None => kfail end.

Declare Scope kernel_scope.
Delimit Scope kernel_scope with kernel.

Notation "'let!' x ':=' m 'in' k" := (kbind m (λ x, k))
  (at level 10, x name, m at level 100, k at level 200,
   format "'[v' 'let!'  x  ':='  m  'in' '/' k ']'") : kernel_scope.
Notation "'let!' ' x ':=' m 'in' k" := (kbind m (λ x, k))
  (at level 10, x strict pattern, m at level 100, k at level 200) : kernel_scope.
Notation "m ';;;' k" := (kbind m (λ _, k))
  (at level 100, k at level 200, right associativity,
   format "'[v' m  ';;;' '/' k ']'") : kernel_scope.
#[global] Open Scope kernel_scope.

(** A bounded loop over a list, as the kernel's [for] loops over an array. *)
Fixpoint kfor {S A} (xs : list A) (body : A → M S unit) : M S unit :=
  match xs with
  | [] => kret tt
  | x :: xs' => body x ;;; kfor xs' body
  end.

(** The option monad of the pure functions that contain assertions. *)
Definition oassert (b : bool) : option unit := if b then Some tt else None.

Notation "'let?' x ':=' m 'in' k" := (match m with Some x => k | None => None end)
  (at level 10, x name, m at level 100, k at level 200,
   format "'[v' 'let?'  x  ':='  m  'in' '/' k ']'") : kernel_scope.

(** ** Running a monadic program *)
Section Running.
Context {S : Type}.

Lemma kbind_Ok {A B} (m : M S A) (k : A → M S B) (s s' : S) (a : A) :
  m s = Ok a s' → kbind m k s = k a s'.
Proof. unfold kbind. by intros ->. Qed.

Lemma kbind_Ok_inv {A B} (m : M S A) (k : A → M S B) (s s' : S) (b : B) :
  kbind m k s = Ok b s' → ∃ a s1, m s = Ok a s1 ∧ k a s1 = Ok b s'.
Proof. unfold kbind. destruct (m s) as [a s1| |] eqn:E; naive_solver. Qed.

Lemma kbind_Panic {A B} (m : M S A) (k : A → M S B) (s : S) :
  m s = Panic → kbind m k s = Panic.
Proof. unfold kbind. by intros ->. Qed.

Lemma kbind_kret {A B} (a : A) (k : A → M S B) : kbind (kret a) k = k a.
Proof. done. Qed.

Lemma kassert_true {B} (b : bool) (k : unit → M S B) (s : S) :
  b = true → kbind (kassert b) k s = k tt s.
Proof. by intros ->. Qed.

Lemma kopt_Some {A B} (o : option A) (a : A) (k : A → M S B) (s : S) :
  o = Some a → kbind (kopt o) k s = k a s.
Proof. by intros ->. Qed.

(** [runs m s Q]: the run of [m] from [s] ends normally, in a result and a
    state that satisfy [Q].  It is a total-correctness triple: a panic or
    an exhausted budget satisfies no [Q]. *)
Definition runs {A} (m : M S A) (s : S) (Q : A → S → Prop) : Prop :=
  ∃ a s', m s = Ok a s' ∧ Q a s'.

Lemma runs_ret {A} (a : A) s (Q : A → S → Prop) : Q a s → runs (kret a) s Q.
Proof. intros. by exists a, s. Qed.

Lemma runs_bind {A B} (m : M S A) (k : A → M S B) s Q :
  runs m s (λ a s1, runs (k a) s1 Q) → runs (kbind m k) s Q.
Proof.
  intros (a & s1 & E & b & s2 & E2 & HQ). exists b, s2.
  by rewrite (kbind_Ok _ _ _ _ _ E).
Qed.

Lemma runs_bind_inv {A B} (m : M S A) (k : A → M S B) s Q :
  runs (kbind m k) s Q → runs m s (λ a s1, runs (k a) s1 Q).
Proof.
  intros (b & s2 & (a & s1 & E1 & E2)%kbind_Ok_inv & HQ). exists a, s1. split; [done|].
  by exists b, s2.
Qed.

Lemma runs_mono {A} (m : M S A) s (Q R : A → S → Prop) :
  runs m s Q → (∀ a s', Q a s' → R a s') → runs m s R.
Proof. intros (a & s1 & E & HQ) H. exists a, s1. auto. Qed.

Lemma runs_gets {A} (f : S → A) s (Q : A → S → Prop) :
  Q (f s) s → runs (gets f) s Q.
Proof. intros. by exists (f s), s. Qed.

Lemma runs_modify (f : S → S) s (Q : unit → S → Prop) :
  Q tt (f s) → runs (modify f) s Q.
Proof. intros. by exists tt, (f s). Qed.

Lemma runs_assert b s (Q : unit → S → Prop) :
  b = true → Q tt s → runs (kassert b) s Q.
Proof. intros ->. by exists tt, s. Qed.

Lemma runs_opt {A} (o : option A) a s (Q : A → S → Prop) :
  o = Some a → Q a s → runs (kopt o) s Q.
Proof. intros ->. by exists a, s. Qed.

Lemma runs_when b (m : M S unit) s (Q : unit → S → Prop) :
  (b = true → runs m s Q) → (b = false → Q tt s) → runs (kwhen b m) s Q.
Proof. destruct b; intros H1 H2; [by apply H1|]. exists tt, s; auto. Qed.

Lemma runs_Ok {A} (m : M S A) s a s' (Q : A → S → Prop) :
  m s = Ok a s' → Q a s' → runs m s Q.
Proof. intros. by exists a, s'. Qed.

(** A budget-monotone function: more fuel never changes a result. *)
Lemma kfor_app {A} (xs ys : list A) (body : A → M S unit) s :
  kfor (xs ++ ys) body s = kbind (kfor xs body) (λ _, kfor ys body) s.
Proof.
  revert s; induction xs as [|x xs IH]; intros s; [done|].
  cbn. unfold kbind. destruct (body x s); try done.
Qed.

Lemma runs_kfor {A} (I : list A → S → Prop) (xs : list A) (body : A → M S unit) s :
  I xs s →
  (∀ x xs' s1, I (x :: xs') s1 → runs (body x) s1 (λ _ s2, I xs' s2)) →
  runs (kfor xs body) s (λ _ s', I [] s').
Proof.
  intros H0 Hstep. revert s H0.
  induction xs as [|x xs IH]; intros s H0; [by apply runs_ret|].
  apply runs_bind. eapply runs_mono; [by apply Hstep|]. cbn. auto.
Qed.
End Running.

(** ** Computations up to pointwise equality *)
Definition meq {S A} (m m' : M S A) : Prop := ∀ s, m s = m' s.
Infix "≡ₖ" := meq (at level 70, no associativity) : kernel_scope.

#[export] Instance meq_equivalence {S A} : Equivalence (@meq S A).
Proof.
  split; [by intros m s|by intros m m' H s|].
  intros m m' m'' H1 H2 s. by rewrite H1.
Qed.
#[export] Instance kbind_proper {S A B} :
  Proper (@meq S A ==> pointwise_relation A (@meq S B) ==> @meq S B) kbind.
Proof. intros m m' Hm k k' Hk s. unfold kbind. rewrite Hm. destruct (m' s); [apply Hk|done..]. Qed.
#[export] Instance kwhen_proper {S} b : Proper (@meq S unit ==> @meq S unit) (kwhen b).
Proof. intros m m' Hm. by destruct b. Qed.

(** [kstep] runs the head of a bind whose equation is a hypothesis or follows
    by computation; [kauto] repeats it. *)
Ltac kstep :=
  match goal with
  | H : ?m ?s = Ok _ _ |- context [kbind ?m ?k ?s] =>
      rewrite (kbind_Ok m k s _ _ H)
  | |- context [kbind (kret ?a) ?k] => rewrite (kbind_kret a k)
  | |- context [kbind (gets ?f) ?k ?s] =>
      rewrite (kbind_Ok (gets f) k s s (f s) eq_refl)
  | |- context [kbind (modify ?f) ?k ?s] =>
      rewrite (kbind_Ok (modify f) k s (f s) tt eq_refl)
  | |- context [kbind (kassert ?b) ?k ?s] =>
      rewrite (kassert_true b k s) by (done || assumption)
  | H : ?o = Some _ |- context [kbind (kopt ?o) ?k ?s] =>
      rewrite (kopt_Some o _ k s H)
  end; cbv beta.
Ltac ksteps := repeat kstep.

Create HintDb kernel discriminated.
#[export] Hint Resolve runs_ret runs_gets runs_modify : kernel.

(** ** Comparisons as lexicographic keys *)

(** Lexicographic comparison of key lists. *)
Fixpoint lex (xs ys : list Z) : comparison :=
  match xs, ys with
  | [], [] => Eq
  | [], _ :: _ => Lt
  | _ :: _, [] => Gt
  | x :: xs', y :: ys' =>
      match x ?= y with
      | Eq => lex xs' ys'
      | c => c
      end
  end.

Lemma lex_refl xs : lex xs xs = Eq.
Proof. induction xs as [|x xs IH]; cbn; [done|]. by rewrite Z.compare_refl. Qed.

Lemma lex_Eq xs ys : lex xs ys = Eq ↔ xs = ys.
Proof.
  split; [|intros ->; apply lex_refl].
  revert ys; induction xs as [|x xs IH]; intros [|y ys]; cbn; try done.
  destruct (Z.compare_spec x y) as [->| |]; try done.
  intros H. by rewrite (IH ys).
Qed.

Lemma lex_antisym xs ys : lex ys xs = CompOpp (lex xs ys).
Proof.
  revert ys; induction xs as [|x xs IH]; intros [|y ys]; cbn; try done.
  rewrite (Z.compare_antisym x y). destruct (x ?= y); cbn; auto.
Qed.

Lemma lex_trans xs ys zs : lex xs ys = Lt → lex ys zs = Lt → lex xs zs = Lt.
Proof.
  revert ys zs; induction xs as [|x xs IH]; intros [|y ys] [|z zs]; cbn; try done.
  destruct (Z.compare_spec x y) as [->|Hxy|]; try done;
    destruct (Z.compare_spec y z) as [->|Hyz|]; try done; intros H1 H2.
  - eauto.
  - by rewrite (proj2 (Z.compare_lt_iff x z)).
  - by rewrite (proj2 (Z.compare_lt_iff x z)) by lia.
Qed.

(** ** Lists *)

Lemma NoDup_app_cons_inv {A} (l1 l2 : list A) x :
  NoDup (l1 ++ x :: l2) → x ∉ l1 ∧ x ∉ l2 ∧ NoDup (l1 ++ l2).
Proof.
  rewrite !NoDup_app, NoDup_cons. intros (H1 & H2 & H3 & H4).
  split_and!; auto; try set_solver.
Qed.

Lemma app_cons_inj {A} (l1 l2 k1 k2 : list A) x :
  x ∉ l1 → x ∉ k1 → l1 ++ x :: l2 = k1 ++ x :: k2 → l1 = k1 ∧ l2 = k2.
Proof.
  revert k1; induction l1 as [|a l1 IH]; intros [|b k1]; cbn; intros H1 H2 [= ]; subst.
  - done.
  - set_solver.
  - set_solver.
  - destruct (IH k1) as [-> ->]; set_solver.
Qed.

(** ** Arrays

    [znth a i] is [a[i]], [store a i v] is [a[i] = v]; both fail outside the
    array. *)
Definition znth {A} (a : list A) (i : Z) : option A :=
  if 0 <=? i then a !! Z.to_nat i else None.
Definition store {A} (a : list A) (i : Z) (v : A) : option (list A) :=
  let? _ := znth a i in Some (<[Z.to_nat i := v]> a).

Section Arrays.
Context {A : Type}.

Lemma znth_range (l : list A) i :
  0 ≤ i < Z.of_nat (length l) ↔ is_Some (znth l i).
Proof.
  unfold znth. destruct (Z.leb_spec 0 i) as [H|H].
  - rewrite lookup_lt_is_Some. lia.
  - split; [lia|]. by intros [? ?].
Qed.

Lemma znth_insert (l : list A) i x j :
  0 ≤ i < Z.of_nat (length l) →
  znth (<[Z.to_nat i := x]> l) j = if i =? j then Some x else znth l j.
Proof.
  intros Hi. unfold znth. destruct (Z.eqb_spec i j) as [->|Hne].
  - rewrite (proj2 (Z.leb_le 0 j)) by lia. apply list_lookup_insert_eq. lia.
  - destruct (Z.leb_spec 0 j); [|done]. apply list_lookup_insert_ne. lia.
Qed.

Lemma znth_lookup (l : list A) i : 0 ≤ i → znth l i = l !! Z.to_nat i.
Proof. intros H. unfold znth. by rewrite (proj2 (Z.leb_le 0 i) H). Qed.

Lemma znth_Forall (Q : A → Prop) (l : list A) i x : Forall Q l → znth l i = Some x → Q x.
Proof.
  intros HF. unfold znth. destruct (0 <=? i); [|done].
  intros H. by apply (proj1 (Forall_lookup Q l) HF _ _ H).
Qed.

Lemma znth_insert_same (l : list A) i x :
  0 ≤ i < Z.of_nat (length l) → znth (<[Z.to_nat i := x]> l) i = Some x.
Proof. intros H. by rewrite znth_insert, Z.eqb_refl. Qed.

Lemma znth_cons (x : A) l i : 0 < i → znth (x :: l) i = znth l (i - 1).
Proof.
  intros Hi. rewrite !znth_lookup by lia.
  by replace (Z.to_nat i) with (S (Z.to_nat (i - 1))) by lia.
Qed.

Lemma store_Some (l : list A) i x :
  0 ≤ i < Z.of_nat (length l) → store l i x = Some (<[Z.to_nat i := x]> l).
Proof. intros H. unfold store. by destruct (proj1 (znth_range l i) H) as [y ->]. Qed.
End Arrays.

(** ** Refinement of one component by another

    A component is a step function from a state and an operation to a state and
    a result, [None] when the step fails (an assertion, an access outside an
    array).  [Refines impl spec rel]: from related states every step the
    specification allows is one of the implementation, with the same result. *)
Class Refines {S T O R} (impl : S → O → option (S * R)) (spec : T → O → option (T * R))
    (rel : S → T → Prop) : Prop :=
  refines_step s t o t' r :
    rel s t → spec t o = Some (t', r) → ∃ s', impl s o = Some (s', r) ∧ rel s' t'.

(** A sequence of operations: the last state and the results. *)
Fixpoint run_ops {S O R} (step : S → O → option (S * R)) (s : S) (ops : list O) :
    option (S * list R) :=
  match ops with
  | [] => Some (s, [])
  | o :: ops =>
      match step s o with
      | Some (s, r) =>
          match run_ops step s ops with Some (s, rs) => Some (s, r :: rs) | None => None end
      | None => None
      end
  end.

Lemma run_ops_cons {S O R} (step : S → O → option (S * R)) s o ops s' rs :
  run_ops step s (o :: ops) = Some (s', rs) ↔
  ∃ s1 r rs', step s o = Some (s1, r) ∧ run_ops step s1 ops = Some (s', rs') ∧ rs = r :: rs'.
Proof.
  cbn. split.
  - destruct (step s o) as [[s1 r]|]; [|done].
    destruct (run_ops step s1 ops) as [[s2 rs']|] eqn:E; [|done]. intros [= <- <-]. eauto 8.
  - intros (s1 & r & rs' & -> & -> & ->). done.
Qed.

Lemma refines_run {S T O R} (impl : S → O → option (S * R)) (spec : T → O → option (T * R)) rel
    `{!Refines impl spec rel} ops s t t' rs :
  rel s t → run_ops spec t ops = Some (t', rs) →
  ∃ s', run_ops impl s ops = Some (s', rs) ∧ rel s' t'.
Proof.
  revert s t rs. induction ops as [|o ops IH]; intros s t rs Hr Hrun.
  { cbn in Hrun. injection Hrun as <- <-. by exists s. }
  apply run_ops_cons in Hrun as (t1 & r & rs' & Ho & Hrun & ->).
  destruct (refines_step s t o t1 r Hr Ho) as (s1 & Hs & Hr1).
  destruct (IH s1 t1 rs' Hr1 Hrun) as (s' & Hs' & Hr').
  exists s'. split; [|done]. apply run_ops_cons. eauto 8.
Qed.
