(* ===== verification/Word32.v ===== *)
(** * 32-bit machine words

    The kernel is modelled for its 32-bit ARM configuration.  A word is a [Z]
    in [[0, 2^32)]; every operation that may leave this range goes through
    [w32].  Models the macros of [include/util.h] ([MASK], [IS_ALIGNED],
    [ROUND_DOWN], [ROUND_UP], [CLZ]), [BIT], and the two kinds of fields of the
    bitfield generator ([field n] keeps the low [n] bits of the stored value,
    [field_high n] the high ones). *)

From S2P Require Import Prelude.

Definition wordBits : Z := 32.
Definition w32 (x : Z) : Z := x mod 2 ^ 32.
Definition w64 (x : Z) : Z := x mod 2 ^ 64.
Definition is_w32 (x : Z) : Prop := 0 ≤ x < 2 ^ 32.

(** [~x] on a word. *)
Definition wnot (x : Z) : Z := 2 ^ 32 - 1 - x.

Definition BIT (n : Z) : Z := w32 (Z.shiftl 1 n).
Definition MASK (n : Z) : Z := w32 (BIT n - 1).
Definition IS_ALIGNED (n b : Z) : bool := Z.land n (MASK b) =? 0.
Definition ROUND_DOWN (n b : Z) : Z := w32 (Z.shiftl (Z.shiftr n b) b).
Definition ROUND_UP (n b : Z) : Z :=
  w32 (Z.shiftl (w32 (Z.shiftr (w32 (n - 1)) b + 1)) b).

(** [__builtin_clz] of a non-zero word. *)
Definition CLZ (x : Z) : Z := 31 - Z.log2 x.

Definition field (n v : Z) : Z := Z.land v (Z.ones n).
Definition field_high (n v : Z) : Z := Z.land v (Z.shiftl (Z.ones n) (32 - n)).

Definition b2z (b : bool) : Z := if b then 1 else 0.
Definition z2b (z : Z) : bool := negb (z =? 0).

Lemma w32_range x : is_w32 (w32 x).
Proof. apply Z.mod_pos_bound. lia. Qed.

Lemma w32_id x : is_w32 x → w32 x = x.
Proof. intros. by apply Z.mod_small. Qed.

Lemma w32_idemp x : w32 (w32 x) = w32 x.
Proof. apply w32_id, w32_range. Qed.

Lemma BIT_eq n : 0 ≤ n < 32 → BIT n = 2 ^ n.
Proof.
  intros Hn. unfold BIT. rewrite Z.shiftl_1_l. apply w32_id. split; [lia|].
  apply Z.pow_lt_mono_r; lia.
Qed.

Lemma BIT_0 n : 32 ≤ n → BIT n = 0.
Proof.
  intros Hn. unfold BIT, w32. rewrite Z.shiftl_1_l.
  replace n with ((n - 32) + 32) by lia. rewrite Z.pow_add_r by lia.
  apply Z.mod_mul. lia.
Qed.

Lemma BIT_pos n : 0 ≤ n < 32 → 0 < BIT n.
Proof. intros. rewrite BIT_eq by lia. lia. Qed.

Lemma MASK_eq n : 0 ≤ n < 32 → MASK n = Z.ones n.
Proof.
  intros Hn. unfold MASK. rewrite BIT_eq by lia. rewrite Z.ones_equiv.
  apply w32_id. split; [lia|]. assert (2 ^ n < 2 ^ 32) by (apply Z.pow_lt_mono_r; lia). lia.
Qed.

Lemma land_MASK x n : 0 ≤ n < 32 → Z.land x (MASK n) = x mod 2 ^ n.
Proof. intros. rewrite MASK_eq by done. apply Z.land_ones. lia. Qed.

(** [x & ~MASK(n)] clears the low [n] bits. *)
Lemma land_wnot_MASK x n :
  is_w32 x → 0 ≤ n < 32 → Z.land x (wnot (MASK n)) = x - x mod 2 ^ n.
Proof.
  intros Hx Hn. rewrite MASK_eq by done.
  replace (wnot (Z.ones n)) with (Z.shiftl (Z.ones (32 - n)) n).
  2:{ unfold wnot. rewrite Z.shiftl_mul_pow2, !Z.ones_equiv by lia.
      assert (2 ^ 32 = 2 ^ (32 - n) * 2 ^ n) as -> by (rewrite <- Z.pow_add_r by lia; f_equal; lia).
      nia. }
  assert (Z.land x (Z.shiftl (Z.ones (32 - n)) n) = Z.shiftl (Z.shiftr x n) n) as ->.
  { apply Z.bits_inj'. intros i Hi.
    rewrite Z.land_spec, !Z.shiftl_spec by lia.
    destruct (Z.lt_ge_cases i n) as [Hin|Hin].
    { rewrite !(Z.testbit_neg_r _ (i - n)) by lia. apply andb_false_r. }
    rewrite Z.shiftr_spec by lia. replace (i - n + n) with i by lia.
    destruct (Z.lt_ge_cases i 32) as [Hi32|Hi32].
    { rewrite Z.ones_spec_low by lia. apply andb_true_r. }
    rewrite Z.ones_spec_high by lia. rewrite andb_false_r.
    symmetry. destruct Hx as [Hx1 Hx2]. destruct (decide (x = 0)) as [->|].
    { apply Z.bits_0. }
    apply Z.bits_above_log2; [lia|]. assert (Z.log2 x < 32); [|lia].
    apply Z.log2_lt_pow2; lia. }
  rewrite Z.shiftl_mul_pow2, Z.shiftr_div_pow2 by lia.
  rewrite (Z.div_mod x (2 ^ n)) at 2 by lia. lia.
Qed.

Lemma field_mod n v : 0 ≤ n → field n v = v mod 2 ^ n.
Proof. intros. by apply Z.land_ones. Qed.

Lemma field_range n v : 0 ≤ n → 0 ≤ field n v < 2 ^ n.
Proof. intros. rewrite field_mod by done. apply Z.mod_pos_bound. lia. Qed.

Lemma field_id n v : 0 ≤ v < 2 ^ n → 0 ≤ n → field n v = v.
Proof. intros. rewrite field_mod by lia. by apply Z.mod_small. Qed.

Lemma field_idemp n v : 0 ≤ n → field n (field n v) = field n v.
Proof. intros. apply field_id; [by apply field_range|done]. Qed.

Lemma field_high_wnot n v : field_high n v = Z.land v (wnot (MASK (32 - n))) ∨ ¬ (0 < n ≤ 32).
Proof.
  destruct (decide (0 < n ≤ 32)) as [Hn|]; [left|by right].
  unfold field_high. f_equal. rewrite MASK_eq by lia. unfold wnot.
  rewrite Z.shiftl_mul_pow2, !Z.ones_equiv by lia.
  assert (2 ^ 32 = 2 ^ n * 2 ^ (32 - n)) as -> by (rewrite <- Z.pow_add_r by lia; f_equal; lia).
  nia.
Qed.

Lemma field_high_eq n v :
  is_w32 v → 0 < n ≤ 32 → field_high n v = v - v mod 2 ^ (32 - n).
Proof.
  intros. destruct (field_high_wnot n v) as [->|]; [|done].
  apply land_wnot_MASK; [done|lia].
Qed.

Lemma field_high_id n v :
  is_w32 v → 0 < n ≤ 32 → v mod 2 ^ (32 - n) = 0 → field_high n v = v.
Proof. intros ?? E. rewrite field_high_eq by done. lia. Qed.

Lemma CLZ_range x : is_w32 x → 0 < x → 0 ≤ 31 - CLZ x < 32.
Proof.
  intros [_ H2] H. unfold CLZ. replace (31 - (31 - Z.log2 x)) with (Z.log2 x) by lia.
  split; [apply Z.log2_nonneg|]. apply Z.log2_lt_pow2; lia.
Qed.

(** The index computed with [CLZ] is that of the highest set bit. *)
Lemma CLZ_highest x i :
  0 < x → Z.testbit x i = true → i ≤ 31 - CLZ x.
Proof.
  intros Hx Hi. unfold CLZ. destruct (Z.lt_ge_cases (Z.log2 x) i) as [H|H]; [|lia].
  rewrite Z.bits_above_log2 in Hi by lia. done.
Qed.

Lemma CLZ_testbit x : 0 < x → Z.testbit x (31 - CLZ x) = true.
Proof.
  intros Hx. unfold CLZ. replace (31 - (31 - Z.log2 x)) with (Z.log2 x) by lia.
  by apply Z.bit_log2.
Qed.

Lemma testbit_nonzero x i : Z.testbit x i = true → x ≠ 0.
Proof. intros H ->. by rewrite Z.testbit_0_l in H. Qed.

Lemma nonneg_nonzero_bit x : 0 < x → ∃ i, 0 ≤ i ∧ Z.testbit x i = true.
Proof.
  intros. exists (Z.log2 x). split; [apply Z.log2_nonneg|by apply Z.bit_log2].
Qed.

(** Setting and clearing one bit of a word. *)
Lemma testbit_lor_BIT x n i :
  0 ≤ n < 32 → 0 ≤ i →
  Z.testbit (Z.lor x (BIT n)) i = (Z.testbit x i || (n =? i)).
Proof.
  intros. rewrite BIT_eq, Z.lor_spec, Z.pow2_bits_eqb by lia. done.
Qed.

Lemma testbit_wnot_BIT n i :
  0 ≤ n < 32 → 0 ≤ i < 32 → Z.testbit (wnot (BIT n)) i = negb (n =? i).
Proof.
  intros. rewrite BIT_eq by lia.
  replace (wnot (2 ^ n)) with (Z.ones 32 - 2 ^ n)
    by (unfold wnot; rewrite Z.ones_equiv; lia).
  rewrite Z.sub_nocarry_ldiff.
  - rewrite Z.ldiff_spec, Z.ones_spec_low, Z.pow2_bits_eqb by lia. done.
  - apply Z.bits_inj'. intros j Hj. rewrite Z.ldiff_spec, Z.bits_0, Z.pow2_bits_eqb by lia.
    destruct (Z.eqb_spec n j) as [->|]; [|done]. by rewrite Z.ones_spec_low by lia.
Qed.

Lemma testbit_clear_BIT x n i :
  0 ≤ n < 32 → 0 ≤ i < 32 →
  Z.testbit (Z.land x (wnot (BIT n))) i = (Z.testbit x i && negb (n =? i)).
Proof. intros. rewrite Z.land_spec, testbit_wnot_BIT by done. done. Qed.

Lemma w32_lor x y : is_w32 x → is_w32 y → is_w32 (Z.lor x y).
Proof.
  intros [Hx1 Hx2] [Hy1 Hy2]. split; [by apply Z.lor_nonneg|].
  destruct (decide (Z.lor x y = 0)) as [->|Hn]; [lia|].
  apply Z.log2_lt_pow2; [pose proof (proj2 (Z.lor_nonneg x y) (conj Hx1 Hy1)); lia|].
  rewrite Z.log2_lor by done.
  destruct (decide (x = 0)) as [->|]; destruct (decide (y = 0)) as [->|];
    apply Z.max_lub_lt; try (cbn; lia); apply Z.log2_lt_pow2; lia.
Qed.

Lemma w32_land x y : is_w32 x → 0 ≤ y → is_w32 (Z.land x y).
Proof.
  intros [Hx1 Hx2] Hy. split; [apply Z.land_nonneg; by left|].
  destruct (decide (Z.land x y = 0)) as [->|Hn]; [lia|].
  pose proof (proj2 (Z.land_nonneg x y) (or_introl Hx1)).
  apply Z.log2_lt_pow2; [lia|].
  assert (x ≠ 0) by (intros ->; by rewrite Z.land_0_l in Hn).
  pose proof (Z.log2_land x y Hx1 Hy).
  assert (Z.log2 x < 32) by (apply Z.log2_lt_pow2; lia). lia.
Qed.

#[export] Hint Resolve w32_range w32_lor w32_land : kernel.
