(* ===== verification/Structures.v ===== *)
(** * Kernel objects and capabilities

    Models [include/object/structures.h], [include/object/structures.bf],
    [include/arch/arm/arch/object/structures.{bf,h}],
    [include/arch/arm/arch/object/capspace.h], [include/api/types.{h,bf}] and
    [include/api/failures.h].  A bitfield block is a constructor with the
    fields of the block in the order of its generated [_new] function; [_new]
    truncates every field to its width, as the generated code does.  One-bit
    flags are [bool].  A function that contains an [assert] or a [fail] returns
    an option, [None] being the failed assertion. *)

From S2P Require Import Prelude.
From S2P Require Import Word32.

(** ** Sizes *)
Definition EP_SIZE_BITS : Z := 4.
Definition AEP_SIZE_BITS : Z := 4.
Definition CTE_SIZE_BITS : Z := 4.
Definition TCB_CNODE_RADIX : Z := 4.
Definition TCB_SIZE_BITS : Z := TCB_CNODE_RADIX + CTE_SIZE_BITS.
Definition TCB_BLOCK_SIZE_BITS : Z := TCB_SIZE_BITS + 1.
Definition TCB_OFFSET : Z := Z.shiftl 1 TCB_SIZE_BITS.
Definition PDE_SIZE_BITS : Z := 2.
Definition PTE_SIZE_BITS : Z := 2.
Definition PD_BITS : Z := 12.
Definition PT_BITS : Z := 8.
Definition PD_SIZE_BITS : Z := PD_BITS + PDE_SIZE_BITS.
Definition PT_SIZE_BITS : Z := PT_BITS + PTE_SIZE_BITS.
Definition CTE_DEPTH_BITS : Z := 5.

(** [TCB_PTR_CTE_PTR(p,i)]: slot [i] of the CNode that shares the TCB block of
    [p]; [sizeof(cte_t)] is 16. *)
Definition TCB_PTR_CTE_PTR (p i : Z) : Z :=
  w32 (Z.land p (wnot (MASK TCB_BLOCK_SIZE_BITS)) + 2 ^ CTE_SIZE_BITS * i).

Definition tcbCTable : Z := 0.
Definition tcbVTable : Z := 1.
Definition tcbReply : Z := 2.
Definition tcbCaller : Z := 3.
Definition tcbBuffer : Z := 4.
Definition tcbCNodeEntries : Z := 5.
Definition tcbArchCNodeEntries : Z := tcbCNodeEntries.

(** ** Frame sizes ([arch/machine/hardware.h]) *)
Definition ARMSmallPage : Z := 0.
Definition ARMLargePage : Z := 1.
Definition ARMSection : Z := 2.
Definition ARMSuperSection : Z := 3.
Definition ARMSmallPageBits : Z := 12.
Definition ARMLargePageBits : Z := 16.
Definition ARMSectionBits : Z := 20.
Definition ARMSuperSectionBits : Z := 24.

Definition pageBitsForSize (pagesize : Z) : option Z :=
  if pagesize =? ARMSmallPage then Some ARMSmallPageBits
  else if pagesize =? ARMLargePage then Some ARMLargePageBits
  else if pagesize =? ARMSection then Some ARMSectionBits
  else if pagesize =? ARMSuperSection then Some ARMSuperSectionBits
  else None.

(** ** Virtual-memory rights *)
Definition VMNoAccess : Z := 0.
Definition VMKernelOnly : Z := 1.
Definition VMReadOnly : Z := 2.
Definition VMReadWrite : Z := 3.

(** ** Capabilities ([tagged_union cap capType]) *)
Inductive cap_t : Type :=
| cap_null_cap
| cap_untyped_cap (capDeviceMemory : bool) (capBlockSize capPtr : Z)
| cap_endpoint_cap (capEPBadge : Z) (capCanGrant capCanSend capCanReceive : bool)
    (capEPPtr : Z)
| cap_async_endpoint_cap (capAEPBadge : Z) (capAEPCanReceive capAEPCanSend : bool)
    (capAEPPtr : Z)
| cap_reply_cap (capCallerSlot : Z) (capReplyMaster : bool) (capTCBPtr : Z)
| cap_cnode_cap (capCNodeRadix capCNodeGuardSize capCNodeGuard capCNodePtr : Z)
| cap_thread_cap (capTCBPtr : Z)
| cap_irq_control_cap
| cap_irq_handler_cap (capIRQ : Z)
| cap_zombie_cap (capZombieID capZombieType : Z)
| cap_domain_cap
| cap_frame_cap (capFMappedObjectHigh capFMappedIndex capFSize capFVMRights
    capFMappedObjectLow capFBasePtr : Z)
| cap_page_table_cap (capPTMappedObject capPTMappedIndex capPTBasePtr : Z)
| cap_page_directory_cap (capPDBasePtr : Z).

#[export] Instance cap_t_eq_dec : EqDecision cap_t.
Proof. solve_decision. Defined.

Definition cap_null_cap_new : cap_t := cap_null_cap.
Definition cap_untyped_cap_new (dev : bool) (bits ptr : Z) : cap_t :=
  cap_untyped_cap dev (field 5 bits) (field_high 28 ptr).
Definition cap_endpoint_cap_new (badge : Z) (grant send recv : bool) (ptr : Z) : cap_t :=
  cap_endpoint_cap (field 28 badge) grant send recv (field_high 28 ptr).
Definition cap_async_endpoint_cap_new (badge : Z) (recv send : bool) (ptr : Z) : cap_t :=
  cap_async_endpoint_cap (field 28 badge) recv send (field_high 28 ptr).
Definition cap_reply_cap_new (caller : Z) (master : bool) (tcb : Z) : cap_t :=
  cap_reply_cap (field_high 28 caller) master (field_high 27 tcb).
Definition cap_cnode_cap_new (radix gsize guard ptr : Z) : cap_t :=
  cap_cnode_cap (field 5 radix) (field 5 gsize) (field 18 guard) (field_high 27 ptr).
Definition cap_thread_cap_new (ptr : Z) : cap_t := cap_thread_cap (field_high 28 ptr).
Definition cap_irq_control_cap_new : cap_t := cap_irq_control_cap.
Definition cap_irq_handler_cap_new (irq : Z) : cap_t := cap_irq_handler_cap (field 8 irq).
Definition cap_zombie_cap_new (id type : Z) : cap_t := cap_zombie_cap (w32 id) (field 6 type).
Definition cap_domain_cap_new : cap_t := cap_domain_cap.
Definition cap_frame_cap_new (high idx size rights low base : Z) : cap_t :=
  cap_frame_cap (field 20 high) (field 12 idx) (field 3 size) (field 2 rights)
    (field 2 low) (field_high 20 base).
Definition cap_page_table_cap_new (obj idx base : Z) : cap_t :=
  cap_page_table_cap (field_high 20 obj) (field 12 idx) (field_high 22 base).
Definition cap_page_directory_cap_new (base : Z) : cap_t :=
  cap_page_directory_cap (field_high 18 base).

(** [cap_get_capType] and the values of [cap_tag_t]. *)
Definition cap_get_capType (c : cap_t) : Z :=
  match c with
  | cap_null_cap => 0
  | cap_untyped_cap _ _ _ => 2
  | cap_endpoint_cap _ _ _ _ _ => 4
  | cap_async_endpoint_cap _ _ _ _ => 6
  | cap_reply_cap _ _ _ => 8
  | cap_cnode_cap _ _ _ _ => 10
  | cap_thread_cap _ => 12
  | cap_frame_cap _ _ _ _ _ _ => 1
  | cap_page_table_cap _ _ _ => 3
  | cap_page_directory_cap _ => 5
  | cap_irq_control_cap => 14
  | cap_irq_handler_cap _ => 30
  | cap_zombie_cap _ _ => 46
  | cap_domain_cap => 62
  end.

Definition isArchCap (c : cap_t) : bool := z2b (cap_get_capType c mod 2).
Definition is_null (c : cap_t) : bool := cap_get_capType c =? 0.
Definition is_reply_cap (c : cap_t) : bool := cap_get_capType c =? 8.

(** The address of the page table or directory a frame is mapped in is split
    over two fields. *)
Definition cap_frame_cap_get_capFMappedObject (c : cap_t) : Z :=
  match c with
  | cap_frame_cap high _ _ _ low _ => w32 (Z.shiftl high 12 + Z.shiftl low 10)
  | _ => 0
  end.
Definition FMAPPED_OBJECT_LOW (a : Z) : Z := Z.land (Z.shiftr a 10) (MASK 2).
Definition FMAPPED_OBJECT_HIGH (a : Z) : Z := Z.shiftr a 12.
Definition cap_frame_cap_set_capFMappedObject (c : cap_t) (val : Z) : cap_t :=
  match c with
  | cap_frame_cap _ idx size rights _ base =>
      cap_frame_cap (field 20 (FMAPPED_OBJECT_HIGH val)) idx size rights
        (field 2 (FMAPPED_OBJECT_LOW val)) base
  | _ => c
  end.

(** ** Zombie capabilities *)
Definition ZombieType_ZombieTCB : Z := BIT 5.
Definition ZombieType_ZombieCNode (n : Z) : Z := Z.land n (MASK 5).

Definition Zombie_new (number type ptr : Z) : cap_t :=
  let mask := if type =? ZombieType_ZombieTCB then MASK (TCB_CNODE_RADIX + 1)
              else MASK (type + 1) in
  cap_zombie_cap_new (Z.lor (Z.land ptr (wnot mask)) (Z.land number mask)) type.

Definition zombie_bits (type : Z) : Z :=
  if type =? ZombieType_ZombieTCB then TCB_CNODE_RADIX else ZombieType_ZombieCNode type.
Definition cap_zombie_cap_get_capZombieBits (c : cap_t) : Z :=
  match c with cap_zombie_cap _ type => zombie_bits type | _ => 0 end.
Definition cap_zombie_cap_get_capZombieNumber (c : cap_t) : Z :=
  match c with
  | cap_zombie_cap id type => Z.land id (MASK (zombie_bits type + 1))
  | _ => 0
  end.
Definition cap_zombie_cap_get_capZombiePtr (c : cap_t) : Z :=
  match c with
  | cap_zombie_cap id type => Z.land id (wnot (MASK (zombie_bits type + 1)))
  | _ => 0
  end.
Definition cap_zombie_cap_set_capZombieNumber (c : cap_t) (n : Z) : cap_t :=
  match c with
  | cap_zombie_cap id type =>
      let m := MASK (zombie_bits type + 1) in
      cap_zombie_cap (w32 (Z.lor (Z.land id (wnot m)) (Z.land n m))) type
  | _ => c
  end.

(** ** Generic accessors *)
Definition cap_get_archCapSizeBits (c : cap_t) : option Z :=
  match c with
  | cap_frame_cap _ _ size _ _ _ => pageBitsForSize size
  | cap_page_table_cap _ _ _ => Some PT_SIZE_BITS
  | cap_page_directory_cap _ => Some PD_SIZE_BITS
  | _ => None
  end.

Definition cap_get_capSizeBits (c : cap_t) : option Z :=
  match c with
  | cap_untyped_cap _ bits _ => Some bits
  | cap_endpoint_cap _ _ _ _ _ => Some EP_SIZE_BITS
  | cap_async_endpoint_cap _ _ _ _ => Some AEP_SIZE_BITS
  | cap_cnode_cap radix _ _ _ => Some (radix + CTE_SIZE_BITS)
  | cap_thread_cap _ => Some TCB_BLOCK_SIZE_BITS
  | cap_zombie_cap _ type =>
      Some (if type =? ZombieType_ZombieTCB then TCB_BLOCK_SIZE_BITS
            else ZombieType_ZombieCNode type + CTE_SIZE_BITS)
  | cap_null_cap | cap_domain_cap | cap_reply_cap _ _ _
  | cap_irq_control_cap | cap_irq_handler_cap _ => Some 0
  | _ => cap_get_archCapSizeBits c
  end.

Definition cap_get_archCapPtr (c : cap_t) : option Z :=
  match c with
  | cap_frame_cap _ _ _ _ _ base => Some base
  | cap_page_table_cap _ _ base => Some base
  | cap_page_directory_cap base => Some base
  | _ => None
  end.

Definition cap_get_capPtr (c : cap_t) : option Z :=
  match c with
  | cap_untyped_cap _ _ ptr => Some ptr
  | cap_endpoint_cap _ _ _ _ ptr => Some ptr
  | cap_async_endpoint_cap _ _ _ ptr => Some ptr
  | cap_cnode_cap _ _ _ ptr => Some ptr
  | cap_thread_cap tcb => Some (TCB_PTR_CTE_PTR tcb 0)
  | cap_zombie_cap _ _ => Some (cap_zombie_cap_get_capZombiePtr c)
  | cap_domain_cap | cap_reply_cap _ _ _ | cap_irq_control_cap
  | cap_irq_handler_cap _ => Some 0
  | cap_null_cap => None
  | _ => cap_get_archCapPtr c
  end.

Definition cap_get_capBadge (c : cap_t) : Z :=
  match c with
  | cap_endpoint_cap badge _ _ _ _ => badge
  | cap_async_endpoint_cap badge _ _ _ => badge
  | _ => 0
  end.

(** ** Capability spaces ([arch/object/capspace.h]) *)
Definition capSpaceUntypedMemory : Z := 0.
Definition capSpaceTypedMemory : Z := 1.
Definition capSpaceIRQ : Z := 2.
Definition capSpaceDomain : Z := 3.

Definition cap_get_capSpaceType (c : cap_t) : option Z :=
  match c with
  | cap_endpoint_cap _ _ _ _ _ | cap_async_endpoint_cap _ _ _ _
  | cap_cnode_cap _ _ _ _ | cap_thread_cap _ | cap_frame_cap _ _ _ _ _ _
  | cap_page_table_cap _ _ _ | cap_page_directory_cap _ | cap_zombie_cap _ _ =>
      Some capSpaceTypedMemory
  | cap_untyped_cap _ _ _ => Some capSpaceUntypedMemory
  | cap_irq_control_cap | cap_irq_handler_cap _ => Some capSpaceIRQ
  | cap_domain_cap => Some capSpaceDomain
  | cap_null_cap | cap_reply_cap _ _ _ => None
  end.

Definition cap_get_capSpacePtr (c : cap_t) : option Z :=
  match c with
  | cap_reply_cap _ _ tcb => Some tcb
  | cap_irq_control_cap => Some 0
  | cap_irq_handler_cap irq => Some irq
  | cap_domain_cap => Some 0
  | cap_null_cap => None
  | _ => cap_get_capPtr c
  end.

Definition cap_get_capSpaceSize (c : cap_t) : option Z :=
  match c with
  | cap_reply_cap _ _ _ => Some 1
  | cap_irq_control_cap => Some 255
  | cap_irq_handler_cap _ => Some 1
  | cap_domain_cap => Some 1
  | cap_null_cap => None
  | _ => let? bits := cap_get_capSizeBits c in Some (BIT bits)
  end.

(** Only mapped frames and page tables have an extra component, the address of
    the page-table or directory entry that maps them ([sizeof] is 4). *)
Definition cap_get_capExtraComp (c : cap_t) : option Z :=
  match c with
  | cap_frame_cap _ idx size _ _ _ =>
      let obj := cap_frame_cap_get_capFMappedObject c in
      if obj =? 0 then Some 0
      else if (0 <=? size) && (size <=? 3) then Some (w32 (obj + 4 * idx))
      else None
  | cap_page_table_cap obj idx _ =>
      if obj =? 0 then Some 0 else Some (w32 (obj + 4 * idx))
  | _ => Some 0
  end.

Definition cte_depth_bits_type (ctag : Z) : Z :=
  if (ctag =? 1) || (ctag =? 3) then 1 else CTE_DEPTH_BITS.
Definition cte_depth_bits_cap (c : cap_t) : Z := cte_depth_bits_type (cap_get_capType c).

(** ** Mapping database nodes

    The two child pointers are stored as 27-bit word offsets: the accessors
    add the fixed top bits of the kernel window, and 0 stands for NULL. *)
Record mdb_node_t : Type := mdb_node {
  cdtRight_ : Z;
  cdtDepth : Z;
  cdtLeft_ : Z;
  cdtLevel : Z
}.

Definition mdb_node_new (right depth left level : Z) : mdb_node_t :=
  mdb_node (field 27 right) (field 5 depth) (field 27 left) (field 5 level).
Definition nullMDBNode : mdb_node_t := mdb_node_new 0 0 0 0.

Definition mdb_ptr_decode (x : Z) : Z :=
  let cte := w32 (Z.shiftl x 2) in
  if cte =? 0 then 0 else Z.lor cte 0xE0000000.
Definition mdb_ptr_encode (cte : Z) : option Z :=
  if Z.land cte (MASK 2) =? 0
  then Some (field 27 (Z.shiftr (Z.land cte 0x1FFFFFFF) 2)) else None.

Definition mdb_node_get_cdtLeft (m : mdb_node_t) : Z := mdb_ptr_decode (cdtLeft_ m).
Definition mdb_node_get_cdtRight (m : mdb_node_t) : Z := mdb_ptr_decode (cdtRight_ m).
Definition mdb_node_set_cdtLeft (m : mdb_node_t) (cte : Z) : option mdb_node_t :=
  let? x := mdb_ptr_encode cte in
  Some (mdb_node (cdtRight_ m) (cdtDepth m) x (cdtLevel m)).
Definition mdb_node_set_cdtRight (m : mdb_node_t) (cte : Z) : option mdb_node_t :=
  let? x := mdb_ptr_encode cte in
  Some (mdb_node x (cdtDepth m) (cdtLeft_ m) (cdtLevel m)).
Definition mdb_node_set_cdtLevel (m : mdb_node_t) (level : Z) : mdb_node_t :=
  mdb_node (cdtRight_ m) (cdtDepth m) (cdtLeft_ m) (field 5 level).

(** Capability table entry. *)
Record cte_t : Type := cte {
  cteCap : cap_t;
  cteMDBNode : mdb_node_t
}.
Definition null_cte : cte_t := cte cap_null_cap nullMDBNode.

(** ** Faults *)
Inductive lookup_fault_t : Type :=
| lookup_fault_invalid_root
| lookup_fault_missing_capability (bitsLeft : Z)
| lookup_fault_depth_mismatch (bitsFound bitsLeft : Z)
| lookup_fault_guard_mismatch (guardFound bitsLeft bitsFound : Z).

Definition lookup_fault_missing_capability_new (bitsLeft : Z) : lookup_fault_t :=
  lookup_fault_missing_capability (field 6 bitsLeft).
Definition lookup_fault_depth_mismatch_new (bitsFound bitsLeft : Z) : lookup_fault_t :=
  lookup_fault_depth_mismatch (field 6 bitsFound) (field 6 bitsLeft).
Definition lookup_fault_guard_mismatch_new (guard bitsLeft bitsFound : Z) : lookup_fault_t :=
  lookup_fault_guard_mismatch (w32 guard) (field 6 bitsLeft) (field 6 bitsFound).

Inductive fault_t : Type :=
| fault_null_fault
| fault_cap_fault (address : Z) (inReceivePhase : bool)
| fault_vm_fault (address FSR : Z) (instructionFault : bool)
| fault_unknown_syscall (syscallNumber : Z)
| fault_user_exception (number code : Z).

Definition fault_vm_fault_new (address fsr : Z) (instr : bool) : fault_t :=
  fault_vm_fault (w32 address) (field 14 fsr) instr.
Definition fault_user_exception_new (number code : Z) : fault_t :=
  fault_user_exception (w32 number) (field 29 code).

Definition fault_get_faultType (f : fault_t) : Z :=
  match f with
  | fault_null_fault => 0
  | fault_cap_fault _ _ => 1
  | fault_vm_fault _ _ _ => 2
  | fault_unknown_syscall _ => 3
  | fault_user_exception _ _ => 4
  end.

(** ** Thread control blocks *)
Inductive _thread_state : Type :=
| ThreadState_Inactive
| ThreadState_Running
| ThreadState_Restart
| ThreadState_BlockedOnReceive
| ThreadState_BlockedOnSend
| ThreadState_BlockedOnReply
| ThreadState_BlockedOnAsyncEvent
| ThreadState_RunningVM
| ThreadState_IdleThreadState.

#[export] Instance thread_state_eq_dec : EqDecision _thread_state.
Proof. solve_decision. Defined.

Record thread_state_t : Type := thread_state {
  blockingIPCBadge : Z;
  blockingIPCCanGrant : bool;
  blockingIPCIsCall : bool;
  tcbQueued : bool;
  blockingIPCDiminishCaps : bool;
  blockingIPCEndpoint : Z;
  tsType : _thread_state;
}.

Definition thread_state_new : thread_state_t :=
  thread_state 0 false false false false 0 ThreadState_Inactive.

Definition thread_state_set_blockingIPCBadge (v : Z) (x : thread_state_t) : thread_state_t :=
  thread_state (field 28 v) (blockingIPCCanGrant x) (blockingIPCIsCall x) (tcbQueued x)
    (blockingIPCDiminishCaps x) (blockingIPCEndpoint x) (tsType x).
Definition thread_state_set_blockingIPCCanGrant (v : bool) (x : thread_state_t) : thread_state_t :=
  thread_state (blockingIPCBadge x) v (blockingIPCIsCall x) (tcbQueued x)
    (blockingIPCDiminishCaps x) (blockingIPCEndpoint x) (tsType x).
Definition thread_state_set_blockingIPCIsCall (v : bool) (x : thread_state_t) : thread_state_t :=
  thread_state (blockingIPCBadge x) (blockingIPCCanGrant x) v (tcbQueued x)
    (blockingIPCDiminishCaps x) (blockingIPCEndpoint x) (tsType x).
Definition thread_state_set_tcbQueued (v : bool) (x : thread_state_t) : thread_state_t :=
  thread_state (blockingIPCBadge x) (blockingIPCCanGrant x) (blockingIPCIsCall x) v
    (blockingIPCDiminishCaps x) (blockingIPCEndpoint x) (tsType x).
Definition thread_state_set_blockingIPCDiminishCaps (v : bool) (x : thread_state_t) : thread_state_t :=
  thread_state (blockingIPCBadge x) (blockingIPCCanGrant x) (blockingIPCIsCall x)
    (tcbQueued x) v (blockingIPCEndpoint x) (tsType x).
Definition thread_state_set_blockingIPCEndpoint (v : Z) (x : thread_state_t) : thread_state_t :=
  thread_state (blockingIPCBadge x) (blockingIPCCanGrant x) (blockingIPCIsCall x)
    (tcbQueued x) (blockingIPCDiminishCaps x) (field_high 28 v) (tsType x).
Definition thread_state_set_tsType (v : _thread_state) (x : thread_state_t) : thread_state_t :=
  thread_state (blockingIPCBadge x) (blockingIPCCanGrant x) (blockingIPCIsCall x)
    (tcbQueued x) (blockingIPCDiminishCaps x) (blockingIPCEndpoint x) v.

(** [struct tcb]; the context is the array of the 18 saved registers. *)
Record tcb_t : Type := tcb {
  tcbContext : list Z;
  tcbState : thread_state_t;
  boundAsyncEndpoint : Z;
  tcbFault : fault_t;
  tcbLookupFailure : lookup_fault_t;
  tcbDomain : Z;
  tcbPriority : Z;
  tcbTimeSlice : Z;
  tcbFaultHandler : Z;
  tcbIPCBuffer : Z;
  tcbSchedNext : Z;
  tcbSchedPrev : Z;
  tcbEPNext : Z;
  tcbEPPrev : Z;
}.
Definition set_tcbContext (v : list Z) (x : tcb_t) : tcb_t :=
  tcb v (tcbState x) (boundAsyncEndpoint x) (tcbFault x) (tcbLookupFailure x) (tcbDomain
    x) (tcbPriority x) (tcbTimeSlice x) (tcbFaultHandler x) (tcbIPCBuffer x)
    (tcbSchedNext x) (tcbSchedPrev x) (tcbEPNext x) (tcbEPPrev x).
Definition set_tcbState (v : thread_state_t) (x : tcb_t) : tcb_t :=
  tcb (tcbContext x) v (boundAsyncEndpoint x) (tcbFault x) (tcbLookupFailure x)
    (tcbDomain x) (tcbPriority x) (tcbTimeSlice x) (tcbFaultHandler x) (tcbIPCBuffer x)
    (tcbSchedNext x) (tcbSchedPrev x) (tcbEPNext x) (tcbEPPrev x).
Definition set_boundAsyncEndpoint (v : Z) (x : tcb_t) : tcb_t :=
  tcb (tcbContext x) (tcbState x) v (tcbFault x) (tcbLookupFailure x) (tcbDomain x)
    (tcbPriority x) (tcbTimeSlice x) (tcbFaultHandler x) (tcbIPCBuffer x) (tcbSchedNext
    x) (tcbSchedPrev x) (tcbEPNext x) (tcbEPPrev x).
Definition set_tcbFault (v : fault_t) (x : tcb_t) : tcb_t :=
  tcb (tcbContext x) (tcbState x) (boundAsyncEndpoint x) v (tcbLookupFailure x)
    (tcbDomain x) (tcbPriority x) (tcbTimeSlice x) (tcbFaultHandler x) (tcbIPCBuffer x)
    (tcbSchedNext x) (tcbSchedPrev x) (tcbEPNext x) (tcbEPPrev x).
Definition set_tcbLookupFailure (v : lookup_fault_t) (x : tcb_t) : tcb_t :=
  tcb (tcbContext x) (tcbState x) (boundAsyncEndpoint x) (tcbFault x) v (tcbDomain x)
    (tcbPriority x) (tcbTimeSlice x) (tcbFaultHandler x) (tcbIPCBuffer x) (tcbSchedNext
    x) (tcbSchedPrev x) (tcbEPNext x) (tcbEPPrev x).
Definition set_tcbDomain (v : Z) (x : tcb_t) : tcb_t :=
  tcb (tcbContext x) (tcbState x) (boundAsyncEndpoint x) (tcbFault x) (tcbLookupFailure
    x) v (tcbPriority x) (tcbTimeSlice x) (tcbFaultHandler x) (tcbIPCBuffer x)
    (tcbSchedNext x) (tcbSchedPrev x) (tcbEPNext x) (tcbEPPrev x).
Definition set_tcbPriority (v : Z) (x : tcb_t) : tcb_t :=
  tcb (tcbContext x) (tcbState x) (boundAsyncEndpoint x) (tcbFault x) (tcbLookupFailure
    x) (tcbDomain x) v (tcbTimeSlice x) (tcbFaultHandler x) (tcbIPCBuffer x)
    (tcbSchedNext x) (tcbSchedPrev x) (tcbEPNext x) (tcbEPPrev x).
Definition set_tcbTimeSlice (v : Z) (x : tcb_t) : tcb_t :=
  tcb (tcbContext x) (tcbState x) (boundAsyncEndpoint x) (tcbFault x) (tcbLookupFailure
    x) (tcbDomain x) (tcbPriority x) v (tcbFaultHandler x) (tcbIPCBuffer x)
    (tcbSchedNext x) (tcbSchedPrev x) (tcbEPNext x) (tcbEPPrev x).
Definition set_tcbFaultHandler (v : Z) (x : tcb_t) : tcb_t :=
  tcb (tcbContext x) (tcbState x) (boundAsyncEndpoint x) (tcbFault x) (tcbLookupFailure
    x) (tcbDomain x) (tcbPriority x) (tcbTimeSlice x) v (tcbIPCBuffer x) (tcbSchedNext
    x) (tcbSchedPrev x) (tcbEPNext x) (tcbEPPrev x).
Definition set_tcbIPCBuffer (v : Z) (x : tcb_t) : tcb_t :=
  tcb (tcbContext x) (tcbState x) (boundAsyncEndpoint x) (tcbFault x) (tcbLookupFailure
    x) (tcbDomain x) (tcbPriority x) (tcbTimeSlice x) (tcbFaultHandler x) v
    (tcbSchedNext x) (tcbSchedPrev x) (tcbEPNext x) (tcbEPPrev x).
Definition set_tcbSchedNext (v : Z) (x : tcb_t) : tcb_t :=
  tcb (tcbContext x) (tcbState x) (boundAsyncEndpoint x) (tcbFault x) (tcbLookupFailure
    x) (tcbDomain x) (tcbPriority x) (tcbTimeSlice x) (tcbFaultHandler x) (tcbIPCBuffer
    x) v (tcbSchedPrev x) (tcbEPNext x) (tcbEPPrev x).
Definition set_tcbSchedPrev (v : Z) (x : tcb_t) : tcb_t :=
  tcb (tcbContext x) (tcbState x) (boundAsyncEndpoint x) (tcbFault x) (tcbLookupFailure
    x) (tcbDomain x) (tcbPriority x) (tcbTimeSlice x) (tcbFaultHandler x) (tcbIPCBuffer
    x) (tcbSchedNext x) v (tcbEPNext x) (tcbEPPrev x).
Definition set_tcbEPNext (v : Z) (x : tcb_t) : tcb_t :=
  tcb (tcbContext x) (tcbState x) (boundAsyncEndpoint x) (tcbFault x) (tcbLookupFailure
    x) (tcbDomain x) (tcbPriority x) (tcbTimeSlice x) (tcbFaultHandler x) (tcbIPCBuffer
    x) (tcbSchedNext x) (tcbSchedPrev x) v (tcbEPPrev x).
Definition set_tcbEPPrev (v : Z) (x : tcb_t) : tcb_t :=
  tcb (tcbContext x) (tcbState x) (boundAsyncEndpoint x) (tcbFault x) (tcbLookupFailure
    x) (tcbDomain x) (tcbPriority x) (tcbTimeSlice x) (tcbFaultHandler x) (tcbIPCBuffer
    x) (tcbSchedNext x) (tcbSchedPrev x) (tcbEPNext x) v.

(** ** Endpoints *)
Definition EPState_Idle : Z := 0.
Definition EPState_Send : Z := 1.
Definition EPState_Recv : Z := 2.

Record endpoint_t : Type := endpoint {
  epQueue_head : Z;
  epQueue_tail : Z;
  ep_state : Z
}.

Definition AEPState_Idle : Z := 0.
Definition AEPState_Waiting : Z := 1.
Definition AEPState_Active : Z := 2.

Record async_endpoint_t : Type := async_endpoint {
  aepBoundTCB : Z;
  aepMsgIdentifier : Z;
  aepQueue_head : Z;
  aepQueue_tail : Z;
  aep_state : Z
}.

(** A queue of threads ([struct tcb_queue], fields [head] and [end]). *)
Record tcb_queue_t : Type := tcb_queue {
  queue_head : Z;
  queue_end : Z
}.

(** ** Page-table entries *)
Inductive pde_t : Type :=
| pde_pde_invalid (stored_hw_asid : Z) (stored_asid_valid : bool)
| pde_pde_coarse (address P Domain : Z)
| pde_pde_section (address size nG S APX TEX AP P Domain XN C B : Z)
| pde_pde_reserved.

#[export] Instance pde_t_eq_dec : EqDecision pde_t.
Proof. solve_decision. Defined.

(** The third kind of page-table entry is a large one whose reserved bit is
    clear ([pte_get_pteType]). *)
Inductive pte_t : Type :=
| pte_pte_large (address XN TEX nG S APX AP C B reserved : Z)
| pte_pte_small (address nG S APX TEX AP C B XN : Z).

#[export] Instance pte_t_eq_dec : EqDecision pte_t.
Proof. solve_decision. Defined.

Inductive pteType : Type := pte_large_type | pte_small_type | pte_invalid_type.
Definition pte_get_pteType (p : pte_t) : pteType :=
  match p with
  | pte_pte_small _ _ _ _ _ _ _ _ _ => pte_small_type
  | pte_pte_large _ _ _ _ _ _ _ _ _ reserved =>
      if reserved =? 1 then pte_large_type else pte_invalid_type
  end.
Definition pte_zero : pte_t := pte_pte_large 0 0 0 0 0 0 0 0 0 0.
Definition pde_zero : pde_t := pde_pde_invalid 0 false.

Definition pde_pde_invalid_new (hw_asid : Z) (valid : bool) : pde_t :=
  pde_pde_invalid (field 8 hw_asid) valid.
Definition pde_pde_coarse_new (address P Domain : Z) : pde_t :=
  pde_pde_coarse (field_high 22 address) (field 1 P) (field 4 Domain).
Definition pde_pde_section_new (address size nG S APX TEX AP P Domain XN C B : Z) : pde_t :=
  pde_pde_section (field_high 12 address) (field 1 size) (field 1 nG) (field 1 S)
    (field 1 APX) (field 3 TEX) (field 2 AP) (field 1 P) (field 4 Domain) (field 1 XN)
    (field 1 C) (field 1 B).
Definition pte_pte_large_new (address XN TEX nG S APX AP C B reserved : Z) : pte_t :=
  pte_pte_large (field_high 16 address) (field 1 XN) (field 3 TEX) (field 1 nG) (field 1 S)
    (field 1 APX) (field 2 AP) (field 1 C) (field 1 B) (field 1 reserved).
Definition pte_pte_small_new (address nG S APX TEX AP C B XN : Z) : pte_t :=
  pte_pte_small (field_high 20 address) (field 1 nG) (field 1 S) (field 1 APX)
    (field 3 TEX) (field 2 AP) (field 1 C) (field 1 B) (field 1 XN).

(** ** Rights and message headers ([api/types.bf], [api/types.h]) *)
Record cap_rights_t : Type := cap_rights {
  capAllowGrant : bool;
  capAllowRead : bool;
  capAllowWrite : bool
}.
Definition rightsFromWord (w : Z) : cap_rights_t :=
  cap_rights (Z.testbit w 2) (Z.testbit w 1) (Z.testbit w 0).
Definition wordFromRights (r : cap_rights_t) : Z :=
  4 * b2z (capAllowGrant r) + 2 * b2z (capAllowRead r) + b2z (capAllowWrite r).
Definition allRights : cap_rights_t := cap_rights true true true.
Definition noWrite : cap_rights_t := cap_rights true true false.

(** The user-visible encoding of a guard ([cnode_capdata]). *)
Definition cnode_capdata_get_guard (w : Z) : Z := field 18 (Z.shiftr w 8).
Definition cnode_capdata_get_guardSize (w : Z) : Z := field 5 (Z.shiftr w 3).

Definition seL4_MsgMaxLength : Z := 120.
Definition seL4_MsgMaxExtraCaps : Z := 3.

(** A message header is one word. *)
Definition message_info_t : Type := Z.
Definition message_info_new (label unwrapped extra len : Z) : message_info_t :=
  Z.lor (Z.shiftl (field 20 label) 12)
    (Z.lor (Z.shiftl (field 3 unwrapped) 9)
       (Z.lor (Z.shiftl (field 2 extra) 7) (field 7 len))).
Definition message_info_get_msgLabel (w : message_info_t) : Z := field 20 (Z.shiftr w 12).
Definition message_info_get_msgCapsUnwrapped (w : message_info_t) : Z :=
  field 3 (Z.shiftr w 9).
Definition message_info_get_msgExtraCaps (w : message_info_t) : Z := field 2 (Z.shiftr w 7).
Definition message_info_get_msgLength (w : message_info_t) : Z := field 7 w.
Definition message_info_set_msgLength (w : message_info_t) (v : Z) : message_info_t :=
  Z.lor (Z.land w (wnot 0x7f)) (field 7 v).
Definition message_info_set_msgExtraCaps (w : message_info_t) (v : Z) : message_info_t :=
  Z.lor (Z.land w (wnot 0x180)) (Z.shiftl (field 2 v) 7).
Definition message_info_set_msgCapsUnwrapped (w : message_info_t) (v : Z) : message_info_t :=
  Z.lor (Z.land w (wnot 0xe00)) (Z.shiftl (field 3 v) 9).
Definition messageInfoFromWord (w : Z) : message_info_t :=
  if seL4_MsgMaxLength <? message_info_get_msgLength w
  then message_info_set_msgLength w seL4_MsgMaxLength else w.
Definition wordFromMessageInfo (mi : message_info_t) : Z := mi.

(** ** Results of kernel operations ([api/failures.h], [api/errors.h]) *)
Inductive exception_t : Type :=
| EXCEPTION_NONE
| EXCEPTION_FAULT
| EXCEPTION_LOOKUP_FAULT
| EXCEPTION_SYSCALL_ERROR
| EXCEPTION_PREEMPTED.

#[export] Instance exception_eq_dec : EqDecision exception_t.
Proof. solve_decision. Defined.

Inductive syscall_error_type_t : Type :=
| seL4_NoError
| seL4_InvalidArgument
| seL4_InvalidCapability
| seL4_IllegalOperation
| seL4_RangeError
| seL4_AlignmentError
| seL4_FailedLookup
| seL4_TruncatedMessage
| seL4_DeleteFirst
| seL4_RevokeFirst
| seL4_NotEnoughMemory.

Record syscall_error_t : Type := syscall_error {
  invalidArgumentNumber : Z;
  invalidCapNumber : Z;
  rangeErrorMin : Z;
  rangeErrorMax : Z;
  memoryLeft : Z;
  failedLookupWasSource : bool;
  se_type : syscall_error_type_t
}.
