(* ===== verification/State.v ===== *)
(** * The kernel state

    Models the globals of [src/model/statedata.c], [src/arch/arm/model/statedata.c],
    [src/api/syscall.c] and [src/object/tcb.c], and the memory the kernel
    reaches through typed pointers: one finite map per object type, from the
    address of an object to its contents.  Reading or writing through a
    pointer to which no object of the type belongs is a panic.  The hardware
    is a log of the operations the kernel issues and the list of the answers
    the interrupt controller will give. *)

From S2P Require Import Prelude.
From S2P Require Import Word32.
From S2P Require Import Structures.

(** Build-time configuration (Kconfig options, the domain schedule of
    [src/config/default_domain.c]) and the addresses the linker gives the
    kernel's own page tables. *)
Class KernelConfig : Type := {
  CONFIG_NUM_DOMAINS : Z;
  CONFIG_NUM_PRIORITIES : Z;
  CONFIG_TIME_SLICE : Z;
  CONFIG_RETYPE_FAN_OUT_LIMIT : Z;
  CONFIG_MAX_NUM_WORK_UNITS_PER_PREEMPTION : Z;
  CONFIG_ALLOW_NULL_CSPACE : bool;
  ksDomSchedule : list (Z * Z);
  armKSGlobalPD : Z;
  armKSGlobalPT : Z
}.

(** What the compile-time assertions and Kconfig ranges guarantee. *)
Class KernelConfigOk (cfg : KernelConfig) : Prop := {
  cfg_domains : 1 ≤ CONFIG_NUM_DOMAINS ≤ 16;
  cfg_priorities : 1 ≤ CONFIG_NUM_PRIORITIES ≤ 256;
  cfg_time_slice : 1 ≤ CONFIG_TIME_SLICE < 2 ^ 32;
  cfg_schedule_nonempty : ksDomSchedule ≠ [];
  cfg_schedule_length : Z.of_nat (length ksDomSchedule) < 2 ^ 32
}.

(** The configuration of [kzm_debug_defconfig]. *)
Definition kzm_config : KernelConfig := {|
  CONFIG_NUM_DOMAINS := 1;
  CONFIG_NUM_PRIORITIES := 256;
  CONFIG_TIME_SLICE := 5;
  CONFIG_RETYPE_FAN_OUT_LIMIT := 256;
  CONFIG_MAX_NUM_WORK_UNITS_PER_PREEMPTION := 100;
  CONFIG_ALLOW_NULL_CSPACE := false;
  ksDomSchedule := [(0, 1)];
  armKSGlobalPD := 0xf0010000;
  armKSGlobalPT := 0xf0014000
|}.

#[export] Instance kzm_config_ok : KernelConfigOk kzm_config.
Proof. split; cbn; (done || lia). Qed.

(** A configuration with two domains, for the paths that depend on it. *)
Definition two_domain_config : KernelConfig := {|
  CONFIG_NUM_DOMAINS := 2;
  CONFIG_NUM_PRIORITIES := 256;
  CONFIG_TIME_SLICE := 5;
  CONFIG_RETYPE_FAN_OUT_LIMIT := 256;
  CONFIG_MAX_NUM_WORK_UNITS_PER_PREEMPTION := 100;
  CONFIG_ALLOW_NULL_CSPACE := false;
  ksDomSchedule := [(0, 10); (1, 20)];
  armKSGlobalPD := 0xf0010000;
  armKSGlobalPT := 0xf0014000
|}.

#[export] Instance two_domain_config_ok : KernelConfigOk two_domain_config.
Proof. split; cbn; (done || lia). Qed.

Inductive irq_state_t : Type := IRQInactive | IRQNotifyAEP | IRQTimer | IRQReserved.
#[export] Instance irq_state_eq_dec : EqDecision irq_state_t.
Proof. solve_decision. Defined.

Definition maxIRQ : Z := 63.
Definition irqInvalid : Z := 255.

(** Operations on the hardware that change no kernel data. *)
Inductive machine_op : Type :=
| op_setCurrentPD (paddr : Z)
| op_setHardwareASID (hw_asid : Z)
| op_invalidateTLB_ASID (hw_asid : Z)
| op_invalidateTLB_VAASID (mva : Z)
| op_cleanByVA_PoU (vaddr paddr : Z)
| op_cleanCacheRange_PoU (start end_ pstart : Z)
| op_cleanCacheRange_RAM (start end_ pstart : Z)
| op_invalidateCacheRange_RAM (start end_ pstart : Z)
| op_cleanInvalidateCacheRange_RAM (start end_ pstart : Z)
| op_invalidateCacheRange_I (start end_ pstart : Z)
| op_branchFlushRange (start end_ pstart : Z)
| op_dsb
| op_isb
| op_maskInterrupt (disable : bool) (irq : Z)
| op_ackInterrupt (irq : Z)
| op_setInterruptMode (irq : Z) (levelTrigger polarityLow : bool)
| op_resetTimer
| op_handleReservedIRQ (irq : Z)
| op_handleSpuriousIRQ
| op_clearExMonitor
| op_cleanInvalidateL1Caches
| op_invalidateTLB
| op_lockTLBEntry (vaddr : Z)
| op_initIRQController
| op_initTimer
| op_initL2Cache
| op_armv_init_user_access.

Definition SchedulerAction_ResumeCurrentThread : Z := 0.
Definition SchedulerAction_ChooseNewThread : Z := 0xffffffff.

Record kstate : Type := KState {
  ks_cte : gmap Z cte_t;
  ks_tcb : gmap Z tcb_t;
  ks_ep : gmap Z endpoint_t;
  ks_aep : gmap Z async_endpoint_t;
  ks_pde : gmap Z pde_t;
  ks_pte : gmap Z pte_t;
  ks_mem : gmap Z Z;
  ksReadyQueues : gmap Z tcb_queue_t;
  ksReadyQueuesL1Bitmap : gmap Z Z;
  ksReadyQueuesL2Bitmap : gmap (Z * Z) Z;
  ksCurThread : Z;
  ksIdleThread : Z;
  ksSchedulerAction : Z;
  ksWorkUnitsCompleted : Z;
  ksRootCTE : Z;
  intStateIRQTable : gmap Z irq_state_t;
  intStateIRQNode : Z;
  ksCurDomain : Z;
  ksDomainTime : Z;
  ksDomScheduleIdx : Z;
  armKSGlobalsFrame : Z;
  armKSHWASIDTable : gmap Z Z;
  armKSNextASID : Z;
  current_lookup_fault : lookup_fault_t;
  current_fault : fault_t;
  current_syscall_error : syscall_error_t;
  current_extra_caps : list Z;
  ks_irqs : list Z;
  ks_log : list machine_op;
}.

Definition upd_ks_cte (v : gmap Z cte_t) (s : kstate) : kstate :=
  KState v (ks_tcb s) (ks_ep s) (ks_aep s) (ks_pde s) (ks_pte s) (ks_mem s)
    (ksReadyQueues s) (ksReadyQueuesL1Bitmap s) (ksReadyQueuesL2Bitmap s) (ksCurThread
    s) (ksIdleThread s) (ksSchedulerAction s) (ksWorkUnitsCompleted s) (ksRootCTE s)
    (intStateIRQTable s) (intStateIRQNode s) (ksCurDomain s) (ksDomainTime s)
    (ksDomScheduleIdx s) (armKSGlobalsFrame s) (armKSHWASIDTable s) (armKSNextASID s)
    (current_lookup_fault s) (current_fault s) (current_syscall_error s)
    (current_extra_caps s) (ks_irqs s) (ks_log s).
Definition upd_ks_tcb (v : gmap Z tcb_t) (s : kstate) : kstate :=
  KState (ks_cte s) v (ks_ep s) (ks_aep s) (ks_pde s) (ks_pte s) (ks_mem s)
    (ksReadyQueues s) (ksReadyQueuesL1Bitmap s) (ksReadyQueuesL2Bitmap s) (ksCurThread
    s) (ksIdleThread s) (ksSchedulerAction s) (ksWorkUnitsCompleted s) (ksRootCTE s)
    (intStateIRQTable s) (intStateIRQNode s) (ksCurDomain s) (ksDomainTime s)
    (ksDomScheduleIdx s) (armKSGlobalsFrame s) (armKSHWASIDTable s) (armKSNextASID s)
    (current_lookup_fault s) (current_fault s) (current_syscall_error s)
    (current_extra_caps s) (ks_irqs s) (ks_log s).
Definition upd_ks_ep (v : gmap Z endpoint_t) (s : kstate) : kstate :=
  KState (ks_cte s) (ks_tcb s) v (ks_aep s) (ks_pde s) (ks_pte s) (ks_mem s)
    (ksReadyQueues s) (ksReadyQueuesL1Bitmap s) (ksReadyQueuesL2Bitmap s) (ksCurThread
    s) (ksIdleThread s) (ksSchedulerAction s) (ksWorkUnitsCompleted s) (ksRootCTE s)
    (intStateIRQTable s) (intStateIRQNode s) (ksCurDomain s) (ksDomainTime s)
    (ksDomScheduleIdx s) (armKSGlobalsFrame s) (armKSHWASIDTable s) (armKSNextASID s)
    (current_lookup_fault s) (current_fault s) (current_syscall_error s)
    (current_extra_caps s) (ks_irqs s) (ks_log s).
Definition upd_ks_aep (v : gmap Z async_endpoint_t) (s : kstate) : kstate :=
  KState (ks_cte s) (ks_tcb s) (ks_ep s) v (ks_pde s) (ks_pte s) (ks_mem s)
    (ksReadyQueues s) (ksReadyQueuesL1Bitmap s) (ksReadyQueuesL2Bitmap s) (ksCurThread
    s) (ksIdleThread s) (ksSchedulerAction s) (ksWorkUnitsCompleted s) (ksRootCTE s)
    (intStateIRQTable s) (intStateIRQNode s) (ksCurDomain s) (ksDomainTime s)
    (ksDomScheduleIdx s) (armKSGlobalsFrame s) (armKSHWASIDTable s) (armKSNextASID s)
    (current_lookup_fault s) (current_fault s) (current_syscall_error s)
    (current_extra_caps s) (ks_irqs s) (ks_log s).
Definition upd_ks_pde (v : gmap Z pde_t) (s : kstate) : kstate :=
  KState (ks_cte s) (ks_tcb s) (ks_ep s) (ks_aep s) v (ks_pte s) (ks_mem s)
    (ksReadyQueues s) (ksReadyQueuesL1Bitmap s) (ksReadyQueuesL2Bitmap s) (ksCurThread
    s) (ksIdleThread s) (ksSchedulerAction s) (ksWorkUnitsCompleted s) (ksRootCTE s)
    (intStateIRQTable s) (intStateIRQNode s) (ksCurDomain s) (ksDomainTime s)
    (ksDomScheduleIdx s) (armKSGlobalsFrame s) (armKSHWASIDTable s) (armKSNextASID s)
    (current_lookup_fault s) (current_fault s) (current_syscall_error s)
    (current_extra_caps s) (ks_irqs s) (ks_log s).
Definition upd_ks_pte (v : gmap Z pte_t) (s : kstate) : kstate :=
  KState (ks_cte s) (ks_tcb s) (ks_ep s) (ks_aep s) (ks_pde s) v (ks_mem s)
    (ksReadyQueues s) (ksReadyQueuesL1Bitmap s) (ksReadyQueuesL2Bitmap s) (ksCurThread
    s) (ksIdleThread s) (ksSchedulerAction s) (ksWorkUnitsCompleted s) (ksRootCTE s)
    (intStateIRQTable s) (intStateIRQNode s) (ksCurDomain s) (ksDomainTime s)
    (ksDomScheduleIdx s) (armKSGlobalsFrame s) (armKSHWASIDTable s) (armKSNextASID s)
    (current_lookup_fault s) (current_fault s) (current_syscall_error s)
    (current_extra_caps s) (ks_irqs s) (ks_log s).
Definition upd_ks_mem (v : gmap Z Z) (s : kstate) : kstate :=
  KState (ks_cte s) (ks_tcb s) (ks_ep s) (ks_aep s) (ks_pde s) (ks_pte s) v
    (ksReadyQueues s) (ksReadyQueuesL1Bitmap s) (ksReadyQueuesL2Bitmap s) (ksCurThread
    s) (ksIdleThread s) (ksSchedulerAction s) (ksWorkUnitsCompleted s) (ksRootCTE s)
    (intStateIRQTable s) (intStateIRQNode s) (ksCurDomain s) (ksDomainTime s)
    (ksDomScheduleIdx s) (armKSGlobalsFrame s) (armKSHWASIDTable s) (armKSNextASID s)
    (current_lookup_fault s) (current_fault s) (current_syscall_error s)
    (current_extra_caps s) (ks_irqs s) (ks_log s).
Definition upd_ksReadyQueues (v : gmap Z tcb_queue_t) (s : kstate) : kstate :=
  KState (ks_cte s) (ks_tcb s) (ks_ep s) (ks_aep s) (ks_pde s) (ks_pte s) (ks_mem s) v
    (ksReadyQueuesL1Bitmap s) (ksReadyQueuesL2Bitmap s) (ksCurThread s) (ksIdleThread s)
    (ksSchedulerAction s) (ksWorkUnitsCompleted s) (ksRootCTE s) (intStateIRQTable s)
    (intStateIRQNode s) (ksCurDomain s) (ksDomainTime s) (ksDomScheduleIdx s)
    (armKSGlobalsFrame s) (armKSHWASIDTable s) (armKSNextASID s) (current_lookup_fault
    s) (current_fault s) (current_syscall_error s) (current_extra_caps s) (ks_irqs s)
    (ks_log s).
Definition upd_ksReadyQueuesL1Bitmap (v : gmap Z Z) (s : kstate) : kstate :=
  KState (ks_cte s) (ks_tcb s) (ks_ep s) (ks_aep s) (ks_pde s) (ks_pte s) (ks_mem s)
    (ksReadyQueues s) v (ksReadyQueuesL2Bitmap s) (ksCurThread s) (ksIdleThread s)
    (ksSchedulerAction s) (ksWorkUnitsCompleted s) (ksRootCTE s) (intStateIRQTable s)
    (intStateIRQNode s) (ksCurDomain s) (ksDomainTime s) (ksDomScheduleIdx s)
    (armKSGlobalsFrame s) (armKSHWASIDTable s) (armKSNextASID s) (current_lookup_fault
    s) (current_fault s) (current_syscall_error s) (current_extra_caps s) (ks_irqs s)
    (ks_log s).
Definition upd_ksReadyQueuesL2Bitmap (v : gmap (Z * Z) Z) (s : kstate) : kstate :=
  KState (ks_cte s) (ks_tcb s) (ks_ep s) (ks_aep s) (ks_pde s) (ks_pte s) (ks_mem s)
    (ksReadyQueues s) (ksReadyQueuesL1Bitmap s) v (ksCurThread s) (ksIdleThread s)
    (ksSchedulerAction s) (ksWorkUnitsCompleted s) (ksRootCTE s) (intStateIRQTable s)
    (intStateIRQNode s) (ksCurDomain s) (ksDomainTime s) (ksDomScheduleIdx s)
    (armKSGlobalsFrame s) (armKSHWASIDTable s) (armKSNextASID s) (current_lookup_fault
    s) (current_fault s) (current_syscall_error s) (current_extra_caps s) (ks_irqs s)
    (ks_log s).
Definition upd_ksCurThread (v : Z) (s : kstate) : kstate :=
  KState (ks_cte s) (ks_tcb s) (ks_ep s) (ks_aep s) (ks_pde s) (ks_pte s) (ks_mem s)
    (ksReadyQueues s) (ksReadyQueuesL1Bitmap s) (ksReadyQueuesL2Bitmap s) v
    (ksIdleThread s) (ksSchedulerAction s) (ksWorkUnitsCompleted s) (ksRootCTE s)
    (intStateIRQTable s) (intStateIRQNode s) (ksCurDomain s) (ksDomainTime s)
    (ksDomScheduleIdx s) (armKSGlobalsFrame s) (armKSHWASIDTable s) (armKSNextASID s)
    (current_lookup_fault s) (current_fault s) (current_syscall_error s)
    (current_extra_caps s) (ks_irqs s) (ks_log s).
Definition upd_ksIdleThread (v : Z) (s : kstate) : kstate :=
  KState (ks_cte s) (ks_tcb s) (ks_ep s) (ks_aep s) (ks_pde s) (ks_pte s) (ks_mem s)
    (ksReadyQueues s) (ksReadyQueuesL1Bitmap s) (ksReadyQueuesL2Bitmap s) (ksCurThread
    s) v (ksSchedulerAction s) (ksWorkUnitsCompleted s) (ksRootCTE s) (intStateIRQTable
    s) (intStateIRQNode s) (ksCurDomain s) (ksDomainTime s) (ksDomScheduleIdx s)
    (armKSGlobalsFrame s) (armKSHWASIDTable s) (armKSNextASID s) (current_lookup_fault
    s) (current_fault s) (current_syscall_error s) (current_extra_caps s) (ks_irqs s)
    (ks_log s).
Definition upd_ksSchedulerAction (v : Z) (s : kstate) : kstate :=
  KState (ks_cte s) (ks_tcb s) (ks_ep s) (ks_aep s) (ks_pde s) (ks_pte s) (ks_mem s)
    (ksReadyQueues s) (ksReadyQueuesL1Bitmap s) (ksReadyQueuesL2Bitmap s) (ksCurThread
    s) (ksIdleThread s) v (ksWorkUnitsCompleted s) (ksRootCTE s) (intStateIRQTable s)
    (intStateIRQNode s) (ksCurDomain s) (ksDomainTime s) (ksDomScheduleIdx s)
    (armKSGlobalsFrame s) (armKSHWASIDTable s) (armKSNextASID s) (current_lookup_fault
    s) (current_fault s) (current_syscall_error s) (current_extra_caps s) (ks_irqs s)
    (ks_log s).
Definition upd_ksWorkUnitsCompleted (v : Z) (s : kstate) : kstate :=
  KState (ks_cte s) (ks_tcb s) (ks_ep s) (ks_aep s) (ks_pde s) (ks_pte s) (ks_mem s)
    (ksReadyQueues s) (ksReadyQueuesL1Bitmap s) (ksReadyQueuesL2Bitmap s) (ksCurThread
    s) (ksIdleThread s) (ksSchedulerAction s) v (ksRootCTE s) (intStateIRQTable s)
    (intStateIRQNode s) (ksCurDomain s) (ksDomainTime s) (ksDomScheduleIdx s)
    (armKSGlobalsFrame s) (armKSHWASIDTable s) (armKSNextASID s) (current_lookup_fault
    s) (current_fault s) (current_syscall_error s) (current_extra_caps s) (ks_irqs s)
    (ks_log s).
Definition upd_ksRootCTE (v : Z) (s : kstate) : kstate :=
  KState (ks_cte s) (ks_tcb s) (ks_ep s) (ks_aep s) (ks_pde s) (ks_pte s) (ks_mem s)
    (ksReadyQueues s) (ksReadyQueuesL1Bitmap s) (ksReadyQueuesL2Bitmap s) (ksCurThread
    s) (ksIdleThread s) (ksSchedulerAction s) (ksWorkUnitsCompleted s) v
    (intStateIRQTable s) (intStateIRQNode s) (ksCurDomain s) (ksDomainTime s)
    (ksDomScheduleIdx s) (armKSGlobalsFrame s) (armKSHWASIDTable s) (armKSNextASID s)
    (current_lookup_fault s) (current_fault s) (current_syscall_error s)
    (current_extra_caps s) (ks_irqs s) (ks_log s).
Definition upd_intStateIRQTable (v : gmap Z irq_state_t) (s : kstate) : kstate :=
  KState (ks_cte s) (ks_tcb s) (ks_ep s) (ks_aep s) (ks_pde s) (ks_pte s) (ks_mem s)
    (ksReadyQueues s) (ksReadyQueuesL1Bitmap s) (ksReadyQueuesL2Bitmap s) (ksCurThread
    s) (ksIdleThread s) (ksSchedulerAction s) (ksWorkUnitsCompleted s) (ksRootCTE s) v
    (intStateIRQNode s) (ksCurDomain s) (ksDomainTime s) (ksDomScheduleIdx s)
    (armKSGlobalsFrame s) (armKSHWASIDTable s) (armKSNextASID s) (current_lookup_fault
    s) (current_fault s) (current_syscall_error s) (current_extra_caps s) (ks_irqs s)
    (ks_log s).
Definition upd_intStateIRQNode (v : Z) (s : kstate) : kstate :=
  KState (ks_cte s) (ks_tcb s) (ks_ep s) (ks_aep s) (ks_pde s) (ks_pte s) (ks_mem s)
    (ksReadyQueues s) (ksReadyQueuesL1Bitmap s) (ksReadyQueuesL2Bitmap s) (ksCurThread
    s) (ksIdleThread s) (ksSchedulerAction s) (ksWorkUnitsCompleted s) (ksRootCTE s)
    (intStateIRQTable s) v (ksCurDomain s) (ksDomainTime s) (ksDomScheduleIdx s)
    (armKSGlobalsFrame s) (armKSHWASIDTable s) (armKSNextASID s) (current_lookup_fault
    s) (current_fault s) (current_syscall_error s) (current_extra_caps s) (ks_irqs s)
    (ks_log s).
Definition upd_ksCurDomain (v : Z) (s : kstate) : kstate :=
  KState (ks_cte s) (ks_tcb s) (ks_ep s) (ks_aep s) (ks_pde s) (ks_pte s) (ks_mem s)
    (ksReadyQueues s) (ksReadyQueuesL1Bitmap s) (ksReadyQueuesL2Bitmap s) (ksCurThread
    s) (ksIdleThread s) (ksSchedulerAction s) (ksWorkUnitsCompleted s) (ksRootCTE s)
    (intStateIRQTable s) (intStateIRQNode s) v (ksDomainTime s) (ksDomScheduleIdx s)
    (armKSGlobalsFrame s) (armKSHWASIDTable s) (armKSNextASID s) (current_lookup_fault
    s) (current_fault s) (current_syscall_error s) (current_extra_caps s) (ks_irqs s)
    (ks_log s).
Definition upd_ksDomainTime (v : Z) (s : kstate) : kstate :=
  KState (ks_cte s) (ks_tcb s) (ks_ep s) (ks_aep s) (ks_pde s) (ks_pte s) (ks_mem s)
    (ksReadyQueues s) (ksReadyQueuesL1Bitmap s) (ksReadyQueuesL2Bitmap s) (ksCurThread
    s) (ksIdleThread s) (ksSchedulerAction s) (ksWorkUnitsCompleted s) (ksRootCTE s)
    (intStateIRQTable s) (intStateIRQNode s) (ksCurDomain s) v (ksDomScheduleIdx s)
    (armKSGlobalsFrame s) (armKSHWASIDTable s) (armKSNextASID s) (current_lookup_fault
    s) (current_fault s) (current_syscall_error s) (current_extra_caps s) (ks_irqs s)
    (ks_log s).
Definition upd_ksDomScheduleIdx (v : Z) (s : kstate) : kstate :=
  KState (ks_cte s) (ks_tcb s) (ks_ep s) (ks_aep s) (ks_pde s) (ks_pte s) (ks_mem s)
    (ksReadyQueues s) (ksReadyQueuesL1Bitmap s) (ksReadyQueuesL2Bitmap s) (ksCurThread
    s) (ksIdleThread s) (ksSchedulerAction s) (ksWorkUnitsCompleted s) (ksRootCTE s)
    (intStateIRQTable s) (intStateIRQNode s) (ksCurDomain s) (ksDomainTime s) v
    (armKSGlobalsFrame s) (armKSHWASIDTable s) (armKSNextASID s) (current_lookup_fault
    s) (current_fault s) (current_syscall_error s) (current_extra_caps s) (ks_irqs s)
    (ks_log s).
Definition upd_armKSGlobalsFrame (v : Z) (s : kstate) : kstate :=
  KState (ks_cte s) (ks_tcb s) (ks_ep s) (ks_aep s) (ks_pde s) (ks_pte s) (ks_mem s)
    (ksReadyQueues s) (ksReadyQueuesL1Bitmap s) (ksReadyQueuesL2Bitmap s) (ksCurThread
    s) (ksIdleThread s) (ksSchedulerAction s) (ksWorkUnitsCompleted s) (ksRootCTE s)
    (intStateIRQTable s) (intStateIRQNode s) (ksCurDomain s) (ksDomainTime s)
    (ksDomScheduleIdx s) v (armKSHWASIDTable s) (armKSNextASID s) (current_lookup_fault
    s) (current_fault s) (current_syscall_error s) (current_extra_caps s) (ks_irqs s)
    (ks_log s).
Definition upd_armKSHWASIDTable (v : gmap Z Z) (s : kstate) : kstate :=
  KState (ks_cte s) (ks_tcb s) (ks_ep s) (ks_aep s) (ks_pde s) (ks_pte s) (ks_mem s)
    (ksReadyQueues s) (ksReadyQueuesL1Bitmap s) (ksReadyQueuesL2Bitmap s) (ksCurThread
    s) (ksIdleThread s) (ksSchedulerAction s) (ksWorkUnitsCompleted s) (ksRootCTE s)
    (intStateIRQTable s) (intStateIRQNode s) (ksCurDomain s) (ksDomainTime s)
    (ksDomScheduleIdx s) (armKSGlobalsFrame s) v (armKSNextASID s) (current_lookup_fault
    s) (current_fault s) (current_syscall_error s) (current_extra_caps s) (ks_irqs s)
    (ks_log s).
Definition upd_armKSNextASID (v : Z) (s : kstate) : kstate :=
  KState (ks_cte s) (ks_tcb s) (ks_ep s) (ks_aep s) (ks_pde s) (ks_pte s) (ks_mem s)
    (ksReadyQueues s) (ksReadyQueuesL1Bitmap s) (ksReadyQueuesL2Bitmap s) (ksCurThread
    s) (ksIdleThread s) (ksSchedulerAction s) (ksWorkUnitsCompleted s) (ksRootCTE s)
    (intStateIRQTable s) (intStateIRQNode s) (ksCurDomain s) (ksDomainTime s)
    (ksDomScheduleIdx s) (armKSGlobalsFrame s) (armKSHWASIDTable s) v
    (current_lookup_fault s) (current_fault s) (current_syscall_error s)
    (current_extra_caps s) (ks_irqs s) (ks_log s).
Definition upd_current_lookup_fault (v : lookup_fault_t) (s : kstate) : kstate :=
  KState (ks_cte s) (ks_tcb s) (ks_ep s) (ks_aep s) (ks_pde s) (ks_pte s) (ks_mem s)
    (ksReadyQueues s) (ksReadyQueuesL1Bitmap s) (ksReadyQueuesL2Bitmap s) (ksCurThread
    s) (ksIdleThread s) (ksSchedulerAction s) (ksWorkUnitsCompleted s) (ksRootCTE s)
    (intStateIRQTable s) (intStateIRQNode s) (ksCurDomain s) (ksDomainTime s)
    (ksDomScheduleIdx s) (armKSGlobalsFrame s) (armKSHWASIDTable s) (armKSNextASID s) v
    (current_fault s) (current_syscall_error s) (current_extra_caps s) (ks_irqs s)
    (ks_log s).
Definition upd_current_fault (v : fault_t) (s : kstate) : kstate :=
  KState (ks_cte s) (ks_tcb s) (ks_ep s) (ks_aep s) (ks_pde s) (ks_pte s) (ks_mem s)
    (ksReadyQueues s) (ksReadyQueuesL1Bitmap s) (ksReadyQueuesL2Bitmap s) (ksCurThread
    s) (ksIdleThread s) (ksSchedulerAction s) (ksWorkUnitsCompleted s) (ksRootCTE s)
    (intStateIRQTable s) (intStateIRQNode s) (ksCurDomain s) (ksDomainTime s)
    (ksDomScheduleIdx s) (armKSGlobalsFrame s) (armKSHWASIDTable s) (armKSNextASID s)
    (current_lookup_fault s) v (current_syscall_error s) (current_extra_caps s) (ks_irqs
    s) (ks_log s).
Definition upd_current_syscall_error (v : syscall_error_t) (s : kstate) : kstate :=
  KState (ks_cte s) (ks_tcb s) (ks_ep s) (ks_aep s) (ks_pde s) (ks_pte s) (ks_mem s)
    (ksReadyQueues s) (ksReadyQueuesL1Bitmap s) (ksReadyQueuesL2Bitmap s) (ksCurThread
    s) (ksIdleThread s) (ksSchedulerAction s) (ksWorkUnitsCompleted s) (ksRootCTE s)
    (intStateIRQTable s) (intStateIRQNode s) (ksCurDomain s) (ksDomainTime s)
    (ksDomScheduleIdx s) (armKSGlobalsFrame s) (armKSHWASIDTable s) (armKSNextASID s)
    (current_lookup_fault s) (current_fault s) v (current_extra_caps s) (ks_irqs s)
    (ks_log s).
Definition upd_current_extra_caps (v : list Z) (s : kstate) : kstate :=
  KState (ks_cte s) (ks_tcb s) (ks_ep s) (ks_aep s) (ks_pde s) (ks_pte s) (ks_mem s)
    (ksReadyQueues s) (ksReadyQueuesL1Bitmap s) (ksReadyQueuesL2Bitmap s) (ksCurThread
    s) (ksIdleThread s) (ksSchedulerAction s) (ksWorkUnitsCompleted s) (ksRootCTE s)
    (intStateIRQTable s) (intStateIRQNode s) (ksCurDomain s) (ksDomainTime s)
    (ksDomScheduleIdx s) (armKSGlobalsFrame s) (armKSHWASIDTable s) (armKSNextASID s)
    (current_lookup_fault s) (current_fault s) (current_syscall_error s) v (ks_irqs s)
    (ks_log s).
Definition upd_ks_irqs (v : list Z) (s : kstate) : kstate :=
  KState (ks_cte s) (ks_tcb s) (ks_ep s) (ks_aep s) (ks_pde s) (ks_pte s) (ks_mem s)
    (ksReadyQueues s) (ksReadyQueuesL1Bitmap s) (ksReadyQueuesL2Bitmap s) (ksCurThread
    s) (ksIdleThread s) (ksSchedulerAction s) (ksWorkUnitsCompleted s) (ksRootCTE s)
    (intStateIRQTable s) (intStateIRQNode s) (ksCurDomain s) (ksDomainTime s)
    (ksDomScheduleIdx s) (armKSGlobalsFrame s) (armKSHWASIDTable s) (armKSNextASID s)
    (current_lookup_fault s) (current_fault s) (current_syscall_error s)
    (current_extra_caps s) v (ks_log s).
Definition upd_ks_log (v : list machine_op) (s : kstate) : kstate :=
  KState (ks_cte s) (ks_tcb s) (ks_ep s) (ks_aep s) (ks_pde s) (ks_pte s) (ks_mem s)
    (ksReadyQueues s) (ksReadyQueuesL1Bitmap s) (ksReadyQueuesL2Bitmap s) (ksCurThread
    s) (ksIdleThread s) (ksSchedulerAction s) (ksWorkUnitsCompleted s) (ksRootCTE s)
    (intStateIRQTable s) (intStateIRQNode s) (ksCurDomain s) (ksDomainTime s)
    (ksDomScheduleIdx s) (armKSGlobalsFrame s) (armKSHWASIDTable s) (armKSNextASID s)
    (current_lookup_fault s) (current_fault s) (current_syscall_error s)
    (current_extra_caps s) (ks_irqs s) v.

(** The kernel's monad. *)
Definition K (A : Type) : Type := M kstate A.

Definition no_syscall_error : syscall_error_t := syscall_error 0 0 0 0 0 false seL4_NoError.

(** The state before any object exists. *)
Definition empty_kstate : kstate :=
  KState ∅ ∅ ∅ ∅ ∅ ∅ ∅ ∅ ∅ ∅ 0 0 0 0 0 ∅ 0 0 0 0 0 ∅ 0
    lookup_fault_invalid_root fault_null_fault no_syscall_error [0; 0; 0] [] [].

(** ** Typed access to memory *)
Definition deref {A} (h : kstate → gmap Z A) (p : Z) : K A := λ s,
  match h s !! p with Some a => Ok a s | None => Panic end.
Definition assign {A} (h : kstate → gmap Z A) (upd : gmap Z A → kstate → kstate)
    (p : Z) (a : A) : K unit := λ s,
  match h s !! p with Some _ => Ok tt (upd (<[p := a]> (h s)) s) | None => Panic end.
Definition update {A} (h : kstate → gmap Z A) (upd : gmap Z A → kstate → kstate)
    (p : Z) (f : A → A) : K unit := λ s,
  match h s !! p with Some a => Ok tt (upd (<[p := f a]> (h s)) s) | None => Panic end.

Definition getCTE : Z → K cte_t := deref ks_cte.
Definition setCTE : Z → cte_t → K unit := assign ks_cte upd_ks_cte.
Definition getTCB : Z → K tcb_t := deref ks_tcb.
Definition updTCB : Z → (tcb_t → tcb_t) → K unit := update ks_tcb upd_ks_tcb.
Definition getEP : Z → K endpoint_t := deref ks_ep.
Definition updEP : Z → (endpoint_t → endpoint_t) → K unit := update ks_ep upd_ks_ep.
Definition getAEP : Z → K async_endpoint_t := deref ks_aep.
Definition updAEP : Z → (async_endpoint_t → async_endpoint_t) → K unit :=
  update ks_aep upd_ks_aep.
Definition getPDE : Z → K pde_t := deref ks_pde.
Definition setPDE : Z → pde_t → K unit := assign ks_pde upd_ks_pde.
Definition getPTE : Z → K pte_t := deref ks_pte.
Definition setPTE : Z → pte_t → K unit := assign ks_pte upd_ks_pte.

Definition getCap (p : Z) : K cap_t := let! c := getCTE p in kret (cteCap c).
Definition setCap (p : Z) (c : cap_t) : K unit :=
  update ks_cte upd_ks_cte p (λ x, cte c (cteMDBNode x)).
Definition getMDB (p : Z) : K mdb_node_t := let! c := getCTE p in kret (cteMDBNode c).
Definition setMDB (p : Z) (m : mdb_node_t) : K unit :=
  update ks_cte upd_ks_cte p (λ x, cte (cteCap x) m).

(** User-visible words: any word of a mapped IPC buffer can be read and
    written; memory is zero until written. *)
Definition getWord (p : Z) : K Z := gets (λ s, default 0 (ks_mem s !! p)).
Definition setWord (p v : Z) : K unit := modify (λ s, upd_ks_mem (<[p := w32 v]> (ks_mem s)) s).

(** Saved registers of a thread. *)
Definition getRegister (thread reg : Z) : K Z :=
  let! t := getTCB thread in kret (nth (Z.to_nat reg) (tcbContext t) 0).
Definition setRegister (thread reg w : Z) : K unit :=
  updTCB thread (λ t, set_tcbContext (<[Z.to_nat reg := w32 w]> (tcbContext t)) t).

(** Fields of a thread control block. *)
Definition getTCBf {A} (f : tcb_t → A) (p : Z) : K A := let! t := getTCB p in kret (f t).
Definition updState (f : thread_state_t → thread_state_t) (p : Z) : K unit :=
  updTCB p (λ t, set_tcbState (f (tcbState t)) t).

(** Issuing a machine operation. *)
Definition machine (op : machine_op) : K unit := modify (λ s, upd_ks_log (op :: ks_log s) s).

(** Error registers. *)
Definition syscall_error_set_type (t : syscall_error_type_t) (e : syscall_error_t) : syscall_error_t :=
  syscall_error (invalidArgumentNumber e) (invalidCapNumber e) (rangeErrorMin e)
    (rangeErrorMax e) (memoryLeft e) (failedLookupWasSource e) t.
Definition upd_error (f : syscall_error_t → syscall_error_t) : K unit :=
  modify (λ s, upd_current_syscall_error (f (current_syscall_error s)) s).
Definition error_type (t : syscall_error_type_t) : K unit := upd_error (syscall_error_set_type t).
Definition error_cap (n : Z) : K unit := upd_error (λ e,
  syscall_error (invalidArgumentNumber e) n (rangeErrorMin e) (rangeErrorMax e)
    (memoryLeft e) (failedLookupWasSource e) (se_type e)).
Definition error_arg (n : Z) : K unit := upd_error (λ e,
  syscall_error n (invalidCapNumber e) (rangeErrorMin e) (rangeErrorMax e)
    (memoryLeft e) (failedLookupWasSource e) (se_type e)).
Definition error_range (lo hi : Z) : K unit := upd_error (λ e,
  syscall_error (invalidArgumentNumber e) (invalidCapNumber e) lo hi
    (memoryLeft e) (failedLookupWasSource e) (se_type e)).
Definition error_memory (left : Z) : K unit := upd_error (λ e,
  syscall_error (invalidArgumentNumber e) (invalidCapNumber e) (rangeErrorMin e)
    (rangeErrorMax e) left (failedLookupWasSource e) (se_type e)).
Definition error_source (b : bool) : K unit := upd_error (λ e,
  syscall_error (invalidArgumentNumber e) (invalidCapNumber e) (rangeErrorMin e)
    (rangeErrorMax e) (memoryLeft e) b (se_type e)).

(** [current_syscall_error.type = t; return EXCEPTION_SYSCALL_ERROR;] *)
Definition fail_syscall (t : syscall_error_type_t) : K exception_t :=
  error_type t ;;; kret EXCEPTION_SYSCALL_ERROR.

(** ** Equations of the accessors *)
Lemma deref_Ok {A} (h : kstate → gmap Z A) p a s :
  h s !! p = Some a → deref h p s = Ok a s.
Proof. unfold deref. by intros ->. Qed.

Lemma update_Ok {A} (h : kstate → gmap Z A) upd p f a s :
  h s !! p = Some a → update h upd p f s = Ok tt (upd (<[p := f a]> (h s)) s).
Proof. unfold update. by intros ->. Qed.

Lemma assign_Ok {A} (h : kstate → gmap Z A) upd p a' a s :
  h s !! p = Some a → assign h upd p a' s = Ok tt (upd (<[p := a']> (h s)) s).
Proof. unfold assign. by intros ->. Qed.

Lemma getCTE_Ok p c s : ks_cte s !! p = Some c → getCTE p s = Ok c s.
Proof. apply deref_Ok. Qed.
Lemma getCap_Ok p c s : ks_cte s !! p = Some c → getCap p s = Ok (cteCap c) s.
Proof. intros H. unfold getCap. by rewrite (kbind_Ok _ _ _ _ _ (getCTE_Ok _ _ _ H)). Qed.
Lemma getMDB_Ok p c s : ks_cte s !! p = Some c → getMDB p s = Ok (cteMDBNode c) s.
Proof. intros H. unfold getMDB. by rewrite (kbind_Ok _ _ _ _ _ (getCTE_Ok _ _ _ H)). Qed.
Lemma setMDB_Ok p m c s :
  ks_cte s !! p = Some c →
  setMDB p m s = Ok tt (upd_ks_cte (<[p := cte (cteCap c) m]> (ks_cte s)) s).
Proof. intros H. unfold setMDB. by rewrite (update_Ok _ _ _ _ _ _ H). Qed.
Lemma setCap_Ok p k c s :
  ks_cte s !! p = Some c →
  setCap p k s = Ok tt (upd_ks_cte (<[p := cte k (cteMDBNode c)]> (ks_cte s)) s).
Proof. intros H. unfold setCap. by rewrite (update_Ok _ _ _ _ _ _ H). Qed.
Lemma getTCB_Ok p t s : ks_tcb s !! p = Some t → getTCB p s = Ok t s.
Proof. apply deref_Ok. Qed.
Lemma updTCB_Ok p f t s :
  ks_tcb s !! p = Some t → updTCB p f s = Ok tt (upd_ks_tcb (<[p := f t]> (ks_tcb s)) s).
Proof. apply update_Ok. Qed.
Lemma getTCBf_Ok {A} (f : tcb_t → A) p t s :
  ks_tcb s !! p = Some t → getTCBf f p s = Ok (f t) s.
Proof. intros H. unfold getTCBf. by rewrite (kbind_Ok _ _ _ _ _ (getTCB_Ok _ _ _ H)). Qed.
Lemma getEP_Ok p t s : ks_ep s !! p = Some t → getEP p s = Ok t s.
Proof. apply deref_Ok. Qed.
Lemma updEP_Ok p f t s :
  ks_ep s !! p = Some t → updEP p f s = Ok tt (upd_ks_ep (<[p := f t]> (ks_ep s)) s).
Proof. apply update_Ok. Qed.
Lemma getAEP_Ok p t s : ks_aep s !! p = Some t → getAEP p s = Ok t s.
Proof. apply deref_Ok. Qed.
Lemma updAEP_Ok p f t s :
  ks_aep s !! p = Some t → updAEP p f s = Ok tt (upd_ks_aep (<[p := f t]> (ks_aep s)) s).
Proof. apply update_Ok. Qed.

(** [kload p] runs the next access when the object it reads is known. *)
Ltac kload :=
  match goal with
  | H : _ !! ?p = Some ?c |- context [kbind (getCTE ?p) _ ?s] =>
      rewrite (kbind_Ok (getCTE p) _ s s c (getCTE_Ok p c s H))
  | H : _ !! ?p = Some ?c |- context [kbind (getCap ?p) _ ?s] =>
      rewrite (kbind_Ok (getCap p) _ s s (cteCap c) (getCap_Ok p c s H))
  | H : _ !! ?p = Some ?c |- context [kbind (getMDB ?p) _ ?s] =>
      rewrite (kbind_Ok (getMDB p) _ s s (cteMDBNode c) (getMDB_Ok p c s H))
  | H : _ !! ?p = Some ?c |- context [kbind (setMDB ?p ?m) _ ?s] =>
      rewrite (kbind_Ok (setMDB p m) _ s _ tt (setMDB_Ok p m c s H))
  | H : _ !! ?p = Some ?c |- context [kbind (setCap ?p ?m) _ ?s] =>
      rewrite (kbind_Ok (setCap p m) _ s _ tt (setCap_Ok p m c s H))
  | H : _ !! ?p = Some ?c |- context [kbind (getTCB ?p) _ ?s] =>
      rewrite (kbind_Ok (getTCB p) _ s s c (getTCB_Ok p c s H))
  | H : _ !! ?p = Some ?c |- context [kbind (getTCBf ?f ?p) _ ?s] =>
      rewrite (kbind_Ok (getTCBf f p) _ s s (f c) (getTCBf_Ok f p c s H))
  | H : _ !! ?p = Some ?c |- context [kbind (updTCB ?p ?f) _ ?s] =>
      rewrite (kbind_Ok (updTCB p f) _ s _ tt (updTCB_Ok p f c s H))
  | H : _ !! ?p = Some ?c |- context [kbind (getEP ?p) _ ?s] =>
      rewrite (kbind_Ok (getEP p) _ s s c (getEP_Ok p c s H))
  | H : _ !! ?p = Some ?c |- context [kbind (updEP ?p ?f) _ ?s] =>
      rewrite (kbind_Ok (updEP p f) _ s _ tt (updEP_Ok p f c s H))
  | H : _ !! ?p = Some ?c |- context [kbind (getAEP ?p) _ ?s] =>
      rewrite (kbind_Ok (getAEP p) _ s s c (getAEP_Ok p c s H))
  | H : _ !! ?p = Some ?c |- context [kbind (updAEP ?p ?f) _ ?s] =>
      rewrite (kbind_Ok (updAEP p f) _ s _ tt (updAEP_Ok p f c s H))
  end; cbv beta.
