(* ===== verification/CdtOrder.v ===== *)
(** * The order of the capability derivation tree

    Models the comparators of [src/kernel/cdt.c] (lines 34 to 343 and the
    other tie-breaks used by the searches).  A comparator takes two slots, a
    slot being the address of a [cte_t] and its contents, and the tie-break as
    a function, as the C code passes function pointers; [None] is a failed
    assertion, among them the tag checks of the generated field accessors.
    The main result is that under [types_agree] (typed objects do not overlap,
    which the comparator assumes) [compSlot] is the lexicographic order of
    [slot_key]. *)

From S2P Require Import Prelude.
From S2P Require Import Word32.
From S2P Require Import Structures.

Definition slot : Type := Z * cte_t.
Definition slot_cap (x : slot) : cap_t := cteCap x.2.
Definition slot_depth (x : slot) : Z := cdtDepth (cteMDBNode x.2).

Definition comp_t : Type := slot → slot → option comparison.
Definition tie_comp_t : Type := slot → slot → option comp_t → option comparison.
Definition type_comp_t : Type := slot → slot → tie_comp_t → option comparison.

(** [cmp = e; if (cmp != EQ) return cmp;] *)
Definition cmp_then (c : comparison) (k : option comparison) : option comparison :=
  match c with Eq => k | _ => Some c end.

Definition capsEqual (a b : cap_t) : option bool :=
  let? sa := cap_get_capSpaceType a in
  let? sb := cap_get_capSpaceType b in
  if negb (sa =? sb) then Some false else
  let? pa := cap_get_capSpacePtr a in
  let? pb := cap_get_capSpacePtr b in
  if negb (pa =? pb) then Some false else
  let? za := cap_get_capSpaceSize a in
  let? zb := cap_get_capSpaceSize b in
  if negb (za =? zb) then Some false else
  if negb (cap_get_capBadge a =? cap_get_capBadge b) then Some false else
  let? ea := cap_get_capExtraComp a in
  let? eb := cap_get_capExtraComp b in
  Some (ea =? eb).

(** ** Tie-breaks *)
Definition run_pre_slot (pre_slot : option comp_t) (a b : slot)
    (k : option comparison) : option comparison :=
  match pre_slot with
  | Some pre => let? c := pre a b in cmp_then c k
  | None => k
  end.

Definition tie_break_comparator : tie_comp_t := λ a b pre_slot,
  cmp_then (slot_depth a ?= slot_depth b)
    (run_pre_slot pre_slot a b (Some (a.1 ?= b.1))).

Definition has_extra_comparator : tie_comp_t := λ a b pre_slot,
  cmp_then (slot_depth a ?= slot_depth b)
    match pre_slot with
    | None => None
    | Some pre =>
        let? c := pre a b in
        Some (match c with Eq => Lt | _ => Eq end)
    end.

Definition slot_eq_comparator : tie_comp_t := λ a b pre_slot,
  cmp_then (slot_depth a ?= slot_depth b) (run_pre_slot pre_slot a b (Some Eq)).

Definition largest_child_comparator : tie_comp_t := λ _ _ _, Some Lt.

Definition slot_lt_comparator : tie_comp_t := λ a b pre_slot,
  cmp_then (slot_depth a ?= slot_depth b) (run_pre_slot pre_slot a b (Some Lt)).

(** ** Comparators per capability type *)
Definition untyped_comparator : type_comp_t := λ a b tie_break,
  match slot_cap a, slot_cap b with
  | cap_untyped_cap _ bits_a ptr_a, cap_untyped_cap _ bits_b ptr_b =>
      cmp_then (ptr_a ?= ptr_b)
        (cmp_then (CompOpp (bits_a ?= bits_b)) (tie_break a b None))
  | _, _ => None
  end.

Definition endpoint_cap_comparator : type_comp_t := λ a b tie_break,
  match slot_cap a, slot_cap b with
  | cap_endpoint_cap badge_a _ _ _ _, cap_endpoint_cap badge_b _ _ _ _ =>
      cmp_then (badge_a ?= badge_b) (tie_break a b None)
  | _, _ => None
  end.

Definition async_endpoint_cap_comparator : type_comp_t := λ a b tie_break,
  match slot_cap a, slot_cap b with
  | cap_async_endpoint_cap badge_a _ _ _, cap_async_endpoint_cap badge_b _ _ _ =>
      cmp_then (badge_a ?= badge_b) (tie_break a b None)
  | _, _ => None
  end.

Definition cap_extra_comp : comp_t := λ a b,
  let? ea := cap_get_capExtraComp (slot_cap a) in
  let? eb := cap_get_capExtraComp (slot_cap b) in
  Some (ea ?= eb).

Definition frame_cap_comparator : type_comp_t := λ a b tie_break,
  tie_break a b (Some cap_extra_comp).
Definition page_table_comparator : type_comp_t := λ a b tie_break,
  tie_break a b (Some cap_extra_comp).
Definition page_directory_comparator : type_comp_t := λ a b tie_break,
  tie_break a b (Some cap_extra_comp).
Definition just_tie_break : type_comp_t := λ a b tie_break, tie_break a b None.

(** The table indexed by capability type; [None] is a NULL entry or an index
    beyond the array, both of which fail an assertion. *)
Definition typed_comparator_table (type : Z) : option type_comp_t :=
  if type =? 4 then Some endpoint_cap_comparator
  else if type =? 6 then Some async_endpoint_cap_comparator
  else if type =? 10 then Some just_tie_break
  else if type =? 12 then Some just_tie_break
  else if type =? 1 then Some frame_cap_comparator
  else if type =? 3 then Some page_table_comparator
  else if type =? 5 then Some page_directory_comparator
  else if type =? 46 then Some just_tie_break
  else None.

Definition typed_comparator : type_comp_t := λ a b tie_break,
  let? pa := cap_get_capPtr (slot_cap a) in
  let? pb := cap_get_capPtr (slot_cap b) in
  cmp_then (pa ?= pb)
    (let? comp := typed_comparator_table (cap_get_capType (slot_cap a)) in
     comp a b tie_break).

Definition irq_comparator : type_comp_t := λ a b tie_break,
  let typeA := cap_get_capType (slot_cap a) in
  let typeB := cap_get_capType (slot_cap b) in
  if typeA =? typeB then
    if typeA =? 14 then tie_break a b None
    else match slot_cap a, slot_cap b with
         | cap_irq_handler_cap irq_a, cap_irq_handler_cap irq_b =>
             cmp_then (irq_a ?= irq_b) (tie_break a b None)
         | _, _ => None
         end
  else if typeA =? 14 then Some Lt
  else if typeA =? 30 then Some Gt else None.

Definition compare_space (space : Z) : type_comp_t := λ a b tie_break,
  if space =? capSpaceUntypedMemory then untyped_comparator a b tie_break
  else if space =? capSpaceTypedMemory then typed_comparator a b tie_break
  else if space =? capSpaceDomain then just_tie_break a b tie_break
  else if space =? capSpaceIRQ then irq_comparator a b tie_break
  else None.

Definition compSlotWith : slot → slot → tie_comp_t → option comparison := λ a b tie_break,
  let? spaceA := cap_get_capSpaceType (slot_cap a) in
  let? spaceB := cap_get_capSpaceType (slot_cap b) in
  cmp_then (spaceA ?= spaceB) (compare_space spaceA a b tie_break).

Definition compSlot : comp_t := λ a b, compSlotWith a b tie_break_comparator.

(** ** The order as a key *)

(** The part of the key that the capability alone gives: its space, its
    position in the space, and what separates capabilities at one position. *)
Definition cap_prefix (c : cap_t) : list Z :=
  match c with
  | cap_untyped_cap _ bits ptr => [capSpaceUntypedMemory; ptr; - bits]
  | cap_irq_control_cap => [capSpaceIRQ; 0; 0]
  | cap_irq_handler_cap irq => [capSpaceIRQ; 1; irq]
  | cap_domain_cap => [capSpaceDomain; 0; 0]
  | _ => [capSpaceTypedMemory; default 0 (cap_get_capPtr c); cap_get_capBadge c]
  end.

Definition cap_extra (c : cap_t) : Z := default 0 (cap_get_capExtraComp c).

Definition slot_key (x : slot) : list Z :=
  cap_prefix (slot_cap x) ++ [slot_depth x; cap_extra (slot_cap x); x.1].

(** Capabilities that the tree can hold: they belong to a space, and their
    extra component can be computed. *)
Definition cdt_cap (c : cap_t) : bool :=
  bool_decide (is_Some (cap_get_capSpaceType c)) &&
  bool_decide (is_Some (cap_get_capExtraComp c)).

(** "Typed objects do not overlap": at one address there is one type. *)
Definition types_agree (a b : cap_t) : Prop :=
  cap_get_capSpaceType a = Some capSpaceTypedMemory →
  cap_get_capSpaceType b = Some capSpaceTypedMemory →
  cap_get_capPtr a = cap_get_capPtr b → cap_get_capType a = cap_get_capType b.

(** The extra comparison that the comparator of the type passes on. *)
Definition cap_pre_slot (c : cap_t) : option comp_t :=
  match c with
  | cap_frame_cap _ _ _ _ _ _ | cap_page_table_cap _ _ _ | cap_page_directory_cap _ =>
      Some cap_extra_comp
  | _ => None
  end.

Lemma cdt_cap_spec c :
  cdt_cap c = true →
  is_Some (cap_get_capSpaceType c) ∧ cap_get_capExtraComp c = Some (cap_extra c).
Proof.
  unfold cdt_cap, cap_extra. rewrite andb_true_iff, !bool_decide_eq_true.
  intros [H1 [x ->]]. done.
Qed.

Lemma types_agree_sym a b : types_agree a b → types_agree b a.
Proof. unfold types_agree. intros H ???. symmetry. by apply H. Qed.

Lemma lex_3 a b c x y z us vs :
  lex ([a; b; c] ++ us) ([x; y; z] ++ vs) =
  match lex [a; b; c] [x; y; z] with Eq => lex us vs | r => r end.
Proof. cbn. by destruct (a ?= x), (b ?= y), (c ?= z). Qed.

Lemma cap_prefix_3 c : ∃ x y z, cap_prefix c = [x; y; z].
Proof. destruct c; cbn; eauto. Qed.

Lemma lex_prefix c1 c2 us vs :
  lex (cap_prefix c1 ++ us) (cap_prefix c2 ++ vs) =
  match lex (cap_prefix c1) (cap_prefix c2) with Eq => lex us vs | r => r end.
Proof.
  destruct (cap_prefix_3 c1) as (?&?&?&->), (cap_prefix_3 c2) as (?&?&?&->). apply lex_3.
Qed.

Lemma cmp_then_Some c k : cmp_then c (Some k) = Some (match c with Eq => k | _ => c end).
Proof. by destruct c. Qed.

Lemma compare_opp x y : (- x ?= - y) = CompOpp (x ?= y).
Proof. rewrite Z.compare_opp. apply Z.compare_antisym. Qed.

(** Every comparison of the search functions is the order of the prefixes,
    then the tie-break. *)
Lemma compSlotWith_prefix a b tie :
  cdt_cap (slot_cap a) = true → cdt_cap (slot_cap b) = true →
  types_agree (slot_cap a) (slot_cap b) →
  compSlotWith a b tie =
  cmp_then (lex (cap_prefix (slot_cap a)) (cap_prefix (slot_cap b)))
    (tie a b (cap_pre_slot (slot_cap a))).
Proof.
  intros [Ha _]%cdt_cap_spec [Hb _]%cdt_cap_spec Hag.
  unfold compSlotWith, types_agree in *.
  destruct a as [pa [ca ma]], b as [pb [cb mb]]; cbn [slot_cap fst snd cteCap] in *.
  destruct ca, cb; cbn in Ha, Hb, Hag;
    try (by destruct Ha); try (by destruct Hb); try reflexivity;
    cbn -[lex cap_get_capPtr Z.compare TCB_PTR_CTE_PTR cap_zombie_cap_get_capZombiePtr];
    unfold lex; rewrite ?Z.compare_refl, ?compare_opp;
    cbn -[Z.compare TCB_PTR_CTE_PTR cap_zombie_cap_get_capZombiePtr];
    try reflexivity.
  all: repeat (match goal with
    | |- context [?x ?= ?y] => destruct (Z.compare_spec x y); subst
    end; cbn -[TCB_PTR_CTE_PTR cap_zombie_cap_get_capZombiePtr]; try reflexivity; try lia).
  all: exfalso; specialize (Hag eq_refl eq_refl);
    first [discriminate (Hag eq_refl) | assert (4 = 6) by congruence; lia | discriminate Hag; congruence].
Qed.

Lemma prefix_eq_type a b :
  cdt_cap a = true → cdt_cap b = true → types_agree a b →
  cap_prefix a = cap_prefix b → cap_get_capType a = cap_get_capType b.
Proof.
  intros [Ha _]%cdt_cap_spec [Hb _]%cdt_cap_spec Hag Hp. unfold types_agree in Hag.
  destruct a, b; cbn in *; try (by destruct Ha); try (by destruct Hb); try done;
    injection Hp as Hp; apply Hag; congruence.
Qed.

Lemma no_pre_slot_extra c : cap_pre_slot c = None → cap_extra c = 0.
Proof. by destruct c. Qed.

Lemma pre_slot_same_type a b :
  cap_get_capType a = cap_get_capType b → cap_pre_slot a = cap_pre_slot b.
Proof. by destruct a, b. Qed.

(** Running the extra comparison of the type is comparing the components. *)
Lemma run_pre_slot_extra a b k :
  cdt_cap (slot_cap a) = true → cdt_cap (slot_cap b) = true →
  cap_get_capType (slot_cap a) = cap_get_capType (slot_cap b) →
  run_pre_slot (cap_pre_slot (slot_cap a)) a b k =
  cmp_then (cap_extra (slot_cap a) ?= cap_extra (slot_cap b)) k.
Proof.
  intros [_ Ha]%cdt_cap_spec [_ Hb]%cdt_cap_spec Ht.
  pose proof (pre_slot_same_type _ _ Ht) as Hpre.
  destruct (cap_pre_slot (slot_cap a)) as [pre|] eqn:E; cbn.
  - assert (pre = cap_extra_comp) as -> by (destruct (slot_cap a); cbn in E; congruence).
    unfold cap_extra_comp. by rewrite Ha, Hb.
  - by rewrite (no_pre_slot_extra _ E), (no_pre_slot_extra _ (eq_sym Hpre)).
Qed.

(** The generic shape of the three tie-breaks that look at depth and extra
    component and then give a fixed verdict [last]. *)
Lemma compSlotWith_tie a b tie last :
  cdt_cap (slot_cap a) = true → cdt_cap (slot_cap b) = true →
  types_agree (slot_cap a) (slot_cap b) →
  (∀ pre, tie a b pre = cmp_then (slot_depth a ?= slot_depth b)
                          (run_pre_slot pre a b (Some last))) →
  compSlotWith a b tie =
  Some (match lex (cap_prefix (slot_cap a) ++ [slot_depth a; cap_extra (slot_cap a)])
                  (cap_prefix (slot_cap b) ++ [slot_depth b; cap_extra (slot_cap b)]) with
        | Eq => last | c => c end).
Proof.
  intros Ha Hb Hag Htie. rewrite compSlotWith_prefix, lex_prefix by done.
  destruct (lex (cap_prefix _) _) eqn:E; [|done..].
  apply lex_Eq in E. rewrite Htie. cbn [cmp_then].
  rewrite run_pre_slot_extra by eauto using prefix_eq_type.
  cbn [lex]. destruct (slot_depth a ?= slot_depth b); [|done..].
  cbn [cmp_then]. by destruct (cap_extra (slot_cap a) ?= cap_extra (slot_cap b)).
Qed.

(** The general comparator is the lexicographic order of the keys. *)
Lemma compSlot_lex a b :
  cdt_cap (slot_cap a) = true → cdt_cap (slot_cap b) = true →
  types_agree (slot_cap a) (slot_cap b) →
  compSlot a b = Some (lex (slot_key a) (slot_key b)).
Proof.
  intros Ha Hb Hag. unfold compSlot.
  rewrite (compSlotWith_tie a b _ (a.1 ?= b.1)) by done.
  unfold slot_key. rewrite !lex_prefix.
  destruct (lex (cap_prefix _) _); [|done..]. cbn [lex].
  destruct (slot_depth a ?= slot_depth b); [|done..].
  destruct (cap_extra _ ?= cap_extra _); [|done..].
  by destruct (a.1 ?= b.1).
Qed.

(** The key without the slot address, by which the searches compare. *)
Definition search_key (x : slot) : list Z :=
  cap_prefix (slot_cap x) ++ [slot_depth x; cap_extra (slot_cap x)].

Lemma compSlotWith_slot_eq a b :
  cdt_cap (slot_cap a) = true → cdt_cap (slot_cap b) = true →
  types_agree (slot_cap a) (slot_cap b) →
  compSlotWith a b slot_eq_comparator = Some (lex (search_key a) (search_key b)).
Proof.
  intros. rewrite (compSlotWith_tie a b _ Eq) by done. f_equal.
  unfold search_key. by destruct (lex _ _).
Qed.

Lemma compSlotWith_slot_lt a b :
  cdt_cap (slot_cap a) = true → cdt_cap (slot_cap b) = true →
  types_agree (slot_cap a) (slot_cap b) →
  compSlotWith a b slot_lt_comparator =
  Some (match lex (search_key a) (search_key b) with Eq => Lt | c => c end).
Proof. intros. by rewrite (compSlotWith_tie a b _ Lt) by done. Qed.

Lemma compSlotWith_largest_child a b :
  cdt_cap (slot_cap a) = true → cdt_cap (slot_cap b) = true →
  types_agree (slot_cap a) (slot_cap b) →
  compSlotWith a b largest_child_comparator =
  Some (match lex (cap_prefix (slot_cap a)) (cap_prefix (slot_cap b)) with
        | Eq => Lt | c => c end).
Proof. intros. rewrite compSlotWith_prefix by done. by destruct (lex _ _). Qed.

Lemma slot_key_search x : slot_key x = search_key x ++ [x.1].
Proof. unfold slot_key, search_key. by rewrite <- app_assoc. Qed.

Lemma slot_key_length x : length (slot_key x) = 6%nat.
Proof.
  unfold slot_key. rewrite length_app.
  by destruct (cap_prefix_3 (slot_cap x)) as (?&?&?&->).
Qed.

Lemma slot_key_ptr a b : slot_key a = slot_key b → a.1 = b.1.
Proof. rewrite !slot_key_search. intros [_ E]%app_inj_2; [|done]. congruence. Qed.
