(* ===== verification/AATree.v ===== *)
(** * AA trees as a pure data type

    The functional counterpart of the AA tree of [src/kernel/cdt.c] (lines 713
    to 1080): the same skew, split, level decrease, rebalance, insertion and
    removal on an inductive tree whose elements are slot addresses, ordered by
    a key.  Here the balance invariant and the effect on the in-order sequence
    are proved; [Cdt.v] shows that the pointer code computes these functions. *)

From S2P Require Import Prelude.
From Stdlib Require Import Sorting.Sorted.

Inductive tree : Type :=
| Leaf
| Node (level : Z) (l : tree) (p : Z) (r : tree).

#[export] Instance tree_eq_dec : EqDecision tree.
Proof. solve_decision. Defined.

Definition lvl (t : tree) : Z := match t with Leaf => 0 | Node lv _ _ _ => lv end.
Definition tleft (t : tree) : tree := match t with Leaf => Leaf | Node _ l _ _ => l end.
Definition tright (t : tree) : tree := match t with Leaf => Leaf | Node _ _ _ r => r end.
Definition troot (t : tree) : Z := match t with Leaf => 0 | Node _ _ p _ => p end.

(** The in-order sequence. *)
Fixpoint elems (t : tree) : list Z :=
  match t with Leaf => [] | Node _ l p r => elems l ++ p :: elems r end.

Fixpoint height (t : tree) : nat :=
  match t with Leaf => 0 | Node _ l _ r => S (Nat.max (height l) (height r)) end.

Fixpoint tmin (t : tree) (d : Z) : Z :=
  match t with Leaf => d | Node _ l p _ => tmin l p end.
Fixpoint tmax (t : tree) (d : Z) : Z :=
  match t with Leaf => d | Node _ _ p r => tmax r p end.

Definition skew (t : tree) : tree :=
  match t with
  | Node lv (Node ll a p b) q c =>
      if ll =? lv then Node ll a p (Node lv b q c) else t
  | _ => t
  end.

Definition split (t : tree) : tree :=
  match t with
  | Node lv a p (Node rl b q (Node xl c x d)) =>
      if lv =? xl then Node (rl + 1) (Node lv a p b) q (Node xl c x d) else t
  | _ => t
  end.

Definition decLevel (t : tree) : tree :=
  match t with
  | Leaf => Leaf
  | Node lv l p r =>
      let should_be := Z.min (lvl l) (lvl r) + 1 in
      if should_be <? lv then
        Node should_be l p
          (match r with
           | Node rl a q b => if should_be <? rl then Node should_be a q b else r
           | Leaf => Leaf
           end)
      else t
  end.

Definition map_right (f : tree → tree) (t : tree) : tree :=
  match t with Leaf => Leaf | Node lv l p r => Node lv l p (f r) end.

Definition rebalance (t : tree) : tree :=
  map_right split (split (map_right (λ r, map_right skew (skew r)) (skew (decLevel t)))).

Section Ordered.
Context (key : Z → list Z).
Definition cmp (p q : Z) : comparison := lex (key p) (key q).

Fixpoint insert (t : tree) (x : Z) : tree :=
  match t with
  | Leaf => Node 1 Leaf x Leaf
  | Node lv l p r =>
      match cmp x p with
      | Gt => split (skew (Node lv l p (insert r x)))
      | Lt => split (skew (Node lv (insert l x) p r))
      | Eq => t
      end
  end.

Fixpoint remove (t : tree) (x : Z) : tree :=
  match t with
  | Leaf => Leaf
  | Node lv l p r =>
      rebalance
        (match cmp x p with
         | Gt => Node lv l p (remove r x)
         | Lt => Node lv (remove l x) p r
         | Eq =>
             match l, r with
             | Node _ _ _ _, _ => Node lv (remove l (tmax l 0)) (tmax l 0) r
             | Leaf, Node _ _ _ _ => Node lv Leaf (tmin r 0) (remove r (tmin r 0))
             | Leaf, Leaf => Leaf
             end
         end)
  end.

(** Reference operations on the sorted sequence. *)
Fixpoint list_insert (x : Z) (xs : list Z) : list Z :=
  match xs with
  | [] => [x]
  | y :: ys => match cmp x y with Gt => y :: list_insert x ys | _ => x :: y :: ys end
  end.
Definition list_remove (x : Z) (xs : list Z) : list Z := filter (.≠ x) xs.

Definition klt (p q : Z) : Prop := cmp p q = Lt.
Definition sorted (xs : list Z) : Prop := StronglySorted klt xs.
End Ordered.

Lemma list_insert_ext key key' x xs :
  (∀ p, key p = key' p) → list_insert key x xs = list_insert key' x xs.
Proof.
  intros H. induction xs as [|y ys IH]; cbn; [done|]. unfold cmp. by rewrite !H, IH.
Qed.

(** ** The balance invariant *)
Fixpoint aa (t : tree) : Prop :=
  match t with
  | Leaf => True
  | Node lv l _ r =>
      1 ≤ lv ∧ lvl l = lv - 1 ∧
      (lvl r = lv - 1 ∨ lvl r = lv ∧ lvl (tright r) = lv - 1) ∧ aa l ∧ aa r
  end.

Lemma aa_lvl_nonneg t : aa t → 0 ≤ lvl t.
Proof. destruct t; cbn; lia. Qed.

Lemma aa_leaf t : aa t → lvl t = 0 → t = Leaf.
Proof. destruct t; cbn; [done|lia]. Qed.

Ltac aa_facts :=
  repeat match goal with
  | H : aa (Node _ _ _ _) |- _ => cbn [aa] in H
  | H : _ ∧ _ |- _ => destruct H
  | H : aa ?t |- _ =>
      lazymatch goal with
      | _ : 0 ≤ lvl t |- _ => fail
      | _ => pose proof (aa_lvl_nonneg t H)
      end
  end.

(** [aa_case] unfolds one level of every subtree the goal or a hypothesis
    inspects, and decides the level tests by linear arithmetic. *)
Ltac aa_case :=
  repeat (cbn -[Z.min] in *; aa_facts;
    match goal with
    | H : False |- _ => destruct H
    | |- context [?x =? ?y] => destruct (Z.eqb_spec x y); try (exfalso; lia)
    | |- context [?x <? ?y] => destruct (Z.ltb_spec x y); try (exfalso; lia)
    | |- context [match ?t with Leaf => _ | Node _ _ _ _ => _ end] =>
        is_var t; destruct t
    end);
  cbn -[Z.min] in *; aa_facts.
Ltac aa_solve := aa_case; split_and?; try (done || lia).

(** Rotations on a tree one of whose subtrees may be one level too high. *)
Lemma aa_adjust_right lv l p r r0 :
  aa (Node lv l p r0) → aa r →
  lvl r = lvl r0 ∨ (lvl r = lvl r0 + 1 ∧ lvl (tright r) = lvl r0) →
  (lvl r0 = lv → lvl r = lv) →
  let t := split (skew (Node lv l p r)) in
  aa t ∧ (lvl t = lv ∨ (lvl t = lv + 1 ∧ lvl (tright t) = lv)) ∧
  (lvl r0 < lv → lvl t = lv).
Proof.
  intros Ht Hr Hup Hred t; subst t. destruct l as [|ll la lp lb]; destruct r as [|rl ra rp rb];
    aa_solve.
Qed.

Lemma aa_adjust_left lv l p r l0 :
  aa (Node lv l0 p r) → aa l →
  lvl l = lvl l0 ∨ (lvl l = lvl l0 + 1 ∧ lvl (tright l) = lvl l0) →
  let t := split (skew (Node lv l p r)) in
  aa t ∧ (lvl t = lv ∨ (lvl t = lv + 1 ∧ lvl (tright t) = lv)) ∧
  (lvl r < lv → lvl t = lv).
Proof.
  intros Ht Hl Hup t; subst t. destruct l as [|ll la lp lb]; destruct r as [|rl ra rp rb];
    aa_solve.
Qed.

(** What a removal may do to a subtree: keep its level, or lower it by one; a
    subtree without a horizontal right child gets none if its level stays. *)
Definition post_del (t t' : tree) : Prop :=
  aa t' ∧ (lvl t' = lvl t ∨ lvl t' = lvl t - 1) ∧
  (lvl t' = lvl t → lvl (tright t) < lvl t → lvl (tright t') < lvl t').

Lemma skew_id t : lvl (tleft t) < lvl t → skew t = t.
Proof. destruct t as [|lv [|ll a p b] q c]; cbn; try done. by destruct (Z.eqb_spec ll lv); [lia|]. Qed.

Lemma split_id t : lvl (tright (tright t)) < lvl t → split t = t.
Proof.
  destruct t as [|lv a p [|rl b q [|xl c x d]]]; cbn; try done.
  by destruct (Z.eqb_spec lv xl); [lia|].
Qed.

Lemma skew_rot lv a p b q c :
  skew (Node lv (Node lv a p b) q c) = Node lv a p (Node lv b q c).
Proof. cbn. by rewrite Z.eqb_refl. Qed.

Lemma split_rot lv rl a p b q x :
  x ≠ Leaf → lvl x = lv →
  split (Node lv a p (Node rl b q x)) = Node (rl + 1) (Node lv a p b) q x.
Proof. destruct x as [|xl c y d]; cbn; [done|]. intros _ ->. by rewrite Z.eqb_refl. Qed.

Lemma aa_right_lvl t : aa t → lvl (tright t) ≤ lvl t.
Proof. destruct t; cbn; lia. Qed.

Lemma aa_left_lvl t : aa t → t ≠ Leaf → lvl (tleft t) = lvl t - 1.
Proof. destruct t; cbn; [done|lia]. Qed.

Lemma aa_right_right_lvl t : aa t → t ≠ Leaf → lvl (tright (tright t)) < lvl t.
Proof.
  destruct t as [|lv l p r]; cbn; [done|]. intros (H1 & H2 & H3 & H4 & H5) _.
  pose proof (aa_right_lvl r H5). lia.
Qed.

Lemma skew_aa t : aa t → skew t = t.
Proof.
  intros H. destruct (decide (lvl t = 0)) as [E|E].
  - by rewrite (aa_leaf t H E).
  - apply skew_id. rewrite aa_left_lvl; [lia|done|]. by intros ->.
Qed.

Lemma split_aa t : aa t → split t = t.
Proof.
  intros H. destruct (decide (lvl t = 0)) as [E|E].
  - by rewrite (aa_leaf t H E).
  - apply split_id, aa_right_right_lvl; [done|]. by intros ->.
Qed.

Lemma aa_node lv l p r :
  aa (Node lv l p r) ↔ 1 ≤ lv ∧ lvl l = lv - 1 ∧
    (lvl r = lv - 1 ∨ lvl r = lv ∧ lvl (tright r) = lv - 1) ∧ aa l ∧ aa r.
Proof. done. Qed.

Lemma decLevel_id lv l p r :
  lv - 1 ≤ lvl l → lv - 1 ≤ lvl r → decLevel (Node lv l p r) = Node lv l p r.
Proof. intros. unfold decLevel. by destruct (Z.ltb_spec (Z.min (lvl l) (lvl r) + 1) lv); [lia|]. Qed.

Lemma decLevel_drop lv l p r :
  Z.min (lvl l) (lvl r) = lv - 2 → lvl r ≤ lv - 1 →
  decLevel (Node lv l p r) = Node (lv - 1) l p r.
Proof.
  intros E Hr. unfold decLevel. rewrite E. destruct (Z.ltb_spec (lv - 2 + 1) lv); [|lia].
  replace (lv - 2 + 1) with (lv - 1) by lia. destruct r as [|rl a q b]; [done|].
  cbn in Hr. by destruct (Z.ltb_spec (lv - 1) rl); [lia|].
Qed.

Lemma decLevel_drop_both lv l p a q b :
  lvl l = lv - 2 →
  decLevel (Node lv l p (Node lv a q b)) = Node (lv - 1) l p (Node (lv - 1) a q b).
Proof.
  intros E. unfold decLevel. replace (Z.min (lvl l) (lvl (Node lv a q b)) + 1) with (lv - 1)
    by (cbn; lia).
  by destruct (Z.ltb_spec (lv - 1) lv); [|lia].
Qed.

Lemma map_right_id f t : f (tright t) = tright t → map_right f t = t.
Proof. destruct t; cbn; [done|]. by intros ->. Qed.

(** A balanced tree is left as it is. *)
Lemma rebalance_aa t : aa t → rebalance t = t.
Proof.
  intros H. destruct t as [|lv l p r]; [done|]. pose proof H as (H1 & H2 & H3 & H4 & H5)%aa_node.
  unfold rebalance. rewrite decLevel_id, (skew_aa _ H) by lia.
  rewrite (map_right_id _ (Node lv l p r)).
  2:{ cbn. rewrite skew_aa by done. apply map_right_id, skew_aa.
      destruct r; [done|]. by apply aa_node in H5 as (_&_&_&_&?). }
  rewrite split_aa by done. apply map_right_id. cbn. by apply split_aa.
Qed.

(** The left subtree lost a level and the right child is one level below. *)
Lemma rebalance_left_black lv l p r :
  aa l → aa r → lvl l = lv - 2 → lvl r = lv - 1 → 1 ≤ lv - 1 →
  rebalance (Node lv l p r) =
  if lvl (tright r) =? lv - 1
  then Node lv (Node (lv - 1) l p (tleft r)) (troot r) (tright r)
  else Node (lv - 1) l p r.
Proof.
  intros Hl Hr El Er Hlv. unfold rebalance.
  rewrite decLevel_drop, skew_id by (cbn; lia).
  destruct r as [|rl a q b]; [cbn in Er; lia|]. cbn in Er. subst rl.
  pose proof Hr as (H1 & H2 & H3 & H4 & H5)%aa_node.
  cbn [map_right tright]. rewrite (skew_aa _ Hr). cbn [map_right]. rewrite (skew_aa _ H5).
  cbn [tright tleft troot]. destruct (Z.eqb_spec (lvl b) (lv - 1)) as [E|E].
  - rewrite split_rot by (done || intros ->; cbn in E; lia).
    replace (lv - 1 + 1) with lv by lia. cbn [map_right]. by rewrite (split_aa _ H5).
  - rewrite split_id by (cbn; lia). cbn [map_right]. by rewrite (split_aa _ Hr).
Qed.

(** The left subtree lost a level and the right child is horizontal. *)
Lemma rebalance_left_red lv l p a q b :
  aa l → aa (Node lv a q b) → lvl l = lv - 2 → lvl b = lv - 1 → 2 ≤ lv →
  rebalance (Node lv l p (Node lv a q b)) =
  map_right split
    (Node lv (Node (lv - 1) l p (tleft a)) (troot a) (skew (Node (lv - 1) (tright a) q b))).
Proof.
  intros Hl Hr El Eb Hlv. pose proof Hr as (H1 & H2 & H3 & H4 & H5)%aa_node.
  unfold rebalance. rewrite decLevel_drop_both, skew_id by (cbn; lia).
  destruct a as [|al aal ap aar]; [cbn in H2; lia|]. cbn in H2. subst al.
  cbn [map_right tright tleft troot]. rewrite skew_rot. cbn [map_right].
  rewrite split_rot; [by replace (lv - 1 + 1) with lv by lia|..].
  - destruct aar as [|xl ? ? ?]; cbn; [done|]. by destruct (xl =? lv - 1).
  - destruct aar as [|xl ? ? ?]; cbn; [done|]. by destruct (Z.eqb_spec xl (lv - 1)).
Qed.

Lemma rebalance_left lv l0 p r l q :
  aa (Node lv l0 p r) → post_del l0 l →
  post_del (Node lv l0 p r) (rebalance (Node lv l q r)).
Proof.
  intros (H1 & H2 & H3 & H4 & H5)%aa_node (Hl & Hlv & _).
  pose proof (aa_lvl_nonneg l Hl) as Hl0.
  destruct (decide (lvl l = lvl l0)) as [E|E].
  { rewrite rebalance_aa by (apply aa_node; split_and!; (done || lia)).
    split_and!; [apply aa_node; split_and!; (done || lia)|cbn; lia|done]. }
  destruct (decide (lvl r = lv - 1)) as [Er|Er].
  - rewrite rebalance_left_black by (done || lia).
    destruct (Z.eqb_spec (lvl (tright r)) (lv - 1)) as [Ex|Ex].
    + destruct r as [|rl a x b]; [cbn in *; lia|]. cbn in Er, Ex. subst rl.
      apply aa_node in H5 as (? & ? & ? & ? & ?). pose proof (aa_right_lvl b).
      unfold post_del; cbn; split_and!; (done || lia).
    + pose proof (aa_right_lvl r H5).
      assert (lvl (tright r) = lv - 2 ∨ r = Leaf) as Hrr.
      { destruct r as [|rl a x b]; [by right|left].
        apply aa_node in H5 as (? & ? & ? & ? & ?). cbn in *. lia. }
      destruct Hrr as [Hrr| ->]; [|cbn in *; lia].
      unfold post_del; cbn; split_and!; (done || lia).
  - assert (lvl r = lv ∧ lvl (tright r) = lv - 1) as [Er1 Er2] by lia.
    destruct r as [|rl a x b]; [cbn in *; lia|]. cbn in Er1, Er2. subst rl.
    pose proof H5 as (_ & Ha & _ & Haa & Hb)%aa_node.
    rewrite rebalance_left_red by (done || lia).
    destruct a as [|al aal ap aar]; [cbn in *; lia|]. cbn in Ha. subst al.
    apply aa_node in Haa as (? & ? & Haar & ? & ?).
    unfold post_del; cbn [map_right tleft tright troot].
    destruct (decide (lvl aar = lv - 1)) as [E1|E1].
    + destruct aar as [|xl xa xp xb]; [cbn in *; lia|]. cbn in E1. subst xl.
      match goal with H : aa (Node _ xa xp xb) |- _ => apply aa_node in H as (?&?&?&?&?) end.
      rewrite skew_rot. cbn in Haar.
      assert (b ≠ Leaf) by (intros ->; cbn in Er2; lia).
      rewrite split_rot by done. cbn. split_and!; (done || lia).
    + rewrite skew_id by (cbn; lia).
      destruct (decide (lvl (tright b) = lv - 1)) as [E2|E2].
      * destruct b as [|bl ba bp bb]; [cbn in *; lia|]. cbn in Er2, E2. subst bl.
        apply aa_node in Hb as (?&?&?&?&?). pose proof (aa_right_lvl bb).
        rewrite split_rot by (done || intros ->; cbn in E2; lia). cbn.
        split_and!; (done || lia).
      * pose proof (aa_right_lvl b Hb). rewrite split_id by (cbn; lia). cbn.
        assert (lvl (tright b) = lv - 2).
        { destruct b as [|bl ba bp bb]; [cbn in *; lia|].
          apply aa_node in Hb as (?&?&?&?&?). cbn in *. lia. }
        split_and!; (done || lia).
Qed.

Lemma rebalance_right lv l p r0 r q :
  aa (Node lv l p r0) → post_del r0 r →
  post_del (Node lv l p r0) (rebalance (Node lv l q r)).
Proof.
  intros (H1 & H2 & H3 & H4 & H5)%aa_node (Hr & Hlv & Hsngl).
  pose proof (aa_lvl_nonneg r Hr) as Hr0. pose proof (aa_right_lvl r Hr) as Hrr.
  pose proof (aa_right_lvl r0 H5) as Hrr0.
  destruct (decide (lvl r = lv - 2)) as [E|E].
  2:{ assert (aa (Node lv l q r)) as Haa.
      { apply aa_node; split_and!; try (done || lia).
        destruct (decide (lvl r = lv)); [|lia]. right; split; [done|].
        destruct r as [|rl a x b]; [cbn in *; lia|].
        apply aa_node in Hr as (?&?&?&?&?). cbn in *. lia. }
      rewrite rebalance_aa by done. split_and!; [done|cbn; lia|].
      cbn. intros _ ?. lia. }
  assert (lvl l = lv - 1 ∧ lvl r0 = lv - 1) as [_ Er0] by lia.
  destruct l as [|ll la lp lb]; [cbn in *; lia|]. cbn in H2. subst ll.
  pose proof H4 as (_ & Hla & Hlb & Haa & Hbb)%aa_node.
  unfold rebalance. rewrite decLevel_drop by (cbn; lia). rewrite skew_rot.
  destruct (decide (lvl lb = lv - 1)) as [Eb|Eb].
  - destruct lb as [|bl ba bp bb]; [cbn in *; lia|]. cbn in Eb, Hlb. subst bl.
    apply aa_node in Hbb as (?&?&?&?&?). cbn [map_right]. rewrite skew_rot. cbn [map_right].
    rewrite (skew_id (Node _ bb q r)) by (cbn; lia).
    rewrite split_rot by done. cbn [map_right].
    rewrite split_id by (cbn; lia). unfold post_del; cbn. split_and!; (done || lia).
  - cbn [map_right]. rewrite (skew_id (Node _ lb q r)) by (cbn; lia). cbn [map_right].
    rewrite (skew_aa r), split_id by (done || cbn; lia). cbn [map_right].
    rewrite split_id by (cbn; lia). unfold post_del; cbn. split_and!; (done || lia).
Qed.

Lemma post_del_leaf p : post_del (Node 1 Leaf p Leaf) (rebalance Leaf).
Proof. unfold post_del. cbn. lia. Qed.

(** ** Size, height and level *)
Lemma aa_size t : aa t → 2 ^ lvl t ≤ Z.of_nat (length (elems t)) + 1.
Proof.
  induction t as [|lv l IHl p r IHr]; [cbn; lia|].
  intros (H1 & H2 & H3 & H4 & H5)%aa_node. specialize (IHl H4). specialize (IHr H5).
  cbn [lvl elems]. rewrite length_app. cbn [length]. rewrite H2 in IHl.
  assert (2 ^ (lv - 1) ≤ 2 ^ lvl r) by (apply Z.pow_le_mono_r; lia).
  replace (2 ^ lv) with (2 * 2 ^ (lv - 1))
    by (replace lv with (Z.succ (lv - 1)) at 2 by lia; rewrite Z.pow_succ_r by lia; done).
  lia.
Qed.

(** With fewer than [2^31] slots every level fits in the 5-bit field. *)
Lemma aa_lvl_bound t : aa t → Z.of_nat (length (elems t)) < 2 ^ 31 → lvl t < 32.
Proof.
  intros H Hn. pose proof (aa_size t H). apply (Z.pow_lt_mono_r_iff 2); [lia|lia|].
  lia.
Qed.

Lemma height_size t : (height t ≤ length (elems t))%nat.
Proof. induction t; cbn; [lia|]. rewrite length_app. cbn. lia. Qed.

(** A balanced tree is at most twice as high as its level. *)
Lemma aa_height t : aa t → Z.of_nat (height t) ≤ 2 * lvl t ∧
  (t ≠ Leaf → lvl (tright t) < lvl t → Z.of_nat (height t) ≤ 2 * lvl t - 1).
Proof.
  induction t as [|lv l IHl p r IHr]; [cbn; lia|].
  intros (H1 & H2 & H3 & H4 & H5)%aa_node.
  destruct (IHl H4) as [Hl _], (IHr H5) as [Hr Hr']. cbn [height lvl tright].
  split; [|intros _ Hlt; lia]. destruct H3 as [H3|[H3 H3']]; [lia|].
  assert (Hn : r ≠ Leaf) by (intros ->; cbn in H3; lia).
  specialize (Hr' Hn ltac:(lia)). lia.
Qed.

(** ** The in-order sequence of every operation *)
Lemma elems_skew t : elems (skew t) = elems t.
Proof.
  destruct t as [|lv [|ll a p b] q c]; cbn; try done.
  destruct (ll =? lv); cbn; [|done]. by rewrite <- app_assoc.
Qed.

Lemma elems_split t : elems (split t) = elems t.
Proof.
  destruct t as [|lv a p [|rl b q [|xl c x d]]]; cbn; try done.
  destruct (lv =? xl); cbn; [|done]. by rewrite <- app_assoc.
Qed.

Lemma elems_decLevel t : elems (decLevel t) = elems t.
Proof.
  destruct t as [|lv l p r]; cbn; [done|].
  destruct (_ <? lv); [|done]. destruct r as [|rl a q b]; cbn; [done|].
  by destruct (_ <? rl).
Qed.

Lemma elems_map_right f t :
  (∀ u, elems (f u) = elems u) → elems (map_right f t) = elems t.
Proof. intros Hf. destruct t; cbn; [done|]. by rewrite Hf. Qed.

Lemma elems_rebalance t : elems (rebalance t) = elems t.
Proof.
  unfold rebalance.
  rewrite (elems_map_right _ _ elems_split), elems_split.
  rewrite elems_map_right, elems_skew, elems_decLevel; [done|].
  intros u. rewrite (elems_map_right _ _ elems_skew). apply elems_skew.
Qed.

Lemma elems_tmax t d : t ≠ Leaf → ∃ k, elems t = k ++ [tmax t d].
Proof.
  revert d. induction t as [|lv l _ p r IH]; intros d Ht; [done|]. cbn.
  destruct r as [|rl a q b] eqn:E; [by exists (elems l)|]. rewrite <- E in *.
  destruct (IH p) as [k Hk]; [by subst|]. exists (elems l ++ p :: k).
  by rewrite Hk, <- app_assoc.
Qed.

Lemma elems_tmin t d : t ≠ Leaf → ∃ k, elems t = tmin t d :: k.
Proof.
  revert d. induction t as [|lv l IH p r _]; intros d Ht; [done|]. cbn.
  destruct l as [|rl a q b] eqn:E; [by exists (elems r)|]. rewrite <- E in *.
  destruct (IH p) as [k Hk]; [by subst|]. exists (k ++ p :: elems r).
  by rewrite Hk.
Qed.

Section OrderFacts.
Context (key : Z → list Z) (key_inj : ∀ p q, key p = key q → p = q).
#[local] Abbreviation cmp := (cmp key).
#[local] Abbreviation klt := (klt key).
#[local] Abbreviation sorted := (sorted key).

Lemma cmp_Eq p q : cmp p q = Eq ↔ p = q.
Proof. unfold AATree.cmp. rewrite lex_Eq. split; [apply key_inj|by intros ->]. Qed.
Lemma cmp_antisym p q : cmp q p = CompOpp (cmp p q).
Proof. apply lex_antisym. Qed.
Lemma cmp_Gt p q : cmp p q = Gt ↔ klt q p.
Proof. unfold AATree.klt. rewrite (cmp_antisym p q). by destruct (cmp p q). Qed.
Lemma klt_trans p q r : klt p q → klt q r → klt p r.
Proof. apply lex_trans. Qed.
Lemma klt_irrefl p : ¬ klt p p.
Proof. unfold AATree.klt. by rewrite (proj2 (cmp_Eq p p) eq_refl). Qed.

Lemma sorted_app_inv xs ys :
  sorted (xs ++ ys) → sorted xs ∧ sorted ys ∧ ∀ x y, x ∈ xs → y ∈ ys → klt x y.
Proof.
  induction xs as [|x xs IH]; cbn; intros H.
  - split_and!; [constructor|done|set_solver].
  - apply StronglySorted_inv in H as [H1 H2]. destruct (IH H1) as (H3 & H4 & H5).
    rewrite Forall_app in H2. destruct H2 as [H2 H6]. rewrite Forall_forall in H6.
    split_and!; [by constructor|done|]. intros u v [->|Hu]%elem_of_cons Hv; eauto.
Qed.

Lemma sorted_app xs ys :
  sorted xs → sorted ys → (∀ x y, x ∈ xs → y ∈ ys → klt x y) → sorted (xs ++ ys).
Proof.
  induction xs as [|x xs IH]; cbn; intros Hx Hy H; [done|].
  apply StronglySorted_inv in Hx as [H1 H2]. constructor.
  - apply IH; [done|done|]. intros; apply H; [by right|done].
  - rewrite Forall_app. split; [done|]. rewrite Forall_forall. intros; apply H; [by left|done].
Qed.

Lemma sorted_mid xs p ys :
  sorted (xs ++ p :: ys) →
  sorted xs ∧ sorted ys ∧ (∀ x, x ∈ xs → klt x p) ∧ (∀ y, y ∈ ys → klt p y) ∧
  (∀ x y, x ∈ xs → y ∈ ys → klt x y).
Proof.
  intros (H1 & H2 & H3)%sorted_app_inv. apply StronglySorted_inv in H2 as [H2 H4].
  rewrite Forall_forall in H4. split_and!; try done.
  - intros. apply H3; [done|by left].
  - intros. apply H3; [done|by right].
Qed.

Lemma sorted_NoDup xs : sorted xs → NoDup xs.
Proof.
  induction 1 as [|x xs H1 IH H2]; constructor; [|done].
  rewrite Forall_forall in H2. intros Hx. by apply (klt_irrefl x), H2.
Qed.

Lemma list_insert_app_gt xs p ys x :
  (∀ y, y ∈ xs → klt y p) → cmp x p = Gt →
  list_insert key x (xs ++ p :: ys) = xs ++ p :: list_insert key x ys.
Proof.
  intros Hxs Hx. induction xs as [|y xs IH]; cbn; [by rewrite Hx|].
  assert (cmp x y = Gt) as ->.
  { apply cmp_Gt, (klt_trans _ p); [apply Hxs; by left|by apply cmp_Gt]. }
  rewrite IH; [done|]. intros; apply Hxs; by right.
Qed.

Lemma list_insert_app_lt xs p ys x :
  cmp x p = Lt → list_insert key x (xs ++ p :: ys) = list_insert key x xs ++ p :: ys.
Proof.
  intros Hx. induction xs as [|y xs IH]; cbn; [by rewrite Hx|].
  destruct (cmp x y); cbn; [done..|]. by rewrite IH.
Qed.

Lemma list_insert_Permutation x xs : list_insert key x xs ≡ₚ x :: xs.
Proof.
  induction xs as [|y ys IH]; cbn; [done|].
  destruct (cmp x y); try done. rewrite IH. apply Permutation_swap.
Qed.

Lemma list_insert_sorted x xs : x ∉ xs → sorted xs → sorted (list_insert key x xs).
Proof.
  intros Hx. induction 1 as [|y ys Hs IH Hy]; cbn; [by repeat constructor|].
  destruct (cmp x y) eqn:E.
  - apply cmp_Eq in E. set_solver.
  - constructor; [by constructor|]. constructor; [done|].
    eapply Forall_impl; [done|]. intros z. by apply klt_trans.
  - constructor; [apply IH; set_solver|]. rewrite list_insert_Permutation.
    constructor; [by apply cmp_Gt|done].
Qed.

Lemma list_remove_sorted x xs : sorted xs → sorted (list_remove x xs).
Proof.
  unfold list_remove. induction 1 as [|y ys Hs IH Hy]; [constructor|].
  rewrite filter_cons. case_decide; [|done]. constructor; [done|].
  rewrite Forall_forall in *. intros z [_ Hz]%list_elem_of_filter. by apply Hy.
Qed.

Lemma list_remove_notin x xs : x ∉ xs → list_remove x xs = xs.
Proof.
  unfold list_remove. induction xs as [|y ys IH]; [done|]. intros Hx.
  rewrite filter_cons_True by set_solver. f_equal. apply IH. set_solver.
Qed.

Lemma list_remove_app x xs ys :
  list_remove x (xs ++ ys) = list_remove x xs ++ list_remove x ys.
Proof. apply filter_app. Qed.

Lemma list_remove_eq x ys : list_remove x (x :: ys) = list_remove x ys.
Proof. unfold list_remove. rewrite filter_cons_False; [done|]. by intros H; apply H. Qed.

Lemma list_remove_ne x y ys : y ≠ x → list_remove x (y :: ys) = y :: list_remove x ys.
Proof. intros. unfold list_remove. by rewrite filter_cons_True. Qed.

(** Inserting in the tree is inserting in the sorted sequence. *)
Lemma elems_insert t x :
  sorted (elems t) → x ∉ elems t → elems (insert key t x) = list_insert key x (elems t).
Proof.
  induction t as [|lv l IHl p r IHr]; [done|]. cbn [elems insert]. intros Hs Hx.
  destruct (sorted_mid _ _ _ Hs) as (Hl & Hr & Hlp & Hpr & _).
  destruct (cmp x p) eqn:E.
  - apply cmp_Eq in E. set_solver.
  - rewrite elems_split, elems_skew. cbn. rewrite IHl by set_solver.
    by rewrite list_insert_app_lt.
  - rewrite elems_split, elems_skew. cbn. rewrite IHr by set_solver.
    by rewrite list_insert_app_gt.
Qed.

Lemma aa_insert t x :
  aa t →
  let t' := insert key t x in
  aa t' ∧ (lvl t' = lvl t ∨ (lvl t' = lvl t + 1 ∧ lvl (tright t') = lvl t)) ∧
  (t ≠ Leaf → lvl (tright t) < lvl t → lvl t' = lvl t).
Proof.
  induction t as [|lv l IHl p r IHr]; cbn [insert]; [cbn; lia|].
  intros Ht. pose proof Ht as (H1 & H2 & H3 & H4 & H5)%aa_node.
  destruct (cmp x p); cbn zeta.
  - split_and!; [done|by left|done].
  - destruct (IHl H4) as (Ha & Hup & _).
    destruct (aa_adjust_left lv (insert key l x) p r l) as (K1 & K2 & K3); auto.
  - destruct (IHr H5) as (Ha & Hup & Hs).
    destruct (aa_adjust_right lv l p (insert key r x) r) as (K1 & K2 & K3); auto.
    intros E. rewrite Hs; [done|intros ->; cbn in E; lia|lia].
Qed.

Lemma aa_remove t x : aa t → post_del t (remove key t x).
Proof.
  revert x. induction t as [|lv l IHl p r IHr]; intros x Ht; [unfold post_del; cbn; lia|].
  pose proof Ht as (H1 & H2 & H3 & H4 & H5)%aa_node. cbn [remove].
  destruct (cmp x p) eqn:E; [|by apply rebalance_left; auto|by apply rebalance_right; auto].
  destruct l as [|ll la lp lb]; [|by apply rebalance_left; auto].
  destruct r as [|rl ra rp rb]; [|by apply rebalance_right; auto].
  cbn in H2. replace lv with 1 by lia. apply post_del_leaf.
Qed.

(** Removing from the tree is removing from the sorted sequence. *)
Lemma elems_remove t x :
  sorted (elems t) → x ∈ elems t → elems (remove key t x) = list_remove x (elems t).
Proof.
  revert x. induction t as [|lv l IHl p r IHr]; intros x; [set_solver|].
  cbn [elems remove]. intros Hs Hx. rewrite elems_rebalance.
  destruct (sorted_mid _ _ _ Hs) as (Hl & Hr & Hlp & Hpr & Hlr).
  assert (∀ y, klt y y → False) as Hirr by apply klt_irrefl.
  rewrite list_remove_app. destruct (cmp x p) eqn:E.
  - apply cmp_Eq in E. subst x. rewrite list_remove_eq.
    rewrite (list_remove_notin p (elems l)) by eauto.
    rewrite (list_remove_notin p (elems r)) by eauto.
    destruct l as [|ll la lp lb]; [destruct r as [|rl ra rp rb]|].
    + done.
    + set (r := Node rl ra rp rb) in *. destruct (elems_tmin r 0) as [k Hk]; [done|].
      cbn [elems]. change (elems Leaf) with (@nil Z). cbn [app].
      rewrite IHr; [|done|rewrite Hk; by left].
      rewrite Hk, list_remove_eq, list_remove_notin; [done|].
      rewrite Hk in Hr. apply sorted_NoDup, NoDup_cons in Hr. tauto.
    + set (l := Node ll la lp lb) in *. destruct (elems_tmax l 0) as [k Hk]; [done|].
      cbn [elems]. rewrite IHl; [|done|rewrite Hk; apply elem_of_app; right; by left].
      rewrite Hk, list_remove_app, list_remove_eq. cbn.
      rewrite list_remove_notin; [by rewrite app_nil_r, <- app_assoc|].
      rewrite Hk in Hl. apply sorted_NoDup, NoDup_app in Hl as (_ & Hn & _).
      intros Hin. apply (Hn _ Hin). by left.
  - assert (klt x p) by done. assert (x ≠ p) by (intros ->; eauto).
    assert (x ∉ elems r) by (intros ?; eauto using klt_trans).
    rewrite list_remove_ne, (list_remove_notin x (elems r)) by done.
    cbn [elems]. rewrite IHl; [done|done|].
    apply elem_of_app in Hx as [?|[?|?]%elem_of_cons]; done.
  - apply cmp_Gt in E. assert (x ≠ p) by (intros ->; eauto).
    assert (x ∉ elems l) by (intros ?; eauto using klt_trans).
    rewrite list_remove_ne, (list_remove_notin x (elems l)) by done.
    cbn [elems]. rewrite IHr; [done|done|].
    apply elem_of_app in Hx as [?|[?|?]%elem_of_cons]; done.
Qed.
End OrderFacts.
