(* ===== verification/CapOps.v ===== *)
(** * Pure operations on capabilities

    Models the side-effect-free functions of [src/object/objecttype.c] and
    [src/arch/arm/object/objecttype.c]: region and object comparison, rights
    masking, badge and guard updates, recycle rights, and [maskVMRights] and
    [isValidVTableRoot] of [src/arch/arm/kernel/vspace.c]. *)

From S2P Require Import Prelude.
From S2P Require Import Word32.
From S2P Require Import Structures.

(** ** Regions and objects *)
Definition Arch_sameRegionAs (cap_a cap_b : cap_t) : option bool :=
  match cap_a, cap_b with
  | cap_frame_cap _ _ size_a _ _ botA, cap_frame_cap _ _ size_b _ _ botB =>
      let? bits_a := pageBitsForSize size_a in
      let? bits_b := pageBitsForSize size_b in
      let topA := w32 (botA + MASK bits_a) in
      let topB := w32 (botB + MASK bits_b) in
      Some ((botA <=? botB) && (topB <=? topA) && (botB <=? topB))
  | cap_page_table_cap _ _ base_a, cap_page_table_cap _ _ base_b => Some (base_a =? base_b)
  | cap_page_directory_cap base_a, cap_page_directory_cap base_b => Some (base_a =? base_b)
  | _, _ => Some false
  end.

Definition sameRegionAs (cap_a cap_b : cap_t) : option bool :=
  match cap_a with
  | cap_untyped_cap _ bits aBase =>
      let? bBase := cap_get_capPtr cap_b in
      let? bits_b := cap_get_capSizeBits cap_b in
      let aTop := w32 (aBase + MASK bits) in
      let bTop := w32 (bBase + MASK bits_b) in
      Some (negb (bBase =? 0) && (aBase <=? bBase) && (bTop <=? aTop) && (bBase <=? bTop))
  | cap_endpoint_cap _ _ _ _ ptr_a =>
      match cap_b with
      | cap_endpoint_cap _ _ _ _ ptr_b => Some (ptr_a =? ptr_b)
      | _ => Some false
      end
  | cap_async_endpoint_cap _ _ _ ptr_a =>
      match cap_b with
      | cap_async_endpoint_cap _ _ _ ptr_b => Some (ptr_a =? ptr_b)
      | _ => Some false
      end
  | cap_cnode_cap radix_a _ _ ptr_a =>
      match cap_b with
      | cap_cnode_cap radix_b _ _ ptr_b => Some ((ptr_a =? ptr_b) && (radix_a =? radix_b))
      | _ => Some false
      end
  | cap_thread_cap tcb_a =>
      match cap_b with cap_thread_cap tcb_b => Some (tcb_a =? tcb_b) | _ => Some false end
  | cap_reply_cap _ _ tcb_a =>
      match cap_b with cap_reply_cap _ _ tcb_b => Some (tcb_a =? tcb_b) | _ => Some false end
  | cap_domain_cap =>
      match cap_b with cap_domain_cap => Some true | _ => Some false end
  | cap_irq_control_cap =>
      match cap_b with
      | cap_irq_control_cap | cap_irq_handler_cap _ => Some true
      | _ => Some false
      end
  | cap_irq_handler_cap irq_a =>
      match cap_b with cap_irq_handler_cap irq_b => Some (irq_a =? irq_b) | _ => Some false end
  | _ =>
      if isArchCap cap_a && isArchCap cap_b then Arch_sameRegionAs cap_a cap_b
      else Some false
  end.

Definition Arch_sameObjectAs (cap_a cap_b : cap_t) : option bool :=
  match cap_a, cap_b with
  | cap_frame_cap _ _ size_a _ _ base_a, cap_frame_cap _ _ size_b _ _ base_b =>
      Some ((base_a =? base_b) && (size_a =? size_b))
  | _, _ => Arch_sameRegionAs cap_a cap_b
  end.

Definition sameObjectAs (cap_a cap_b : cap_t) : option bool :=
  if cap_get_capType cap_a =? 2 then Some false
  else if (cap_get_capType cap_a =? 14) && (cap_get_capType cap_b =? 30) then Some false
  else if isArchCap cap_a && isArchCap cap_b then Arch_sameObjectAs cap_a cap_b
  else sameRegionAs cap_a cap_b.

(** ** Rights *)
Definition maskVMRights (vm_rights : Z) (mask : cap_rights_t) : Z :=
  if vm_rights =? VMNoAccess then VMNoAccess
  else if (vm_rights =? VMReadOnly) && capAllowRead mask then VMReadOnly
  else if (vm_rights =? VMReadWrite) && capAllowRead mask then
    if negb (capAllowWrite mask) then VMReadOnly else VMReadWrite
  else VMKernelOnly.

Definition Arch_maskCapRights (mask : cap_rights_t) (cap : cap_t) : cap_t :=
  match cap with
  | cap_frame_cap high idx size rights low base =>
      cap_frame_cap high idx size (field 2 (maskVMRights rights mask)) low base
  | _ => cap
  end.

Definition maskCapRights (r : cap_rights_t) (cap : cap_t) : cap_t :=
  if isArchCap cap then Arch_maskCapRights r cap
  else match cap with
  | cap_endpoint_cap badge grant send recv ptr =>
      cap_endpoint_cap badge (grant && capAllowGrant r) (send && capAllowWrite r)
        (recv && capAllowRead r) ptr
  | cap_async_endpoint_cap badge recv send ptr =>
      cap_async_endpoint_cap badge (recv && capAllowRead r) (send && capAllowWrite r) ptr
  | _ => cap
  end.

Definition Arch_hasRecycleRights (cap : cap_t) : bool :=
  match cap with
  | cap_frame_cap _ _ _ rights _ _ => rights =? VMReadWrite
  | _ => true
  end.

Definition hasRecycleRights (cap : cap_t) : bool :=
  match cap with
  | cap_null_cap | cap_domain_cap => false
  | cap_endpoint_cap _ grant send recv _ => send && recv && grant
  | cap_async_endpoint_cap _ recv send _ => send && recv
  | _ => if isArchCap cap then Arch_hasRecycleRights cap else true
  end.

Definition isValidVTableRoot (cap : cap_t) : bool := cap_get_capType cap =? 5.

(** ** User-supplied capability data *)
Definition Arch_updateCapData (preserve : bool) (data : Z) (cap : cap_t) : cap_t := cap.

Definition updateCapData (preserve : bool) (newData : Z) (cap : cap_t) : cap_t :=
  if isArchCap cap then Arch_updateCapData preserve newData cap
  else match cap with
  | cap_endpoint_cap badge grant send recv ptr =>
      if negb preserve && (badge =? 0)
      then cap_endpoint_cap (field 28 newData) grant send recv ptr
      else cap_null_cap_new
  | cap_async_endpoint_cap badge recv send ptr =>
      if negb preserve && (badge =? 0)
      then cap_async_endpoint_cap (field 28 newData) recv send ptr
      else cap_null_cap_new
  | cap_cnode_cap radix _ _ ptr =>
      let guardSize := cnode_capdata_get_guardSize newData in
      if wordBits <? guardSize + radix then cap_null_cap_new
      else
        let guard := Z.land (cnode_capdata_get_guard newData) (MASK guardSize) in
        cap_cnode_cap radix (field 5 guardSize) (field 18 guard) ptr
  | _ => cap
  end.

(** Clearing the mapping of a page cap ([resetMemMapping]). *)
Definition resetMemMapping (cap : cap_t) : cap_t :=
  match cap with
  | cap_frame_cap _ _ _ _ _ _ => cap_frame_cap_set_capFMappedObject cap 0
  | cap_page_table_cap _ idx base => cap_page_table_cap 0 idx base
  | _ => cap
  end.

(** ** Facts *)
Definition rights_and (r1 r2 : cap_rights_t) : cap_rights_t :=
  cap_rights (capAllowGrant r1 && capAllowGrant r2) (capAllowRead r1 && capAllowRead r2)
    (capAllowWrite r1 && capAllowWrite r2).

(** The authority a capability conveys, as a set of rights. *)
Definition cap_authority (c : cap_t) : cap_rights_t :=
  match c with
  | cap_endpoint_cap _ grant send recv _ => cap_rights grant recv send
  | cap_async_endpoint_cap _ recv send _ => cap_rights true recv send
  | cap_frame_cap _ _ _ rights _ _ =>
      cap_rights true ((rights =? VMReadOnly) || (rights =? VMReadWrite))
        (rights =? VMReadWrite)
  | _ => allRights
  end.

Definition rights_le (r1 r2 : cap_rights_t) : bool :=
  implb (capAllowGrant r1) (capAllowGrant r2) && implb (capAllowRead r1) (capAllowRead r2) &&
  implb (capAllowWrite r1) (capAllowWrite r2).

(** Frame rights are a two-bit field. *)
Definition cap_rights_ok (c : cap_t) : Prop :=
  match c with cap_frame_cap _ _ _ rights _ _ => 0 ≤ rights < 4 | _ => True end.

Lemma vm_rights_cases rights :
  0 ≤ rights < 4 →
  rights = VMNoAccess ∨ rights = VMKernelOnly ∨ rights = VMReadOnly ∨ rights = VMReadWrite.
Proof. unfold VMNoAccess, VMKernelOnly, VMReadOnly, VMReadWrite. lia. Qed.

Lemma maskVMRights_field rights r :
  field 2 (maskVMRights rights r) = maskVMRights rights r.
Proof. unfold maskVMRights. repeat case_match; reflexivity. Qed.

Ltac cap_cases c :=
  destruct c; unfold maskCapRights, isArchCap; cbn -[field maskVMRights];
  rewrite ?maskVMRights_field.

Lemma maskCapRights_type r c : cap_get_capType (maskCapRights r c) = cap_get_capType c.
Proof. by cap_cases c. Qed.

Lemma maskCapRights_spaceType r c :
  cap_get_capSpaceType (maskCapRights r c) = cap_get_capSpaceType c.
Proof. by cap_cases c. Qed.
