(* ===== verification/Cdt.v ===== *)
(** * The capability derivation tree

    Models [src/kernel/cdt.c]: the AA tree that the kernel keeps inside the
    [cteMDBNode] fields of the capability slots, and the operations on it.  A
    recursive or looping function takes a recursion budget; the callers pass
    [cdt_fuel], one more than the number of slots, which [CdtProofs.v] shows
    to be enough. *)

From S2P Require Import Prelude.
From S2P Require Import Word32.
From S2P Require Import Structures.
From S2P Require Import State.
From S2P Require Import CdtOrder.
From S2P Require Import CapOps.

Definition cdt_fuel (s : kstate) : nat := S (size (ks_cte s)).

(** ** Access to the tree links *)
Definition getLeft (p : Z) : K Z := let! m := getMDB p in kret (mdb_node_get_cdtLeft m).
Definition getRight (p : Z) : K Z := let! m := getMDB p in kret (mdb_node_get_cdtRight m).
Definition getLevel (p : Z) : K Z := let! m := getMDB p in kret (cdtLevel m).
Definition getDepth (p : Z) : K Z := let! m := getMDB p in kret (cdtDepth m).
Definition setLeft (p q : Z) : K unit :=
  let! m := getMDB p in let! m' := kopt (mdb_node_set_cdtLeft m q) in setMDB p m'.
Definition setRight (p q : Z) : K unit :=
  let! m := getMDB p in let! m' := kopt (mdb_node_set_cdtRight m q) in setMDB p m'.
Definition setLevel (p level : Z) : K unit :=
  let! m := getMDB p in setMDB p (mdb_node_set_cdtLevel m level).

(** Comparing two slots of the heap. *)
Definition compSlotM (a b : Z) : K comparison :=
  let! ca := getCTE a in
  let! cb := getCTE b in
  kopt (compSlot (a, ca) (b, cb)).

(** ** AA tree implementation *)
Definition aaSkew (slot : Z) : K Z :=
  if slot =? 0 then kret 0 else
  let! left := getLeft slot in
  if left =? 0 then kret slot else
  let! left_level := getLevel left in
  let! level := getLevel slot in
  if left_level =? level then
    let! left_right := getRight left in
    setLeft slot left_right ;;;
    setRight left slot ;;;
    kret left
  else kret slot.

Definition aaSplit (slot : Z) : K Z :=
  if slot =? 0 then kret 0 else
  let! right := getRight slot in
  if right =? 0 then kret slot else
  let! right_right := getRight right in
  if right_right =? 0 then kret slot else
  let! level := getLevel slot in
  let! rr_level := getLevel right_right in
  if level =? rr_level then
    let! right_left := getLeft right in
    setRight slot right_left ;;;
    let! right_level := getLevel right in
    let level' := right_level + 1 in
    setLevel right level' ;;;
    let! stored := getLevel right in
    kassert (stored =? level') ;;;
    setLeft right slot ;;;
    kret right
  else kret slot.

Definition aaLevel (slot : Z) : K Z := if slot =? 0 then kret 0 else getLevel slot.

Definition aaDecLevel (slot : Z) : K Z :=
  if slot =? 0 then kret 0 else
  let! left := getLeft slot in
  let! right := getRight slot in
  let! left_level := aaLevel left in
  let! right_level := aaLevel right in
  let should_be := Z.min left_level right_level + 1 in
  let! level := getLevel slot in
  kwhen (should_be <? level)
    (setLevel slot should_be ;;;
     if right =? 0 then kret tt else
     let! right_level := getLevel right in
     kwhen (should_be <? right_level) (setLevel right should_be)) ;;;
  kret slot.

Definition aaRebalance (slot : Z) : K Z :=
  if slot =? 0 then kret 0 else
  let! slot := aaDecLevel slot in
  let! slot := aaSkew slot in
  let! right0 := getRight slot in
  let! right := aaSkew right0 in
  setRight slot right ;;;
  (if right =? 0 then kret tt else
   let! right_right0 := getRight right in
   let! right_right := aaSkew right_right0 in
   setRight right right_right) ;;;
  let! slot := aaSplit slot in
  let! right0 := getRight slot in
  let! right := aaSplit right0 in
  setRight slot right ;;;
  kret slot.

Fixpoint aaSucc (fuel : nat) (slot : Z) : K Z :=
  match fuel with
  | O => kdiverge
  | S fuel =>
      let! left := getLeft slot in
      if left =? 0 then kret slot else aaSucc fuel left
  end.

Fixpoint aaPred (fuel : nat) (slot : Z) : K Z :=
  match fuel with
  | O => kdiverge
  | S fuel =>
      let! right := getRight slot in
      if right =? 0 then kret slot else aaPred fuel right
  end.

Fixpoint aaInsert (fuel : nat) (rootSlot newSlot : Z) : K Z :=
  match fuel with
  | O => kdiverge
  | S fuel =>
      if newSlot =? 0 then kfail else
      kassert (negb (newSlot =? rootSlot)) ;;;
      if rootSlot =? 0 then setLevel newSlot 1 ;;; kret newSlot
      else
        let! c := compSlotM newSlot rootSlot in
        match c with
        | Gt =>
            let! right0 := getRight rootSlot in
            let! right := aaInsert fuel right0 newSlot in
            setRight rootSlot right
        | Lt =>
            let! left0 := getLeft rootSlot in
            let! left := aaInsert fuel left0 newSlot in
            setLeft rootSlot left
        | Eq => kfail
        end ;;;
        let! rootSlot := aaSkew rootSlot in
        aaSplit rootSlot
  end.

(** [aaRemoveNode] calls [aaRemove], which it takes as an argument. *)
Definition aaRemoveNode (aaRemove : Z → Z → K Z) (rootSlot : Z) : K Z :=
  let! mdb := getMDB rootSlot in
  let left := mdb_node_get_cdtLeft mdb in
  let right := mdb_node_get_cdtRight mdb in
  if negb (left =? 0) then
    let! n := gets cdt_fuel in
    let! pred := aaPred n left in
    let! left := aaRemove left pred in
    setLevel pred (cdtLevel mdb) ;;;
    setRight pred right ;;;
    setLeft pred left ;;;
    kret pred
  else if negb (right =? 0) then
    let! n := gets cdt_fuel in
    let! succ := aaSucc n right in
    let! right := aaRemove right succ in
    setLevel succ (cdtLevel mdb) ;;;
    setRight succ right ;;;
    setLeft succ 0 ;;;
    kret succ
  else kret 0.

Fixpoint aaRemove (fuel : nat) (isSwapped : bool) (rootSlot targetSlot : Z) : K Z :=
  match fuel with
  | O => kdiverge
  | S fuel =>
      if targetSlot =? 0 then kfail else
      if rootSlot =? 0 then kfail else
      let! c := compSlotM targetSlot rootSlot in
      let! rootSlot :=
        match c with
        | Gt =>
            let! right0 := getRight rootSlot in
            let! right := aaRemove fuel isSwapped right0 targetSlot in
            setRight rootSlot right ;;;
            kret rootSlot
        | Lt =>
            let! left0 := getLeft rootSlot in
            let! left := aaRemove fuel isSwapped left0 targetSlot in
            setLeft rootSlot left ;;;
            kret rootSlot
        | Eq => aaRemoveNode (aaRemove fuel true) rootSlot
        end in
      aaRebalance rootSlot
  end.

(** ** Walking the tree *)
Fixpoint aaParent_loop (fuel : nat) (slot current next : Z) : K Z :=
  match fuel with
  | O => kdiverge
  | S fuel =>
      if next =? slot then kret current else
      let current := next in
      let! c := compSlotM current slot in
      match c with
      | Lt => let! next := getRight current in aaParent_loop fuel slot current next
      | Gt => let! next := getLeft current in aaParent_loop fuel slot current next
      | Eq => kret current
      end
  end.

Definition aaParent (slot : Z) : K Z :=
  let! n := gets cdt_fuel in
  let! root := gets ksRootCTE in
  aaParent_loop (S n) slot 0 root.

Fixpoint climb (fuel : nat) (link : Z → K Z) (slot : Z) : K Z :=
  match fuel with
  | O => kdiverge
  | S fuel =>
      let! parent := aaParent slot in
      if parent =? 0 then kret 0 else
      let! child := link parent in
      if negb (child =? slot) then climb fuel link parent else kret parent
  end.

Definition aaTraverseBackward (slot : Z) : K Z :=
  let! n := gets cdt_fuel in
  let! left := getLeft slot in
  if negb (left =? 0) then aaPred n left
  else climb n getRight slot.

Definition aaTraverseForward (slot : Z) : K Z :=
  let! n := gets cdt_fuel in
  let! right := getRight slot in
  if negb (right =? 0) then aaSucc n right
  else climb n getLeft slot.

(** ** Searching

    A hypothetical slot lives on the C stack; the tie-breaks used by the
    searches never look at its address. *)
Definition hypothetical_slot (cap : cap_t) (depth : Z) : slot :=
  (0, cte cap (mdb_node_new 0 depth 0 0)).

(** The loop shared by [cdtFindWithExtra] and [cdtFindAtDepth]: descend until
    the comparator answers [EQ] or a NULL link is reached. *)
Fixpoint search_loop (fuel : nat) (tie : tie_comp_t) (hyp : slot) (next : Z) : K Z :=
  match fuel with
  | O => kdiverge
  | S fuel =>
      let current := next in
      let! c := getCTE current in
      let! cmp := kopt (compSlotWith (current, c) hyp tie) in
      match cmp with
      | Eq => kret current
      | Lt =>
          let! next := getRight current in
          if next =? 0 then kret 0 else search_loop fuel tie hyp next
      | Gt =>
          let! next := getLeft current in
          if next =? 0 then kret 0 else search_loop fuel tie hyp next
      end
  end.

Definition cdtFindAtDepth (hypothetical : cap_t) (depth : Z) : K Z :=
  let! n := gets cdt_fuel in
  let! root := gets ksRootCTE in
  search_loop n slot_eq_comparator (hypothetical_slot hypothetical depth) root.

(** [for (i = 0; i < BIT(depth_bits); i++)] with an early return. *)
Fixpoint find_loop (n : nat) (i : Z) (find : Z → K Z) : K Z :=
  match n with
  | O => kret 0
  | S n =>
      let! ret := find i in
      if negb (ret =? 0) then kret ret else find_loop n (i + 1) find
  end.

Definition cdtFind (hypothetical : cap_t) : K Z :=
  find_loop (Z.to_nat (BIT (cte_depth_bits_cap hypothetical))) 0
    (cdtFindAtDepth hypothetical).

Definition cdtFindWithExtra (hypothetical : cap_t) : K Z :=
  find_loop (Z.to_nat (BIT (cte_depth_bits_cap hypothetical))) 0 (λ i,
    let! n := gets cdt_fuel in
    let! root := gets ksRootCTE in
    search_loop n has_extra_comparator (hypothetical_slot hypothetical i) root).

Fixpoint from_below_loop (fuel : nat) (tie : tie_comp_t) (hyp : slot)
    (next largest : Z) : K Z :=
  match fuel with
  | O => kdiverge
  | S fuel =>
      let current := next in
      let! c := getCTE current in
      let! cmp := kopt (compSlotWith (current, c) hyp tie) in
      match cmp with
      | Lt =>
          let! next := getRight current in
          let! largest :=
            if largest =? 0 then kret current else
            let! c := compSlotM current largest in
            kret (match c with Gt => current | _ => largest end) in
          if next =? 0 then kret largest else from_below_loop fuel tie hyp next largest
      | _ =>
          let! next := getLeft current in
          if next =? 0 then kret largest else from_below_loop fuel tie hyp next largest
      end
  end.

Definition aaFindFromBelow (hypothetical : slot) (tie_break : tie_comp_t) : K Z :=
  let! n := gets cdt_fuel in
  let! root := gets ksRootCTE in
  from_below_loop n tie_break hypothetical root 0.

Definition build_largest_child (cap : cap_t) : option cap_t :=
  match cap with
  | cap_domain_cap | cap_irq_handler_cap _ | cap_cnode_cap _ _ _ _ | cap_thread_cap _
  | cap_zombie_cap _ _ => Some cap
  | cap_irq_control_cap => Some (cap_irq_handler_cap_new 0xff)
  | cap_untyped_cap _ bits ptr =>
      Some (cap_untyped_cap_new false 4 (w32 (ptr + BIT bits - BIT 4)))
  | cap_endpoint_cap badge _ _ _ ptr =>
      if badge =? 0 then Some (cap_endpoint_cap_new (BIT 28 - 1) false false false ptr)
      else Some cap
  | cap_async_endpoint_cap badge _ _ ptr =>
      if badge =? 0 then Some (cap_async_endpoint_cap_new (BIT 28 - 1) false false ptr)
      else Some cap
  | cap_frame_cap _ _ _ _ _ _ | cap_page_table_cap _ _ _ | cap_page_directory_cap _ => Some cap
  | cap_null_cap | cap_reply_cap _ _ _ => None
  end.

Definition _cdtFindChild (parentSlot : Z) : K Z :=
  let! parent := getCTE parentSlot in
  let! largest := kopt (build_largest_child (cteCap parent)) in
  let! child := aaFindFromBelow (hypothetical_slot largest 0) largest_child_comparator in
  if child =? 0 then kret 0 else
  let! c := getCTE child in
  let! cmp := kopt (compSlotWith (child, c) (parentSlot, parent) slot_lt_comparator) in
  kret (match cmp with Gt => child | _ => 0 end).

Definition cdtFindTypedInRange (base size_bits : Z) : K Z :=
  let hyp := cap_endpoint_cap_new 0 false false false
               (w32 (base + BIT size_bits - BIT EP_SIZE_BITS)) in
  let! child := aaFindFromBelow (hypothetical_slot hyp 0) largest_child_comparator in
  if child =? 0 then kret 0 else
  let! c := getCap child in
  let! same := kopt (sameRegionAs (cap_untyped_cap_new false size_bits base) c) in
  kret (if same then child else 0).

Definition cdtFindChild (parentSlot : Z) : K Z :=
  let! parent := getCap parentSlot in
  let! space := kopt (cap_get_capSpaceType parent) in
  match parent with
  | cap_untyped_cap _ bits ptr =>
      let! result := cdtFindTypedInRange ptr bits in
      if negb (result =? 0) then kret result else _cdtFindChild parentSlot
  | _ => _cdtFindChild parentSlot
  end.

Definition cdtIsFinal (slot : Z) : K bool :=
  let! cap := getCap slot in
  let! closest := aaTraverseForward slot in
  let! same :=
    if closest =? 0 then kret false else
    let! c := getCap closest in kopt (sameObjectAs c cap) in
  if same then kret false else
  let! closest := aaTraverseBackward slot in
  let! same :=
    if closest =? 0 then kret false else
    let! c := getCap closest in kopt (sameObjectAs c cap) in
  kret (negb same).

(** ** Updating the tree *)
Definition cdtInsertTree (slot : Z) : K unit :=
  let! n := gets cdt_fuel in
  let! root := gets ksRootCTE in
  let! root := aaInsert n root slot in
  modify (upd_ksRootCTE root).

Definition cdtRemoveTree (slot : Z) : K unit :=
  let! n := gets cdt_fuel in
  let! root := gets ksRootCTE in
  let! root := aaRemove n false root slot in
  modify (upd_ksRootCTE root).

(** The depth [cdtInsert] gives a child of [parentSlot]. *)
Definition cdt_child_depth (parent : option (cap_t * Z)) (newCap : cap_t) : option Z :=
  match parent with
  | None => Some 0
  | Some (parentCap, parentDepth) =>
      let? sp := cap_get_capSpaceType parentCap in
      let? sn := cap_get_capSpaceType newCap in
      if negb (sp =? sn) then Some 0
      else
        let depth := parentDepth + 1 in
        if depth =? BIT (cte_depth_bits_cap newCap) then Some (depth - 1) else Some depth
  end.

Definition cdtInsert (parentSlot newSlot : Z) : K unit :=
  let! newCap := getCap newSlot in
  kassert (negb (is_null newCap)) ;;;
  let! parent :=
    if parentSlot =? 0 then kret None else
    let! c := getCTE parentSlot in
    kassert (negb (is_null (cteCap c))) ;;;
    kret (Some (cteCap c, cdtDepth (cteMDBNode c))) in
  let! depth := kopt (cdt_child_depth parent newCap) in
  setMDB newSlot (mdb_node_new 0 depth 0 0) ;;;
  cdtInsertTree newSlot.

Definition cdtRemove (slot : Z) : K unit :=
  let! cap := getCap slot in
  kassert (negb (is_null cap)) ;;;
  cdtRemoveTree slot ;;;
  setMDB slot nullMDBNode.

Definition cdtMove (oldSlot newSlot : Z) : K unit :=
  let! oldCap := getCap oldSlot in
  kassert (negb (is_null oldCap)) ;;;
  let! newCap := getCap newSlot in
  kassert (negb (is_null newCap)) ;;;
  cdtRemoveTree oldSlot ;;;
  let! depth := getDepth oldSlot in
  setMDB newSlot (mdb_node_new 0 depth 0 0) ;;;
  setMDB oldSlot (mdb_node_new 0 0 0 0) ;;;
  cdtInsertTree newSlot.

Definition cdtUpdate (slot : Z) (newCap : cap_t) : K unit :=
  let! cap := getCap slot in
  let! same := kopt (capsEqual cap newCap) in
  if same then setCap slot newCap
  else
    cdtRemoveTree slot ;;;
    let! depth := getDepth slot in
    setMDB slot (mdb_node_new 0 depth 0 0) ;;;
    setCap slot newCap ;;;
    cdtInsertTree slot.

Definition cdtSwap (cap1 : cap_t) (slot1 : Z) (cap2 : cap_t) (slot2 : Z) : K unit :=
  kassert (negb (slot1 =? slot2)) ;;;
  let! c1 := getCap slot1 in
  kwhen (negb (is_null c1)) (cdtRemoveTree slot1) ;;;
  let! c2 := getCap slot2 in
  kwhen (negb (is_null c2)) (cdtRemoveTree slot2) ;;;
  let! depth1 := getDepth slot1 in
  let! depth2 := getDepth slot2 in
  setMDB slot1 (mdb_node_new 0 depth2 0 0) ;;;
  setMDB slot2 (mdb_node_new 0 depth1 0 0) ;;;
  setCap slot1 cap2 ;;;
  setCap slot2 cap1 ;;;
  kwhen (negb (is_null cap2)) (cdtInsertTree slot1) ;;;
  kwhen (negb (is_null cap1)) (cdtInsertTree slot2).
