(* ===== verification/CdtProofs.v ===== *)
(** * The pointer tree refines the functional tree

    [tree_at h p t]: the AA tree [t] is laid out in the slot heap [h] at
    pointer [p].  Every operation of [Cdt.v] on the links computes the
    function of [AATree.v] of the same name, changes only the slots of the
    tree, and never touches a capability or a depth. *)

From S2P Require Import Prelude.
From S2P Require Import Word32.
From S2P Require Import Structures.
From S2P Require Import State.
From S2P Require Import CdtOrder.
From S2P Require Import AATree.
From S2P Require Import CapOps.
From S2P Require Import Cdt.

(** Addresses that a 27-bit link can hold. *)
Definition slot_ok (p : Z) : Prop := p mod 4 = 0 ∧ 0xE0000000 < p < 2 ^ 32.
Definition link_ok (p : Z) : Prop := p = 0 ∨ slot_ok p.

Lemma mdb_ptr_roundtrip p :
  link_ok p → ∃ x, mdb_ptr_encode p = Some x ∧ mdb_ptr_decode x = p.
Proof.
  intros [->|[Hm Hr]]; [by exists 0|].
  assert (0x1FFFFFFF = Z.ones 29) as E1 by done.
  assert (MASK 2 = Z.ones 2) as E2 by done.
  unfold mdb_ptr_encode. rewrite E1, E2, !Z.land_ones by lia.
  change (2 ^ 2) with 4. rewrite Hm, Z.eqb_refl. eexists; split; [done|].
  unfold mdb_ptr_decode. rewrite field_mod, Z.shiftr_div_pow2, Z.shiftl_mul_pow2 by lia.
  set (u := p - 0xE0000000). assert (p mod 2 ^ 29 = u) as ->.
  { subst u. symmetry. apply (Z.mod_unique_pos _ _ 7); lia. }
  assert (u mod 4 = 0) as Hu by (subst u; rewrite Zminus_mod, Hm; done).
  change (2 ^ 2) with 4. rewrite (Z.mod_small (u / 4)).
  2:{ split; [apply Z.div_pos; lia|]. apply Z.div_lt_upper_bound; lia. }
  assert (u / 4 * 4 = u) as -> by (pose proof (Z.div_mod u 4); lia).
  rewrite w32_id by (unfold is_w32; lia). destruct (Z.eqb_spec u 0); [lia|].
  rewrite <- Z.add_nocarry_lor; [lia|].
  apply Z.bits_inj'. intros i Hi. rewrite Z.land_spec, Z.bits_0.
  change 0xE0000000 with (Z.shiftl 7 29). rewrite Z.shiftl_spec by lia.
  destruct (Z.lt_ge_cases i 29).
  - rewrite (Z.testbit_neg_r 7) by lia. apply andb_false_r.
  - rewrite (Z.bits_above_log2 u); [done|lia|]. assert (Z.log2 u < 29); [|lia].
    apply Z.log2_lt_pow2; lia.
Qed.

(** ** Slots as tree nodes *)
Definition c_left (c : cte_t) : Z := mdb_node_get_cdtLeft (cteMDBNode c).
Definition c_right (c : cte_t) : Z := mdb_node_get_cdtRight (cteMDBNode c).
Definition c_level (c : cte_t) : Z := cdtLevel (cteMDBNode c).
Definition skel (c : cte_t) : cap_t * Z := (cteCap c, cdtDepth (cteMDBNode c)).

Fixpoint tree_at (h : gmap Z cte_t) (p : Z) (t : tree) : Prop :=
  match t with
  | Leaf => p = 0
  | Node lv l q r =>
      p = q ∧ slot_ok q ∧
      ∃ c, h !! q = Some c ∧ c_level c = lv ∧
        tree_at h (c_left c) l ∧ tree_at h (c_right c) r
  end.

(** [chg h h' ch]: only slots in [ch] changed, and none of them in its
    capability or depth. *)
Definition chg (h h' : gmap Z cte_t) (ch : list Z) : Prop :=
  (∀ p, skel <$> h' !! p = skel <$> h !! p) ∧ ∀ p, p ∉ ch → h' !! p = h !! p.

Lemma chg_refl h ch : chg h h ch.
Proof. done. Qed.

Lemma chg_trans h1 h2 h3 ch1 ch2 ch :
  chg h1 h2 ch1 → chg h2 h3 ch2 → ch1 ⊆ ch → ch2 ⊆ ch → chg h1 h3 ch.
Proof.
  intros [H1 H2] [H3 H4] S1 S2. split; intros p; [by rewrite H3|].
  intros Hp. rewrite H4, H2; [done|by intros ?%S1|by intros ?%S2].
Qed.

Lemma chg_trans_same h1 h2 h3 ch : chg h1 h2 ch → chg h2 h3 ch → chg h1 h3 ch.
Proof. intros ??. by eapply chg_trans. Qed.

Lemma chg_mono h1 h2 ch1 ch : chg h1 h2 ch1 → ch1 ⊆ ch → chg h1 h2 ch.
Proof. intros. by eapply chg_trans; [done|apply chg_refl| |]. Qed.

Lemma chg_insert h p c c' ch :
  h !! p = Some c → skel c' = skel c → p ∈ ch → chg h (<[p := c']> h) ch.
Proof.
  intros Hp Hs Hin. split; intros q.
  - destruct (decide (p = q)) as [->|]; [by rewrite lookup_insert_eq, Hp; cbn; rewrite Hs|].
    by rewrite lookup_insert_ne.
  - intros Hq. rewrite lookup_insert_ne; [done|]. by intros ->.
Qed.

Lemma chg_lookup h h' ch p c :
  chg h h' ch → h !! p = Some c → ∃ c', h' !! p = Some c' ∧ skel c' = skel c.
Proof.
  intros [H _] Hp. specialize (H p). rewrite Hp in H. cbn in H.
  destruct (h' !! p) as [c'|]; [|done]. exists c'. split; [done|]. cbn in H. congruence.
Qed.

Lemma tree_at_node h p lv l r c :
  slot_ok p → h !! p = Some c → c_level c = lv →
  tree_at h (c_left c) l → tree_at h (c_right c) r → tree_at h p (Node lv l p r).
Proof. intros. cbn. eauto 10. Qed.

Lemma tree_at_root h p t : tree_at h p t → p = troot t.
Proof. destruct t; cbn; [done|naive_solver]. Qed.

Lemma tree_at_link h p t : tree_at h p t → link_ok p.
Proof. destruct t; cbn; [by left|]. intros (-> & H & _). by right. Qed.

Lemma tree_at_slot_ok h p t q : tree_at h p t → q ∈ elems t → slot_ok q.
Proof.
  revert p; induction t as [|lv l IHl x r IHr]; cbn; intros p; [set_solver|].
  intros (-> & H & c & _ & _ & Hl & Hr). rewrite elem_of_app, elem_of_cons.
  intros [?|[->|?]]; eauto.
Qed.

Lemma tree_at_lookup h p t q : tree_at h p t → q ∈ elems t → is_Some (h !! q).
Proof.
  revert p; induction t as [|lv l IHl x r IHr]; cbn; intros p; [set_solver|].
  intros (-> & _ & c & Hc & _ & Hl & Hr). rewrite elem_of_app, elem_of_cons.
  intros [?|[->|?]]; eauto.
Qed.

Lemma tree_at_frame h h' p t :
  tree_at h p t → (∀ q, q ∈ elems t → h' !! q = h !! q) → tree_at h' p t.
Proof.
  revert p; induction t as [|lv l IHl x r IHr]; cbn; intros p; [done|].
  intros (-> & Hok & c & Hc & Hlv & Hl & Hr) H. split_and!; [done|done|].
  exists c. rewrite H by (apply elem_of_app; right; by left). split_and!; try done.
  - apply IHl; [done|]. intros; apply H, elem_of_app; by left.
  - apply IHr; [done|]. intros; apply H, elem_of_app; right; by right.
Qed.

Lemma tree_at_insert_ne h p t q c :
  tree_at h p t → q ∉ elems t → tree_at (<[q := c]> h) p t.
Proof.
  intros H Hq. eapply tree_at_frame; [done|]. intros x Hx.
  rewrite lookup_insert_ne; [done|]. by intros ->.
Qed.

Lemma tree_at_chg h h' ch p t :
  tree_at h p t → chg h h' ch → (∀ q, q ∈ elems t → q ∉ ch) → tree_at h' p t.
Proof. intros H [_ Hc] Hd. eapply tree_at_frame; [done|]. eauto. Qed.

(** ** Writing a link *)
Definition with_left (q : Z) (c : cte_t) : cte_t :=
  cte (cteCap c) (default (cteMDBNode c) (mdb_node_set_cdtLeft (cteMDBNode c) q)).
Definition with_right (q : Z) (c : cte_t) : cte_t :=
  cte (cteCap c) (default (cteMDBNode c) (mdb_node_set_cdtRight (cteMDBNode c) q)).
Definition with_level (lv : Z) (c : cte_t) : cte_t :=
  cte (cteCap c) (mdb_node_set_cdtLevel (cteMDBNode c) lv).

Lemma with_left_skel q c : skel (with_left q c) = skel c.
Proof. unfold with_left, skel, mdb_node_set_cdtLeft; cbn. by destruct (mdb_ptr_encode q). Qed.
Lemma with_right_skel q c : skel (with_right q c) = skel c.
Proof. unfold with_right, skel, mdb_node_set_cdtRight; cbn. by destruct (mdb_ptr_encode q). Qed.
Lemma with_level_skel lv c : skel (with_level lv c) = skel c.
Proof. done. Qed.
Lemma with_left_left q c : link_ok q → c_left (with_left q c) = q.
Proof.
  intros (x & E1 & E2)%mdb_ptr_roundtrip.
  unfold with_left, c_left, mdb_node_set_cdtLeft. by rewrite E1.
Qed.
Lemma with_right_right q c : link_ok q → c_right (with_right q c) = q.
Proof.
  intros (x & E1 & E2)%mdb_ptr_roundtrip.
  unfold with_right, c_right, mdb_node_set_cdtRight. by rewrite E1.
Qed.
Lemma with_left_right q c : c_right (with_left q c) = c_right c.
Proof. unfold with_left, c_right, mdb_node_set_cdtLeft. by destruct (mdb_ptr_encode q). Qed.
Lemma with_right_left q c : c_left (with_right q c) = c_left c.
Proof. unfold with_right, c_left, mdb_node_set_cdtRight. by destruct (mdb_ptr_encode q). Qed.
Lemma with_left_level q c : c_level (with_left q c) = c_level c.
Proof. unfold with_left, c_level, mdb_node_set_cdtLeft. by destruct (mdb_ptr_encode q). Qed.
Lemma with_right_level q c : c_level (with_right q c) = c_level c.
Proof. unfold with_right, c_level, mdb_node_set_cdtRight. by destruct (mdb_ptr_encode q). Qed.
Lemma with_level_left lv c : c_left (with_level lv c) = c_left c.
Proof. done. Qed.
Lemma with_level_right lv c : c_right (with_level lv c) = c_right c.
Proof. done. Qed.
Lemma with_level_level lv c : 0 ≤ lv < 32 → c_level (with_level lv c) = lv.
Proof. intros. unfold with_level, c_level; cbn. apply field_id; lia. Qed.

#[export] Hint Rewrite with_left_skel with_right_skel with_level_skel with_left_right
  with_right_left with_left_level with_right_level with_level_left with_level_right : node.
#[export] Hint Rewrite with_left_left with_right_right with_level_level
  using (assumption || lia) : node.
Ltac node := autorewrite with node in *.

Section Access.
Context (s : kstate) (p : Z) (c : cte_t) (Hp : ks_cte s !! p = Some c).

Lemma getLeft_Ok : getLeft p s = Ok (c_left c) s.
Proof using Hp. unfold getLeft. by kload. Qed.
Lemma getRight_Ok : getRight p s = Ok (c_right c) s.
Proof using Hp. unfold getRight. by kload. Qed.
Lemma getLevel_Ok : getLevel p s = Ok (c_level c) s.
Proof using Hp. unfold getLevel. by kload. Qed.
Lemma getDepth_Ok : getDepth p s = Ok (cdtDepth (cteMDBNode c)) s.
Proof using Hp. unfold getDepth. by kload. Qed.

Lemma setLeft_Ok q :
  link_ok q →
  setLeft p q s = Ok tt (upd_ks_cte (<[p := with_left q c]> (ks_cte s)) s).
Proof using Hp.
  intros (x & E & _)%mdb_ptr_roundtrip. unfold setLeft. kload.
  unfold with_left, mdb_node_set_cdtLeft. rewrite E. unfold kopt. kstep.
  by rewrite (setMDB_Ok _ _ _ _ Hp).
Qed.
Lemma setRight_Ok q :
  link_ok q →
  setRight p q s = Ok tt (upd_ks_cte (<[p := with_right q c]> (ks_cte s)) s).
Proof using Hp.
  intros (x & E & _)%mdb_ptr_roundtrip. unfold setRight. kload.
  unfold with_right, mdb_node_set_cdtRight. rewrite E. unfold kopt. kstep.
  by rewrite (setMDB_Ok _ _ _ _ Hp).
Qed.
Lemma setLevel_Ok lv :
  setLevel p lv s = Ok tt (upd_ks_cte (<[p := with_level lv c]> (ks_cte s)) s).
Proof using Hp. unfold setLevel. kload. by rewrite (setMDB_Ok _ _ _ _ Hp). Qed.
End Access.

Ltac klink :=
  match goal with
  | H : _ !! ?p = Some ?c |- context [kbind (getLeft ?p) _ ?s] =>
      rewrite (kbind_Ok (getLeft p) _ s s _ (getLeft_Ok s p c H))
  | H : _ !! ?p = Some ?c |- context [kbind (getRight ?p) _ ?s] =>
      rewrite (kbind_Ok (getRight p) _ s s _ (getRight_Ok s p c H))
  | H : _ !! ?p = Some ?c |- context [kbind (getLevel ?p) _ ?s] =>
      rewrite (kbind_Ok (getLevel p) _ s s _ (getLevel_Ok s p c H))
  | H : _ !! ?p = Some ?c |- context [kbind (getDepth ?p) _ ?s] =>
      rewrite (kbind_Ok (getDepth p) _ s s _ (getDepth_Ok s p c H))
  | H : _ !! ?p = Some ?c |- context [kbind (setLevel ?p ?l) _ ?s] =>
      rewrite (kbind_Ok (setLevel p l) _ s _ _ (setLevel_Ok s p c H l))
  | H : _ !! ?p = Some ?c |- context [kbind (setLeft ?p ?q) _ ?s] =>
      rewrite (kbind_Ok (setLeft p q) _ s _ _ (setLeft_Ok s p c H q ltac:(first [assumption | by left | by right])))
  | H : _ !! ?p = Some ?c |- context [kbind (setRight ?p ?q) _ ?s] =>
      rewrite (kbind_Ok (setRight p q) _ s _ _ (setRight_Ok s p c H q ltac:(first [assumption | by left | by right])))
  end; cbv beta.

Lemma slot_ok_nonzero p : slot_ok p → (p =? 0) = false.
Proof. intros [_ ?]. apply Z.eqb_neq. lia. Qed.

(** ** Rotations *)
Lemma NoDup_node lv l p r :
  NoDup (elems (Node lv l p r)) →
  p ∉ elems l ∧ p ∉ elems r ∧ NoDup (elems l) ∧ NoDup (elems r) ∧
  (∀ q, q ∈ elems l → q ∉ elems r).
Proof.
  cbn. rewrite NoDup_app, NoDup_cons. intros (H1 & H2 & H3 & H4).
  split_and!; try done.
  - intros Hp. apply (H2 p Hp). by left.
  - intros q Hq Hr. apply (H2 q Hq). by right.
Qed.

(** [tsolve] proves membership and disjointness facts on sequences from the
    facts on sequences in the context. *)
Ltac tsolve :=
  repeat match goal with
  | H : ?P |- _ =>
      lazymatch P with
      | _ ∉ _ => fail | _ ∈ _ => fail | _ = _ => fail | _ ≠ _ => fail
      | _ ⊆ _ => fail
      | ∀ q, q ∈ _ → _ => fail
      | _ => lazymatch type of P with Prop => clear H | _ => fail end
      end
  end;
  cbn [elems] in *; set_solver.

Lemma aaSkew_spec s p t :
  tree_at (ks_cte s) p t → NoDup (elems t) →
  ∃ h', aaSkew p s = Ok (troot (skew t)) (upd_ks_cte h' s) ∧
    tree_at h' (troot (skew t)) (skew t) ∧ chg (ks_cte s) h' (elems t).
Proof.
  intros Ht Hnd. unfold aaSkew. destruct t as [|lv l q r].
  { cbn in Ht. subst p. exists (ks_cte s). by destruct s. }
  pose proof Ht as (-> & Hq & c & Hc & Hlv & Hl & Hr).
  rewrite (slot_ok_nonzero _ Hq). klink.
  destruct l as [|ll a x b].
  { cbn in Hl. rewrite Hl. exists (ks_cte s). by destruct s. }
  pose proof Hl as (Ex & Hx & cx & Hcx & Hlx & Ha & Hb).
  rewrite Ex, (slot_ok_nonzero _ Hx). klink. klink. rewrite Hlv, Hlx. cbn [skew].
  destruct (ll =? lv) eqn:E; [|exists (ks_cte s); by destruct s].
  apply NoDup_node in Hnd as (N1 & N2 & N3 & N4 & N5).
  apply NoDup_node in N3 as (N6 & N7 & N8 & N9 & N10).
  assert (x ≠ q) as Hxq by (intros ->; tsolve).
  pose proof (tree_at_link _ _ _ Hb) as Hlb. klink. klink.
  assert (<[q:=with_left (c_right cx) c]> (ks_cte s) !! x = Some cx) as Hcx'
    by (by rewrite lookup_insert_ne).
  klink. eexists; split; [done|]. cbn [ks_cte upd_ks_cte]. split.
  - apply (tree_at_node _ _ _ _ _ (with_right q cx)); [done|by rewrite lookup_insert_eq|by node|..].
    + node. do 2 (apply tree_at_insert_ne; [|tsolve]). done.
    + rewrite with_right_right by (by right).
      apply (tree_at_node _ _ _ _ _ (with_left (c_right cx) c));
        [done|by rewrite lookup_insert_ne, lookup_insert_eq|by node|..];
        node; (do 2 (apply tree_at_insert_ne; [|tsolve])); done.
  - apply (chg_trans_same _ (<[q:=with_left (c_right cx) c]> (ks_cte s))); (eapply chg_insert; [eassumption|by node|tsolve]).
Qed.

Lemma aaSplit_spec s p t :
  tree_at (ks_cte s) p t → NoDup (elems t) → 0 ≤ lvl (split t) < 32 →
  ∃ h', aaSplit p s = Ok (troot (split t)) (upd_ks_cte h' s) ∧
    tree_at h' (troot (split t)) (split t) ∧ chg (ks_cte s) h' (elems t).
Proof.
  intros Ht Hnd Hbound. unfold aaSplit. destruct t as [|lv l q r].
  { cbn in Ht. subst p. exists (ks_cte s). by destruct s. }
  pose proof Ht as (-> & Hq & c & Hc & Hlv & Hl & Hr).
  rewrite (slot_ok_nonzero _ Hq). klink.
  destruct r as [|rl b x y].
  { cbn in Hr. rewrite Hr. exists (ks_cte s). by destruct s. }
  pose proof Hr as (Ex & Hx & cx & Hcx & Hlx & Hb & Hy).
  rewrite Ex, (slot_ok_nonzero _ Hx). klink.
  destruct y as [|yl u y v].
  { cbn in Hy. rewrite Hy. exists (ks_cte s). by destruct s. }
  pose proof Hy as (Ey & Hyo & cy & Hcy & Hly & Hu & Hv).
  rewrite Ey, (slot_ok_nonzero _ Hyo). klink. klink. rewrite Hlv, Hly.
  cbn [split] in Hbound |- *.
  destruct (lv =? yl) eqn:E; [|exists (ks_cte s); by destruct s]. cbn [lvl] in Hbound.
  apply NoDup_node in Hnd as (N1 & N2 & N3 & N4 & N5).
  apply NoDup_node in N4 as (N6 & N7 & N8 & N9 & N10).
  assert (x ≠ q) as Hxq by (intros ->; tsolve).
  pose proof (tree_at_link _ _ _ Hb) as Hlb. klink. klink.
  set (h1 := <[q:=with_right (c_left cx) c]> (ks_cte s)).
  set (s1 := upd_ks_cte h1 s).
  assert (h1 !! x = Some cx) as Hcx1 by (by unfold h1; rewrite lookup_insert_ne).
  rewrite (kbind_Ok (getLevel x) _ s1 s1 _ (getLevel_Ok s1 x cx Hcx1)); cbv beta.
  rewrite (kbind_Ok (setLevel x _) _ s1 _ _ (setLevel_Ok s1 x cx Hcx1 _)); cbv beta zeta.
  rewrite Hlx. set (h2 := <[x:=with_level (rl + 1) cx]> h1). set (s2 := upd_ks_cte h2 s).
  change (upd_ks_cte (<[x:=with_level (rl + 1) cx]> (ks_cte s1)) s1) with s2.
  assert (h2 !! x = Some (with_level (rl + 1) cx)) as Hcx2
    by (by unfold h2; rewrite lookup_insert_eq).
  rewrite (kbind_Ok (getLevel x) _ s2 s2 _ (getLevel_Ok s2 x _ Hcx2)); cbv beta.
  rewrite with_level_level by done. rewrite kassert_true by apply Z.eqb_refl.
  rewrite (kbind_Ok (setLeft x q) _ s2 _ _ (setLeft_Ok s2 x _ Hcx2 q (or_intror Hq))); cbv beta.
  eexists; split; [done|]. change (ks_cte s2) with h2. split.
  - apply (tree_at_node _ _ _ _ _ (with_left q (with_level (rl + 1) cx)));
      [done|by rewrite lookup_insert_eq|by node|..]; unfold h2, h1.
    + rewrite with_left_left by (by right).
      apply (tree_at_node _ _ _ _ _ (with_right (c_left cx) c));
        [done|by rewrite 2!lookup_insert_ne, lookup_insert_eq by done|by node|..];
        node; (do 3 (apply tree_at_insert_ne; [|tsolve])); done.
    + node. (do 3 (apply tree_at_insert_ne; [|tsolve])). done.
  - apply (chg_trans_same _ h1); [|apply (chg_trans_same _ h2)];
      (eapply chg_insert; [eassumption|by node|tsolve]).
Qed.

(** ** Replacing a subtree

    After an operation on a subtree that gave [r'] at pointer [q], writing
    [q] into the link of the parent gives the tree with [r'] in its place. *)
Lemma setRight_node h s p lv l r q r' ch :
  tree_at h p (Node lv l p r) → tree_at (ks_cte s) q r' → chg h (ks_cte s) ch →
  p ∉ ch → p ∉ elems l → p ∉ elems r' → (∀ y, y ∈ elems l → y ∉ ch) →
  ∃ h', setRight p q s = Ok tt (upd_ks_cte h' s) ∧ tree_at h' p (Node lv l p r') ∧
    chg h h' (p :: ch).
Proof.
  intros (_ & Hp & c & Hc & Hlv & Hl & Hr) Hq Hch N1 N2 N3 N4.
  assert (ks_cte s !! p = Some c) as Hc' by (rewrite <- Hc; by apply Hch).
  pose proof (tree_at_link _ _ _ Hq) as Hlq.
  exists (<[p:=with_right q c]> (ks_cte s)). split_and!.
  - by rewrite (setRight_Ok _ _ _ Hc').
  - apply (tree_at_node _ _ _ _ _ (with_right q c));
      [done|by rewrite lookup_insert_eq|by node|node..].
    + apply tree_at_insert_ne; [|done]. by apply (tree_at_chg h _ ch).
    + by apply tree_at_insert_ne.
  - apply (chg_trans_same _ (ks_cte s)); [eapply chg_mono; [done|set_solver]|].
    eapply chg_insert; [done|by node|by left].
Qed.

Lemma setLeft_node h s p lv l r q l' ch :
  tree_at h p (Node lv l p r) → tree_at (ks_cte s) q l' → chg h (ks_cte s) ch →
  p ∉ ch → p ∉ elems r → p ∉ elems l' → (∀ y, y ∈ elems r → y ∉ ch) →
  ∃ h', setLeft p q s = Ok tt (upd_ks_cte h' s) ∧ tree_at h' p (Node lv l' p r) ∧
    chg h h' (p :: ch).
Proof.
  intros (_ & Hp & c & Hc & Hlv & Hl & Hr) Hq Hch N1 N2 N3 N4.
  assert (ks_cte s !! p = Some c) as Hc' by (rewrite <- Hc; by apply Hch).
  pose proof (tree_at_link _ _ _ Hq) as Hlq.
  exists (<[p:=with_left q c]> (ks_cte s)). split_and!.
  - by rewrite (setLeft_Ok _ _ _ Hc').
  - apply (tree_at_node _ _ _ _ _ (with_left q c));
      [done|by rewrite lookup_insert_eq|by node|node..].
    + by apply tree_at_insert_ne.
    + apply tree_at_insert_ne; [|done]. by apply (tree_at_chg h _ ch).
  - apply (chg_trans_same _ (ks_cte s)); [eapply chg_mono; [done|set_solver]|].
    eapply chg_insert; [done|by node|by left].
Qed.

Lemma upd_ks_cte_twice h1 h2 s : upd_ks_cte h2 (upd_ks_cte h1 s) = upd_ks_cte h2 s.
Proof. done. Qed.

Lemma upd_ks_cte_id s : upd_ks_cte (ks_cte s) s = s.
Proof. by destruct s. Qed.

Lemma tree_at_right_child h p lv l r : tree_at h p (Node lv l p r) → tree_at h (troot r) r.
Proof. intros (_ & _ & c & _ & _ & _ & Hr). by rewrite <- (tree_at_root _ _ _ Hr). Qed.

Lemma tree_at_left_child h p lv l r : tree_at h p (Node lv l p r) → tree_at h (troot l) l.
Proof. intros (_ & _ & c & _ & _ & Hl & _). by rewrite <- (tree_at_root _ _ _ Hl). Qed.

Lemma getRight_root s p lv l r :
  tree_at (ks_cte s) p (Node lv l p r) → getRight p s = Ok (troot r) s.
Proof.
  intros (_ & _ & c & Hc & _ & _ & Hr). rewrite (getRight_Ok _ _ _ Hc).
  by rewrite (tree_at_root _ _ _ Hr).
Qed.

Lemma getLeft_root s p lv l r :
  tree_at (ks_cte s) p (Node lv l p r) → getLeft p s = Ok (troot l) s.
Proof.
  intros (_ & _ & c & Hc & _ & Hl & _). rewrite (getLeft_Ok _ _ _ Hc).
  by rewrite (tree_at_root _ _ _ Hl).
Qed.

(** What a specification of an operation on a tree pointer says. *)
Definition tree_op (f : Z → K Z) (s : kstate) (t t' : tree) (ch : list Z) : Prop :=
  ∃ h', f (troot t) s = Ok (troot t') (upd_ks_cte h' s) ∧
    tree_at h' (troot t') t' ∧ chg (ks_cte s) h' ch.

(** An operation on the right subtree whose result is linked back. *)
Lemma right_step f s p lv l r r' ch :
  tree_at (ks_cte s) p (Node lv l p r) → NoDup (elems (Node lv l p r)) →
  tree_op f s r r' ch → elems r' ≡ₚ ch → (∀ y, y ∈ elems (Node lv l p Leaf) → y ∉ ch) →
  ∃ h' h'', getRight p s = Ok (troot r) s ∧
    f (troot r) s = Ok (troot r') (upd_ks_cte h' s) ∧
    setRight p (troot r') (upd_ks_cte h' s) = Ok tt (upd_ks_cte h'' s) ∧
    tree_at h'' p (Node lv l p r') ∧ chg (ks_cte s) h'' (p :: ch).
Proof.
  intros Ht Hnd (h' & E1 & T1 & C1) Hel Hd.
  apply NoDup_node in Hnd as (N1 & N2 & N3 & N4 & N5).
  assert (p ∉ ch) by (apply Hd; cbn; set_solver).
  destruct (setRight_node (ks_cte s) (upd_ks_cte h' s) p lv l r (troot r') r' ch)
    as (h'' & E2 & T2 & C2); try done; [by rewrite Hel|intros; apply Hd; cbn; set_solver|].
  exists h', h''. split_and!; try done. by apply (getRight_root _ _ lv l).
Qed.

Lemma left_step f s p lv l r l' ch :
  tree_at (ks_cte s) p (Node lv l p r) → NoDup (elems (Node lv l p r)) →
  tree_op f s l l' ch → elems l' ≡ₚ ch → (∀ y, y ∈ elems (Node lv Leaf p r) → y ∉ ch) →
  ∃ h' h'', getLeft p s = Ok (troot l) s ∧
    f (troot l) s = Ok (troot l') (upd_ks_cte h' s) ∧
    setLeft p (troot l') (upd_ks_cte h' s) = Ok tt (upd_ks_cte h'' s) ∧
    tree_at h'' p (Node lv l' p r) ∧ chg (ks_cte s) h'' (p :: ch).
Proof.
  intros Ht Hnd (h' & E1 & T1 & C1) Hel Hd.
  apply NoDup_node in Hnd as (N1 & N2 & N3 & N4 & N5).
  assert (p ∉ ch) by (apply Hd; cbn; set_solver).
  destruct (setLeft_node (ks_cte s) (upd_ks_cte h' s) p lv l r (troot l') l' ch)
    as (h'' & E2 & T2 & C2); try done; [by rewrite Hel|intros; apply Hd; cbn; set_solver|].
  exists h', h''. split_and!; try done. by apply (getLeft_root _ _ lv _ r).
Qed.

(** A change inside the right subtree that keeps its root. *)
Lemma tree_at_replace_right h h' p lv l r r' ch :
  tree_at h p (Node lv l p r) → tree_at h' (troot r') r' → troot r' = troot r →
  chg h h' ch → (∀ y, y ∈ elems (Node lv l p Leaf) → y ∉ ch) →
  tree_at h' p (Node lv l p r').
Proof.
  intros (_ & Hp & c & Hc & Hlv & Hl & Hr) T1 Hroot Hch Hd.
  rewrite Hroot, <- (tree_at_root _ _ _ Hr) in T1.
  apply (tree_at_node _ _ _ _ _ c); [done| |done| |done].
  - rewrite <- Hc. apply Hch, Hd. cbn. set_solver.
  - apply (tree_at_chg h _ ch); [done|done|]. intros. apply Hd. cbn. set_solver.
Qed.

Lemma aaLevel_spec s p t : tree_at (ks_cte s) p t → aaLevel p s = Ok (lvl t) s.
Proof.
  unfold aaLevel. destruct t as [|lv l q r].
  - intros Ht; cbn in Ht. by subst.
  - intros (-> & Hq & c & Hc & <- & _). rewrite (slot_ok_nonzero _ Hq).
    by rewrite (getLevel_Ok _ _ _ Hc).
Qed.

Lemma tree_at_set_level h p lv lv' l r c :
  tree_at h p (Node lv l p r) → NoDup (elems (Node lv l p r)) → 0 ≤ lv' < 32 →
  h !! p = Some c → tree_at (<[p := with_level lv' c]> h) p (Node lv' l p r).
Proof.
  intros (_ & Hp & c' & Hc & Hlv & Hl & Hr) (N1 & N2 & _)%NoDup_node Hb Hc'.
  assert (c' = c) as -> by congruence. apply (tree_at_node _ _ _ _ _ (with_level lv' c));
    [done|by rewrite lookup_insert_eq|by apply with_level_level|..]; node;
    by apply tree_at_insert_ne.
Qed.

Lemma aaDecLevel_spec s p t :
  tree_at (ks_cte s) p t → NoDup (elems t) → lvl t < 32 →
  0 ≤ lvl (tleft t) → 0 ≤ lvl (tright t) →
  tree_op aaDecLevel s t (decLevel t) (elems t).
Proof.
  intros Ht Hnd Hb Hll Hrr. unfold tree_op. rewrite <- (tree_at_root _ _ _ Ht).
  unfold aaDecLevel. destruct t as [|lv l q r].
  { cbn in Ht. subst p. exists (ks_cte s). by destruct s. }
  pose proof Ht as (-> & Hq & c & Hc & Hlv & Hl & Hr). cbn [lvl tleft tright] in *.
  rewrite (slot_ok_nonzero _ Hq). klink. klink.
  rewrite (kbind_Ok _ _ _ _ _ (aaLevel_spec _ _ _ Hl)); cbv beta.
  rewrite (kbind_Ok _ _ _ _ _ (aaLevel_spec _ _ _ Hr)); cbv beta zeta.
  klink. rewrite Hlv. cbn [decLevel]. set (sb := Z.min (lvl l) (lvl r) + 1).
  destruct (Z.ltb_spec sb lv) as [Hlt|]; [|by exists (ks_cte s); destruct s].
  assert (0 ≤ sb < 32) as Hsb by (subst sb; lia).
  set (h1 := <[q:=with_level sb c]> (ks_cte s)). set (s1 := upd_ks_cte h1 s).
  pose proof (tree_at_set_level _ _ _ sb _ _ _ Ht Hnd Hsb Hc) as T1. fold h1 in T1.
  assert (chg (ks_cte s) h1 (elems (Node lv l q r))) as C1
    by (eapply chg_insert; [done|done|tsolve]).
  apply NoDup_node in Hnd as (N1 & N2 & N3 & N4 & N5).
  destruct r as [|rl a x b].
  { cbn in Hr. rewrite Hr. exists h1. split_and!; try done.
    unfold kwhen. rewrite (kbind_Ok _ _ s s1 tt); [done|].
    by rewrite (kbind_Ok _ _ _ _ _ (setLevel_Ok s q c Hc sb)). }
  pose proof Hr as (Ex & Hx & cx & Hcx & Hlx & Ha & Hbb).
  assert (x ≠ q) as Hxq by (intros ->; tsolve).
  assert (h1 !! x = Some cx) as Hcx1 by (unfold h1; by rewrite lookup_insert_ne).
  assert (setLevel q sb s = Ok tt s1) as E0 by apply (setLevel_Ok s q c Hc sb).
  assert (getLevel x s1 = Ok rl s1) as E1 by (rewrite <- Hlx; by apply getLevel_Ok).
  rewrite Ex, (slot_ok_nonzero _ Hx). unfold kwhen.
  destruct (Z.ltb_spec sb rl) as [Hlt2|Hge2].
  - exists (<[x:=with_level sb cx]> h1).
    assert (setLevel x sb s1 = Ok tt (upd_ks_cte (<[x:=with_level sb cx]> h1) s)) as E2
      by apply (setLevel_Ok s1 x cx Hcx1 sb).
    split_and!.
    + rewrite (kbind_Ok _ _ s (upd_ks_cte (<[x:=with_level sb cx]> h1) s) tt); [done|].
      do 2 kstep. by destruct (Z.ltb_spec sb rl); [|lia].
    + apply (tree_at_node _ _ _ _ _ (with_level sb c)); [done|..].
      * unfold h1. by rewrite lookup_insert_ne, lookup_insert_eq.
      * by apply with_level_level.
      * node. unfold h1. do 2 (apply tree_at_insert_ne; [|tsolve]). done.
      * node. rewrite Ex. apply (tree_at_set_level _ _ rl); [|done|done|done].
        unfold h1. apply tree_at_insert_ne; [by rewrite <- Ex at 1|done].
    + apply (chg_trans_same _ h1); [done|]. eapply chg_insert; [done|done|tsolve].
  - exists h1. split_and!; [|done|done].
    rewrite (kbind_Ok _ _ s s1 tt); [done|]. do 2 kstep.
    by destruct (Z.ltb_spec sb rl); [lia|].
Qed.

Lemma aaSkew_op s p t :
  tree_at (ks_cte s) p t → NoDup (elems t) → tree_op aaSkew s t (skew t) (elems t).
Proof.
  intros Ht Hnd. unfold tree_op. rewrite <- (tree_at_root _ _ _ Ht).
  by apply aaSkew_spec.
Qed.

Lemma aaSplit_op s p t :
  tree_at (ks_cte s) p t → NoDup (elems t) → 0 ≤ lvl (split t) < 32 →
  tree_op aaSplit s t (split t) (elems t).
Proof.
  intros Ht Hnd Hb. unfold tree_op. rewrite <- (tree_at_root _ _ _ Ht).
  by apply aaSplit_spec.
Qed.

Lemma troot_map_right f t : troot (map_right f t) = troot t.
Proof. by destruct t. Qed.

Lemma skew_Leaf t : skew t = Leaf ↔ t = Leaf.
Proof.
  split; [|by intros ->]. destruct t as [|lv [|ll a p b] q c]; cbn; try done.
  by destruct (ll =? lv).
Qed.

Lemma split_node lv l p r : ∃ lv' l' p' r', split (Node lv l p r) = Node lv' l' p' r'.
Proof. destruct r as [|rl b q [|xl c x d]]; cbn; eauto. destruct (lv =? xl); eauto. Qed.

Lemma NoDup_right lv l p r : NoDup (elems (Node lv l p r)) → NoDup (elems r).
Proof. by intros (_ & _ & _ & ? & _)%NoDup_node. Qed.

Lemma NoDup_spine lv l p r y :
  NoDup (elems (Node lv l p r)) → y ∈ elems (Node lv l p Leaf) → y ∉ elems r.
Proof.
  intros (N1 & N2 & N3 & N4 & N5)%NoDup_node. cbn.
  rewrite elem_of_app, elem_of_cons. intros [?|[->|?]]; [eauto|done|set_solver].
Qed.

Lemma NoDup_spine_left lv l p r y :
  NoDup (elems (Node lv l p r)) → y ∈ elems (Node lv Leaf p r) → y ∉ elems l.
Proof.
  intros (N1 & N2 & N3 & N4 & N5)%NoDup_node. cbn.
  rewrite elem_of_cons. intros [->|?]; [done|]. intros Hl. by apply (N5 y Hl).
Qed.

(** The middle of [aaRebalance]: skew the right child, then its right child. *)
Lemma rebalance_middle s p lv l r :
  tree_at (ks_cte s) p (Node lv l p r) → NoDup (elems (Node lv l p r)) →
  let r' := map_right skew (skew r) in
  ∃ h', (∀ B (k : K B),
      (let! right0 := getRight p in
       let! right := aaSkew right0 in
       setRight p right ;;;
       (if right =? 0 then kret tt else
        let! right_right0 := getRight right in
        let! right_right := aaSkew right_right0 in
        setRight right right_right) ;;; k) s = k (upd_ks_cte h' s)) ∧
    tree_at h' p (Node lv l p r') ∧ chg (ks_cte s) h' (elems (Node lv l p r)).
Proof.
  intros Ht Hnd r'. pose proof (NoDup_right _ _ _ _ Hnd) as Hnr.
  destruct (right_step aaSkew s p lv l r (skew r) (elems r)) as (h1 & h2 & E1 & E2 & E3 & T2 & C2);
    [done|done|eapply aaSkew_op; [by eapply tree_at_right_child|done]|by rewrite elems_skew|
     intros; by eapply NoDup_spine|].
  assert (chg (ks_cte s) h2 (elems (Node lv l p r))) as C2'
    by (eapply chg_mono; [done|cbn; set_solver]).
  destruct (skew r) as [|xl a x b] eqn:Esk.
  { exists h2. split_and!; [|done|done]. intros B k. by ksteps. }
  pose proof (tree_at_right_child _ _ _ _ _ T2) as Tx. cbn [troot] in *.
  pose proof Tx as (_ & Hx & _).
  assert (NoDup (elems (Node xl a x b))) as Hnx by (by rewrite <- Esk, elems_skew).
  destruct (right_step aaSkew (upd_ks_cte h2 s) x xl a b (skew b) (elems b))
    as (h3 & h4 & E4 & E5 & E6 & T4 & C4);
    [done|done|eapply aaSkew_op; [by eapply tree_at_right_child|by eapply NoDup_right]|
     by rewrite elems_skew|intros; by eapply NoDup_spine|].
  rewrite !upd_ks_cte_twice in *. exists h4. split_and!.
  - intros B k. ksteps. rewrite (slot_ok_nonzero _ Hx).
    rewrite (kbind_Ok _ _ (upd_ks_cte h2 s) (upd_ks_cte h4 s) tt); [done|]. ksteps. by rewrite E6.
  - subst r'. cbn [map_right].
    apply (tree_at_replace_right h2 _ _ _ _ (Node xl a x b) _ (x :: elems b)); [done|done|done|done|].
    intros y Hy Hin. eapply (NoDup_spine _ _ _ _ _ Hnd Hy).
    rewrite <- (elems_skew r), Esk. cbn. set_solver.
  - eapply chg_trans; [exact C2'|exact C4|done|].
    transitivity (elems r); [|cbn; set_solver]. rewrite <- (elems_skew r), Esk. cbn. set_solver.
Qed.

Lemma lvl_map_right f t : lvl (map_right f t) = lvl t.
Proof. by destruct t. Qed.

Lemma tright_map_right f t : t ≠ Leaf → tright (map_right f t) = f (tright t).
Proof. by destruct t. Qed.

Lemma decLevel_Leaf t : decLevel t = Leaf → t = Leaf.
Proof. destruct t; cbn; [done|]. by case_match. Qed.

Lemma aaRebalance_op s t :
  tree_at (ks_cte s) (troot t) t → NoDup (elems t) → lvl t < 32 →
  0 ≤ lvl (tleft t) → 0 ≤ lvl (tright t) →
  0 ≤ lvl (rebalance t) < 32 → 0 ≤ lvl (tright (rebalance t)) < 32 →
  tree_op aaRebalance s t (rebalance t) (elems t).
Proof.
  intros Ht Hnd Hb Hll Hrr Hlv1 Hlv2.
  destruct (decide (t = Leaf)) as [->|Hnl].
  { exists (ks_cte s). by destruct s. }
  assert (∃ lv l p r, skew (decLevel t) = Node lv l p r) as (lv & l & p & r & E).
  { destruct (skew (decLevel t)) eqn:E; [|eauto].
    by apply skew_Leaf, decLevel_Leaf in E. }
  destruct (aaDecLevel_spec s _ t Ht Hnd Hb Hll Hrr) as (h1 & E1 & T1 & C1).
  rewrite <- (elems_decLevel t) in Hnd.
  destruct (aaSkew_op (upd_ks_cte h1 s) _ _ T1 Hnd) as (h2 & E2 & T2 & C2).
  rewrite <- (elems_skew (decLevel t)) in Hnd. rewrite E in *. cbn [troot] in *.
  destruct (rebalance_middle (upd_ks_cte h2 s) p lv l r T2 Hnd) as (h3 & E3 & T3 & C3).
  unfold rebalance in Hlv1, Hlv2 |- *. rewrite E in *. cbn [map_right] in *.
  set (r' := map_right skew (skew r)) in *.
  assert (elems r' = elems r) as Er.
  { subst r'. rewrite (elems_map_right _ _ elems_skew). apply elems_skew. }
  assert (NoDup (elems (Node lv l p r'))) as Hnd' by (cbn; by rewrite Er).
  rewrite lvl_map_right in Hlv1.
  destruct (aaSplit_op (upd_ks_cte h3 s) _ _ T3 Hnd' Hlv1) as (h4 & E4 & T4 & C4).
  destruct (split_node lv l p r') as (lv' & l' & p' & r'' & E').
  rewrite <- (elems_split (Node lv l p r')) in Hnd'.
  rewrite E' in *. cbn [map_right tright troot] in *.
  destruct (right_step aaSplit (upd_ks_cte h4 s) p' lv' l' r'' (split r'') (elems r''))
    as (h5 & h6 & E5 & E6 & E7 & T6 & C6);
    [done|done|eapply aaSplit_op; [by eapply tree_at_right_child|by eapply NoDup_right|done]|
     by rewrite elems_split|intros; by eapply NoDup_spine|].
  rewrite !upd_ks_cte_twice in *. exists h6. cbn [troot].
  assert (elems t = elems (Node lv l p r)) as El
    by (by rewrite <- E, elems_skew, elems_decLevel).
  assert (elems (Node lv l p r') = elems (Node lv l p r)) as El2 by (cbn; by rewrite Er).
  split_and!; [|done|].
  - pose proof (tree_at_slot_ok _ _ _ (troot t) Ht) as Hok. unfold aaRebalance.
    rewrite slot_ok_nonzero by (apply Hok; destruct t; [done|cbn; set_solver]).
    ksteps. rewrite E3. ksteps. done.
  - assert (elems (Node lv' l' p' r'') = elems t) as El3
      by (by rewrite <- E', elems_split, El2, El).
    assert (chg h4 h6 (elems t)) as C6'.
    { eapply chg_mono; [done|]. rewrite <- El3. cbn. set_solver. }
    rewrite elems_decLevel in C2. rewrite <- El in C3. rewrite El2, <- El in C4.
    apply (chg_trans_same _ h1); [done|]. apply (chg_trans_same _ h2); [done|].
    apply (chg_trans_same _ h3); [done|]. by apply (chg_trans_same _ h4).
Qed.

(** ** Comparisons on the heap *)
Definition hkey (h : gmap Z cte_t) (p : Z) : list Z :=
  match h !! p with Some c => slot_key (p, c) | None => [p] end.

(** The slots of [D] exist, can be in the tree, and typed objects do not
    overlap. *)
Definition cdt_ok (h : gmap Z cte_t) (D : list Z) : Prop :=
  (∀ p, p ∈ D → ∃ c, h !! p = Some c ∧ cdt_cap (cteCap c) = true) ∧
  (∀ p q cp cq, p ∈ D → q ∈ D → h !! p = Some cp → h !! q = Some cq →
     types_agree (cteCap cp) (cteCap cq)).

Lemma slot_key_skel p c c' : skel c' = skel c → slot_key (p, c') = slot_key (p, c).
Proof. intros [= E1 E2]. unfold slot_key, slot_cap, slot_depth; cbn. by rewrite E1, E2. Qed.

Lemma hkey_inj h p q : hkey h p = hkey h q → p = q.
Proof.
  unfold hkey. destruct (h !! p) as [cp|], (h !! q) as [cq|]; intros E.
  - by apply slot_key_ptr in E.
  - apply (f_equal length) in E. by rewrite slot_key_length in E.
  - apply (f_equal length) in E. by rewrite slot_key_length in E.
  - by injection E.
Qed.

Lemma hkey_skel h h' p : skel <$> h' !! p = skel <$> h !! p → hkey h' p = hkey h p.
Proof.
  unfold hkey. destruct (h' !! p), (h !! p); cbn; intros; try done. apply slot_key_skel. congruence.
Qed.

Lemma hkey_chg h h' ch p : chg h h' ch → hkey h' p = hkey h p.
Proof. intros [H _]. by apply hkey_skel. Qed.

Lemma cdt_ok_chg h h' ch D : chg h h' ch → cdt_ok h D → cdt_ok h' D.
Proof.
  intros [H _] [H1 H2].
  assert (∀ p c', h' !! p = Some c' → ∃ c, h !! p = Some c ∧ cteCap c' = cteCap c) as Hback.
  { intros p c' Hp. specialize (H p). rewrite Hp in H. destruct (h !! p) as [c|]; [|done].
    exists c. split; [done|]. unfold skel in H; cbn in H. congruence. }
  split.
  - intros p Hp. destruct (H1 p Hp) as (c & Hc & Hok). specialize (H p). rewrite Hc in H.
    destruct (h' !! p) as [c'|] eqn:E; [|done]. exists c'. split; [done|].
    destruct (Hback _ _ E) as (c0 & Hc0 & ->). congruence.
  - intros p q cp cq Hp Hq Ep Eq. destruct (Hback _ _ Ep) as (cp0 & Hp0 & ->).
    destruct (Hback _ _ Eq) as (cq0 & Hq0 & ->). eauto.
Qed.

Lemma cdt_ok_mono h D D' : cdt_ok h D → D' ⊆ D → cdt_ok h D'.
Proof. intros [H1 H2] Hs. split; eauto. Qed.

Lemma compSlotM_Ok s D p q :
  cdt_ok (ks_cte s) D → p ∈ D → q ∈ D →
  compSlotM p q s = Ok (cmp (hkey (ks_cte s)) p q) s.
Proof.
  intros [H1 H2] Hp Hq. destruct (H1 p Hp) as (cp & Ep & Okp), (H1 q Hq) as (cq & Eq & Okq).
  unfold compSlotM. kload. kload. rewrite compSlot_lex by (try done; exact (H2 p q cp cq Hp Hq Ep Eq)).
  unfold cmp, hkey. by rewrite Ep, Eq.
Qed.

Lemma cmp_ext key key' p q : (∀ x, key x = key' x) → cmp key p q = cmp key' p q.
Proof. intros H. unfold cmp. by rewrite !H. Qed.

(** ** Insertion *)
Section Insert.
Context (key : Z → list Z) (key_inj : ∀ p q, key p = key q → p = q).
Context (x : Z) (Hx : slot_ok x).

Lemma insert_perm t :
  sorted key (elems t) → x ∉ elems t → elems (insert key t x) ≡ₚ x :: elems t.
Proof using key_inj.
  intros. rewrite elems_insert by done. apply list_insert_Permutation.
Qed.

Lemma aaInsert_op fuel : ∀ s t c,
  tree_at (ks_cte s) (troot t) t → sorted key (elems t) → aa t →
  x ∉ elems t → ks_cte s !! x = Some c → c_left c = 0 → c_right c = 0 →
  (∀ p, hkey (ks_cte s) p = key p) → cdt_ok (ks_cte s) (x :: elems t) →
  Z.of_nat (length (elems t)) + 1 < 2 ^ 31 → (height t < fuel)%nat →
  tree_op (λ root, aaInsert fuel root x) s t (insert key t x) (x :: elems t).
Proof using Hx key_inj.
  induction fuel as [|fuel IH]; [lia|].
  intros s t c Ht Hs Haa Hxt Hc Hcl Hcr Hk Hok Hsz Hfuel.
  pose proof (sorted_NoDup key key_inj _ Hs) as Hnd.
  pose proof (aa_insert key t x Haa) as (Haa' & _ & _).
  pose proof (insert_perm t Hs Hxt) as Hperm.
  assert (0 ≤ lvl (insert key t x) < 32) as Hlv.
  { split; [by apply aa_lvl_nonneg|]. apply aa_lvl_bound; [done|].
    rewrite Hperm. cbn. lia. }
  unfold tree_op. cbn [aaInsert]. rewrite (slot_ok_nonzero _ Hx).
  assert (troot t ≠ x) as Hrx.
  { destruct t as [|lv l p r]; cbn; [destruct Hx; lia|]. intros ->. cbn in Hxt. set_solver. }
  rewrite kassert_true by (apply negb_true_iff; rewrite Z.eqb_neq; done).
  destruct t as [|lv l p r].
  { cbn [troot insert]. rewrite Z.eqb_refl. klink. eexists; split; [done|]. split.
    - apply (tree_at_node _ _ _ _ _ (with_level 1 c));
        [done|by rewrite lookup_insert_eq|by apply with_level_level|done|done].
    - eapply chg_insert; [done|done|by left]. }
  cbn [insert] in Haa', Hperm, Hlv |- *. cbn [troot] in *.
  pose proof Ht as (_ & Hp & _).
  rewrite (slot_ok_nonzero _ Hp).
  assert (compSlotM x p s = Ok (cmp key x p) s) as Ecmp.
  { rewrite (compSlotM_Ok s _ x p Hok); [by rewrite (cmp_ext _ key)|by left|cbn; set_solver]. }
  kstep.
  destruct (sorted_mid key key_inj _ _ _ Hs) as (Hsl & Hsr & _).
  pose proof Haa as (_ & _ & _ & Haal & Haar)%aa_node.
  cbn [elems height] in Hxt, Hsz, Hfuel. rewrite length_app in Hsz. cbn [length] in Hsz.
  assert (∀ s1 t1, tree_at (ks_cte s1) (troot t1) t1 → elems t1 ≡ₚ x :: elems (Node lv l p r) →
    0 ≤ lvl (split (skew t1)) < 32 →
    ∃ h', (let! root := aaSkew (troot t1) in aaSplit root) s1 =
        Ok (troot (split (skew t1))) (upd_ks_cte h' s1) ∧
      tree_at h' (troot (split (skew t1))) (split (skew t1)) ∧
      chg (ks_cte s1) h' (x :: elems (Node lv l p r))) as Hrot.
  { intros s1 t1 T1 P1 L1.
    assert (NoDup (elems t1)) as N1 by (rewrite P1; constructor; [by cbn|done]).
    destruct (aaSkew_op s1 _ t1 T1 N1) as (h1 & E1 & T1' & C1).
    destruct (aaSplit_op (upd_ks_cte h1 s1) _ _ T1') as (h2 & E2 & T2 & C2);
      [by rewrite elems_skew|done|]. rewrite elems_skew in C2.
    exists h2. split_and!; [by ksteps|done|].
    eapply chg_trans; [exact C1|exact C2| |]; intros y Hy; by rewrite <- P1. }
  destruct (cmp key x p) eqn:E.
  - apply (cmp_Eq key key_inj) in E. set_solver.
  - destruct (left_step (λ root, aaInsert fuel root x) s p lv l r (insert key l x) (x :: elems l))
      as (h1 & h2 & E1 & E2 & E3 & T2 & C2); [done|done| | | |].
    { eapply (IH s l c); try done; try lia; [by eapply tree_at_left_child|set_solver|].
      eapply cdt_ok_mono; [done|]. cbn. set_solver. }
    { rewrite elems_insert by (done || set_solver). apply list_insert_Permutation. }
    { intros y Hy [->|Hyl]%elem_of_cons; [cbn in Hy; set_solver|].
      by apply (NoDup_spine_left _ _ _ _ _ Hnd Hy). }
    destruct (Hrot (upd_ks_cte h2 s) (Node lv (insert key l x) p r)) as (h3 & E4 & T3 & C3);
      [done| |done|].
    { cbn. rewrite elems_insert by (done || set_solver).
      by rewrite list_insert_Permutation. }
    exists h3. split_and!; [|done|].
    + rewrite (kbind_Ok _ _ s (upd_ks_cte h2 s) tt); [done|]. by ksteps.
    + eapply chg_trans_same; [eapply chg_mono; [exact C2|cbn; set_solver]|done].
  - destruct (right_step (λ root, aaInsert fuel root x) s p lv l r (insert key r x) (x :: elems r))
      as (h1 & h2 & E1 & E2 & E3 & T2 & C2); [done|done| | | |].
    { eapply (IH s r c); try done; try lia; [by eapply tree_at_right_child|set_solver|].
      eapply cdt_ok_mono; [done|]. cbn. set_solver. }
    { rewrite elems_insert by (done || set_solver). apply list_insert_Permutation. }
    { intros y Hy [->|Hyl]%elem_of_cons; [cbn in Hy; set_solver|].
      by apply (NoDup_spine _ _ _ _ _ Hnd Hy). }
    destruct (Hrot (upd_ks_cte h2 s) (Node lv l p (insert key r x))) as (h3 & E4 & T3 & C3);
      [done| |done|].
    { cbn. rewrite elems_insert by (done || set_solver).
      rewrite list_insert_Permutation. transitivity (elems l ++ x :: p :: elems r).
      - apply Permutation_app_head, Permutation_swap.
      - symmetry. apply Permutation_middle. }
    exists h3. split_and!; [|done|].
    + rewrite (kbind_Ok _ _ s (upd_ks_cte h2 s) tt); [done|]. by ksteps.
    + eapply chg_trans_same; [eapply chg_mono; [exact C2|cbn; set_solver]|done].
Qed.
End Insert.

(** ** Removal *)
Lemma aaPred_spec fuel : ∀ s t d,
  tree_at (ks_cte s) (troot t) t → t ≠ Leaf → (height t ≤ fuel)%nat →
  aaPred fuel (troot t) s = Ok (tmax t d) s.
Proof.
  induction fuel as [|fuel IH]; intros s t d Ht Hn Hf; destruct t as [|lv l p r];
    try done; cbn [height] in Hf; [lia|].
  cbn [aaPred tmax troot] in *. pose proof (getRight_root _ _ _ _ _ Ht) as E. kstep.
  pose proof (tree_at_right_child _ _ _ _ _ Ht) as Hr.
  destruct (decide (r = Leaf)) as [->|Hrn]; [done|].
  rewrite (slot_ok_nonzero (troot r)).
  - apply IH; [done|done|lia].
  - eapply tree_at_slot_ok; [exact Hr|]. destruct r; [done|]. cbn. set_solver.
Qed.

Lemma aaSucc_spec fuel : ∀ s t d,
  tree_at (ks_cte s) (troot t) t → t ≠ Leaf → (height t ≤ fuel)%nat →
  aaSucc fuel (troot t) s = Ok (tmin t d) s.
Proof.
  induction fuel as [|fuel IH]; intros s t d Ht Hn Hf; destruct t as [|lv l p r];
    try done; cbn [height] in Hf; [lia|].
  cbn [aaSucc tmin troot] in *. pose proof (getLeft_root _ _ _ _ _ Ht) as E. kstep.
  pose proof (tree_at_left_child _ _ _ _ _ Ht) as Hl.
  destruct (decide (l = Leaf)) as [->|Hln]; [done|].
  rewrite (slot_ok_nonzero (troot l)).
  - apply IH; [done|done|lia].
  - eapply tree_at_slot_ok; [exact Hl|]. destruct l; [done|]. cbn. set_solver.
Qed.

(** The budget of the callers is enough: a tree is not higher than the number
    of slots. *)
Lemma NoDup_dom_size {A} (h : gmap Z A) (l : list Z) :
  NoDup l → (∀ p, p ∈ l → is_Some (h !! p)) → (length l ≤ size h)%nat.
Proof.
  intros Hnd Hdom. rewrite <- size_dom.
  rewrite <- (size_list_to_set (C:=gset Z) l) by done.
  apply subseteq_size. intros p Hp%elem_of_list_to_set. apply elem_of_dom. auto.
Qed.

Lemma tree_height_fuel s p t :
  tree_at (ks_cte s) p t → NoDup (elems t) → (height t < cdt_fuel s)%nat.
Proof.
  intros Ht Hnd. unfold cdt_fuel. pose proof (height_size t).
  pose proof (NoDup_dom_size _ _ Hnd (λ q Hq, tree_at_lookup _ _ _ q Ht Hq)). lia.
Qed.

Lemma troot_slot_ok h t : tree_at h (troot t) t → t ≠ Leaf → slot_ok (troot t).
Proof. destruct t; [done|]. by intros (_ & ? & _). Qed.

Lemma tmax_elem t d : t ≠ Leaf → tmax t d ∈ elems t.
Proof. intros H. destruct (elems_tmax t d H) as [k ->]. set_solver. Qed.
Lemma tmin_elem t d : t ≠ Leaf → tmin t d ∈ elems t.
Proof. intros H. destruct (elems_tmin t d H) as [k ->]. set_solver. Qed.

(** Putting another slot [q] in the place of the root: the new root takes the
    level and both links. *)
Lemma replace_root s q lv left l right r cq :
  slot_ok q → ks_cte s !! q = Some cq → 0 ≤ lv < 32 →
  tree_at (ks_cte s) left l → tree_at (ks_cte s) right r → q ∉ elems l → q ∉ elems r →
  ∃ h', (∀ B (k : K B), (setLevel q lv ;;; setRight q right ;;; setLeft q left ;;; k) s =
           k (upd_ks_cte h' s)) ∧
    tree_at h' q (Node lv l q r) ∧ chg (ks_cte s) h' [q].
Proof.
  intros Hq Hc Hlv Hl Hr N1 N2.
  pose proof (tree_at_link _ _ _ Hl) as Kl. pose proof (tree_at_link _ _ _ Hr) as Kr.
  set (c1 := with_level lv cq). set (c2 := with_right right c1). set (c3 := with_left left c2).
  exists (<[q:=c3]> (ks_cte s)). split_and!.
  - intros B k. set (st := λ c, upd_ks_cte (<[q:=c]> (ks_cte s)) s).
    assert (∀ c c', upd_ks_cte (<[q:=c']> (ks_cte (st c))) (st c) = st c') as Hst.
    { intros c c'. unfold st. cbn [ks_cte upd_ks_cte]. by rewrite insert_insert_eq. }
    assert (∀ c, ks_cte (st c) !! q = Some c) as Hlk by (intros; apply lookup_insert_eq).
    assert (setLevel q lv s = Ok tt (st c1)) as E1 by apply (setLevel_Ok s q cq Hc lv).
    assert (setRight q right (st c1) = Ok tt (st c2)) as E2
      by (rewrite (setRight_Ok _ q c1 (Hlk c1) right Kr); by rewrite Hst).
    assert (setLeft q left (st c2) = Ok tt (st c3)) as E3
      by (rewrite (setLeft_Ok _ q c2 (Hlk c2) left Kl); by rewrite Hst).
    by ksteps.
  - apply (tree_at_node _ _ _ _ _ c3); [done|by rewrite lookup_insert_eq|..]; subst c1 c2 c3.
    + by node.
    + rewrite with_left_left by done. by apply tree_at_insert_ne.
    + rewrite with_left_right, with_right_right by done. by apply tree_at_insert_ne.
  - eapply chg_insert; [done|by subst c1 c2 c3; node|by left].
Qed.

Section Remove.
Context (key : Z → list Z) (key_inj : ∀ p q, key p = key q → p = q).

(** What the induction step of the removal provides and needs. *)
Definition remove_pre (s : kstate) (t : tree) : Prop :=
  tree_at (ks_cte s) (troot t) t ∧ sorted key (elems t) ∧ aa t ∧
  (∀ p, hkey (ks_cte s) p = key p) ∧ cdt_ok (ks_cte s) (elems t) ∧
  Z.of_nat (length (elems t)) < 2 ^ 31.

Lemma remove_pre_left s lv l p r : remove_pre s (Node lv l p r) → remove_pre s l.
Proof using key_inj.
  intros (Ht & Hs & Haa & Hk & Hok & Hsz).
  destruct (sorted_mid key key_inj _ _ _ Hs) as (? & _).
  apply aa_node in Haa as (_ & _ & _ & ? & _).
  cbn [elems] in Hsz. rewrite length_app in Hsz.
  split_and!; try done; [by eapply tree_at_left_child| |lia].
  eapply cdt_ok_mono; [done|cbn; set_solver].
Qed.

Lemma remove_pre_right s lv l p r : remove_pre s (Node lv l p r) → remove_pre s r.
Proof using key_inj.
  intros (Ht & Hs & Haa & Hk & Hok & Hsz).
  destruct (sorted_mid key key_inj _ _ _ Hs) as (_ & ? & _).
  apply aa_node in Haa as (_ & _ & _ & _ & ?).
  cbn [elems] in Hsz. rewrite length_app in Hsz. cbn [length] in Hsz.
  split_and!; try done; [by eapply tree_at_right_child| |lia].
  eapply cdt_ok_mono; [done|cbn; set_solver].
Qed.

Lemma remove_elems_sub t x :
  sorted key (elems t) → x ∈ elems t → elems (remove key t x) ⊆ elems t.
Proof using key_inj.
  intros. rewrite elems_remove by done. intros y [_ ?]%list_elem_of_filter. done.
Qed.

Lemma remove_NoDup t x :
  sorted key (elems t) → x ∈ elems t → NoDup (elems (remove key t x)).
Proof using key_inj.
  intros. rewrite elems_remove by done.
  by apply NoDup_filter, (sorted_NoDup key key_inj).
Qed.

Lemma remove_not_elem t x :
  sorted key (elems t) → x ∈ elems t → x ∉ elems (remove key t x).
Proof using key_inj.
  intros. rewrite elems_remove by done. intros [Hx _]%list_elem_of_filter. done.
Qed.

(** The rebalancing that ends every level of the removal. *)
Lemma remove_rebalance s s1 t u x :
  remove_pre s t → remove key t x = rebalance u →
  tree_at (ks_cte s1) (troot u) u → NoDup (elems u) → elems u ⊆ elems t →
  lvl u ≤ lvl t → 0 ≤ lvl (tleft u) → 0 ≤ lvl (tright u) →
  (∃ h, s1 = upd_ks_cte h s) → chg (ks_cte s) (ks_cte s1) (elems t) →
  ∃ h', aaRebalance (troot u) s1 = Ok (troot (remove key t x)) (upd_ks_cte h' s) ∧
    tree_at h' (troot (remove key t x)) (remove key t x) ∧ chg (ks_cte s) h' (elems t).
Proof using key_inj.
  intros (Ht & Hs & Haa & _ & _ & Hsz) E T N S L1 L2 L3 [h ->] C.
  pose proof (aa_remove key t x Haa) as (Haa' & Hlv & _).
  pose proof (aa_lvl_nonneg _ Haa'). pose proof (aa_lvl_nonneg _ Haa).
  pose proof (aa_lvl_bound t Haa Hsz). pose proof (aa_right_lvl _ Haa').
  assert (0 ≤ lvl (tright (remove key t x))).
  { destruct (remove key t x) as [|? ? ? ?] eqn:Er; cbn; [lia|].
    apply aa_node in Haa' as (_&_&_&_&?). by apply aa_lvl_nonneg. }
  destruct (aaRebalance_op (upd_ks_cte h s) u T N) as (h' & E' & T' & C'); rewrite <- ?E; try lia.
  rewrite E. exists h'. split_and!; [done|done|].
  eapply chg_trans_same; [exact C|]. by eapply chg_mono.
Qed.

Lemma remove_left_case f s lv l p r x :
  remove_pre s (Node lv l p r) → cmp key x p = Lt → x ∈ elems l →
  tree_op f s l (remove key l x) (elems l) →
  ∃ h', (let! root :=
           let! left0 := getLeft p in
           let! left := f left0 in
           setLeft p left ;;; kret p in
         aaRebalance root) s =
      Ok (troot (remove key (Node lv l p r) x)) (upd_ks_cte h' s) ∧
    tree_at h' (troot (remove key (Node lv l p r) x)) (remove key (Node lv l p r) x) ∧
    chg (ks_cte s) h' (elems (Node lv l p r)).
Proof using key_inj.
  intros Hpre Ec Hxl (h1 & E1 & T1 & C1). pose proof Hpre as (Ht & Hs & Haa & _).
  pose proof (sorted_NoDup key key_inj _ Hs) as (N1 & N2 & N3 & N4 & N5)%NoDup_node.
  destruct (sorted_mid key key_inj _ _ _ Hs) as (Hsl & _).
  pose proof Haa as (Hlv & Hll & Hlr & Haal & Haar)%aa_node.
  pose proof (remove_elems_sub l x Hsl Hxl) as Hsub.
  pose proof (remove_NoDup l x Hsl Hxl) as Hnl.
  pose proof (aa_remove key l x Haal) as (Haal' & _).
  pose proof (aa_lvl_nonneg _ Haal'). pose proof (aa_lvl_nonneg _ Haar).
  destruct (setLeft_node (ks_cte s) (upd_ks_cte h1 s) p lv l r (troot (remove key l x))
    (remove key l x) (elems l)) as (h2 & E2 & T2 & C2); try done;
    [by intros ?%Hsub|intros y Hy Hyl; by apply (N5 y)|].
  destruct (remove_rebalance s (upd_ks_cte h2 s) _ (Node lv (remove key l x) p r) x Hpre)
    as (h3 & E3 & T3 & C3); try done.
  - cbn [remove]. by rewrite Ec.
  - cbn. rewrite NoDup_app, NoDup_cons. split_and!; try done.
    intros y Hy%Hsub [->|Hyr]%elem_of_cons; [done|by apply (N5 y)].
  - cbn. set_solver.
  - by exists h2.
  - eapply chg_mono; [exact C2|cbn; set_solver].
  - exists h3. split_and!; [|done|done]. pose proof (getLeft_root s p _ _ _ Ht) as E0.
    rewrite (kbind_Ok _ _ s (upd_ks_cte h2 s) p); [done|]. by ksteps.
Qed.

Lemma remove_right_case f s lv l p r x :
  remove_pre s (Node lv l p r) → cmp key x p = Gt → x ∈ elems r →
  tree_op f s r (remove key r x) (elems r) →
  ∃ h', (let! root :=
           let! right0 := getRight p in
           let! right := f right0 in
           setRight p right ;;; kret p in
         aaRebalance root) s =
      Ok (troot (remove key (Node lv l p r) x)) (upd_ks_cte h' s) ∧
    tree_at h' (troot (remove key (Node lv l p r) x)) (remove key (Node lv l p r) x) ∧
    chg (ks_cte s) h' (elems (Node lv l p r)).
Proof using key_inj.
  intros Hpre Ec Hxr (h1 & E1 & T1 & C1). pose proof Hpre as (Ht & Hs & Haa & _).
  pose proof (sorted_NoDup key key_inj _ Hs) as (N1 & N2 & N3 & N4 & N5)%NoDup_node.
  destruct (sorted_mid key key_inj _ _ _ Hs) as (_ & Hsr & _).
  pose proof Haa as (Hlv & Hll & Hlr & Haal & Haar)%aa_node.
  pose proof (remove_elems_sub r x Hsr Hxr) as Hsub.
  pose proof (remove_NoDup r x Hsr Hxr) as Hnl.
  pose proof (aa_remove key r x Haar) as (Haar' & _).
  pose proof (aa_lvl_nonneg _ Haar'). pose proof (aa_lvl_nonneg _ Haal).
  destruct (setRight_node (ks_cte s) (upd_ks_cte h1 s) p lv l r (troot (remove key r x))
    (remove key r x) (elems r)) as (h2 & E2 & T2 & C2); try done; [by intros ?%Hsub|].
  destruct (remove_rebalance s (upd_ks_cte h2 s) _ (Node lv l p (remove key r x)) x Hpre)
    as (h3 & E3 & T3 & C3); try done.
  - cbn [remove]. by rewrite Ec.
  - cbn. rewrite NoDup_app, NoDup_cons. split_and!; try done.
    + intros y Hy [->|Hyr%Hsub]%elem_of_cons; [done|by apply (N5 y)].
    + by intros ?%Hsub.
  - cbn. set_solver.
  - by exists h2.
  - eapply chg_mono; [exact C2|cbn; set_solver].
  - exists h3. split_and!; [|done|done]. pose proof (getRight_root s p _ _ _ Ht) as E0.
    rewrite (kbind_Ok _ _ s (upd_ks_cte h2 s) p); [done|]. by ksteps.
Qed.

(** Removing the root when it has a left subtree: its predecessor takes its
    place. *)
Lemma remove_root_left f s lv l p r :
  remove_pre s (Node lv l p r) → l ≠ Leaf →
  tree_op (λ root, f root (tmax l 0)) s l (remove key l (tmax l 0)) (elems l) →
  ∃ h', (let! root := aaRemoveNode f p in aaRebalance root) s =
      Ok (troot (remove key (Node lv l p r) p)) (upd_ks_cte h' s) ∧
    tree_at h' (troot (remove key (Node lv l p r) p)) (remove key (Node lv l p r) p) ∧
    chg (ks_cte s) h' (elems (Node lv l p r)).
Proof using key_inj.
  intros Hpre Hl (h1 & E1 & T1 & C1). pose proof Hpre as (Ht & Hs & Haa & _ & _ & Hsz).
  pose proof (sorted_NoDup key key_inj _ Hs) as Hnd.
  pose proof Hnd as (N1 & N2 & N3 & N4 & N5)%NoDup_node.
  destruct (sorted_mid key key_inj _ _ _ Hs) as (Hsl & _).
  pose proof (aa_lvl_bound _ Haa Hsz) as Hlv1. cbn [lvl] in Hlv1.
  pose proof Haa as (Hlv & Hll & Hlr & Haal & Haar)%aa_node.
  pose proof (tmax_elem l 0 Hl) as Hm. set (q := tmax l 0) in *.
  pose proof (remove_elems_sub l q Hsl Hm) as Hsub.
  pose proof (aa_remove key l q Haal) as (Haal' & _).
  pose proof (aa_lvl_nonneg _ Haal'). pose proof (aa_lvl_nonneg _ Haar).
  pose proof (tree_at_left_child _ _ _ _ _ Ht) as Htl.
  pose proof (tree_at_right_child _ _ _ _ _ Ht) as Htr.
  assert (slot_ok q) as Hqo by exact (tree_at_slot_ok _ _ _ q Htl Hm).
  destruct (tree_at_lookup _ _ _ q Htl Hm) as [cq0 Hcq0].
  destruct (chg_lookup _ _ _ _ _ C1 Hcq0) as (cq & Hcq & _).
  destruct (replace_root (upd_ks_cte h1 s) q lv (troot (remove key l q)) (remove key l q)
    (troot r) r cq) as (h2 & E2 & T2 & C2); try done; try lia.
  { by apply (tree_at_chg (ks_cte s) _ (elems l)); [done|done|intros y Hy Hyl; by apply (N5 y)]. }
  { by apply remove_not_elem. }
  { by apply N5. }
  destruct (remove_rebalance s (upd_ks_cte h2 s) _ (Node lv (remove key l q) q r) p Hpre)
    as (h3 & E3 & T3 & C3); try done.
  - cbn [remove]. rewrite (proj2 (cmp_Eq key key_inj p p) eq_refl). by destruct l.
  - cbn. rewrite NoDup_app, NoDup_cons. split_and!; try done.
    + by apply remove_NoDup.
    + intros y Hy [->|Hyr]%elem_of_cons; [by apply (remove_not_elem l q Hsl Hm)|].
      by apply (N5 y); [apply Hsub|].
    + by apply N5.
  - cbn. set_solver.
  - by exists h2.
  - apply (chg_trans_same _ h1); eapply chg_mono; [exact C1|cbn; set_solver|exact C2|cbn; set_solver].
  - exists h3. split_and!; [|done|done].
    pose proof Ht as (_ & _ & c & Hc & Hcl & Hcl1 & Hcr1).
    assert (aaPred (cdt_fuel s) (troot l) s = Ok q s) as Ep.
    { apply aaPred_spec; [done|done|]. apply Nat.lt_le_incl, (tree_height_fuel _ (troot l)); done. }
    unfold aaRemoveNode.
    rewrite (kbind_Ok _ _ s (upd_ks_cte h2 s) q); [done|]. kload.
    change (mdb_node_get_cdtLeft (cteMDBNode c)) with (c_left c).
    change (mdb_node_get_cdtRight (cteMDBNode c)) with (c_right c).
    change (cdtLevel (cteMDBNode c)) with (c_level c).
    rewrite (tree_at_root _ _ _ Hcl1), (tree_at_root _ _ _ Hcr1), Hcl.
    rewrite (slot_ok_nonzero (troot l)) by exact (troot_slot_ok _ _ Htl Hl). cbn [negb].
    ksteps. by rewrite E2.
Qed.

(** Removing a root without a left subtree: its successor takes its place. *)
Lemma remove_root_right f s lv p r :
  remove_pre s (Node lv Leaf p r) → r ≠ Leaf →
  tree_op (λ root, f root (tmin r 0)) s r (remove key r (tmin r 0)) (elems r) →
  ∃ h', (let! root := aaRemoveNode f p in aaRebalance root) s =
      Ok (troot (remove key (Node lv Leaf p r) p)) (upd_ks_cte h' s) ∧
    tree_at h' (troot (remove key (Node lv Leaf p r) p)) (remove key (Node lv Leaf p r) p) ∧
    chg (ks_cte s) h' (elems (Node lv Leaf p r)).
Proof using key_inj.
  intros Hpre Hr (h1 & E1 & T1 & C1). pose proof Hpre as (Ht & Hs & Haa & _ & _ & Hsz).
  pose proof (sorted_NoDup key key_inj _ Hs) as Hnd.
  pose proof Hnd as (N1 & N2 & N3 & N4 & N5)%NoDup_node.
  destruct (sorted_mid key key_inj _ _ _ Hs) as (_ & Hsr & _).
  pose proof (aa_lvl_bound _ Haa Hsz) as Hlv1. cbn [lvl] in Hlv1.
  pose proof Haa as (Hlv & Hll & Hlr & Haal & Haar)%aa_node.
  pose proof (tmin_elem r 0 Hr) as Hm. set (q := tmin r 0) in *.
  pose proof (remove_elems_sub r q Hsr Hm) as Hsub.
  pose proof (aa_remove key r q Haar) as (Haar' & _).
  pose proof (aa_lvl_nonneg _ Haar').
  pose proof (tree_at_right_child _ _ _ _ _ Ht) as Htr.
  assert (slot_ok q) as Hqo by exact (tree_at_slot_ok _ _ _ q Htr Hm).
  destruct (tree_at_lookup _ _ _ q Htr Hm) as [cq0 Hcq0].
  destruct (chg_lookup _ _ _ _ _ C1 Hcq0) as (cq & Hcq & _).
  destruct (replace_root (upd_ks_cte h1 s) q lv 0 Leaf (troot (remove key r q))
    (remove key r q) cq) as (h2 & E2 & T2 & C2); try done; try lia.
  { cbn. set_solver. }
  { by apply remove_not_elem. }
  destruct (remove_rebalance s (upd_ks_cte h2 s) _ (Node lv Leaf q (remove key r q)) p Hpre)
    as (h3 & E3 & T3 & C3); try done.
  - cbn [remove]. rewrite (proj2 (cmp_Eq key key_inj p p) eq_refl). by destruct r.
  - cbn. rewrite NoDup_cons. split; [by apply remove_not_elem|by apply remove_NoDup].
  - cbn. set_solver.
  - by exists h2.
  - apply (chg_trans_same _ h1); eapply chg_mono; [exact C1|cbn; set_solver|exact C2|cbn; set_solver].
  - exists h3. split_and!; [|done|done].
    pose proof Ht as (_ & _ & c & Hc & Hcl & Hcl1 & Hcr1).
    assert (aaSucc (cdt_fuel s) (troot r) s = Ok q s) as Ep.
    { apply aaSucc_spec; [done|done|]. apply Nat.lt_le_incl, (tree_height_fuel _ (troot r)); done. }
    unfold aaRemoveNode.
    rewrite (kbind_Ok _ _ s (upd_ks_cte h2 s) q); [done|]. kload.
    change (mdb_node_get_cdtLeft (cteMDBNode c)) with (c_left c).
    change (mdb_node_get_cdtRight (cteMDBNode c)) with (c_right c).
    change (cdtLevel (cteMDBNode c)) with (c_level c).
    rewrite (tree_at_root _ _ _ Hcl1), (tree_at_root _ _ _ Hcr1), Hcl. cbn [troot].
    rewrite (slot_ok_nonzero (troot r)) by exact (troot_slot_ok _ _ Htr Hr). cbn [negb Z.eqb].
    ksteps. by rewrite E2.
Qed.

Lemma remove_root_leaf f s lv p :
  remove_pre s (Node lv Leaf p Leaf) →
  (let! root := aaRemoveNode f p in aaRebalance root) s = Ok 0 s ∧
  remove key (Node lv Leaf p Leaf) p = Leaf.
Proof using key_inj.
  intros (Ht & _). pose proof Ht as (_ & _ & c & Hc & _ & Hl & Hr). cbn in Hl, Hr.
  split; [|cbn [remove]; by rewrite (proj2 (cmp_Eq key key_inj p p) eq_refl)].
  unfold aaRemoveNode. rewrite (kbind_Ok _ _ s s 0); [done|]. kload.
  change (mdb_node_get_cdtLeft (cteMDBNode c)) with (c_left c).
  change (mdb_node_get_cdtRight (cteMDBNode c)) with (c_right c). by rewrite Hl, Hr.
Qed.

Lemma aaRemove_op fuel : ∀ sw s t x,
  remove_pre s t → x ∈ elems t → (height t ≤ fuel)%nat →
  tree_op (λ root, aaRemove fuel sw root x) s t (remove key t x) (elems t).
Proof using key_inj.
  induction fuel as [|fuel IH]; intros sw s t x Hpre Hx Hfuel;
    destruct t as [|lv l p r]; try (by apply elem_of_nil in Hx); [cbn in Hfuel; lia|].
  pose proof Hpre as (Ht & Hs & Haa & Hk & Hok & Hsz).
  pose proof (remove_pre_left _ _ _ _ _ Hpre) as Hprel.
  pose proof (remove_pre_right _ _ _ _ _ Hpre) as Hprer.
  destruct (sorted_mid key key_inj _ _ _ Hs) as (_ & _ & Hlp & Hpr & _).
  assert (slot_ok x) as Hxo by exact (tree_at_slot_ok _ _ _ x Ht Hx).
  assert (compSlotM x p s = Ok (cmp key x p) s) as Ecmp.
  { rewrite (compSlotM_Ok s _ x p Hok Hx); [by rewrite (cmp_ext _ key)|cbn; set_solver]. }
  pose proof Ht as (_ & Hp & _).
  unfold tree_op. cbn [aaRemove troot]. rewrite (slot_ok_nonzero _ Hxo), (slot_ok_nonzero _ Hp).
  kstep. cbn [height] in Hfuel.
  assert (∀ y z, klt key y z → klt key z y → False) as Hasym.
  { intros y z H1 H2. apply (klt_irrefl key key_inj y). by eapply klt_trans. }
  cbn [elems] in Hx. apply elem_of_app in Hx as Hx'. rewrite elem_of_cons in Hx'.
  destruct (cmp key x p) eqn:Ec.
  - apply (cmp_Eq key key_inj) in Ec as ->.
    destruct (decide (l = Leaf)) as [->|Hl].
    + destruct (decide (r = Leaf)) as [->|Hr].
      * destruct (remove_root_leaf (aaRemove fuel true) s lv p Hpre) as [E1 E2].
        rewrite E2. exists (ks_cte s). rewrite E1. by destruct s.
      * apply remove_root_right; [done|done|]. apply IH; [done|by apply tmin_elem|lia].
    + apply remove_root_left; [done|done|]. apply IH; [done|by apply tmax_elem|lia].
  - assert (x ∈ elems l) as Hxl.
    { destruct Hx' as [?|[->|Hr%Hpr]]; [done|..]; exfalso; by eapply Hasym. }
    apply remove_left_case; [done|done|done|]. apply IH; [done|done|lia].
  - apply (cmp_Gt key) in Ec as Ec'. assert (x ∈ elems r) as Hxr.
    { destruct Hx' as [Hl%Hlp|[->|?]]; [..|done]; exfalso; by eapply Hasym. }
    apply remove_right_case; [done|done|done|]. apply IH; [done|done|lia].
Qed.
End Remove.
