(* ===== verification/CdtInv.v ===== *)
(** * The invariant of the derivation tree and its maintenance

    [cdt_tree s t]: the root pointer of the state leads to a laid-out AA tree
    [t] that is balanced, sorted by [compSlot], and holds only capabilities
    that the order can compare.  The update operations of [cdt.c] preserve it
    and change the in-order sequence as an insertion or a removal. *)

From S2P Require Import Prelude.
From Stdlib Require Import Sorting.Sorted.
From S2P Require Import Word32.
From S2P Require Import Structures.
From S2P Require Import State.
From S2P Require Import CdtOrder.
From S2P Require Import AATree.
From S2P Require Import CapOps.
From S2P Require Import Cdt.
From S2P Require Import CdtProofs.

Record cdt_tree (s : kstate) (t : tree) : Prop := {
  ct_at : tree_at (ks_cte s) (ksRootCTE s) t;
  ct_sorted : sorted (hkey (ks_cte s)) (elems t);
  ct_aa : aa t;
  ct_ok : cdt_ok (ks_cte s) (elems t)
}.

(** ** Slot addresses bound the size of the tree, hence its height and level *)
Lemma NoDup_Z_bound (l : list Z) (N : Z) :
  0 ≤ N → NoDup l → (∀ x, x ∈ l → 0 ≤ x < N) → Z.of_nat (length l) ≤ N.
Proof.
  intros HN Hnd Hb.
  assert (length l ≤ length (Z.of_nat <$> seq 0 (Z.to_nat N)))%nat as H.
  { apply submseteq_length, NoDup_submseteq; [done|]. intros x Hx.
    apply Hb in Hx. apply list_elem_of_fmap. exists (Z.to_nat x).
    split; [lia|]. apply elem_of_seq. lia. }
  rewrite length_fmap, length_seq in H. lia.
Qed.

Lemma slot_count (l : list Z) :
  NoDup l → (∀ p, p ∈ l → slot_ok p) → Z.of_nat (length l) ≤ 2 ^ 27.
Proof.
  intros Hnd Hok. rewrite <- (length_fmap (λ p, (p - 0xE0000000) / 4) l).
  apply NoDup_Z_bound; [lia| |].
  - apply NoDup_fmap_2_strong; [|done]. intros p q [Hp Hp']%Hok [Hq Hq']%Hok E.
    pose proof (Z.div_mod (p - 0xE0000000) 4). pose proof (Z.div_mod (q - 0xE0000000) 4).
    assert ((p - 0xE0000000) mod 4 = 0) by (rewrite Zminus_mod, Hp; done).
    assert ((q - 0xE0000000) mod 4 = 0) by (rewrite Zminus_mod, Hq; done). lia.
  - intros x (p & -> & [_ Hp]%Hok)%list_elem_of_fmap.
    split; [apply Z.div_pos; lia|apply Z.div_lt_upper_bound; lia].
Qed.

Section Tree.
Context (s : kstate) (t : tree) (H : cdt_tree s t).

Lemma ct_NoDup : NoDup (elems t).
Proof using H. apply (sorted_NoDup _ (hkey_inj (ks_cte s))), H. Qed.

Lemma ct_slot_ok p : p ∈ elems t → slot_ok p.
Proof using H. intros Hp. by eapply tree_at_slot_ok; [apply H|]. Qed.

Lemma ct_lookup p : p ∈ elems t → is_Some (ks_cte s !! p).
Proof using H. intros Hp. by eapply tree_at_lookup; [apply H|]. Qed.

Lemma ct_size : Z.of_nat (length (elems t)) ≤ 2 ^ 27.
Proof using H. apply slot_count; [apply ct_NoDup|apply ct_slot_ok]. Qed.

Lemma ct_height : (height t < cdt_fuel s)%nat.
Proof using H. eapply tree_height_fuel; [apply H|apply ct_NoDup]. Qed.

Lemma ct_root : ksRootCTE s = troot t.
Proof using H. eapply tree_at_root, H. Qed.

Lemma ct_level : lvl t ≤ 27.
Proof using H.
  pose proof (aa_size t (ct_aa _ _ H)) as Hs. pose proof ct_size.
  assert (2 ^ lvl t < 2 ^ 28) as Hp by lia.
  apply Z.pow_lt_mono_r_iff in Hp; [lia|lia|lia].
Qed.
End Tree.

(** ** The invariant only depends on the slots of the tree *)
Lemma sorted_ext key key' xs :
  (∀ x, x ∈ xs → key' x = key x) → sorted key xs → sorted key' xs.
Proof.
  unfold sorted. induction xs as [|x xs IH]; [constructor|].
  intros He [H1 H2]%StronglySorted_inv. constructor.
  - apply IH; [|done]. intros; apply He; by right.
  - rewrite Forall_forall in *. intros y Hy. specialize (H2 y Hy).
    unfold klt, cmp in *. rewrite !He; [done|by right|by left].
Qed.

Lemma hkey_eq h h' p : h' !! p = h !! p → hkey h' p = hkey h p.
Proof. unfold hkey. by intros ->. Qed.

Lemma cdt_ok_frame h h' D :
  (∀ p, p ∈ D → h' !! p = h !! p) → cdt_ok h D → cdt_ok h' D.
Proof.
  intros He [H1 H2]. split.
  - intros p Hp. rewrite He by done. auto.
  - intros p q cp cq Hp Hq. rewrite !He by done. eauto.
Qed.

Lemma cdt_tree_frame s s' t :
  cdt_tree s t → ksRootCTE s' = ksRootCTE s →
  (∀ p, p ∈ elems t → ks_cte s' !! p = ks_cte s !! p) → cdt_tree s' t.
Proof.
  intros [H1 H2 H3 H4] Hr He. split; [|..|done|].
  - rewrite Hr. by eapply tree_at_frame.
  - eapply sorted_ext; [|done]. intros. by apply hkey_eq, He.
  - by eapply cdt_ok_frame.
Qed.

Lemma sorted_chg h h' ch xs : chg h h' ch → sorted (hkey h) xs → sorted (hkey h') xs.
Proof. intros Hc. apply sorted_ext. intros. by eapply hkey_chg. Qed.

(** ** Insertion and removal through the root pointer *)
Lemma cdtInsertTree_Ok s t x c :
  cdt_tree s t → slot_ok x → x ∉ elems t →
  ks_cte s !! x = Some c → c_left c = 0 → c_right c = 0 →
  cdt_ok (ks_cte s) (x :: elems t) →
  ∃ h' t', let s' := upd_ksRootCTE (troot t') (upd_ks_cte h' s) in
    cdtInsertTree x s = Ok tt s' ∧ cdt_tree s' t' ∧ chg (ks_cte s) h' (x :: elems t) ∧
    elems t' = list_insert (hkey (ks_cte s)) x (elems t).
Proof.
  intros Ht Hx Hxt Hc Hl Hr Hok. set (key := hkey (ks_cte s)).
  pose proof (hkey_inj (ks_cte s)) as Hinj. fold key in Hinj.
  pose proof (ct_root _ _ Ht) as Er. pose proof (ct_size _ _ Ht).
  destruct (aaInsert_op key Hinj x Hx (cdt_fuel s) s t c) as (h' & E & T & C);
    try done; [rewrite <- Er; apply Ht|apply Ht|apply Ht|lia|by apply ct_height|].
  exists h', (insert key t x). cbn zeta.
  pose proof (elems_insert key Hinj t x (ct_sorted _ _ Ht) Hxt) as Hel.
  split_and!; [| |done|done].
  - unfold cdtInsertTree. do 2 kstep. rewrite Er. by ksteps.
  - split; cbn [ks_cte ksRootCTE upd_ksRootCTE upd_ks_cte].
    + done.
    + eapply sorted_chg; [done|]. rewrite Hel. apply list_insert_sorted; [done|done|apply Ht].
    + apply aa_insert, Ht.
    + eapply cdt_ok_chg; [done|]. eapply cdt_ok_mono; [done|]. intros y.
      rewrite Hel, (list_insert_Permutation key). done.
Qed.

Lemma cdtRemoveTree_Ok s t x :
  cdt_tree s t → x ∈ elems t →
  ∃ h' t', let s' := upd_ksRootCTE (troot t') (upd_ks_cte h' s) in
    cdtRemoveTree x s = Ok tt s' ∧ cdt_tree s' t' ∧ chg (ks_cte s) h' (elems t) ∧
    elems t' = list_remove x (elems t).
Proof.
  intros Ht Hx. set (key := hkey (ks_cte s)).
  pose proof (hkey_inj (ks_cte s)) as Hinj. fold key in Hinj.
  pose proof (ct_root _ _ Ht) as Er. pose proof (ct_size _ _ Ht).
  destruct (aaRemove_op key Hinj (cdt_fuel s) false s t x) as (h' & E & T & C);
    [|done|by apply Nat.lt_le_incl, ct_height|].
  { split_and!; [rewrite <- Er; apply Ht|apply Ht|apply Ht|done|apply Ht|lia]. }
  exists h', (remove key t x). cbn zeta.
  pose proof (elems_remove key Hinj t x (ct_sorted _ _ Ht) Hx) as Hel.
  split_and!; [| |done|done].
  - unfold cdtRemoveTree. do 2 kstep. rewrite Er. by ksteps.
  - split; cbn [ks_cte ksRootCTE upd_ksRootCTE upd_ks_cte].
    + done.
    + eapply sorted_chg; [done|]. rewrite Hel. apply list_remove_sorted, Ht.
    + apply aa_remove, Ht.
    + eapply cdt_ok_chg; [done|]. eapply cdt_ok_mono; [apply Ht|]. intros y.
      rewrite Hel. by intros [_ ?]%list_elem_of_filter.
Qed.

(** ** The update operations *)

(** What [cdtInsert] reads of the parent slot. *)
Definition parent_info (s : kstate) (parent : Z) (pi : option (cap_t * Z)) : Prop :=
  (parent = 0 ∧ pi = None) ∨
  (parent ≠ 0 ∧ ∃ c, ks_cte s !! parent = Some c ∧ is_null (cteCap c) = false ∧
     pi = Some (cteCap c, cdtDepth (cteMDBNode c))).

(** A capability that may join the tree [t]: the order can compare it, with
    itself and with every capability of the tree. *)
Definition joins (h : gmap Z cte_t) (D : list Z) (cap : cap_t) : Prop :=
  cdt_cap cap = true ∧ types_agree cap cap ∧
  ∀ q c, q ∈ D → h !! q = Some c → types_agree cap (cteCap c).

Lemma types_agree_refl cap : types_agree cap cap.
Proof. by intros ???. Qed.

Lemma cdt_cap_not_null cap : cdt_cap cap = true → is_null cap = false.
Proof. destruct cap; try done. Qed.

(** A slot outside the tree can be overwritten with a capability that may join. *)
Lemma cdt_tree_write s t p c :
  cdt_tree s t → p ∉ elems t → cdt_tree (upd_ks_cte (<[p := c]> (ks_cte s)) s) t.
Proof.
  intros Ht Hp. eapply cdt_tree_frame; [done|done|]. intros q Hq.
  apply lookup_insert_ne. by intros ->.
Qed.

Lemma cdt_ok_cons h D p c :
  cdt_ok h D → p ∉ D → joins h D (cteCap c) → cdt_ok (<[p := c]> h) (p :: D).
Proof.
  intros [H1 H2] Hp (J1 & J2 & J3).
  assert (∀ q, q ∈ D → <[p := c]> h !! q = h !! q) as Hl
    by (intros; apply lookup_insert_ne; by intros ->).
  split.
  - intros q [->|Hq]%elem_of_cons; [exists c; by rewrite lookup_insert_eq|].
    rewrite Hl by done. auto.
  - intros q1 q2 c1 c2 [->|Hq1]%elem_of_cons [->|Hq2]%elem_of_cons;
      rewrite ?lookup_insert_eq, ?Hl by done; intros E1 E2; simplify_eq; eauto.
    + eapply types_agree_sym; eauto.
Qed.

(** The common tail of insert, move, update and swap: a slot outside the tree
    gets a capability and fresh links, and joins the tree. *)
Lemma insert_fresh s t p cap d :
  cdt_tree s t → slot_ok p → p ∉ elems t → joins (ks_cte s) (elems t) cap →
  let h0 := <[p := cte cap (mdb_node_new 0 d 0 0)]> (ks_cte s) in
  ∃ h' t', let s' := upd_ksRootCTE (troot t') (upd_ks_cte h' s) in
    cdtInsertTree p (upd_ks_cte h0 s) = Ok tt s' ∧ cdt_tree s' t' ∧
    chg h0 h' (p :: elems t) ∧ elems t' = list_insert (hkey h0) p (elems t).
Proof.
  intros Ht Hp Hpt Hj h0.
  destruct (cdtInsertTree_Ok (upd_ks_cte h0 s) t p (cte cap (mdb_node_new 0 d 0 0)))
    as (h' & t' & E & T & C & El); try done.
  - by apply cdt_tree_write.
  - apply lookup_insert_eq.
  - apply cdt_ok_cons; [apply Ht|done|done].
  - by exists h', t'.
Qed.

Lemma cdtInsert_Ok s t parent new cn pi d :
  cdt_tree s t → slot_ok new → new ∉ elems t → ks_cte s !! new = Some cn →
  joins (ks_cte s) (elems t) (cteCap cn) → parent_info s parent pi →
  cdt_child_depth pi (cteCap cn) = Some d →
  let h0 := <[new := cte (cteCap cn) (mdb_node_new 0 d 0 0)]> (ks_cte s) in
  ∃ h' t', let s' := upd_ksRootCTE (troot t') (upd_ks_cte h' s) in
    cdtInsert parent new s = Ok tt s' ∧ cdt_tree s' t' ∧
    chg h0 h' (new :: elems t) ∧ elems t' = list_insert (hkey h0) new (elems t).
Proof.
  intros Ht Hn Hnt Hc Hj Hpi Hd h0.
  destruct (insert_fresh s t new (cteCap cn) d Ht Hn Hnt Hj) as (h' & t' & E & T & C & El).
  exists h', t'. split_and!; try done. unfold cdtInsert. kload.
  rewrite kassert_true by (by rewrite cdt_cap_not_null by apply Hj).
  rewrite (kbind_Ok _ _ s s pi).
  2:{ destruct Hpi as [[-> ->]|(Hne & c & Hcp & Hnull & ->)]; [done|].
      apply Z.eqb_neq in Hne as ->. kload. by rewrite kassert_true by (by rewrite Hnull). }
  rewrite (kopt_Some _ _ _ _ Hd). kload. done.
Qed.

Lemma chg_lookup_notin h h' ch p : chg h h' ch → p ∉ ch → h' !! p = h !! p.
Proof. intros [_ H]. apply H. Qed.

Lemma cdtRemove_Ok s t x c :
  cdt_tree s t → x ∈ elems t → ks_cte s !! x = Some c →
  ∃ h' t', let s' := upd_ksRootCTE (troot t') (upd_ks_cte h' s) in
    cdtRemove x s = Ok tt s' ∧ cdt_tree s' t' ∧ elems t' = list_remove x (elems t) ∧
    h' !! x = Some (cte (cteCap c) nullMDBNode) ∧
    (∀ p, p ≠ x → skel <$> h' !! p = skel <$> ks_cte s !! p) ∧
    (∀ p, p ∉ elems t → h' !! p = ks_cte s !! p).
Proof.
  intros Ht Hx Hc. destruct (cdtRemoveTree_Ok s t x Ht Hx) as (h1 & t' & E & T & C & El).
  destruct (chg_lookup _ _ _ _ _ C Hc) as (c1 & Hc1 & Hs1).
  assert (x ∉ elems t') as Hxt by (rewrite El; intros [? _]%list_elem_of_filter; done).
  exists (<[x := cte (cteCap c) nullMDBNode]> h1), t'. split_and!.
  - destruct (ct_ok _ _ Ht) as [Hok _]. destruct (Hok x Hx) as (c' & Hc' & Hcap).
    simplify_eq. unfold cdtRemove. kload.
    rewrite kassert_true by (by rewrite cdt_cap_not_null). kstep.
    rewrite (setMDB_Ok x _ c1) by done.  by rewrite Hs1.
  - apply (cdt_tree_write _ _ x (cte (cteCap c) nullMDBNode) T Hxt).
  - done.
  - apply lookup_insert_eq.
  - intros p Hp. rewrite lookup_insert_ne by done. apply C.
  - intros p Hp. rewrite lookup_insert_ne by (by intros ->). by apply C.
Qed.

Lemma joins_chg h h' ch D cap : chg h h' ch → joins h D cap → joins h' D cap.
Proof.
  intros [Hc _] (H1 & H2 & H3). split_and!; [done|done|]. intros q c Hq E.
  specialize (Hc q). rewrite E in Hc. destruct (h !! q) as [c0|] eqn:E0; [|done].
  cbn in Hc. unfold skel in Hc. injection Hc as Hc _. rewrite Hc. eauto.
Qed.

Lemma joins_sub h D D' cap : joins h D cap → D' ⊆ D → joins h D' cap.
Proof. intros (H1 & H2 & H3) Hs. split_and!; eauto. Qed.

Lemma list_remove_sub x (D : list Z) : list_remove x D ⊆ D.
Proof. by intros y [_ ?]%list_elem_of_filter. Qed.

Lemma list_remove_not_in x (D : list Z) : x ∉ list_remove x D.
Proof. intros [? _]%list_elem_of_filter. done. Qed.

(** Removing a slot and putting another (or the same) one back with a new
    capability at the depth of the removed one. *)
Lemma cdtUpdate_Ok s t x c newCap :
  cdt_tree s t → x ∈ elems t → ks_cte s !! x = Some c →
  capsEqual (cteCap c) newCap = Some false →
  joins (ks_cte s) (list_remove x (elems t)) newCap →
  ∃ h' t' h0, let s' := upd_ksRootCTE (troot t') (upd_ks_cte h' s) in
    cdtUpdate x newCap s = Ok tt s' ∧ cdt_tree s' t' ∧
    skel <$> h0 !! x = Some (newCap, field 5 (cdtDepth (cteMDBNode c))) ∧
    (∀ p, p ≠ x → skel <$> h0 !! p = skel <$> ks_cte s !! p) ∧
    (∀ p, skel <$> h' !! p = skel <$> h0 !! p) ∧
    elems t' = list_insert (hkey h0) x (list_remove x (elems t)).
Proof.
  intros Ht Hx Hc Heq Hj. pose proof (ct_slot_ok _ _ Ht x Hx) as Hxo.
  destruct (cdtRemoveTree_Ok s t x Ht Hx) as (h1 & t1 & E1 & T1 & C1 & El1).
  destruct (chg_lookup _ _ _ _ _ C1 Hc) as (c1 & Hc1 & Hs1). unfold skel in Hs1.
  injection Hs1 as Ecap Edep.
  set (s1 := upd_ksRootCTE (troot t1) (upd_ks_cte h1 s)) in *.
  assert (x ∉ elems t1) as Hx1 by (rewrite El1; apply list_remove_not_in).
  set (d := cdtDepth (cteMDBNode c)) in *.
  destruct (insert_fresh s1 t1 x newCap d T1 Hxo Hx1) as (h2 & t2 & E2 & T2 & C2 & El2).
  { rewrite El1. by eapply joins_chg. }
  set (h0 := <[x := cte newCap (mdb_node_new 0 d 0 0)]> h1) in *.
  exists h2, t2, h0. split_and!.
  - unfold cdtUpdate. kload. rewrite (kopt_Some _ _ _ _ Heq). kstep.
    assert (getDepth x s1 = Ok d s1) as E3 by (rewrite <- Edep; by apply getDepth_Ok).
    kstep. assert (ks_cte s1 !! x = Some c1) as Hc1' by done. kload.
    set (s2 := upd_ks_cte _ s1).
    assert (ks_cte s2 !! x = Some (cte (cteCap c1) (mdb_node_new 0 d 0 0))) as Hc2
      by apply lookup_insert_eq.
    kload. cbn [cteMDBNode].
    replace (upd_ks_cte _ s2) with (upd_ks_cte h0 s1); [done|].
    subst s2. cbn [ks_cte upd_ks_cte]. by rewrite insert_insert_eq.
  - done.
  - subst h0. rewrite lookup_insert_eq. done.
  - intros p Hp. subst h0. rewrite lookup_insert_ne by done. apply C1.
  - apply C2.
  - rewrite <- El1. exact El2.
Qed.

(** When the new capability is equal for the order, the slot keeps its place. *)
Lemma cdtUpdate_equal_Ok s x c newCap :
  ks_cte s !! x = Some c → capsEqual (cteCap c) newCap = Some true →
  cdtUpdate x newCap s = Ok tt (upd_ks_cte (<[x := cte newCap (cteMDBNode c)]> (ks_cte s)) s).
Proof.
  intros Hc Heq. unfold cdtUpdate. kload. rewrite (kopt_Some _ _ _ _ Heq).
  by rewrite (setCap_Ok _ _ _ _ Hc).
Qed.

Lemma cdtMove_Ok s t old new co cn :
  cdt_tree s t → old ∈ elems t → slot_ok new → new ∉ elems t →
  ks_cte s !! old = Some co → ks_cte s !! new = Some cn →
  joins (ks_cte s) (list_remove old (elems t)) (cteCap cn) →
  ∃ h' t' h0, let s' := upd_ksRootCTE (troot t') (upd_ks_cte h' s) in
    cdtMove old new s = Ok tt s' ∧ cdt_tree s' t' ∧
    skel <$> h0 !! new = Some (cteCap cn, field 5 (cdtDepth (cteMDBNode co))) ∧
    skel <$> h0 !! old = Some (cteCap co, 0) ∧
    (∀ p, p ≠ old → p ≠ new → skel <$> h0 !! p = skel <$> ks_cte s !! p) ∧
    (∀ p, skel <$> h' !! p = skel <$> h0 !! p) ∧
    h' !! old = Some (cte (cteCap co) nullMDBNode) ∧
    elems t' = list_insert (hkey h0) new (list_remove old (elems t)).
Proof.
  intros Ht Ho Hno Hnt Hco Hcn Hj.
  assert (old ≠ new) as Hne by (by intros ->).
  destruct (cdtRemoveTree_Ok s t old Ht Ho) as (h1 & t1 & E1 & T1 & C1 & El1).
  destruct (chg_lookup _ _ _ _ _ C1 Hco) as (c1 & Hc1 & Hs1). unfold skel in Hs1.
  injection Hs1 as Ecap Edep.
  assert (h1 !! new = Some cn) as Hn1 by (by rewrite (chg_lookup_notin _ _ _ _ C1)).
  set (s1 := upd_ksRootCTE (troot t1) (upd_ks_cte h1 s)) in *.
  assert (old ∉ elems t1) as Ho1 by (rewrite El1; apply list_remove_not_in).
  assert (new ∉ elems t1) as Hn2 by (rewrite El1; intros ?%list_remove_sub; done).
  set (h1' := <[old := cte (cteCap co) nullMDBNode]> h1).
  pose proof (cdt_tree_write s1 t1 old (cte (cteCap co) nullMDBNode) T1 Ho1) as T1'.
  set (d := cdtDepth (cteMDBNode co)) in *.
  destruct (insert_fresh (upd_ks_cte h1' s1) t1 new (cteCap cn) d T1' Hno Hn2)
    as (h2 & t2 & E2 & T2 & C2 & El2).
  { rewrite El1. cbn [ks_cte upd_ks_cte]. split_and!; [apply Hj|apply Hj|].
    intros q c Hq Hqc. subst h1'.
    assert (q ≠ old) by (intros ->; by eapply list_remove_not_in).
    rewrite lookup_insert_ne in Hqc by done.
    destruct (joins_chg _ _ _ _ _ C1 Hj) as (_ & _ & J3). by eapply J3. }
  cbn [ks_cte upd_ks_cte] in C2, El2.
  set (h0 := <[new := cte (cteCap cn) (mdb_node_new 0 d 0 0)]> h1') in *.
  exists h2, t2, h0. split_and!.
  - destruct (ct_ok _ _ Ht) as [Hok _]. destruct (Hok old Ho) as (c' & Hc' & Hcap).
    assert (c' = co) as -> by congruence.
    unfold cdtMove. kload. rewrite kassert_true by (by rewrite cdt_cap_not_null).
    kload. rewrite kassert_true by (by rewrite cdt_cap_not_null by apply Hj). kstep.
    assert (getDepth old s1 = Ok d s1) as E3 by (rewrite <- Edep; by apply getDepth_Ok).
    kstep. assert (ks_cte s1 !! new = Some cn) as Hn1' by done. kload.
    set (s2 := upd_ks_cte _ s1).
    assert (ks_cte s2 !! old = Some c1) as Hc2 by (cbn; by rewrite lookup_insert_ne).
    kload. change (mdb_node_new 0 0 0 0) with nullMDBNode. rewrite Ecap.
    replace (upd_ks_cte _ s2) with (upd_ks_cte h0 s1); [done|].
    subst s2 h0 h1'. cbn [ks_cte upd_ks_cte]. by rewrite insert_insert_ne.
  - done.
  - subst h0. by rewrite lookup_insert_eq.
  - subst h0 h1'. by rewrite lookup_insert_ne, lookup_insert_eq.
  - intros p Hp1 Hp2. subst h0 h1'. rewrite !lookup_insert_ne by done. apply C1.
  - apply C2.
  - rewrite (chg_lookup_notin _ _ _ _ C2).
    + subst h0 h1'. by rewrite lookup_insert_ne, lookup_insert_eq.
    + intros [?|?]%elem_of_cons; done.
  - rewrite <- El1. exact El2.
Qed.
