(* ===== verification/CdtWalk.v ===== *)
(** * Searching and walking the derivation tree

    The search loops and the in-order walks of [cdt.c] on a laid-out tree:
    each returns, and what it returns is characterised on the in-order
    sequence. *)

From S2P Require Import Prelude.
From Stdlib Require Import Sorting.Sorted.
From S2P Require Import Word32.
From S2P Require Import Structures.
From S2P Require Import State.
From S2P Require Import CdtOrder.
From S2P Require Import AATree.
From S2P Require Import CapOps.
From S2P Require Import Cdt.
From S2P Require Import CdtProofs.
From S2P Require Import CdtInv.

(** ** Walks on the functional tree *)
Section Walk.
Context (key : Z → list Z) (key_inj : ∀ p q, key p = key q → p = q).

(** The parent of [x] below [t], [d] when [x] is the root. *)
Fixpoint parent_in (t : tree) (x d : Z) : Z :=
  match t with
  | Leaf => d
  | Node _ l p r =>
      if p =? x then d else
      match cmp key p x with
      | Lt => parent_in r x p
      | Gt => parent_in l x p
      | Eq => p
      end
  end.

(** The nearest ancestor of [x] that [x] lies to the left (right) of. *)
Fixpoint succ_anc (t : tree) (x d : Z) : Z :=
  match t with
  | Leaf => d
  | Node _ l p r =>
      match cmp key x p with Lt => succ_anc l x p | Gt => succ_anc r x d | Eq => d end
  end.
Fixpoint pred_anc (t : tree) (x d : Z) : Z :=
  match t with
  | Leaf => d
  | Node _ l p r =>
      match cmp key x p with Lt => pred_anc l x d | Gt => pred_anc r x p | Eq => d end
  end.

(** The subtree rooted at [x]. *)
Fixpoint sub_at (t : tree) (x : Z) : tree :=
  match t with
  | Leaf => Leaf
  | Node _ l p r =>
      match cmp key x p with Lt => sub_at l x | Gt => sub_at r x | Eq => t end
  end.

Fixpoint depth_of (t : tree) (x : Z) : nat :=
  match t with
  | Leaf => 0
  | Node _ l p r =>
      match cmp key x p with
      | Lt => S (depth_of l x) | Gt => S (depth_of r x) | Eq => 0
      end
  end.

Definition succ_of (t : tree) (x : Z) : Z :=
  let r := tright (sub_at t x) in
  if decide (r = Leaf) then succ_anc t x 0 else tmin r 0.
Definition pred_of (t : tree) (x : Z) : Z :=
  let l := tleft (sub_at t x) in
  if decide (l = Leaf) then pred_anc t x 0 else tmax l 0.

Lemma sorted_side lv l p r x :
  sorted key (elems (Node lv l p r)) → x ∈ elems (Node lv l p r) →
  (cmp key x p = Eq ∧ x = p) ∨ (cmp key x p = Lt ∧ x ∈ elems l ∧ x ≠ p) ∨
  (cmp key x p = Gt ∧ x ∈ elems r ∧ x ≠ p).
Proof using key_inj.
  intros Hs Hx. destruct (sorted_mid key key_inj _ _ _ Hs) as (_ & _ & Hl & Hr & _).
  assert (∀ y, y ∈ elems l ∨ y ∈ elems r → y ≠ p) as Hne.
  { intros y Hy ->. apply (klt_irrefl key key_inj p). destruct Hy; auto. }
  cbn [elems] in Hx. apply elem_of_app in Hx as [Hx|[->|Hx]%elem_of_cons].
  - right; left. split_and!; [by apply Hl|done|auto].
  - left. by rewrite (proj2 (cmp_Eq key key_inj p p)).
  - right; right. split_and!; [by apply cmp_Gt, Hr|done|auto].
Qed.

Lemma sub_at_spec t x :
  sorted key (elems t) → x ∈ elems t →
  ∃ lv l r, sub_at t x = Node lv l x r ∧ sorted key (elems (Node lv l x r)) ∧
    (height (Node lv l x r) ≤ height t)%nat.
Proof using key_inj.
  induction t as [|lv l IHl p r IHr]; [intros _ Hx; by apply elem_of_nil in Hx|].
  intros Hs Hx. cbn [sub_at].
  destruct (sorted_mid key key_inj _ _ _ Hs) as (Hsl & Hsr & _).
  destruct (sorted_side _ _ _ _ _ Hs Hx) as [[-> ->]|[(-> & Hx' & _)|(-> & Hx' & _)]].
  - exists lv, l, r. done.
  - destruct (IHl Hsl Hx') as (lv' & l' & r' & E & S & H). exists lv', l', r'.
    split_and!; [done|done|cbn in *; lia].
  - destruct (IHr Hsr Hx') as (lv' & l' & r' & E & S & H). exists lv', l', r'.
    split_and!; [done|done|cbn in *; lia].
Qed.

Lemma sub_at_tree_at h t x :
  sorted key (elems t) → x ∈ elems t → tree_at h (troot t) t → tree_at h x (sub_at t x).
Proof using key_inj.
  induction t as [|lv l IHl p r IHr]; [intros _ Hx; by apply elem_of_nil in Hx|].
  intros Hs Hx Ht. cbn [sub_at].
  destruct (sorted_mid key key_inj _ _ _ Hs) as (Hsl & Hsr & _).
  destruct (sorted_side _ _ _ _ _ Hs Hx) as [[-> ->]|[(-> & Hx' & _)|(-> & Hx' & _)]].
  - done.
  - apply IHl; [done|done|by eapply tree_at_left_child].
  - apply IHr; [done|done|by eapply tree_at_right_child].
Qed.

Lemma depth_of_height t x :
  sorted key (elems t) → x ∈ elems t → (depth_of t x < height t)%nat.
Proof using key_inj.
  induction t as [|lv l IHl p r IHr]; [intros _ Hx; by apply elem_of_nil in Hx|].
  intros Hs Hx. cbn [depth_of height].
  destruct (sorted_mid key key_inj _ _ _ Hs) as (Hsl & Hsr & _).
  destruct (sorted_side _ _ _ _ _ Hs Hx) as [[-> ->]|[(-> & Hx' & _)|(-> & Hx' & _)]].
  - lia.
  - specialize (IHl Hsl Hx'). lia.
  - specialize (IHr Hsr Hx'). lia.
Qed.

(** One step up: the parent [q] of [x] has [x] as one of its children, and
    the ancestors of [x] are [q] and those of [q]. *)
Lemma parent_step t x d :
  sorted key (elems t) → x ∈ elems t → x ≠ troot t → x ≠ 0 →
  let q := parent_in t x d in
  q ∈ elems t ∧ depth_of t x = S (depth_of t q) ∧
  ((troot (tleft (sub_at t q)) = x ∧ troot (tright (sub_at t q)) ≠ x ∧
    (∀ e, succ_anc t x e = q) ∧ (∀ e, pred_anc t x e = pred_anc t q e)) ∨
   (troot (tright (sub_at t q)) = x ∧ troot (tleft (sub_at t q)) ≠ x ∧
    (∀ e, pred_anc t x e = q) ∧ (∀ e, succ_anc t x e = succ_anc t q e))).
Proof using key_inj.
  revert d. induction t as [|lv l IHl p r IHr]; intros d;
    [intros _ Hx; by apply elem_of_nil in Hx|].
  intros Hs Hx Hne Hx0 q. subst q. cbn [parent_in]. cbn [troot] in Hne.
  assert ((p =? x) = false) as -> by (apply Z.eqb_neq; congruence).
  destruct (sorted_mid key key_inj _ _ _ Hs) as (Hsl & Hsr & Hlp & Hpr & Hlr).
  assert (∀ y, y ∈ elems l → y ∈ elems r → False) as Hdisj.
  { intros y H1 H2. by apply (klt_irrefl key key_inj y), Hlr. }
  assert (cmp key p p = Eq) as Epp by (by apply cmp_Eq).
  destruct (sorted_side _ _ _ _ _ Hs Hx) as [[_ ->]|[(E & Hx' & _)|(E & Hx' & _)]]; [done|..].
  - rewrite (cmp_antisym key x p), E. cbn [CompOpp].
    destruct (decide (x = troot l)) as [->|Hnl].
    + assert (parent_in l (troot l) p = p) as ->.
      { destruct l; cbn; [by apply elem_of_nil in Hx'|]. by rewrite Z.eqb_refl. }
      assert (∃ a b c d, l = Node a b c d) as (a & b & c & d' & ->).
      { destruct l; [by apply elem_of_nil in Hx'|eauto]. }
      cbn [sub_at depth_of succ_anc pred_anc]. rewrite Epp. cbn [troot] in *. rewrite E.
      cbn [sub_at depth_of succ_anc pred_anc]. rewrite (proj2 (cmp_Eq key key_inj c c) eq_refl).
      split_and!; [cbn; set_solver|done|]. left. split_and!; [done| |done|done].
      intros Hr. cbn [tright] in Hr. destruct r as [|? ? y ?]; cbn in Hr.
      { congruence. }
      subst. apply (Hdisj c Hx'). cbn. set_solver.
    + destruct (IHl p Hsl Hx' Hnl Hx0) as (Hq & Hd & Hor).
      set (q := parent_in l x p) in *.
      assert (cmp key q p = Lt) as Eq by (by apply Hlp).
      cbn [sub_at depth_of succ_anc pred_anc]. rewrite E, Eq, Hd.
      split_and!; [cbn; set_solver|done|]. naive_solver.
  - rewrite (cmp_antisym key x p), E. cbn [CompOpp].
    destruct (decide (x = troot r)) as [->|Hnl].
    + assert (parent_in r (troot r) p = p) as ->.
      { destruct r; cbn; [by apply elem_of_nil in Hx'|]. by rewrite Z.eqb_refl. }
      assert (∃ a b c d, r = Node a b c d) as (a & b & c & d' & ->).
      { destruct r; [by apply elem_of_nil in Hx'|eauto]. }
      cbn [sub_at depth_of succ_anc pred_anc]. rewrite Epp. cbn [troot] in *. rewrite E.
      cbn [sub_at depth_of succ_anc pred_anc]. rewrite (proj2 (cmp_Eq key key_inj c c) eq_refl).
      split_and!; [cbn; set_solver|done|]. right. split_and!; [done| |done|done].
      intros Hl. cbn [tleft] in Hl. destruct l as [|? ? y ?]; cbn in Hl.
      { congruence. }
      subst. apply (Hdisj c); [cbn; set_solver|done].
    + destruct (IHr p Hsr Hx' Hnl Hx0) as (Hq & Hd & Hor).
      set (q := parent_in r x p) in *.
      assert (cmp key q p = Gt) as Eq by (by apply cmp_Gt, Hpr).
      cbn [sub_at depth_of succ_anc pred_anc]. rewrite E, Eq, Hd.
      split_and!; [cbn; set_solver|done|]. naive_solver.
Qed.

Lemma succ_anc_elems t x d l1 l2 :
  sorted key (elems t) → elems t = l1 ++ x :: l2 →
  (if decide (tright (sub_at t x) = Leaf) then succ_anc t x d
   else tmin (tright (sub_at t x)) 0) = hd d l2.
Proof using key_inj.
  revert d l1 l2. induction t as [|lv l IHl p r IHr]; intros d l1 l2 Hs Hel;
    [by destruct l1|].
  assert (x ∈ elems (Node lv l p r)) as Hx by (rewrite Hel; set_solver).
  pose proof (sorted_NoDup key key_inj _ Hs) as Hnd.
  destruct (sorted_mid key key_inj _ _ _ Hs) as (Hsl & Hsr & _).
  assert (x ∉ l1) as Hx1.
  { rewrite Hel in Hnd. by apply NoDup_app_cons_inv in Hnd as (? & _ & _). }
  pose proof Hnd as (N1 & N2 & N3 & N4 & N5)%NoDup_node.
  cbn [elems] in Hel. cbn [sub_at succ_anc].
  destruct (sorted_side _ _ _ _ _ Hs Hx) as [[-> ->]|[(-> & Hx' & Hne)|(-> & Hx' & Hne)]].
  - destruct (app_cons_inj (elems l) (elems r) l1 l2 p N1 Hx1 Hel) as [_ <-]. cbn [tright].
    destruct (decide (r = Leaf)) as [->|E]; [done|]. by destruct (elems_tmin r 0 E) as [k ->].
  - apply list_elem_of_split in Hx' as (k1 & k2 & Ek).
    rewrite (IHl p k1 k2 Hsl Ek). rewrite Ek, <- app_assoc in Hel. cbn in Hel.
    assert (x ∉ k1) by (rewrite Ek in N3; by apply NoDup_app_cons_inv in N3 as (? & _ & _)).
    destruct (app_cons_inj k1 (k2 ++ p :: elems r) l1 l2 x) as [_ <-]; [done|done|done|].
    by destruct k2.
  - apply list_elem_of_split in Hx' as (k1 & k2 & Ek).
    rewrite (IHr d k1 k2 Hsr Ek).
    replace (elems l ++ p :: elems r) with ((elems l ++ p :: k1) ++ x :: k2) in Hel
      by (by rewrite Ek, <- app_assoc).
    assert (x ∉ elems l ++ p :: k1).
    { rewrite Ek in N4. apply NoDup_app_cons_inv in N4 as (? & _ & _).
      assert (x ∉ elems l) by (intros ?; apply (N5 x); [done|rewrite Ek; set_solver]).
      set_solver. }
    destruct (app_cons_inj (elems l ++ p :: k1) k2 l1 l2 x) as [_ <-]; done.
Qed.

Lemma pred_anc_elems t x d l1 l2 :
  sorted key (elems t) → elems t = l1 ++ x :: l2 →
  (if decide (tleft (sub_at t x) = Leaf) then pred_anc t x d
   else tmax (tleft (sub_at t x)) 0) = List.last l1 d.
Proof using key_inj.
  revert d l1 l2. induction t as [|lv l IHl p r IHr]; intros d l1 l2 Hs Hel;
    [by destruct l1|].
  assert (x ∈ elems (Node lv l p r)) as Hx by (rewrite Hel; set_solver).
  pose proof (sorted_NoDup key key_inj _ Hs) as Hnd.
  destruct (sorted_mid key key_inj _ _ _ Hs) as (Hsl & Hsr & _).
  assert (x ∉ l1) as Hx1.
  { rewrite Hel in Hnd. by apply NoDup_app_cons_inv in Hnd as (? & _ & _). }
  pose proof Hnd as (N1 & N2 & N3 & N4 & N5)%NoDup_node.
  cbn [elems] in Hel. cbn [sub_at pred_anc].
  destruct (sorted_side _ _ _ _ _ Hs Hx) as [[-> ->]|[(-> & Hx' & Hne)|(-> & Hx' & Hne)]].
  - destruct (app_cons_inj (elems l) (elems r) l1 l2 p N1 Hx1 Hel) as [<- _]. cbn [tleft].
    destruct (decide (l = Leaf)) as [->|E]; [done|].
    destruct (elems_tmax l 0 E) as [k ->]. by rewrite last_last.
  - apply list_elem_of_split in Hx' as (k1 & k2 & Ek).
    rewrite (IHl d k1 k2 Hsl Ek). rewrite Ek, <- app_assoc in Hel. cbn in Hel.
    assert (x ∉ k1) by (rewrite Ek in N3; by apply NoDup_app_cons_inv in N3 as (? & _ & _)).
    destruct (app_cons_inj k1 (k2 ++ p :: elems r) l1 l2 x) as [<- _]; done.
  - apply list_elem_of_split in Hx' as (k1 & k2 & Ek).
    rewrite (IHr p k1 k2 Hsr Ek).
    replace (elems l ++ p :: elems r) with ((elems l ++ p :: k1) ++ x :: k2) in Hel
      by (by rewrite Ek, <- app_assoc).
    assert (x ∉ elems l ++ p :: k1).
    { rewrite Ek in N4. apply NoDup_app_cons_inv in N4 as (? & _ & _).
      assert (x ∉ elems l) by (intros ?; apply (N5 x); [done|rewrite Ek; set_solver]).
      set_solver. }
    destruct (app_cons_inj (elems l ++ p :: k1) k2 l1 l2 x) as [<- _]; [done|done|done|].
    destruct k1 as [|y k1]; [by rewrite last_last|].
    destruct (exists_last (l:=y :: k1)) as (k & z & E); [done|]. rewrite E, last_last.
    replace (elems l ++ p :: k ++ [z]) with ((elems l ++ p :: k) ++ [z])
      by (by rewrite <- app_assoc).
    by rewrite last_last.
Qed.
End Walk.

(** ** The walks of the pointer tree *)
Section Traverse.
Context (s : kstate) (t : tree) (H : cdt_tree s t).
Let key := hkey (ks_cte s).
Let key_inj := hkey_inj (ks_cte s).

Lemma ct_cmp p q :
  p ∈ elems t → q ∈ elems t → compSlotM p q s = Ok (cmp key p q) s.
Proof using H. intros. eapply compSlotM_Ok; [apply H|done|done]. Qed.

Lemma ct_nonzero p : p ∈ elems t → (p =? 0) = false.
Proof using H. intros. by eapply slot_ok_nonzero, ct_slot_ok. Qed.

Lemma aaParent_loop_spec x fuel : ∀ u cur,
  x ∈ elems t → elems u ⊆ elems t → sorted key (elems u) → x ∈ elems u →
  tree_at (ks_cte s) (troot u) u → (height u ≤ fuel)%nat →
  aaParent_loop fuel x cur (troot u) s = Ok (parent_in key u x cur) s.
Proof using H.
  induction fuel as [|fuel IH]; intros u cur Hxt Hu Hs Hx Ht Hf;
    (destruct u as [|lv l p r]; [by apply elem_of_nil in Hx|]); cbn [height] in Hf; [lia|].
  cbn [aaParent_loop troot parent_in].
  destruct (Z.eqb_spec p x) as [->|Hpx]; [done|].
  assert (p ∈ elems t) as Hpt by (apply Hu; cbn; set_solver).
  pose proof (ct_cmp p x Hpt Hxt) as Ec. kstep.
  destruct (sorted_mid key key_inj _ _ _ Hs) as (Hsl & Hsr & _).
  destruct (sorted_side key key_inj _ _ _ _ _ Hs Hx) as [[_ ->]|[(E & Hx' & _)|(E & Hx' & _)]];
    [done|..]; rewrite (cmp_antisym key x p), E; cbn [CompOpp].
  - pose proof (getLeft_root s p lv l r Ht) as E1. kstep.
    apply IH; [done|cbn in Hu; set_solver|done|done|by eapply tree_at_left_child|lia].
  - pose proof (getRight_root s p lv l r Ht) as E1. kstep.
    apply IH; [done|cbn in Hu; set_solver|done|done|by eapply tree_at_right_child|lia].
Qed.

Lemma ct_tree_at : tree_at (ks_cte s) (troot t) t.
Proof using H. rewrite <- (ct_root _ _ H). apply H. Qed.

Lemma aaParent_spec x : x ∈ elems t → aaParent x s = Ok (parent_in key t x 0) s.
Proof using H.
  intros Hx. unfold aaParent. do 2 kstep. rewrite (ct_root _ _ H).
  apply aaParent_loop_spec; [done|done|apply H|done|apply ct_tree_at|].
  pose proof (ct_height _ _ H). lia.
Qed.

Lemma ct_children x :
  x ∈ elems t → getLeft x s = Ok (troot (tleft (sub_at key t x))) s ∧
                getRight x s = Ok (troot (tright (sub_at key t x))) s.
Proof using H.
  intros Hx. pose proof (sub_at_tree_at key key_inj _ _ x (ct_sorted _ _ H) Hx ct_tree_at) as T.
  destruct (sub_at_spec key key_inj t x (ct_sorted _ _ H) Hx) as (lv & l & r & E & _).
  fold key in E. rewrite E in *. cbn [tleft tright].
  split; [by eapply getLeft_root|by eapply getRight_root].
Qed.

Lemma climb_left_spec fuel : ∀ x,
  x ∈ elems t → (depth_of key t x < fuel)%nat →
  climb fuel getLeft x s = Ok (succ_anc key t x 0) s.
Proof using H.
  induction fuel as [|fuel IH]; intros x Hx Hf; [lia|]. cbn [climb].
  pose proof (aaParent_spec x Hx) as E. kstep.
  destruct (decide (x = troot t)) as [->|Hne].
  { destruct t as [|lv l p r]; [by apply elem_of_nil in Hx|]. cbn.
    by rewrite Z.eqb_refl, (proj2 (cmp_Eq key key_inj p p) eq_refl). }
  pose proof (ct_slot_ok _ _ H x Hx) as Hxo.
  destruct (parent_step key key_inj t x 0 (ct_sorted _ _ H) Hx Hne) as (Hq & Hd & Hor).
  { destruct Hxo; lia. }
  set (q := parent_in key t x 0) in *. rewrite (ct_nonzero q Hq).
  destruct (ct_children q Hq) as [E1 _]. kstep.
  destruct Hor as [(-> & _ & Hs & _)|(_ & Hn & _ & Hs)]; rewrite Hs.
  - by rewrite Z.eqb_refl.
  - apply Z.eqb_neq in Hn as ->. cbn [negb]. apply IH; [done|lia].
Qed.

Lemma climb_right_spec fuel : ∀ x,
  x ∈ elems t → (depth_of key t x < fuel)%nat →
  climb fuel getRight x s = Ok (pred_anc key t x 0) s.
Proof using H.
  induction fuel as [|fuel IH]; intros x Hx Hf; [lia|]. cbn [climb].
  pose proof (aaParent_spec x Hx) as E. kstep.
  destruct (decide (x = troot t)) as [->|Hne].
  { destruct t as [|lv l p r]; [by apply elem_of_nil in Hx|]. cbn.
    by rewrite Z.eqb_refl, (proj2 (cmp_Eq key key_inj p p) eq_refl). }
  pose proof (ct_slot_ok _ _ H x Hx) as Hxo.
  destruct (parent_step key key_inj t x 0 (ct_sorted _ _ H) Hx Hne) as (Hq & Hd & Hor).
  { destruct Hxo; lia. }
  set (q := parent_in key t x 0) in *. rewrite (ct_nonzero q Hq).
  destruct (ct_children q Hq) as [_ E1]. kstep.
  destruct Hor as [(_ & Hn & _ & Hs)|(-> & _ & Hs & _)]; rewrite Hs.
  - apply Z.eqb_neq in Hn as ->. cbn [negb]. apply IH; [done|lia].
  - by rewrite Z.eqb_refl.
Qed.

Lemma aaTraverseForward_spec x l1 l2 :
  elems t = l1 ++ x :: l2 → aaTraverseForward x s = Ok (hd 0 l2) s.
Proof using H.
  intros Hel. assert (x ∈ elems t) as Hx by (rewrite Hel; set_solver).
  rewrite <- (succ_anc_elems key key_inj t x 0 l1 l2 (ct_sorted _ _ H) Hel).
  unfold aaTraverseForward. kstep. destruct (ct_children x Hx) as [_ E]. kstep.
  pose proof (sub_at_tree_at key key_inj _ _ x (ct_sorted _ _ H) Hx ct_tree_at) as T.
  destruct (sub_at_spec key key_inj t x (ct_sorted _ _ H) Hx) as (lv & l & r & Es & Hs & Hh).
  fold key in Es. rewrite Es in *. cbn [tright]. cbn [height] in Hh.
  pose proof (ct_height _ _ H). pose proof (tree_at_right_child _ _ _ _ _ T) as Tr.
  destruct (decide (r = Leaf)) as [->|Er].
  - cbn [troot negb Z.eqb]. apply climb_left_spec; [done|].
    pose proof (depth_of_height key key_inj t x (ct_sorted _ _ H) Hx). lia.
  - rewrite (slot_ok_nonzero (troot r)) by by eapply troot_slot_ok. cbn [negb].
    apply aaSucc_spec; [done|done|lia].
Qed.

Lemma aaTraverseBackward_spec x l1 l2 :
  elems t = l1 ++ x :: l2 → aaTraverseBackward x s = Ok (List.last l1 0) s.
Proof using H.
  intros Hel. assert (x ∈ elems t) as Hx by (rewrite Hel; set_solver).
  rewrite <- (pred_anc_elems key key_inj t x 0 l1 l2 (ct_sorted _ _ H) Hel).
  unfold aaTraverseBackward. kstep. destruct (ct_children x Hx) as [E _]. kstep.
  pose proof (sub_at_tree_at key key_inj _ _ x (ct_sorted _ _ H) Hx ct_tree_at) as T.
  destruct (sub_at_spec key key_inj t x (ct_sorted _ _ H) Hx) as (lv & l & r & Es & Hs & Hh).
  fold key in Es. rewrite Es in *. cbn [tleft]. cbn [height] in Hh.
  pose proof (ct_height _ _ H). pose proof (tree_at_left_child _ _ _ _ _ T) as Tl.
  destruct (decide (l = Leaf)) as [->|El].
  - cbn [troot negb Z.eqb]. apply climb_right_spec; [done|].
    pose proof (depth_of_height key key_inj t x (ct_sorted _ _ H) Hx). lia.
  - rewrite (slot_ok_nonzero (troot l)) by by eapply troot_slot_ok. cbn [negb].
    apply aaPred_spec; [done|done|lia].
Qed.
End Traverse.

(** ** Searches *)

(** A comparison against a fixed target that agrees with the order. *)
Definition monotone (key : Z → list Z) (D : list Z) (g : Z → comparison) : Prop :=
  ∀ p q, p ∈ D → q ∈ D → klt key p q →
    (g p = Gt → g q = Gt) ∧ (g q = Lt → g p = Lt).

Fixpoint tsearch (g : Z → comparison) (t : tree) : Z :=
  match t with
  | Leaf => 0
  | Node _ l p r => match g p with Eq => p | Lt => tsearch g r | Gt => tsearch g l end
  end.

Fixpoint tbelow (key : Z → list Z) (g : Z → comparison) (t : tree) (largest : Z) : Z :=
  match t with
  | Leaf => largest
  | Node _ l p r =>
      match g p with
      | Lt => tbelow key g r
                (if largest =? 0 then p
                 else match cmp key p largest with Gt => p | _ => largest end)
      | _ => tbelow key g l largest
      end
  end.

Section SearchFun.
Context (key : Z → list Z) (key_inj : ∀ p q, key p = key q → p = q).
Context (g : Z → comparison).

Lemma monotone_sub D D' : monotone key D g → D' ⊆ D → monotone key D' g.
Proof using Type. intros H Hs p q Hp Hq. apply H; auto. Qed.

Lemma tsearch_spec t :
  sorted key (elems t) → monotone key (elems t) g → (∀ p, p ∈ elems t → p ≠ 0) →
  (tsearch g t ≠ 0 → tsearch g t ∈ elems t ∧ g (tsearch g t) = Eq) ∧
  (tsearch g t = 0 → ∀ p, p ∈ elems t → g p ≠ Eq).
Proof using key_inj.
  induction t as [|lv l IHl p r IHr]; intros Hs Hm Hnz.
  { split; [done|]. intros _ p Hp. by apply elem_of_nil in Hp. }
  destruct (sorted_mid key key_inj _ _ _ Hs) as (Hsl & Hsr & Hlp & Hpr & _).
  assert (p ∈ elems (Node lv l p r)) as Hp by (cbn; set_solver).
  assert (elems l ⊆ elems (Node lv l p r)) as Sl by (cbn; set_solver).
  assert (elems r ⊆ elems (Node lv l p r)) as Sr by (cbn; set_solver).
  cbn [tsearch]. destruct (g p) eqn:E.
  - split; [done|]. intros ->. by destruct (Hnz 0 Hp).
  - destruct (IHr Hsr (monotone_sub _ _ Hm Sr)) as [H1 H2]; [auto|]. split.
    + intros Hne. destruct (H1 Hne). auto.
    + intros Hz q Hq. cbn in Hq. apply elem_of_app in Hq as [Hq|[->|Hq]%elem_of_cons].
      * rewrite (proj2 (Hm q p (Sl q Hq) Hp (Hlp q Hq)) E). done.
      * by rewrite E.
      * auto.
  - destruct (IHl Hsl (monotone_sub _ _ Hm Sl)) as [H1 H2]; [auto|]. split.
    + intros Hne. destruct (H1 Hne). auto.
    + intros Hz q Hq. cbn in Hq. apply elem_of_app in Hq as [Hq|[->|Hq]%elem_of_cons].
      * auto.
      * by rewrite E.
      * by rewrite (proj1 (Hm p q Hp (Sr q Hq) (Hpr q Hq)) E).
Qed.

(** [tbelow] keeps the best slot seen so far and otherwise finds the
    greatest slot below the target. *)
Lemma tbelow_spec t b :
  sorted key (elems t) → monotone key (elems t) g → (∀ p, p ∈ elems t → p ≠ 0) →
  (b ≠ 0 → ∀ p, p ∈ elems t → klt key b p) →
  let q := tbelow key g t b in
  (q ∈ elems t ∧ g q = Lt ∧ ∀ p, p ∈ elems t → g p = Lt → p = q ∨ klt key p q) ∨
  (q = b ∧ ∀ p, p ∈ elems t → g p ≠ Lt).
Proof using key_inj.
  revert b. induction t as [|lv l IHl p r IHr]; intros b Hs Hm Hnz Hb.
  { right. split; [done|]. intros p Hp. by apply elem_of_nil in Hp. }
  destruct (sorted_mid key key_inj _ _ _ Hs) as (Hsl & Hsr & Hlp & Hpr & Hlr).
  assert (p ∈ elems (Node lv l p r)) as Hp by (cbn; set_solver).
  assert (elems l ⊆ elems (Node lv l p r)) as Sl by (cbn; set_solver).
  assert (elems r ⊆ elems (Node lv l p r)) as Sr by (cbn; set_solver).
  cbn [tbelow]. destruct (g p) eqn:E.
  2:{ assert ((if b =? 0 then p else match cmp key p b with Gt => p | _ => b end) = p) as ->.
      { destruct (Z.eqb_spec b 0); [done|].
        by rewrite (proj2 (cmp_Gt key p b) (Hb n p Hp)). }
      destruct (IHr p Hsr (monotone_sub _ _ Hm Sr)) as [(Hq & Hg & Hmax)|(-> & Hno)]; [auto|auto|..].
      - left. split_and!; [by apply Sr|done|]. intros y Hy Hgy.
        cbn in Hy. apply elem_of_app in Hy as [Hy|[->|Hy]%elem_of_cons]; [| |auto]; right.
        + by apply Hlr.
        + by apply Hpr.
      - left. split_and!; [done|done|]. intros y Hy Hgy.
        cbn in Hy. apply elem_of_app in Hy as [Hy|[->|Hy]%elem_of_cons]; [auto|auto|].
        exfalso. by apply (Hno y). }
  all: destruct (IHl b Hsl (monotone_sub _ _ Hm Sl)) as [(Hq & Hg & Hmax)|(-> & Hno)]; [auto|auto|..].
  all: assert (∀ y, y ∈ elems r → g y ≠ Lt) as Hr
    by (intros y Hy Hl; by rewrite (proj2 (Hm p y Hp (Sr y Hy) (Hpr y Hy)) Hl) in E).
  all: first [left; split_and!; [by apply Sl|done|]|right; split; [done|]];
    intros y Hy; cbn in Hy;
    apply elem_of_app in Hy as [Hy|[->|Hy]%elem_of_cons]; try congruence; auto.
  all: intros Hgy; exfalso; by apply (Hr y).
Qed.
End SearchFun.

Section Search.
Context (s : kstate) (t : tree) (H : cdt_tree s t).
Context (tie : tie_comp_t) (hyp : slot) (g : Z → comparison).
Context (Hg : ∀ p c, p ∈ elems t → ks_cte s !! p = Some c →
                     compSlotWith (p, c) hyp tie = Some (g p)).
Let key := hkey (ks_cte s).

Lemma search_loop_spec fuel : ∀ u,
  u ≠ Leaf → elems u ⊆ elems t → tree_at (ks_cte s) (troot u) u → (height u ≤ fuel)%nat →
  search_loop fuel tie hyp (troot u) s = Ok (tsearch g u) s.
Proof using H Hg.
  induction fuel as [|fuel IH]; intros u Hn Hu Ht Hf;
    (destruct u as [|lv l p r]; [done|]); cbn [height] in Hf; [lia|].
  cbn [search_loop troot tsearch].
  assert (p ∈ elems t) as Hp by (apply Hu; cbn; set_solver).
  destruct (ct_lookup _ _ H p Hp) as [c Hc]. kload.
  rewrite (kopt_Some _ _ _ _ (Hg p c Hp Hc)).
  destruct (g p); [done|..].
  - pose proof (getRight_root s p lv l r Ht) as E1. kstep.
    pose proof (tree_at_right_child _ _ _ _ _ Ht) as Tr.
    destruct (decide (r = Leaf)) as [->|Hr]; [done|].
    rewrite (slot_ok_nonzero (troot r)) by by eapply troot_slot_ok.
    apply IH; [done|cbn in Hu; set_solver|done|lia].
  - pose proof (getLeft_root s p lv l r Ht) as E1. kstep.
    pose proof (tree_at_left_child _ _ _ _ _ Ht) as Tl.
    destruct (decide (l = Leaf)) as [->|Hl]; [done|].
    rewrite (slot_ok_nonzero (troot l)) by by eapply troot_slot_ok.
    apply IH; [done|cbn in Hu; set_solver|done|lia].
Qed.

Lemma from_below_loop_spec fuel : ∀ u b,
  u ≠ Leaf → elems u ⊆ elems t → (b = 0 ∨ b ∈ elems t) →
  tree_at (ks_cte s) (troot u) u → (height u ≤ fuel)%nat →
  from_below_loop fuel tie hyp (troot u) b s = Ok (tbelow key g u b) s.
Proof using H Hg.
  induction fuel as [|fuel IH]; intros u b Hn Hu Hb Ht Hf;
    (destruct u as [|lv l p r]; [done|]); cbn [height] in Hf; [lia|].
  cbn [from_below_loop troot tbelow].
  assert (p ∈ elems t) as Hp by (apply Hu; cbn; set_solver).
  destruct (ct_lookup _ _ H p Hp) as [c Hc]. kload.
  rewrite (kopt_Some _ _ _ _ (Hg p c Hp Hc)).
  assert ((let! next := getLeft p in
           if next =? 0 then kret b else from_below_loop fuel tie hyp next b) s =
          Ok (tbelow key g l b) s) as Hleft.
  { pose proof (getLeft_root s p lv l r Ht) as E1. kstep.
    pose proof (tree_at_left_child _ _ _ _ _ Ht) as Tl.
    destruct (decide (l = Leaf)) as [->|Hl]; [done|].
    rewrite (slot_ok_nonzero (troot l)) by by eapply troot_slot_ok.
    apply IH; [done|cbn in Hu; set_solver|done|done|lia]. }
  destruct (g p); [done| |done].
  pose proof (getRight_root s p lv l r Ht) as E1. kstep.
  set (b' := if b =? 0 then p else match cmp key p b with Gt => p | _ => b end).
  rewrite (kbind_Ok _ _ s s b').
  2:{ subst b'. destruct Hb as [->|Hb]; [done|]. rewrite (ct_nonzero _ _ H b Hb).
      by rewrite (kbind_Ok _ _ _ _ _ (ct_cmp s t H p b Hp Hb)). }
  pose proof (tree_at_right_child _ _ _ _ _ Ht) as Tr.
  destruct (decide (r = Leaf)) as [->|Hr]; [done|].
  rewrite (slot_ok_nonzero (troot r)) by by eapply troot_slot_ok.
  apply IH; [done|cbn in Hu; set_solver| |done|lia].
  right. subst b'. destruct Hb as [->|Hb]; [done|].
  destruct (b =? 0); [done|]. by destruct (cmp key p b).
Qed.

Lemma aaFindFromBelow_spec :
  t ≠ Leaf → monotone key (elems t) g →
  ∃ q, aaFindFromBelow hyp tie s = Ok q s ∧
    ((q ∈ elems t ∧ g q = Lt ∧ ∀ p, p ∈ elems t → g p = Lt → p = q ∨ klt key p q) ∨
     (q = 0 ∧ ∀ p, p ∈ elems t → g p ≠ Lt)).
Proof using H Hg.
  intros Hn Hm. exists (tbelow key g t 0). split.
  - unfold aaFindFromBelow. do 2 kstep. rewrite (ct_root _ _ H).
    apply from_below_loop_spec; [done|done|by left|by eapply ct_tree_at|].
    pose proof (ct_height _ _ H). lia.
  - apply (tbelow_spec key (hkey_inj _)); [apply H|done| |done].
    intros p Hp. apply Z.eqb_neq. by eapply ct_nonzero.
Qed.
End Search.
