(* ===== verification/CdtSpec.v ===== *)
(** * What the derivation tree promises

    The searches and the finality test of [cdt.c], stated on the in-order
    sequence of the tree: which slot a search returns, when it returns NULL,
    and that looking at the two neighbours decides finality.  And a checker of
    the tree's invariant, for the witnesses. *)

From S2P Require Import Prelude.
From Stdlib Require Import Sorting.Sorted.
From S2P Require Import Word32.
From S2P Require Import Structures.
From S2P Require Import State.
From S2P Require Import CdtOrder.
From S2P Require Import AATree.
From S2P Require Import CapOps.
From S2P Require Import Cdt.
From S2P Require Import CdtProofs.
From S2P Require Import CdtInv.
From S2P Require Import CdtWalk.

(** ** Prefixes of sorted keys *)
Lemma lex_app_Lt xs ys us vs :
  length xs = length ys → lex (xs ++ us) (ys ++ vs) = Lt → lex xs ys = Lt ∨ xs = ys.
Proof.
  revert ys. induction xs as [|x xs IH]; intros [|y ys]; try done; [by right|].
  intros [= Hl]. cbn. destruct (Z.compare_spec x y) as [->| |]; try done; [|by left].
  intros Hlt. destruct (IH ys Hl Hlt) as [?| ->]; [by left|by right].
Qed.

Lemma lex_Lt_Gt xs ys zs : (lex xs ys = Lt ∨ xs = ys) → lex xs zs = Gt → lex ys zs = Gt.
Proof.
  intros [H| ->]; [|done]. rewrite (lex_antisym zs ys), (lex_antisym zs xs).
  intros Hg. assert (lex zs xs = Lt) as Hlt by (by destruct (lex zs xs)).
  by rewrite (lex_trans _ _ _ Hlt H).
Qed.

Lemma lex_Lt_Lt xs ys zs : (lex xs ys = Lt ∨ xs = ys) → lex ys zs = Lt → lex xs zs = Lt.
Proof. intros [H| ->]; [|done]. by apply lex_trans. Qed.

(** A key lying between two keys with a common prefix has that prefix too. *)
Lemma lex_sandwich n xs ys zs :
  length xs = length ys → length zs = length xs →
  lex xs zs = Lt → lex zs ys = Lt → take n xs = take n ys → take n zs = take n xs.
Proof.
  revert xs ys zs. induction n as [|n IH]; intros [|x xs] [|y ys] [|z zs]; try done.
  cbn. intros [= Hl1] [= Hl2] H1 H2 [= -> E].
  destruct (Z.compare_spec y z) as [->|H|H]; try done.
  - rewrite Z.compare_refl in H2. f_equal. by apply (IH xs ys zs).
  - exfalso. destruct (Z.compare_spec z y); try done; lia.
Qed.

(** The slot at [p] with its contents in the heap. *)
Definition slot_of (h : gmap Z cte_t) (p : Z) : slot := (p, default null_cte (h !! p)).

Lemma slot_of_Some h p c : h !! p = Some c → slot_of h p = (p, c).
Proof. unfold slot_of. by intros ->. Qed.

Section Spec.
Context (s : kstate) (t : tree) (H : cdt_tree s t).
#[local] Abbreviation key := (hkey (ks_cte s)).
#[local] Abbreviation sl := (slot_of (ks_cte s)).

Lemma key_slot p : p ∈ elems t → key p = slot_key (sl p).
Proof using H.
  intros Hp. destruct (ct_lookup _ _ H p Hp) as [c Hc].
  unfold hkey. by rewrite Hc, (slot_of_Some _ _ _ Hc).
Qed.

Lemma slot_cap_ok p : p ∈ elems t → cdt_cap (slot_cap (sl p)) = true.
Proof using H.
  intros Hp. destruct (ct_ok _ _ H) as [Hok _]. destruct (Hok p Hp) as (c & Hc & ?).
  by rewrite (slot_of_Some _ _ _ Hc).
Qed.

Lemma slots_agree p q :
  p ∈ elems t → q ∈ elems t → types_agree (slot_cap (sl p)) (slot_cap (sl q)).
Proof using H.
  intros Hp Hq. destruct (ct_ok _ _ H) as [_ Hok].
  destruct (ct_lookup _ _ H p Hp) as [cp Hcp]. destruct (ct_lookup _ _ H q Hq) as [cq Hcq].
  rewrite (slot_of_Some _ _ _ Hcp), (slot_of_Some _ _ _ Hcq).
  by apply (Hok p q).
Qed.

(** Comparing a prefix of the key with a target is monotone along the tree. *)
Lemma prefix_monotone (pre : Z → list Z) (suf : Z → list Z) (n : nat) target φ :
  (∀ p, p ∈ elems t → key p = pre p ++ suf p ∧ length (pre p) = n) →
  (∀ c, φ c = Gt ↔ c = Gt) → (φ Lt = Lt) →
  (φ Eq ≠ Eq → φ Eq = Lt) →
  monotone key (elems t) (λ p, φ (lex (pre p) target)).
Proof using Type.
  intros Hpre Hgt Hlt Heq p q Hp Hq Hpq. unfold klt, cmp in Hpq.
  destruct (Hpre p Hp) as [Ep Lp], (Hpre q Hq) as [Eq Lq]. rewrite Ep, Eq in Hpq.
  apply lex_app_Lt in Hpq; [|congruence]. split.
  - rewrite !Hgt. by apply lex_Lt_Gt.
  - intros Hq'. destruct (lex (pre q) target) eqn:E.
    + apply lex_Eq in E. destruct Hpq as [Hl|Hl]; [by rewrite <- E, Hl|].
      rewrite Hl, E. by rewrite lex_refl.
    + by rewrite (lex_Lt_Lt _ _ _ Hpq E).
    + by rewrite (proj2 (Hgt Gt) eq_refl) in Hq'.
Qed.

Lemma search_key_length x : length (search_key x) = 5%nat.
Proof using Type.
  pose proof (slot_key_length x) as E. rewrite slot_key_search, length_app in E.
  cbn in E. lia.
Qed.

Lemma cap_prefix_length c : length (cap_prefix c) = 3%nat.
Proof using Type. by destruct (cap_prefix_3 c) as (?&?&?&->). Qed.

Lemma search_key_monotone target φ :
  (∀ c, φ c = Gt ↔ c = Gt) → φ Lt = Lt → (φ Eq ≠ Eq → φ Eq = Lt) →
  monotone key (elems t) (λ p, φ (lex (search_key (sl p)) target)).
Proof using H.
  apply (prefix_monotone (λ p, search_key (sl p)) (λ p, [p]) 5).
  intros p Hp. rewrite key_slot, slot_key_search by done. split; [done|apply search_key_length].
Qed.

Lemma cap_prefix_monotone target φ :
  (∀ c, φ c = Gt ↔ c = Gt) → φ Lt = Lt → (φ Eq ≠ Eq → φ Eq = Lt) →
  monotone key (elems t) (λ p, φ (lex (cap_prefix (slot_cap (sl p))) target)).
Proof using H.
  apply (prefix_monotone (λ p, cap_prefix (slot_cap (sl p)))
           (λ p, [slot_depth (sl p); cap_extra (slot_cap (sl p)); p]) 3).
  intros p Hp. rewrite key_slot by done. split; [done|apply cap_prefix_length].
Qed.

Lemma tree_not_empty x : x ∈ elems t → t ≠ Leaf.
Proof using Type. intros Hx E. rewrite E in Hx. by apply elem_of_nil in Hx. Qed.

(** ** Exact search *)
Lemma cdtFindAtDepth_Ok cap d :
  t ≠ Leaf → joins (ks_cte s) (elems t) cap →
  let target := search_key (hypothetical_slot cap d) in
  ∃ q, cdtFindAtDepth cap d s = Ok q s ∧
    (q ≠ 0 → q ∈ elems t ∧ search_key (sl q) = target) ∧
    (q = 0 → ∀ p, p ∈ elems t → search_key (sl p) ≠ target).
Proof using H.
  intros Hn (J1 & J2 & J3) target.
  set (g := λ p, lex (search_key (sl p)) target).
  exists (tsearch g t). split.
  - unfold cdtFindAtDepth. do 2 kstep. rewrite (ct_root _ _ H).
    apply (search_loop_spec s t H).
    + intros p c Hp Hc. rewrite compSlotWith_slot_eq.
      * unfold g. by rewrite (slot_of_Some _ _ _ Hc).
      * pose proof (slot_cap_ok p Hp) as E. by rewrite (slot_of_Some _ _ _ Hc) in E.
      * done.
      * apply types_agree_sym. by apply (J3 p c).
    + done.
    + done.
    + by eapply ct_tree_at.
    + pose proof (ct_height _ _ H). lia.
  - destruct (tsearch_spec key (hkey_inj _) g t) as [S1 S2].
    + apply H.
    + by apply (search_key_monotone target id).
    + intros p Hp. apply Z.eqb_neq. by eapply ct_nonzero.
    + split.
      * intros Hq. destruct (S1 Hq) as [? E]. split; [done|]. by apply lex_Eq.
      * intros Hq p Hp Ep. apply (S2 Hq p Hp). unfold g. by apply lex_Eq.
Qed.

(** ** Search from below *)
Lemma findFromBelow_Ok cap d :
  t ≠ Leaf → joins (ks_cte s) (elems t) cap →
  ∃ q, aaFindFromBelow (hypothetical_slot cap d) largest_child_comparator s = Ok q s ∧
    ((q ∈ elems t ∧ lex (cap_prefix (slot_cap (sl q))) (cap_prefix cap) ≠ Gt ∧
      ∀ p, p ∈ elems t → lex (cap_prefix (slot_cap (sl p))) (cap_prefix cap) ≠ Gt →
        p = q ∨ klt key p q) ∨
     (q = 0 ∧ ∀ p, p ∈ elems t → lex (cap_prefix (slot_cap (sl p))) (cap_prefix cap) = Gt)).
Proof using H.
  intros Hn (J1 & J2 & J3).
  set (φ := λ c, match c with Eq => Lt | c => c end).
  set (g := λ p, φ (lex (cap_prefix (slot_cap (sl p))) (cap_prefix cap))).
  assert (∀ p, g p = Lt ↔ lex (cap_prefix (slot_cap (sl p))) (cap_prefix cap) ≠ Gt) as Hg.
  { intros p. unfold g, φ. by destruct (lex _ _). }
  destruct (aaFindFromBelow_spec s t H largest_child_comparator (hypothetical_slot cap d) g)
    as (q & E & Hq).
  - intros p c Hp Hc. rewrite compSlotWith_largest_child.
    + unfold g, φ. rewrite (slot_of_Some _ _ _ Hc). by destruct (lex _ _).
    + pose proof (slot_cap_ok p Hp) as E. by rewrite (slot_of_Some _ _ _ Hc) in E.
    + done.
    + apply types_agree_sym. by apply (J3 p c).
  - done.
  - apply (cap_prefix_monotone (cap_prefix cap) φ); [intros []; unfold φ; split; done|done|done].
  - exists q. split; [done|]. destruct Hq as [(Q1 & Q2 & Q3)|[Q1 Q2]].
    + left. split_and!; [done|by apply Hg|]. intros p Hp Hl. apply Q3; [done|by apply Hg].
    + right. split; [done|]. intros p Hp. specialize (Q2 p Hp). rewrite Hg in Q2.
      destruct (lex _ _); try done; by destruct Q2.
Qed.
End Spec.

(** ** Finality *)

(** How much of the prefix identifies the object: all of it, except that
    typed capabilities to one object may carry different badges. *)
Definition oid_len (c : cap_t) : nat :=
  match cap_get_capSpaceType c with Some 1 => 2 | _ => 3 end.
Definition oid (c : cap_t) : list Z := take (oid_len c) (cap_prefix c).

Lemma sameObjectAs_total a b : ∃ r, sameObjectAs a b = Some r.
Proof. destruct a, b; cbn; eauto. Qed.

Lemma sameObjectAs_prefix a b :
  cdt_cap a = true → cdt_cap b = true → sameObjectAs a b = Some true →
  oid_len a = oid_len b ∧ oid a = oid b.
Proof.
  intros [Ha _]%cdt_cap_spec [Hb _]%cdt_cap_spec.
  destruct a, b; cbn in Ha, Hb; try (by destruct Ha); try (by destruct Hb); try done;
    intros [= E]; rewrite ?andb_true_iff, ?Z.eqb_eq in E;
    unfold oid, oid_len; cbn -[TCB_PTR_CTE_PTR]; split; try done; destruct_and?; by subst.
Qed.

(** Distinct slots at one address in typed memory designate one object. *)
Definition objects_agree (h : gmap Z cte_t) (D : list Z) : Prop :=
  ∀ p q cp cq, p ∈ D → q ∈ D → p ≠ q → h !! p = Some cp → h !! q = Some cq →
    cap_get_capSpaceType (cteCap cp) = Some capSpaceTypedMemory →
    cap_get_capSpaceType (cteCap cq) = Some capSpaceTypedMemory →
    cap_get_capPtr (cteCap cp) = cap_get_capPtr (cteCap cq) →
    sameObjectAs (cteCap cp) (cteCap cq) = Some true.

(** The slots whose identity prefix is that of a non-untyped [b], other than
    an IRQ control slot, are to the same object. *)
Lemma oid_sameObject a b :
  cdt_cap a = true → cdt_cap b = true → take (oid_len b) (cap_prefix a) = oid b →
  (cap_get_capSpaceType a = Some capSpaceTypedMemory →
   cap_get_capSpaceType b = Some capSpaceTypedMemory →
   cap_get_capPtr a = cap_get_capPtr b → sameObjectAs a b = Some true) →
  cap_get_capSpaceType b ≠ Some capSpaceUntypedMemory →
  sameObjectAs a b = Some true.
Proof.
  intros [Ha _]%cdt_cap_spec [Hb _]%cdt_cap_spec Ho Hagr Hu. unfold oid, oid_len in *.
  destruct a, b; cbn in Ha, Hb, Ho, Hu;
    try (by destruct Ha); try (by destruct Hb); try (by destruct Hu); try done;
    try (apply Hagr; [done|done|]; cbn -[TCB_PTR_CTE_PTR]; congruence).
  injection Ho as ->. cbn. by rewrite Z.eqb_refl.
Qed.

Section Final.
Context (s : kstate) (t : tree) (H : cdt_tree s t).
Context (Hobj : objects_agree (ks_cte s) (elems t)).
#[local] Abbreviation key := (hkey (ks_cte s)).

Lemma take_key p c n :
  ks_cte s !! p = Some c → (n ≤ 3)%nat → take n (key p) = take n (cap_prefix (cteCap c)).
Proof using Type.
  intros Hc Hn. unfold hkey. rewrite Hc. unfold slot_key.
  rewrite take_app_le; [done|]. by rewrite cap_prefix_length.
Qed.

Lemma key_length p c : ks_cte s !! p = Some c → length (key p) = 6%nat.
Proof using Type. intros Hc. unfold hkey. rewrite Hc. apply slot_key_length. Qed.

Lemma oid_len_le c : (oid_len c ≤ 3)%nat.
Proof using Type. unfold oid_len. destruct c; cbn; lia. Qed.

(** If a slot [y] beyond [z] is to the object of [x], so is [z]. *)
Lemma same_between x y z cx cy cz :
  x ∈ elems t → z ∈ elems t → y ∈ elems t → z ≠ x →
  ks_cte s !! x = Some cx → ks_cte s !! y = Some cy → ks_cte s !! z = Some cz →
  (klt key x z ∧ klt key z y ∨ klt key y z ∧ klt key z x) →
  sameObjectAs (cteCap cy) (cteCap cx) = Some true →
  sameObjectAs (cteCap cz) (cteCap cx) = Some true.
Proof using H Hobj.
  intros Hx Hz Hy Hzx Ecx Ecy Ecz Hbetween Hsame.
  destruct (ct_ok _ _ H) as [Hok _].
  destruct (Hok x Hx) as (? & ? & Cx), (Hok y Hy) as (? & ? & Cy), (Hok z Hz) as (? & ? & Cz).
  simplify_eq. destruct (sameObjectAs_prefix _ _ Cy Cx Hsame) as [El Eo].
  set (n := oid_len (cteCap cx)) in *. pose proof (oid_len_le (cteCap cx)) as Hn. fold n in Hn.
  assert (take n (key x) = take n (key y)) as Exy.
  { rewrite (take_key x cx n Ecx Hn), (take_key y cy n Ecy Hn).
    unfold oid in Eo. rewrite El in Eo. symmetry. exact Eo. }
  assert (take n (key z) = take n (key x)) as Ezx.
  { pose proof (key_length x cx Ecx). pose proof (key_length y cy Ecy).
    pose proof (key_length z cz Ecz).
    destruct Hbetween as [[K1 K2]|[K1 K2]].
    - apply (lex_sandwich n _ (key y)); try done; congruence.
    - rewrite Exy. apply (lex_sandwich n _ (key x)); try done; congruence. }
  apply oid_sameObject; [done|done| | |].
  - rewrite (take_key z cz n Ecz Hn), (take_key x cx n Ecx Hn) in Ezx. exact Ezx.
  - intros. by apply (Hobj z x).
  - intros Hu. destruct (cteCap cx); try done. unfold oid, oid_len in Eo, El.
    destruct (cteCap cy); try done.
Qed.

Lemma neighbour_same x z cx :
  x ∈ elems t → ks_cte s !! x = Some cx →
  (z = 0 ∨ z ∈ elems t) →
  ∃ r, (if z =? 0 then kret false else
        let! c := getCap z in kopt (sameObjectAs c (cteCap cx))) s = Ok r s ∧
    (r = true ↔ ∃ cz, z ∈ elems t ∧ ks_cte s !! z = Some cz ∧
                      sameObjectAs (cteCap cz) (cteCap cx) = Some true).
Proof using H.
  intros Hx Ecx [->|Hz].
  - exists false. split; [done|]. split; [done|]. intros (cz & Hz & _).
    by apply (ct_nonzero _ _ H) in Hz.
  - destruct (ct_lookup _ _ H z Hz) as [cz Ecz].
    destruct (sameObjectAs_total (cteCap cz) (cteCap cx)) as [r Er].
    exists r. rewrite (ct_nonzero _ _ H z Hz). kload. rewrite Er. split; [done|].
    split; [intros ->; eauto|]. intros (cz' & _ & E' & Es). simplify_eq. congruence.
Qed.

(** The neighbour decides for its whole side of the sequence. *)
Lemma forward_decides x cx l1 l2 r :
  elems t = l1 ++ x :: l2 → ks_cte s !! x = Some cx →
  (r = true ↔ ∃ cz, hd 0 l2 ∈ elems t ∧ ks_cte s !! hd 0 l2 = Some cz ∧
                    sameObjectAs (cteCap cz) (cteCap cx) = Some true) →
  (r = false ↔ ∀ y cy, y ∈ l2 → ks_cte s !! y = Some cy →
                       sameObjectAs (cteCap cy) (cteCap cx) ≠ Some true).
Proof using H Hobj.
  intros Hel Ecx R. pose proof (hkey_inj (ks_cte s)) as Hinj.
  pose proof (ct_sorted _ _ H) as Hs. rewrite Hel in Hs.
  destruct (sorted_mid _ Hinj _ _ _ Hs) as (_ & Hs2 & _ & Hgt & _).
  assert (∀ y, y ∈ l2 → y ∈ elems t) as Hin by (rewrite Hel; set_solver).
  assert (x ∈ elems t) as Hx by (rewrite Hel; set_solver).
  destruct l2 as [|z l2]; cbn [hd] in R.
  { split; [set_solver|]. intros _. destruct r; [|done].
    destruct R as [R _]. destruct (R eq_refl) as (? & Hz & _). by apply (ct_nonzero _ _ H) in Hz. }
  assert (z ∈ elems t) as Hz by (apply Hin; set_solver).
  destruct (ct_lookup _ _ H z Hz) as [cz Ecz].
  assert (klt key x z) as Hxz by (apply Hgt; set_solver). split.
  - intros -> y cy Hy Ecy Hsame. enough (false = true) by done. apply R.
    exists cz. split_and!; [done|done|]. apply elem_of_cons in Hy as [->|Hy]; [naive_solver|].
    apply (same_between x y z cx cy cz); try done.
    + apply Hin. set_solver.
    + intros ->. by apply (klt_irrefl _ Hinj x).
    + left. split; [done|]. destruct (sorted_mid _ Hinj [] _ _ Hs2) as (_&_&_&K&_). auto.
  - intros Hall. destruct r; [|done]. destruct R as [R _].
    destruct (R eq_refl) as (c & _ & Ec & Es). exfalso. apply (Hall z c); [set_solver|done|done].
Qed.

Lemma backward_decides x cx l1 l2 r :
  elems t = l1 ++ x :: l2 → ks_cte s !! x = Some cx →
  (r = true ↔ ∃ cz, List.last l1 0 ∈ elems t ∧ ks_cte s !! List.last l1 0 = Some cz ∧
                    sameObjectAs (cteCap cz) (cteCap cx) = Some true) →
  (r = false ↔ ∀ y cy, y ∈ l1 → ks_cte s !! y = Some cy →
                       sameObjectAs (cteCap cy) (cteCap cx) ≠ Some true).
Proof using H Hobj.
  intros Hel Ecx R. pose proof (hkey_inj (ks_cte s)) as Hinj.
  pose proof (ct_sorted _ _ H) as Hs. rewrite Hel in Hs.
  destruct (sorted_mid _ Hinj _ _ _ Hs) as (Hs1 & _ & Hlt & _).
  assert (∀ y, y ∈ l1 → y ∈ elems t) as Hin by (rewrite Hel; set_solver).
  assert (x ∈ elems t) as Hx by (rewrite Hel; set_solver).
  destruct l1 as [|z l1 _] using rev_ind.
  { split; [set_solver|]. intros _. destruct r; [|done].
    destruct R as [R _]. destruct (R eq_refl) as (? & Hz & _). by apply (ct_nonzero _ _ H) in Hz. }
  rewrite last_last in R. assert (z ∈ elems t) as Hz by (apply Hin; set_solver).
  destruct (ct_lookup _ _ H z Hz) as [cz Ecz].
  assert (klt key z x) as Hzx by (apply Hlt; set_solver). split.
  - intros -> y cy Hy Ecy Hsame. enough (false = true) by done. apply R.
    exists cz. split_and!; [done|done|].
    apply elem_of_app in Hy as [Hy|Hy%list_elem_of_singleton]; [|naive_solver].
    apply (same_between x y z cx cy cz); try done.
    + apply Hin. set_solver.
    + intros ->. by apply (klt_irrefl _ Hinj x).
    + right. split; [|done]. destruct (sorted_mid _ Hinj _ _ _ Hs1) as (_&_&K&_). auto.
  - intros Hall. destruct r; [|done]. destruct R as [R _].
    destruct (R eq_refl) as (c & _ & Ec & Es). exfalso. apply (Hall z c); [set_solver|done|done].
Qed.

Lemma cdtIsFinal_Ok x cx :
  x ∈ elems t → ks_cte s !! x = Some cx →
  ∃ b, cdtIsFinal x s = Ok b s ∧
    (b = true ↔ ∀ y cy, y ∈ elems t → y ≠ x → ks_cte s !! y = Some cy →
                        sameObjectAs (cteCap cy) (cteCap cx) ≠ Some true).
Proof using H Hobj.
  intros Hx Ecx. destruct (list_elem_of_split _ _ Hx) as (l1 & l2 & Hel).
  pose proof (ct_NoDup _ _ H) as Hnd. rewrite Hel in Hnd.
  apply NoDup_app_cons_inv in Hnd as (N1 & N2 & _).
  destruct (neighbour_same x (hd 0 l2) cx Hx Ecx) as (r1 & E1 & R1).
  { destruct l2 as [|z l2]; [by left|right]. rewrite Hel. set_solver. }
  destruct (neighbour_same x (List.last l1 0) cx Hx Ecx) as (r2 & E2 & R2).
  { destruct l1 as [|z l1 _] using rev_ind; [by left|right]. rewrite last_last, Hel. set_solver. }
  pose proof (forward_decides x cx l1 l2 r1 Hel Ecx R1) as F1.
  pose proof (backward_decides x cx l1 l2 r2 Hel Ecx R2) as F2.
  exists (negb (r1 || r2)). split.
  { unfold cdtIsFinal. kload.
    rewrite (kbind_Ok _ _ _ _ _ (aaTraverseForward_spec s t H x l1 l2 Hel)); cbv beta. kstep.
    destruct r1; [done|].
    rewrite (kbind_Ok _ _ _ _ _ (aaTraverseBackward_spec s t H x l1 l2 Hel)); cbv beta.
    by kstep. }
  rewrite negb_true_iff, orb_false_iff, F1, F2, Hel. split.
  - intros [K1 K2] y cy Hy Hne. apply elem_of_app in Hy as [?|[->|?]%elem_of_cons]; eauto.
  - intros Hall. split; intros y cy Hy; apply Hall; try (intros ->; done); set_solver.
Qed.
End Final.

(** ** Children *)

(** [r] is a child of [p] in the order: strictly greater than [p] without
    regard to slot addresses, and not beyond the largest child [L] of [p]. *)
Definition cdt_child (h : gmap Z cte_t) (L : cap_t) (p r : Z) : Prop :=
  lex (search_key (slot_of h p)) (search_key (slot_of h r)) = Lt ∧
  lex (cap_prefix (slot_cap (slot_of h r))) (cap_prefix L) ≠ Gt.

(** Endpoint addresses are stored without their low four bits. *)
Definition cap_ptr_ok (c : cap_t) : Prop :=
  match c with
  | cap_endpoint_cap _ _ _ _ ptr | cap_async_endpoint_cap _ _ _ ptr => field_high 28 ptr = ptr
  | _ => True
  end.

Lemma build_largest_child_agree c L d :
  cap_ptr_ok c → build_largest_child c = Some L → types_agree c d → types_agree L d.
Proof.
  unfold types_agree. intros Hok HL Hcd H1 H2 H3.
  destruct c; cbn in HL, Hok; try done; repeat case_match; simplify_eq; try done;
    try (by apply Hcd);
    unfold cap_endpoint_cap_new, cap_async_endpoint_cap_new in *;
    cbn [cap_get_capType cap_get_capPtr cap_get_capSpaceType] in *;
    rewrite Hok in H3; by apply Hcd.
Qed.

Lemma build_largest_child_cdt_cap c L :
  cdt_cap c = true → build_largest_child c = Some L → cdt_cap L = true.
Proof.
  intros Hc HL. destruct c; cbn in HL; try done; repeat case_match; simplify_eq; try done.
Qed.

Section FindChild.
Context (s : kstate) (t : tree) (H : cdt_tree s t).
#[local] Abbreviation sl := (slot_of (ks_cte s)).

Lemma klt_search p q :
  p ∈ elems t → q ∈ elems t → klt (hkey (ks_cte s)) p q →
  lex (search_key (sl p)) (search_key (sl q)) = Lt ∨ search_key (sl p) = search_key (sl q).
Proof using H.
  intros Hp Hq Hpq. unfold klt, cmp in Hpq.
  rewrite (key_slot s t H p Hp), (key_slot s t H q Hq), !slot_key_search in Hpq.
  apply lex_app_Lt in Hpq; [done|]. by rewrite !search_key_length.
Qed.

Lemma _cdtFindChild_Ok p c L :
  p ∈ elems t → ks_cte s !! p = Some c → cap_ptr_ok (cteCap c) →
  build_largest_child (cteCap c) = Some L →
  ∃ q, _cdtFindChild p s = Ok q s ∧
    (q ≠ 0 → q ∈ elems t ∧ cdt_child (ks_cte s) L p q) ∧
    (q = 0 → ∀ r, r ∈ elems t → ¬ cdt_child (ks_cte s) L p r).
Proof using H.
  intros Hp Hc Hptr HL. pose proof (slot_cap_ok s t H p Hp) as Hcap.
  rewrite (slot_of_Some _ _ _ Hc) in Hcap. cbn in Hcap.
  assert (joins (ks_cte s) (elems t) L) as HJ.
  { split_and!; [by eapply build_largest_child_cdt_cap|apply types_agree_refl|].
    intros q cq Hq Hcq. eapply build_largest_child_agree; [done|done|].
    by apply (ct_ok _ _ H) with p q. }
  destruct (findFromBelow_Ok s t H L 0 (tree_not_empty t p Hp) HJ) as (q & E & Hq).
  unfold _cdtFindChild. kload. rewrite (kopt_Some _ _ _ _ HL). kstep.
  destruct Hq as [(Q1 & Q2 & Q3)|[-> Q2]].
  2:{ exists 0. split_and!; [done|done|]. intros _ r Hr [_ Hc2]. by apply Hc2, Q2. }
  rewrite (ct_nonzero s t H q Q1). destruct (ct_lookup _ _ H q Q1) as [cq Hcq]. kload.
  rewrite (kopt_Some _ _ _ _ (compSlotWith_slot_lt (q, cq) (p, c)
    ltac:(pose proof (slot_cap_ok s t H q Q1) as K; by rewrite (slot_of_Some _ _ _ Hcq) in K)
    Hcap ltac:(by apply (ct_ok _ _ H) with q p))).
  rewrite <- (slot_of_Some _ _ _ Hc), <- (slot_of_Some _ _ _ Hcq).
  rewrite (lex_antisym (search_key (sl p)) (search_key (sl q))).
  assert (∀ r, r ∈ elems t → cdt_child (ks_cte s) L p r →
    lex (search_key (sl p)) (search_key (sl q)) = Lt) as Hno.
  { intros r Hr [Hc1 Hc2]. destruct (Q3 r Hr Hc2) as [->|Hrq]; [done|].
    destruct (klt_search r q Hr Q1 Hrq) as [Hl| <-]; [by eapply lex_trans|done]. }
  destruct (lex (search_key (sl p)) (search_key (sl q))) eqn:El; cbn [CompOpp].
  - exists 0. split_and!; [done|done|]. intros _ r Hr Hch. by specialize (Hno r Hr Hch).
  - exists q. split_and!; [done|done|]. intros ->. by apply (ct_nonzero s t H) in Q1.
  - exists 0. split_and!; [done|done|]. intros _ r Hr Hch. by specialize (Hno r Hr Hch).
Qed.
End FindChild.

(** ** Checking the tree invariant on concrete states

    A boolean checker for [cdt_tree], sound for it, and a small concrete
    state: the witnesses of the theorems about the tree evaluate it. *)
Definition slot_okb (p : Z) : bool := (p mod 4 =? 0) && (0xE0000000 <? p) && (p <? 2 ^ 32).

Fixpoint tree_atb (h : gmap Z cte_t) (p : Z) (t : tree) : bool :=
  match t with
  | Leaf => p =? 0
  | Node lv l q r =>
      (p =? q) && slot_okb q &&
      match h !! q with
      | Some c => (c_level c =? lv) && tree_atb h (c_left c) l && tree_atb h (c_right c) r
      | None => false
      end
  end.

Fixpoint sortedb (key : Z → list Z) (xs : list Z) : bool :=
  match xs with
  | [] => true
  | x :: ys =>
      forallb (λ y, match cmp key x y with Lt => true | _ => false end) ys && sortedb key ys
  end.

Fixpoint aab (t : tree) : bool :=
  match t with
  | Leaf => true
  | Node lv l _ r =>
      (1 <=? lv) && (lvl l =? lv - 1) &&
      ((lvl r =? lv - 1) || (lvl r =? lv) && (lvl (tright r) =? lv - 1)) && aab l && aab r
  end.

Definition oeqb (a b : option Z) : bool :=
  match a, b with Some x, Some y => x =? y | None, None => true | _, _ => false end.

Definition types_agreeb (a b : cap_t) : bool :=
  if oeqb (cap_get_capSpaceType a) (Some capSpaceTypedMemory) &&
     oeqb (cap_get_capSpaceType b) (Some capSpaceTypedMemory) &&
     oeqb (cap_get_capPtr a) (cap_get_capPtr b)
  then cap_get_capType a =? cap_get_capType b else true.

Definition cap_at (h : gmap Z cte_t) (p : Z) : cap_t := cteCap (default null_cte (h !! p)).

Definition cdt_okb (h : gmap Z cte_t) (D : list Z) : bool :=
  forallb (λ p, match h !! p with Some c => cdt_cap (cteCap c) | None => false end) D &&
  forallb (λ p, forallb (λ q, types_agreeb (cap_at h p) (cap_at h q)) D) D.

Definition joinsb (h : gmap Z cte_t) (D : list Z) (cap : cap_t) : bool :=
  cdt_cap cap && forallb (λ q, types_agreeb cap (cap_at h q)) D.

Definition cdt_treeb (s : kstate) (t : tree) : bool :=
  tree_atb (ks_cte s) (ksRootCTE s) t && sortedb (hkey (ks_cte s)) (elems t) && aab t &&
  cdt_okb (ks_cte s) (elems t).

(** Reading the tree back from the heap. *)
Fixpoint read_tree (fuel : nat) (h : gmap Z cte_t) (p : Z) : tree :=
  match fuel with
  | O => Leaf
  | S fuel =>
      match h !! p with
      | Some c =>
          if p =? 0 then Leaf
          else Node (c_level c) (read_tree fuel h (c_left c)) p (read_tree fuel h (c_right c))
      | None => Leaf
      end
  end.
Definition cdt_of (s : kstate) : tree := read_tree (cdt_fuel s) (ks_cte s) (ksRootCTE s).

Lemma oeqb_eq a b : oeqb a b = true ↔ a = b.
Proof.
  destruct a, b; cbn; rewrite ?Z.eqb_eq; split; intros; simplify_eq; try done.
Qed.

Lemma slot_okb_sound p : slot_okb p = true → slot_ok p.
Proof. unfold slot_okb, slot_ok. rewrite !andb_true_iff, Z.eqb_eq, !Z.ltb_lt. tauto. Qed.

Lemma tree_atb_sound h t : ∀ p, tree_atb h p t = true → tree_at h p t.
Proof.
  induction t as [|lv l IHl q r IHr]; intros p; cbn; [apply Z.eqb_eq|].
  rewrite !andb_true_iff, Z.eqb_eq. intros [[-> Hq%slot_okb_sound] Hc].
  destruct (h !! q) as [c|]; [|done]. rewrite !andb_true_iff, Z.eqb_eq in Hc.
  destruct Hc as [[Hlv Hl] Hr]. split_and!; [done|done|]. exists c. auto.
Qed.

Lemma sortedb_sound key xs : sortedb key xs = true → sorted key xs.
Proof.
  induction xs as [|x ys IH]; cbn; [constructor|]. rewrite andb_true_iff, forallb_forall.
  intros [H1 H2]. constructor; [by apply IH|]. rewrite Forall_forall. intros y Hy.
  apply list_elem_of_In in Hy. specialize (H1 y Hy). unfold klt. by destruct (cmp key x y).
Qed.

Lemma aab_sound t : aab t = true → aa t.
Proof.
  induction t as [|lv l IHl p r IHr]; cbn; [done|].
  rewrite !andb_true_iff, orb_true_iff, andb_true_iff, !Z.eqb_eq, Z.leb_le. intuition lia.
Qed.

Lemma types_agreeb_sound a b : types_agreeb a b = true → types_agree a b.
Proof.
  unfold types_agreeb, types_agree. intros H H1 H2 H3.
  rewrite (proj2 (oeqb_eq _ _) H1), (proj2 (oeqb_eq _ _) H2), (proj2 (oeqb_eq _ _) H3) in H.
  by apply Z.eqb_eq.
Qed.

Lemma cdt_okb_sound h D : cdt_okb h D = true → cdt_ok h D.
Proof.
  unfold cdt_okb. rewrite andb_true_iff, !forallb_forall. intros [H1 H2]. split.
  - intros p Hp%list_elem_of_In. specialize (H1 p Hp). destruct (h !! p); eauto. done.
  - intros p q cp cq Hp%list_elem_of_In Hq%list_elem_of_In Ep Eq.
    specialize (H2 p Hp). rewrite forallb_forall in H2. specialize (H2 q Hq).
    unfold cap_at in H2. rewrite Ep, Eq in H2. by apply types_agreeb_sound.
Qed.

Lemma joinsb_sound h D cap : joinsb h D cap = true → joins h D cap.
Proof.
  unfold joinsb. rewrite andb_true_iff, forallb_forall. intros [H1 H2].
  split_and!; [done|apply types_agree_refl|]. intros q c Hq%list_elem_of_In E.
  specialize (H2 q Hq). unfold cap_at in H2. rewrite E in H2. by apply types_agreeb_sound.
Qed.

Lemma cdt_treeb_sound s t : cdt_treeb s t = true → cdt_tree s t.
Proof.
  unfold cdt_treeb. rewrite !andb_true_iff. intros [[[H1 H2] H3] H4]. split.
  - by apply tree_atb_sound.
  - by apply sortedb_sound.
  - by apply aab_sound.
  - by apply cdt_okb_sound.
Qed.

Lemma bool_elem_sound (x : Z) (xs : list Z) :
  existsb (Z.eqb x) xs = true → x ∈ xs.
Proof. rewrite existsb_exists. intros (y & Hy & ->%Z.eqb_eq). by apply list_elem_of_In. Qed.

Lemma bool_not_elem_sound (x : Z) (xs : list Z) :
  existsb (Z.eqb x) xs = false → x ∉ xs.
Proof.
  intros H Hx. assert (existsb (Z.eqb x) xs = true); [|congruence].
  apply existsb_exists. exists x. split; [by apply list_elem_of_In|apply Z.eqb_refl].
Qed.

(** ** A concrete state

    Eight slots of a CNode: an untyped object, an endpoint in it with an
    original and three badged capabilities, a thread, an IRQ handler and an
    empty slot.  The tree is built with [cdtInsert] itself. *)
Definition ex_slot (i : Z) : Z := 0xf0100000 + 16 * i.
Definition ex_caps : list (Z * cap_t) :=
  [(0, cap_untyped_cap false 16 0xf0200000);
   (1, cap_endpoint_cap 0 true true true 0xf0200100);
   (2, cap_endpoint_cap 5 false true false 0xf0200100);
   (3, cap_endpoint_cap 7 false true false 0xf0200100);
   (4, cap_endpoint_cap 5 false true false 0xf0200100);
   (5, cap_thread_cap 0xf0200500);
   (6, cap_irq_handler_cap 27);
   (7, cap_null_cap)].
Definition ex_heap : gmap Z cte_t :=
  list_to_map ((λ '(i, c), (ex_slot i, cte c nullMDBNode)) <$> ex_caps).
Definition run_state {A} (m : K A) (s : kstate) : kstate :=
  match m s with Ok _ s' => s' | _ => s end.
(** The tree without the thread capability and the empty slot. *)
Definition ex_state0 : kstate :=
  run_state (cdtInsert 0 (ex_slot 0) ;;; cdtInsert (ex_slot 0) (ex_slot 1) ;;;
             cdtInsert (ex_slot 1) (ex_slot 2) ;;; cdtInsert (ex_slot 1) (ex_slot 3) ;;;
             cdtInsert (ex_slot 2) (ex_slot 4) ;;; cdtInsert 0 (ex_slot 6))
    (upd_ks_cte ex_heap empty_kstate).
Definition ex_tree0 : tree := Eval vm_compute in cdt_of ex_state0.

Lemma ex_tree0_ok : cdt_tree ex_state0 ex_tree0.
Proof. apply cdt_treeb_sound. by vm_compute. Qed.
