(* ===== verification/CdtTheorems.v ===== *)
(** * Theorems about the capability derivation tree

    The properties of [src/kernel/cdt.c], each with a concrete instance: the
    order is total, the update operations are insertion and removal on a
    sorted sequence and keep the tree balanced, the searches are sound and
    complete, finality is decided by the two neighbours, and one search does
    not find what it should. *)

From S2P Require Import Prelude.
From Stdlib Require Import Sorting.Sorted.
From S2P Require Import Word32.
From S2P Require Import Structures.
From S2P Require Import State.
From S2P Require Import CdtOrder.
From S2P Require Import AATree.
From S2P Require Import CapOps.
From S2P Require Import Cdt.
From S2P Require Import CdtProofs.
From S2P Require Import CdtInv.
From S2P Require Import CdtWalk.
From S2P Require Import CdtSpec.

Ltac by_vm := vm_compute; first [reflexivity | discriminate | done].
Ltac check_joins := apply joinsb_sound; by vm_compute.
Ltac check_in := apply bool_elem_sound; by vm_compute.
Ltac check_notin := apply bool_not_elem_sound; by vm_compute.
Ltac check_slot := apply slot_okb_sound; by vm_compute.

(** [compSlot] is a strict total order on comparable slots: it always
    answers, reversing the arguments reverses the answer, it is transitive,
    and two slots are equal only if they are the same slot. *)
Theorem compSlot_total_order (a b c : slot)
  (Ha : cdt_cap (slot_cap a) = true) (Hb : cdt_cap (slot_cap b) = true)
  (Hc : cdt_cap (slot_cap c) = true)
  (Hab : types_agree (slot_cap a) (slot_cap b))
  (Hbc : types_agree (slot_cap b) (slot_cap c))
  (Hac : types_agree (slot_cap a) (slot_cap c)) :
  (∃ r, compSlot a b = Some r ∧ compSlot b a = Some (CompOpp r)) ∧
  (compSlot a b = Some Eq → a.1 = b.1) ∧
  (compSlot a b = Some Lt → compSlot b c = Some Lt → compSlot a c = Some Lt).
Proof.
  rewrite (compSlot_lex a b), (compSlot_lex b c), (compSlot_lex a c) by done.
  rewrite (compSlot_lex b a) by (try done; by apply types_agree_sym). split_and!.
  - eexists; split; [done|]. by rewrite lex_antisym.
  - intros [= E]. by apply slot_key_ptr, lex_Eq.
  - intros [= E1] [= E2]. f_equal. by eapply lex_trans.
Qed.

Definition ex_sl (i : Z) (c : cap_t) (d : Z) : slot := (ex_slot i, cte c (mdb_node_new 0 d 0 0)).

Lemma compSlot_total_order_witness :
  compSlot (ex_sl 1 (cap_endpoint_cap 0 true true true 0xf0200100) 1)
           (ex_sl 3 (cap_endpoint_cap 7 true true true 0xf0200100) 2) = Some Lt.
Proof.
  refine (proj2 (proj2 (compSlot_total_order
    (ex_sl 1 (cap_endpoint_cap 0 true true true 0xf0200100) 1)
    (ex_sl 2 (cap_endpoint_cap 5 true true true 0xf0200100) 2)
    (ex_sl 3 (cap_endpoint_cap 7 true true true 0xf0200100) 2) _ _ _ _ _ _)) _ _);
    first [reflexivity | apply types_agreeb_sound; reflexivity].
Defined.

(** C1. [cdtInsert] adds the new slot at the depth below its parent: it always
    returns, the tree stays balanced and sorted, its in-order sequence is the
    old one with the new slot inserted at its place, and no capability and no
    other depth changes. *)
Theorem cdtInsert_correct (s : kstate) (t : tree) (parent new : Z) (cn : cte_t)
  (pi : option (cap_t * Z)) (d : Z)
  (Ht : cdt_tree s t) (Hslot : slot_ok new) (Hnew : new ∉ elems t)
  (Hcn : ks_cte s !! new = Some cn) (Hj : joins (ks_cte s) (elems t) (cteCap cn))
  (Hpi : parent_info s parent pi) (Hd : cdt_child_depth pi (cteCap cn) = Some d) :
  ∃ s' t', cdtInsert parent new s = Ok tt s' ∧ cdt_tree s' t' ∧
    elems t' = list_insert (hkey (ks_cte s')) new (elems t) ∧
    skel <$> ks_cte s' !! new = Some (cteCap cn, field 5 d) ∧
    (∀ p, p ≠ new → skel <$> ks_cte s' !! p = skel <$> ks_cte s !! p) ∧
    (∀ p, p ≠ new → p ∉ elems t → ks_cte s' !! p = ks_cte s !! p).
Proof.
  destruct (cdtInsert_Ok s t parent new cn pi d) as (h' & t' & E & T & C & El); try done.
  eexists _, t'. split_and!; [exact E|done|..]; cbn [ks_cte upd_ksRootCTE upd_ks_cte].
  - rewrite El. apply list_insert_ext. intros. symmetry. by eapply hkey_chg.
  - rewrite (proj1 C). by rewrite lookup_insert_eq.
  - intros p Hp. rewrite (proj1 C). by rewrite lookup_insert_ne.
  - intros p Hp Hpt. rewrite (proj2 C); [by rewrite lookup_insert_ne|].
    intros [?|?]%elem_of_cons; done.
Qed.

Definition get_cte (s : kstate) (p : Z) : cte_t := default null_cte (ks_cte s !! p).

Lemma cdtInsert_correct_witness :
  slot_ok (ex_slot 5) ∧
  ∃ s' t', cdtInsert (ex_slot 0) (ex_slot 5) ex_state0 = Ok tt s' ∧ cdt_tree s' t' ∧
    elems t' = list_insert (hkey (ks_cte s')) (ex_slot 5) (elems ex_tree0) ∧
    skel <$> ks_cte s' !! ex_slot 5 = Some (cap_thread_cap 0xf0200500, 0) ∧
    (∀ p, p ≠ ex_slot 5 → skel <$> ks_cte s' !! p = skel <$> ks_cte ex_state0 !! p) ∧
    (∀ p, p ≠ ex_slot 5 → p ∉ elems ex_tree0 → ks_cte s' !! p = ks_cte ex_state0 !! p).
Proof.
  split; [check_slot|].
  refine (cdtInsert_correct ex_state0 ex_tree0 (ex_slot 0) (ex_slot 5)
    (get_cte ex_state0 (ex_slot 5)) (Some (cap_untyped_cap false 16 0xf0200000, 0)) 0
    ex_tree0_ok _ _ _ _ _ _); [check_slot|check_notin|by vm_compute|check_joins| |by vm_compute].
  right. split; [by vm_compute|]. exists (get_cte ex_state0 (ex_slot 0)).
  split_and!; by vm_compute.
Defined.

(** C7. [cdtRemove] takes the slot out of the tree: it always returns, the
    tree stays balanced and sorted, its in-order sequence only loses the slot,
    the slot's links are cleared, and no capability and no other depth
    changes. *)
Theorem cdtRemove_correct (s : kstate) (t : tree) (x : Z) (c : cte_t)
  (Ht : cdt_tree s t) (Hx : x ∈ elems t) (Hc : ks_cte s !! x = Some c) :
  ∃ s' t', cdtRemove x s = Ok tt s' ∧ cdt_tree s' t' ∧
    elems t' = list_remove x (elems t) ∧
    ks_cte s' !! x = Some (cte (cteCap c) nullMDBNode) ∧
    (∀ p, p ≠ x → skel <$> ks_cte s' !! p = skel <$> ks_cte s !! p) ∧
    (∀ p, p ∉ elems t → ks_cte s' !! p = ks_cte s !! p).
Proof.
  destruct (cdtRemove_Ok s t x c Ht Hx Hc) as (h' & t' & E & T & El & H1 & H2 & H3).
  eexists _, t'. split_and!; [exact E|done..].
Qed.

Lemma cdtRemove_correct_witness :
  ex_slot 2 ∈ elems ex_tree0 ∧
  ∃ s' t', cdtRemove (ex_slot 2) ex_state0 = Ok tt s' ∧ cdt_tree s' t' ∧
    elems t' = list_remove (ex_slot 2) (elems ex_tree0) ∧
    ks_cte s' !! ex_slot 2 =
      Some (cte (cap_endpoint_cap 5 false true false 0xf0200100) nullMDBNode) ∧
    (∀ p, p ≠ ex_slot 2 → skel <$> ks_cte s' !! p = skel <$> ks_cte ex_state0 !! p) ∧
    (∀ p, p ∉ elems ex_tree0 → ks_cte s' !! p = ks_cte ex_state0 !! p).
Proof.
  split; [check_in|].
  refine (cdtRemove_correct ex_state0 ex_tree0 (ex_slot 2) (get_cte ex_state0 (ex_slot 2))
    ex_tree0_ok _ _); [check_in|by vm_compute].
Defined.

(** [cdtMove] puts the new slot in the tree for the old one, at the old
    slot's depth, and clears the old slot's links; the tree stays balanced
    and sorted and every other slot keeps its capability and depth. *)
Theorem cdtMove_correct (s : kstate) (t : tree) (old new : Z) (co cn : cte_t)
  (Ht : cdt_tree s t) (Ho : old ∈ elems t) (Hn : slot_ok new) (Hnt : new ∉ elems t)
  (Hco : ks_cte s !! old = Some co) (Hcn : ks_cte s !! new = Some cn)
  (Hj : joins (ks_cte s) (list_remove old (elems t)) (cteCap cn)) :
  ∃ s' t', cdtMove old new s = Ok tt s' ∧ cdt_tree s' t' ∧
    elems t' = list_insert (hkey (ks_cte s')) new (list_remove old (elems t)) ∧
    skel <$> ks_cte s' !! new = Some (cteCap cn, field 5 (cdtDepth (cteMDBNode co))) ∧
    ks_cte s' !! old = Some (cte (cteCap co) nullMDBNode) ∧
    (∀ p, p ≠ old → p ≠ new → skel <$> ks_cte s' !! p = skel <$> ks_cte s !! p).
Proof.
  destruct (cdtMove_Ok s t old new co cn) as (h' & t' & h0 & E & T & H1 & H2 & H3 & H4 & H5 & El);
    try done.
  eexists _, t'. split_and!; [exact E|exact T|..|exact H5|]; cbn [ks_cte upd_ksRootCTE upd_ks_cte].
  - rewrite El. apply list_insert_ext. intros. symmetry. by eapply hkey_skel.
  - by rewrite H4.
  - intros p Hp1 Hp2. rewrite H4. auto.
Qed.

Lemma cdtMove_correct_witness :
  ex_slot 5 ∉ elems ex_tree0 ∧
  ∃ s' t', cdtMove (ex_slot 4) (ex_slot 5) ex_state0 = Ok tt s' ∧ cdt_tree s' t' ∧
    elems t' = list_insert (hkey (ks_cte s')) (ex_slot 5)
                 (list_remove (ex_slot 4) (elems ex_tree0)) ∧
    skel <$> ks_cte s' !! ex_slot 5 = Some (cap_thread_cap 0xf0200500, 2) ∧
    ks_cte s' !! ex_slot 4 =
      Some (cte (cap_endpoint_cap 5 false true false 0xf0200100) nullMDBNode) ∧
    (∀ p, p ≠ ex_slot 4 → p ≠ ex_slot 5 →
       skel <$> ks_cte s' !! p = skel <$> ks_cte ex_state0 !! p).
Proof.
  split; [check_notin|].
  refine (cdtMove_correct ex_state0 ex_tree0 (ex_slot 4) (ex_slot 5)
    (get_cte ex_state0 (ex_slot 4)) (get_cte ex_state0 (ex_slot 5))
    ex_tree0_ok _ _ _ _ _ _);
    [check_in|check_slot|check_notin|by vm_compute|by vm_compute|check_joins].
Defined.

(** [cdtUpdate] re-sorts a slot whose capability changes its place in the
    order: the slot is removed and inserted again at its own depth with the
    new capability, the tree stays balanced and sorted, and no other slot's
    capability or depth changes. *)
Theorem cdtUpdate_correct (s : kstate) (t : tree) (x : Z) (c : cte_t) (newCap : cap_t)
  (Ht : cdt_tree s t) (Hx : x ∈ elems t) (Hc : ks_cte s !! x = Some c)
  (Hne : capsEqual (cteCap c) newCap = Some false)
  (Hj : joins (ks_cte s) (list_remove x (elems t)) newCap) :
  ∃ s' t', cdtUpdate x newCap s = Ok tt s' ∧ cdt_tree s' t' ∧
    elems t' = list_insert (hkey (ks_cte s')) x (list_remove x (elems t)) ∧
    skel <$> ks_cte s' !! x = Some (newCap, field 5 (cdtDepth (cteMDBNode c))) ∧
    (∀ p, p ≠ x → skel <$> ks_cte s' !! p = skel <$> ks_cte s !! p).
Proof.
  destruct (cdtUpdate_Ok s t x c newCap) as (h' & t' & h0 & E & T & H1 & H2 & H3 & El); try done.
  eexists _, t'. split_and!; [exact E|exact T|..]; cbn [ks_cte upd_ksRootCTE upd_ks_cte].
  - rewrite El. apply list_insert_ext. intros. symmetry. by eapply hkey_skel.
  - by rewrite H3.
  - intros p Hp. rewrite H3. auto.
Qed.

Lemma cdtUpdate_correct_witness :
  capsEqual (cap_endpoint_cap 5 false true false 0xf0200100)
    (cap_endpoint_cap 9 false true false 0xf0200100) = Some false ∧
  ∃ s' t', cdtUpdate (ex_slot 2) (cap_endpoint_cap 9 false true false 0xf0200100) ex_state0
             = Ok tt s' ∧ cdt_tree s' t' ∧
    elems t' = list_insert (hkey (ks_cte s')) (ex_slot 2)
                 (list_remove (ex_slot 2) (elems ex_tree0)) ∧
    skel <$> ks_cte s' !! ex_slot 2 = Some (cap_endpoint_cap 9 false true false 0xf0200100, 1) ∧
    (∀ p, p ≠ ex_slot 2 → skel <$> ks_cte s' !! p = skel <$> ks_cte ex_state0 !! p).
Proof.
  split; [by vm_compute|].
  refine (cdtUpdate_correct ex_state0 ex_tree0 (ex_slot 2) (get_cte ex_state0 (ex_slot 2))
    (cap_endpoint_cap 9 false true false 0xf0200100) ex_tree0_ok _ _ _ _);
    [check_in|by vm_compute|by vm_compute|check_joins].
Defined.

(** C8. [cdtIsFinal] decides finality by looking only at the two neighbours
    of the slot in the order: the answer is yes exactly when no other slot of
    the tree holds a capability to the same object. *)
Theorem cdtIsFinal_correct (s : kstate) (t : tree) (x : Z) (cx : cte_t)
  (Ht : cdt_tree s t) (Hobj : objects_agree (ks_cte s) (elems t))
  (Hx : x ∈ elems t) (Hc : ks_cte s !! x = Some cx) :
  ∃ b, cdtIsFinal x s = Ok b s ∧
    (b = true ↔ ∀ y cy, y ∈ elems t → y ≠ x → ks_cte s !! y = Some cy →
                        sameObjectAs (cteCap cy) (cteCap cx) ≠ Some true).
Proof. by apply cdtIsFinal_Ok. Qed.

Definition objects_agreeb (h : gmap Z cte_t) (D : list Z) : bool :=
  forallb (λ p, forallb (λ q,
    (p =? q) ||
    match sameObjectAs (cap_at h p) (cap_at h q) with
    | Some true => true
    | _ =>
        negb (oeqb (cap_get_capSpaceType (cap_at h p)) (Some capSpaceTypedMemory)) ||
        negb (oeqb (cap_get_capSpaceType (cap_at h q)) (Some capSpaceTypedMemory)) ||
        negb (bool_decide (cap_get_capPtr (cap_at h p) = cap_get_capPtr (cap_at h q)))
    end) D) D.

Lemma objects_agreeb_sound h D : objects_agreeb h D = true → objects_agree h D.
Proof.
  unfold objects_agreeb. rewrite forallb_forall. intros H p q cp cq Hp Hq Hne Ep Eq Sp Sq Ptr.
  specialize (H p ltac:(by apply list_elem_of_In)).
  rewrite forallb_forall in H. specialize (H q ltac:(by apply list_elem_of_In)).
  apply orb_true_iff in H as [H|H]; [lia|].
  unfold cap_at in H. rewrite Ep, Eq in H. cbn [default from_option id] in H.
  destruct (sameObjectAs (cteCap cp) (cteCap cq)) as [[]|]; [done|..];
    rewrite Sp, Sq, (bool_decide_eq_true_2 _ Ptr) in H; done.
Qed.

Lemma cdtIsFinal_correct_witness :
  objects_agree (ks_cte ex_state0) (elems ex_tree0) ∧
  ∃ b, cdtIsFinal (ex_slot 4) ex_state0 = Ok b ex_state0 ∧
    (b = true ↔ ∀ y cy, y ∈ elems ex_tree0 → y ≠ ex_slot 4 → ks_cte ex_state0 !! y = Some cy →
       sameObjectAs (cteCap cy) (cap_endpoint_cap 5 false true false 0xf0200100) ≠ Some true).
Proof.
  assert (objects_agree (ks_cte ex_state0) (elems ex_tree0)) as Ho
    by (apply objects_agreeb_sound; by vm_compute).
  split; [exact Ho|].
  refine (cdtIsFinal_correct ex_state0 ex_tree0 (ex_slot 4) (get_cte ex_state0 (ex_slot 4))
    ex_tree0_ok Ho _ _); [check_in|by vm_compute].
Defined.

(** C35. [_cdtFindChild] is sound and complete: it always returns; a non-null
    answer is a slot of the tree strictly after the parent in the order and
    not beyond the parent's largest child, and a null answer means that there
    is no such slot. *)
Theorem cdtFindChild_correct (s : kstate) (t : tree) (p : Z) (c : cte_t) (L : cap_t)
  (Ht : cdt_tree s t) (Hp : p ∈ elems t) (Hc : ks_cte s !! p = Some c)
  (Hptr : cap_ptr_ok (cteCap c)) (HL : build_largest_child (cteCap c) = Some L) :
  ∃ q, _cdtFindChild p s = Ok q s ∧
    (q ≠ 0 → q ∈ elems t ∧ cdt_child (ks_cte s) L p q) ∧
    (q = 0 → ∀ r, r ∈ elems t → ¬ cdt_child (ks_cte s) L p r).
Proof. by eapply _cdtFindChild_Ok. Qed.

Lemma cdtFindChild_correct_witness :
  cap_ptr_ok (cap_endpoint_cap 0 true true true 0xf0200100) ∧
  ∃ q, _cdtFindChild (ex_slot 1) ex_state0 = Ok q ex_state0 ∧
    (q ≠ 0 → q ∈ elems ex_tree0 ∧
       cdt_child (ks_cte ex_state0)
         (cap_endpoint_cap (2 ^ 28 - 1) false false false 0xf0200100) (ex_slot 1) q) ∧
    (q = 0 → ∀ r, r ∈ elems ex_tree0 → ¬ cdt_child (ks_cte ex_state0)
         (cap_endpoint_cap (2 ^ 28 - 1) false false false 0xf0200100) (ex_slot 1) r).
Proof.
  split; [by vm_compute|].
  refine (cdtFindChild_correct ex_state0 ex_tree0 (ex_slot 1) (get_cte ex_state0 (ex_slot 1))
    (cap_endpoint_cap (2 ^ 28 - 1) false false false 0xf0200100) ex_tree0_ok _ _ _ _);
    [check_in|by vm_compute..].
Defined.

(** The exact search [cdtFindAtDepth] is sound and complete on a non-empty
    tree: it always returns a slot whose key (space, address, badge, depth,
    mapping) is the one looked for, or null when the tree has no such slot. *)
Theorem cdtFindAtDepth_correct (s : kstate) (t : tree) (cap : cap_t) (d : Z)
  (Ht : cdt_tree s t) (Hne : t ≠ Leaf) (Hj : joins (ks_cte s) (elems t) cap) :
  ∃ q, cdtFindAtDepth cap d s = Ok q s ∧
    (q ≠ 0 → q ∈ elems t ∧
       search_key (slot_of (ks_cte s) q) = search_key (hypothetical_slot cap d)) ∧
    (q = 0 → ∀ p, p ∈ elems t →
       search_key (slot_of (ks_cte s) p) ≠ search_key (hypothetical_slot cap d)).
Proof. by apply cdtFindAtDepth_Ok. Qed.

Lemma cdtFindAtDepth_correct_witness :
  ex_tree0 ≠ Leaf ∧
  ∃ q, cdtFindAtDepth (cap_irq_handler_cap 27) 0 ex_state0 = Ok q ex_state0 ∧
    (q ≠ 0 → q ∈ elems ex_tree0 ∧ search_key (slot_of (ks_cte ex_state0) q) =
       search_key (hypothetical_slot (cap_irq_handler_cap 27) 0)) ∧
    (q = 0 → ∀ p, p ∈ elems ex_tree0 → search_key (slot_of (ks_cte ex_state0) p) ≠
       search_key (hypothetical_slot (cap_irq_handler_cap 27) 0)).
Proof.
  split; [done|].
  refine (cdtFindAtDepth_correct ex_state0 ex_tree0 (cap_irq_handler_cap 27) 0 ex_tree0_ok _ _);
    [done|check_joins].
Defined.

(** [aaTraverseForward] and [aaTraverseBackward] are the in-order
    successor and predecessor (null at the ends), although the nodes have no
    parent pointers and [aaParent] searches from the root. *)
Theorem aaTraverse_correct (s : kstate) (t : tree) (x : Z) (l1 l2 : list Z)
  (Ht : cdt_tree s t) (Hel : elems t = l1 ++ x :: l2) :
  aaTraverseForward x s = Ok (hd 0 l2) s ∧ aaTraverseBackward x s = Ok (List.last l1 0) s.
Proof. split; [by eapply aaTraverseForward_spec|by eapply aaTraverseBackward_spec]. Qed.

Lemma aaTraverse_correct_witness :
  aaTraverseForward (ex_slot 4) ex_state0 = Ok (ex_slot 3) ex_state0 ∧
  aaTraverseBackward (ex_slot 4) ex_state0 = Ok (ex_slot 2) ex_state0.
Proof.
  exact (aaTraverse_correct ex_state0 ex_tree0 (ex_slot 4)
    [ex_slot 0; ex_slot 1; ex_slot 2] [ex_slot 3; ex_slot 6] ex_tree0_ok eq_refl).
Defined.

(** The recursion of [cdt.c] is bounded: however many slots the kernel
    window holds, the derivation tree has at most 2^27 of them, a level of at
    most 27 (so the five-bit level field of a node never wraps) and a height
    of at most 54. *)
Theorem cdt_tree_bounds (s : kstate) (t : tree) (Ht : cdt_tree s t) :
  Z.of_nat (length (elems t)) ≤ 2 ^ 27 ∧ 0 ≤ lvl t ≤ 27 ∧ field 5 (lvl t) = lvl t ∧
  Z.of_nat (height t) ≤ 54.
Proof.
  assert (Z.of_nat (length (elems t)) ≤ 2 ^ 27) as Hs.
  { apply slot_count; [by eapply ct_NoDup|]. intros p. by eapply ct_slot_ok. }
  pose proof (ct_level s t Ht). pose proof (aa_height t (ct_aa _ _ Ht)) as [Hh _].
  pose proof (aa_lvl_nonneg t (ct_aa _ _ Ht)).
  split_and!; try lia. unfold field. rewrite Z.land_ones by lia. apply Z.mod_small. lia.
Qed.

Lemma cdt_tree_bounds_witness :
  Z.of_nat (length (elems ex_tree0)) ≤ 2 ^ 27 ∧ 0 ≤ lvl ex_tree0 ≤ 27 ∧
  field 5 (lvl ex_tree0) = lvl ex_tree0 ∧ Z.of_nat (height ex_tree0) ≤ 54.
Proof. exact (cdt_tree_bounds ex_state0 ex_tree0 ex_tree0_ok). Defined.

(** A state in which the last 16 bytes of an untyped object hold an endpoint
    with one badged capability. *)
Definition gap_caps : list (Z * cap_t) :=
  [(0, cap_untyped_cap false 12 0xf0200000);
   (1, cap_thread_cap 0xf01ff000);
   (2, cap_endpoint_cap 3 false true false 0xf0200ff0)].
Definition gap_state : kstate :=
  run_state (cdtInsert 0 (ex_slot 0) ;;; cdtInsert 0 (ex_slot 1) ;;; cdtInsert (ex_slot 0) (ex_slot 2))
    (upd_ks_cte (list_to_map ((λ '(i, c), (ex_slot i, cte c nullMDBNode)) <$> gap_caps)) empty_kstate).
Definition gap_tree : tree := Eval vm_compute in cdt_of gap_state.
Lemma gap_tree_ok : cdt_tree gap_state gap_tree.
Proof. apply cdt_treeb_sound. by vm_compute. Qed.

Lemma cap_prefix_typed c p :
  cap_get_capSpaceType c = Some capSpaceTypedMemory → cap_get_capPtr c = Some p →
  cap_prefix c = [capSpaceTypedMemory; p; cap_get_capBadge c].
Proof. intros H1 H2. destruct c; try done; cbn [cap_prefix]; by rewrite H2. Qed.

Lemma lex_2_lt a x y xs ys : x < y → lex (a :: x :: xs) (a :: y :: ys) = Lt.
Proof. intros H. cbn. rewrite Z.compare_refl. by apply Z.compare_lt_iff in H as ->. Qed.

(** A flaw of the child search: an endpoint in the last 16 bytes of an
    untyped object whose only capability is badged is not found.
    [cdtFindTypedInRange] searches below an unbadged endpoint there, and the
    badged capability compares greater, so the untyped looks childless
    although the capability lies in its region. *)
Theorem cdtFindChild_misses_badged (s : kstate) (t : tree) (u w x : Z) (cu cw cx : cte_t)
  (base bits badge pw bw : Z) (g sd r : bool)
  (Ht : cdt_tree s t) (Hel : elems t = [u; w; x])
  (Hu : ks_cte s !! u = Some cu) (Hw : ks_cte s !! w = Some cw) (Hx : ks_cte s !! x = Some cx)
  (Cu : cteCap cu = cap_untyped_cap false bits base)
  (Cx : cteCap cx = cap_endpoint_cap badge g sd r (base + 2 ^ bits - 16))
  (Sw : cap_get_capSpaceType (cteCap cw) = Some capSpaceTypedMemory)
  (Pw : cap_get_capPtr (cteCap cw) = Some pw) (Bw : cap_get_capSizeBits (cteCap cw) = Some bw)
  (Hbits : 4 < bits < 30) (Hbase : 0 < base) (Htop : base + 2 ^ bits < 2 ^ 32)
  (Hal : base mod 16 = 0) (Htal : (base + 2 ^ bits - 16) mod 16 = 0)
  (Hbadge : 0 < badge) (Hpw : pw < base) :
  sameRegionAs (cteCap cu) (cteCap cx) = Some true ∧ cdtFindChild u s = Ok 0 s.
Proof.
  set (top := base + 2 ^ bits) in *.
  assert (2 ^ 5 ≤ 2 ^ bits) as H32 by (apply Z.pow_le_mono_r; lia). change (2 ^ 5) with 32 in H32.
  assert (base + 32 ≤ top) as Hbt by (unfold top; lia).
  assert (base + Z.pred (2 ^ bits) = top - 1) as Et by (unfold top; lia).
  assert (field_high 28 base = base) as Fb
    by (apply field_high_id; [unfold is_w32; lia|lia|done]).
  assert (field_high 28 (w32 (base + BIT bits - BIT EP_SIZE_BITS)) = top - 16) as Ft.
  { rewrite (BIT_eq bits) by lia. change (BIT EP_SIZE_BITS) with 16. fold top.
    rewrite w32_id by (unfold is_w32; lia).
    apply field_high_id; [unfold is_w32; lia|lia|done]. }
  assert (u ∈ elems t ∧ w ∈ elems t ∧ x ∈ elems t) as (Iu & Iw & Ix)
    by (rewrite Hel; set_solver).
  pose proof (ct_sorted _ _ Ht) as Hs. rewrite Hel in Hs.
  assert (klt (hkey (ks_cte s)) u w) as Huw.
  { destruct (sorted_mid (hkey (ks_cte s)) (hkey_inj _) [u] w [x] Hs) as (_ & _ & Hl & _).
    apply Hl. by left. }
  split.
  { rewrite Cu, Cx. cbn [sameRegionAs cap_get_capPtr cap_get_capSizeBits].
    rewrite !MASK_eq, !Z.ones_equiv by (unfold EP_SIZE_BITS; lia).
    change (Z.pred (2 ^ EP_SIZE_BITS)) with 15.
    rewrite Et, !w32_id by (unfold is_w32; lia). f_equal. lia. }
  assert (joins (ks_cte s) (elems t) (cap_endpoint_cap_new 0 false false false
            (w32 (base + BIT bits - BIT EP_SIZE_BITS)))) as Hj.
  { unfold cap_endpoint_cap_new. rewrite Ft. split_and!; [done|apply types_agree_refl|].
    rewrite Hel. intros q c Hq Hqc S1 S2. cbn [cap_get_capPtr cap_get_capType].
    repeat (apply elem_of_cons in Hq as [->|Hq]); [..|by apply elem_of_nil in Hq];
      simplify_eq; rewrite ?Cu, ?Cx in *; [done| |done].
    rewrite Pw. intros [= E]. lia. }
  destruct (findFromBelow_Ok s t Ht _ 0 ltac:(by eapply tree_not_empty) Hj) as (q & E & Hq).
  pose proof (cap_prefix_typed _ _ Sw Pw) as Pfw.
  assert (q = w) as ->.
  { unfold cap_endpoint_cap_new in Hq. rewrite Ft in Hq.
    pose proof (lex_2_lt capSpaceTypedMemory pw (top - 16) [cap_get_capBadge (cteCap cw)] [0]
      ltac:(lia)) as Lw. rewrite <- Pfw in Lw.
    change (field 28 0) with 0 in Hq. cbn [cap_prefix cap_get_capPtr default cap_get_capBadge] in Hq.
    assert (Hsw : slot_cap (slot_of (ks_cte s) w) = cteCap cw) by (by rewrite (slot_of_Some _ _ _ Hw)).
    destruct Hq as [(Iq & Lq & Mq)|[_ Nq]]; [|specialize (Nq w Iw); rewrite Hsw in Nq; cbn in *; congruence].
    rewrite Hel in Iq. repeat (apply elem_of_cons in Iq as [->|Iq]);
      [..|by apply elem_of_nil in Iq]; [| done |].
    - specialize (Mq w Iw). rewrite Hsw in Mq.
      destruct Mq as [->|Hwu]; [cbn in *; congruence|done|].
      destruct (klt_irrefl (hkey (ks_cte s)) (hkey_inj (ks_cte s)) u). by eapply klt_trans.
    - rewrite (slot_of_Some _ _ _ Hx) in Lq. unfold slot_cap in Lq. cbn [snd] in Lq. rewrite Cx in Lq.
      destruct Lq. cbn -[Z.compare]. rewrite !Z.compare_refl. by apply Z.compare_gt_iff in Hbadge as ->. }
  assert (cdtFindTypedInRange base bits s = Ok 0 s) as Er.
  { unfold cdtFindTypedInRange. kstep. rewrite (ct_nonzero s t Ht w Iw). kload.
    unfold cap_untyped_cap_new. rewrite Fb.
    replace (field 5 bits) with bits by (unfold field; rewrite Z.land_ones, Z.mod_small; lia).
    cbn [sameRegionAs]. rewrite Pw, Bw. cbn [kopt].
    rewrite (proj2 (Z.leb_gt base pw)) by lia. rewrite andb_false_r. done. }
  unfold cdtFindChild. kload. rewrite Cu. rewrite (kopt_Some _ capSpaceUntypedMemory) by done.
  kstep. cbn [negb Z.eqb].
  assert (build_largest_child (cteCap cu) = Some (cap_untyped_cap false 4 (top - 16))) as HL.
  { rewrite Cu. cbn [build_largest_child]. unfold cap_untyped_cap_new. f_equal.
    change (field 5 4) with 4. f_equal. exact Ft. }
  destruct (_cdtFindChild_Ok s t Ht u cu _ Iu Hu ltac:(by rewrite Cu) HL) as (q & Eq & Hc & _).
  rewrite Eq. f_equal. destruct (decide (q = 0)) as [->|Hn]; [done|].
  destruct (Hc Hn) as [Iq [L1 L2]]. rewrite Hel in Iq.
  repeat (apply elem_of_cons in Iq as [->|Iq]); [..|by apply elem_of_nil in Iq].
  - by rewrite lex_refl in L1.
  - rewrite (slot_of_Some _ _ _ Hw) in L2. unfold slot_cap in L2. cbn [snd] in L2.
    by rewrite Pfw in L2.
  - rewrite (slot_of_Some _ _ _ Hx) in L2. unfold slot_cap in L2. cbn [snd] in L2.
    by rewrite Cx in L2.
Qed.

Lemma cdtFindChild_misses_badged_witness :
  sameRegionAs (cap_untyped_cap false 12 0xf0200000) (cap_endpoint_cap 3 false true false 0xf0200ff0)
    = Some true ∧ cdtFindChild (ex_slot 0) gap_state = Ok 0 gap_state.
Proof.
  refine (cdtFindChild_misses_badged gap_state gap_tree (ex_slot 0) (ex_slot 1) (ex_slot 2)
    (get_cte gap_state (ex_slot 0)) (get_cte gap_state (ex_slot 1)) (get_cte gap_state (ex_slot 2))
    0xf0200000 12 3 (TCB_PTR_CTE_PTR 0xf01ff000 0) 9 false true false gap_tree_ok
    _ _ _ _ _ _ _ _ _ _ _ _ _ _ _ _); by vm_compute.
Defined.
