(* ===== verification/VSpace.v ===== *)
(** * Virtual memory

    Models the run-time part of [src/arch/arm/kernel/vspace.c] that the other
    components use, [src/arch/arm/kernel/thread.c] and [armv_contextSwitch]
    ([include/arch/arm/armv/armv6/armv/context_switch.h]): looking up entries,
    unmapping pages and page tables, hardware ASID allocation, flushing and
    switching address spaces.  The invocations are in [ArmInvocation]. *)

From S2P Require Import Prelude.
From S2P Require Import Word32.
From S2P Require Import Structures.
From S2P Require Import State.
From S2P Require Import CapOps.
From S2P Require Import Cdt.

(** ** Addresses ([plat/machine/hardware.h], [arch/machine/hardware.h]) *)
Definition kernelBase : Z := 0xf0000000.
Definition physBase : Z := 0x80000000.
Definition BASE_OFFSET : Z := kernelBase - physBase.
Definition addrFromPPtr (p : Z) : Z := w32 (p - BASE_OFFSET).
Definition ptrFromPAddr (p : Z) : Z := w32 (p + BASE_OFFSET).
Definition PD_ASID_SLOT : Z := 0xff0.
Definition PAGES_PER_LARGE_PAGE : Z := 16.
Definition SECTIONS_PER_SUPER_SECTION : Z := 16.

(** [&pd[i]], [&pt[i]]: entries are one word. *)
Definition PDE_AT (pd i : Z) : Z := w32 (pd + 4 * i).
Definition PTE_AT (pt i : Z) : Z := w32 (pt + 4 * i).
Definition LAST_BYTE (p length : Z) : Z := w32 (p + 4 * (length - 1) + 3).

Definition makePDIndex (vptr : Z) : Z := Z.shiftr vptr 20.

Definition upto (n : Z) : list Z := Z.of_nat <$> seq 0 (Z.to_nat n).

(** [memzero] over an array of entries, and over memory only user code reads. *)
Definition memzero_pdes (pd n : Z) : K unit := kfor (upto n) (λ i, setPDE (PDE_AT pd i) pde_zero).
Definition memzero_ptes (pt n : Z) : K unit := kfor (upto n) (λ i, setPTE (PTE_AT pt i) pte_zero).
Definition memzero_user (p size : Z) : K unit :=
  modify (λ s, upd_ks_mem (filter (λ '(a, _), ¬ (p ≤ a < p + size)) (ks_mem s)) s).
(** [clearMemory]; page tables are cleared entry by entry. *)
Definition clearMemory (p bits : Z) : K unit :=
  memzero_user p (BIT bits) ;;;
  machine (op_cleanCacheRange_PoU p (w32 (p + BIT bits - 1)) (addrFromPPtr p)).

(** ** Rights and entries *)
Definition APFromVMRights (vm_rights : Z) : option Z :=
  if vm_rights =? VMNoAccess then Some 0
  else if vm_rights =? VMKernelOnly then Some 1
  else if vm_rights =? VMReadOnly then Some 2
  else if vm_rights =? VMReadWrite then Some 3
  else None.

Definition makeUserPTE (page_size paddr : Z) (cacheable nonexecutable : bool)
    (vm_rights : Z) : option pte_t :=
  let? ap := APFromVMRights vm_rights in
  if page_size =? ARMSmallPage then
    Some (if cacheable then pte_pte_small_new paddr 1 0 0 5 ap 0 1 (b2z nonexecutable)
          else pte_pte_small_new paddr 1 1 0 0 ap 0 0 (b2z nonexecutable))
  else if page_size =? ARMLargePage then
    Some (if cacheable then pte_pte_large_new paddr (b2z nonexecutable) 5 1 0 0 ap 0 1 1
          else pte_pte_large_new paddr (b2z nonexecutable) 0 1 1 0 ap 0 0 1)
  else None.

Definition makeUserPDE (page_size paddr : Z) (parity cacheable nonexecutable : bool)
    (domain vm_rights : Z) : option pde_t :=
  let? ap := APFromVMRights vm_rights in
  let? size2 := if page_size =? ARMSection then Some 0
                else if page_size =? ARMSuperSection then Some 1 else None in
  Some (if cacheable
        then pde_pde_section_new paddr size2 1 0 0 5 ap (b2z parity) domain (b2z nonexecutable) 0 1
        else pde_pde_section_new paddr size2 1 1 0 0 ap (b2z parity) domain (b2z nonexecutable) 0 0).

Definition checkVPAlignment (sz w : Z) : option bool :=
  let? bits := pageBitsForSize sz in Some (Z.land w (MASK bits) =? 0).

Definition pageBase (vaddr size : Z) : option Z :=
  let? bits := pageBitsForSize size in Some (Z.land vaddr (wnot (MASK bits))).

(** ** Lookups *)
Definition lookupIPCBuffer (isReceiver : bool) (thread : Z) : K Z :=
  let! t := getTCB thread in
  let! bufferCap := getCap (TCB_PTR_CTE_PTR thread tcbBuffer) in
  match bufferCap with
  | cap_frame_cap _ _ size vm_rights _ basePtr =>
      if (vm_rights =? VMReadWrite) || (negb isReceiver && (vm_rights =? VMReadOnly)) then
        let! pageBits := kopt (pageBitsForSize size) in
        kret (w32 (basePtr + Z.land (tcbIPCBuffer t) (MASK pageBits)))
      else kret 0
  | _ => kret 0
  end.

(** Status, page table and index. *)
Definition lookupPTSlot (pd vptr : Z) : K (exception_t * Z * Z) :=
  let! pde := getPDE (PDE_AT pd (makePDIndex vptr)) in
  match pde with
  | pde_pde_coarse address _ _ =>
      kret (EXCEPTION_NONE, ptrFromPAddr address, Z.land (Z.shiftr vptr 12) 0xff)
  | _ =>
      modify (upd_current_lookup_fault (lookup_fault_missing_capability_new 20)) ;;;
      kret (EXCEPTION_LOOKUP_FAULT, 0, 0)
  end.

Definition lookupPTSlot_nofail (pt vptr : Z) : Z :=
  PTE_AT pt (Z.land (Z.shiftr vptr 12) (MASK 8)).

(** [None] when nothing is mapped, else the frame's base and size. *)
Definition resolveVAddr (pd vaddr : Z) : K (option (Z * Z)) :=
  let! pde := getPDE (PDE_AT pd (Z.shiftr vaddr 20)) in
  match pde with
  | pde_pde_section address size _ _ _ _ _ _ _ _ _ _ =>
      kret (Some (address, if z2b size then ARMSuperSection else ARMSection))
  | pde_pde_coarse address _ _ =>
      let! pte := getPTE (lookupPTSlot_nofail (ptrFromPAddr address) vaddr) in
      match pte, pte_get_pteType pte with
      | pte_pte_large a _ _ _ _ _ _ _ _ _, pte_large_type => kret (Some (a, ARMLargePage))
      | pte_pte_small a _ _ _ _ _ _ _ _, pte_small_type => kret (Some (a, ARMSmallPage))
      | _, _ => kret None
      end
  | _ => kret None
  end.

Definition checkValidIPCBuffer (vptr : Z) (cap : cap_t) : K exception_t :=
  if negb (cap_get_capType cap =? 1) then fail_syscall seL4_IllegalOperation
  else if negb (Z.land vptr (MASK 9) =? 0) then fail_syscall seL4_AlignmentError
  else kret EXCEPTION_NONE.

(** The fault registers of the processor are read by the exception entry. *)
Inductive vm_fault_type_t : Type :=
| ARMDataAbort (FAR DFSR : Z)
| ARMPrefetchAbort (IFSR : Z).

Definition FaultInstruction : Z := 17.
Definition LR_svc : Z := 15.
Definition getRestartPC (thread : Z) : K Z := getRegister thread FaultInstruction.
Definition setNextPC (thread v : Z) : K unit := setRegister thread LR_svc v.

Definition handleVMFault (thread : Z) (vm_faultType : vm_fault_type_t) : K exception_t :=
  match vm_faultType with
  | ARMDataAbort addr fault =>
      modify (upd_current_fault (fault_vm_fault_new addr fault false)) ;;;
      kret EXCEPTION_FAULT
  | ARMPrefetchAbort fault =>
      let! pc := getRestartPC thread in
      modify (upd_current_fault (fault_vm_fault_new pc fault true)) ;;;
      kret EXCEPTION_FAULT
  end.

(** ** Hardware ASIDs

    The ASID of an address space is kept in entry [PD_ASID_SLOT] of its page
    directory, in the form of an invalid entry; the table maps back from the
    eight-bit ASID to the directory, with 0 for a free ASID. *)
Definition storeHWASID (pd hw_asid : Z) : K unit :=
  setPDE (PDE_AT pd PD_ASID_SLOT) (pde_pde_invalid_new hw_asid true) ;;;
  modify (λ s, upd_armKSHWASIDTable (<[hw_asid := pd]> (armKSHWASIDTable s)) s).

Definition loadHWASID (pd : Z) : K pde_t := getPDE (PDE_AT pd PD_ASID_SLOT).

Definition invalidateASID (pd : Z) : K unit :=
  setPDE (PDE_AT pd PD_ASID_SLOT) (pde_pde_invalid_new 0 false).

Definition hwasid_entry (s : kstate) (hw_asid : Z) : Z := default 0 (armKSHWASIDTable s !! hw_asid).

(** The first free ASID from [next] on, cyclically. *)
Definition first_free (s : kstate) : option Z :=
  List.find (λ a, hwasid_entry s a =? 0)
    ((λ off, (armKSNextASID s + off) mod 256) <$> upto 256).

Definition findFreeHWASID : K Z :=
  let! free := gets first_free in
  match free with
  | Some hw_asid => kret hw_asid
  | None =>
      let! hw_asid := gets armKSNextASID in
      let! pd := gets (λ s, hwasid_entry s hw_asid) in
      invalidateASID pd ;;;
      machine (op_invalidateTLB_ASID hw_asid) ;;;
      modify (λ s, upd_armKSHWASIDTable (<[hw_asid := 0]> (armKSHWASIDTable s)) s) ;;;
      modify (λ s, upd_armKSNextASID ((armKSNextASID s + 1) mod 256) s) ;;;
      kret hw_asid
  end.

(** Reading a field of another kind of entry is an assertion failure of the
    generated accessor. *)
Definition pde_stored_asid (p : pde_t) : option (Z * bool) :=
  match p with pde_pde_invalid hw_asid valid => Some (hw_asid, valid) | _ => None end.

Definition getHWASID (pd : Z) : K Z :=
  let! stored := loadHWASID pd in
  let! ' (hw_asid, valid) := kopt (pde_stored_asid stored) in
  if valid : bool then kret hw_asid
  else
    let! new_hw_asid := findFreeHWASID in
    storeHWASID pd new_hw_asid ;;;
    kret new_hw_asid.

(** ** Switching address spaces *)
Definition armv_contextSwitch (pd : Z) : K unit :=
  let! hw_asid := getHWASID pd in
  machine (op_setCurrentPD (addrFromPPtr pd)) ;;;
  machine (op_setHardwareASID hw_asid).

Section Switch.
Context {cfg : KernelConfig}.

Definition setVMRoot (tcb : Z) : K unit :=
  let! threadRoot := getCap (TCB_PTR_CTE_PTR tcb tcbVTable) in
  match threadRoot with
  | cap_page_directory_cap pd => armv_contextSwitch pd
  | _ => machine (op_setCurrentPD (addrFromPPtr armKSGlobalPD))
  end.

Definition setVMRootForFlush (pd : Z) : K bool :=
  let! cur := gets ksCurThread in
  let! threadRoot := getCap (TCB_PTR_CTE_PTR cur tcbVTable) in
  let same := match threadRoot with cap_page_directory_cap p => p =? pd | _ => false end in
  if same : bool then kret false
  else armv_contextSwitch pd ;;; kret true.

Definition Arch_switchToThread (tcb : Z) : K unit :=
  setVMRoot tcb ;;;
  let! t := getTCB tcb in
  let! frame := gets armKSGlobalsFrame in
  setWord frame (tcbIPCBuffer t) ;;;
  machine op_clearExMonitor.

Definition Arch_switchToIdleThread : K unit :=
  let! frame := gets armKSGlobalsFrame in setWord frame 0.

(** ** Flushing *)
Definition flush_asid (pd : Z) (root_switched : bool) (flush : Z → machine_op) : K unit :=
  let! stored := loadHWASID pd in
  let! ' (hw_asid, valid) := kopt (pde_stored_asid stored) in
  if valid : bool then
    machine (flush hw_asid) ;;;
    kwhen root_switched (let! cur := gets ksCurThread in setVMRoot cur)
  else kret tt.

Definition flushPage (page_size pd vptr : Z) : K unit :=
  let! bits := kopt (pageBitsForSize page_size) in
  kassert (Z.land vptr (MASK bits) =? 0) ;;;
  let! root_switched := setVMRootForFlush pd in
  flush_asid pd root_switched
    (λ hw_asid, op_invalidateTLB_VAASID (Z.lor (Z.land vptr (wnot (MASK 12))) hw_asid)).

Definition flushTable (pd vptr pt : Z) : K unit :=
  kassert (Z.land vptr (MASK (PT_BITS + ARMSmallPageBits)) =? 0) ;;;
  let! root_switched := setVMRootForFlush pd in
  flush_asid pd root_switched op_invalidateTLB_ASID.

(** ** Unmapping *)
Definition unmapPageTable (pd pdIndex pt : Z) : K unit :=
  kassert (negb (pd =? 0)) ;;;
  kassert (negb (pt =? 0)) ;;;
  let p := PDE_AT pd pdIndex in
  let! pde := getPDE p in
  let! address :=
    kopt (match pde with pde_pde_coarse address _ _ => Some address | _ => None end) in
  kassert (ptrFromPAddr address =? pt) ;;;
  setPDE p (pde_pde_invalid_new 0 false) ;;;
  machine (op_cleanByVA_PoU p (addrFromPPtr p)) ;;;
  flushTable pd (w32 (Z.shiftl pdIndex 20)) pt.

Definition unmapPagePTE (page_size pt ptIndex pptr : Z) : K unit :=
  let addr := addrFromPPtr pptr in
  let! ptCte := cdtFindWithExtra (cap_page_table_cap_new 0 0 pt) in
  kassert (negb (ptCte =? 0)) ;;;
  let! ptCap := getCap ptCte in
  let! ' (pd, pdIndex) := kopt (match ptCap with
    | cap_page_table_cap pd pdIndex _ => Some (pd, pdIndex) | _ => None end) in
  let p := PTE_AT pt ptIndex in
  let flush := kwhen (negb (pd =? 0))
    (flushPage page_size pd
       (Z.lor (w32 (Z.shiftl pdIndex 20)) (w32 (Z.shiftl ptIndex 12)))) in
  let! pte := getPTE p in
  if page_size =? ARMSmallPage then
    if decide (pte = pte_zero) then kret tt
    else
      kassert (match pte with
               | pte_pte_small address _ _ _ _ _ _ _ _ => address =? addr | _ => false end) ;;;
      setPTE p pte_zero ;;;
      machine (op_cleanByVA_PoU p (addrFromPPtr p)) ;;;
      flush
  else if page_size =? ARMLargePage then
    if decide (pte = pte_zero) then kret tt
    else
      kassert (match pte with
               | pte_pte_large address _ _ _ _ _ _ _ _ r => (r =? 1) && (address =? addr)
               | _ => false end) ;;;
      kfor (upto PAGES_PER_LARGE_PAGE) (λ i, setPTE (PTE_AT pt (ptIndex + i)) pte_zero) ;;;
      machine (op_cleanCacheRange_PoU p (LAST_BYTE p PAGES_PER_LARGE_PAGE) (addrFromPPtr p)) ;;;
      flush
  else kfail.

Definition unmapPagePDE (page_size pd pdIndex pptr : Z) : K unit :=
  let addr := addrFromPPtr pptr in
  let p := PDE_AT pd pdIndex in
  let flush := flushPage page_size pd (w32 (Z.shiftl pdIndex 20)) in
  let mapped size2 pde := match pde with
    | pde_pde_section address size _ _ _ _ _ _ _ _ _ _ =>
        (size =? size2) && (address =? addr)
    | _ => false end in
  let! pde := getPDE p in
  if page_size =? ARMSection then
    if decide (pde = pde_zero) then kret tt
    else
      kassert (mapped 0 pde) ;;;
      setPDE p (pde_pde_invalid_new 0 false) ;;;
      machine (op_cleanByVA_PoU p (addrFromPPtr p)) ;;;
      flush
  else if page_size =? ARMSuperSection then
    if decide (pde = pde_zero) then kret tt
    else
      kassert (mapped 1 pde) ;;;
      kfor (upto SECTIONS_PER_SUPER_SECTION)
        (λ i, setPDE (PDE_AT pd (pdIndex + i)) (pde_pde_invalid_new 0 false)) ;;;
      machine (op_cleanCacheRange_PoU p (LAST_BYTE p SECTIONS_PER_SUPER_SECTION) (addrFromPPtr p)) ;;;
      flush
  else kfail.

(** Forget the mapping recorded in the capability that [cdtFind] returns for
    [hyp], then run [unmap] on its frame. *)
Definition unmap_frame_of (hyp : cap_t) (unmap : Z → K unit) : K unit :=
  let! frameCte := cdtFind hyp in
  kassert (negb (frameCte =? 0)) ;;;
  let! c := getCap frameCte in
  let frameCap := cap_frame_cap_set_capFMappedObject c 0 in
  cdtUpdate frameCte frameCap ;;;
  let! base := kopt (match frameCap with cap_frame_cap _ _ _ _ _ b => Some b | _ => None end) in
  unmap base.

Definition unmap_pde (pd i : Z) : K unit :=
  let! pde := getPDE (PDE_AT pd i) in
  match pde with
  | pde_pde_coarse address _ _ =>
      let! ptCte := cdtFind (cap_page_table_cap_new pd i (ptrFromPAddr address)) in
      kassert (negb (ptCte =? 0)) ;;;
      let! c := getCap ptCte in
      let! ' (idx, base) := kopt (match c with
        | cap_page_table_cap _ idx base => Some (idx, base) | _ => None end) in
      cdtUpdate ptCte (cap_page_table_cap 0 idx base) ;;;
      unmapPageTable pd i base
  | pde_pde_section address size _ _ _ _ _ _ _ _ _ _ =>
      let page_size := if z2b size then ARMSuperSection else ARMSection in
      unmap_frame_of
        (cap_frame_cap_new (FMAPPED_OBJECT_HIGH pd) i page_size 0 (FMAPPED_OBJECT_LOW pd)
           (ptrFromPAddr address))
        (unmapPagePDE page_size pd i)
  | pde_pde_invalid _ _ => kret tt
  | pde_pde_reserved => kdiverge  (* the loop counter is not advanced *)
  end.

Definition unmapAllPageTables (pd : Z) : K unit :=
  kfor (upto (Z.shiftr kernelBase ARMSectionBits)) (unmap_pde pd).

Fixpoint unmapAllPages_loop (fuel : nat) (pt i : Z) : K unit :=
  match fuel with
  | O => kdiverge
  | S fuel =>
      if BIT PT_BITS <=? i then kret tt else
      let! pte := getPTE (PTE_AT pt i) in
      let unmap page_size address :=
        unmap_frame_of
          (cap_frame_cap_new (FMAPPED_OBJECT_HIGH pt) i page_size 0 (FMAPPED_OBJECT_LOW pt)
             (ptrFromPAddr address))
          (unmapPagePTE page_size pt i) in
      match pte, pte_get_pteType pte with
      | pte_pte_small address _ _ _ _ _ _ _ _, pte_small_type =>
          unmap ARMSmallPage address ;;; unmapAllPages_loop fuel pt (i + 1)
      | pte_pte_large address _ _ _ _ _ _ _ _ _, pte_large_type =>
          unmap ARMLargePage address ;;; unmapAllPages_loop fuel pt (i + 16)
      | _, _ => unmapAllPages_loop fuel pt (i + 1)
      end
  end.

Definition unmapAllPages (pd pdIndex pt : Z) : K unit := unmapAllPages_loop 257 pt 0.

(** ** Filling a new page directory *)
Definition copyGlobalMappings (newPD : Z) : K unit :=
  kfor (List.filter (λ i, (Z.shiftr kernelBase ARMSectionBits <=? i) && negb (i =? PD_ASID_SLOT))
          (upto (BIT PD_BITS)))
    (λ i, let! pde := getPDE (PDE_AT armKSGlobalPD i) in setPDE (PDE_AT newPD i) pde).
End Switch.
