(* ===== verification/Sched.v ===== *)
(** * Threads and the scheduler

    Models the queues of [src/object/tcb.c] (lines 26 to 193) and the scheduler
    of [src/kernel/thread.c]: ready queues indexed by domain and priority, a
    two-level bitmap of the non-empty ones, the scheduler action and the
    domain schedule.  The IPC transfers of [thread.c] are in [Transfer]. *)

From S2P Require Import Prelude.
From S2P Require Import Word32.
From S2P Require Import Structures.
From S2P Require Import State.
From S2P Require Import VSpace.

(** ** Thread states *)
Definition thread_isBlocked (ts : _thread_state) : bool :=
  match ts with
  | ThreadState_Inactive | ThreadState_BlockedOnReceive | ThreadState_BlockedOnSend
  | ThreadState_BlockedOnAsyncEvent | ThreadState_BlockedOnReply => true
  | _ => false
  end.
Definition thread_isRunnable (ts : _thread_state) : bool :=
  match ts with
  | ThreadState_Running | ThreadState_RunningVM | ThreadState_Restart => true
  | _ => false
  end.
Definition getTsType (thread : Z) : K _thread_state := getTCBf (λ t, tsType (tcbState t)) thread.
Definition isBlocked (thread : Z) : K bool := let! ts := getTsType thread in kret (thread_isBlocked ts).
Definition isRunnable (thread : Z) : K bool := let! ts := getTsType thread in kret (thread_isRunnable ts).

(** ** Ready queues and their bitmap *)
Definition prio_to_l1index (prio : Z) : Z := Z.shiftr prio 5.
Definition l1index_to_prio (l1index : Z) : Z := Z.shiftl l1index 5.

Definition ready_queue (s : kstate) (idx : Z) : tcb_queue_t :=
  default (tcb_queue 0 0) (ksReadyQueues s !! idx).
Definition L1Bitmap (s : kstate) (dom : Z) : Z := default 0 (ksReadyQueuesL1Bitmap s !! dom).
Definition L2Bitmap (s : kstate) (dom l1index : Z) : Z :=
  default 0 (ksReadyQueuesL2Bitmap s !! (dom, l1index)).
Definition setReadyQueue (idx : Z) (q : tcb_queue_t) : K unit :=
  modify (λ s, upd_ksReadyQueues (<[idx := q]> (ksReadyQueues s)) s).
Definition setL1Bitmap (dom v : Z) : K unit :=
  modify (λ s, upd_ksReadyQueuesL1Bitmap (<[dom := v]> (ksReadyQueuesL1Bitmap s)) s).
Definition setL2Bitmap (dom l1index v : Z) : K unit :=
  modify (λ s, upd_ksReadyQueuesL2Bitmap (<[(dom, l1index) := v]> (ksReadyQueuesL2Bitmap s)) s).

Definition addToBitmap (dom prio : Z) : K unit :=
  let l1index := prio_to_l1index prio in
  let! l1 := gets (λ s, L1Bitmap s dom) in
  setL1Bitmap dom (Z.lor l1 (BIT l1index)) ;;;
  let! l2 := gets (λ s, L2Bitmap s dom l1index) in
  setL2Bitmap dom l1index (Z.lor l2 (BIT (Z.land prio (MASK 5)))).

Definition removeFromBitmap (dom prio : Z) : K unit :=
  let l1index := prio_to_l1index prio in
  let! l2 := gets (λ s, L2Bitmap s dom l1index) in
  let l2 := Z.land l2 (wnot (BIT (Z.land prio (MASK 5)))) in
  setL2Bitmap dom l1index l2 ;;;
  kwhen (l2 =? 0)
    (let! l1 := gets (λ s, L1Bitmap s dom) in
     setL1Bitmap dom (Z.land l1 (wnot (BIT l1index)))).

Definition set_queued (b : bool) (t : tcb_t) : tcb_t :=
  set_tcbState (thread_state_set_tcbQueued b (tcbState t)) t.

Section Sched.
Context {cfg : KernelConfig}.

Definition ready_queues_index (dom prio : Z) : option Z :=
  if 1 <? CONFIG_NUM_DOMAINS then Some (w32 (dom * CONFIG_NUM_PRIORITIES + prio))
  else if dom =? 0 then Some prio else None.

Definition tcbSchedEnqueue (tcb : Z) : K unit :=
  let! t := getTCB tcb in
  if tcbQueued (tcbState t) then kret tt else
  let dom := tcbDomain t in
  let prio := tcbPriority t in
  let! idx := kopt (ready_queues_index dom prio) in
  let! queue := gets (λ s, ready_queue s idx) in
  let! qend :=
    if queue_end queue =? 0 then addToBitmap dom prio ;;; kret tcb
    else updTCB (queue_head queue) (set_tcbSchedPrev tcb) ;;; kret (queue_end queue) in
  updTCB tcb (set_tcbSchedPrev 0) ;;;
  updTCB tcb (set_tcbSchedNext (queue_head queue)) ;;;
  setReadyQueue idx (tcb_queue tcb qend) ;;;
  updTCB tcb (set_queued true).

Definition tcbSchedAppend (tcb : Z) : K unit :=
  let! t := getTCB tcb in
  if tcbQueued (tcbState t) then kret tt else
  let dom := tcbDomain t in
  let prio := tcbPriority t in
  let! idx := kopt (ready_queues_index dom prio) in
  let! queue := gets (λ s, ready_queue s idx) in
  let! qhead :=
    if queue_head queue =? 0 then addToBitmap dom prio ;;; kret tcb
    else updTCB (queue_end queue) (set_tcbSchedNext tcb) ;;; kret (queue_head queue) in
  updTCB tcb (set_tcbSchedPrev (queue_end queue)) ;;;
  updTCB tcb (set_tcbSchedNext 0) ;;;
  setReadyQueue idx (tcb_queue qhead tcb) ;;;
  updTCB tcb (set_queued true).

Definition tcbSchedDequeue (tcb : Z) : K unit :=
  let! t := getTCB tcb in
  if negb (tcbQueued (tcbState t)) then kret tt else
  let dom := tcbDomain t in
  let prio := tcbPriority t in
  let! idx := kopt (ready_queues_index dom prio) in
  let! queue := gets (λ s, ready_queue s idx) in
  let! prev := getTCBf tcbSchedPrev tcb in
  let! next := getTCBf tcbSchedNext tcb in
  let! qhead :=
    if negb (prev =? 0) then
      updTCB prev (set_tcbSchedNext next) ;;; kret (queue_head queue)
    else
      kwhen (next =? 0) (removeFromBitmap dom prio) ;;; kret next in
  let! next := getTCBf tcbSchedNext tcb in
  let! prev := getTCBf tcbSchedPrev tcb in
  let! qend :=
    if negb (next =? 0) then
      updTCB next (set_tcbSchedPrev prev) ;;; kret (queue_end queue)
    else kret prev in
  setReadyQueue idx (tcb_queue qhead qend) ;;;
  updTCB tcb (set_queued false).

(** ** Scheduler actions *)
Definition setSchedulerAction (a : Z) : K unit := modify (upd_ksSchedulerAction a).

Definition rescheduleRequired : K unit :=
  let! action := gets ksSchedulerAction in
  kwhen (negb (action =? SchedulerAction_ResumeCurrentThread) &&
         negb (action =? SchedulerAction_ChooseNewThread))
    (tcbSchedEnqueue action) ;;;
  setSchedulerAction SchedulerAction_ChooseNewThread.

Definition scheduleTCB (tptr : Z) : K unit :=
  let! cur := gets ksCurThread in
  let! action := gets ksSchedulerAction in
  if (tptr =? cur) && (action =? SchedulerAction_ResumeCurrentThread) then
    let! runnable := isRunnable tptr in
    kwhen (negb runnable) rescheduleRequired
  else kret tt.

Definition setThreadState (tptr : Z) (ts : _thread_state) : K unit :=
  updState (thread_state_set_tsType ts) tptr ;;;
  scheduleTCB tptr.

Definition possibleSwitchTo (target : Z) (onSamePriority : bool) : K unit :=
  let! cur := gets ksCurThread in
  let! curPrio := getTCBf tcbPriority cur in
  let! targetPrio := getTCBf tcbPriority target in
  let! action := gets ksSchedulerAction in
  if 1 <? CONFIG_NUM_DOMAINS then
    let! curDom := gets ksCurDomain in
    let! targetDom := getTCBf tcbDomain target in
    kwhen (negb (targetDom =? curDom)) (tcbSchedEnqueue target)
  else
    (if ((curPrio <? targetPrio) || ((targetPrio =? curPrio) && onSamePriority))
          && (action =? SchedulerAction_ResumeCurrentThread)
     then setSchedulerAction target
     else tcbSchedEnqueue target) ;;;
    kwhen (negb (action =? SchedulerAction_ResumeCurrentThread) &&
           negb (action =? SchedulerAction_ChooseNewThread))
      rescheduleRequired.

Definition attemptSwitchTo (target : Z) : K unit := possibleSwitchTo target true.
Definition switchIfRequiredTo (target : Z) : K unit := possibleSwitchTo target false.

Definition setDomain (tptr dom : Z) : K unit :=
  tcbSchedDequeue tptr ;;;
  updTCB tptr (set_tcbDomain dom) ;;;
  let! runnable := isRunnable tptr in
  kwhen runnable (tcbSchedEnqueue tptr) ;;;
  let! cur := gets ksCurThread in
  kwhen (tptr =? cur) rescheduleRequired.

Definition setPriority (tptr prio : Z) : K unit :=
  tcbSchedDequeue tptr ;;;
  updTCB tptr (set_tcbPriority prio) ;;;
  let! runnable := isRunnable tptr in
  kwhen runnable (tcbSchedEnqueue tptr) ;;;
  let! cur := gets ksCurThread in
  kwhen (tptr =? cur) rescheduleRequired.

(** ** Switching *)
Definition switchToThread (thread : Z) : K unit :=
  Arch_switchToThread thread ;;;
  tcbSchedDequeue thread ;;;
  modify (upd_ksCurThread thread).

Definition switchToIdleThread : K unit :=
  Arch_switchToIdleThread ;;;
  modify (λ s, upd_ksCurThread (ksIdleThread s) s).

(** The front thread of the highest-priority non-empty queue of [dom]. *)
Definition bitmap_prio (s : kstate) (dom : Z) : Z :=
  let l1index := wordBits - 1 - CLZ (L1Bitmap s dom) in
  let l2index := wordBits - 1 - CLZ (L2Bitmap s dom l1index) in
  Z.lor (l1index_to_prio l1index) l2index.

Definition chooseThread : K unit :=
  let! dom := if 1 <? CONFIG_NUM_DOMAINS then gets ksCurDomain else kret 0 in
  let! l1 := gets (λ s, L1Bitmap s dom) in
  if negb (l1 =? 0) then
    let! prio := gets (λ s, bitmap_prio s dom) in
    let! idx := kopt (ready_queues_index dom prio) in
    let! queue := gets (λ s, ready_queue s idx) in
    let thread := queue_head queue in
    kassert (negb (thread =? 0)) ;;;
    let! runnable := isRunnable thread in
    kassert runnable ;;;
    switchToThread thread
  else switchToIdleThread.

Definition nextDomain : K unit :=
  let! idx := gets ksDomScheduleIdx in
  let idx := w32 (idx + 1) in
  let idx := if Z.of_nat (length ksDomSchedule) <=? idx then 0 else idx in
  modify (upd_ksDomScheduleIdx idx) ;;;
  modify (upd_ksWorkUnitsCompleted 0) ;;;
  let! ' (domain, len) := kopt (ksDomSchedule !! Z.to_nat idx) in
  modify (upd_ksCurDomain domain) ;;;
  modify (upd_ksDomainTime len).

Definition enqueueCurrent : K unit :=
  let! cur := gets ksCurThread in
  let! runnable := isRunnable cur in
  kwhen runnable (tcbSchedEnqueue cur).

Definition schedule : K unit :=
  let! action := gets ksSchedulerAction in
  if action =? SchedulerAction_ChooseNewThread then
    enqueueCurrent ;;;
    let! time := gets ksDomainTime in
    kwhen ((1 <? CONFIG_NUM_DOMAINS) && (time =? 0)) nextDomain ;;;
    chooseThread ;;;
    setSchedulerAction SchedulerAction_ResumeCurrentThread
  else if negb (action =? SchedulerAction_ResumeCurrentThread) then
    enqueueCurrent ;;;
    let! target := gets ksSchedulerAction in
    switchToThread target ;;;
    setSchedulerAction SchedulerAction_ResumeCurrentThread
  else kret tt.

Definition timerTick : K unit :=
  let! cur := gets ksCurThread in
  let! runnable := isRunnable cur in
  kwhen runnable
    (let! slice := getTCBf tcbTimeSlice cur in
     if 1 <? slice then updTCB cur (set_tcbTimeSlice (slice - 1))
     else
       updTCB cur (set_tcbTimeSlice CONFIG_TIME_SLICE) ;;;
       tcbSchedAppend cur ;;;
       rescheduleRequired) ;;;
  kwhen (1 <? CONFIG_NUM_DOMAINS)
    (let! time := gets ksDomainTime in
     let time := w32 (time - 1) in
     modify (upd_ksDomainTime time) ;;;
     kwhen (time =? 0) rescheduleRequired).

Definition activateThread : K unit :=
  let! cur := gets ksCurThread in
  let! ts := getTsType cur in
  match ts with
  | ThreadState_Running | ThreadState_RunningVM => kret tt
  | ThreadState_Restart =>
      let! pc := getRestartPC cur in
      setNextPC cur pc ;;;
      setThreadState cur ThreadState_Running
  | ThreadState_IdleThreadState => kret tt
  | _ => kfail
  end.

Definition CPSR : Z := 16.
Definition CPSR_IDLETHREAD : Z := 0x13 + 0x40.

Definition configureIdleThread (idleThreadStart tcb : Z) : K unit :=
  setRegister tcb CPSR CPSR_IDLETHREAD ;;;
  setRegister tcb LR_svc idleThreadStart ;;;
  setThreadState tcb ThreadState_IdleThreadState.
End Sched.

(** ** Endpoint queues *)
Definition tcbEPAppend (tcb : Z) (queue : tcb_queue_t) : K tcb_queue_t :=
  let! qhead :=
    if queue_head queue =? 0 then kret tcb
    else updTCB (queue_end queue) (set_tcbEPNext tcb) ;;; kret (queue_head queue) in
  updTCB tcb (set_tcbEPPrev (queue_end queue)) ;;;
  updTCB tcb (set_tcbEPNext 0) ;;;
  kret (tcb_queue qhead tcb).

Definition tcbEPDequeue (tcb : Z) (queue : tcb_queue_t) : K tcb_queue_t :=
  let! prev := getTCBf tcbEPPrev tcb in
  let! next := getTCBf tcbEPNext tcb in
  let! qhead :=
    if negb (prev =? 0) then updTCB prev (set_tcbEPNext next) ;;; kret (queue_head queue)
    else kret next in
  let! next := getTCBf tcbEPNext tcb in
  let! prev := getTCBf tcbEPPrev tcb in
  let! qend :=
    if negb (next =? 0) then updTCB next (set_tcbEPPrev prev) ;;; kret (queue_end queue)
    else kret prev in
  kret (tcb_queue qhead qend).
