(* ===== verification/Queue.v ===== *)
(** * Doubly linked queues of threads

    The intrusive queues of [src/object/tcb.c].  A thread control block has two
    pairs of links, one for the ready queues and one for endpoint queues; a
    [Links] instance names a pair, and the lemmas on the shape of a queue hold
    for both.  [dseg h p ts n]: the threads [ts] are linked in this order,
    between a predecessor [p] and a successor [n].  Then the rules of [frames],
    for what an operation leaves alone. *)

From S2P Require Import Prelude.
From S2P Require Import Structures.
From S2P Require Import State.

Class Links : Type := {
  lnext : tcb_t → Z;
  lprev : tcb_t → Z;
  set_lnext : Z → tcb_t → tcb_t;
  set_lprev : Z → tcb_t → tcb_t;
  lnext_set_next v t : lnext (set_lnext v t) = v;
  lprev_set_next v t : lprev (set_lnext v t) = lprev t;
  lnext_set_prev v t : lnext (set_lprev v t) = lnext t;
  lprev_set_prev v t : lprev (set_lprev v t) = v
}.

Definition sched_links : Links.
Proof.
  refine {| lnext := tcbSchedNext; lprev := tcbSchedPrev;
            set_lnext := set_tcbSchedNext; set_lprev := set_tcbSchedPrev |}; reflexivity.
Defined.

Definition ep_links : Links.
Proof.
  refine {| lnext := tcbEPNext; lprev := tcbEPPrev;
            set_lnext := set_tcbEPNext; set_lprev := set_tcbEPPrev |}; reflexivity.
Defined.

Lemma last_cons_default (l : list Z) t p : List.last (t :: l) p = List.last l t.
Proof.
  revert t p. induction l as [|a l IH]; intros t p; [done|].
  change (List.last (a :: l) p = List.last (a :: l) t). by rewrite !IH.
Qed.

Lemma last_in (l : list Z) d : l ≠ [] → List.last l d ∈ l.
Proof. destruct l as [|x l _] using rev_ind; [done|]. rewrite last_last. set_solver. Qed.

Section Queue.
Context {L : Links}.
Implicit Types (h : gmap Z tcb_t) (ts : list Z).

Fixpoint dseg h (p : Z) ts (n : Z) : Prop :=
  match ts with
  | [] => True
  | t :: ts' =>
      t ≠ 0 ∧ (∃ tcb, h !! t = Some tcb ∧ lprev tcb = p ∧ lnext tcb = hd n ts') ∧
      dseg h t ts' n
  end.

(** [q] holds exactly the threads [ts], front first. *)
Definition dqueue h (q : tcb_queue_t) ts : Prop :=
  NoDup ts ∧ dseg h 0 ts 0 ∧ queue_head q = hd 0 ts ∧ queue_end q = List.last ts 0.

(** Two heaps that give the threads of [D] the same links. *)
Definition same_links h h' (D : list Z) : Prop :=
  ∀ t, t ∈ D → (λ x, (lprev x, lnext x)) <$> h' !! t = (λ x, (lprev x, lnext x)) <$> h !! t.

Lemma dseg_app h p l1 l2 n :
  dseg h p (l1 ++ l2) n ↔ dseg h p l1 (hd n l2) ∧ dseg h (List.last l1 p) l2 n.
Proof.
  revert p. induction l1 as [|t l1 IH]; intros p; [cbn; naive_solver|].
  cbn [app dseg]. rewrite IH.
  assert (hd n (l1 ++ l2) = hd (hd n l2) l1) as -> by by destruct l1.
  rewrite last_cons_default. tauto.
Qed.

Lemma dseg_nonzero h p ts n t : dseg h p ts n → t ∈ ts → t ≠ 0.
Proof.
  revert p. induction ts as [|x ts IH]; intros p; [by intros _ ?%elem_of_nil|].
  intros (Hx & _ & H) [->|Ht]%elem_of_cons; [done|by eapply IH].
Qed.

Lemma dseg_lookup h p ts n t : dseg h p ts n → t ∈ ts → is_Some (h !! t).
Proof.
  revert p. induction ts as [|x ts IH]; intros p; [by intros _ ?%elem_of_nil|].
  intros (_ & (tcb & Hx & _) & H) [->|Ht]%elem_of_cons; [by exists tcb|by eapply IH].
Qed.

Lemma dseg_frame h h' p ts n : same_links h h' ts → dseg h p ts n → dseg h' p ts n.
Proof.
  revert p. induction ts as [|t ts IH]; intros p Hs; [done|].
  intros (Ht & (tcb & Hx & Hp & Hn) & H). cbn [dseg]. split_and!; [done| |].
  - specialize (Hs t ltac:(by left)). rewrite Hx in Hs. cbn in Hs.
    destruct (h' !! t) as [tcb'|]; [|done]. cbn in Hs. exists tcb'.
    injection Hs as -> ->. done.
  - apply IH; [|done]. intros x Hx'. apply Hs. by right.
Qed.

Lemma same_links_insert h t x D : t ∉ D → same_links h (<[t := x]> h) D.
Proof. intros Ht y Hy. by rewrite lookup_insert_ne by (by intros ->). Qed.

Lemma same_links_trans h1 h2 h3 D : same_links h1 h2 D → same_links h2 h3 D → same_links h1 h3 D.
Proof. intros H1 H2 t Ht. by rewrite H2, H1. Qed.

Lemma same_links_mono h h' D D' : same_links h h' D → D' ⊆ D → same_links h h' D'.
Proof. intros H Hs t Ht. by apply H, Hs. Qed.

(** Redirecting the forward link out of a segment, and the backward link
    into it. *)
Lemma dseg_set_next h p l x n n' tcb :
  dseg h p (l ++ [x]) n → x ∉ l → h !! x = Some tcb →
  dseg (<[x := set_lnext n' tcb]> h) p (l ++ [x]) n'.
Proof.
  rewrite !dseg_app. intros [H1 H2] Hx Hh. cbn [hd] in *. split.
  - by apply (dseg_frame h); [apply same_links_insert|].
  - destruct H2 as (Hnz & (tcb' & Hl & Hp & _) & _). simplify_eq.
    split_and!; [done| |done]. eexists. rewrite lookup_insert_eq, lprev_set_next, lnext_set_next.
    done.
Qed.

Lemma dseg_set_prev h p p' x l n tcb :
  dseg h p (x :: l) n → x ∉ l → h !! x = Some tcb →
  dseg (<[x := set_lprev p' tcb]> h) p' (x :: l) n.
Proof.
  intros (Hnz & (tcb' & Hl & _ & Hn) & H) Hx Hh. simplify_eq. cbn [dseg]. split_and!; [done| |].
  - eexists. rewrite lookup_insert_eq, lprev_set_prev, lnext_set_prev. done.
  - by apply (dseg_frame h); [apply same_links_insert|].
Qed.

Lemma dqueue_empty h q ts : dqueue h q ts → queue_head q = 0 ↔ ts = [].
Proof.
  intros (_ & H & Hh & _). rewrite Hh. destruct ts as [|t ts]; [done|]. cbn.
  destruct H as [H _]. done.
Qed.
Lemma dqueue_empty_end h q ts : dqueue h q ts → queue_end q = 0 ↔ ts = [].
Proof.
  intros (_ & H & _ & He). rewrite He. destruct ts as [|t ts] using rev_ind; [done|].
  rewrite last_last. apply dseg_app in H as [_ [H _]]. split; [done|].
  intros E. by destruct ts.
Qed.

Lemma dqueue_frame h h' q ts : same_links h h' ts → dqueue h q ts → dqueue h' q ts.
Proof. intros Hs (H1 & H2 & H3 & H4). split_and!; try done. by apply (dseg_frame h). Qed.

(** ** The operations on an abstract queue *)

(** Linking [t] in front. *)
Lemma dqueue_push h q ts t x :
  dqueue h q ts → t ∉ ts → t ≠ 0 → h !! t = Some x →
  let h1 := match ts with
            | [] => h
            | y :: _ => match h !! y with Some yt => <[y := set_lprev t yt]> h | None => h end
            end in
  dqueue (<[t := set_lnext (queue_head q) (set_lprev 0 x)]> h1)
    (tcb_queue t (if queue_end q =? 0 then t else queue_end q)) (t :: ts).
Proof.
  intros Hq Ht Hnz Hx h1. pose proof (dqueue_empty_end _ _ _ Hq) as He.
  destruct Hq as (Hnd & Hs & Hhd & Hend). split_and!; cbn [queue_head queue_end].
  - by constructor.
  - cbn [dseg]. split_and!; [done| |].
    + eexists. rewrite lookup_insert_eq, lprev_set_next, lnext_set_next, lprev_set_prev.
      by rewrite Hhd.
    + destruct ts as [|y ts]; [done|]. subst h1.
      destruct (dseg_lookup _ _ _ _ y Hs ltac:(by left)) as [yt Hy]. rewrite Hy.
      apply NoDup_cons in Hnd as [Hy' _].
      apply (dseg_frame (<[y := set_lprev t yt]> h)); [by apply same_links_insert|].
      by eapply dseg_set_prev.
  - done.
  - destruct ts as [|y ts]; [cbn in *; by rewrite (proj2 (Z.eqb_eq _ _) (proj2 He eq_refl))|].
    rewrite (proj2 (Z.eqb_neq _ _)) by naive_solver. rewrite Hend. done.
Qed.

(** Linking [t] at the end. *)
Lemma dqueue_append h q ts t x :
  dqueue h q ts → t ∉ ts → t ≠ 0 → h !! t = Some x →
  let h1 := if queue_head q =? 0 then h
            else match h !! queue_end q with
                 | Some yt => <[queue_end q := set_lnext t yt]> h | None => h end in
  dqueue (<[t := set_lnext 0 (set_lprev (queue_end q) x)]> h1)
    (tcb_queue (if queue_head q =? 0 then t else queue_head q) t) (ts ++ [t]).
Proof.
  intros Hq Ht Hnz Hx h1. pose proof (dqueue_empty _ _ _ Hq) as He.
  destruct Hq as (Hnd & Hs & Hhd & Hend). split_and!; cbn [queue_head queue_end].
  - apply NoDup_app. split_and!; [done| |apply NoDup_singleton]. set_solver.
  - apply dseg_app. split.
    + destruct ts as [|y ts _] using rev_ind; [done|]. subst h1.
      rewrite (proj2 (Z.eqb_neq (queue_head q) 0)) by (rewrite He; by destruct ts).
      rewrite Hend, last_last.
      destruct (dseg_lookup _ _ _ _ y Hs ltac:(set_solver)) as [yt Hy]. rewrite Hy.
      apply (dseg_frame (<[y := set_lnext t yt]> h)); [by apply same_links_insert|].
      cbn [hd]. eapply dseg_set_next; [done| |done].
      apply NoDup_app in Hnd as (_ & Hd & _). intros Hin. apply (Hd y Hin). by left.
    + cbn [dseg hd]. split_and!; [done| |done].
      eexists. rewrite lookup_insert_eq, lprev_set_next, lnext_set_next, lprev_set_prev.
      by rewrite Hend.
  - destruct ts as [|y ts]; cbn; [by rewrite (proj2 (Z.eqb_eq _ _) (proj2 He eq_refl))|].
    rewrite (proj2 (Z.eqb_neq _ _)) by naive_solver. done.
  - by rewrite last_last.
Qed.

(** Unlinking [t] from the middle. *)
Lemma dqueue_remove h q l1 t l2 x :
  dqueue h q (l1 ++ t :: l2) → h !! t = Some x →
  let h1 := if lprev x =? 0 then h
            else match h !! lprev x with
                 | Some yt => <[lprev x := set_lnext (lnext x) yt]> h | None => h end in
  let h2 := if lnext x =? 0 then h1
            else match h1 !! lnext x with
                 | Some yt => <[lnext x := set_lprev (lprev x) yt]> h1 | None => h1 end in
  lprev x = List.last l1 0 ∧ lnext x = hd 0 l2 ∧
  dqueue h2 (tcb_queue (if lprev x =? 0 then lnext x else queue_head q)
               (if lnext x =? 0 then lprev x else queue_end q)) (l1 ++ l2).
Proof.
  intros (Hnd & Hs & Hhd & Hend) Hx h1 h2.
  apply NoDup_app_cons_inv in Hnd as (Ht1 & Ht2 & Hnd).
  apply dseg_app in Hs as [Hs1 (Hnz & (x' & Hx' & Hp & Hn) & Hs2)].
  assert (x' = x) as -> by congruence. cbn [hd] in Hs1. split_and!; [done|done|].
  assert (Hl2 : lnext x = 0 → l2 = []).
  { rewrite Hn. destruct l2 as [|y l2]; [done|]. destruct Hs2 as [Hy _]. done. }
  assert (Hl1 : lprev x = 0 → l1 = []).
  { rewrite Hp. destruct l1 as [|y l1 _] using rev_ind; [done|]. rewrite last_last.
    apply dseg_app in Hs1 as [_ [Hy _]]. done. }
  assert (Hd1 : ∀ y, y ∈ l1 → y ∉ l2) by (apply NoDup_app in Hnd; naive_solver).
  assert (dseg h1 0 l1 (hd 0 l2) ∧ dseg h1 t l2 0) as [K1 K2].
  { subst h1. destruct l1 as [|y l1 _] using rev_ind; [by rewrite Hp|].
    rewrite last_last in Hp. rewrite Hp.
    rewrite (proj2 (Z.eqb_neq y 0)) by (by eapply dseg_nonzero; [exact Hs1|set_solver]).
    destruct (dseg_lookup _ _ _ _ y Hs1 ltac:(set_solver)) as [yt Hy]. rewrite Hy. split.
    - rewrite <- Hn. eapply dseg_set_next; [done| |done].
      apply NoDup_app in Hnd as (Hnd1 & _ & _). apply NoDup_app in Hnd1 as (_ & Hd & _).
      intros Hin. apply (Hd y Hin). by left.
    - apply (dseg_frame h); [apply same_links_insert|done]. apply Hd1. set_solver. }
  clear Hs1 Hs2. split_and!; cbn [queue_head queue_end].
  - done.
  - apply dseg_app. subst h2. destruct l2 as [|y l2]; [rewrite Hn; done|].
    cbn [hd] in *. rewrite Hn.
    rewrite (proj2 (Z.eqb_neq y 0)) by (by eapply dseg_nonzero; [exact K2|set_solver]).
    destruct (dseg_lookup _ _ _ _ y K2 ltac:(set_solver)) as [yt Hy]. rewrite Hy. split.
    + apply (dseg_frame h1); [apply same_links_insert|done]. intros Hin. apply (Hd1 y Hin). by left.
    + rewrite <- Hp. eapply dseg_set_prev; [done| |done].
      apply NoDup_app in Hnd as (_ & _ & Hnd2). by apply NoDup_cons in Hnd2 as [? _].
  - destruct (Z.eqb_spec (lprev x) 0) as [E|E].
    + rewrite (Hl1 E). done.
    + destruct l1; [by rewrite Hp in E|done].
  - destruct (Z.eqb_spec (lnext x) 0) as [E|E].
    + rewrite (Hl2 E), app_nil_r. done.
    + destruct l2 as [|y l2 _] using rev_ind; [by rewrite Hn in E|].
      rewrite app_assoc, last_last. rewrite Hend.
      replace (l1 ++ t :: l2 ++ [y]) with ((l1 ++ t :: l2) ++ [y]) by by rewrite <- app_assoc.
      by rewrite last_last.
Qed.
End Queue.

(** ** What a kernel operation leaves alone

    [frames f m]: every normal run of [m] keeps the part [f] of the state.
    The rules follow the structure of a monadic program; [solve_frames] applies
    them, with the [frames] hint database for operations that have a lemma. *)
Definition frames {A B} (f : kstate → B) (m : K A) : Prop :=
  ∀ s a s', m s = Ok a s' → f s' = f s.

Section Rules.
Context {B : Type} (f : kstate → B).

Lemma frames_ret {A} (a : A) : frames f (kret a).
Proof. by intros s b s' [= _ <-]. Qed.
Lemma frames_fail {A} : frames f (kfail : K A).
Proof. by intros s b s'. Qed.
Lemma frames_diverge {A} : frames f (kdiverge : K A).
Proof. by intros s b s'. Qed.
Lemma frames_bind {A C} (m : K A) (k : A → K C) :
  frames f m → (∀ a, frames f (k a)) → frames f (kbind m k).
Proof.
  intros Hm Hk s c s' (a & s1 & E1 & E2)%kbind_Ok_inv.
  by rewrite (Hk _ _ _ _ E2), (Hm _ _ _ E1).
Qed.
Lemma frames_gets {A} (g : kstate → A) : frames f (gets g).
Proof. by intros s b s' [= _ <-]. Qed.
Lemma frames_modify (g : kstate → kstate) : (∀ s, f (g s) = f s) → frames f (modify g).
Proof. by intros H s b s' [= _ <-]. Qed.
Lemma frames_assert b : frames f (kassert b).
Proof. destruct b; [apply frames_ret|apply frames_fail]. Qed.
Lemma frames_opt {A} (o : option A) : frames f (kopt o).
Proof. destruct o; [apply frames_ret|apply frames_fail]. Qed.
Lemma frames_when b (m : K unit) : frames f m → frames f (kwhen b m).
Proof. destruct b; [done|]. intros _. apply frames_ret. Qed.
Lemma frames_if {A} (b : bool) (m1 m2 : K A) :
  frames f m1 → frames f m2 → frames f (if b then m1 else m2).
Proof. by destruct b. Qed.
Lemma frames_kfor {A} (xs : list A) body : (∀ x, frames f (body x)) → frames f (kfor xs body).
Proof.
  intros Hb. induction xs as [|x xs IH]; [apply frames_ret|].
  cbn. apply frames_bind; [apply Hb|done].
Qed.
Lemma frames_deref {A} (h : kstate → gmap Z A) p : frames f (deref h p).
Proof. intros s a s'. unfold deref. destruct (h s !! p); intros [= ]; by subst. Qed.
Lemma frames_update {A} (h : kstate → gmap Z A) upd p g :
  (∀ v s, f (upd v s) = f s) → frames f (update h upd p g).
Proof. intros H s a s'. unfold update. destruct (h s !! p); intros [= ]; by subst. Qed.
Lemma frames_assign {A} (h : kstate → gmap Z A) upd p v :
  (∀ v s, f (upd v s) = f s) → frames f (assign h upd p v).
Proof. intros H s a s'. unfold assign. destruct (h s !! p); intros [= ]; by subst. Qed.
End Rules.

Create HintDb frames discriminated.

(** One structural step; branches of a [match] or an [if] are split. *)
Ltac frames_step :=
  match goal with
  | |- ∀ _, _ => intro
  | |- frames _ (kret _) => apply frames_ret
  | |- frames _ kfail => apply frames_fail
  | |- frames _ kdiverge => apply frames_diverge
  | |- frames _ (kbind _ _) => apply frames_bind
  | |- frames _ (gets _) => apply frames_gets
  | |- frames _ (modify _) => apply frames_modify; intros; reflexivity
  | |- frames _ (kassert _) => apply frames_assert
  | |- frames _ (kopt _) => apply frames_opt
  | |- frames _ (kwhen _ _) => apply frames_when
  | |- frames _ (kfor _ _) => apply frames_kfor
  | |- frames _ (deref _ _) => apply frames_deref
  | |- frames _ (update _ _ _ _) => apply frames_update; intros; reflexivity
  | |- frames _ (assign _ _ _ _) => apply frames_assign; intros; reflexivity
  | |- frames _ _ => solve [auto 1 with frames nocore]
  | |- frames _ (match ?x with _ => _ end) => destruct x
  | |- frames _ (getCTE _) => unfold getCTE
  | |- frames _ (getTCB _) => unfold getTCB
  | |- frames _ (getEP _) => unfold getEP
  | |- frames _ (getAEP _) => unfold getAEP
  | |- frames _ (getPDE _) => unfold getPDE
  | |- frames _ (getPTE _) => unfold getPTE
  | |- frames _ (setPDE _ _) => unfold setPDE
  | |- frames _ (setPTE _ _) => unfold setPTE
  | |- frames _ (updTCB _ _) => unfold updTCB
  | |- frames _ (updEP _ _) => unfold updEP
  | |- frames _ (updAEP _ _) => unfold updAEP
  | |- frames _ (getCap _) => unfold getCap
  | |- frames _ (setCap _ _) => unfold setCap
  | |- frames _ (getMDB _) => unfold getMDB
  | |- frames _ (setMDB _ _) => unfold setMDB
  | |- frames _ (getWord _) => unfold getWord
  | |- frames _ (setWord _ _) => unfold setWord
  | |- frames _ (getRegister _ _) => unfold getRegister
  | |- frames _ (setRegister _ _ _) => unfold setRegister
  | |- frames _ (getTCBf _ _) => unfold getTCBf
  | |- frames _ (updState _ _) => unfold updState
  | |- frames _ (machine _) => unfold machine
  end.
Ltac solve_frames := repeat frames_step.
