(* ===== verification/SchedInv.v ===== *)
(** * The scheduler invariant and its maintenance

    [sched_ok s Q]: the ready queues of the state are the lists [Q dom prio],
    doubly linked through the thread control blocks; a thread is in a queue
    exactly when its [tcbQueued] flag is set, and then in the one of its domain
    and priority; and the two-level bitmap marks exactly the non-empty queues. *)

From S2P Require Import Prelude.
From S2P Require Import Word32.
From S2P Require Import Structures.
From S2P Require Import State.
From S2P Require Import VSpace.
From S2P Require Import Sched.
From S2P Require Import Queue.
From S2P Require Import AATree.

Lemma land_31 p : 0 ≤ p → Z.land p (MASK 5) = p mod 32.
Proof. intros. change (MASK 5) with (Z.ones 5). by rewrite Z.land_ones. Qed.
Lemma shiftr_5 p : Z.shiftr p 5 = p / 32.
Proof. by rewrite Z.shiftr_div_pow2. Qed.

Lemma lor_shiftl_5 i j : 0 ≤ i → 0 ≤ j < 32 → Z.lor (Z.shiftl i 5) j = 32 * i + j.
Proof.
  intros Hi Hj. assert (Z.land (Z.shiftl i 5) j = 0) as Hl.
  { apply Z.bits_inj'. intros n Hn. rewrite Z.land_spec, Z.bits_0, Z.shiftl_spec by lia.
    destruct (decide (n < 5)); [by rewrite Z.testbit_neg_r by lia|].
    destruct (decide (j = 0)) as [->|]; [by rewrite Z.bits_0, andb_false_r|].
    rewrite (Z.bits_above_log2 j n), andb_false_r; [done|lia|].
    assert (Z.log2 j < 5) by (apply Z.log2_lt_pow2; lia). lia. }
  rewrite <- Z.lxor_lor, <- Z.add_nocarry_lxor by done.
  rewrite Z.shiftl_mul_pow2 by lia. lia.
Qed.

Section Sched.
Context {cfg : KernelConfig} {cfg_ok : KernelConfigOk cfg}.

Definition valid_queue (d p : Z) : Prop :=
  0 ≤ d < CONFIG_NUM_DOMAINS ∧ 0 ≤ p < CONFIG_NUM_PRIORITIES.

Lemma valid_bits d p : valid_queue d p → 0 ≤ p / 32 < 8 ∧ 0 ≤ p mod 32 < 32 ∧ p = 32 * (p / 32) + p mod 32.
Proof using cfg_ok.
  intros [_ Hp]. pose proof (cfg_priorities (cfg := cfg)).
  pose proof (Z.div_mod p 32). pose proof (Z.mod_pos_bound p 32).
  assert (0 ≤ p / 32 < 8) by (split; [apply Z.div_pos|apply Z.div_lt_upper_bound]; lia). lia.
Qed.

(** The array index of a queue, and its injectivity. *)
Definition qindex (d p : Z) : Z :=
  if 1 <? CONFIG_NUM_DOMAINS then d * CONFIG_NUM_PRIORITIES + p else p.

Lemma ready_queues_index_valid d p :
  valid_queue d p → ready_queues_index d p = Some (qindex d p).
Proof using cfg_ok.
  intros [Hd Hp]. unfold ready_queues_index, qindex.
  pose proof (cfg_priorities (cfg := cfg)). pose proof (cfg_domains (cfg := cfg)).
  destruct (Z.ltb_spec 1 CONFIG_NUM_DOMAINS).
  - rewrite w32_id; [done|]. unfold is_w32. nia.
  - by rewrite (proj2 (Z.eqb_eq d 0)) by lia.
Qed.

Lemma qindex_inj d p d' p' :
  valid_queue d p → valid_queue d' p' → qindex d p = qindex d' p' → d = d' ∧ p = p'.
Proof using Type.
  unfold qindex, valid_queue. destruct (Z.ltb_spec 1 CONFIG_NUM_DOMAINS); [|lia].
  intros [? ?] [? ?] E. assert (d = d') by nia. nia.
Qed.

(** ** The bitmap *)
Record bitmap_ok (l1 : Z → Z) (l2 : Z → Z → Z) (N : Z → Z → bool) : Prop := {
  bm_l2 d p : valid_queue d p → Z.testbit (l2 d (p / 32)) (p mod 32) = N d p;
  bm_valid d i j : 0 ≤ d < CONFIG_NUM_DOMAINS → 0 ≤ i < 8 → 0 ≤ j < 32 →
    Z.testbit (l2 d i) j = true → valid_queue d (32 * i + j);
  bm_l1 d i : 0 ≤ d < CONFIG_NUM_DOMAINS → 0 ≤ i < 8 →
    Z.testbit (l1 d) i = negb (l2 d i =? 0);
  bm_l1_high d i : 0 ≤ d < CONFIG_NUM_DOMAINS → 8 ≤ i < 32 → Z.testbit (l1 d) i = false;
  bm_l1_range d : 0 ≤ d < CONFIG_NUM_DOMAINS → is_w32 (l1 d);
  bm_l2_range d i : 0 ≤ d < CONFIG_NUM_DOMAINS → 0 ≤ i < 8 → is_w32 (l2 d i)
}.

Definition upd1 (f : Z → Z) (x v : Z) (y : Z) : Z := if y =? x then v else f y.
Definition upd2 (f : Z → Z → Z) (x1 x2 v : Z) (y1 y2 : Z) : Z :=
  if (y1 =? x1) && (y2 =? x2) then v else f y1 y2.

Lemma w32_zero_bits x : is_w32 x → (∀ i, 0 ≤ i < 32 → Z.testbit x i = false) → x = 0.
Proof using Type.
  intros [H1 H2] Hb. apply Z.bits_inj'. intros i Hi. rewrite Z.bits_0.
  destruct (decide (i < 32)); [by apply Hb|].
  destruct (decide (x = 0)) as [->|]; [apply Z.bits_0|].
  apply Z.bits_above_log2; [done|].
  assert (Z.log2 x < 32) by (apply Z.log2_lt_pow2; lia). lia.
Qed.

Lemma div_mod_32 p p' : p' / 32 = p / 32 → p' mod 32 = p mod 32 → p' = p.
Proof using Type. intros E1 E2. pose proof (Z.div_mod p 32). pose proof (Z.div_mod p' 32). lia. Qed.

Lemma bitmap_add l1 l2 N d p :
  bitmap_ok l1 l2 N → valid_queue d p →
  bitmap_ok (upd1 l1 d (Z.lor (l1 d) (BIT (p / 32))))
    (upd2 l2 d (p / 32) (Z.lor (l2 d (p / 32)) (BIT (p mod 32))))
    (λ d' p', (d' =? d) && (p' =? p) || N d' p').
Proof using cfg_ok.
  intros [H1 H2 H3 H4 H5 H6] Hv. pose proof (valid_bits _ _ Hv) as (V1 & V2 & V3).
  assert (Z.lor (l2 d (p / 32)) (BIT (p mod 32)) ≠ 0) as Hnz.
  { apply (testbit_nonzero _ (p mod 32)). rewrite testbit_lor_BIT by lia.
    by rewrite Z.eqb_refl, orb_true_r. }
  split; unfold upd1, upd2.
  - intros d' p' Hv'. pose proof (valid_bits _ _ Hv') as (W1 & W2 & _).
    destruct (Z.eqb_spec d' d) as [->|]; cbn [andb orb]; [|by apply H1].
    destruct (Z.eqb_spec (p' / 32) (p / 32)) as [E|E].
    + rewrite testbit_lor_BIT by lia. rewrite <- E, H1 by done.
      destruct (Z.eqb_spec p' p) as [->|Hne]; [by rewrite Z.eqb_refl, orb_true_r|].
      rewrite (proj2 (Z.eqb_neq _ _)), orb_false_r; [done|].
      intros E2. apply Hne. by apply div_mod_32.
    + rewrite (proj2 (Z.eqb_neq p' p)) by congruence. by apply H1.
  - intros d' i j Hd Hi Hj. destruct (Z.eqb_spec d' d) as [->|]; cbn [andb]; [|by apply H2].
    destruct (Z.eqb_spec i (p / 32)) as [->|]; [|by apply H2].
    rewrite testbit_lor_BIT by lia. intros [Hb|Hb]%orb_true_iff; [by apply H2|].
    apply Z.eqb_eq in Hb as <-. by rewrite <- V3.
  - intros d' i Hd Hi. destruct (Z.eqb_spec d' d) as [->|]; cbn [andb]; [|by apply H3].
    rewrite testbit_lor_BIT, H3 by lia.
    destruct (Z.eqb_spec i (p / 32)) as [->|].
    + rewrite Z.eqb_refl, orb_true_r. symmetry. apply negb_true_iff, Z.eqb_neq, Hnz.
    + by rewrite (proj2 (Z.eqb_neq (p / 32) i)), orb_false_r by done.
  - intros d' i Hd Hi. destruct (Z.eqb_spec d' d) as [->|]; [|by apply H4].
    rewrite testbit_lor_BIT, H4 by lia. cbn. apply Z.eqb_neq. lia.
  - intros d' Hd. destruct (Z.eqb_spec d' d) as [->|]; [|by apply H5].
    apply w32_lor; [by apply H5|apply w32_range].
  - intros d' i Hd Hi. destruct (Z.eqb_spec d' d) as [->|]; cbn [andb]; [|by apply H6].
    destruct (Z.eqb_spec i (p / 32)) as [->|]; [|by apply H6].
    apply w32_lor; [by apply H6|apply w32_range].
Qed.

Lemma wnot_BIT_nonneg n : 0 ≤ n < 32 → 0 ≤ wnot (BIT n).
Proof using Type.
  intros. rewrite BIT_eq by lia. unfold wnot.
  assert (2 ^ n < 2 ^ 32) by (apply Z.pow_lt_mono_r; lia). lia.
Qed.

Lemma bitmap_remove l1 l2 N d p :
  bitmap_ok l1 l2 N → valid_queue d p →
  let v := Z.land (l2 d (p / 32)) (wnot (BIT (p mod 32))) in
  bitmap_ok (if v =? 0 then upd1 l1 d (Z.land (l1 d) (wnot (BIT (p / 32)))) else l1)
    (upd2 l2 d (p / 32) v)
    (λ d' p', negb ((d' =? d) && (p' =? p)) && N d' p').
Proof using cfg_ok.
  intros [H1 H2 H3 H4 H5 H6] Hv v. pose proof (valid_bits _ _ Hv) as (V1 & V2 & V3).
  assert (∀ i, 0 ≤ i < 32 → Z.testbit v i = Z.testbit (l2 d (p / 32)) i && negb (p mod 32 =? i))
    as Hbit by (intros; by apply testbit_clear_BIT).
  assert (∀ d', (if v =? 0 then upd1 l1 d (Z.land (l1 d) (wnot (BIT (p / 32)))) else l1) d' =
    if (d' =? d) && (v =? 0) then Z.land (l1 d) (wnot (BIT (p / 32))) else l1 d') as El1.
  { intros d'. destruct (v =? 0); unfold upd1; by destruct (Z.eqb_spec d' d) as [->|]. }
  split; unfold upd2.
  - intros d' p' Hv'. pose proof (valid_bits _ _ Hv') as (W1 & W2 & _).
    destruct (Z.eqb_spec d' d) as [->|]; cbn [andb negb]; [|by apply H1].
    destruct (Z.eqb_spec (p' / 32) (p / 32)) as [E|E].
    + rewrite Hbit by lia. rewrite <- E, H1 by done.
      destruct (Z.eqb_spec p' p) as [->|Hne]; [by rewrite Z.eqb_refl, andb_false_r|].
      rewrite (proj2 (Z.eqb_neq (p mod 32) _)), andb_true_r; [done|].
      intros E2. apply Hne. by apply div_mod_32.
    + rewrite (proj2 (Z.eqb_neq p' p)) by congruence. by apply H1.
  - intros d' i j Hd Hi Hj. destruct (Z.eqb_spec d' d) as [->|]; cbn [andb]; [|by apply H2].
    destruct (Z.eqb_spec i (p / 32)) as [->|]; [|by apply H2].
    rewrite Hbit by lia. intros [Hb _]%andb_true_iff. by apply H2.
  - intros d' i Hd Hi. rewrite El1. destruct (Z.eqb_spec d' d) as [->|]; cbn [andb]; [|by apply H3].
    destruct (Z.eqb_spec i (p / 32)) as [->|].
    + destruct (Z.eqb_spec v 0) as [->|Hnz].
      * by rewrite testbit_clear_BIT, Z.eqb_refl, andb_false_r by lia.
      * rewrite H3 by lia. cbn. apply negb_true_iff, Z.eqb_neq.
        intros E. apply Hnz. unfold v. by rewrite E.
    + destruct (v =? 0); [|by apply H3].
      rewrite testbit_clear_BIT, H3 by lia.
      by rewrite (proj2 (Z.eqb_neq (p / 32) i)), andb_true_r by done.
  - intros d' i Hd Hi. rewrite El1. destruct ((d' =? d) && _) eqn:E; [|by apply H4].
    apply andb_true_iff in E as [->%Z.eqb_eq _]. by rewrite testbit_clear_BIT, H4 by lia.
  - intros d' Hd. rewrite El1. destruct ((d' =? d) && _) eqn:E; [|by apply H5].
    apply andb_true_iff in E as [->%Z.eqb_eq _].
    apply w32_land; [by apply H5|apply wnot_BIT_nonneg; lia].
  - intros d' i Hd Hi. destruct (Z.eqb_spec d' d) as [->|]; cbn [andb]; [|by apply H6].
    destruct (Z.eqb_spec i (p / 32)) as [->|]; [|by apply H6].
    apply w32_land; [by apply H6|apply wnot_BIT_nonneg; lia].
Qed.

(** The priority [chooseThread] reads off the bitmap is the highest one with
    a non-empty queue. *)
Lemma bitmap_highest l1 l2 N d :
  bitmap_ok l1 l2 N → 0 ≤ d < CONFIG_NUM_DOMAINS → l1 d ≠ 0 →
  let i := 31 - CLZ (l1 d) in
  let j := 31 - CLZ (l2 d i) in
  let p := Z.lor (Z.shiftl i 5) j in
  valid_queue d p ∧ N d p = true ∧ ∀ p', valid_queue d p' → N d p' = true → p' ≤ p.
Proof using cfg_ok.
  intros [H1 H2 H3 H4 H5 H6] Hd Hl1 i j p.
  pose proof (H5 d Hd) as Hw. assert (0 < l1 d) as Hpos by (unfold is_w32 in Hw; lia).
  pose proof (CLZ_range _ Hw Hpos) as Hi. pose proof (CLZ_testbit _ Hpos) as Hti.
  fold i in Hi, Hti.
  assert (0 ≤ i < 8) as Hi8.
  { destruct (decide (i < 8)); [lia|]. rewrite H4 in Hti by lia. done. }
  rewrite H3 in Hti by lia. apply negb_true_iff, Z.eqb_neq in Hti.
  pose proof (H6 d i Hd Hi8) as Hw2. assert (0 < l2 d i) as Hpos2 by (unfold is_w32 in Hw2; lia).
  pose proof (CLZ_range _ Hw2 Hpos2) as Hj. pose proof (CLZ_testbit _ Hpos2) as Htj.
  fold j in Hj, Htj.
  assert (p = 32 * i + j) as Ep.
  { unfold p. apply lor_shiftl_5; lia. }
  assert (valid_queue d p) as Hv by (rewrite Ep; apply H2; [lia|lia|lia|done]).
  assert (p / 32 = i ∧ p mod 32 = j) as [Ei Ej].
  { split; symmetry; [apply (Z.div_unique p 32 i j)|apply (Z.mod_unique p 32 i j)]; lia. }
  split_and!; [done|by rewrite <- H1, Ei, Ej by done|].
  intros p' Hv' Hn. pose proof (valid_bits _ _ Hv') as (W1 & W2 & W3).
  rewrite <- H1 in Hn by done.
  assert (p' / 32 ≤ i) as Hle.
  { apply CLZ_highest; [done|]. rewrite H3 by lia.
    apply negb_true_iff, Z.eqb_neq. by eapply testbit_nonzero. }
  destruct (decide (p' / 32 = i)) as [E|]; [|lia].
  rewrite E in Hn. pose proof (CLZ_highest _ _ Hpos2 Hn). fold j in H. lia.
Qed.

(** ** The invariant *)
Definition tcb_core (x : tcb_t) : tcb_t :=
  set_queued false (set_tcbSchedNext 0 (set_tcbSchedPrev 0 x)).
Definition queued (x : tcb_t) : bool := tcbQueued (tcbState x).
#[local] Existing Instance sched_links.

Record sched_ok (s : kstate) (Q : Z → Z → list Z) : Prop := {
  so_tcb t x : ks_tcb s !! t = Some x →
    t ≠ 0 ∧ valid_queue (tcbDomain x) (tcbPriority x) ∧
    (queued x = true ↔ t ∈ Q (tcbDomain x) (tcbPriority x));
  so_mem d p t : valid_queue d p → t ∈ Q d p →
    ∃ x, ks_tcb s !! t = Some x ∧ tcbDomain x = d ∧ tcbPriority x = p;
  so_queue d p : valid_queue d p → dqueue (ks_tcb s) (ready_queue s (qindex d p)) (Q d p);
  so_bitmap : bitmap_ok (L1Bitmap s) (L2Bitmap s) (λ d p, negb (bool_decide (Q d p = [])))
}.

Definition updQ (Q : Z → Z → list Z) (d p : Z) (l : list Z) (d' p' : Z) : list Z :=
  if (d' =? d) && (p' =? p) then l else Q d' p'.

Lemma updQ_eq Q d p l : updQ Q d p l d p = l.
Proof using Type. unfold updQ. by rewrite !Z.eqb_refl. Qed.
Lemma updQ_ne Q d p l d' p' : (d', p') ≠ (d, p) → updQ Q d p l d' p' = Q d' p'.
Proof using Type.
  intros H. unfold updQ. destruct (Z.eqb_spec d' d) as [->|], (Z.eqb_spec p' p) as [->|]; done.
Qed.

(** What an operation on the queues may change. *)
Definition sched_change (h : gmap Z tcb_t) (r : gmap Z tcb_queue_t) (b1 : gmap Z Z)
    (b2 : gmap (Z * Z) Z) (s : kstate) : kstate :=
  upd_ks_tcb h (upd_ksReadyQueues r
    (upd_ksReadyQueuesL1Bitmap b1 (upd_ksReadyQueuesL2Bitmap b2 s))).
Definition sched_frame (s s' : kstate) : Prop :=
  ∃ h r b1 b2, s' = sched_change h r b1 b2 s ∧
    ∀ y, tcb_core <$> h !! y = tcb_core <$> ks_tcb s !! y.

Lemma tcb_core_fields x y : tcb_core x = tcb_core y →
  tcbDomain x = tcbDomain y ∧ tcbPriority x = tcbPriority y ∧
  tsType (tcbState x) = tsType (tcbState y) ∧ tcbContext x = tcbContext y.
Proof using Type. unfold tcb_core, set_queued. destruct x as [? []], y as [? []]. cbn. by intros [= ]. Qed.

Lemma sched_ok_change s Q t x h q l b1 b2 b :
  let d := tcbDomain x in let p := tcbPriority x in
  sched_ok s Q → ks_tcb s !! t = Some x →
  (∀ y, tcb_core <$> h !! y = tcb_core <$> ks_tcb s !! y) →
  (∀ y, y ≠ t → queued <$> h !! y = queued <$> ks_tcb s !! y) →
  queued <$> h !! t = Some b → (b = true ↔ t ∈ l) →
  (∀ y, y ≠ t → y ∈ l ↔ y ∈ Q d p) →
  (∀ D, t ∉ D → (∀ y, y ∈ D → y ∉ Q d p) → same_links (ks_tcb s) h D) →
  dqueue h q l →
  bitmap_ok (λ d, default 0 (b1 !! d)) (λ d i, default 0 (b2 !! (d, i)))
    (λ d' p', negb (bool_decide (updQ Q d p l d' p' = []))) →
  sched_ok (sched_change h (<[qindex d p := q]> (ksReadyQueues s)) b1 b2 s) (updQ Q d p l).
Proof using cfg_ok.
  intros d p Hok Hx Hcore Hqd Hqt Hb Hmem Hlinks Hdq Hbm.
  destruct (so_tcb _ _ Hok _ _ Hx) as (Hnz & Hval & Hqx).
  assert (∀ y x', h !! y = Some x' → ∃ x0, ks_tcb s !! y = Some x0 ∧ tcb_core x' = tcb_core x0) as Hback.
  { intros y x' Hy. specialize (Hcore y). rewrite Hy in Hcore.
    destruct (ks_tcb s !! y) as [x0|]; [|done]. cbn in Hcore. exists x0. split; congruence. }
  split; cbn [ks_tcb sched_change upd_ks_tcb]; unfold ready_queue;
    cbn [ksReadyQueues upd_ks_tcb upd_ksReadyQueues sched_change].
  - intros y x' Hy. destruct (Hback y x' Hy) as (x0 & Hx0 & (E1 & E2 & _)%tcb_core_fields).
    destruct (so_tcb _ _ Hok _ _ Hx0) as (Hy0 & Hv0 & Hq0). rewrite E1, E2.
    split_and!; [done|done|].
    destruct (decide (y = t)) as [->|Hyt].
    + assert (x0 = x) as -> by congruence. rewrite Hy in Hqt. cbn in Hqt.
      fold d p. rewrite updQ_eq. by replace (queued x') with b by congruence.
    + specialize (Hqd y Hyt). rewrite Hy, Hx0 in Hqd. cbn in Hqd.
      replace (queued x') with (queued x0) by congruence. rewrite Hq0.
      destruct (decide ((tcbDomain x0, tcbPriority x0) = (d, p))) as [Edp|Edp].
      * injection Edp as -> ->. rewrite updQ_eq. symmetry. by apply Hmem.
      * by rewrite updQ_ne.
  - intros d' p' y Hv Hy.
    assert (∃ x0, ks_tcb s !! y = Some x0 ∧ tcbDomain x0 = d' ∧ tcbPriority x0 = p') as (x0 & Hx0 & E1 & E2).
    { destruct (decide ((d', p') = (d, p))) as [[= -> ->]|Edp].
      - rewrite updQ_eq in Hy. destruct (decide (y = t)) as [->|Hyt]; [by exists x|].
        apply (so_mem _ _ Hok); [done|]. by apply Hmem.
      - rewrite updQ_ne in Hy by done. by apply (so_mem _ _ Hok). }
    specialize (Hcore y). rewrite Hx0 in Hcore. destruct (h !! y) as [x'|]; [|done].
    cbn in Hcore.
    assert (tcb_core x' = tcb_core x0) as (F1 & F2 & _)%tcb_core_fields by congruence.
    exists x'. split_and!; congruence.
  - intros d' p' Hv. destruct (decide ((d', p') = (d, p))) as [[= -> ->]|Edp].
    + by rewrite updQ_eq, lookup_insert_eq.
    + rewrite updQ_ne by done. rewrite lookup_insert_ne
        by (intros E; apply Edp; apply qindex_inj in E as [-> ->]; done).
      apply (dqueue_frame (ks_tcb s)); [|by apply Hok].
      apply Hlinks.
      * intros Ht. destruct (so_mem _ _ Hok _ _ _ Hv Ht) as (x0 & Hx0 & <- & <-).
        apply Edp. by assert (x0 = x) as -> by congruence.
      * intros y Hy1 Hy2. destruct (so_mem _ _ Hok _ _ _ Hv Hy1) as (x1 & Hx1 & <- & <-).
        destruct (so_mem _ _ Hok _ _ _ Hval Hy2) as (x2 & Hx2 & E1 & E2).
        apply Edp. assert (x1 = x2) as -> by congruence. by rewrite E1, E2.
  - exact Hbm.
Qed.

(** Writing fields the scheduler does not look at. *)
Lemma sched_ok_inert s Q t x x' :
  sched_ok s Q → ks_tcb s !! t = Some x → tcbDomain x' = tcbDomain x →
  tcbPriority x' = tcbPriority x → queued x' = queued x →
  tcbSchedNext x' = tcbSchedNext x → tcbSchedPrev x' = tcbSchedPrev x →
  sched_ok (upd_ks_tcb (<[t := x']> (ks_tcb s)) s) Q.
Proof using Type.
  intros [H1 H2 H3 H4] Hx E1 E2 E3 E4 E5. split; cbn [ks_tcb upd_ks_tcb]; [| | |exact H4].
  - intros y z. destruct (decide (y = t)) as [->|].
    + rewrite lookup_insert_eq. intros [= <-]. rewrite E1, E2, E3. by apply H1.
    + rewrite lookup_insert_ne by done. apply H1.
  - intros d p y Hv Hy. destruct (H2 d p y Hv Hy) as (z & Hz & Ed & Ep).
    destruct (decide (y = t)) as [->|].
    + exists x'. assert (z = x) as -> by congruence. rewrite lookup_insert_eq, E1, E2. done.
    + exists z. by rewrite lookup_insert_ne.
  - intros d p Hv. apply (dqueue_frame (ks_tcb s)); [|by apply H3].
    intros y _. destruct (decide (y = t)) as [->|].
    + rewrite lookup_insert_eq, Hx. cbn. by rewrite E4, E5.
    + by rewrite lookup_insert_ne.
Qed.

(** ** The queue operations *)
Lemma bitmap_ok_ext l1 l2 N l1' l2' N' :
  (∀ d, l1' d = l1 d) → (∀ d i, l2' d i = l2 d i) → (∀ d p, N' d p = N d p) →
  bitmap_ok l1 l2 N → bitmap_ok l1' l2' N'.
Proof using Type.
  intros E1 E2 E3 [H1 H2 H3 H4 H5 H6]. split; intros *; rewrite ?E1, ?E2, ?E3; eauto.
Qed.

Definition bm1 (s : kstate) : gmap Z Z := ksReadyQueuesL1Bitmap s.
Definition bm2 (s : kstate) : gmap (Z * Z) Z := ksReadyQueuesL2Bitmap s.

Lemma lookup_upd1 (b : gmap Z Z) d v d' :
  default 0 (<[d := v]> b !! d') = upd1 (λ d, default 0 (b !! d)) d v d'.
Proof using Type.
  unfold upd1. destruct (Z.eqb_spec d' d) as [->|].
  - by rewrite lookup_insert_eq.
  - by rewrite lookup_insert_ne by done.
Qed.
Lemma lookup_upd2 (b : gmap (Z * Z) Z) d i v d' i' :
  default 0 (<[(d, i) := v]> b !! (d', i')) = upd2 (λ d i, default 0 (b !! (d, i))) d i v d' i'.
Proof using Type.
  unfold upd2. destruct (Z.eqb_spec d' d) as [->|], (Z.eqb_spec i' i) as [->|]; cbn [andb];
    rewrite ?lookup_insert_eq; try done; by rewrite lookup_insert_ne by congruence.
Qed.

Lemma addToBitmap_Ok s Q d p :
  sched_ok s Q → valid_queue d p →
  ∃ b1 b2, addToBitmap d p s =
      Ok tt (upd_ksReadyQueuesL2Bitmap b2 (upd_ksReadyQueuesL1Bitmap b1 s)) ∧
    ∀ l, l ≠ [] → bitmap_ok (λ d, default 0 (b1 !! d)) (λ d i, default 0 (b2 !! (d, i)))
      (λ d' p', negb (bool_decide (updQ Q d p l d' p' = []))).
Proof using cfg_ok.
  intros Hok Hv. eexists _, _. split; [reflexivity|]. intros l Hl.
  destruct (valid_bits _ _ Hv) as (V1 & V2 & V3).
  eapply bitmap_ok_ext; [..|exact (bitmap_add _ _ _ d p (so_bitmap _ _ Hok) Hv)].
  - intros d'. cbv beta. rewrite lookup_upd1. unfold prio_to_l1index. by rewrite shiftr_5.
  - intros d' i'. cbv beta. rewrite lookup_upd2. unfold prio_to_l1index. rewrite shiftr_5, land_31 by (destruct Hv; lia).
    done.
  - intros d' p'. unfold updQ. destruct ((d' =? d) && (p' =? p)); [|done].
    by rewrite bool_decide_eq_false_2.
Qed.

Lemma removeFromBitmap_Ok s Q d p :
  sched_ok s Q → valid_queue d p →
  ∃ b1 b2, removeFromBitmap d p s =
      Ok tt (upd_ksReadyQueuesL2Bitmap b2 (upd_ksReadyQueuesL1Bitmap b1 s)) ∧
    bitmap_ok (λ d, default 0 (b1 !! d)) (λ d i, default 0 (b2 !! (d, i)))
      (λ d' p', negb (bool_decide (updQ Q d p [] d' p' = []))).
Proof using cfg_ok.
  intros Hok Hv. destruct (valid_bits _ _ Hv) as (V1 & V2 & V3).
  pose proof (bitmap_remove _ _ _ d p (so_bitmap _ _ Hok) Hv) as Hr. cbv zeta in Hr.
  unfold removeFromBitmap. ksteps. unfold prio_to_l1index.
  rewrite shiftr_5, land_31 by (destruct Hv; lia).
  set (v := Z.land (L2Bitmap s d (p / 32)) (wnot (BIT (p mod 32)))) in *.
  assert (∀ d' p', negb (bool_decide (updQ Q d p [] d' p' = [])) =
    negb ((d' =? d) && (p' =? p)) && negb (bool_decide (Q d' p' = []))) as EN.
  { intros d' p'. unfold updQ. by destruct ((d' =? d) && (p' =? p)). }
  destruct (v =? 0) eqn:Ev.
  - eexists _, _. split; [reflexivity|]. eapply bitmap_ok_ext; [..|exact Hr]; [..|exact EN].
    + intros d'. apply lookup_upd1.
    + intros d' i'. apply lookup_upd2.
  - exists (bm1 s), (<[(d, p / 32) := v]> (bm2 s)). split; [by destruct s|].
    eapply bitmap_ok_ext; [..|exact Hr]; [..|exact EN].
    + done.
    + intros d' i'. apply lookup_upd2.
Qed.

Lemma enqueue_tail t x prev next idx q s :
  ks_tcb s !! t = Some x →
  (updTCB t (set_tcbSchedPrev prev) ;;;
   updTCB t (set_tcbSchedNext next) ;;;
   setReadyQueue idx q ;;;
   updTCB t (set_queued true)) s =
  Ok tt (upd_ks_tcb (<[t := set_queued true (set_tcbSchedNext next (set_tcbSchedPrev prev x))]> (ks_tcb s))
          (upd_ksReadyQueues (<[idx := q]> (ksReadyQueues s)) s)).
Proof using Type.
  intros Hx. kload.
  rewrite (kbind_Ok _ _ _ _ _ (updTCB_Ok t _ (set_tcbSchedPrev prev x) _ (lookup_insert_eq _ _ _))).
  unfold setReadyQueue. kstep.
  rewrite (updTCB_Ok t _ (set_tcbSchedNext next (set_tcbSchedPrev prev x)))
    by (cbn; apply lookup_insert_eq).
  cbn [ks_tcb upd_ks_tcb upd_ksReadyQueues ksReadyQueues]. by rewrite !insert_insert_eq.
Qed.

(** A heap in which only links of threads of [D] differ. *)
Definition relinked (h h1 : gmap Z tcb_t) (D : list Z) : Prop :=
  (∀ y, tcb_core <$> h1 !! y = tcb_core <$> h !! y ∧ queued <$> h1 !! y = queued <$> h !! y) ∧
  ∀ y, y ∉ D → h1 !! y = h !! y.

Lemma relinked_refl h D : relinked h h D.
Proof using Type. done. Qed.

Lemma relinked_insert h h1 D y x x' :
  relinked h h1 D → h1 !! y = Some x → y ∈ D → tcb_core x' = tcb_core x → queued x' = queued x →
  relinked h (<[y := x']> h1) D.
Proof using Type.
  intros [H1 H2] Hx Hy Ec Eq. split.
  - intros z. destruct (H1 z) as [K1 K2]. destruct (decide (z = y)) as [->|].
    + rewrite lookup_insert_eq. rewrite Hx in K1, K2. cbn in *. by rewrite Ec, Eq.
    + by rewrite lookup_insert_ne.
  - intros z Hz. rewrite lookup_insert_ne by (by intros ->). by apply H2.
Qed.

Lemma relinked_lookup h h1 D y x :
  relinked h h1 D → h !! y = Some x →
  ∃ x1, h1 !! y = Some x1 ∧ tcb_core x1 = tcb_core x ∧ queued x1 = queued x.
Proof using Type.
  intros [H1 _] Hx. destruct (H1 y) as [K1 K2]. rewrite Hx in K1, K2.
  destruct (h1 !! y) as [x1|]; [|done]. cbn in *. exists x1. split_and!; congruence.
Qed.

Lemma sched_ok_relink s Q t x h1 x' q l b1 b2 :
  let d := tcbDomain x in let p := tcbPriority x in
  sched_ok s Q → ks_tcb s !! t = Some x → relinked (ks_tcb s) h1 (t :: Q d p) →
  tcb_core x' = tcb_core x → (queued x' = true ↔ t ∈ l) →
  (∀ y, y ≠ t → y ∈ l ↔ y ∈ Q d p) → dqueue (<[t := x']> h1) q l →
  bitmap_ok (λ d, default 0 (b1 !! d)) (λ d i, default 0 (b2 !! (d, i)))
    (λ d' p', negb (bool_decide (updQ Q d p l d' p' = []))) →
  let s' := sched_change (<[t := x']> h1) (<[qindex d p := q]> (ksReadyQueues s)) b1 b2 s in
  sched_frame s s' ∧ sched_ok s' (updQ Q d p l).
Proof using cfg_ok.
  intros d p Hok Hx [R1 R2] Ec Hq Hmem Hdq Hbm s'.
  assert (∀ y, tcb_core <$> <[t := x']> h1 !! y = tcb_core <$> ks_tcb s !! y) as Hc.
  { intros y. destruct (decide (y = t)) as [->|].
    - rewrite lookup_insert_eq, Hx. cbn. by rewrite Ec.
    - rewrite lookup_insert_ne by done. apply R1. }
  split; [by exists (<[t := x']> h1), (<[qindex d p := q]> (ksReadyQueues s)), b1, b2|].
  apply (sched_ok_change s Q t x _ _ _ b1 b2 (queued x')); try done.
  - intros y Hy. rewrite lookup_insert_ne by done. apply R1.
  - by rewrite lookup_insert_eq.
  - intros D Ht HD y Hy. rewrite lookup_insert_ne by (by intros ->).
    rewrite R2; [done|]. intros [->|Hin]%elem_of_cons; [done|]. by apply (HD y Hy).
Qed.

(** The bitmap keeps its meaning when no queue becomes empty or non-empty. *)
Lemma bitmap_same s Q d p l :
  sched_ok s Q → (l = [] ↔ Q d p = []) →
  bitmap_ok (λ d, default 0 (bm1 s !! d)) (λ d i, default 0 (bm2 s !! (d, i)))
    (λ d' p', negb (bool_decide (updQ Q d p l d' p' = []))).
Proof using Type.
  intros Hok Hl. eapply bitmap_ok_ext; [..|exact (so_bitmap _ _ Hok)]; try done.
  intros d' p'. unfold updQ. destruct (Z.eqb_spec d' d) as [->|]; [|done].
  destruct (Z.eqb_spec p' p) as [->|]; [|done]. cbn [andb].
  f_equal. by apply bool_decide_ext.
Qed.

Lemma sched_change_same s h z r :
  upd_ks_tcb h (upd_ksReadyQueues r (upd_ks_tcb z s)) = sched_change h r (bm1 s) (bm2 s) s.
Proof using Type. by destruct s. Qed.

Lemma core_link x : tcb_core (set_queued true x) = tcb_core x ∧ tcb_core (set_queued false x) = tcb_core x ∧
  (∀ v, tcb_core (set_tcbSchedNext v x) = tcb_core x) ∧ (∀ v, tcb_core (set_tcbSchedPrev v x) = tcb_core x).
Proof using Type. by destruct x as [? []]. Qed.
Lemma core_queued b x : tcb_core (set_queued b x) = tcb_core x.
Proof using Type. destruct b; apply core_link. Qed.
Lemma core_next v x : tcb_core (set_tcbSchedNext v x) = tcb_core x.
Proof using Type. apply core_link. Qed.
Lemma core_prev v x : tcb_core (set_tcbSchedPrev v x) = tcb_core x.
Proof using Type. apply core_link. Qed.

Lemma dqueue_requeue h t x x' q l :
  tcbSchedNext x' = tcbSchedNext x → tcbSchedPrev x' = tcbSchedPrev x →
  dqueue (<[t := x]> h) q l → dqueue (<[t := x']> h) q l.
Proof using Type.
  intros E1 E2. apply dqueue_frame. intros y _. destruct (decide (y = t)) as [->|].
  - rewrite !lookup_insert_eq. cbn. by rewrite E1, E2.
  - by rewrite !lookup_insert_ne.
Qed.

Lemma tcbSchedEnqueue_Ok s Q t x :
  sched_ok s Q → ks_tcb s !! t = Some x → queued x = false →
  ∃ s', tcbSchedEnqueue t s = Ok tt s' ∧ sched_frame s s' ∧
    sched_ok s' (updQ Q (tcbDomain x) (tcbPriority x) (t :: Q (tcbDomain x) (tcbPriority x))).
Proof using cfg_ok.
  intros Hok Hx Hqx. destruct (so_tcb _ _ Hok _ _ Hx) as (Hnz & Hval & Hq).
  assert (t ∉ Q (tcbDomain x) (tcbPriority x)) as Ht by (rewrite <- Hq; congruence).
  pose proof (so_queue _ _ Hok _ _ Hval) as Hdq.
  pose proof (dqueue_push _ _ _ _ _ Hdq Ht Hnz Hx) as Hpush.
  pose proof (dqueue_empty_end _ _ _ Hdq) as He.
  set (q := ready_queue s (qindex (tcbDomain x) (tcbPriority x))) in *.
  unfold tcbSchedEnqueue. kload. fold (queued x). rewrite Hqx.
  rewrite (kopt_Some _ _ _ _ (ready_queues_index_valid _ _ Hval)). kstep. fold q.
  destruct (Q (tcbDomain x) (tcbPriority x)) as [|y ts] eqn:EQ.
  - rewrite (proj2 He eq_refl) in *. cbn [Z.eqb] in *.
    destruct (addToBitmap_Ok s Q _ _ Hok Hval) as (b1 & b2 & Eb & Hb).
    rewrite (kbind_Ok _ _ _ (upd_ksReadyQueuesL2Bitmap b2 (upd_ksReadyQueuesL1Bitmap b1 s)) t)
      by (by rewrite (kbind_Ok _ _ _ _ _ Eb)).
    rewrite (enqueue_tail t x) by done. eexists. split; [reflexivity|].
    apply (sched_ok_relink s Q t x (ks_tcb s)); rewrite ?EQ, ?core_queued, ?core_next, ?core_prev;
      try done; [split; [by left|done]|set_solver| |by apply Hb].
    eapply dqueue_requeue; [..|exact Hpush]; done.
  - assert (queue_end q ≠ 0) as Hne by (by rewrite He).
    rewrite (proj2 (Z.eqb_neq _ _) Hne) in *.
    assert (queue_head q = y) as Ey by apply Hdq. rewrite Ey in *.
    destruct (dseg_lookup _ _ _ _ y (proj1 (proj2 Hdq)) ltac:(by left)) as [yt Hy].
    rewrite Hy in Hpush. assert (t ≠ y) as Hty by (intros ->; apply Ht; by left).
    rewrite (kbind_Ok _ _ _ (upd_ks_tcb (<[y := set_tcbSchedPrev t yt]> (ks_tcb s)) s) (queue_end q))
      by (by rewrite (kbind_Ok _ _ _ _ _ (updTCB_Ok y _ yt s Hy))).
    rewrite (enqueue_tail t x) by (cbn; by rewrite lookup_insert_ne).
    eexists. split; [reflexivity|]. rewrite sched_change_same.
    apply (sched_ok_relink s Q t x); rewrite ?EQ, ?core_queued, ?core_next, ?core_prev; try done;
      [|split; [by left|done]|set_solver| |by apply bitmap_same; rewrite ?EQ].
    + eapply relinked_insert; [apply relinked_refl|exact Hy|set_solver|apply core_prev|done].
    + eapply dqueue_requeue; [..|exact Hpush]; done.
Qed.

Lemma tcbSchedAppend_Ok s Q t x :
  sched_ok s Q → ks_tcb s !! t = Some x → queued x = false →
  ∃ s', tcbSchedAppend t s = Ok tt s' ∧ sched_frame s s' ∧
    sched_ok s' (updQ Q (tcbDomain x) (tcbPriority x) (Q (tcbDomain x) (tcbPriority x) ++ [t])).
Proof using cfg_ok.
  intros Hok Hx Hqx. destruct (so_tcb _ _ Hok _ _ Hx) as (Hnz & Hval & Hq).
  assert (t ∉ Q (tcbDomain x) (tcbPriority x)) as Ht by (rewrite <- Hq; congruence).
  pose proof (so_queue _ _ Hok _ _ Hval) as Hdq.
  pose proof (dqueue_append _ _ _ _ _ Hdq Ht Hnz Hx) as Hpush.
  pose proof (dqueue_empty _ _ _ Hdq) as He.
  set (q := ready_queue s (qindex (tcbDomain x) (tcbPriority x))) in *.
  unfold tcbSchedAppend. kload. fold (queued x). rewrite Hqx.
  rewrite (kopt_Some _ _ _ _ (ready_queues_index_valid _ _ Hval)). kstep. fold q.
  destruct (decide (Q (tcbDomain x) (tcbPriority x) = [])) as [EQ|EQ].
  - rewrite (proj2 He EQ) in *. cbn [Z.eqb] in *.
    destruct (addToBitmap_Ok s Q _ _ Hok Hval) as (b1 & b2 & Eb & Hb).
    rewrite (kbind_Ok _ _ _ (upd_ksReadyQueuesL2Bitmap b2 (upd_ksReadyQueuesL1Bitmap b1 s)) t)
      by (by rewrite (kbind_Ok _ _ _ _ _ Eb)).
    rewrite (enqueue_tail t x) by done. eexists. split; [reflexivity|].
    apply (sched_ok_relink s Q t x (ks_tcb s)); rewrite ?EQ, ?core_queued, ?core_next, ?core_prev;
      try done; [split; [set_solver|done]|set_solver| |by apply Hb].
    rewrite EQ in Hpush. eapply dqueue_requeue; [..|exact Hpush]; done.
  - assert (queue_head q ≠ 0) as Hne by (by rewrite He).
    rewrite (proj2 (Z.eqb_neq _ _) Hne) in *.
    assert (queue_end q ∈ Q (tcbDomain x) (tcbPriority x)) as Hin.
    { rewrite (proj2 (proj2 (proj2 Hdq))). by apply last_in. }
    destruct (dseg_lookup _ _ _ _ _ (proj1 (proj2 Hdq)) Hin) as [yt Hy].
    rewrite Hy in Hpush. assert (t ≠ queue_end q) as Hty by (intros ->; done).
    rewrite (kbind_Ok _ _ _ (upd_ks_tcb (<[queue_end q := set_tcbSchedNext t yt]> (ks_tcb s)) s) (queue_head q))
      by (by rewrite (kbind_Ok _ _ _ _ _ (updTCB_Ok _ _ yt s Hy))).
    rewrite (enqueue_tail t x) by (cbn; by rewrite lookup_insert_ne).
    eexists. split; [reflexivity|]. rewrite sched_change_same.
    apply (sched_ok_relink s Q t x); rewrite ?core_queued, ?core_next, ?core_prev; try done;
      [|split; [set_solver|done]|set_solver| |].
    + eapply relinked_insert; [apply relinked_refl|exact Hy|by right|apply core_next|done].
    + eapply dqueue_requeue; [..|exact Hpush]; done.
    + apply bitmap_same; [done|]. split; [|done].
      by destruct (Q (tcbDomain x) (tcbPriority x)).
Qed.

Lemma remove_mid (l1 l2 : list Z) t : NoDup (l1 ++ t :: l2) → list_remove t (l1 ++ t :: l2) = l1 ++ l2.
Proof using Type.
  intros (H1 & H2 & _)%NoDup_app_cons_inv.
  assert (∀ p q : Z, [p] = [q] → p = q) as Hinj by congruence.
  by rewrite list_remove_app, list_remove_eq, !(list_remove_notin (λ z, [z]) Hinj).
Qed.

(** Unlinking a thread from its neighbours, in the two steps of the code.
    [unlink1] and [unlink2] are the heaps after each. *)
Definition unlink1 (h : gmap Z tcb_t) (x : tcb_t) : gmap Z tcb_t :=
  if tcbSchedPrev x =? 0 then h
  else match h !! tcbSchedPrev x with
       | Some yt => <[tcbSchedPrev x := set_tcbSchedNext (tcbSchedNext x) yt]> h | None => h end.
Definition unlink2 (h : gmap Z tcb_t) (x : tcb_t) : gmap Z tcb_t :=
  let h1 := unlink1 h x in
  if tcbSchedNext x =? 0 then h1
  else match h1 !! tcbSchedNext x with
       | Some yt => <[tcbSchedNext x := set_tcbSchedPrev (tcbSchedPrev x) yt]> h1 | None => h1 end.

Section Unlink.
Context (s : kstate) (Q : Z → Z → list Z) (t : Z) (x : tcb_t) (l1 l2 : list Z).
#[local] Abbreviation d := (tcbDomain x).
#[local] Abbreviation p := (tcbPriority x).
#[local] Abbreviation q := (ready_queue s (qindex d p)).
Context (Hok : sched_ok s Q) (Hx : ks_tcb s !! t = Some x) (HQ : Q d p = l1 ++ t :: l2).

Lemma unlink_facts :
  valid_queue d p ∧ t ∉ l1 ∧ t ∉ l2 ∧ (tcbSchedPrev x = 0 ∨ tcbSchedPrev x ∈ l1) ∧
  (tcbSchedNext x = 0 ∨ tcbSchedNext x ∈ l2) ∧
  (l1 ++ l2 = [] ↔ tcbSchedPrev x = 0 ∧ tcbSchedNext x = 0).
Proof using Hok Hx HQ cfg_ok.
  destruct (so_tcb _ _ Hok _ _ Hx) as (Hnz & Hval & _).
  pose proof (so_queue _ _ Hok _ _ Hval) as Hdq. rewrite HQ in Hdq.
  destruct (NoDup_app_cons_inv _ _ _ (proj1 Hdq)) as (N1 & N2 & _).
  destruct (dqueue_remove _ _ _ _ _ _ Hdq Hx) as (Ep & En & _).
  cbn [lprev lnext sched_links] in Ep, En. destruct Hdq as (_ & Hs & _).
  assert (∀ y, y ∈ l1 ++ t :: l2 → y ≠ 0) as Hnzs by (intros y; by eapply dseg_nonzero).
  assert (tcbSchedPrev x = 0 ∧ l1 = [] ∨ tcbSchedPrev x ∈ l1 ∧ tcbSchedPrev x ≠ 0) as H1.
  { rewrite Ep. destruct (decide (l1 = [])) as [->|Hn]; [by left|right].
    pose proof (last_in l1 0 Hn). split; [done|apply Hnzs; set_solver]. }
  assert (tcbSchedNext x = 0 ∧ l2 = [] ∨ tcbSchedNext x ∈ l2 ∧ tcbSchedNext x ≠ 0) as H2.
  { rewrite En. destruct l2 as [|y l]; [by left|right]. cbn.
    split; [by left|apply Hnzs; set_solver]. }
  split_and!; try done; [tauto|tauto|].
  destruct H1 as [[H1 ->]|[H1 H1']], H2 as [[H2 ->]|[H2 H2']]; cbn; try tauto.
  - split; [intros ->; set_solver|tauto].
  - rewrite app_nil_r. split; [intros ->; set_solver|tauto].
  - split; [intros [-> _]%app_eq_nil; set_solver|tauto].
Qed.

Lemma unlink_first :
  ∃ b1 b2, (if negb (tcbSchedPrev x =? 0) then
              updTCB (tcbSchedPrev x) (set_tcbSchedNext (tcbSchedNext x)) ;;; kret (queue_head q)
            else kwhen (tcbSchedNext x =? 0) (removeFromBitmap d p) ;;; kret (tcbSchedNext x)) s =
    Ok (if tcbSchedPrev x =? 0 then tcbSchedNext x else queue_head q)
      (sched_change (unlink1 (ks_tcb s) x) (ksReadyQueues s) b1 b2 s) ∧
    bitmap_ok (λ d, default 0 (b1 !! d)) (λ d i, default 0 (b2 !! (d, i)))
      (λ d' p', negb (bool_decide (updQ Q d p (l1 ++ l2) d' p' = []))) ∧
    relinked (ks_tcb s) (unlink1 (ks_tcb s) x) (Q d p).
Proof using Hok Hx HQ cfg_ok.
  destruct unlink_facts as (Hval & _ & _ & Hp & _ & Hnil). unfold unlink1.
  destruct (Z.eqb_spec (tcbSchedPrev x) 0) as [E|E]; cbn [negb].
  - destruct (Z.eqb_spec (tcbSchedNext x) 0) as [E'|E']; cbn [kwhen].
    + destruct (removeFromBitmap_Ok s Q d p Hok Hval) as (b1 & b2 & Eb & Hb).
      exists b1, b2. rewrite (kbind_Ok _ _ _ _ _ Eb), (proj2 Hnil) by done.
      split_and!; [by destruct s|done|apply relinked_refl].
    + exists (bm1 s), (bm2 s). split_and!; [by destruct s| |apply relinked_refl].
      apply bitmap_same; [done|]. rewrite Hnil, HQ. split; [tauto|by destruct l1].
  - destruct Hp as [?|Hp]; [done|].
    pose proof (so_queue _ _ Hok _ _ Hval) as (_ & Hs & _). rewrite HQ in Hs.
    destruct (dseg_lookup _ _ _ _ (tcbSchedPrev x) Hs ltac:(set_solver)) as [pt Hpt].
    rewrite (kbind_Ok _ _ _ _ _ (updTCB_Ok _ _ pt s Hpt)), Hpt.
    exists (bm1 s), (bm2 s). split_and!; [by destruct s| |].
    + apply bitmap_same; [done|]. rewrite Hnil, HQ. split; [tauto|by destruct l1].
    + eapply relinked_insert; [apply relinked_refl|done|rewrite HQ; set_solver|apply core_next|done].
Qed.

Lemma unlink_second b1 b2 qh :
  let s1 := sched_change (unlink1 (ks_tcb s) x) (ksReadyQueues s) b1 b2 s in
  relinked (ks_tcb s) (unlink1 (ks_tcb s) x) (Q d p) →
  unlink1 (ks_tcb s) x !! t = Some x ∧
  (if negb (tcbSchedNext x =? 0) then
     updTCB (tcbSchedNext x) (set_tcbSchedPrev (tcbSchedPrev x)) ;;; kret qh
   else kret (tcbSchedPrev x)) s1 =
    Ok (if tcbSchedNext x =? 0 then tcbSchedPrev x else qh)
      (sched_change (unlink2 (ks_tcb s) x) (ksReadyQueues s) b1 b2 s) ∧
  relinked (ks_tcb s) (unlink2 (ks_tcb s) x) (Q d p) ∧ unlink2 (ks_tcb s) x !! t = Some x.
Proof using Hok Hx HQ cfg_ok.
  intros s1 Hr. destruct unlink_facts as (Hval & N1 & N2 & Hp & Hn & _).
  assert (unlink1 (ks_tcb s) x !! t = Some x) as Ht1.
  { unfold unlink1. destruct (Z.eqb_spec (tcbSchedPrev x) 0); [done|].
    destruct (ks_tcb s !! tcbSchedPrev x); [|done].
    rewrite lookup_insert_ne; [done|]. intros <-. by destruct Hp. }
  split; [done|]. unfold unlink2.
  destruct (Z.eqb_spec (tcbSchedNext x) 0) as [E|E]; cbn [negb]; [done|].
  destruct Hn as [?|Hn]; [done|].
  pose proof (so_queue _ _ Hok _ _ Hval) as (_ & Hs & _). rewrite HQ in Hs.
  destruct (dseg_lookup _ _ _ _ (tcbSchedNext x) Hs ltac:(set_solver)) as [nt Hnt].
  destruct (relinked_lookup _ _ _ _ _ Hr Hnt) as (nt' & Hnt' & _). rewrite Hnt'.
  rewrite (kbind_Ok _ _ _ _ _ (updTCB_Ok _ _ nt' s1 Hnt')). split_and!.
  - by destruct s.
  - eapply relinked_insert; [done|done|rewrite HQ; set_solver|apply core_prev|done].
  - rewrite lookup_insert_ne; [done|]. by intros <-.
Qed.
End Unlink.

Lemma tcbSchedDequeue_Ok s Q t x :
  sched_ok s Q → ks_tcb s !! t = Some x → queued x = true →
  ∃ s', tcbSchedDequeue t s = Ok tt s' ∧ sched_frame s s' ∧
    sched_ok s' (updQ Q (tcbDomain x) (tcbPriority x)
                   (list_remove t (Q (tcbDomain x) (tcbPriority x)))).
Proof using cfg_ok.
  intros Hok Hx Hqx. destruct (so_tcb _ _ Hok _ _ Hx) as (Hnz & Hval & Hq).
  destruct (list_elem_of_split _ _ (proj1 Hq Hqx)) as (l1 & l2 & HQ).
  pose proof (so_queue _ _ Hok _ _ Hval) as Hdq. rewrite HQ in Hdq.
  destruct (dqueue_remove _ _ _ _ _ _ Hdq Hx) as (_ & _ & Hrem).
  cbn [lprev lnext sched_links set_lnext set_lprev] in Hrem.
  fold (unlink1 (ks_tcb s) x) in Hrem. fold (unlink2 (ks_tcb s) x) in Hrem.
  rewrite (f_equal (list_remove t) HQ), (remove_mid _ _ _ (proj1 Hdq)).
  destruct (unlink_first s Q t x l1 l2 Hok Hx HQ) as (b1 & b2 & E1 & Hb & Hr1).
  destruct (unlink_second s Q t x l1 l2 Hok Hx HQ b1 b2
              (queue_end (ready_queue s (qindex (tcbDomain x) (tcbPriority x)))) Hr1)
    as (Ht1 & E2 & Hr2 & Ht2).
  unfold tcbSchedDequeue. kload. fold (queued x). rewrite Hqx. cbn [negb].
  rewrite (kopt_Some _ _ _ _ (ready_queues_index_valid _ _ Hval)). kstep. kload. kload.
  rewrite (kbind_Ok _ _ _ _ _ E1).
  assert (ks_tcb (sched_change (unlink1 (ks_tcb s) x) (ksReadyQueues s) b1 b2 s) !! t = Some x)
    as Ht1' by done.
  kload. kload. rewrite (kbind_Ok _ _ _ _ _ E2). unfold setReadyQueue. kstep.
  rewrite (updTCB_Ok t _ x) by done. eexists. split; [reflexivity|].
  apply (sched_ok_relink s Q t x); try done.
  - split; [apply Hr2|]. intros y Hy. apply Hr2. set_solver.
  - destruct (NoDup_app_cons_inv _ _ _ (proj1 Hdq)) as (N1 & N2 & _).
    split; [done|]. intros [?|?]%elem_of_app; done.
  - rewrite HQ. set_solver.
  - eapply dqueue_frame; [|exact Hrem]. intros y _. destruct (decide (y = t)) as [->|].
    + by rewrite lookup_insert_eq, Ht2.
    + by rewrite lookup_insert_ne.
Qed.
End Sched.
