(* ===== verification/SchedTheorems.v ===== *)
(** * Theorems about the scheduler

    The properties of the ready queues and of [src/kernel/thread.c], each with
    a concrete instance. *)

From S2P Require Import Prelude.
From S2P Require Import Word32.
From S2P Require Import Structures.
From S2P Require Import State.
From S2P Require Import AATree.
From S2P Require Import VSpace.
From S2P Require Import Sched.
From S2P Require Import Queue.
From S2P Require Import SchedInv.

(** The part of the state the scheduler invariant speaks of. *)
Definition sched_view (s : kstate) :=
  (ks_tcb s, ksReadyQueues s, ksReadyQueuesL1Bitmap s, ksReadyQueuesL2Bitmap s).

Lemma sched_ok_view {cfg : KernelConfig} s s' Q :
  sched_view s' = sched_view s → sched_ok s Q → sched_ok s' Q.
Proof.
  unfold sched_view. intros [= E1 E2 E3 E4] [H1 H2 H3 H4]. split.
  - rewrite E1. exact H1.
  - rewrite E1. exact H2.
  - intros d p Hv. unfold ready_queue. rewrite E1, E2. by apply H3.
  - eapply bitmap_ok_ext; [..|exact H4]; try done.
    + intros d. unfold L1Bitmap. by rewrite E3.
    + intros d i. unfold L2Bitmap. by rewrite E4.
Qed.

Lemma frames_setVMRoot {cfg : KernelConfig} tcb : frames sched_view (setVMRoot tcb).
Proof.
  unfold setVMRoot, armv_contextSwitch, getHWASID, loadHWASID, findFreeHWASID, storeHWASID,
    invalidateASID. solve_frames.
Qed.
#[export] Hint Resolve frames_setVMRoot : frames.
Lemma frames_Arch_switchToThread {cfg : KernelConfig} tcb : frames sched_view (Arch_switchToThread tcb).
Proof. unfold Arch_switchToThread. solve_frames. Qed.

(** ** Concrete states *)
Definition ex_tcb (prio slice : Z) (ts : _thread_state) : tcb_t :=
  tcb (repeat 0 18) (thread_state 0 false false false false 0 ts) 0 fault_null_fault
    lookup_fault_invalid_root 0 prio slice 0 0 0 0 0 0.
Definition T1 : Z := 0xf0300100.
Definition T2 : Z := 0xf0300300.
Definition T3 : Z := 0xf0300500.
(** Three runnable threads of domain 0, none of them queued, [T1] current. *)
Definition sched_ex0 : kstate :=
  upd_ksCurThread T1
    (upd_ks_cte {[TCB_PTR_CTE_PTR T1 tcbVTable := null_cte; TCB_PTR_CTE_PTR T2 tcbVTable := null_cte;
                  TCB_PTR_CTE_PTR T3 tcbVTable := null_cte]}
      (upd_ks_tcb {[T1 := ex_tcb 100 1 ThreadState_Running; T2 := ex_tcb 100 5 ThreadState_Running;
                    T3 := ex_tcb 37 5 ThreadState_Restart]} empty_kstate)).

Lemma sched_ok_init {cfg : KernelConfig} s :
  (∀ t x, ks_tcb s !! t = Some x →
     t ≠ 0 ∧ valid_queue (tcbDomain x) (tcbPriority x) ∧ queued x = false) →
  ksReadyQueues s = ∅ → ksReadyQueuesL1Bitmap s = ∅ → ksReadyQueuesL2Bitmap s = ∅ →
  sched_ok s (λ _ _, []).
Proof.
  intros Ht E1 E2 E3. split.
  - intros t x Hx. destruct (Ht t x Hx) as (H1 & H2 & ->). split_and!; try done.
    split; [done|by intros ?%elem_of_nil].
  - by intros d p t _ ?%elem_of_nil.
  - intros d p _. unfold ready_queue. rewrite E1, lookup_empty. split_and!; try done. constructor.
  - unfold L1Bitmap, L2Bitmap. rewrite E2, E3. split; intros *; rewrite ?lookup_empty; cbn [default];
      rewrite ?Z.bits_0; try done; intros; unfold is_w32; lia.
Qed.

Lemma kzm_valid p : 0 ≤ p < 256 → valid_queue (cfg := kzm_config) 0 p.
Proof. intros. split; cbn; lia. Qed.

Lemma sched_ex0_ok : sched_ok (cfg := kzm_config) sched_ex0 (λ _ _, []).
Proof.
  apply sched_ok_init; try reflexivity. intros t x. cbn [sched_ex0 ks_tcb upd_ksCurThread upd_ks_cte upd_ks_tcb].
  rewrite !lookup_insert_Some, lookup_singleton_Some.
  intros [[<- <-]|[_ [[<- <-]|[_ [<- <-]]]]];
    (split_and!; [done|apply kzm_valid; cbn; lia|done]).
Qed.

Section Theorems.
Context {cfg : KernelConfig} {cfg_ok : KernelConfigOk cfg}.

Lemma sched_frame_refl s : sched_frame s s.
Proof using Type.
  exists (ks_tcb s), (ksReadyQueues s), (bm1 s), (bm2 s). split; [by destruct s|done].
Qed.

Lemma sched_frame_tcb s s' t x :
  sched_frame s s' → ks_tcb s !! t = Some x →
  ∃ x', ks_tcb s' !! t = Some x' ∧ tcb_core x' = tcb_core x.
Proof using Type.
  intros (h & r & b1 & b2 & -> & Hc) Hx. specialize (Hc t). rewrite Hx in Hc. cbn [ks_tcb sched_change].
  cbn. destruct (h !! t) as [x'|]; [|done]. exists x'. split; [done|]. cbn in Hc. congruence.
Qed.

(** Enqueueing, whether or not the thread is queued already. *)
Lemma enqueue_any s Q t x :
  sched_ok s Q → ks_tcb s !! t = Some x →
  ∃ s' Q', tcbSchedEnqueue t s = Ok tt s' ∧ sched_ok s' Q' ∧ sched_frame s s' ∧
    (∀ d p y, y ∈ Q d p → y ∈ Q' d p) ∧ t ∈ Q' (tcbDomain x) (tcbPriority x).
Proof using cfg_ok.
  intros Hok Hx. destruct (queued x) eqn:Hq.
  - exists s, Q. split_and!; [|done|apply sched_frame_refl|done|].
    + unfold tcbSchedEnqueue. kload. fold (queued x). by rewrite Hq.
    + by apply (so_tcb _ _ Hok _ _ Hx).
  - destruct (tcbSchedEnqueue_Ok s Q t x Hok Hx Hq) as (s' & E & F & H).
    exists s', (updQ Q (tcbDomain x) (tcbPriority x) (t :: Q (tcbDomain x) (tcbPriority x))).
    split_and!; [done|done|done| |].
    + intros d p y Hy. unfold updQ. destruct (Z.eqb_spec d (tcbDomain x)) as [->|]; [|done].
      destruct (Z.eqb_spec p (tcbPriority x)) as [->|]; [|done]. by right.
    + rewrite updQ_eq. by left.
Qed.
End Theorems.

(** [tcbSchedEnqueue] puts a thread that is in no queue at the front of
    the ready queue of its domain and priority: it always returns, the doubly
    linked lists, the queued flags and the two-level bitmap stay consistent
    with one another, and nothing else of any thread or of the kernel changes;
    a thread that is queued already is left alone. *)
Theorem tcbSchedEnqueue_correct {cfg : KernelConfig} {cfg_ok : KernelConfigOk cfg}
  (s : kstate) (Q : Z → Z → list Z) (t : Z) (x : tcb_t)
  (Hok : sched_ok s Q) (Hx : ks_tcb s !! t = Some x) :
  (queued x = true → tcbSchedEnqueue t s = Ok tt s) ∧
  (queued x = false → ∃ s', tcbSchedEnqueue t s = Ok tt s' ∧ sched_frame s s' ∧
     sched_ok s' (updQ Q (tcbDomain x) (tcbPriority x) (t :: Q (tcbDomain x) (tcbPriority x)))).
Proof.
  split; [|by apply tcbSchedEnqueue_Ok].
  intros Hq. unfold tcbSchedEnqueue. kload. fold (queued x). by rewrite Hq.
Qed.

Lemma tcbSchedEnqueue_correct_witness :
  ∃ s', tcbSchedEnqueue (cfg := kzm_config) T2 sched_ex0 = Ok tt s' ∧
    sched_frame sched_ex0 s' ∧
    sched_ok (cfg := kzm_config) s' (updQ (λ _ _, []) 0 100 [T2]).
Proof.
  exact (proj2 (tcbSchedEnqueue_correct (cfg := kzm_config) sched_ex0 (λ _ _, []) T2
    (ex_tcb 100 5 ThreadState_Running) sched_ex0_ok eq_refl) eq_refl).
Defined.

(** [T2] and [T3] queued. *)
Definition run_ok {A} (m : K A) (s : kstate) : kstate := match m s with Ok _ s' => s' | _ => s end.
Definition sched_ex1 : kstate :=
  run_ok (tcbSchedEnqueue (cfg := kzm_config) T2 ;;; tcbSchedEnqueue (cfg := kzm_config) T3) sched_ex0.
Definition Q1 : Z → Z → list Z := updQ (updQ (λ _ _, []) 0 100 [T2]) 0 37 [T3].

Lemma sched_ex1_ok : sched_ok (cfg := kzm_config) sched_ex1 Q1.
Proof.
  destruct (tcbSchedEnqueue_Ok (cfg := kzm_config) sched_ex0 (λ _ _, []) T2
    (ex_tcb 100 5 ThreadState_Running) sched_ex0_ok eq_refl eq_refl) as (s1 & E1 & F1 & H1).
  assert (ks_tcb s1 !! T3 = Some (ex_tcb 37 5 ThreadState_Restart)) as Hx.
  { vm_compute in E1. injection E1 as <-. by vm_compute. }
  destruct (tcbSchedEnqueue_Ok (cfg := kzm_config) s1 _ T3 _ H1 Hx eq_refl) as (s2 & E2 & F2 & H2).
  unfold sched_ex1, run_ok. rewrite (kbind_Ok _ _ _ _ _ E1), E2. exact H2.
Qed.

(** [tcbSchedAppend] does the same at the back of the queue. *)
Theorem tcbSchedAppend_correct {cfg : KernelConfig} {cfg_ok : KernelConfigOk cfg}
  (s : kstate) (Q : Z → Z → list Z) (t : Z) (x : tcb_t)
  (Hok : sched_ok s Q) (Hx : ks_tcb s !! t = Some x) :
  (queued x = true → tcbSchedAppend t s = Ok tt s) ∧
  (queued x = false → ∃ s', tcbSchedAppend t s = Ok tt s' ∧ sched_frame s s' ∧
     sched_ok s' (updQ Q (tcbDomain x) (tcbPriority x) (Q (tcbDomain x) (tcbPriority x) ++ [t]))).
Proof.
  split; [|by apply tcbSchedAppend_Ok].
  intros Hq. unfold tcbSchedAppend. kload. fold (queued x). by rewrite Hq.
Qed.

Lemma tcbSchedAppend_correct_witness :
  ∃ s', tcbSchedAppend (cfg := kzm_config) T1 sched_ex1 = Ok tt s' ∧
    sched_frame sched_ex1 s' ∧
    sched_ok (cfg := kzm_config) s' (updQ Q1 0 100 [T2; T1]).
Proof.
  exact (proj2 (tcbSchedAppend_correct (cfg := kzm_config) sched_ex1 Q1 T1
    (ex_tcb 100 1 ThreadState_Running) sched_ex1_ok eq_refl) eq_refl).
Defined.

(** [tcbSchedDequeue] takes a queued thread out of its queue, wherever it
    is in it, and clears the queue's bit in the bitmap exactly when the queue
    becomes empty; a thread that is not queued is left alone. *)
Theorem tcbSchedDequeue_correct {cfg : KernelConfig} {cfg_ok : KernelConfigOk cfg}
  (s : kstate) (Q : Z → Z → list Z) (t : Z) (x : tcb_t)
  (Hok : sched_ok s Q) (Hx : ks_tcb s !! t = Some x) :
  (queued x = false → tcbSchedDequeue t s = Ok tt s) ∧
  (queued x = true → ∃ s', tcbSchedDequeue t s = Ok tt s' ∧ sched_frame s s' ∧
     sched_ok s' (updQ Q (tcbDomain x) (tcbPriority x)
                    (list_remove t (Q (tcbDomain x) (tcbPriority x))))).
Proof.
  split; [|by apply tcbSchedDequeue_Ok].
  intros Hq. unfold tcbSchedDequeue. kload. fold (queued x). by rewrite Hq.
Qed.

Lemma tcbSchedDequeue_correct_witness :
  ∃ s', tcbSchedDequeue (cfg := kzm_config) T3 sched_ex1 = Ok tt s' ∧
    sched_frame sched_ex1 s' ∧
    sched_ok (cfg := kzm_config) s' (updQ Q1 0 37 []).
Proof.
  exact (proj2 (tcbSchedDequeue_correct (cfg := kzm_config) sched_ex1 Q1 T3
    (set_queued true (ex_tcb 37 5 ThreadState_Restart)) sched_ex1_ok eq_refl) eq_refl).
Defined.

(** ** Choosing a thread *)
Definition sched_domain {cfg : KernelConfig} (s : kstate) : Z :=
  if 1 <? CONFIG_NUM_DOMAINS then ksCurDomain s else 0.

Section Choose.
Context {cfg : KernelConfig} {cfg_ok : KernelConfigOk cfg}.

Lemma sched_domain_valid s :
  0 ≤ ksCurDomain s < CONFIG_NUM_DOMAINS → 0 ≤ sched_domain s < CONFIG_NUM_DOMAINS.
Proof using cfg_ok.
  unfold sched_domain. pose proof (cfg_domains (cfg := cfg)).
  destruct (Z.ltb_spec 1 CONFIG_NUM_DOMAINS); lia.
Qed.

Lemma L1_zero s Q d :
  sched_ok s Q → 0 ≤ d < CONFIG_NUM_DOMAINS →
  (L1Bitmap s d = 0 ↔ ∀ p, valid_queue d p → Q d p = []).
Proof using cfg_ok.
  intros Hok Hd. pose proof (so_bitmap _ _ Hok) as B. split.
  - intros E p Hv. destruct (valid_bits _ _ Hv) as (V1 & V2 & _).
    pose proof (bm_l2 _ _ _ B d p Hv) as H2. pose proof (bm_l1 _ _ _ B d (p / 32) Hd V1) as H1.
    rewrite E, Z.bits_0 in H1. symmetry in H1. apply negb_false_iff, Z.eqb_eq in H1.
    rewrite H1, Z.bits_0 in H2. symmetry in H2. apply negb_false_iff in H2.
    by apply bool_decide_eq_true in H2.
  - intros H. destruct (decide (L1Bitmap s d = 0)) as [|Hn]; [done|].
    destruct (bitmap_highest _ _ _ d B Hd Hn) as (Hv & HN & _). cbv beta in HN.
    rewrite (H _ Hv) in HN. done.
Qed.

Lemma chooseThread_idle s Q :
  sched_ok s Q → 0 ≤ ksCurDomain s < CONFIG_NUM_DOMAINS →
  (∀ p, valid_queue (sched_domain s) p → Q (sched_domain s) p = []) →
  chooseThread s = switchToIdleThread s.
Proof using cfg_ok.
  intros Hok Hd HQ. unfold chooseThread.
  rewrite (kbind_Ok _ _ s s (sched_domain s))
    by (unfold sched_domain; by destruct (1 <? CONFIG_NUM_DOMAINS)).
  kstep. by rewrite (proj2 (L1_zero s Q _ Hok (sched_domain_valid s Hd)) HQ).
Qed.

Lemma chooseThread_switch s Q p t ts x :
  sched_ok s Q → 0 ≤ ksCurDomain s < CONFIG_NUM_DOMAINS →
  valid_queue (sched_domain s) p → Q (sched_domain s) p = t :: ts →
  (∀ p', valid_queue (sched_domain s) p' → p < p' → Q (sched_domain s) p' = []) →
  ks_tcb s !! t = Some x → thread_isRunnable (tsType (tcbState x)) = true →
  chooseThread s = switchToThread t s.
Proof using cfg_ok.
  intros Hok Hd Hv HQ Hmax Hx Hrun. pose proof (sched_domain_valid s Hd) as Hsd.
  pose proof (so_bitmap _ _ Hok) as B. unfold chooseThread.
  rewrite (kbind_Ok _ _ s s (sched_domain s))
    by (unfold sched_domain; by destruct (1 <? CONFIG_NUM_DOMAINS)).
  kstep. assert (L1Bitmap s (sched_domain s) ≠ 0) as Hn.
  { intros E. rewrite (L1_zero s Q _ Hok Hsd) in E. by rewrite (E p Hv) in HQ. }
  rewrite (proj2 (Z.eqb_neq _ _) Hn). cbn [negb].
  destruct (bitmap_highest _ _ _ _ B Hsd Hn) as (Hv' & HN & Hhi). cbv beta in HN, Hhi.
  assert (bitmap_prio s (sched_domain s) = p) as Ep.
  { unfold bitmap_prio, l1index_to_prio, wordBits. change (32 - 1) with 31.
    set (p0 := Z.lor _ _) in *.
    assert (p ≤ p0) by (apply Hhi; [done|by rewrite HQ]).
    destruct (decide (p < p0)) as [Hlt|]; [|lia]. by rewrite (Hmax p0 Hv' Hlt) in HN. }
  kstep. rewrite Ep, (kopt_Some _ _ _ _ (ready_queues_index_valid _ _ Hv)). kstep.
  destruct (so_queue _ _ Hok _ _ Hv) as (_ & Hs & Hhd & _). rewrite HQ in Hhd, Hs. rewrite Hhd.
  destruct Hs as (Hnz & _). cbn [hd]. rewrite kassert_true by (by rewrite (proj2 (Z.eqb_neq t 0))).
  unfold isRunnable, getTsType.
  rewrite (kbind_Ok _ _ s s true) by (by rewrite (kbind_Ok _ _ _ _ _ (getTCBf_Ok _ _ _ _ Hx)), Hrun).
  by kstep.
Qed.

Lemma switchToThread_Ok s s1 Q t x :
  sched_ok s Q → ks_tcb s !! t = Some x → Arch_switchToThread t s = Ok tt s1 →
  ∃ s', switchToThread t s = Ok tt s' ∧ ksCurThread s' = t ∧
    (queued x = true → sched_ok s' (updQ Q (tcbDomain x) (tcbPriority x)
                     (list_remove t (Q (tcbDomain x) (tcbPriority x))))) ∧
    (queued x = false → sched_ok s' Q).
Proof using cfg_ok.
  intros Hok Hx Ha. pose proof (frames_Arch_switchToThread t s tt s1 Ha) as Hview.
  pose proof (sched_ok_view _ _ _ Hview Hok) as Hok1.
  assert (ks_tcb s1 !! t = Some x) as Hx1 by (unfold sched_view in Hview; congruence).
  unfold switchToThread. rewrite (kbind_Ok _ _ _ _ _ Ha). destruct (queued x) eqn:Hq.
  - destruct (tcbSchedDequeue_Ok s1 Q t x Hok1 Hx1 Hq) as (s2 & E & _ & H).
    rewrite (kbind_Ok _ _ _ _ _ E). exists (upd_ksCurThread t s2). split_and!; try done.
    intros _. by apply (sched_ok_view s2).
  - rewrite (kbind_Ok _ _ s1 s1 tt) by (unfold tcbSchedDequeue; kload; fold (queued x); by rewrite Hq).
    exists (upd_ksCurThread t s1). split_and!; try done. intros _. by apply (sched_ok_view s1).
Qed.
End Choose.

(** C11. [chooseThread] runs the front thread of the highest-priority non-empty
    ready queue of the current domain (the priority is read off the bitmap with
    two CLZ operations): it becomes the current thread and leaves its queue,
    and the queues stay consistent. *)
Theorem chooseThread_correct {cfg : KernelConfig} {cfg_ok : KernelConfigOk cfg}
  (s s1 : kstate) (Q : Z → Z → list Z) (p t : Z) (ts : list Z) (x : tcb_t)
  (Hok : sched_ok s Q) (Hdom : 0 ≤ ksCurDomain s < CONFIG_NUM_DOMAINS)
  (Hv : valid_queue (sched_domain s) p) (HQ : Q (sched_domain s) p = t :: ts)
  (Hmax : ∀ p', valid_queue (sched_domain s) p' → p < p' → Q (sched_domain s) p' = [])
  (Hx : ks_tcb s !! t = Some x) (Hrun : thread_isRunnable (tsType (tcbState x)) = true)
  (Harch : Arch_switchToThread t s = Ok tt s1) :
  ∃ s', chooseThread s = Ok tt s' ∧ ksCurThread s' = t ∧
    sched_ok s' (updQ Q (sched_domain s) p ts).
Proof.
  rewrite (chooseThread_switch s Q p t ts x) by done.
  destruct (switchToThread_Ok s s1 Q t x Hok Hx Harch) as (s' & E & Ec & Hs & _).
  exists s'. split_and!; [done|done|].
  destruct (so_mem _ _ Hok _ _ t Hv ltac:(rewrite HQ; by left)) as (x' & Hx' & Ed & Ep).
  assert (x' = x) as -> by congruence. rewrite Ed, Ep in Hs.
  destruct (so_tcb _ _ Hok _ _ Hx) as (_ & _ & Hq). rewrite Ed, Ep, HQ in Hq.
  specialize (Hs (proj2 Hq ltac:(by left))). rewrite HQ in Hs.
  pose proof (proj1 (so_queue _ _ Hok _ _ Hv)) as Hnd. rewrite HQ in Hnd.
  by rewrite (remove_mid [] ts t Hnd : list_remove t (t :: ts) = ts) in Hs.
Qed.

Lemma chooseThread_correct_witness :
  ∃ s', chooseThread (cfg := kzm_config) sched_ex1 = Ok tt s' ∧ ksCurThread s' = T2 ∧
    sched_ok (cfg := kzm_config) s' (updQ Q1 0 100 []).
Proof.
  refine (chooseThread_correct (cfg := kzm_config) sched_ex1
    (run_ok (Arch_switchToThread (cfg := kzm_config) T2) sched_ex1) Q1 100 T2 []
    (set_queued true (ex_tcb 100 5 ThreadState_Running)) sched_ex1_ok _ _ eq_refl _ eq_refl eq_refl _).
  - vm_compute. done.
  - apply kzm_valid. lia.
  - intros p' _ Hp. unfold Q1, updQ.
    rewrite (proj2 (Z.eqb_neq p' 37)), (proj2 (Z.eqb_neq p' 100)) by lia. by rewrite !andb_false_r.
  - by vm_compute.
Defined.

(** When no thread of the current domain is ready, [chooseThread] switches
    to the idle thread. *)
Theorem chooseThread_idle_correct {cfg : KernelConfig} {cfg_ok : KernelConfigOk cfg}
  (s : kstate) (Q : Z → Z → list Z)
  (Hok : sched_ok s Q) (Hdom : 0 ≤ ksCurDomain s < CONFIG_NUM_DOMAINS)
  (Hnone : ∀ p, valid_queue (sched_domain s) p → Q (sched_domain s) p = []) :
  ∃ s', chooseThread s = Ok tt s' ∧ ksCurThread s' = ksIdleThread s ∧ sched_ok s' Q.
Proof.
  rewrite (chooseThread_idle s Q) by done. eexists. split; [reflexivity|].
  split; [done|]. by apply (sched_ok_view s).
Qed.

Lemma chooseThread_idle_correct_witness :
  ∃ s', chooseThread (cfg := kzm_config) sched_ex0 = Ok tt s' ∧
    ksCurThread s' = 0 ∧ sched_ok (cfg := kzm_config) s' (λ _ _, []).
Proof.
  refine (chooseThread_idle_correct (cfg := kzm_config) sched_ex0 (λ _ _, []) sched_ex0_ok _ _);
    [vm_compute; done|done].
Defined.

(** ** Time *)

(** [nextDomain] always returns: it moves cyclically through the domain
    schedule, starts the new domain with its full time and resets the count of
    preemption work units. *)
Theorem nextDomain_correct {cfg : KernelConfig} {cfg_ok : KernelConfigOk cfg} (s : kstate)
  (Hidx : 0 ≤ ksDomScheduleIdx s < Z.of_nat (length ksDomSchedule)) :
  ∃ dom len s', nextDomain s = Ok tt s' ∧
    ksDomScheduleIdx s' = (ksDomScheduleIdx s + 1) mod Z.of_nat (length ksDomSchedule) ∧
    ksDomSchedule !! Z.to_nat (ksDomScheduleIdx s') = Some (dom, len) ∧
    ksCurDomain s' = dom ∧ ksDomainTime s' = len ∧ ksWorkUnitsCompleted s' = 0 ∧
    sched_view s' = sched_view s.
Proof.
  pose proof (cfg_schedule_length (cfg := cfg)) as Hlen.
  set (n := Z.of_nat (length ksDomSchedule)) in *.
  set (idx := if n <=? w32 (ksDomScheduleIdx s + 1) then 0 else w32 (ksDomScheduleIdx s + 1)).
  assert (idx = (ksDomScheduleIdx s + 1) mod n ∧ 0 ≤ idx < n) as [Eidx Hb].
  { unfold idx. rewrite w32_id by (unfold is_w32; lia). destruct (Z.leb_spec n (ksDomScheduleIdx s + 1)).
    - replace (ksDomScheduleIdx s + 1) with n by lia. rewrite Z.mod_same by lia. lia.
    - rewrite Z.mod_small by lia. lia. }
  destruct (lookup_lt_is_Some_2 ksDomSchedule (Z.to_nat idx) ltac:(lia)) as [[dom len] Hl].
  exists dom, len. eexists. unfold nextDomain. ksteps. fold n idx.
  rewrite (kopt_Some _ _ _ _ Hl). split_and!; [reflexivity|done|done|done..].
Qed.

Lemma nextDomain_correct_witness :
  ∃ dom len s', nextDomain (cfg := two_domain_config) (upd_ksDomScheduleIdx 1 sched_ex0) = Ok tt s' ∧
    ksDomScheduleIdx s' = (1 + 1) mod 2 ∧
    [(0, 10); (1, 20)] !! Z.to_nat (ksDomScheduleIdx s') = Some (dom, len) ∧
    ksCurDomain s' = dom ∧ ksDomainTime s' = len ∧ ksWorkUnitsCompleted s' = 0 ∧
    sched_view s' = sched_view (upd_ksDomScheduleIdx 1 sched_ex0).
Proof.
  refine (nextDomain_correct (cfg := two_domain_config) (upd_ksDomScheduleIdx 1 sched_ex0) _).
  cbn. lia.
Defined.

(** The last tick of a time slice (one domain, no switch pending): the
    running thread gets a full slice again and goes to the back of its ready
    queue, and a new thread will be chosen; an earlier tick only takes one unit
    off the slice. *)
Theorem timerTick_correct {cfg : KernelConfig} {cfg_ok : KernelConfigOk cfg}
  (s : kstate) (Q : Z → Z → list Z) (x : tcb_t)
  (Hok : sched_ok s Q) (Hone : CONFIG_NUM_DOMAINS = 1)
  (Hx : ks_tcb s !! ksCurThread s = Some x)
  (Hrun : thread_isRunnable (tsType (tcbState x)) = true) (Hq : queued x = false)
  (Hact : ksSchedulerAction s = SchedulerAction_ResumeCurrentThread) :
  ∃ s', timerTick s = Ok tt s' ∧
    if 1 <? tcbTimeSlice x then
      s' = upd_ks_tcb (<[ksCurThread s := set_tcbTimeSlice (tcbTimeSlice x - 1) x]> (ks_tcb s)) s
    else
      ksSchedulerAction s' = SchedulerAction_ChooseNewThread ∧
      tcbTimeSlice <$> ks_tcb s' !! ksCurThread s = Some CONFIG_TIME_SLICE ∧
      sched_ok s' (updQ Q (tcbDomain x) (tcbPriority x)
                     (Q (tcbDomain x) (tcbPriority x) ++ [ksCurThread s])).
Proof.
  unfold timerTick. kstep. unfold isRunnable, getTsType.
  rewrite (kbind_Ok _ _ s s true) by (by rewrite (kbind_Ok _ _ _ _ _ (getTCBf_Ok _ _ _ _ Hx)), Hrun).
  cbn [kwhen]. rewrite (proj2 (Z.ltb_ge 1 CONFIG_NUM_DOMAINS)) by lia. cbn [kwhen].
  destruct (1 <? tcbTimeSlice x) eqn:Es.
  - eexists. split; [|reflexivity].
    by rewrite (kbind_Ok _ _ s _ tt) by (kload; rewrite Es; by rewrite (updTCB_Ok _ _ x)).
  - set (s1 := upd_ks_tcb (<[ksCurThread s := set_tcbTimeSlice CONFIG_TIME_SLICE x]> (ks_tcb s)) s).
    assert (sched_ok s1 Q) as Hok1 by (by eapply sched_ok_inert).
    destruct (tcbSchedAppend_Ok s1 Q (ksCurThread s) (set_tcbTimeSlice CONFIG_TIME_SLICE x) Hok1)
      as (s2 & E2 & F & H2); [apply lookup_insert_eq|done|].
    exists (upd_ksSchedulerAction SchedulerAction_ChooseNewThread s2).
    assert (ksSchedulerAction s2 = SchedulerAction_ResumeCurrentThread) as Ha2
      by (by destruct F as (h & r & b1 & b2 & -> & _)).
    split_and!.
    + rewrite (kbind_Ok _ _ s (upd_ksSchedulerAction SchedulerAction_ChooseNewThread s2) tt); [done|].
      kload. rewrite Es. kload. fold s1. rewrite (kbind_Ok _ _ _ _ _ E2).
      unfold rescheduleRequired. kstep. by rewrite Ha2.
    + done.
    + destruct (sched_frame_tcb _ _ (ksCurThread s) _ F (lookup_insert_eq _ _ _)) as (x2 & Hx2 & Ec).
      cbn [ks_tcb upd_ksSchedulerAction]. rewrite Hx2. cbn. f_equal.
      by apply (f_equal tcbTimeSlice) in Ec.
    + by apply (sched_ok_view s2).
Qed.

Lemma timerTick_correct_witness :
  ∃ s', timerTick (cfg := kzm_config) sched_ex1 = Ok tt s' ∧
    ksSchedulerAction s' = SchedulerAction_ChooseNewThread ∧
    tcbTimeSlice <$> ks_tcb s' !! T1 = Some 5 ∧
    sched_ok (cfg := kzm_config) s' (updQ Q1 0 100 [T2; T1]).
Proof.
  exact (timerTick_correct (cfg := kzm_config) sched_ex1 Q1 (ex_tcb 100 1 ThreadState_Running)
    sched_ex1_ok eq_refl eq_refl eq_refl eq_refl eq_refl).
Defined.

(** ** Switching on demand *)

(** A thread that the scheduler will come back to: the pending switch, or in a
    ready queue. *)
Definition scheduled (s : kstate) (Q : Z → Z → list Z) (t : Z) : Prop :=
  ksSchedulerAction s = t ∨
  ∃ x, ks_tcb s !! t = Some x ∧ t ∈ Q (tcbDomain x) (tcbPriority x).

Definition is_thread (s : kstate) (t : Z) : Prop :=
  is_Some (ks_tcb s !! t) ∧ t ≠ SchedulerAction_ChooseNewThread.

Section Switching.
Context {cfg : KernelConfig} {cfg_ok : KernelConfigOk cfg}.

Lemma enqueue_scheduled s Q t :
  sched_ok s Q → is_thread s t →
  ∃ s' Q', tcbSchedEnqueue t s = Ok tt s' ∧ sched_ok s' Q' ∧ sched_frame s s' ∧
    (∀ y, scheduled s Q y → scheduled s' Q' y) ∧
    ∃ x, ks_tcb s' !! t = Some x ∧ t ∈ Q' (tcbDomain x) (tcbPriority x).
Proof using cfg_ok.
  intros Hok [[x Hx] _]. destruct (enqueue_any s Q t x Hok Hx) as (s' & Q' & E & H & F & M & I).
  exists s', Q'. split_and!; try done.
  - intros y [Hy|(z & Hz & Hin)].
    + left. by destruct F as (h & r & b1 & b2 & -> & _).
    + right. destruct (sched_frame_tcb _ _ _ _ F Hz) as (z' & Hz' & (E1 & E2 & _)%tcb_core_fields).
      exists z'. rewrite E1, E2. auto.
  - destruct (sched_frame_tcb _ _ _ _ F Hx) as (z' & Hz' & (E1 & E2 & _)%tcb_core_fields).
    exists z'. by rewrite E1, E2.
Qed.

Lemma rescheduleRequired_scheduled s Q :
  sched_ok s Q →
  (ksSchedulerAction s = SchedulerAction_ResumeCurrentThread ∨
   ksSchedulerAction s = SchedulerAction_ChooseNewThread ∨ is_thread s (ksSchedulerAction s)) →
  ∃ s' Q', rescheduleRequired s = Ok tt s' ∧ sched_ok s' Q' ∧
    ksSchedulerAction s' = SchedulerAction_ChooseNewThread ∧
    ∀ y, is_thread s y → scheduled s Q y → scheduled s' Q' y.
Proof using cfg_ok.
  intros Hok Ha. unfold rescheduleRequired, setSchedulerAction. kstep.
  set (a := ksSchedulerAction s) in *.
  destruct (negb (a =? SchedulerAction_ResumeCurrentThread) &&
            negb (a =? SchedulerAction_ChooseNewThread)) eqn:Ec; cbn [kwhen].
  - assert (is_thread s a) as Hta.
    { apply andb_true_iff in Ec as [E1%negb_true_iff%Z.eqb_neq E2%negb_true_iff%Z.eqb_neq].
      destruct Ha as [|[|]]; done. }
    destruct (enqueue_scheduled s Q a Hok Hta) as (s' & Q' & E & H & F & M & I).
    rewrite (kbind_Ok _ _ _ _ _ E). eexists _, Q'. split; [reflexivity|].
    split; [by apply (sched_ok_view s')|]. split; [done|].
    intros y Hy Hs. right. destruct Hs as [Hs|Hs]; [by subst y|].
    destruct (M y (or_intror Hs)) as [Hs'|Hs']; [|done].
    destruct F as (h & r & b1 & b2 & -> & _). cbn in Hs'. fold a in Hs'. by subst y.
  - rewrite kbind_kret. eexists _, Q. split; [reflexivity|].
    split; [by apply (sched_ok_view s)|]. split; [done|].
    intros y [[x Hx] Hy] Hs. right. destruct Hs as [Hs|Hs]; [|done]. fold a in Hs. subst y.
    apply andb_false_iff in Ec as [E%negb_false_iff%Z.eqb_eq|E%negb_false_iff%Z.eqb_eq]; [|done].
    destruct (so_tcb _ _ Hok _ _ Hx) as [? _]. done.
Qed.
End Switching.

(** With one domain, [possibleSwitchTo] loses no thread: the target becomes
    the pending switch or is put in its ready queue, every thread that was
    scheduled before stays scheduled (a pending switch that is given up goes
    back to its queue), and the queues stay consistent. *)
Theorem possibleSwitchTo_keeps {cfg : KernelConfig} {cfg_ok : KernelConfigOk cfg}
  (s : kstate) (Q : Z → Z → list Z) (target : Z) (onSamePriority : bool)
  (Hok : sched_ok s Q) (Hone : CONFIG_NUM_DOMAINS = 1)
  (Hcur : is_thread s (ksCurThread s)) (Ht : is_thread s target)
  (Ha : ksSchedulerAction s = SchedulerAction_ResumeCurrentThread ∨
        ksSchedulerAction s = SchedulerAction_ChooseNewThread ∨ is_thread s (ksSchedulerAction s)) :
  ∃ s' Q', possibleSwitchTo target onSamePriority s = Ok tt s' ∧ sched_ok s' Q' ∧
    scheduled s' Q' target ∧ ∀ y, is_thread s y → scheduled s Q y → scheduled s' Q' y.
Proof.
  destruct (proj1 Hcur) as [xc Hxc], (proj1 Ht) as [xt Hxt]. unfold possibleSwitchTo.
  kstep. kload. kload. kstep. rewrite (proj2 (Z.ltb_ge 1 CONFIG_NUM_DOMAINS)) by lia.
  set (a := ksSchedulerAction s) in *. destruct (_ && (a =? SchedulerAction_ResumeCurrentThread)) eqn:Ec.
  - apply andb_true_iff in Ec as [_ E%Z.eqb_eq]. rewrite E. unfold setSchedulerAction. kstep. cbn.
    eexists _, Q. split; [reflexivity|]. split; [by apply (sched_ok_view s)|]. split; [by left|].
    intros y [[x Hx] _] [Hs|Hs]; [|by right]. fold a in Hs. rewrite E in Hs. subst y.
    by destruct (so_tcb _ _ Hok _ _ Hx).
  - destruct (enqueue_scheduled s Q target Hok Ht) as (s1 & Q1 & E1 & H1 & F & M1 & I1).
    rewrite (kbind_Ok _ _ _ _ _ E1). fold SchedulerAction_ResumeCurrentThread.
    destruct (negb _ && negb _) eqn:Ec2; cbn [kwhen].
    2:{ exists s1, Q1. split_and!; [done|done|by right|auto]. }
    assert (ksSchedulerAction s1 = a) as Ea by (by destruct F as (h & r & b1 & b2 & -> & _)).
    assert (∀ y, is_thread s y → is_thread s1 y) as Hth.
    { intros y [[x Hx] Hy]. split; [|done].
      destruct (sched_frame_tcb _ _ _ _ F Hx) as (x' & Hx' & _). by exists x'. }
    destruct (rescheduleRequired_scheduled s1 Q1 H1) as (s2 & Q2 & E2 & H2 & _ & M2).
    { rewrite Ea. destruct Ha as [|[|]]; auto. }
    exists s2, Q2. split_and!; [done|done| |auto].
    apply M2; [by apply Hth|by right].
Qed.

(** [T2] is the pending switch and [T3] is woken. *)
Definition sched_ex2 : kstate := upd_ksSchedulerAction T2 sched_ex0.
Lemma possibleSwitchTo_keeps_witness :
  ∃ s' Q', possibleSwitchTo (cfg := kzm_config) T3 true sched_ex2 = Ok tt s' ∧
    sched_ok (cfg := kzm_config) s' Q' ∧ scheduled s' Q' T3 ∧
    ∀ y, is_thread sched_ex2 y → scheduled sched_ex2 (λ _ _, []) y → scheduled s' Q' y.
Proof.
  refine (possibleSwitchTo_keeps (cfg := kzm_config) sched_ex2 (λ _ _, []) T3 true
    (sched_ok_view sched_ex0 sched_ex2 _ eq_refl sched_ex0_ok) eq_refl _ _ _).
  - split; [by eexists|by vm_compute].
  - split; [by eexists|by vm_compute].
  - right. right. split; [by eexists|by vm_compute].
Defined.


