(* ===== verification/CSpace.v ===== *)
(** * Capability spaces

    Models [src/kernel/cspace.c]: resolving a capability pointer through the
    tree of CNodes.  A lookup returns its status, the slot and, for
    [resolveAddressBits], the number of unresolved bits.  Every level resolves
    at least one bit, so a budget of one more than the number of bits is
    enough. *)

From S2P Require Import Prelude.
From S2P Require Import Word32.
From S2P Require Import Structures.
From S2P Require Import State.

(** [CTE_PTR(p) + i] *)
Definition CTE_AT (p i : Z) : Z := w32 (p + 2 ^ CTE_SIZE_BITS * i).

Definition set_lookup_fault (f : lookup_fault_t) : K unit := modify (upd_current_lookup_fault f).

Definition cnode_offset (capptr n_bits radixBits : Z) : Z :=
  Z.land (Z.shiftr capptr (n_bits - radixBits)) (MASK radixBits).

Fixpoint resolve_loop (fuel : nat) (radixBits ptr capptr n_bits : Z) : K (exception_t * Z * Z) :=
  match fuel with
  | O => kdiverge
  | S fuel =>
      let levelBits := radixBits in
      kassert (negb (levelBits =? 0)) ;;;
      if n_bits <? levelBits then
        set_lookup_fault (lookup_fault_depth_mismatch_new levelBits n_bits) ;;;
        kret (EXCEPTION_LOOKUP_FAULT, 0, n_bits)
      else
        let slot := CTE_AT ptr (cnode_offset capptr n_bits radixBits) in
        if n_bits <=? levelBits then kret (EXCEPTION_NONE, slot, 0)
        else
          let n_bits := n_bits - levelBits in
          let! nodeCap := getCap slot in
          match nodeCap with
          | cap_cnode_cap radix _ _ p => resolve_loop fuel radix p capptr n_bits
          | _ => kret (EXCEPTION_NONE, slot, n_bits)
          end
  end.

Definition resolveAddressBits (nodeCap : cap_t) (capptr n_bits : Z) : K (exception_t * Z * Z) :=
  match nodeCap with
  | cap_cnode_cap radix guardBits _ ptr =>
      if n_bits <? guardBits then
        set_lookup_fault (lookup_fault_guard_mismatch_new 0 n_bits guardBits) ;;;
        kret (EXCEPTION_LOOKUP_FAULT, 0, n_bits)
      else
        let! ' (status, slot, bitsRemaining) :=
          resolve_loop (S (Z.to_nat n_bits)) radix ptr capptr (n_bits - guardBits) in
        (* [ret.bitsRemaining] keeps its initial value on a fault *)
        kret (status, slot,
              match status with EXCEPTION_NONE => bitsRemaining | _ => n_bits end)
  | _ =>
      set_lookup_fault lookup_fault_invalid_root ;;;
      kret (EXCEPTION_LOOKUP_FAULT, 0, n_bits)
  end.

Definition lookupSlot (thread capptr : Z) : K (exception_t * Z) :=
  let! threadRoot := getCap (TCB_PTR_CTE_PTR thread tcbCTable) in
  let! ' (status, slot, _) := resolveAddressBits threadRoot capptr wordBits in
  kret (status, slot).

Definition lookupCap (thread cPtr : Z) : K (exception_t * cap_t) :=
  let! ' (status, slot) := lookupSlot thread cPtr in
  match status with
  | EXCEPTION_NONE => let! c := getCap slot in kret (EXCEPTION_NONE, c)
  | _ => kret (status, cap_null_cap_new)
  end.

(** Status, capability and slot. *)
Definition lookupCapAndSlot (thread cPtr : Z) : K (exception_t * cap_t * Z) :=
  let! ' (status, slot) := lookupSlot thread cPtr in
  match status with
  | EXCEPTION_NONE => let! c := getCap slot in kret (EXCEPTION_NONE, c, slot)
  | _ => kret (status, cap_null_cap_new, 0)
  end.

Definition failed_lookup (isSource : bool) : K (exception_t * Z) :=
  error_type seL4_FailedLookup ;;;
  error_source isSource ;;;
  kret (EXCEPTION_SYSCALL_ERROR, 0).

Definition lookupSlotForCNodeOp (isSource : bool) (root : cap_t) (capptr depth : Z) :
    K (exception_t * Z) :=
  if negb (cap_get_capType root =? 10) then
    set_lookup_fault lookup_fault_invalid_root ;;;
    failed_lookup isSource
  else if (depth <? 1) || (wordBits <? depth) then
    error_type seL4_RangeError ;;;
    error_range 1 wordBits ;;;
    kret (EXCEPTION_SYSCALL_ERROR, 0)
  else
    let! ' (status, slot, bitsRemaining) := resolveAddressBits root capptr depth in
    match status with
    | EXCEPTION_NONE =>
        if negb (bitsRemaining =? 0) then
          set_lookup_fault (lookup_fault_depth_mismatch_new 0 bitsRemaining) ;;;
          failed_lookup isSource
        else kret (EXCEPTION_NONE, slot)
    | _ => failed_lookup isSource
    end.

Definition lookupSourceSlot : cap_t → Z → Z → K (exception_t * Z) := lookupSlotForCNodeOp true.
Definition lookupTargetSlot : cap_t → Z → Z → K (exception_t * Z) := lookupSlotForCNodeOp false.
Definition lookupPivotSlot : cap_t → Z → Z → K (exception_t * Z) := lookupSlotForCNodeOp true.

(** ** Specification

    [resolves h capptr cap n slot left]: walking from the CNode [cap] with [n]
    bits of [capptr] to resolve, the walk ends in [slot] with [left] bits
    unresolved.  [walk_fault] is the walk that runs out of bits inside a
    level. *)
Inductive resolves (h : gmap Z cte_t) (capptr : Z) : cap_t → Z → Z → Z → Prop :=
| resolves_last radix gs g ptr :
    0 < radix →
    resolves h capptr (cap_cnode_cap radix gs g ptr) radix
      (CTE_AT ptr (cnode_offset capptr radix radix)) 0
| resolves_leaf radix gs g ptr n c :
    0 < radix < n → h !! CTE_AT ptr (cnode_offset capptr n radix) = Some c →
    cap_get_capType (cteCap c) ≠ 10 →
    resolves h capptr (cap_cnode_cap radix gs g ptr) n
      (CTE_AT ptr (cnode_offset capptr n radix)) (n - radix)
| resolves_step radix gs g ptr n c slot left :
    0 < radix < n → h !! CTE_AT ptr (cnode_offset capptr n radix) = Some c →
    cap_get_capType (cteCap c) = 10 →
    resolves h capptr (cteCap c) (n - radix) slot left →
    resolves h capptr (cap_cnode_cap radix gs g ptr) n slot left.

Inductive walk_fault (h : gmap Z cte_t) (capptr : Z) : cap_t → Z → Z → Z → Prop :=
| fault_here radix gs g ptr n :
    0 < radix → n < radix → walk_fault h capptr (cap_cnode_cap radix gs g ptr) n radix n
| fault_step radix gs g ptr n c found left :
    0 < radix < n → h !! CTE_AT ptr (cnode_offset capptr n radix) = Some c →
    cap_get_capType (cteCap c) = 10 →
    walk_fault h capptr (cteCap c) (n - radix) found left →
    walk_fault h capptr (cap_cnode_cap radix gs g ptr) n found left.

(** Every CNode capability has a positive radix and all its slots exist. *)
Definition cnode_ok (h : gmap Z cte_t) (c : cap_t) : Prop :=
  match c with
  | cap_cnode_cap radix _ _ ptr =>
      0 < radix < 32 ∧ ∀ i, 0 ≤ i < 2 ^ radix → is_Some (h !! CTE_AT ptr i)
  | _ => True
  end.
Definition cnodes_ok (h : gmap Z cte_t) : Prop :=
  ∀ p c, h !! p = Some c → cnode_ok h (cteCap c).

Lemma cnode_offset_range capptr n radix :
  0 < radix < 32 → 0 ≤ cnode_offset capptr n radix < 2 ^ radix.
Proof.
  intros H. unfold cnode_offset. rewrite MASK_eq, Z.land_ones by lia. apply Z.mod_pos_bound. lia.
Qed.

Section Walk.
Context (s : kstate) (Hc : cnodes_ok (ks_cte s)).

(** The loop refines the walk. *)
Lemma resolve_loop_spec fuel radix gs g ptr capptr n :
  cnode_ok (ks_cte s) (cap_cnode_cap radix gs g ptr) → 0 ≤ n < Z.of_nat fuel →
  (∃ slot left, resolve_loop fuel radix ptr capptr n s = Ok (EXCEPTION_NONE, slot, left) s ∧
     resolves (ks_cte s) capptr (cap_cnode_cap radix gs g ptr) n slot left) ∨
  (∃ found left, resolve_loop fuel radix ptr capptr n s =
     Ok (EXCEPTION_LOOKUP_FAULT, 0, left)
       (upd_current_lookup_fault (lookup_fault_depth_mismatch_new found left) s) ∧
     walk_fault (ks_cte s) capptr (cap_cnode_cap radix gs g ptr) n found left).
Proof using Hc.
  revert radix gs g ptr n. induction fuel as [|fuel IH]; intros radix gs g ptr n [Hr Hs] Hn; [lia|].
  cbn [resolve_loop]. rewrite kassert_true by (apply negb_true_iff, Z.eqb_neq; lia).
  destruct (Z.ltb_spec n radix) as [Hlt|Hge].
  { right. exists radix, n. split; [done|]. apply fault_here; lia. }
  destruct (Z.leb_spec n radix) as [Hle|Hgt].
  { left. assert (n = radix) as -> by lia. eexists _, _. split; [done|]. apply resolves_last; lia. }
  destruct (Hs (cnode_offset capptr n radix)) as [c Hcte]; [by apply cnode_offset_range|].
  kload. destruct (decide (cap_get_capType (cteCap c) = 10)) as [Ht|Ht].
  - destruct (cteCap c) as [| | | | |radix' gs' g' p'| | | | | | | |] eqn:Ec; try done.
    pose proof (Hc _ _ Hcte) as Hok. rewrite Ec in Hok.
    destruct (IH radix' gs' g' p' (n - radix) Hok ltac:(lia)) as [(slot & left & E & R)|(f & l & E & R)].
    + left. exists slot, left. split; [done|]. eapply resolves_step; rewrite ?Ec; eauto; try lia.
    + right. exists f, l. split; [done|]. eapply fault_step; rewrite ?Ec; eauto; try lia.
  - left. eexists _, _. split; [|eapply resolves_leaf; eauto; lia].
    by destruct (cteCap c).
Qed.
End Walk.

(** Bits are accounted for: an unresolved remainder is smaller than what the
    walk started with, and never negative. *)
Lemma resolves_left h capptr c n slot left :
  resolves h capptr c n slot left → 0 ≤ left < n.
Proof. induction 1; lia. Qed.

Lemma resolves_fun h capptr c n slot left slot' left' :
  resolves h capptr c n slot left → resolves h capptr c n slot' left' →
  slot' = slot ∧ left' = left.
Proof.
  intros H. revert slot' left'. induction H; inversion 1; subst; simplify_eq; try lia; try done; auto.
Qed.
