(* ===== verification/Finalise.v ===== *)
(** * Deleting, revoking and recycling capabilities

    Models the operations that move and remove capabilities in
    [src/object/cnode.c], [finaliseCap] and [recycleCap] of
    [src/object/objecttype.c], their ARM parts in
    [src/arch/arm/object/objecttype.c], and what they call to cancel pending
    IPC in [src/object/endpoint.c], [src/object/asyncendpoint.c],
    [src/object/interrupt.c], [src/object/tcb.c] and [src/kernel/thread.c].

    These functions are mutually recursive.  Each takes the recursive
    [finaliseCap] as the argument [fin]; the knot is tied by [finaliseCap_fuel].
    A nested call always has [exposed] set, and then makes no further nested
    call, so two levels are enough ([deletion_nesting_bounded]). *)

From S2P Require Import Prelude.
From S2P Require Import Word32.
From S2P Require Import Structures.
From S2P Require Import State.
From S2P Require Import CapOps.
From S2P Require Import Cdt.
From S2P Require Import VSpace.
From S2P Require Import Sched.
From S2P Require Import CSpace.

(** ** Queues of endpoints *)
Definition ep_ptr_get_queue (e : endpoint_t) : tcb_queue_t :=
  tcb_queue (epQueue_head e) (epQueue_tail e).
Definition endpoint_set_queue (q : tcb_queue_t) (e : endpoint_t) : endpoint_t :=
  endpoint (field_high 28 (queue_head q)) (field_high 28 (queue_end q)) (ep_state e).
Definition endpoint_set_state (v : Z) (e : endpoint_t) : endpoint_t :=
  endpoint (epQueue_head e) (epQueue_tail e) (field 2 v).
Definition ep_ptr_set_queue (p : Z) (q : tcb_queue_t) : K unit := updEP p (endpoint_set_queue q).
Definition endpoint_ptr_set_state (p v : Z) : K unit := updEP p (endpoint_set_state v).

Definition aep_ptr_get_queue (e : async_endpoint_t) : tcb_queue_t :=
  tcb_queue (aepQueue_head e) (aepQueue_tail e).
Definition aep_set_queue (q : tcb_queue_t) (e : async_endpoint_t) : async_endpoint_t :=
  async_endpoint (aepBoundTCB e) (aepMsgIdentifier e) (field_high 28 (queue_head q))
    (field_high 28 (queue_end q)) (aep_state e).
Definition aep_set_state (v : Z) (e : async_endpoint_t) : async_endpoint_t :=
  async_endpoint (aepBoundTCB e) (aepMsgIdentifier e) (aepQueue_head e) (aepQueue_tail e) (field 2 v).
Definition aep_set_msg (v : Z) (e : async_endpoint_t) : async_endpoint_t :=
  async_endpoint (aepBoundTCB e) (w32 v) (aepQueue_head e) (aepQueue_tail e) (aep_state e).
Definition aep_set_bound (v : Z) (e : async_endpoint_t) : async_endpoint_t :=
  async_endpoint (field_high 28 v) (aepMsgIdentifier e) (aepQueue_head e) (aepQueue_tail e) (aep_state e).
Definition aep_ptr_set_queue (p : Z) (q : tcb_queue_t) : K unit := updAEP p (aep_set_queue q).
Definition async_endpoint_ptr_set_state (p v : Z) : K unit := updAEP p (aep_set_state v).

Definition empty_queue : tcb_queue_t := tcb_queue 0 0.

(** A fuel that bounds a walk along a queue of threads. *)
Definition tcb_fuel (s : kstate) : nat := S (size (ks_tcb s)).

(** ** Interrupt state *)
Definition setIRQState (irqState : irq_state_t) (irq : Z) : K unit :=
  modify (λ s, upd_intStateIRQTable (<[irq := irqState]> (intStateIRQTable s)) s) ;;;
  machine (op_maskInterrupt (bool_decide (irqState = IRQInactive)) irq).
Definition irq_state (s : kstate) (irq : Z) : irq_state_t :=
  default IRQInactive (intStateIRQTable s !! irq).
Definition isIRQActive (irq : Z) : K bool :=
  gets (λ s, negb (bool_decide (irq_state s irq = IRQInactive))).
Definition deletedIRQHandler (irq : Z) : K unit := setIRQState IRQInactive irq.

(** [getActiveIRQ] asks the interrupt controller, whose answers are a list. *)
Definition getActiveIRQ : K Z := λ s,
  match ks_irqs s with
  | [] => Ok irqInvalid s
  | irq :: rest => Ok irq (upd_ks_irqs rest s)
  end.
Definition isIRQPending : K bool := let! irq := getActiveIRQ in kret (negb (irq =? irqInvalid)).

(** ** Reply capabilities *)
Definition reply_set_callerSlot (v : Z) (c : cap_t) : option cap_t :=
  match c with
  | cap_reply_cap _ master t => Some (cap_reply_cap (field_high 28 v) master t)
  | _ => None
  end.
(** [cap_reply_cap_ptr_set_capCallerSlot(&slot->cap, v)] *)
Definition set_callerSlot (slot v : Z) : K unit :=
  let! c := getCap slot in
  let! c := kopt (reply_set_callerSlot v c) in
  setCap slot c.

Definition setupReplyMaster (thread : Z) : K unit :=
  let slot := TCB_PTR_CTE_PTR thread tcbReply in
  let! c := getCap slot in
  kwhen (is_null c) (setCap slot (cap_reply_cap_new 0 true 0)).

(** ** Slots *)
Definition ensureEmptySlot (slot : Z) : K exception_t :=
  let! c := getCap slot in
  if negb (is_null c) then fail_syscall seL4_DeleteFirst else kret EXCEPTION_NONE.

Definition cteInsert (newCap : cap_t) (srcSlot destSlot : Z) : K unit :=
  let! c := getCap destSlot in
  kassert (is_null c) ;;;
  setCap destSlot newCap ;;;
  cdtInsert srcSlot destSlot.

Definition cteMove (newCap : cap_t) (srcSlot destSlot : Z) : K unit :=
  let! c := getCap destSlot in
  kassert (is_null c) ;;;
  setCap destSlot newCap ;;;
  match newCap with
  | cap_reply_cap _ _ replyTCB => set_callerSlot (TCB_PTR_CTE_PTR replyTCB tcbReply) destSlot
  | _ => cdtMove srcSlot destSlot
  end ;;;
  setCap srcSlot cap_null_cap_new.

Definition capSwapForDelete (slot1 slot2 : Z) : K unit :=
  if slot1 =? slot2 then kret tt
  else
    let! cap1 := getCap slot1 in
    let! cap2 := getCap slot2 in
    cdtSwap cap1 slot1 cap2 slot2.

Definition insertNewCap (parent slot : Z) (cap : cap_t) : K unit :=
  setCap slot cap ;;;
  cdtInsert parent slot.

Definition emptySlot (slot irq : Z) : K unit :=
  let! c := getCap slot in
  kwhen (negb (is_null c))
    (cdtRemove slot ;;;
     setCap slot cap_null_cap_new ;;;
     kwhen (negb (irq =? irqInvalid)) (deletedIRQHandler irq)).

Definition capRemovable (cap : cap_t) (slot : Z) : option bool :=
  match cap with
  | cap_null_cap => Some true
  | cap_zombie_cap _ _ =>
      let n := cap_zombie_cap_get_capZombieNumber cap in
      Some ((n =? 0) || ((n =? 1) && (slot =? cap_zombie_cap_get_capZombiePtr cap)))
  | _ => None
  end.

Definition capCyclicZombie (cap : cap_t) (slot : Z) : bool :=
  match cap with
  | cap_zombie_cap _ _ => cap_zombie_cap_get_capZombiePtr cap =? slot
  | _ => false
  end.

Definition is_zombie (c : cap_t) : bool := cap_get_capType c =? 46.

Section Finalise.
Context {cfg : KernelConfig}.

(** ** Waking the threads of a queue *)
Definition restart_thread (thread : Z) : K unit :=
  setThreadState thread ThreadState_Restart ;;;
  tcbSchedEnqueue thread.

Fixpoint cancel_loop (fuel : nat) (thread : Z) : K unit :=
  match fuel with
  | O => kdiverge
  | S fuel =>
      if thread =? 0 then kret tt
      else
        restart_thread thread ;;;
        let! next := getTCBf tcbEPNext thread in
        cancel_loop fuel next
  end.

Definition epCancelAll (epptr : Z) : K unit :=
  let! ep := getEP epptr in
  if ep_state ep =? EPState_Idle then kret tt
  else
    endpoint_ptr_set_state epptr EPState_Idle ;;;
    ep_ptr_set_queue epptr empty_queue ;;;
    let! n := gets tcb_fuel in
    cancel_loop n (epQueue_head ep) ;;;
    rescheduleRequired.

Definition aepCancelAll (aepptr : Z) : K unit :=
  let! aep := getAEP aepptr in
  kwhen (aep_state aep =? AEPState_Waiting)
    (async_endpoint_ptr_set_state aepptr AEPState_Idle ;;;
     aep_ptr_set_queue aepptr empty_queue ;;;
     let! n := gets tcb_fuel in
     cancel_loop n (aepQueue_head aep) ;;;
     rescheduleRequired).

Fixpoint badged_loop (fuel : nat) (badge thread : Z) (queue : tcb_queue_t) : K tcb_queue_t :=
  match fuel with
  | O => kdiverge
  | S fuel =>
      if thread =? 0 then kret queue
      else
        let! b := getTCBf (λ t, blockingIPCBadge (tcbState t)) thread in
        let! next := getTCBf tcbEPNext thread in
        let! queue :=
          if b =? badge then
            restart_thread thread ;;;
            tcbEPDequeue thread queue
          else kret queue in
        badged_loop fuel badge next queue
  end.

Definition epCancelBadgedSends (epptr badge : Z) : K unit :=
  let! ep := getEP epptr in
  if (ep_state ep =? EPState_Idle) || (ep_state ep =? EPState_Recv) then kret tt
  else if ep_state ep =? EPState_Send then
    endpoint_ptr_set_state epptr EPState_Idle ;;;
    ep_ptr_set_queue epptr empty_queue ;;;
    let! n := gets tcb_fuel in
    let! queue := badged_loop n badge (epQueue_head ep) (ep_ptr_get_queue ep) in
    ep_ptr_set_queue epptr queue ;;;
    kwhen (negb (queue_head queue =? 0)) (endpoint_ptr_set_state epptr EPState_Send) ;;;
    rescheduleRequired
  else kfail.

Definition unbindAsyncEndpoint (tcb : Z) : K unit :=
  let! aepptr := getTCBf boundAsyncEndpoint tcb in
  kwhen (negb (aepptr =? 0))
    (updAEP aepptr (aep_set_bound 0) ;;;
     updTCB tcb (set_boundAsyncEndpoint 0)).

Definition bindAsyncEndpoint (tcb aepptr : Z) : K unit :=
  updAEP aepptr (aep_set_bound tcb) ;;;
  updTCB tcb (set_boundAsyncEndpoint aepptr).

Definition asyncIPCCancel (threadPtr aepptr : Z) : K unit :=
  let! aep := getAEP aepptr in
  kassert (aep_state aep =? AEPState_Waiting) ;;;
  let! queue := tcbEPDequeue threadPtr (aep_ptr_get_queue aep) in
  aep_ptr_set_queue aepptr queue ;;;
  kwhen (queue_head queue =? 0) (async_endpoint_ptr_set_state aepptr AEPState_Idle) ;;;
  setThreadState threadPtr ThreadState_Inactive.

(** ** Address-space capabilities *)
Definition Arch_finaliseCap (cap : cap_t) (final : bool) : K cap_t :=
  match cap with
  | cap_page_directory_cap pd =>
      kwhen final
        (unmapAllPageTables pd ;;;
         memzero_pdes pd (Z.shiftr kernelBase ARMSectionBits))
  | cap_page_table_cap obj idx base =>
      kwhen (negb (obj =? 0)) (unmapPageTable obj idx base) ;;;
      kwhen final
        (unmapAllPages obj idx base ;;;
         memzero_ptes base (BIT PT_BITS) ;;;
         machine (op_cleanCacheRange_PoU base (w32 (base + BIT PT_SIZE_BITS - 1)) (addrFromPPtr base)))
  | cap_frame_cap _ idx size _ _ base =>
      let obj := cap_frame_cap_get_capFMappedObject cap in
      kwhen (negb (obj =? 0))
        (if (size =? ARMSmallPage) || (size =? ARMLargePage) then unmapPagePTE size obj idx base
         else if (size =? ARMSection) || (size =? ARMSuperSection) then unmapPagePDE size obj idx base
         else kret tt)
  | _ => kret tt
  end ;;;
  kret cap_null_cap_new.

(** ** Operations that finalise *)
Section Fin.
Context (fin : cap_t → bool → bool → K (cap_t * Z)).

(** [finaliseCap(slot->cap, true, true); slot->cap = null]. *)
Definition drop_cap (slot : Z) : K unit :=
  let! c := getCap slot in
  fin c true true ;;;
  setCap slot cap_null_cap_new.

Definition deleteCallerCap_with (receiver : Z) : K unit :=
  let callerSlot := TCB_PTR_CTE_PTR receiver tcbCaller in
  let! c := getCap callerSlot in
  kwhen (is_reply_cap c) (drop_cap callerSlot).

Definition ipcCancel_with (tptr : Z) : K unit :=
  let! t := getTCB tptr in
  let st := tcbState t in
  match tsType st with
  | ThreadState_BlockedOnSend | ThreadState_BlockedOnReceive =>
      let epptr := blockingIPCEndpoint st in
      let! ep := getEP epptr in
      kassert (negb (ep_state ep =? EPState_Idle)) ;;;
      let! queue := tcbEPDequeue tptr (ep_ptr_get_queue ep) in
      ep_ptr_set_queue epptr queue ;;;
      kwhen (queue_head queue =? 0) (endpoint_ptr_set_state epptr EPState_Idle) ;;;
      setThreadState tptr ThreadState_Inactive
  | ThreadState_BlockedOnAsyncEvent => asyncIPCCancel tptr (blockingIPCEndpoint st)
  | ThreadState_BlockedOnReply =>
      updTCB tptr (set_tcbFault fault_null_fault) ;;;
      let slot := TCB_PTR_CTE_PTR tptr tcbReply in
      let! c := getCap slot in
      let! callerCap := kopt (match c with cap_reply_cap v _ _ => Some v | _ => None end) in
      kwhen (negb (callerCap =? 0)) (drop_cap callerCap) ;;;
      set_callerSlot slot 0
  | _ => kret tt
  end.

Definition suspend_with (target : Z) : K unit :=
  ipcCancel_with target ;;;
  deleteCallerCap_with target ;;;
  setThreadState target ThreadState_Inactive ;;;
  tcbSchedDequeue target.

Definition cteDeleteOne_with (slot : Z) : K unit :=
  let! c := getCap slot in
  kwhen (negb (is_null c))
    (let! final := cdtIsFinal slot in
     let! ' (remainder, irq) := fin c final true in
     let! removable := kopt (capRemovable remainder slot) in
     kassert (removable && (irq =? irqInvalid)) ;;;
     emptySlot slot irqInvalid).

Definition deletingIRQHandler_with (irq : Z) : K unit :=
  let! node := gets intStateIRQNode in
  cteDeleteOne_with (CTE_AT node irq).

Definition finaliseCap_body (cap : cap_t) (final exposed : bool) : K (cap_t * Z) :=
  let done := kret (cap_null_cap_new, irqInvalid) in
  match cap with
  | cap_frame_cap _ _ _ _ _ _ | cap_page_table_cap _ _ _ | cap_page_directory_cap _ =>
      let! remainder := Arch_finaliseCap cap final in
      kret (remainder, irqInvalid)
  | cap_endpoint_cap _ _ _ _ ptr => kwhen final (epCancelAll ptr) ;;; done
  | cap_async_endpoint_cap _ _ _ ptr =>
      kwhen final
        (let! aep := getAEP ptr in
         kwhen (negb (aepBoundTCB aep =? 0)) (unbindAsyncEndpoint (aepBoundTCB aep)) ;;;
         aepCancelAll ptr) ;;;
      done
  | cap_reply_cap _ _ callee =>
      set_callerSlot (TCB_PTR_CTE_PTR callee tcbReply) 0 ;;;
      done
  | cap_null_cap | cap_domain_cap => done
  | _ =>
      if exposed then kfail else
      match cap with
      | cap_cnode_cap radix _ _ ptr =>
          if final then kret (Zombie_new (BIT radix) radix ptr, irqInvalid) else done
      | cap_thread_cap tptr =>
          if final then
            let cte_ptr := TCB_PTR_CTE_PTR tptr tcbCTable in
            unbindAsyncEndpoint tptr ;;;
            suspend_with tptr ;;;
            let replySlot := TCB_PTR_CTE_PTR tptr tcbReply in
            let! c := getCap replySlot in
            match c with
            | cap_reply_cap _ _ t => kassert (t =? 0) ;;; setCap replySlot cap_null_cap_new
            | _ => kret tt
            end ;;;
            kret (Zombie_new tcbArchCNodeEntries ZombieType_ZombieTCB cte_ptr, irqInvalid)
          else done
      | cap_zombie_cap _ _ => kret (cap, irqInvalid)
      | cap_irq_handler_cap irq =>
          if final then
            deletingIRQHandler_with irq ;;;
            kret (cap_null_cap_new, irq)
          else done
      | _ => done
      end
  end.
End Fin.

Fixpoint finaliseCap_fuel (n : nat) (cap : cap_t) (final exposed : bool) : K (cap_t * Z) :=
  match n with
  | O => kdiverge
  | S n => finaliseCap_body (finaliseCap_fuel n) cap final exposed
  end.

Definition finaliseCap : cap_t → bool → bool → K (cap_t * Z) := finaliseCap_fuel 2.
Definition deleteCallerCap : Z → K unit := deleteCallerCap_with finaliseCap.
Definition ipcCancel : Z → K unit := ipcCancel_with finaliseCap.
Definition suspend : Z → K unit := suspend_with finaliseCap.
Definition cteDeleteOne : Z → K unit := cteDeleteOne_with finaliseCap.
Definition deletingIRQHandler : Z → K unit := deletingIRQHandler_with finaliseCap.

Definition restart (target : Z) : K unit :=
  let! blocked := isBlocked target in
  kwhen blocked
    (ipcCancel target ;;;
     setupReplyMaster target ;;;
     setThreadState target ThreadState_Restart ;;;
     tcbSchedEnqueue target ;;;
     switchIfRequiredTo target).

(** ** Preemption ([src/model/preemption.c]) *)
Definition preemptionPoint : K exception_t :=
  let! n := gets ksWorkUnitsCompleted in
  let n := w32 (n + 1) in
  modify (upd_ksWorkUnitsCompleted n) ;;;
  if CONFIG_MAX_NUM_WORK_UNITS_PER_PREEMPTION <=? n then
    modify (upd_ksWorkUnitsCompleted 0) ;;;
    let! pending := isIRQPending in
    kret (if pending : bool then EXCEPTION_PREEMPTED else EXCEPTION_NONE)
  else kret EXCEPTION_NONE.

(** ** Deletion *)
Section Delete.
Context (del : Z → bool → K exception_t).

Definition reduceZombie (slot : Z) (immediate : bool) : K exception_t :=
  let! cap := getCap slot in
  kassert (is_zombie cap) ;;;
  let ptr := cap_zombie_cap_get_capZombiePtr cap in
  let n := cap_zombie_cap_get_capZombieNumber cap in
  let! type := kopt (match cap with cap_zombie_cap _ type => Some type | _ => None end) in
  kassert (0 <? n) ;;;
  if immediate then
    let endSlot := CTE_AT ptr (n - 1) in
    let! status := del endSlot false in
    match status with
    | EXCEPTION_NONE =>
        let! cap' := getCap slot in
        match cap' with
        | cap_null_cap => kret EXCEPTION_NONE
        | cap_zombie_cap _ type' =>
            let ptr2 := cap_zombie_cap_get_capZombiePtr cap' in
            if (ptr =? ptr2) && (cap_zombie_cap_get_capZombieNumber cap' =? n) && (type' =? type) then
              let! e := getCap endSlot in
              kassert (is_null e) ;;;
              setCap slot (cap_zombie_cap_set_capZombieNumber cap' (n - 1)) ;;;
              kret EXCEPTION_NONE
            else
              kassert ((ptr2 =? slot) && negb (ptr =? slot)) ;;;
              kret EXCEPTION_NONE
        | _ => kfail
        end
    | _ => kret status
    end
  else
    kassert (negb (ptr =? slot)) ;;;
    let! c := getCap ptr in
    kwhen (is_zombie c) (kassert (negb (ptr =? cap_zombie_cap_get_capZombiePtr c))) ;;;
    capSwapForDelete ptr slot ;;;
    kret EXCEPTION_NONE.

(** Status, success and IRQ. *)
Fixpoint finaliseSlot_loop (fuel : nat) (slot : Z) (immediate : bool) :
    K (exception_t * bool * Z) :=
  match fuel with
  | O => kdiverge
  | S fuel =>
      let! cap := getCap slot in
      if is_null cap then kret (EXCEPTION_NONE, true, irqInvalid)
      else
        let! final := if is_zombie cap then kret true else cdtIsFinal slot in
        let! c := getCap slot in
        let! ' (remainder, irq) := finaliseCap c final false in
        let! removable := kopt (capRemovable remainder slot) in
        if removable : bool then kret (EXCEPTION_NONE, true, irq)
        else
          let! c := getCap slot in
          kwhen (negb (is_zombie c)) (cdtUpdate slot remainder) ;;;
          if negb immediate && capCyclicZombie remainder slot then
            kret (EXCEPTION_NONE, false, irq)
          else
            let! status := reduceZombie slot immediate in
            match status with
            | EXCEPTION_NONE =>
                let! status := preemptionPoint in
                match status with
                | EXCEPTION_NONE => finaliseSlot_loop fuel slot immediate
                | _ => kret (status, false, irqInvalid)
                end
            | _ => kret (status, false, irqInvalid)
            end
  end.
End Delete.

(** The number of rounds allowed for one slot. *)
Definition delete_fuel (s : kstate) : nat := (2 * size (ks_cte s) + 2)%nat.

Definition finaliseSlot_with (del : Z → bool → K exception_t) (slot : Z) (immediate : bool) :
    K (exception_t * bool * Z) :=
  let! n := gets delete_fuel in
  finaliseSlot_loop del n slot immediate.

Definition cteDelete_body (del : Z → bool → K exception_t) (slot : Z) (exposed : bool) :
    K exception_t :=
  let! ' (status, success, irq) := finaliseSlot_with del slot exposed in
  match status with
  | EXCEPTION_NONE =>
      kwhen (exposed || success) (emptySlot slot irq) ;;;
      kret EXCEPTION_NONE
  | _ => kret status
  end.

(** An unexposed deletion never deletes another slot, so the nesting is two
    deep. *)
Fixpoint cteDelete_fuel (n : nat) (slot : Z) (exposed : bool) : K exception_t :=
  match n with
  | O => kdiverge
  | S n => cteDelete_body (cteDelete_fuel n) slot exposed
  end.
Definition cteDelete : Z → bool → K exception_t := cteDelete_fuel 2.
Definition finaliseSlot : Z → bool → K (exception_t * bool * Z) := finaliseSlot_with cteDelete.

Fixpoint revoke_loop (fuel : nat) (slot : Z) : K exception_t :=
  match fuel with
  | O => kdiverge
  | S fuel =>
      let! childPtr := cdtFindChild slot in
      if childPtr =? 0 then kret EXCEPTION_NONE
      else
        let! status := cteDelete childPtr true in
        match status with
        | EXCEPTION_NONE =>
            let! status := preemptionPoint in
            match status with
            | EXCEPTION_NONE => revoke_loop fuel slot
            | _ => kret status
            end
        | _ => kret status
        end
  end.

Definition cteRevoke (slot : Z) : K exception_t :=
  let! c := getCap slot in
  if is_null c then kret EXCEPTION_NONE
  else let! n := gets cdt_fuel in revoke_loop n slot.

(** ** Recycling *)
Definition CPSR_USER : Z := 0x50.
Definition Arch_initContext (ctx : list Z) : list Z := <[Z.to_nat CPSR := CPSR_USER]> ctx.
Definition zero_tcb : tcb_t :=
  tcb (repeat 0 18) thread_state_new 0 fault_null_fault lookup_fault_invalid_root
    0 0 0 0 0 0 0 0 0.
(** A thread after [memzero] and the set-up of its non-zero parts. *)
Definition fresh_tcb (domain : Z) : tcb_t :=
  set_tcbDomain domain (set_tcbTimeSlice CONFIG_TIME_SLICE
    (set_tcbContext (Arch_initContext (repeat 0 18)) zero_tcb)).

Definition Arch_recycleCap (is_final : bool) (cap : cap_t) : K cap_t :=
  match cap with
  | cap_frame_cap _ _ size _ _ base =>
      let! sz := kopt (pageBitsForSize size) in
      clearMemory base sz ;;;
      Arch_finaliseCap cap is_final ;;;
      clearMemory base sz ;;;
      kret (resetMemMapping cap)
  | cap_page_table_cap _ _ _ =>
      Arch_finaliseCap cap true ;;;
      kret (resetMemMapping cap)
  | cap_page_directory_cap pd =>
      Arch_finaliseCap cap true ;;;
      memzero_pdes pd (Z.shiftr kernelBase ARMSectionBits) ;;;
      machine (op_cleanCacheRange_PoU pd (w32 (pd + BIT PD_SIZE_BITS - 1)) (addrFromPPtr pd)) ;;;
      kret cap
  | _ => kfail
  end.

Definition recycleCap (is_final : bool) (cap : cap_t) : K cap_t :=
  match cap with
  | cap_frame_cap _ _ _ _ _ _ | cap_page_table_cap _ _ _ | cap_page_directory_cap _ =>
      Arch_recycleCap is_final cap
  | cap_null_cap => kfail
  | cap_zombie_cap _ type =>
      if type =? ZombieType_ZombieTCB then
        let tcb := w32 (cap_zombie_cap_get_capZombiePtr cap + TCB_OFFSET) in
        let! t := getTCB tcb in
        kassert (bool_decide (tsType (tcbState t) = ThreadState_Inactive) ||
                 negb (bool_decide (tsType (tcbState t) = ThreadState_IdleThreadState))) ;;;
        kassert (negb (tcbQueued (tcbState t))) ;;;
        kassert (boundAsyncEndpoint t =? 0) ;;;
        let! dom := gets ksCurDomain in
        updTCB tcb (λ _, fresh_tcb dom) ;;;
        kret (cap_thread_cap_new tcb)
      else kret (cap_cnode_cap_new type 0 0 (cap_zombie_cap_get_capZombiePtr cap))
  | cap_endpoint_cap badge _ _ _ ptr =>
      kwhen (negb (badge =? 0)) (epCancelBadgedSends ptr badge) ;;;
      kret cap
  | _ => kret cap
  end.

Definition cteRecycle (slot : Z) : K exception_t :=
  let! status := cteRevoke slot in
  match status with
  | EXCEPTION_NONE =>
      let! ' (status, _, _) := finaliseSlot slot true in
      match status with
      | EXCEPTION_NONE =>
          let! c := getCap slot in
          kwhen (negb (is_null c))
            (let! is_final := cdtIsFinal slot in
             let! new_cap := recycleCap is_final c in
             cdtUpdate slot new_cap) ;;;
          kret EXCEPTION_NONE
      | _ => kret status
      end
  | _ => kret status
  end.

Definition slotCapLongRunningDelete (slot : Z) : K bool :=
  let! c := getCap slot in
  if is_null c then kret false
  else
    let! final := cdtIsFinal slot in
    kret (if final : bool then
            match c with
            | cap_thread_cap _ | cap_zombie_cap _ _ | cap_cnode_cap _ _ _ _ => true
            | _ => false
            end
          else false).
End Finalise.
