(* ===== verification/Ipc.v ===== *)
(** * Inter-process communication

    Models the message transfers of [src/kernel/thread.c], [src/object/tcb.c],
    [src/arch/arm/object/tcb.c] and [src/arch/arm/api/faults.c], synchronous
    endpoints ([src/object/endpoint.c]), asynchronous endpoints
    ([src/object/asyncendpoint.c]) and fault handling
    ([src/kernel/faulthandler.c]).  A buffer is the kernel address of its first
    word, 0 for none. *)

From S2P Require Import Prelude.
From S2P Require Import Word32.
From S2P Require Import Structures.
From S2P Require Import State.
From S2P Require Import CapOps.
From S2P Require Import VSpace.
From S2P Require Import Sched.
From S2P Require Import CSpace.
From S2P Require Import Finalise.

(** ** Registers that carry messages ([arch/machine/registerset.h]) *)
Definition capRegister : Z := 0.
Definition badgeRegister : Z := 0.
Definition msgInfoRegister : Z := 1.
Definition SP : Z := 13.
Definition msgRegisters : list Z := [2; 3; 4; 5].
Definition n_msgRegisters : Z := 4.
Definition syscallMessage : list Z := [0; 1; 2; 3; 4; 5; 6; 7; FaultInstruction; SP; 14; CPSR].
Definition n_syscallMessage : Z := 12.
Definition exceptionMessage : list Z := [FaultInstruction; SP; CPSR].
Definition n_exceptionMessage : Z := 3.
Definition reg_at (regs : list Z) (i : Z) : Z := nth (Z.to_nat i) regs 0.

Definition sanitiseRegister (reg v : Z) : Z :=
  if reg =? CPSR then Z.lor (Z.land v 0xf8000000) CPSR_USER else v.

(** [buffer[i]] *)
Definition BUF_AT (buffer i : Z) : Z := w32 (buffer + 4 * i).
Definition getBuf (buffer i : Z) : K Z := getWord (BUF_AT buffer i).
Definition setBuf (buffer i v : Z) : K unit := setWord (BUF_AT buffer i) v.

Definition from_to (a b : Z) : list Z := (λ i, a + i) <$> upto (b - a).

(** ** Message registers *)
Definition setMR (receiver receiveIPCBuffer offset reg : Z) : K Z :=
  if n_msgRegisters <=? offset then
    if negb (receiveIPCBuffer =? 0) then
      setBuf receiveIPCBuffer (offset + 1) reg ;;; kret (offset + 1)
    else kret n_msgRegisters
  else
    setRegister receiver (reg_at msgRegisters offset) reg ;;;
    kret (offset + 1).

Definition lookup_fault_get_lufType (luf : lookup_fault_t) : Z :=
  match luf with
  | lookup_fault_invalid_root => 0
  | lookup_fault_missing_capability _ => 1
  | lookup_fault_depth_mismatch _ _ => 2
  | lookup_fault_guard_mismatch _ _ _ => 3
  end.

Definition setMRs_lookup_failure (receiver buf : Z) (luf : lookup_fault_t) (offset : Z) : K Z :=
  let! i := setMR receiver buf offset (lookup_fault_get_lufType luf + 1) in
  match luf with
  | lookup_fault_invalid_root => kret i
  | lookup_fault_missing_capability bitsLeft => setMR receiver buf (offset + 1) bitsLeft
  | lookup_fault_depth_mismatch bitsFound bitsLeft =>
      setMR receiver buf (offset + 1) bitsLeft ;;;
      setMR receiver buf (offset + 2) bitsFound
  | lookup_fault_guard_mismatch guardFound bitsLeft bitsFound =>
      setMR receiver buf (offset + 1) bitsLeft ;;;
      setMR receiver buf (offset + 2) guardFound ;;;
      setMR receiver buf (offset + 3) bitsFound
  end.

Definition setMRs_fault (sender receiver buf : Z) : K Z :=
  let! t := getTCB sender in
  match tcbFault t with
  | fault_cap_fault address inReceivePhase =>
      let! pc := getRestartPC sender in
      setMR receiver buf 0 pc ;;;
      setMR receiver buf 1 address ;;;
      setMR receiver buf 2 (b2z inReceivePhase) ;;;
      setMRs_lookup_failure receiver buf (tcbLookupFailure t) 3
  | fault_vm_fault address FSR instructionFault =>
      let! pc := getRestartPC sender in
      setMR receiver buf 0 pc ;;;
      setMR receiver buf 1 address ;;;
      setMR receiver buf 2 (b2z instructionFault) ;;;
      setMR receiver buf 3 FSR
  | fault_unknown_syscall syscallNumber =>
      kfor (upto n_msgRegisters) (λ i,
        let! v := getRegister sender (reg_at syscallMessage i) in
        setRegister receiver (reg_at msgRegisters i) v) ;;;
      if negb (buf =? 0) then
        kfor (from_to n_msgRegisters n_syscallMessage) (λ i,
          let! v := getRegister sender (reg_at syscallMessage i) in
          setBuf buf (i + 1) v) ;;;
        setBuf buf (n_syscallMessage + 1) syscallNumber ;;;
        kret (n_syscallMessage + 1)
      else kret n_msgRegisters
  | fault_user_exception number code =>
      kfor (upto n_exceptionMessage) (λ i,
        let! v := getRegister sender (reg_at exceptionMessage i) in
        setRegister receiver (reg_at msgRegisters i) v) ;;;
      setMR receiver buf n_exceptionMessage number ;;;
      setMR receiver buf (n_exceptionMessage + 1) code
  | fault_null_fault => kfail
  end.

Definition syscall_error_number (t : syscall_error_type_t) : Z :=
  match t with
  | seL4_NoError => 0 | seL4_InvalidArgument => 1 | seL4_InvalidCapability => 2
  | seL4_IllegalOperation => 3 | seL4_RangeError => 4 | seL4_AlignmentError => 5
  | seL4_FailedLookup => 6 | seL4_TruncatedMessage => 7 | seL4_DeleteFirst => 8
  | seL4_RevokeFirst => 9 | seL4_NotEnoughMemory => 10
  end.

Definition setMRs_syscall_error (thread buf : Z) : K Z :=
  let! e := gets current_syscall_error in
  match se_type e with
  | seL4_InvalidArgument => setMR thread buf 0 (invalidArgumentNumber e)
  | seL4_InvalidCapability => setMR thread buf 0 (invalidCapNumber e)
  | seL4_RangeError =>
      setMR thread buf 0 (rangeErrorMin e) ;;;
      setMR thread buf 1 (rangeErrorMax e)
  | seL4_FailedLookup =>
      setMR thread buf 0 (b2z (failedLookupWasSource e)) ;;;
      let! luf := gets current_lookup_fault in
      setMRs_lookup_failure thread buf luf 1
  | seL4_NotEnoughMemory => setMR thread buf 0 (memoryLeft e)
  | seL4_IllegalOperation | seL4_AlignmentError | seL4_TruncatedMessage
  | seL4_DeleteFirst | seL4_RevokeFirst => kret 0
  | seL4_NoError => kfail
  end.

Definition copyMRs (sender sendBuf receiver recvBuf n : Z) : K Z :=
  let i := Z.min n n_msgRegisters in
  kfor (upto i) (λ i,
    let! v := getRegister sender (reg_at msgRegisters i) in
    setRegister receiver (reg_at msgRegisters i) v) ;;;
  if (recvBuf =? 0) || (sendBuf =? 0) then kret i
  else
    kfor (from_to i n) (λ i, let! v := getBuf sendBuf (i + 1) in setBuf recvBuf (i + 1) v) ;;;
    kret (Z.max i n).

Definition doPollFailedTransfer (thread : Z) : K unit := setRegister thread badgeRegister 0.

(** ** Extra capabilities *)
Definition getExtraCPtr (buffer i : Z) : K Z := getBuf buffer (seL4_MsgMaxLength + 2 + i).
Definition setExtraBadge (buffer badge i : Z) : K unit :=
  setBuf buffer (seL4_MsgMaxLength + 2 + i) badge.

Definition set_excapref (i slot : Z) : K unit :=
  modify (λ s, upd_current_extra_caps (<[Z.to_nat i := slot]> (current_extra_caps s)) s).

Fixpoint extra_caps_loop (n : nat) (i thread buffer : Z) : K exception_t :=
  match n with
  | O => kret EXCEPTION_NONE
  | S n =>
      let! cptr := getExtraCPtr buffer i in
      let! ' (status, slot) := lookupSlot thread cptr in
      match status with
      | EXCEPTION_NONE =>
          set_excapref i slot ;;;
          extra_caps_loop n (i + 1) thread buffer
      | _ =>
          modify (upd_current_fault (fault_cap_fault cptr false)) ;;;
          kret status
      end
  end.

Definition lookupExtraCaps (thread bufferPtr : Z) (info : message_info_t) : K exception_t :=
  if bufferPtr =? 0 then
    set_excapref 0 0 ;;;
    kret EXCEPTION_NONE
  else
    let length := message_info_get_msgExtraCaps info in
    let! status := extra_caps_loop (Z.to_nat length) 0 thread bufferPtr in
    match status with
    | EXCEPTION_NONE =>
        kwhen (length <? seL4_MsgMaxExtraCaps) (set_excapref length 0) ;;;
        kret EXCEPTION_NONE
    | _ => kret status
    end.

(** The receive root, index and depth of the cap transfer descriptor. *)
Definition loadCapTransfer (buffer : Z) : K (Z * Z * Z) :=
  let offset := seL4_MsgMaxLength + seL4_MsgMaxExtraCaps + 2 in
  let! root := getBuf buffer offset in
  let! index := getBuf buffer (offset + 1) in
  let! depth := getBuf buffer (offset + 2) in
  kret (root, index, depth).

Definition getReceiveSlots (thread buffer : Z) : K Z :=
  if buffer =? 0 then kret 0
  else
    let! ' (cptr, index, depth) := loadCapTransfer buffer in
    let! ' (status, cnode) := lookupCap thread cptr in
    match status with
    | EXCEPTION_NONE =>
        let! ' (status, slot) := lookupTargetSlot cnode index depth in
        match status with
        | EXCEPTION_NONE =>
            let! c := getCap slot in
            kret (if is_null c then slot else 0)
        | _ => kret 0
        end
    | _ => kret 0
    end.

(** ** Deriving a capability *)
Definition Arch_deriveCap (slot : Z) (cap : cap_t) : option (exception_t * cap_t) :=
  match cap with
  | cap_page_table_cap _ idx base => Some (EXCEPTION_NONE, cap_page_table_cap 0 idx base)
  | cap_page_directory_cap _ => Some (EXCEPTION_NONE, cap)
  | cap_frame_cap _ _ _ _ _ _ => Some (EXCEPTION_NONE, cap_frame_cap_set_capFMappedObject cap 0)
  | _ => None
  end.

Definition deriveCap (slot : Z) (cap : cap_t) : option (exception_t * cap_t) :=
  if isArchCap cap then Arch_deriveCap slot cap
  else match cap with
  | cap_zombie_cap _ _ | cap_irq_control_cap | cap_reply_cap _ _ _ =>
      Some (EXCEPTION_NONE, cap_null_cap_new)
  | _ => Some (EXCEPTION_NONE, cap)
  end.

(** The capabilities still to transfer are [caps], from index [i]; the result
    is the message header and the index the loop stopped at. *)
Fixpoint transfer_loop (caps : list Z) (i : Z) (info : message_info_t)
    (endpoint destSlot receiveBuffer : Z) (diminish : bool) : K (message_info_t * Z) :=
  match caps with
  | [] => kret (info, i)
  | slot :: caps =>
      if slot =? 0 then kret (info, i) else
      let! cap := getCap slot in
      let same := match cap with
        | cap_endpoint_cap badge _ _ _ ptr => if ptr =? endpoint then Some badge else None
        | _ => None end in
      match same with
      | Some badge =>
          setExtraBadge receiveBuffer badge i ;;;
          let info := message_info_set_msgCapsUnwrapped info
                        (Z.lor (message_info_get_msgCapsUnwrapped info) (Z.shiftl 1 i)) in
          transfer_loop caps (i + 1) info endpoint destSlot receiveBuffer diminish
      | None =>
          if destSlot =? 0 then kret (info, i)
          else
            let! ' (status, c) :=
              kopt (deriveCap slot (if diminish then maskCapRights noWrite cap else cap)) in
            match status with
            | EXCEPTION_NONE =>
                if is_null c then kret (info, i)
                else
                  cteInsert c slot destSlot ;;;
                  transfer_loop caps (i + 1) info endpoint 0 receiveBuffer diminish
            | _ => kret (info, i)
            end
      end
  end.

Definition transferCaps (info : message_info_t) (caps : list Z) (endpoint receiver receiveBuffer : Z)
    (diminish : bool) : K message_info_t :=
  let info := message_info_set_msgExtraCaps info 0 in
  let info := message_info_set_msgCapsUnwrapped info 0 in
  if (nth 0 caps 0 =? 0) || (receiveBuffer =? 0) then kret info
  else
    let! destSlot := getReceiveSlots receiver receiveBuffer in
    let! ' (info, i) := transfer_loop caps 0 info endpoint destSlot receiveBuffer diminish in
    kret (message_info_set_msgExtraCaps info i).

Section Ipc.
Context {cfg : KernelConfig}.

(** ** Transfers *)
Definition doNormalTransfer (sender sendBuffer endpoint badge : Z) (canGrant : bool)
    (receiver receiveBuffer : Z) (diminish : bool) : K unit :=
  let! w := getRegister sender msgInfoRegister in
  let tag := messageInfoFromWord w in
  let! caps :=
    if canGrant then
      let! status := lookupExtraCaps sender sendBuffer tag in
      let! caps := gets current_extra_caps in
      kret (match status with EXCEPTION_NONE => caps | _ => <[0%nat := 0]> caps end)
    else
      let! caps := gets current_extra_caps in
      kret (<[0%nat := 0]> caps) in
  let! msgTransferred :=
    copyMRs sender sendBuffer receiver receiveBuffer (message_info_get_msgLength tag) in
  let! tag := transferCaps tag caps endpoint receiver receiveBuffer diminish in
  let tag := message_info_set_msgLength tag msgTransferred in
  setRegister receiver msgInfoRegister (wordFromMessageInfo tag) ;;;
  setRegister receiver badgeRegister badge.

Definition doFaultTransfer (badge sender receiver receiverIPCBuffer : Z) : K unit :=
  let! sent := setMRs_fault sender receiver receiverIPCBuffer in
  let! t := getTCB sender in
  let msgInfo := message_info_new (fault_get_faultType (tcbFault t)) 0 0 sent in
  setRegister receiver msgInfoRegister (wordFromMessageInfo msgInfo) ;;;
  setRegister receiver badgeRegister badge.

Definition doIPCTransfer (sender endpoint badge : Z) (grant : bool) (receiver : Z)
    (diminish : bool) : K unit :=
  let! receiveBuffer := lookupIPCBuffer true receiver in
  let! t := getTCB sender in
  if fault_get_faultType (tcbFault t) =? 0 then
    let! sendBuffer := lookupIPCBuffer false sender in
    doNormalTransfer sender sendBuffer endpoint badge grant receiver receiveBuffer diminish
  else doFaultTransfer badge sender receiver receiveBuffer.

Definition setupCallerCap (sender receiver : Z) : K unit :=
  setThreadState sender ThreadState_BlockedOnReply ;;;
  let replySlot := TCB_PTR_CTE_PTR sender tcbReply in
  let callerSlot := TCB_PTR_CTE_PTR receiver tcbCaller in
  let! masterCap := getCap replySlot in
  kassert (match masterCap with cap_reply_cap _ master t => master && (t =? 0) | _ => false end) ;;;
  set_callerSlot replySlot callerSlot ;;;
  let! callerCap := getCap callerSlot in
  kassert (is_null callerCap) ;;;
  setCap callerSlot (cap_reply_cap_new 0 false sender).

(** Copying registers [from i to n) of a reply into the faulting thread. *)
Definition reply_regs (regs : list Z) (receiver : Z) (idxs : list Z) (read : Z → K Z) : K unit :=
  kfor idxs (λ i,
    let r := reg_at regs i in
    let! v := read i in
    setRegister receiver r (sanitiseRegister r v)).

Definition handleFaultReply (receiver sender : Z) : K bool :=
  let! w := getRegister sender msgInfoRegister in
  let tag := messageInfoFromWord w in
  let label := message_info_get_msgLabel tag in
  let length := message_info_get_msgLength tag in
  let! t := getTCB receiver in
  match tcbFault t with
  | fault_cap_fault _ _ | fault_vm_fault _ _ _ => kret true
  | fault_unknown_syscall _ =>
      let! sendBuf := lookupIPCBuffer false sender in
      let i := Z.min length n_msgRegisters in
      reply_regs syscallMessage receiver (upto i) (λ i, getRegister sender (reg_at msgRegisters i)) ;;;
      kwhen (negb (sendBuf =? 0))
        (reply_regs syscallMessage receiver (from_to i (Z.min length n_syscallMessage))
           (λ i, getBuf sendBuf (i + 1))) ;;;
      kret (label =? 0)
  | fault_user_exception _ _ =>
      reply_regs exceptionMessage receiver (upto (Z.min length n_exceptionMessage))
        (λ i, getRegister sender (reg_at msgRegisters i)) ;;;
      kret (label =? 0)
  | fault_null_fault => kfail
  end.

Definition doReplyTransfer (sender receiver slot : Z) : K unit :=
  let! t := getTCB receiver in
  kassert (bool_decide (tsType (tcbState t) = ThreadState_BlockedOnReply)) ;;;
  (if fault_get_faultType (tcbFault t) =? 0 then
     doIPCTransfer sender 0 0 true receiver false ;;;
     setThreadState receiver ThreadState_Running ;;;
     attemptSwitchTo receiver
   else
     let! restart := handleFaultReply receiver sender in
     updTCB receiver (set_tcbFault fault_null_fault) ;;;
     if restart : bool then
       setThreadState receiver ThreadState_Restart ;;;
       attemptSwitchTo receiver
     else setThreadState receiver ThreadState_Inactive) ;;;
  drop_cap finaliseCap slot.

(** ** Synchronous endpoints *)
Definition block_on_endpoint (epptr thread newState : Z) (setState : thread_state_t → thread_state_t) : K unit :=
  updState setState thread ;;;
  scheduleTCB thread ;;;
  let! ep := getEP epptr in
  let! queue := tcbEPAppend thread (ep_ptr_get_queue ep) in
  endpoint_ptr_set_state epptr newState ;;;
  ep_ptr_set_queue epptr queue.

(** Taking the first thread of an endpoint's queue. *)
Definition ep_dequeue_head (epptr : Z) : K Z :=
  let! ep := getEP epptr in
  let queue := ep_ptr_get_queue ep in
  let dest := queue_head queue in
  kassert (negb (dest =? 0)) ;;;
  let! queue := tcbEPDequeue dest queue in
  ep_ptr_set_queue epptr queue ;;;
  kwhen (queue_head queue =? 0) (endpoint_ptr_set_state epptr EPState_Idle) ;;;
  kret dest.

Definition sendIPC (blocking do_call : bool) (badge : Z) (canGrant : bool) (thread epptr : Z) : K unit :=
  let! ep := getEP epptr in
  if (ep_state ep =? EPState_Idle) || (ep_state ep =? EPState_Send) then
    kwhen blocking
      (block_on_endpoint epptr thread EPState_Send (λ st,
         thread_state_set_blockingIPCIsCall do_call
           (thread_state_set_blockingIPCCanGrant canGrant
              (thread_state_set_blockingIPCBadge badge
                 (thread_state_set_blockingIPCEndpoint epptr
                    (thread_state_set_tsType ThreadState_BlockedOnSend st))))))
  else if ep_state ep =? EPState_Recv then
    let! dest := ep_dequeue_head epptr in
    let! diminish := getTCBf (λ t, blockingIPCDiminishCaps (tcbState t)) dest in
    doIPCTransfer thread epptr badge canGrant dest diminish ;;;
    setThreadState dest ThreadState_Running ;;;
    attemptSwitchTo dest ;;;
    let! t := getTCB thread in
    kwhen (do_call || negb (fault_get_faultType (tcbFault t) =? 0))
      (if canGrant && negb diminish then setupCallerCap thread dest
       else setThreadState thread ThreadState_Inactive)
  else kret tt.

Definition completeAsyncIPC (aepptr tcb : Z) : K unit :=
  let! aep := getAEP aepptr in
  if negb (tcb =? 0) && (aep_state aep =? AEPState_Active) then
    async_endpoint_ptr_set_state aepptr AEPState_Idle ;;;
    setRegister tcb badgeRegister (aepMsgIdentifier aep)
  else kfail.

Definition receiveIPC (thread : Z) (cap : cap_t) : K unit :=
  let! ' (canSend, epptr) := kopt (match cap with
    | cap_endpoint_cap _ _ send _ ptr => Some (send, ptr) | _ => None end) in
  let diminish := negb canSend in
  let! aepptr := getTCBf boundAsyncEndpoint thread in
  let! active :=
    if aepptr =? 0 then kret false
    else let! aep := getAEP aepptr in kret (aep_state aep =? AEPState_Active) in
  if active : bool then completeAsyncIPC aepptr thread
  else
    let! ep := getEP epptr in
    if (ep_state ep =? EPState_Idle) || (ep_state ep =? EPState_Recv) then
      block_on_endpoint epptr thread EPState_Recv (λ st,
        thread_state_set_blockingIPCDiminishCaps diminish
          (thread_state_set_blockingIPCEndpoint epptr
             (thread_state_set_tsType ThreadState_BlockedOnReceive st)))
    else if ep_state ep =? EPState_Send then
      let! sender := ep_dequeue_head epptr in
      let! badge := getTCBf (λ t, blockingIPCBadge (tcbState t)) sender in
      let! canGrant := getTCBf (λ t, blockingIPCCanGrant (tcbState t)) sender in
      doIPCTransfer sender epptr badge canGrant thread diminish ;;;
      let! t := getTCB sender in
      let do_call := blockingIPCIsCall (tcbState t) in
      if do_call || negb (fault_get_faultType (tcbFault t) =? 0) then
        if canGrant && negb diminish then setupCallerCap sender thread
        else setThreadState sender ThreadState_Inactive
      else
        setThreadState sender ThreadState_Running ;;;
        switchIfRequiredTo sender
    else kret tt.

Definition replyFromKernel_error (thread : Z) : K unit :=
  let! ipcBuffer := lookupIPCBuffer true thread in
  setRegister thread badgeRegister 0 ;;;
  let! len := setMRs_syscall_error thread ipcBuffer in
  let! e := gets current_syscall_error in
  setRegister thread msgInfoRegister
    (wordFromMessageInfo (message_info_new (syscall_error_number (se_type e)) 0 0 len)).

Definition replyFromKernel_success_empty (thread : Z) : K unit :=
  setRegister thread badgeRegister 0 ;;;
  setRegister thread msgInfoRegister (wordFromMessageInfo (message_info_new 0 0 0 0)).

(** ** Asynchronous endpoints *)
Definition aep_set_active (aepptr badge : Z) : K unit :=
  async_endpoint_ptr_set_state aepptr AEPState_Active ;;;
  updAEP aepptr (aep_set_msg badge).

Definition sendAsyncIPC (aepptr badge : Z) : K unit :=
  let! aep := getAEP aepptr in
  if aep_state aep =? AEPState_Idle then
    let tcb := aepBoundTCB aep in
    if tcb =? 0 then aep_set_active aepptr badge
    else
      let! ts := getTsType tcb in
      match ts with
      | ThreadState_BlockedOnReceive =>
          ipcCancel tcb ;;;
          setThreadState tcb ThreadState_Running ;;;
          setRegister tcb badgeRegister badge ;;;
          attemptSwitchTo tcb
      | ThreadState_RunningVM =>
          setThreadState tcb ThreadState_Running ;;;
          setRegister tcb badgeRegister badge ;;;
          setRegister tcb msgInfoRegister 0 ;;;
          attemptSwitchTo tcb
      | _ => aep_set_active aepptr badge
      end
  else if aep_state aep =? AEPState_Waiting then
    let dest := queue_head (aep_ptr_get_queue aep) in
    kassert (negb (dest =? 0)) ;;;
    let! queue := tcbEPDequeue dest (aep_ptr_get_queue aep) in
    aep_ptr_set_queue aepptr queue ;;;
    kwhen (queue_head queue =? 0) (async_endpoint_ptr_set_state aepptr AEPState_Idle) ;;;
    setThreadState dest ThreadState_Running ;;;
    setRegister dest badgeRegister badge ;;;
    switchIfRequiredTo dest
  else if aep_state aep =? AEPState_Active then
    updAEP aepptr (aep_set_msg (Z.lor (aepMsgIdentifier aep) badge))
  else kret tt.

Definition receiveAsyncIPC (thread : Z) (cap : cap_t) (isBlocking : bool) : K unit :=
  let! aepptr := kopt (match cap with
    | cap_async_endpoint_cap _ _ _ ptr => Some ptr | _ => None end) in
  let! aep := getAEP aepptr in
  if (aep_state aep =? AEPState_Idle) || (aep_state aep =? AEPState_Waiting) then
    if isBlocking then
      updState (λ st, thread_state_set_blockingIPCEndpoint aepptr
                        (thread_state_set_tsType ThreadState_BlockedOnAsyncEvent st)) thread ;;;
      scheduleTCB thread ;;;
      let! aep := getAEP aepptr in
      let! queue := tcbEPAppend thread (aep_ptr_get_queue aep) in
      async_endpoint_ptr_set_state aepptr AEPState_Waiting ;;;
      aep_ptr_set_queue aepptr queue
    else doPollFailedTransfer thread
  else if aep_state aep =? AEPState_Active then
    setRegister thread badgeRegister (aepMsgIdentifier aep) ;;;
    async_endpoint_ptr_set_state aepptr AEPState_Idle
  else kret tt.

(** ** Faults *)
Definition cap_fault_of_handler (handlerCPtr : Z) : K exception_t :=
  modify (upd_current_fault (fault_cap_fault handlerCPtr false)) ;;;
  kret EXCEPTION_FAULT.

Definition sendFaultIPC (tptr : Z) : K exception_t :=
  let! original_lookup_fault := gets current_lookup_fault in
  let! handlerCPtr := getTCBf tcbFaultHandler tptr in
  let! ' (status, handlerCap) := lookupCap tptr handlerCPtr in
  match status with
  | EXCEPTION_NONE =>
      match handlerCap with
      | cap_endpoint_cap badge true true _ ptr =>
          let! fault := gets current_fault in
          updTCB tptr (set_tcbFault fault) ;;;
          kwhen (fault_get_faultType fault =? 1)
            (updTCB tptr (set_tcbLookupFailure original_lookup_fault)) ;;;
          sendIPC true false badge true tptr ptr ;;;
          kret EXCEPTION_NONE
      | _ =>
          modify (upd_current_fault (fault_cap_fault handlerCPtr false)) ;;;
          set_lookup_fault (lookup_fault_missing_capability_new 0) ;;;
          kret EXCEPTION_FAULT
      end
  | _ => cap_fault_of_handler handlerCPtr
  end.

Definition handleDoubleFault (tptr : Z) : K unit := setThreadState tptr ThreadState_Inactive.

Definition handleFault (tptr : Z) : K unit :=
  let! status := sendFaultIPC tptr in
  match status with
  | EXCEPTION_NONE => kret tt
  | _ => handleDoubleFault tptr
  end.
End Ipc.
