(* ===== verification/Labels.v ===== *)
(** * Invocation labels, object types and system-call arguments

    The numbering of [enum invocation_label] and [enum arch_invocation_label]
    is generated from [libsel4/include/interfaces/sel4.xml] and
    [libsel4/arch_include/arm/interfaces/sel4arch.xml]; that of the object types
    is [libsel4/include/sel4/objecttype.h] and its ARM part.
    [getSyscallArg] is in [include/api/syscall.h]. *)

From S2P Require Import Prelude.
From S2P Require Import Word32.
From S2P Require Import Structures.
From S2P Require Import State.
From S2P Require Import Sched.
From S2P Require Import Ipc.

(** ** Object types *)
Definition seL4_UntypedObject : Z := 0.
Definition seL4_TCBObject : Z := 1.
Definition seL4_EndpointObject : Z := 2.
Definition seL4_AsyncEndpointObject : Z := 3.
Definition seL4_CapTableObject : Z := 4.
Definition seL4_NonArchObjectTypeCount : Z := 5.
Definition seL4_ARM_SmallPageObject : Z := 5.
Definition seL4_ARM_LargePageObject : Z := 6.
Definition seL4_ARM_SectionObject : Z := 7.
Definition seL4_ARM_SuperSectionObject : Z := 8.
Definition seL4_ARM_PageTableObject : Z := 9.
Definition seL4_ARM_PageDirectoryObject : Z := 10.
Definition seL4_ObjectTypeCount : Z := 11.

(** ** Labels *)
Definition UntypedRetype : Z := 1.
Definition TCBReadRegisters : Z := 2.
Definition TCBWriteRegisters : Z := 3.
Definition TCBCopyRegisters : Z := 4.
Definition TCBConfigure : Z := 5.
Definition TCBSetPriority : Z := 6.
Definition TCBSetIPCBuffer : Z := 7.
Definition TCBSetSpace : Z := 8.
Definition TCBSuspend : Z := 9.
Definition TCBResume : Z := 10.
Definition TCBBindAEP : Z := 11.
Definition TCBUnbindAEP : Z := 12.
Definition TCBSetEPTRoot : Z := 13.
Definition CNodeRevoke : Z := 14.
Definition CNodeDelete : Z := 15.
Definition CNodeRecycle : Z := 16.
Definition CNodeCopy : Z := 17.
Definition CNodeMint : Z := 18.
Definition CNodeMove : Z := 19.
Definition CNodeMutate : Z := 20.
Definition CNodeRotate : Z := 21.
Definition CNodeSaveCaller : Z := 22.
Definition IRQIssueIRQHandler : Z := 23.
Definition IRQInterruptControl : Z := 24.
Definition IRQAckIRQ : Z := 25.
Definition IRQSetIRQHandler : Z := 26.
Definition IRQClearIRQHandler : Z := 27.
Definition IRQSetMode : Z := 28.
Definition DomainSetSet : Z := 29.
Definition ARMPDClean_Data : Z := 30.
Definition ARMPDInvalidate_Data : Z := 31.
Definition ARMPDCleanInvalidate_Data : Z := 32.
Definition ARMPDUnify_Instruction : Z := 33.
Definition ARMPageTableMap : Z := 34.
Definition ARMPageTableUnmap : Z := 35.
Definition ARMPageMap : Z := 36.
Definition ARMPageUnmap : Z := 37.
Definition ARMPageClean_Data : Z := 38.
Definition ARMPageInvalidate_Data : Z := 39.
Definition ARMPageCleanInvalidate_Data : Z := 40.
Definition ARMPageUnify_Instruction : Z := 41.
Definition ARMPageGetAddress : Z := 42.

(** ** Arguments *)
Definition getSyscallArg (i ipc_buffer : Z) : K Z :=
  if i <? n_msgRegisters then
    let! cur := gets ksCurThread in
    getRegister cur (reg_at msgRegisters i)
  else
    kassert (negb (ipc_buffer =? 0)) ;;;
    getBuf ipc_buffer (i + 1).

(** [extraCaps.excaprefs[i]], 0 standing for NULL. *)
Definition excap (extraCaps : list Z) (i : nat) : Z := nth i extraCaps 0.
Definition no_excap (extraCaps : list Z) (i : nat) : bool := excap extraCaps i =? 0.

(** The errors the decoders report. *)
Definition invalid_cap (n : Z) : K exception_t :=
  error_type seL4_InvalidCapability ;;; error_cap n ;;; kret EXCEPTION_SYSCALL_ERROR.
Definition invalid_arg (n : Z) : K exception_t :=
  error_type seL4_InvalidArgument ;;; error_arg n ;;; kret EXCEPTION_SYSCALL_ERROR.
Definition range_error (lo hi : Z) : K exception_t :=
  error_type seL4_RangeError ;;; error_range lo hi ;;; kret EXCEPTION_SYSCALL_ERROR.

(** The thread that made the call goes to [ThreadState_Restart] before the
    operation runs: [setThreadState(ksCurThread, ThreadState_Restart)]. *)
Definition restart_current {cfg : KernelConfig} : K unit :=
  let! cur := gets ksCurThread in
  setThreadState cur ThreadState_Restart.
