(* ===== verification/Untyped.v ===== *)
(** * Untyped memory and object creation

    Models [src/object/untyped.c], the creation half of
    [src/object/objecttype.c] ([getObjectSize], [createObject],
    [createNewObjects]) and of [src/arch/arm/object/objecttype.c].  Retyping
    changes which objects live at which addresses: the ghost updates in the
    comments of the source ([typ_clear_region], [ptr_retyp]) are state changes
    here, and creating an object both zeroes its memory and puts the zeroed
    object of the new type there. *)

From S2P Require Import Prelude.
From S2P Require Import Word32.
From S2P Require Import Structures.
From S2P Require Import State.
From S2P Require Import Cdt.
From S2P Require Import VSpace.
From S2P Require Import Sched.
From S2P Require Import CSpace.
From S2P Require Import Finalise.
From S2P Require Import Ipc.
From S2P Require Import Labels.

(** ** Sizes *)
Definition Arch_isFrameType (t : Z) : bool :=
  (t =? seL4_ARM_SmallPageObject) || (t =? seL4_ARM_LargePageObject) ||
  (t =? seL4_ARM_SectionObject) || (t =? seL4_ARM_SuperSectionObject).

Definition Arch_getObjectSize (t : Z) : option Z :=
  if t =? seL4_ARM_SmallPageObject then Some ARMSmallPageBits
  else if t =? seL4_ARM_LargePageObject then Some ARMLargePageBits
  else if t =? seL4_ARM_SectionObject then Some ARMSectionBits
  else if t =? seL4_ARM_SuperSectionObject then Some ARMSuperSectionBits
  else if t =? seL4_ARM_PageTableObject then Some (PTE_SIZE_BITS + PT_BITS)
  else if t =? seL4_ARM_PageDirectoryObject then Some (PDE_SIZE_BITS + PD_BITS)
  else None.

Definition getObjectSize (t userObjSize : Z) : option Z :=
  if seL4_NonArchObjectTypeCount <=? t then Arch_getObjectSize t
  else if t =? seL4_TCBObject then Some TCB_BLOCK_SIZE_BITS
  else if t =? seL4_EndpointObject then Some EP_SIZE_BITS
  else if t =? seL4_AsyncEndpointObject then Some AEP_SIZE_BITS
  else if t =? seL4_CapTableObject then Some (w32 (CTE_SIZE_BITS + userObjSize))
  else if t =? seL4_UntypedObject then Some userObjSize
  else None.

Definition alignUp (baseValue alignment : Z) : Z :=
  Z.land (w32 (baseValue + (BIT alignment - 1))) (wnot (MASK alignment)).

(** ** Types of memory *)
Definition in_region (base size p : Z) : bool := (base <=? p) && (p <? base + size).
Definition clear_types {A} (base size : Z) (h : gmap Z A) : gmap Z A :=
  filter (λ '(p, _), in_region base size p = false) h.
(** [typ_clear_region base bits]: no object lives in the region any more. *)
Definition typ_clear_region (base bits : Z) : K unit :=
  let n := 2 ^ bits in
  modify (λ s, upd_ks_pte (clear_types base n (ks_pte s))
    (upd_ks_pde (clear_types base n (ks_pde s))
    (upd_ks_aep (clear_types base n (ks_aep s))
    (upd_ks_ep (clear_types base n (ks_ep s))
    (upd_ks_tcb (clear_types base n (ks_tcb s))
    (upd_ks_cte (clear_types base n (ks_cte s)) s)))))).

(** [ptr_retyps n p]: [n] consecutive objects of [sz] bytes, all equal to [a]. *)
Definition retyps {A} (p n sz : Z) (a : A) (h : gmap Z A) : gmap Z A :=
  foldr (λ i, <[w32 (p + sz * i) := a]>) h (upto n).
Definition new_ctes (p n : Z) : K unit :=
  modify (λ s, upd_ks_cte (retyps p n 16 null_cte (ks_cte s)) s).

Section Untyped.
Context {cfg : KernelConfig}.

(** ** Creating one object *)
Definition create_frame (base bits size : Z) (deviceMemory : bool) : K cap_t :=
  kwhen (negb deviceMemory)
    (memzero_user base (2 ^ bits) ;;;
     machine (op_cleanCacheRange_PoU base (w32 (base + BIT bits - 1)) (addrFromPPtr base))) ;;;
  kret (cap_frame_cap_new 0 0 size VMReadWrite 0 base).

Definition Arch_createObject (t base userSize : Z) (deviceMemory : bool) : K cap_t :=
  if t =? seL4_ARM_SmallPageObject then
    create_frame base ARMSmallPageBits ARMSmallPage deviceMemory
  else if t =? seL4_ARM_LargePageObject then
    create_frame base ARMLargePageBits ARMLargePage deviceMemory
  else if t =? seL4_ARM_SectionObject then
    create_frame base ARMSectionBits ARMSection deviceMemory
  else if t =? seL4_ARM_SuperSectionObject then
    create_frame base ARMSuperSectionBits ARMSuperSection deviceMemory
  else if t =? seL4_ARM_PageTableObject then
    memzero_user base (2 ^ PT_SIZE_BITS) ;;;
    modify (λ s, upd_ks_pte (retyps base (2 ^ PT_BITS) 4 pte_zero (ks_pte s)) s) ;;;
    machine (op_cleanCacheRange_PoU base (w32 (base + BIT PT_SIZE_BITS - 1)) (addrFromPPtr base)) ;;;
    kret (cap_page_table_cap_new 0 0 base)
  else if t =? seL4_ARM_PageDirectoryObject then
    memzero_user base (2 ^ PD_SIZE_BITS) ;;;
    modify (λ s, upd_ks_pde (retyps base (2 ^ PD_BITS) 4 pde_zero (ks_pde s)) s) ;;;
    copyGlobalMappings base ;;;
    machine (op_cleanCacheRange_PoU base (w32 (base + BIT PD_SIZE_BITS - 1)) (addrFromPPtr base)) ;;;
    kret (cap_page_directory_cap_new base)
  else kfail.

Definition createObject (t regionBase userSize : Z) (deviceMemory : bool) : K cap_t :=
  if seL4_NonArchObjectTypeCount <=? t then Arch_createObject t regionBase userSize deviceMemory
  else if t =? seL4_TCBObject then
    memzero_user regionBase (2 ^ TCB_BLOCK_SIZE_BITS) ;;;
    let tptr := w32 (regionBase + TCB_OFFSET) in
    new_ctes regionBase tcbCNodeEntries ;;;
    let! dom := gets ksCurDomain in
    modify (λ s, upd_ks_tcb (<[tptr := fresh_tcb dom]> (ks_tcb s)) s) ;;;
    kret (cap_thread_cap_new tptr)
  else if t =? seL4_EndpointObject then
    memzero_user regionBase (2 ^ EP_SIZE_BITS) ;;;
    modify (λ s, upd_ks_ep (<[regionBase := endpoint 0 0 EPState_Idle]> (ks_ep s)) s) ;;;
    kret (cap_endpoint_cap_new 0 true true true regionBase)
  else if t =? seL4_AsyncEndpointObject then
    memzero_user regionBase (2 ^ AEP_SIZE_BITS) ;;;
    modify (λ s, upd_ks_aep (<[regionBase := async_endpoint 0 0 0 0 AEPState_Idle]> (ks_aep s)) s) ;;;
    kret (cap_async_endpoint_cap_new 0 true true regionBase)
  else if t =? seL4_CapTableObject then
    memzero_user regionBase (2 ^ (CTE_SIZE_BITS + userSize)) ;;;
    new_ctes regionBase (2 ^ userSize) ;;;
    kret (cap_cnode_cap_new userSize 0 0 regionBase)
  else if t =? seL4_UntypedObject then
    kret (cap_untyped_cap_new deviceMemory userSize regionBase)
  else kfail.

(** [destSlots] is the CNode, the first index and the number of slots. *)
Definition createNewObjects (t parent cnode offset len regionBase userSize : Z)
    (deviceMemory : bool) : K unit :=
  let! objectSize := kopt (getObjectSize t userSize) in
  kfor (upto len) (λ i,
    let area := w32 (regionBase + Z.shiftl i objectSize) in
    typ_clear_region area objectSize ;;;
    let! cap := createObject t area userSize deviceMemory in
    insertNewCap parent (CTE_AT cnode (offset + i)) cap).

Definition invokeUntyped_Retype (srcSlot regionBase freeRegionBase newType userSize
    cnode offset len : Z) (call deviceMemory : bool) : K exception_t :=
  let! c := getCap srcSlot in
  let! size_ign := kopt (match c with cap_untyped_cap _ bits _ => Some bits | _ => None end) in
  kwhen (freeRegionBase =? regionBase) (typ_clear_region regionBase size_ign) ;;;
  createNewObjects newType srcSlot cnode offset len freeRegionBase userSize deviceMemory ;;;
  kret EXCEPTION_NONE.

(** ** Decoding *)
Definition PPTR_TOP : Z := 0xfff00000.
Definition PADDR_TOP : Z := PPTR_TOP - BASE_OFFSET.
Definition inKernelWindow (pptr : Z) : bool :=
  let paddr := addrFromPPtr pptr in (physBase <=? paddr) && (paddr <? PADDR_TOP).

Fixpoint ensure_empty_slots (n : nat) (cnode i : Z) : K exception_t :=
  match n with
  | O => kret EXCEPTION_NONE
  | S n =>
      let! status := ensureEmptySlot (CTE_AT cnode i) in
      match status with
      | EXCEPTION_NONE => ensure_empty_slots n cnode (i + 1)
      | _ => kret status
      end
  end.

(** From the destination CNode on. *)
Definition retype_into (slot : Z) (cap nodeCap : cap_t) (newType freeIndex userObjSize
    nodeDepth nodeOffset nodeWindow : Z) (call : bool) : K exception_t :=
  match cap, nodeCap with
  | cap_untyped_cap dev blockSize ptr, cap_cnode_cap radix _ _ cnode =>
      let nodeSize := BIT radix in
      if nodeSize - 1 <? nodeOffset then range_error 0 (nodeSize - 1)
      else if (nodeWindow <? 1) || (CONFIG_RETYPE_FAN_OUT_LIMIT <? nodeWindow) then
        range_error 1 CONFIG_RETYPE_FAN_OUT_LIMIT
      else if nodeSize - nodeOffset <? nodeWindow then range_error 1 (nodeSize - nodeOffset)
      else
        let! status := ensure_empty_slots (Z.to_nat nodeWindow) cnode nodeOffset in
        match status with
        | EXCEPTION_NONE =>
            let! objectSize := kopt (getObjectSize newType userObjSize) in
            let alignedFreeIndex := alignUp freeIndex objectSize in
            let freeRef := w32 (ptr + alignedFreeIndex) in
            let untypedSize := BIT blockSize in
            if (wordBits <=? objectSize) ||
               (untypedSize <? w32 (alignedFreeIndex + BIT objectSize)) then
              error_type seL4_NotEnoughMemory ;;;
              error_memory untypedSize ;;;
              kret EXCEPTION_SYSCALL_ERROR
            else
              let! child :=
                if negb (newType =? seL4_UntypedObject) && negb dev then
                  cdtFindTypedInRange freeRef (w32 (nodeWindow * objectSize))
                else kret 0 in
              if negb (child =? 0) then fail_syscall seL4_RevokeFirst
              else if (dev && negb (Arch_isFrameType newType)) &&
                      negb (newType =? seL4_UntypedObject) then invalid_arg 1
              else
                restart_current ;;;
                invokeUntyped_Retype slot ptr freeRef newType userObjSize cnode
                  nodeOffset nodeWindow call dev
        | _ => kret status
        end
  | _, _ =>
      error_type seL4_FailedLookup ;;;
      error_source false ;;;
      set_lookup_fault (lookup_fault_missing_capability_new nodeDepth) ;;;
      kret EXCEPTION_SYSCALL_ERROR
  end.

Definition decodeUntypedInvocation (label length slot : Z) (cap : cap_t) (extraCaps : list Z)
    (call : bool) (buffer : Z) : K exception_t :=
  if negb (label =? UntypedRetype) then fail_syscall seL4_IllegalOperation
  else if (length <? 7) || no_excap extraCaps 0 then fail_syscall seL4_TruncatedMessage
  else
    let! newType := getSyscallArg 0 buffer in
    let! freeIndex := getSyscallArg 1 buffer in
    let! userObjSize := getSyscallArg 2 buffer in
    let! nodeIndex := getSyscallArg 3 buffer in
    let! nodeDepth := getSyscallArg 4 buffer in
    let! nodeOffset := getSyscallArg 5 buffer in
    let! nodeWindow := getSyscallArg 6 buffer in
    let! ptr := kopt (match cap with cap_untyped_cap _ _ ptr => Some ptr | _ => None end) in
    if negb (inKernelWindow ptr || Arch_isFrameType newType || (newType =? seL4_UntypedObject))
    then invalid_arg 0
    else if seL4_ObjectTypeCount <=? newType then invalid_arg 0
    else if wordBits - 1 <=? userObjSize then range_error 0 (wordBits - 2)
    else if (newType =? seL4_CapTableObject) && (userObjSize =? 0) then invalid_arg 1
    else if (newType =? seL4_UntypedObject) && (userObjSize <? 4) then invalid_arg 1
    else
      let! rootCap := getCap (excap extraCaps 0) in
      if nodeDepth =? 0 then
        retype_into slot cap rootCap newType freeIndex userObjSize nodeDepth nodeOffset
          nodeWindow call
      else
        let! ' (status, lu_slot) := lookupTargetSlot rootCap nodeIndex nodeDepth in
        match status with
        | EXCEPTION_NONE =>
            let! nodeCap := getCap lu_slot in
            retype_into slot cap nodeCap newType freeIndex userObjSize nodeDepth nodeOffset
              nodeWindow call
        | _ => kret status
        end.
End Untyped.
