(* ===== verification/Boot.v ===== *)
(** * Start-up of the kernel

    Models [src/kernel/boot.c] (free memory, the objects and capabilities of the
    initial thread, untyped memory), [src/arch/arm/kernel/boot.c] and the boot
    part of [src/arch/arm/kernel/vspace.c] (the kernel's window).  The state is
    the kernel's together with [ndks_boot]; the boot information frame is a
    record, since nothing else is kept in its page.  Clearing memory creates the
    objects of the type that the code then takes it for. *)

From S2P Require Import Prelude.
From S2P Require Import Word32.
From S2P Require Import Structures.
From S2P Require Import State.
From S2P Require Import Cdt.
From S2P Require Import VSpace.
From S2P Require Import Sched.
From S2P Require Import CSpace.
From S2P Require Import Finalise.
From S2P Require Import Ipc.
From S2P Require Import Untyped.

(** What the build fixes: options, the platform's regions, linker addresses. *)
Class BootConfig : Type := {
  CONFIG_ROOT_CNODE_SIZE_BITS : Z;
  CONFIG_MAX_NUM_BOOTINFO_UNTYPED_CAPS : Z;
  avail_p_regs : list (Z * Z);
  dev_p_regs : list (Z * Z);
  ki_boot_end : Z;
  ki_end : Z;
  arm_vector_table : Z;
  arm_kernel_stack : Z;
  idleThreadStart : Z;
  kernel_devices : list (Z * Z);
  KERNEL_TIMER_IRQ : Z
}.

(** ** Data *)
Record region_t : Type := Region { reg_start : Z; reg_end : Z }.
Definition REG_EMPTY : region_t := Region 0 0.
Record slot_region_t : Type := SlotRegion { sr_start : Z; sr_end : Z }.
Definition S_REG_EMPTY : slot_region_t := SlotRegion 0 0.

(** The field [ui_pd_caps] is never written and stays zero. *)
Record bi_t : Type := BootInfo {
  node_id : Z;
  num_nodes : Z;
  num_iopt_levels : Z;
  bi_ipcbuf_vptr : Z;
  null_caps : slot_region_t;
  sh_frame_caps : slot_region_t;
  ui_frame_caps : slot_region_t;
  ui_pt_caps : slot_region_t;
  ut_obj_caps : slot_region_t;
  ut_device_obj_caps : slot_region_t;
  ut_obj_paddr_list : gmap Z Z;
  ut_obj_size_bits_list : gmap Z Z;
  it_cnode_size_bits : Z;
  it_domain : Z
}.

Record boot_state : Type := BootState {
  bs_k : kstate;
  freemem : list region_t;
  bi_frame : Z;
  bs_bi : bi_t;
  slot_pos_cur : Z;
  slot_pos_max : Z
}.
Definition B (A : Type) : Type := M boot_state A.

Definition upd_bs_k (k : kstate) (s : boot_state) : boot_state :=
  BootState k (freemem s) (bi_frame s) (bs_bi s) (slot_pos_cur s) (slot_pos_max s).
Definition upd_freemem (f : list region_t) (s : boot_state) : boot_state :=
  BootState (bs_k s) f (bi_frame s) (bs_bi s) (slot_pos_cur s) (slot_pos_max s).
Definition upd_bs_bi (b : bi_t) (s : boot_state) : boot_state :=
  BootState (bs_k s) (freemem s) (bi_frame s) b (slot_pos_cur s) (slot_pos_max s).
Definition upd_bi_frame (p : Z) (s : boot_state) : boot_state :=
  BootState (bs_k s) (freemem s) p (bs_bi s) (slot_pos_cur s) (slot_pos_max s).
Definition upd_slot_pos_cur (p : Z) (s : boot_state) : boot_state :=
  BootState (bs_k s) (freemem s) (bi_frame s) (bs_bi s) p (slot_pos_max s).
Definition upd_slot_pos_max (p : Z) (s : boot_state) : boot_state :=
  BootState (bs_k s) (freemem s) (bi_frame s) (bs_bi s) (slot_pos_cur s) p.

(** A step of the kernel proper. *)
Definition kernel {A} (m : K A) : B A := λ s,
  match m (bs_k s) with
  | Ok a k => Ok a (upd_bs_k k s)
  | Panic => Panic
  | NoFuel => NoFuel
  end.
Definition upd_bi (f : bi_t → bi_t) : B unit := modify (λ s, upd_bs_bi (f (bs_bi s)) s).

Definition zero_bi : bi_t :=
  BootInfo 0 0 0 0 S_REG_EMPTY S_REG_EMPTY S_REG_EMPTY S_REG_EMPTY S_REG_EMPTY S_REG_EMPTY ∅ ∅ 0 0.
Definition set_null_caps (r : slot_region_t) (b : bi_t) : bi_t :=
  BootInfo (node_id b) (num_nodes b) (num_iopt_levels b) (bi_ipcbuf_vptr b) r (sh_frame_caps b)
    (ui_frame_caps b) (ui_pt_caps b) (ut_obj_caps b) (ut_device_obj_caps b)
    (ut_obj_paddr_list b) (ut_obj_size_bits_list b) (it_cnode_size_bits b) (it_domain b).
Definition set_sh_frame_caps (r : slot_region_t) (b : bi_t) : bi_t :=
  BootInfo (node_id b) (num_nodes b) (num_iopt_levels b) (bi_ipcbuf_vptr b) (null_caps b) r
    (ui_frame_caps b) (ui_pt_caps b) (ut_obj_caps b) (ut_device_obj_caps b)
    (ut_obj_paddr_list b) (ut_obj_size_bits_list b) (it_cnode_size_bits b) (it_domain b).
Definition set_ui_frame_caps (r : slot_region_t) (b : bi_t) : bi_t :=
  BootInfo (node_id b) (num_nodes b) (num_iopt_levels b) (bi_ipcbuf_vptr b) (null_caps b)
    (sh_frame_caps b) r (ui_pt_caps b) (ut_obj_caps b) (ut_device_obj_caps b)
    (ut_obj_paddr_list b) (ut_obj_size_bits_list b) (it_cnode_size_bits b) (it_domain b).
Definition set_ui_pt_caps (r : slot_region_t) (b : bi_t) : bi_t :=
  BootInfo (node_id b) (num_nodes b) (num_iopt_levels b) (bi_ipcbuf_vptr b) (null_caps b)
    (sh_frame_caps b) (ui_frame_caps b) r (ut_obj_caps b) (ut_device_obj_caps b)
    (ut_obj_paddr_list b) (ut_obj_size_bits_list b) (it_cnode_size_bits b) (it_domain b).
Definition set_ut_obj_caps (r : slot_region_t) (b : bi_t) : bi_t :=
  BootInfo (node_id b) (num_nodes b) (num_iopt_levels b) (bi_ipcbuf_vptr b) (null_caps b)
    (sh_frame_caps b) (ui_frame_caps b) (ui_pt_caps b) r (ut_device_obj_caps b)
    (ut_obj_paddr_list b) (ut_obj_size_bits_list b) (it_cnode_size_bits b) (it_domain b).
Definition set_ut_device_obj_caps (r : slot_region_t) (b : bi_t) : bi_t :=
  BootInfo (node_id b) (num_nodes b) (num_iopt_levels b) (bi_ipcbuf_vptr b) (null_caps b)
    (sh_frame_caps b) (ui_frame_caps b) (ui_pt_caps b) (ut_obj_caps b) r
    (ut_obj_paddr_list b) (ut_obj_size_bits_list b) (it_cnode_size_bits b) (it_domain b).
Definition set_ut_obj (i paddr size_bits : Z) (b : bi_t) : bi_t :=
  BootInfo (node_id b) (num_nodes b) (num_iopt_levels b) (bi_ipcbuf_vptr b) (null_caps b)
    (sh_frame_caps b) (ui_frame_caps b) (ui_pt_caps b) (ut_obj_caps b) (ut_device_obj_caps b)
    (<[i := paddr]> (ut_obj_paddr_list b)) (<[i := size_bits mod 256]> (ut_obj_size_bits_list b))
    (it_cnode_size_bits b) (it_domain b).

Definition MAX_NUM_FREEMEM_REG : Z := 2.
Definition PAGE_BITS : Z := 12.
Definition BI_FRAME_SIZE_BITS : Z := PAGE_BITS.
Definition BI_CAP_IT_TCB : Z := 1.
Definition BI_CAP_IT_CNODE : Z := 2.
Definition BI_CAP_IT_VSPACE : Z := 3.
Definition BI_CAP_IRQ_CTRL : Z := 4.
Definition BI_CAP_BI_FRAME : Z := 7.
Definition BI_CAP_IT_IPCBUF : Z := 9.
Definition BI_CAP_DOM : Z := 11.
Definition BI_CAP_DYN_START : Z := 12.

(** ** Free memory *)
Definition is_reg_empty (r : region_t) : bool := reg_start r =? reg_end r.
Definition reg_size (r : region_t) : Z := w32 (reg_end r - reg_start r).

(** The first empty place of the table takes the region. *)
Fixpoint insert_free (reg : region_t) (l : list region_t) : option (list region_t) :=
  match l with
  | [] => None
  | r :: l => if is_reg_empty r then Some (reg :: l) else cons r <$> insert_free reg l
  end.
Definition insert_region (reg : region_t) : B bool :=
  kassert (reg_start reg <=? reg_end reg) ;;;
  if is_reg_empty reg then kret true
  else
    let! l := gets freemem in
    match insert_free reg l with
    | Some l' => modify (upd_freemem l') ;;; kret true
    | None => kret false
    end.

(** A block of [2^size_bits] bytes at one end of the region, the end that
    leaves the smaller gap. *)
Definition place_block (size_bits : Z) (f : region_t) : region_t :=
  if w32 (ROUND_UP (reg_start f) size_bits - reg_start f) <?
     w32 (reg_end f - ROUND_DOWN (reg_end f) size_bits) then
    Region (ROUND_UP (reg_start f) size_bits) (w32 (ROUND_UP (reg_start f) size_bits + BIT size_bits))
  else
    Region (w32 (ROUND_DOWN (reg_end f) size_bits - BIT size_bits)) (ROUND_DOWN (reg_end f) size_bits).

(** The parts of [f] that the block leaves, the smaller one first. *)
Definition remainders (f block : region_t) : region_t * region_t :=
  let before := Region (reg_start f) (reg_start block) in
  let after := Region (reg_end block) (reg_end f) in
  if w32 (reg_start block - reg_start f) <? w32 (reg_end f - reg_end block)
  then (before, after) else (after, before).

(** The search: the choice so far (its block, its remainders, its index). *)
Record choice : Type := Choice { ch_reg : region_t; ch_small : region_t; ch_large : region_t; ch_index : Z }.
Definition no_choice : choice := Choice REG_EMPTY REG_EMPTY REG_EMPTY 0.
Definition consider (size_bits i : Z) (f : region_t) (c : choice) : choice :=
  let new_reg := place_block size_bits f in
  if (reg_start new_reg <? reg_end new_reg) && (reg_start f <=? reg_start new_reg) &&
     (reg_end new_reg <=? reg_end f) then
    let '(new_rem_small, new_rem_large) := remainders f new_reg in
    if is_reg_empty (ch_reg c) || (reg_size new_rem_small <? reg_size (ch_small c)) ||
       ((reg_size new_rem_small =? reg_size (ch_small c)) && (reg_size new_rem_large <? reg_size (ch_large c)))
    then Choice new_reg new_rem_small new_rem_large i else c
  else c.
Fixpoint best_fit (size_bits i : Z) (l : list region_t) (c : choice) : choice :=
  match l with
  | [] => c
  | f :: l => best_fit size_bits (i + 1) l (consider size_bits i f c)
  end.

Definition alloc_region (size_bits : Z) : B Z :=
  let! l := gets freemem in
  let c := best_fit size_bits 0 l no_choice in
  if is_reg_empty (ch_reg c) then kret 0
  else
    modify (upd_freemem (<[Z.to_nat (ch_index c) := REG_EMPTY]> l)) ;;;
    insert_region (ch_large c) ;;;
    insert_region (ch_small c) ;;;
    kret (reg_start (ch_reg c)).

(** [mem_reg] without [reserved_reg]: the part below goes to the free memory,
    the part above is returned. *)
Definition insert_region_excluded (mem_reg reserved_reg : region_t) : B region_t :=
  let '(mem_reg, residual_reg) :=
    if reg_start reserved_reg <? reg_start mem_reg then
      (REG_EMPTY,
       if reg_start mem_reg <? reg_end reserved_reg
       then Region (reg_end reserved_reg) (reg_end mem_reg) else mem_reg)
    else if reg_start reserved_reg <? reg_end mem_reg then
      (Region (reg_start mem_reg) (reg_start reserved_reg),
       Region (reg_end reserved_reg) (reg_end mem_reg))
    else (mem_reg, REG_EMPTY) in
  (if reg_start mem_reg <? reg_end mem_reg
   then let! result := insert_region mem_reg in kassert result else kret tt) ;;;
  kret (if reg_end residual_reg <? reg_start residual_reg
        then Region (reg_end residual_reg) (reg_end residual_reg) else residual_reg).

Definition paddr_to_pptr_reg (r : Z * Z) : region_t :=
  Region (ptrFromPAddr r.1) (ptrFromPAddr r.2).

Section Boot.
Context {cfg : KernelConfig} {bc : BootConfig}.

Definition reserved_regs (ui_reg : region_t) : list region_t :=
  [Region kernelBase ki_end; ui_reg;
   Region (w32 (Z.shiftl PD_ASID_SLOT ARMSectionBits)) (w32 (Z.shiftl (PD_ASID_SLOT + 1) ARMSectionBits))].

(** A region of memory inside the kernel's window. *)
Definition clip_region (r : region_t) : region_t :=
  Region (if PADDR_TOP <? addrFromPPtr (reg_start r) then PPTR_TOP else reg_start r)
         (if PADDR_TOP <? addrFromPPtr (reg_end r) then PPTR_TOP else reg_end r).

Fixpoint insert_around (cur_reg : region_t) (reserved : list region_t) : B unit :=
  match reserved with
  | [] =>
      if is_reg_empty cur_reg then kret tt
      else let! result := insert_region cur_reg in kassert result
  | r :: rest => let! cur_reg := insert_region_excluded cur_reg r in insert_around cur_reg rest
  end.

Definition init_freemem (ui_reg : region_t) : B unit :=
  modify (upd_freemem (repeat REG_EMPTY (Z.to_nat MAX_NUM_FREEMEM_REG))) ;;;
  match reserved_regs ui_reg with
  | [r0; r1; r2] =>
      kassert ((reg_start r0 <? reg_end r0) && (reg_start r1 <? reg_end r1) && (reg_start r2 <? reg_end r2) &&
               (reg_end r0 <=? reg_start r1) && (reg_end r1 <=? reg_start r2))
  | _ => kret tt
  end ;;;
  kfor avail_p_regs (λ r, insert_around (clip_region (paddr_to_pptr_reg r)) (reserved_regs ui_reg)).

(** ** The first objects and capabilities *)
Definition SLOT_PTR (pptr pos : Z) : Z := CTE_AT pptr pos.
(** [NULL] for the null capability. *)
Definition pptr_of_cap (cap : cap_t) : Z := default 0 (cap_get_capPtr cap).

Definition write_slot (slot_ptr : Z) (cap : cap_t) : B unit :=
  kernel (setCap slot_ptr cap ;;; cdtInsert 0 slot_ptr).

Definition create_root_cnode : B cap_t :=
  modify (upd_slot_pos_max (BIT CONFIG_ROOT_CNODE_SIZE_BITS)) ;;;
  let! pptr := alloc_region (CONFIG_ROOT_CNODE_SIZE_BITS + CTE_SIZE_BITS) in
  if pptr =? 0 then kret cap_null_cap_new
  else
    kernel (memzero_user pptr (BIT (CONFIG_ROOT_CNODE_SIZE_BITS + CTE_SIZE_BITS)) ;;;
            new_ctes pptr (2 ^ CONFIG_ROOT_CNODE_SIZE_BITS)) ;;;
    let cap := cap_cnode_cap_new CONFIG_ROOT_CNODE_SIZE_BITS (32 - CONFIG_ROOT_CNODE_SIZE_BITS) 0 pptr in
    write_slot (SLOT_PTR pptr BI_CAP_IT_CNODE) cap ;;;
    kret cap.

Definition create_irq_cnode : B bool :=
  let! pptr := alloc_region PAGE_BITS in
  if pptr =? 0 then kret false
  else
    kernel (memzero_user pptr (BIT PAGE_BITS) ;;;
            new_ctes pptr (2 ^ (PAGE_BITS - CTE_SIZE_BITS)) ;;;
            modify (upd_intStateIRQNode pptr)) ;;;
    kret true.

Definition create_domain_cap (root_cnode_cap : cap_t) : B unit :=
  kassert (0 <? Z.of_nat (List.length ksDomSchedule)) ;;;
  kfor ksDomSchedule (λ d, kassert (d.1 <? CONFIG_NUM_DOMAINS) ;;; kassert (0 <? d.2)) ;;;
  write_slot (SLOT_PTR (pptr_of_cap root_cnode_cap) BI_CAP_DOM) cap_domain_cap_new.

Definition init_irqs (root_cnode_cap : cap_t) : B unit :=
  kernel (kfor (upto (maxIRQ + 1)) (λ i, setIRQState IRQInactive i) ;;;
          setIRQState IRQTimer KERNEL_TIMER_IRQ) ;;;
  write_slot (SLOT_PTR (pptr_of_cap root_cnode_cap) BI_CAP_IRQ_CTRL) cap_irq_control_cap_new.

(** The domain of the current entry of the schedule. *)
Definition dom_entry : B (Z * Z) :=
  let! i := gets (λ s, ksDomScheduleIdx (bs_k s)) in kopt (znth ksDomSchedule i).

Definition allocate_bi_frame (node num : Z) (ipcbuf_vptr : Z) : B Z :=
  let! pptr := alloc_region BI_FRAME_SIZE_BITS in
  if pptr =? 0 then kret 0
  else
    kernel (clearMemory pptr PAGE_BITS) ;;;
    modify (upd_bi_frame pptr) ;;;
    modify (upd_slot_pos_cur BI_CAP_DYN_START) ;;;
    let! d := dom_entry in
    upd_bi (λ _, BootInfo node num 0 ipcbuf_vptr S_REG_EMPTY S_REG_EMPTY S_REG_EMPTY S_REG_EMPTY S_REG_EMPTY
      S_REG_EMPTY ∅ ∅ CONFIG_ROOT_CNODE_SIZE_BITS d.1) ;;;
    kret pptr.

Definition provide_cap (root_cnode_cap cap : cap_t) : B bool :=
  let! cur := gets slot_pos_cur in
  let! max := gets slot_pos_max in
  if max <=? cur then kret false
  else
    write_slot (SLOT_PTR (pptr_of_cap root_cnode_cap) cur) cap ;;;
    modify (upd_slot_pos_cur (w32 (cur + 1))) ;;;
    kret true.

(** ** The kernel's window *)
Definition map_it_pt_cap (pt_cap : cap_t) : K unit :=
  match pt_cap with
  | cap_page_table_cap pd index pt => setPDE (PDE_AT pd index) (pde_pde_coarse_new (addrFromPPtr pt) 1 0)
  | _ => kfail
  end.

Definition map_it_frame_cap (frame_cap : cap_t) : K unit :=
  match frame_cap with
  | cap_frame_cap _ index _ _ _ frame =>
      let! ap := kopt (APFromVMRights VMReadWrite) in
      setPTE (PTE_AT (cap_frame_cap_get_capFMappedObject frame_cap) index)
        (pte_pte_small_new (addrFromPPtr frame) 1 0 0 0 ap 1 1 0)
  | _ => kfail
  end.

Definition map_kernel_frame (paddr vaddr vm_rights : Z) (cacheable : bool) : K unit :=
  let idx := Z.shiftr (Z.land vaddr (MASK ARMSectionBits)) ARMSmallPageBits in
  kassert (PPTR_TOP <=? vaddr) ;;;
  let! ap := kopt (APFromVMRights vm_rights) in
  setPTE (PTE_AT armKSGlobalPT idx) (pte_pte_small_new paddr 0 0 0 0 ap (b2z cacheable) 1 0).

Definition PPTR_VECTOR_TABLE : Z := 0xffff0000.
Definition PPTR_GLOBALS_PAGE : Z := 0xffffc000.
Definition PPTR_KERNEL_STACK : Z := 0xfffff000.

Definition map_kernel_devices : K unit :=
  kfor kernel_devices (λ d, map_kernel_frame d.1 d.2 VMKernelOnly false).

(** Frames of 16 megabytes up to the last 16, then of one up to the last. *)
Definition window_section (size phys : Z) : pde_t :=
  pde_pde_section_new phys size 0 0 0 0 1 1 0 0 1 1.
Fixpoint map_supersections (n : nat) (phys idx : Z) : K (Z * Z) :=
  match n with
  | O => kret (phys, idx)
  | S n =>
      kfor (upto SECTIONS_PER_SUPER_SECTION)
        (λ i, setPDE (PDE_AT armKSGlobalPD (idx + i)) (window_section 1 phys)) ;;;
      map_supersections n (w32 (phys + BIT ARMSuperSectionBits)) (idx + SECTIONS_PER_SUPER_SECTION)
  end.
Fixpoint map_sections (n : nat) (phys idx : Z) : K (Z * Z) :=
  match n with
  | O => kret (phys, idx)
  | S n =>
      setPDE (PDE_AT armKSGlobalPD idx) (window_section 0 phys) ;;;
      map_sections n (w32 (phys + BIT ARMSectionBits)) (idx + 1)
  end.

Definition map_kernel_window : K unit :=
  let idx := Z.shiftr kernelBase ARMSectionBits in
  let last := BIT PD_BITS - SECTIONS_PER_SUPER_SECTION in
  let! r := map_supersections (Z.to_nat ((last - idx + 15) / SECTIONS_PER_SUPER_SECTION)) physBase idx in
  let! r := map_sections (Z.to_nat (BIT PD_BITS - 1 - r.2)) r.1 r.2 in
  kassert (r.1 =? PADDR_TOP) ;;;
  setPDE (PDE_AT armKSGlobalPD r.2) (pde_pde_coarse_new (addrFromPPtr armKSGlobalPT) 1 0) ;;;
  kfor (upto (2 ^ PT_BITS)) (λ i, setPTE (PTE_AT armKSGlobalPT i) pte_zero) ;;;
  map_kernel_frame (addrFromPPtr arm_vector_table) PPTR_VECTOR_TABLE VMKernelOnly true ;;;
  let! globals := gets armKSGlobalsFrame in
  map_kernel_frame (addrFromPPtr globals) PPTR_GLOBALS_PAGE VMReadOnly true ;;;
  map_kernel_frame (addrFromPPtr arm_kernel_stack) PPTR_KERNEL_STACK VMKernelOnly true ;;;
  map_kernel_devices.

Definition activate_global_pd : K unit :=
  machine op_cleanInvalidateL1Caches ;;;
  machine (op_setCurrentPD (addrFromPPtr armKSGlobalPD)) ;;;
  machine op_invalidateTLB ;;;
  machine (op_lockTLBEntry kernelBase) ;;;
  machine (op_lockTLBEntry PPTR_VECTOR_TABLE).
Definition init_cpu : K unit := activate_global_pd.
Definition init_plat : K unit :=
  machine op_initIRQController ;;; machine op_initTimer ;;; machine op_initL2Cache.

(** ** The address space of the initial thread *)
Definition create_unmapped_it_frame_cap (pptr : Z) (use_large : bool) : cap_t :=
  cap_frame_cap_new 0 0 (if use_large then ARMSection else ARMSmallPage) VMReadWrite 0 pptr.

Definition create_mapped_it_frame_cap (pd_cap : cap_t) (pptr vptr : Z) (use_large : bool) : K cap_t :=
  match pd_cap with
  | cap_page_directory_cap pd =>
      let pd_index := Z.shiftr vptr ARMSectionBits in
      let! cap :=
        if use_large then
          kret (cap_frame_cap_new (FMAPPED_OBJECT_HIGH pd) pd_index ARMSection VMReadWrite
                  (FMAPPED_OBJECT_LOW pd) pptr)
        else
          let pt_index := Z.shiftr (Z.land vptr (MASK ARMSectionBits)) ARMSmallPageBits in
          let! pde := getPDE (PDE_AT pd pd_index) in
          match pde with
          | pde_pde_coarse address _ _ =>
              let pt := ptrFromPAddr address in
              kret (cap_frame_cap_new (FMAPPED_OBJECT_HIGH pt) pt_index ARMSmallPage VMReadWrite
                      (FMAPPED_OBJECT_LOW pt) pptr)
          | _ => kfail
          end in
      map_it_frame_cap cap ;;;
      kret cap
  | _ => kfail
  end.

Definition create_it_page_table_cap (pd : cap_t) (pptr vptr : Z) : K cap_t :=
  match pd with
  | cap_page_directory_cap pdptr =>
      let cap := cap_page_table_cap_new pdptr (Z.shiftr vptr ARMSectionBits) pptr in
      map_it_pt_cap cap ;;; kret cap
  | _ => kfail
  end.

(** [for (v = start; v < end; v += 2^bits)], until the body answers no. *)
Fixpoint blocks_loop (fuel : nat) (v end_ bits : Z) (body : Z → B bool) : B bool :=
  match fuel with
  | O => kdiverge
  | S fuel =>
      if v <? end_ then
        let! ok := body v in
        if ok then blocks_loop fuel (w32 (v + BIT bits)) end_ bits body else kret false
      else kret true
  end.
Definition blocks_fuel (start end_ bits : Z) : nat := S (Z.to_nat ((end_ - start) / 2 ^ bits + 1)).

Definition create_it_address_space (root_cnode_cap : cap_t) (it_v_reg : region_t) : B cap_t :=
  let! pd_pptr := alloc_region PD_SIZE_BITS in
  if pd_pptr =? 0 then kret cap_null_cap_new
  else
    kernel (memzero_user pd_pptr (BIT PD_SIZE_BITS) ;;;
            modify (λ s, upd_ks_pde (retyps pd_pptr (2 ^ PD_BITS) 4 pde_zero (ks_pde s)) s) ;;;
            copyGlobalMappings pd_pptr ;;;
            machine (op_cleanCacheRange_PoU pd_pptr (w32 (pd_pptr + BIT PD_SIZE_BITS - 1)) (addrFromPPtr pd_pptr))) ;;;
    let pd_cap := cap_page_directory_cap_new pd_pptr in
    write_slot (SLOT_PTR (pptr_of_cap root_cnode_cap) BI_CAP_IT_VSPACE) pd_cap ;;;
    let! slot_pos_before := gets slot_pos_cur in
    let bits := PT_BITS + PAGE_BITS in
    let start := ROUND_DOWN (reg_start it_v_reg) bits in
    let! done := blocks_loop (blocks_fuel start (reg_end it_v_reg) bits) start (reg_end it_v_reg) bits (λ pt_vptr,
      let! pt_pptr := alloc_region PT_SIZE_BITS in
      if pt_pptr =? 0 then kret false
      else
        kernel (memzero_user pt_pptr (BIT PT_SIZE_BITS) ;;;
                modify (λ s, upd_ks_pte (retyps pt_pptr (2 ^ PT_BITS) 4 pte_zero (ks_pte s)) s)) ;;;
        let! cap := kernel (create_it_page_table_cap pd_cap pt_pptr pt_vptr) in
        provide_cap root_cnode_cap cap) in
    if done then
      let! slot_pos_after := gets slot_pos_cur in
      upd_bi (set_ui_pt_caps (SlotRegion slot_pos_before slot_pos_after)) ;;;
      kret pd_cap
    else kret cap_null_cap_new.

Definition create_bi_frame_cap (root_cnode_cap pd_cap : cap_t) (pptr vptr : Z) : B unit :=
  let! cap := kernel (create_mapped_it_frame_cap pd_cap pptr vptr false) in
  write_slot (SLOT_PTR (pptr_of_cap root_cnode_cap) BI_CAP_BI_FRAME) cap.

Definition create_ipcbuf_frame (root_cnode_cap pd_cap : cap_t) (vptr : Z) : B cap_t :=
  let! pptr := alloc_region PAGE_BITS in
  if pptr =? 0 then kret cap_null_cap_new
  else
    kernel (clearMemory pptr PAGE_BITS) ;;;
    let! cap := kernel (create_mapped_it_frame_cap pd_cap pptr vptr false) in
    write_slot (SLOT_PTR (pptr_of_cap root_cnode_cap) BI_CAP_IT_IPCBUF) cap ;;;
    kret cap.

Definition create_frames_of_region (root_cnode_cap pd_cap : cap_t) (reg : region_t)
    (do_map : bool) (pv_offset : Z) : B (slot_region_t * bool) :=
  let! slot_pos_before := gets slot_pos_cur in
  let! done := blocks_loop (blocks_fuel (reg_start reg) (reg_end reg) PAGE_BITS)
      (reg_start reg) (reg_end reg) PAGE_BITS (λ f,
    let! frame_cap :=
      if do_map
      then kernel (create_mapped_it_frame_cap pd_cap f (w32 (f - BASE_OFFSET - pv_offset)) false)
      else kret (create_unmapped_it_frame_cap f false) in
    provide_cap root_cnode_cap frame_cap) in
  if done then
    let! slot_pos_after := gets slot_pos_cur in
    kret (SlotRegion slot_pos_before slot_pos_after, true)
  else kret (S_REG_EMPTY, false).

(** ** The first threads *)
Definition new_tcb (pptr : Z) : K unit :=
  memzero_user pptr (BIT TCB_BLOCK_SIZE_BITS) ;;;
  new_ctes pptr tcbCNodeEntries ;;;
  modify (λ s, upd_ks_tcb (<[w32 (pptr + TCB_OFFSET) := zero_tcb]> (ks_tcb s)) s).

Definition create_idle_thread : B bool :=
  let! pptr := alloc_region TCB_BLOCK_SIZE_BITS in
  if pptr =? 0 then kret false
  else
    let tcb := w32 (pptr + TCB_OFFSET) in
    kernel (new_tcb pptr ;;;
            modify (upd_ksIdleThread tcb) ;;;
            configureIdleThread idleThreadStart tcb) ;;;
    kret true.

Definition create_initial_thread (root_cnode_cap it_pd_cap : cap_t)
    (ui_v_entry bi_frame_vptr ipcbuf_vptr : Z) (ipcbuf_cap : cap_t) : B bool :=
  let! pptr := alloc_region TCB_BLOCK_SIZE_BITS in
  if pptr =? 0 then kret false
  else
    let root := pptr_of_cap root_cnode_cap in
    let tcb := w32 (pptr + TCB_OFFSET) in
    kernel (new_tcb pptr ;;;
            updTCB tcb (set_tcbTimeSlice CONFIG_TIME_SLICE) ;;;
            updTCB tcb (λ t, set_tcbContext (Arch_initContext (tcbContext t)) t)) ;;;
    let! dc_ret := kopt (deriveCap (SLOT_PTR root BI_CAP_IT_IPCBUF) ipcbuf_cap) in
    match dc_ret with
    | (EXCEPTION_NONE, cap) =>
        kernel (cteInsert root_cnode_cap (SLOT_PTR root BI_CAP_IT_CNODE) (SLOT_PTR pptr tcbCTable) ;;;
                cteInsert it_pd_cap (SLOT_PTR root BI_CAP_IT_VSPACE) (SLOT_PTR pptr tcbVTable) ;;;
                cteInsert cap (SLOT_PTR root BI_CAP_IT_IPCBUF) (SLOT_PTR pptr tcbBuffer) ;;;
                updTCB tcb (set_tcbIPCBuffer ipcbuf_vptr) ;;;
                setRegister tcb capRegister bi_frame_vptr ;;;
                setNextPC tcb ui_v_entry ;;;
                updTCB tcb (set_tcbPriority (CONFIG_NUM_PRIORITIES - 1)) ;;;
                setupReplyMaster tcb ;;;
                setThreadState tcb ThreadState_Running ;;;
                modify (upd_ksSchedulerAction SchedulerAction_ResumeCurrentThread) ;;;
                let! idle := gets ksIdleThread in
                modify (upd_ksCurThread idle)) ;;;
        let! d := dom_entry in
        kernel (modify (upd_ksCurDomain d.1) ;;;
                modify (upd_ksDomainTime d.2) ;;;
                kassert ((d.1 <? CONFIG_NUM_DOMAINS) && (0 <? d.2)) ;;;
                switchToThread tcb) ;;;
        write_slot (SLOT_PTR root BI_CAP_IT_TCB) (cap_thread_cap_new tcb) ;;;
        kret true
    | _ => kret false
    end.

(** ** Untyped memory *)

(** [__builtin_ctz] of a non-zero word. *)
Definition CTZ (x : Z) : Z := Z.log2 (Z.land x (- x)).
(** Both are undefined at zero. *)
Definition boot_clz (x : Z) : option Z := if x =? 0 then None else Some (CLZ x).
Definition boot_ctz (x : Z) : option Z := if x =? 0 then None else Some (CTZ x).

Definition provide_untyped_cap (root_cnode_cap : cap_t) (deviceMemory : bool)
    (pptr size_bits first_untyped_slot : Z) : B bool :=
  let! cur := gets slot_pos_cur in
  let i := w32 (cur - first_untyped_slot) in
  if i <? CONFIG_MAX_NUM_BOOTINFO_UNTYPED_CAPS then
    upd_bi (set_ut_obj i (addrFromPPtr pptr) size_bits) ;;;
    provide_cap root_cnode_cap (cap_untyped_cap_new deviceMemory size_bits pptr)
  else kret true.

(** The largest power of two that fits in the region and to which its start is
    aligned. *)
Definition untyped_bits (reg : region_t) : option Z :=
  let? clz := boot_clz (reg_size reg) in
  let? align_bits := boot_ctz (reg_start reg) in
  Some (Z.min (wordBits - 1 - clz) align_bits).

Fixpoint untypeds_loop (fuel : nat) (root_cnode_cap : cap_t) (deviceMemory : bool)
    (reg : region_t) (first_untyped_slot : Z) : B bool :=
  match fuel with
  | O => kdiverge
  | S fuel =>
      if is_reg_empty reg then kret true
      else
        let reg := if negb deviceMemory && (reg_start reg =? kernelBase)
                   then Region (w32 (reg_start reg + BIT PAGE_BITS)) (reg_end reg) else reg in
        let! size_bits := kopt (untyped_bits reg) in
        kassert (wordBits / 8 <=? size_bits) ;;;
        let! ok := provide_untyped_cap root_cnode_cap deviceMemory (reg_start reg) size_bits first_untyped_slot in
        if ok then
          untypeds_loop fuel root_cnode_cap deviceMemory
            (Region (w32 (reg_start reg + BIT size_bits)) (reg_end reg)) first_untyped_slot
        else kret false
  end.

(** Each block is either the last of its size on the way up or the largest on
    the way down: a region has at most two of each size. *)
Definition untypeds_fuel : nat := 66.
Definition create_untypeds_for_region (root_cnode_cap : cap_t) (deviceMemory : bool)
    (reg : region_t) (first_untyped_slot : Z) : B bool :=
  untypeds_loop untypeds_fuel root_cnode_cap deviceMemory reg first_untyped_slot.

(** [if (!step) return false] over a list. *)
Fixpoint all_steps {A} (l : list A) (step : A → B bool) : B bool :=
  match l with
  | [] => kret true
  | a :: l => let! ok := step a in if ok then all_steps l step else kret false
  end.

Definition create_untypeds (root_cnode_cap : cap_t) (boot_mem_reuse_reg : region_t) : B bool :=
  let! slot_pos_before := gets slot_pos_cur in
  let! ok := create_untypeds_for_region root_cnode_cap false boot_mem_reuse_reg slot_pos_before in
  if negb ok then kret false
  else
    let! ok := all_steps (upto MAX_NUM_FREEMEM_REG) (λ i,
      let! l := gets freemem in
      let! reg := kopt (znth l i) in
      modify (upd_freemem (<[Z.to_nat i := REG_EMPTY]> l)) ;;;
      create_untypeds_for_region root_cnode_cap false reg slot_pos_before) in
    if negb ok then kret false
    else
      let! slot_pos_after := gets slot_pos_cur in
      upd_bi (set_ut_obj_caps (SlotRegion slot_pos_before slot_pos_after)) ;;;
      kret true.

Definition create_device_untypeds (root_cnode_cap : cap_t) : B bool :=
  let! slot_pos_before := gets slot_pos_cur in
  let! ok := all_steps dev_p_regs (λ r,
    let! b := gets bs_bi in
    create_untypeds_for_region root_cnode_cap true (paddr_to_pptr_reg r) (sr_start (ut_obj_caps b))) in
  if negb ok then kret false
  else
    let! slot_pos_after := gets slot_pos_cur in
    upd_bi (set_ut_device_obj_caps (SlotRegion slot_pos_before slot_pos_after)) ;;;
    kret true.

Definition bi_finalise : B unit :=
  let! cur := gets slot_pos_cur in
  let! max := gets slot_pos_max in
  upd_bi (set_null_caps (SlotRegion cur max)).

(** ** The whole of it *)

(** [if (!step) return false;] in a sequence of steps. *)
Definition or_fail (b : bool) (rest : B bool) : B bool := if b then rest else kret false.

Definition try_init_kernel (ui_p_reg_start ui_p_reg_end pv_offset v_entry : Z) : B bool :=
  let ui_reg := paddr_to_pptr_reg (ui_p_reg_start, ui_p_reg_end) in
  let ui_v_reg := Region (w32 (ui_p_reg_start - pv_offset)) (w32 (ui_p_reg_end - pv_offset)) in
  let ipcbuf_vptr := reg_end ui_v_reg in
  let bi_frame_vptr := w32 (ipcbuf_vptr + BIT PAGE_BITS) in
  let it_v_reg := Region (reg_start ui_v_reg) (w32 (bi_frame_vptr + BIT PAGE_BITS)) in
  kernel (map_kernel_window ;;; init_cpu ;;; init_plat) ;;;
  init_freemem ui_reg ;;;
  let! root_cnode_cap := create_root_cnode in
  or_fail (negb (is_null root_cnode_cap)) (
  create_domain_cap root_cnode_cap ;;;
  let! ok := create_irq_cnode in
  or_fail ok (
  init_irqs root_cnode_cap ;;;
  let! bi_frame_pptr := allocate_bi_frame 0 1 ipcbuf_vptr in
  or_fail (negb (bi_frame_pptr =? 0)) (
  let! it_pd_cap := create_it_address_space root_cnode_cap it_v_reg in
  or_fail (negb (is_null it_pd_cap)) (
  create_bi_frame_cap root_cnode_cap it_pd_cap bi_frame_pptr bi_frame_vptr ;;;
  let! ipcbuf_cap := create_ipcbuf_frame root_cnode_cap it_pd_cap ipcbuf_vptr in
  or_fail (negb (is_null ipcbuf_cap)) (
  let! frames := create_frames_of_region root_cnode_cap it_pd_cap ui_reg true pv_offset in
  or_fail frames.2 (
  upd_bi (set_ui_frame_caps frames.1) ;;;
  let! ok := create_idle_thread in
  or_fail ok (
  kernel (machine op_cleanInvalidateL1Caches) ;;;
  let! ok := create_initial_thread root_cnode_cap it_pd_cap v_entry bi_frame_vptr ipcbuf_vptr ipcbuf_cap in
  or_fail ok (
  let! ok := create_untypeds root_cnode_cap (Region kernelBase ki_boot_end) in
  or_fail ok (
  let! ok := create_device_untypeds root_cnode_cap in
  or_fail ok (
  upd_bi (set_sh_frame_caps S_REG_EMPTY) ;;;
  bi_finalise ;;;
  kernel (machine op_cleanInvalidateL1Caches ;;; machine op_armv_init_user_access) ;;;
  kret true)))))))))).

Definition init_kernel (ui_p_reg_start ui_p_reg_end pv_offset v_entry : Z) : B unit :=
  let! result := try_init_kernel ui_p_reg_start ui_p_reg_end pv_offset v_entry in
  kassert result.
End Boot.

(** ** The KZM board *)
Definition UART_PADDR : Z := 0x43f90000.
Definition kzm_avail_p_regs : list (Z * Z) := [(0x80000000, 0x88000000)].
Definition kzm_dev_p_regs : list (Z * Z) :=
  [(0x43f80000, 0x43f81000); (0x43f84000, 0x43f85000); (0x43f88000, 0x43f89000);
   (0x43f8c000, 0x43f8d000); (UART_PADDR, UART_PADDR + 0x1000); (0x43f94000, 0x43f95000);
   (0x43f98000, 0x43f99000); (0x43f9c000, 0x43f9d000); (0x43fa0000, 0x43fa1000);
   (0x43fa4000, 0x43fa5000); (0x43fa8000, 0x43fa9000); (0x43fac000, 0x43fad000);
   (0x43fb0000, 0x43fb1000); (0x43fb4000, 0x43fb5000); (0x50004000, 0x50005000);
   (0x50008000, 0x50009000); (0x5000c000, 0x5000d000); (0x50010000, 0x50011000);
   (0x50014000, 0x50015000); (0x50018000, 0x50019000); (0x5001c000, 0x5001d000);
   (0x50020000, 0x50021000); (0x50024000, 0x50025000); (0x50028000, 0x50029000);
   (0x5003c000, 0x5003d000); (0x53f80000, 0x53f81000); (0x53f84000, 0x53f85000);
   (0x53f8c000, 0x53f8d000); (0x53f90000, 0x53f91000); (0x53f98000, 0x53f99000);
   (0x53fa4000, 0x53fa8000); (0x53fb0000, 0x53fb1000); (0x53fc4000, 0x53fc5000);
   (0x53fcc000, 0x53fd0000); (0x53fd0000, 0x53fd4000); (0x53fd8000, 0x53fd9000);
   (0x53fe0000, 0x53fe1000); (0x53fec000, 0x53fed000); (0xa0000000, 0xa4000000);
   (0xa8000000, 0xaa000000); (0xb4000000, 0xb6000000); (0xb6000000, 0xb8000000);
   (0xc0000000, 0xc2000000)].
Definition kzm_kernel_devices : list (Z * Z) :=
  [(0x53f94000, 0xfff00000); (0x68000000, 0xfff01000); (0x30000000, 0xfff02000); (UART_PADDR, 0xfff03000)].

(** Sizes of the options; the linker's addresses are those of a small image. *)
Definition kzm_boot : BootConfig := {|
  CONFIG_ROOT_CNODE_SIZE_BITS := 12;
  CONFIG_MAX_NUM_BOOTINFO_UNTYPED_CAPS := 800;
  avail_p_regs := kzm_avail_p_regs;
  dev_p_regs := kzm_dev_p_regs;
  ki_boot_end := 0xf0008000;
  ki_end := 0xf0030000;
  arm_vector_table := 0xf0009000;
  arm_kernel_stack := 0xf000a000;
  idleThreadStart := 0xf0008100;
  kernel_devices := kzm_kernel_devices;
  KERNEL_TIMER_IRQ := 28
|}.

(** The memory of the kernel's image before it starts: its page directory and
    page table are there, and everything is zero. *)
Definition start_kstate : kstate :=
  upd_ks_pte (retyps (armKSGlobalPT (KernelConfig := kzm_config)) 256 4 pte_zero ∅)
    (upd_ks_pde (retyps (armKSGlobalPD (KernelConfig := kzm_config)) 4096 4 pde_zero ∅)
      (upd_armKSGlobalsFrame 0xf000b000 empty_kstate)).
Definition start_state : boot_state := BootState start_kstate [REG_EMPTY; REG_EMPTY] 0 zero_bi 0 0.
