(* ===== verification/CNode.v ===== *)
(** * CNode invocations

    Models the first part of [src/object/cnode.c]: decoding and performing the
    operations on the slots of a capability space. *)

From S2P Require Import Prelude.
From S2P Require Import Word32.
From S2P Require Import Structures.
From S2P Require Import State.
From S2P Require Import CapOps.
From S2P Require Import Cdt.
From S2P Require Import CSpace.
From S2P Require Import Finalise.
From S2P Require Import Ipc.
From S2P Require Import Labels.

Section CNode.
Context {cfg : KernelConfig}.

(** ** Performing *)
Definition invokeCNodeRevoke (destSlot : Z) : K exception_t := cteRevoke destSlot.
Definition invokeCNodeDelete (destSlot : Z) : K exception_t := cteDelete destSlot true.
Definition invokeCNodeRecycle (destSlot : Z) : K exception_t := cteRecycle destSlot.
Definition invokeCNodeInsert (cap : cap_t) (srcSlot destSlot : Z) : K exception_t :=
  cteInsert cap srcSlot destSlot ;;; kret EXCEPTION_NONE.
Definition invokeCNodeMove (cap : cap_t) (srcSlot destSlot : Z) : K exception_t :=
  cteMove cap srcSlot destSlot ;;; kret EXCEPTION_NONE.
Definition invokeCNodeRotate (cap1 cap2 : cap_t) (slot1 slot2 slot3 : Z) : K exception_t :=
  (if slot1 =? slot3 then cdtSwap cap1 slot1 cap2 slot2
   else
     cteMove cap2 slot2 slot3 ;;;
     cteMove cap1 slot1 slot2) ;;;
  kret EXCEPTION_NONE.
Definition invokeCNodeSaveCaller (destSlot : Z) : K exception_t :=
  let! cur := gets ksCurThread in
  let srcSlot := TCB_PTR_CTE_PTR cur tcbCaller in
  let! cap := getCap srcSlot in
  match cap with
  | cap_null_cap => kret tt
  | cap_reply_cap _ master _ => kwhen (negb master) (cteMove cap srcSlot destSlot)
  | _ => kfail
  end ;;;
  kret EXCEPTION_NONE.

(** ** Decoding *)
Definition missing_cap (isSource : bool) (depth : Z) : K exception_t :=
  error_type seL4_FailedLookup ;;;
  error_source isSource ;;;
  set_lookup_fault (lookup_fault_missing_capability_new depth) ;;;
  kret EXCEPTION_SYSCALL_ERROR.

(** The capability to install and whether the source is moved; an
    [exception_t] when the request is refused. *)
Definition copy_source (label length srcSlot buffer : Z) : K (exception_t + cap_t * bool) :=
  let! cap := getCap srcSlot in
  if label =? CNodeCopy then
    if length <? 5 then let! e := fail_syscall seL4_TruncatedMessage in kret (inl e)
    else
      let! w := getSyscallArg 4 buffer in
      let! ' (status, newCap) := kopt (deriveCap srcSlot (maskCapRights (rightsFromWord w) cap)) in
      match status with
      | EXCEPTION_NONE => kret (inr (newCap, false))
      | _ => kret (inl status)
      end
  else if label =? CNodeMint then
    if length <? 6 then let! e := fail_syscall seL4_TruncatedMessage in kret (inl e)
    else
      let! w := getSyscallArg 4 buffer in
      let! capData := getSyscallArg 5 buffer in
      let srcCap := maskCapRights (rightsFromWord w) cap in
      let! ' (status, newCap) := kopt (deriveCap srcSlot (updateCapData false capData srcCap)) in
      match status with
      | EXCEPTION_NONE => kret (inr (newCap, false))
      | _ => kret (inl status)
      end
  else if label =? CNodeMove then kret (inr (cap, true))
  else if label =? CNodeMutate then
    if length <? 5 then let! e := fail_syscall seL4_TruncatedMessage in kret (inl e)
    else
      let! capData := getSyscallArg 4 buffer in
      kret (inr (updateCapData true capData cap, true))
  else kfail.

Definition decode_copy (label length : Z) (extraCaps : list Z) (destSlot buffer : Z) :
    K exception_t :=
  if (length <? 4) || no_excap extraCaps 0 then fail_syscall seL4_TruncatedMessage
  else
    let! srcIndex := getSyscallArg 2 buffer in
    let! srcDepth := getSyscallArg 3 buffer in
    let! srcRoot := getCap (excap extraCaps 0) in
    let! status := ensureEmptySlot destSlot in
    match status with
    | EXCEPTION_NONE =>
        let! ' (status, srcSlot) := lookupSourceSlot srcRoot srcIndex srcDepth in
        match status with
        | EXCEPTION_NONE =>
            let! srcCap := getCap srcSlot in
            if is_null srcCap then missing_cap true srcDepth
            else
              let! r := copy_source label length srcSlot buffer in
              match r with
              | inl e => kret e
              | inr (newCap, isMove) =>
                  if is_null newCap then fail_syscall seL4_IllegalOperation
                  else
                    restart_current ;;;
                    if isMove then invokeCNodeMove newCap srcSlot destSlot
                    else invokeCNodeInsert newCap srcSlot destSlot
              end
        | _ => kret status
        end
    | _ => kret status
    end.

(** From the two looked-up slots on. *)
Definition rotate_slots (srcNewData pivotNewData srcDepth pivotDepth srcSlot pivotSlot
    destSlot : Z) : K exception_t :=
  let! status := if negb (srcSlot =? destSlot) then ensureEmptySlot destSlot
                 else kret EXCEPTION_NONE in
  match status with
  | EXCEPTION_NONE =>
      let! srcCap := getCap srcSlot in
      if is_null srcCap then missing_cap true srcDepth
      else
        let! pivotCap := getCap pivotSlot in
        if is_null pivotCap then missing_cap false pivotDepth
        else
          let newSrcCap := updateCapData true srcNewData srcCap in
          let newPivotCap := updateCapData true pivotNewData pivotCap in
          if is_null newSrcCap then fail_syscall seL4_IllegalOperation
          else if is_null newPivotCap then fail_syscall seL4_IllegalOperation
          else
            restart_current ;;;
            invokeCNodeRotate newSrcCap newPivotCap srcSlot pivotSlot destSlot
  | _ => kret status
  end.

Definition decode_rotate (length : Z) (extraCaps : list Z) (destSlot buffer : Z) :
    K exception_t :=
  if (length <? 8) || no_excap extraCaps 0 || no_excap extraCaps 1 then
    fail_syscall seL4_TruncatedMessage
  else
    let! pivotNewData := getSyscallArg 2 buffer in
    let! pivotIndex := getSyscallArg 3 buffer in
    let! pivotDepth := getSyscallArg 4 buffer in
    let! srcNewData := getSyscallArg 5 buffer in
    let! srcIndex := getSyscallArg 6 buffer in
    let! srcDepth := getSyscallArg 7 buffer in
    let! pivotRoot := getCap (excap extraCaps 0) in
    let! srcRoot := getCap (excap extraCaps 1) in
    let! ' (status, srcSlot) := lookupSourceSlot srcRoot srcIndex srcDepth in
    match status with
    | EXCEPTION_NONE =>
        let! ' (status, pivotSlot) := lookupPivotSlot pivotRoot pivotIndex pivotDepth in
        match status with
        | EXCEPTION_NONE =>
            if (pivotSlot =? srcSlot) || (pivotSlot =? destSlot) then
              fail_syscall seL4_IllegalOperation
            else rotate_slots srcNewData pivotNewData srcDepth pivotDepth srcSlot pivotSlot destSlot
        | _ => kret status
        end
    | _ => kret status
    end.

Definition decodeCNodeInvocation (label length : Z) (cap : cap_t) (extraCaps : list Z)
    (buffer : Z) : K exception_t :=
  kassert (cap_get_capType cap =? 10) ;;;
  if (label <? CNodeRevoke) || (CNodeSaveCaller <? label) then
    fail_syscall seL4_IllegalOperation
  else if length <? 2 then fail_syscall seL4_TruncatedMessage
  else
    let! index := getSyscallArg 0 buffer in
    let! w_bits := getSyscallArg 1 buffer in
    let! ' (status, destSlot) := lookupTargetSlot cap index w_bits in
    match status with
    | EXCEPTION_NONE =>
        if (CNodeCopy <=? label) && (label <=? CNodeMutate) then
          decode_copy label length extraCaps destSlot buffer
        else if label =? CNodeRevoke then
          restart_current ;;; invokeCNodeRevoke destSlot
        else if label =? CNodeDelete then
          restart_current ;;; invokeCNodeDelete destSlot
        else if label =? CNodeSaveCaller then
          let! status := ensureEmptySlot destSlot in
          match status with
          | EXCEPTION_NONE => restart_current ;;; invokeCNodeSaveCaller destSlot
          | _ => kret status
          end
        else if label =? CNodeRecycle then
          let! destCap := getCap destSlot in
          if negb (hasRecycleRights destCap) then fail_syscall seL4_IllegalOperation
          else restart_current ;;; invokeCNodeRecycle destSlot
        else if label =? CNodeRotate then decode_rotate length extraCaps destSlot buffer
        else kret EXCEPTION_NONE
    | _ => kret status
    end.
End CNode.
