(* ===== verification/Interrupt.v ===== *)
(** * Interrupts

    Models [src/object/interrupt.c] and [src/arch/arm/object/interrupt.c]: the
    capabilities that control interrupts and the delivery of an interrupt to
    the asynchronous endpoint registered for it. *)

From S2P Require Import Prelude.
From S2P Require Import Word32.
From S2P Require Import Structures.
From S2P Require Import State.
From S2P Require Import Sched.
From S2P Require Import CSpace.
From S2P Require Import Finalise.
From S2P Require Import Ipc.
From S2P Require Import Labels.

Section Interrupt.
Context {cfg : KernelConfig}.

(** [intStateIRQNode + irq] *)
Definition irq_slot (irq : Z) : K Z :=
  let! node := gets intStateIRQNode in kret (CTE_AT node irq).

Definition invokeIRQControl (irq handlerSlot controlSlot : Z) : K exception_t :=
  setIRQState IRQNotifyAEP irq ;;;
  cteInsert (cap_irq_handler_cap_new irq) controlSlot handlerSlot ;;;
  kret EXCEPTION_NONE.

Definition Arch_decodeInterruptControl (length : Z) (extraCaps : list Z) : K exception_t :=
  fail_syscall seL4_IllegalOperation.

Definition decodeIRQControlInvocation (label length srcSlot : Z) (extraCaps : list Z)
    (buffer : Z) : K exception_t :=
  if label =? IRQIssueIRQHandler then
    if (length <? 3) || no_excap extraCaps 0 then fail_syscall seL4_TruncatedMessage
    else
      let! irq_w := getSyscallArg 0 buffer in
      let irq := field 8 irq_w in
      let! index := getSyscallArg 1 buffer in
      let! depth := getSyscallArg 2 buffer in
      let! cnodeCap := getCap (excap extraCaps 0) in
      if maxIRQ <? irq_w then range_error 0 maxIRQ
      else
        let! active := isIRQActive irq in
        if active : bool then fail_syscall seL4_RevokeFirst
        else
          let! ' (status, destSlot) := lookupTargetSlot cnodeCap index depth in
          match status with
          | EXCEPTION_NONE =>
              let! status := ensureEmptySlot destSlot in
              match status with
              | EXCEPTION_NONE =>
                  restart_current ;;;
                  invokeIRQControl irq destSlot srcSlot
              | _ => kret status
              end
          | _ => kret status
          end
  else if label =? IRQInterruptControl then Arch_decodeInterruptControl length extraCaps
  else fail_syscall seL4_IllegalOperation.

Definition invokeIRQHandler_AckIRQ (irq : Z) : K unit := machine (op_maskInterrupt false irq).
Definition invokeIRQHandler_SetMode (irq : Z) (levelTrigger polarityLow : bool) : K unit :=
  machine (op_setInterruptMode irq levelTrigger polarityLow).
Definition invokeIRQHandler_SetIRQHandler (irq : Z) (cap : cap_t) (slot : Z) : K unit :=
  let! irqSlot := irq_slot irq in
  cteDeleteOne irqSlot ;;;
  cteInsert cap slot irqSlot.
Definition invokeIRQHandler_ClearIRQHandler (irq : Z) : K unit :=
  let! irqSlot := irq_slot irq in
  cteDeleteOne irqSlot.

Definition decodeIRQHandlerInvocation (label length irq : Z) (extraCaps : list Z)
    (buffer : Z) : K exception_t :=
  if label =? IRQAckIRQ then
    restart_current ;;;
    invokeIRQHandler_AckIRQ irq ;;;
    kret EXCEPTION_NONE
  else if label =? IRQSetIRQHandler then
    if no_excap extraCaps 0 then fail_syscall seL4_TruncatedMessage
    else
      let slot := excap extraCaps 0 in
      let! aepCap := getCap slot in
      match aepCap with
      | cap_async_endpoint_cap _ _ true _ =>
          restart_current ;;;
          invokeIRQHandler_SetIRQHandler irq aepCap slot ;;;
          kret EXCEPTION_NONE
      | _ => invalid_cap 0
      end
  else if label =? IRQClearIRQHandler then
    restart_current ;;;
    invokeIRQHandler_ClearIRQHandler irq ;;;
    kret EXCEPTION_NONE
  else if label =? IRQSetMode then
    if length <? 2 then fail_syscall seL4_TruncatedMessage
    else
      let! trig := getSyscallArg 0 buffer in
      let! pol := getSyscallArg 1 buffer in
      restart_current ;;;
      invokeIRQHandler_SetMode irq (z2b trig) (z2b pol) ;;;
      kret EXCEPTION_NONE
  else fail_syscall seL4_IllegalOperation.

Definition handleInterrupt (irq : Z) : K unit :=
  let! st := gets (λ s, irq_state s irq) in
  match st with
  | IRQNotifyAEP =>
      let! slot := irq_slot irq in
      let! cap := getCap slot in
      match cap with
      | cap_async_endpoint_cap badge _ true ptr => sendAsyncIPC ptr badge
      | _ => kret tt
      end ;;;
      machine (op_maskInterrupt true irq)
  | IRQTimer =>
      timerTick ;;;
      machine op_resetTimer
  | IRQReserved => machine (op_handleReservedIRQ irq)
  | IRQInactive => machine (op_maskInterrupt true irq)
  end ;;;
  machine (op_ackInterrupt irq).
End Interrupt.
