(* ===== verification/TcbInvocation.v ===== *)
(** * Thread invocations

    Models the invocation half of [src/object/tcb.c] (decoding and performing
    the operations on a thread capability and on the domain capability) and
    the register-transfer hooks of [src/arch/arm/object/tcb.c]. *)

From S2P Require Import Prelude.
From S2P Require Import Word32.
From S2P Require Import Structures.
From S2P Require Import State.
From S2P Require Import CapOps.
From S2P Require Import VSpace.
From S2P Require Import Sched.
From S2P Require Import CSpace.
From S2P Require Import Finalise.
From S2P Require Import Ipc.
From S2P Require Import Labels.

Definition frameRegisters : list Z := [FaultInstruction; SP; CPSR; 0; 1; 8; 9; 10; 11; 12].
Definition n_frameRegisters : Z := 10.
Definition gpRegisters : list Z := [2; 3; 4; 5; 6; 7; 14].
Definition n_gpRegisters : Z := 7.

Definition Arch_decodeTransfer (flags : Z) : Z := 0.
Definition Arch_performTransfer (arch tcb_src tcb_dest : Z) : K exception_t := kret EXCEPTION_NONE.

Definition thread_control_update_priority : Z := 1.
Definition thread_control_update_ipc_buffer : Z := 2.
Definition thread_control_update_space : Z := 4.
Definition thread_control_update_all : Z := 7.

Definition thread_cap_ptr (cap : cap_t) : option Z :=
  match cap with cap_thread_cap t => Some t | _ => None end.

Section Tcb.
Context {cfg : KernelConfig}.

(** ** Performing *)
Definition invokeTCB_Suspend (thread : Z) : K exception_t :=
  suspend thread ;;; kret EXCEPTION_NONE.
Definition invokeTCB_Resume (thread : Z) : K exception_t :=
  restart thread ;;; kret EXCEPTION_NONE.

(** Replacing a capability in slot [i] of a thread: the old one is deleted,
    and the new one goes in if the deletion left its source and the thread
    capability of the caller intact. *)
Definition install_cap (target slot i : Z) (newCap : cap_t) (srcSlot : Z) : K unit :=
  let! srcCap := getCap srcSlot in
  let! same := kopt (sameObjectAs newCap srcCap) in
  kwhen same
    (let! slotCap := getCap slot in
     let! same_thread := kopt (sameObjectAs (cap_thread_cap_new target) slotCap) in
     kwhen same_thread (cteInsert newCap srcSlot (TCB_PTR_CTE_PTR target i))).

Definition replace_space (target slot i : Z) (newCap : cap_t) (srcSlot : Z) : K exception_t :=
  let! e := cteDelete (TCB_PTR_CTE_PTR target i) true in
  match e with
  | EXCEPTION_NONE =>
      install_cap target slot i newCap srcSlot ;;;
      kret EXCEPTION_NONE
  | _ => kret e
  end.

Definition replace_buffer (target slot bufferAddr : Z) (bufferCap : cap_t) (bufferSrcSlot : Z) :
    K exception_t :=
  let! e := cteDelete (TCB_PTR_CTE_PTR target tcbBuffer) true in
  match e with
  | EXCEPTION_NONE =>
      updTCB target (set_tcbIPCBuffer bufferAddr) ;;;
      kwhen (negb (bufferSrcSlot =? 0))
        (install_cap target slot tcbBuffer bufferCap bufferSrcSlot) ;;;
      kret EXCEPTION_NONE
  | _ => kret e
  end.

Definition invokeTCB_ThreadControl (target slot faultep priority : Z)
    (cRoot_newCap : cap_t) (cRoot_srcSlot : Z) (vRoot_newCap : cap_t) (vRoot_srcSlot : Z)
    (bufferAddr : Z) (bufferCap : cap_t) (bufferSrcSlot updateFlags : Z) : K exception_t :=
  let space := negb (Z.land updateFlags thread_control_update_space =? 0) in
  kwhen space (updTCB target (set_tcbFaultHandler faultep)) ;;;
  kwhen (negb (Z.land updateFlags thread_control_update_priority =? 0))
    (setPriority target priority) ;;;
  let! e := if space then replace_space target slot tcbCTable cRoot_newCap cRoot_srcSlot
            else kret EXCEPTION_NONE in
  match e with
  | EXCEPTION_NONE =>
      let! e := if space then replace_space target slot tcbVTable vRoot_newCap vRoot_srcSlot
                else kret EXCEPTION_NONE in
      match e with
      | EXCEPTION_NONE =>
          if negb (Z.land updateFlags thread_control_update_ipc_buffer =? 0) then
            replace_buffer target slot bufferAddr bufferCap bufferSrcSlot
          else kret EXCEPTION_NONE
      | _ => kret e
      end
  | _ => kret e
  end.

Definition copy_registers (dest tcb_src : Z) (regs : list Z) : K unit :=
  kfor regs (λ r, let! v := getRegister tcb_src r in setRegister dest r v).

Definition invokeTCB_CopyRegisters (dest tcb_src : Z)
    (suspendSource resumeTarget transferFrame transferInteger : bool) (transferArch : Z) :
    K exception_t :=
  kwhen suspendSource (suspend tcb_src) ;;;
  kwhen resumeTarget (restart dest) ;;;
  kwhen transferFrame
    (copy_registers dest tcb_src frameRegisters ;;;
     let! pc := getRestartPC dest in
     setNextPC dest pc) ;;;
  kwhen transferInteger (copy_registers dest tcb_src gpRegisters) ;;;
  Arch_performTransfer transferArch tcb_src dest.

(** One of the two register arrays of [invokeTCB_ReadRegisters]: [count]
    registers of it are wanted and its first element is message word [base];
    the result is the number of registers delivered. *)
Definition read_registers (thread tcb_src ipcBuffer base count : Z) (regs : list Z) : K Z :=
  let inline := Z.max 0 (Z.min count (n_msgRegisters - base)) in
  kfor (upto inline) (λ i,
    let! v := getRegister tcb_src (reg_at regs i) in
    setRegister thread (reg_at msgRegisters (base + i)) v) ;;;
  if negb (ipcBuffer =? 0) && (inline <? count) then
    kfor (from_to inline count) (λ i,
      let! v := getRegister tcb_src (reg_at regs i) in
      setBuf ipcBuffer (base + i + 1) v) ;;;
    kret count
  else kret inline.

Definition invokeTCB_ReadRegisters (tcb_src : Z) (suspendSource : bool) (n arch : Z)
    (call : bool) : K exception_t :=
  let! thread := gets ksCurThread in
  kwhen suspendSource (suspend tcb_src) ;;;
  let! e := Arch_performTransfer arch tcb_src thread in
  match e with
  | EXCEPTION_NONE =>
      kwhen call
        (let! ipcBuffer := lookupIPCBuffer true thread in
         setRegister thread badgeRegister 0 ;;;
         let! j := read_registers thread tcb_src ipcBuffer 0 (Z.min n n_frameRegisters)
                     frameRegisters in
         let! i := read_registers thread tcb_src ipcBuffer n_frameRegisters
                     (Z.max 0 (Z.min n_gpRegisters (n - n_frameRegisters))) gpRegisters in
         setRegister thread msgInfoRegister
           (wordFromMessageInfo (message_info_new 0 0 0 (i + j)))) ;;;
      setThreadState thread ThreadState_Running ;;;
      kret EXCEPTION_NONE
  | _ => kret e
  end.

(** Writing [count] registers of an array from the arguments from [first]. *)
Definition write_registers (dest : Z) (regs : list Z) (count first buffer : Z) : K unit :=
  kfor (upto count) (λ i,
    let r := reg_at regs i in
    let! v := getSyscallArg (i + first) buffer in
    setRegister dest r (sanitiseRegister r v)).

Definition invokeTCB_WriteRegisters (dest : Z) (resumeTarget : bool) (n arch buffer : Z) :
    K exception_t :=
  let! cur := gets ksCurThread in
  let! e := Arch_performTransfer arch cur dest in
  match e with
  | EXCEPTION_NONE =>
      let n := Z.min n (n_frameRegisters + n_gpRegisters) in
      write_registers dest frameRegisters (Z.min n_frameRegisters n) 2 buffer ;;;
      write_registers dest gpRegisters (n - n_frameRegisters) (n_frameRegisters + 2) buffer ;;;
      let! pc := getRestartPC dest in
      setNextPC dest pc ;;;
      kwhen resumeTarget (restart dest) ;;;
      kret EXCEPTION_NONE
  | _ => kret e
  end.

Definition invokeTCB_AEPControl (tptr aepptr : Z) : K exception_t :=
  (if negb (aepptr =? 0) then bindAsyncEndpoint tptr aepptr else unbindAsyncEndpoint tptr) ;;;
  kret EXCEPTION_NONE.

(** ** Decoding *)
Definition decodeCopyRegisters (cap : cap_t) (length : Z) (extraCaps : list Z) (buffer : Z) :
    K exception_t :=
  if (length <? 1) || no_excap extraCaps 0 then fail_syscall seL4_TruncatedMessage
  else
    let! flags := getSyscallArg 0 buffer in
    let transferArch := Arch_decodeTransfer (Z.shiftr flags 8) in
    let! source_cap := getCap (excap extraCaps 0) in
    match source_cap with
    | cap_thread_cap srcTCB =>
        let! dest := kopt (thread_cap_ptr cap) in
        restart_current ;;;
        invokeTCB_CopyRegisters dest srcTCB (Z.testbit flags 0) (Z.testbit flags 1)
          (Z.testbit flags 2) (Z.testbit flags 3) transferArch
    | _ => invalid_cap 1
    end.

Definition decodeReadRegisters (cap : cap_t) (length : Z) (call : bool) (buffer : Z) :
    K exception_t :=
  if length <? 2 then fail_syscall seL4_TruncatedMessage
  else
    let! flags := getSyscallArg 0 buffer in
    let! n := getSyscallArg 1 buffer in
    if (n <? 1) || (n_frameRegisters + n_gpRegisters <? n) then
      range_error 1 (n_frameRegisters + n_gpRegisters)
    else
      let transferArch := Arch_decodeTransfer (Z.shiftr flags 8) in
      restart_current ;;;
      let! src := kopt (thread_cap_ptr cap) in
      invokeTCB_ReadRegisters src (Z.testbit flags 0) n transferArch call.

Definition decodeWriteRegisters (cap : cap_t) (length buffer : Z) : K exception_t :=
  if length <? 2 then fail_syscall seL4_TruncatedMessage
  else
    let! flags := getSyscallArg 0 buffer in
    let! w := getSyscallArg 1 buffer in
    if length - 2 <? w then fail_syscall seL4_TruncatedMessage
    else
      let transferArch := Arch_decodeTransfer (Z.shiftr flags 8) in
      let! thread := kopt (thread_cap_ptr cap) in
      restart_current ;;;
      invokeTCB_WriteRegisters thread (Z.testbit flags 0) w transferArch buffer.

(** A buffer capability is derived and checked; [inl] is a refusal. *)
Definition derive_buffer (bufferAddr bufferSlot : Z) (bufferCap : cap_t) :
    K (exception_t + cap_t * Z) :=
  if bufferAddr =? 0 then kret (inr (bufferCap, 0))
  else
    let! ' (status, c) := kopt (deriveCap bufferSlot bufferCap) in
    match status with
    | EXCEPTION_NONE =>
        let! e := checkValidIPCBuffer bufferAddr c in
        match e with
        | EXCEPTION_NONE => kret (inr (c, bufferSlot))
        | _ => kret (inl e)
        end
    | _ => kret (inl status)
    end.

Definition spaces_busy (tptr : Z) : K bool :=
  let! c := slotCapLongRunningDelete (TCB_PTR_CTE_PTR tptr tcbCTable) in
  if c : bool then kret true
  else slotCapLongRunningDelete (TCB_PTR_CTE_PTR tptr tcbVTable).

(** The new CSpace and VSpace roots, derived and checked. *)
Definition derive_roots (cRootData cRootSlot vRootData vRootSlot : Z) (cRootCap vRootCap : cap_t) :
    K (exception_t + cap_t * cap_t) :=
  let c := if negb (cRootData =? 0) then updateCapData false cRootData cRootCap else cRootCap in
  let! ' (status, cRootCap) := kopt (deriveCap cRootSlot c) in
  match status with
  | EXCEPTION_NONE =>
      if negb (cap_get_capType cRootCap =? 10) &&
         (negb CONFIG_ALLOW_NULL_CSPACE || negb (is_null cRootCap)) then
        let! e := fail_syscall seL4_IllegalOperation in kret (inl e)
      else
        let v := if negb (vRootData =? 0) then updateCapData false vRootData vRootCap else vRootCap in
        let! ' (status, vRootCap) := kopt (deriveCap vRootSlot v) in
        match status with
        | EXCEPTION_NONE =>
            if negb (isValidVTableRoot vRootCap) then
              let! e := fail_syscall seL4_IllegalOperation in kret (inl e)
            else kret (inr (cRootCap, vRootCap))
        | _ => kret (inl status)
        end
  | _ => kret (inl status)
  end.

Definition prio_too_high (prio : Z) : K bool :=
  let! cur := gets ksCurThread in
  let! p := getTCBf tcbPriority cur in
  kret (p <? prio).

Definition decodeTCBConfigure (cap : cap_t) (length slot : Z) (rootCaps : list Z) (buffer : Z) :
    K exception_t :=
  if (length <? 5) || no_excap rootCaps 0 || no_excap rootCaps 1 || no_excap rootCaps 2 then
    fail_syscall seL4_TruncatedMessage
  else
    let! faultEP := getSyscallArg 0 buffer in
    let! prio := getSyscallArg 1 buffer in
    let! cRootData := getSyscallArg 2 buffer in
    let! vRootData := getSyscallArg 3 buffer in
    let! bufferAddr := getSyscallArg 4 buffer in
    let cRootSlot := excap rootCaps 0 in
    let! cRootCap := getCap cRootSlot in
    let vRootSlot := excap rootCaps 1 in
    let! vRootCap := getCap vRootSlot in
    let! bufferCap := getCap (excap rootCaps 2) in
    let prio := Z.land prio (MASK 8) in
    let! high := prio_too_high prio in
    if high : bool then fail_syscall seL4_IllegalOperation
    else
      let! r := derive_buffer bufferAddr (excap rootCaps 2) bufferCap in
      match r with
      | inl e => kret e
      | inr (bufferCap, bufferSlot) =>
          let! tptr := kopt (thread_cap_ptr cap) in
          let! busy := spaces_busy tptr in
          if busy : bool then fail_syscall seL4_IllegalOperation
          else
            let! r := derive_roots cRootData cRootSlot vRootData vRootSlot cRootCap vRootCap in
            match r with
            | inl e => kret e
            | inr (cRootCap, vRootCap) =>
                restart_current ;;;
                invokeTCB_ThreadControl tptr slot faultEP prio cRootCap cRootSlot
                  vRootCap vRootSlot bufferAddr bufferCap bufferSlot thread_control_update_all
            end
      end.

Definition decodeSetPriority (cap : cap_t) (length buffer : Z) : K exception_t :=
  if length <? 1 then fail_syscall seL4_TruncatedMessage
  else
    let! newPrio := getSyscallArg 0 buffer in
    let newPrio := Z.land newPrio (MASK 8) in
    let! high := prio_too_high newPrio in
    if high : bool then fail_syscall seL4_IllegalOperation
    else
      restart_current ;;;
      let! tptr := kopt (thread_cap_ptr cap) in
      invokeTCB_ThreadControl tptr 0 0 newPrio cap_null_cap_new 0 cap_null_cap_new 0
        0 cap_null_cap_new 0 thread_control_update_priority.

Definition decodeSetIPCBuffer (cap : cap_t) (length slot : Z) (extraCaps : list Z) (buffer : Z) :
    K exception_t :=
  if (length <? 1) || no_excap extraCaps 0 then fail_syscall seL4_TruncatedMessage
  else
    let! cptr_bufferPtr := getSyscallArg 0 buffer in
    let! bufferCap := getCap (excap extraCaps 0) in
    let! r := derive_buffer cptr_bufferPtr (excap extraCaps 0) bufferCap in
    match r with
    | inl e => kret e
    | inr (bufferCap, bufferSlot) =>
        restart_current ;;;
        let! tptr := kopt (thread_cap_ptr cap) in
        invokeTCB_ThreadControl tptr slot 0 0 cap_null_cap_new 0 cap_null_cap_new 0
          cptr_bufferPtr bufferCap bufferSlot thread_control_update_ipc_buffer
    end.

Definition decodeSetSpace (cap : cap_t) (length slot : Z) (extraCaps : list Z) (buffer : Z) :
    K exception_t :=
  if (length <? 3) || no_excap extraCaps 0 || no_excap extraCaps 1 then
    fail_syscall seL4_TruncatedMessage
  else
    let! faultEP := getSyscallArg 0 buffer in
    let! cRootData := getSyscallArg 1 buffer in
    let! vRootData := getSyscallArg 2 buffer in
    let cRootSlot := excap extraCaps 0 in
    let! cRootCap := getCap cRootSlot in
    let vRootSlot := excap extraCaps 1 in
    let! vRootCap := getCap vRootSlot in
    let! tptr := kopt (thread_cap_ptr cap) in
    let! busy := spaces_busy tptr in
    if busy : bool then fail_syscall seL4_IllegalOperation
    else
      let! r := derive_roots cRootData cRootSlot vRootData vRootSlot cRootCap vRootCap in
      match r with
      | inl e => kret e
      | inr (cRootCap, vRootCap) =>
          restart_current ;;;
          invokeTCB_ThreadControl tptr slot faultEP 0 cRootCap cRootSlot vRootCap vRootSlot
            0 cap_null_cap_new 0 thread_control_update_space
      end.

Definition decodeDomainInvocation (label length : Z) (extraCaps : list Z) (buffer : Z) :
    K exception_t :=
  if negb (label =? DomainSetSet) then fail_syscall seL4_IllegalOperation
  else if length =? 0 then fail_syscall seL4_TruncatedMessage
  else
    let! domain := getSyscallArg 0 buffer in
    if CONFIG_NUM_DOMAINS <=? domain then invalid_arg 0
    else if no_excap extraCaps 0 then fail_syscall seL4_TruncatedMessage
    else
      let! tcap := getCap (excap extraCaps 0) in
      match tcap with
      | cap_thread_cap tptr =>
          restart_current ;;;
          setDomain tptr domain ;;;
          kret EXCEPTION_NONE
      | _ => invalid_arg 1
      end.

Definition decodeBindAEP (cap : cap_t) (extraCaps : list Z) : K exception_t :=
  if no_excap extraCaps 0 then fail_syscall seL4_TruncatedMessage
  else
    let! aepCap := getCap (excap extraCaps 0) in
    match aepCap with
    | cap_async_endpoint_cap _ _ _ aepptr =>
        let! tptr := kopt (thread_cap_ptr cap) in
        let! bound := getTCBf boundAsyncEndpoint tptr in
        if negb (bound =? 0) then fail_syscall seL4_IllegalOperation
        else
          let! aep := getAEP aepptr in
          if negb (aepQueue_head aep =? 0) then fail_syscall seL4_IllegalOperation
          else
            restart_current ;;;
            invokeTCB_AEPControl tptr aepptr
    | _ => fail_syscall seL4_IllegalOperation
    end.

Definition decodeUnbindAEP (cap : cap_t) : K exception_t :=
  let! tptr := kopt (thread_cap_ptr cap) in
  let! bound := getTCBf boundAsyncEndpoint tptr in
  if bound =? 0 then fail_syscall seL4_IllegalOperation
  else
    restart_current ;;;
    invokeTCB_AEPControl tptr 0.

Definition decodeTCBInvocation (label length : Z) (cap : cap_t) (slot : Z) (extraCaps : list Z)
    (call : bool) (buffer : Z) : K exception_t :=
  if label =? TCBReadRegisters then decodeReadRegisters cap length call buffer
  else if label =? TCBWriteRegisters then decodeWriteRegisters cap length buffer
  else if label =? TCBCopyRegisters then decodeCopyRegisters cap length extraCaps buffer
  else if label =? TCBSuspend then
    restart_current ;;;
    let! tptr := kopt (thread_cap_ptr cap) in
    invokeTCB_Suspend tptr
  else if label =? TCBResume then
    restart_current ;;;
    let! tptr := kopt (thread_cap_ptr cap) in
    invokeTCB_Resume tptr
  else if label =? TCBConfigure then decodeTCBConfigure cap length slot extraCaps buffer
  else if label =? TCBSetPriority then decodeSetPriority cap length buffer
  else if label =? TCBSetIPCBuffer then decodeSetIPCBuffer cap length slot extraCaps buffer
  else if label =? TCBSetSpace then decodeSetSpace cap length slot extraCaps buffer
  else if label =? TCBBindAEP then decodeBindAEP cap extraCaps
  else if label =? TCBUnbindAEP then decodeUnbindAEP cap
  else fail_syscall seL4_IllegalOperation.
End Tcb.
