(* ===== verification/ArmInvocation.v ===== *)
(** * Address-space invocations

    Models the decoding half of [src/arch/arm/kernel/vspace.c]: mapping and
    unmapping page tables and frames, cache maintenance, and the dispatch of
    [Arch_decodeInvocation]. *)

From S2P Require Import Prelude.
From S2P Require Import Word32.
From S2P Require Import Structures.
From S2P Require Import State.
From S2P Require Import CapOps.
From S2P Require Import Cdt.
From S2P Require Import VSpace.
From S2P Require Import Sched.
From S2P Require Import CSpace.
From S2P Require Import Finalise.
From S2P Require Import Ipc.
From S2P Require Import Labels.

(** ** Attributes ([vm_attributes]) *)
Definition vm_attributes_get_armPageCacheable (w : Z) : bool := Z.testbit w 0.
Definition vm_attributes_get_armParityEnabled (w : Z) : bool := Z.testbit w 1.
Definition vm_attributes_get_armExecuteNever (w : Z) : bool := Z.testbit w 2.

Definition pde_invalid (p : pde_t) : bool :=
  match p with pde_pde_invalid _ _ => true | _ => false end.
Definition pte_invalid (p : pte_t) : bool :=
  match pte_get_pteType p with pte_invalid_type => true | _ => false end.

Definition frame_set_index (cap : cap_t) (idx : Z) : cap_t :=
  match cap with
  | cap_frame_cap high _ size rights low base => cap_frame_cap high (field 12 idx) size rights low base
  | _ => cap
  end.

Section Arm.
Context {cfg : KernelConfig}.

(** ** Page tables *)
Definition performPageTableInvocationMap (cap : cap_t) (ctSlot : Z) (pde : pde_t) (pdSlot : Z) :
    K exception_t :=
  cdtUpdate ctSlot cap ;;;
  setPDE pdSlot pde ;;;
  machine (op_cleanByVA_PoU pdSlot (addrFromPPtr pdSlot)) ;;;
  kret EXCEPTION_NONE.

Definition performPageTableInvocationUnmap (cap : cap_t) (ctSlot : Z) : K exception_t :=
  match cap with
  | cap_page_table_cap obj idx base =>
      kwhen (negb (obj =? 0)) (unmapPageTable obj idx base) ;;;
      cdtUpdate ctSlot (cap_page_table_cap 0 idx base) ;;;
      kret EXCEPTION_NONE
  | _ => kfail
  end.

Definition decode_pt_map (length slot idx base : Z) (cap : cap_t) (extraCaps : list Z)
    (buffer : Z) : K exception_t :=
  if (length <? 2) || no_excap extraCaps 0 then fail_syscall seL4_TruncatedMessage
  else
    let! mapped := cdtFindWithExtra cap in
    if negb (mapped =? 0) then invalid_cap 0
    else
      let! vaddr := getSyscallArg 0 buffer in
      let! attr := getSyscallArg 1 buffer in
      let! pdCap := getCap (excap extraCaps 0) in
      match pdCap with
      | cap_page_directory_cap pd =>
          if kernelBase <=? vaddr then invalid_arg 0
          else
            let pdIndex := Z.shiftr vaddr 20 in
            let pdSlot := PDE_AT pd pdIndex in
            let! old := getPDE pdSlot in
            if negb (pde_invalid old) then fail_syscall seL4_DeleteFirst
            else
              let pde := pde_pde_coarse_new (addrFromPPtr base)
                           (b2z (vm_attributes_get_armParityEnabled attr)) 0 in
              restart_current ;;;
              performPageTableInvocationMap
                (cap_page_table_cap (field_high 20 pd) (field 12 pdIndex) base) slot pde pdSlot
      | _ => invalid_cap 1
      end.

Definition decodeARMPageTableInvocation (label length slot : Z) (cap : cap_t)
    (extraCaps : list Z) (buffer : Z) : K exception_t :=
  if label =? ARMPageTableUnmap then
    let! final := cdtIsFinal slot in
    if negb final then fail_syscall seL4_RevokeFirst
    else
      restart_current ;;;
      performPageTableInvocationUnmap cap slot
  else if negb (label =? ARMPageTableMap) then fail_syscall seL4_IllegalOperation
  else
    match cap with
    | cap_page_table_cap _ idx base => decode_pt_map length slot idx base cap extraCaps buffer
    | _ => kfail
    end.

(** ** Mapping entries

    The result is a refusal, or the entry with the table, the first index and
    the number of entries to write. *)
Fixpoint all_invalid {A} (read : Z → K A) (ok : A → bool) (slots : list Z) : K bool :=
  match slots with
  | [] => kret true
  | p :: slots =>
      let! e := read p in
      if ok e then all_invalid read ok slots else kret false
  end.

Definition createSafeMappingEntries_PTE (base vaddr frameSize vmRights attr pd : Z) :
    K (exception_t + pte_t * Z * Z * Z) :=
  let entry size := makeUserPTE size base (vm_attributes_get_armPageCacheable attr)
                      (vm_attributes_get_armExecuteNever attr) vmRights in
  let! n := kopt (if frameSize =? ARMSmallPage then Some 1
                  else if frameSize =? ARMLargePage then Some PAGES_PER_LARGE_PAGE
                  else None) in
  let! pte := kopt (entry frameSize) in
  let! ' (status, pt, ptIndex) := lookupPTSlot pd vaddr in
  match status with
  | EXCEPTION_NONE =>
      let! free := all_invalid getPTE pte_invalid ((λ i, PTE_AT pt (ptIndex + i)) <$> upto n) in
      if free : bool then kret (inr (pte, pt, ptIndex, n))
      else let! e := fail_syscall seL4_DeleteFirst in kret (inl e)
  | _ =>
      error_type seL4_FailedLookup ;;;
      error_source false ;;;
      kret (inl EXCEPTION_SYSCALL_ERROR)
  end.

Definition createSafeMappingEntries_PDE (base vaddr frameSize vmRights attr pd : Z) :
    K (exception_t + pde_t * Z * Z * Z) :=
  let! n := kopt (if frameSize =? ARMSection then Some 1
                  else if frameSize =? ARMSuperSection then Some SECTIONS_PER_SUPER_SECTION
                  else None) in
  let start := makePDIndex vaddr in
  let! pde := kopt (makeUserPDE frameSize base (vm_attributes_get_armParityEnabled attr)
                      (vm_attributes_get_armPageCacheable attr)
                      (vm_attributes_get_armExecuteNever attr) 0 vmRights) in
  let! free := all_invalid getPDE pde_invalid ((λ i, PDE_AT pd (start + i)) <$> upto n) in
  if free : bool then kret (inr (pde, pd, start, n))
  else let! e := fail_syscall seL4_DeleteFirst in kret (inl e).

(** ** Frames *)
Definition performPageInvocationMapPTE (cap : cap_t) (ctSlot : Z) (pte : pte_t)
    (pt start n : Z) : K exception_t :=
  cdtUpdate ctSlot (frame_set_index (cap_frame_cap_set_capFMappedObject cap pt) start) ;;;
  kfor (upto n) (λ i, setPTE (PTE_AT pt (start + i)) pte) ;;;
  let first := PTE_AT pt start in
  machine (op_cleanCacheRange_PoU first (LAST_BYTE first n) (addrFromPPtr first)) ;;;
  kret EXCEPTION_NONE.

Definition performPageInvocationMapPDE (cap : cap_t) (ctSlot : Z) (pde : pde_t)
    (pd start n : Z) : K exception_t :=
  cdtUpdate ctSlot (frame_set_index (cap_frame_cap_set_capFMappedObject cap pd) start) ;;;
  kfor (upto n) (λ i, setPDE (PDE_AT pd (start + i)) pde) ;;;
  let first := PDE_AT pd start in
  machine (op_cleanCacheRange_PoU first (LAST_BYTE first n) (addrFromPPtr first)) ;;;
  kret EXCEPTION_NONE.

Definition performPageInvocationUnmap (cap : cap_t) (ctSlot : Z) : K exception_t :=
  match cap with
  | cap_frame_cap _ idx size _ _ base =>
      let obj := cap_frame_cap_get_capFMappedObject cap in
      kwhen (negb (obj =? 0))
        (if (size =? ARMSmallPage) || (size =? ARMLargePage) then unmapPagePTE size obj idx base
         else if (size =? ARMSection) || (size =? ARMSuperSection) then unmapPagePDE size obj idx base
         else kfail) ;;;
      cdtUpdate ctSlot (cap_frame_cap_set_capFMappedObject cap 0) ;;;
      kret EXCEPTION_NONE
  | _ => kfail
  end.

Definition performPageGetAddress (vbase_ptr : Z) : K exception_t :=
  let! cur := gets ksCurThread in
  setRegister cur (reg_at msgRegisters 0) (addrFromPPtr vbase_ptr) ;;;
  setRegister cur msgInfoRegister (wordFromMessageInfo (message_info_new 0 0 0 1)) ;;;
  kret EXCEPTION_NONE.

Definition doFlush (label start end_ pstart : Z) : K unit :=
  if (label =? ARMPDClean_Data) || (label =? ARMPageClean_Data) then
    machine (op_cleanCacheRange_RAM start end_ pstart)
  else if (label =? ARMPDInvalidate_Data) || (label =? ARMPageInvalidate_Data) then
    machine (op_invalidateCacheRange_RAM start end_ pstart)
  else if (label =? ARMPDCleanInvalidate_Data) || (label =? ARMPageCleanInvalidate_Data) then
    machine (op_cleanInvalidateCacheRange_RAM start end_ pstart)
  else if (label =? ARMPDUnify_Instruction) || (label =? ARMPageUnify_Instruction) then
    machine (op_cleanCacheRange_PoU start end_ pstart) ;;;
    machine op_dsb ;;;
    machine (op_invalidateCacheRange_I start end_ pstart) ;;;
    machine (op_branchFlushRange start end_ pstart) ;;;
    machine op_isb
  else kfail.

Definition performPageFlush (label pd start end_ pstart : Z) : K exception_t :=
  kwhen (start <? end_)
    (let! root_switched := setVMRootForFlush pd in
     doFlush label start end_ pstart ;;;
     kwhen root_switched (let! cur := gets ksCurThread in setVMRoot cur)) ;;;
  kret EXCEPTION_NONE.

Definition performPDFlush : Z → Z → Z → Z → Z → K exception_t := performPageFlush.

Definition decode_page_map (length slot : Z) (cap : cap_t) (extraCaps : list Z) (buffer : Z) :
    K exception_t :=
  if (length <? 3) || no_excap extraCaps 0 then fail_syscall seL4_TruncatedMessage
  else
    let! vaddr := getSyscallArg 0 buffer in
    let! w_rightsMask := getSyscallArg 1 buffer in
    let! attr := getSyscallArg 2 buffer in
    let! pdCap := getCap (excap extraCaps 0) in
    match cap with
    | cap_frame_cap _ _ frameSize capVMRights _ base =>
        if negb (cap_frame_cap_get_capFMappedObject cap =? 0) then invalid_cap 0
        else match pdCap with
        | cap_page_directory_cap pd =>
            let! bits := kopt (pageBitsForSize frameSize) in
            let vtop := w32 (vaddr + BIT bits - 1) in
            if kernelBase <=? vtop then invalid_arg 0
            else
              let vmRights := maskVMRights capVMRights (rightsFromWord w_rightsMask) in
              let! aligned := kopt (checkVPAlignment frameSize vaddr) in
              if negb aligned then fail_syscall seL4_AlignmentError
              else
                let capFBasePtr := addrFromPPtr base in
                if (frameSize =? ARMSmallPage) || (frameSize =? ARMLargePage) then
                  let! r := createSafeMappingEntries_PTE capFBasePtr vaddr frameSize vmRights attr pd in
                  match r with
                  | inl e => kret e
                  | inr (pte, pt, start, n) =>
                      restart_current ;;;
                      performPageInvocationMapPTE cap slot pte pt start n
                  end
                else
                  let! r := createSafeMappingEntries_PDE capFBasePtr vaddr frameSize vmRights attr pd in
                  match r with
                  | inl e => kret e
                  | inr (pde, pd, start, n) =>
                      restart_current ;;;
                      performPageInvocationMapPDE cap slot pde pd start n
                  end
        | _ => invalid_cap 1
        end
    | _ => kfail
    end.

(** Where a mapped frame is: the page directory and the virtual address. *)
Definition mapped_at (cap : cap_t) : K (option (Z * Z)) :=
  match cap with
  | cap_frame_cap _ idx frameSize _ _ _ =>
      let obj := cap_frame_cap_get_capFMappedObject cap in
      if (frameSize =? ARMSmallPage) || (frameSize =? ARMLargePage) then
        if obj =? 0 then kret None
        else
          let! ptCte := cdtFindWithExtra (cap_page_table_cap_new 0 0 obj) in
          kassert (negb (ptCte =? 0)) ;;;
          let! ptCap := getCap ptCte in
          match ptCap with
          | cap_page_table_cap pd pdIndex _ =>
              if pd =? 0 then kret None
              else kret (Some (pd, w32 (Z.lor (Z.shiftl pdIndex 20) (Z.shiftl idx 12))))
          | _ => kfail
          end
      else if obj =? 0 then kret None
      else kret (Some (obj, w32 (Z.shiftl idx 20)))
  | _ => kfail
  end.

Definition decode_page_flush (label length : Z) (cap : cap_t) (frameSize base buffer : Z) :
    K exception_t :=
  if length <? 2 then fail_syscall seL4_TruncatedMessage
  else
    let! at_ := mapped_at cap in
    match at_ with
    | None => fail_syscall seL4_IllegalOperation
    | Some (pd, vaddr) =>
        let! start := getSyscallArg 0 buffer in
        let! end_ := getSyscallArg 1 buffer in
        if end_ <=? start then invalid_arg 1
        else
          let! bits := kopt (pageBitsForSize frameSize) in
          let page_size := BIT bits in
          let page_base := addrFromPPtr base in
          if (page_size <=? start) || (page_size <? end_) then invalid_arg 0
          else
            restart_current ;;;
            performPageFlush label pd (w32 (start + vaddr)) (w32 (end_ + vaddr - 1))
              (w32 (page_base + start))
    end.

Definition decodeARMFrameInvocation (label length slot : Z) (cap : cap_t)
    (extraCaps : list Z) (buffer : Z) : K exception_t :=
  match cap with
  | cap_frame_cap _ _ frameSize _ _ base =>
      if label =? ARMPageMap then decode_page_map length slot cap extraCaps buffer
      else if label =? ARMPageUnmap then
        restart_current ;;;
        performPageInvocationUnmap cap slot
      else if (label =? ARMPageClean_Data) || (label =? ARMPageInvalidate_Data) ||
              (label =? ARMPageCleanInvalidate_Data) || (label =? ARMPageUnify_Instruction) then
        decode_page_flush label length cap frameSize base buffer
      else if label =? ARMPageGetAddress then
        restart_current ;;;
        performPageGetAddress base
      else fail_syscall seL4_IllegalOperation
  | _ => kfail
  end.

(** ** Page directories *)
Definition decodeARMPageDirectoryInvocation (label length cptr slot : Z) (cap : cap_t)
    (extraCaps : list Z) (buffer : Z) : K exception_t :=
  if (label =? ARMPDClean_Data) || (label =? ARMPDInvalidate_Data) ||
     (label =? ARMPDCleanInvalidate_Data) || (label =? ARMPDUnify_Instruction) then
    if length <? 2 then fail_syscall seL4_TruncatedMessage
    else
      let! start := getSyscallArg 0 buffer in
      let! end_ := getSyscallArg 1 buffer in
      if end_ <=? start then invalid_arg 1
      else if (kernelBase <=? start) || (kernelBase <? end_) then
        fail_syscall seL4_IllegalOperation
      else
        let! pd := kopt (match cap with cap_page_directory_cap pd => Some pd | _ => None end) in
        let! resolve_ret := resolveVAddr pd start in
        match resolve_ret with
        | None => restart_current ;;; kret EXCEPTION_NONE
        | Some (frameBase, frameSize) =>
            let! page1 := kopt (pageBase start frameSize) in
            let! page2 := kopt (pageBase (end_ - 1) frameSize) in
            let! bits := kopt (pageBitsForSize frameSize) in
            if negb (page1 =? page2) then range_error start (w32 (page1 + MASK bits))
            else
              let pstart := w32 (frameBase + Z.land start (MASK bits)) in
              restart_current ;;;
              performPDFlush label pd start (end_ - 1) pstart
        end
  else fail_syscall seL4_IllegalOperation.

Definition decodeARMMMUInvocation (label length cptr slot : Z) (cap : cap_t)
    (extraCaps : list Z) (buffer : Z) : K exception_t :=
  match cap with
  | cap_page_directory_cap _ =>
      decodeARMPageDirectoryInvocation label length cptr slot cap extraCaps buffer
  | cap_page_table_cap _ _ _ => decodeARMPageTableInvocation label length slot cap extraCaps buffer
  | cap_frame_cap _ _ _ _ _ _ => decodeARMFrameInvocation label length slot cap extraCaps buffer
  | _ => kfail
  end.

Definition Arch_decodeInvocation : Z → Z → Z → Z → cap_t → list Z → Z → K exception_t :=
  decodeARMMMUInvocation.
End Arm.
