(* ===== verification/Syscall.v ===== *)
(** * System calls and the kernel's entry points

    Models [src/api/syscall.c] and the dispatch of [decodeInvocation] in
    [src/object/objecttype.c].  Each entry handles its event, lets the
    scheduler pick a thread and activates it.  The [DEBUG], benchmark and
    code-injection branches of [handleUnknownSyscall] are compiled out. *)

From S2P Require Import Prelude.
From S2P Require Import Word32.
From S2P Require Import Structures.
From S2P Require Import State.
From S2P Require Import VSpace.
From S2P Require Import Sched.
From S2P Require Import CSpace.
From S2P Require Import Finalise.
From S2P Require Import Ipc.
From S2P Require Import Labels.
From S2P Require Import Untyped.
From S2P Require Import CNode.
From S2P Require Import Interrupt.
From S2P Require Import TcbInvocation.
From S2P Require Import ArmInvocation.

Inductive syscall_t : Type :=
| SysCall | SysReplyWait | SysSend | SysNBSend | SysWait | SysReply | SysYield | SysPoll.

Section Syscall.
Context {cfg : KernelConfig}.

(** ** Invocations *)
Definition performInvocation_Endpoint (ep badge : Z) (canGrant block call : bool) : K exception_t :=
  let! cur := gets ksCurThread in
  sendIPC block call badge canGrant cur ep ;;;
  kret EXCEPTION_NONE.

Definition performInvocation_AsyncEndpoint (aep badge : Z) : K exception_t :=
  sendAsyncIPC aep badge ;;;
  kret EXCEPTION_NONE.

Definition performInvocation_Reply (thread slot : Z) : K exception_t :=
  let! cur := gets ksCurThread in
  doReplyTransfer cur thread slot ;;;
  kret EXCEPTION_NONE.

Definition decodeInvocation (label length capIndex slot : Z) (cap : cap_t) (extraCaps : list Z)
    (block call : bool) (buffer : Z) : K exception_t :=
  match cap with
  | cap_frame_cap _ _ _ _ _ _ | cap_page_table_cap _ _ _ | cap_page_directory_cap _ =>
      Arch_decodeInvocation label length capIndex slot cap extraCaps buffer
  | cap_null_cap | cap_zombie_cap _ _ => invalid_cap 0
  | cap_endpoint_cap badge canGrant canSend _ ptr =>
      if negb canSend then invalid_cap 0
      else
        restart_current ;;;
        performInvocation_Endpoint ptr badge canGrant block call
  | cap_async_endpoint_cap badge _ canSend ptr =>
      if negb canSend then invalid_cap 0
      else
        restart_current ;;;
        performInvocation_AsyncEndpoint ptr badge
  | cap_reply_cap _ master thread =>
      if master then invalid_cap 0
      else
        restart_current ;;;
        performInvocation_Reply thread slot
  | cap_thread_cap _ => decodeTCBInvocation label length cap slot extraCaps call buffer
  | cap_domain_cap => decodeDomainInvocation label length extraCaps buffer
  | cap_cnode_cap _ _ _ _ => decodeCNodeInvocation label length cap extraCaps buffer
  | cap_untyped_cap _ _ _ => decodeUntypedInvocation label length slot cap extraCaps call buffer
  | cap_irq_control_cap => decodeIRQControlInvocation label length slot extraCaps buffer
  | cap_irq_handler_cap irq => decodeIRQHandlerInvocation label length irq extraCaps buffer
  end.

Definition handleInvocation (isCall isBlocking : bool) : K exception_t :=
  let! thread := gets ksCurThread in
  let! w := getRegister thread msgInfoRegister in
  let info := messageInfoFromWord w in
  let! cptr := getRegister thread capRegister in
  let! ' (status, cap, slot) := lookupCapAndSlot thread cptr in
  match status with
  | EXCEPTION_NONE =>
      let! buffer := lookupIPCBuffer false thread in
      let! status := lookupExtraCaps thread buffer info in
      match status with
      | EXCEPTION_NONE =>
          let length := message_info_get_msgLength info in
          let length := if (n_msgRegisters <? length) && (buffer =? 0)
                        then n_msgRegisters else length in
          let! caps := gets current_extra_caps in
          let! status := decodeInvocation (message_info_get_msgLabel info) length cptr slot cap
                           caps isBlocking isCall buffer in
          match status with
          | EXCEPTION_PREEMPTED => kret status
          | EXCEPTION_SYSCALL_ERROR =>
              kwhen isCall (replyFromKernel_error thread) ;;;
              kret EXCEPTION_NONE
          | _ =>
              let! ts := getTsType thread in
              kwhen (bool_decide (ts = ThreadState_Restart))
                (kwhen isCall (replyFromKernel_success_empty thread) ;;;
                 setThreadState thread ThreadState_Running) ;;;
              kret EXCEPTION_NONE
          end
      | _ =>
          kwhen isBlocking (handleFault thread) ;;;
          kret EXCEPTION_NONE
      end
  | _ =>
      modify (upd_current_fault (fault_cap_fault cptr false)) ;;;
      kwhen isBlocking (handleFault thread) ;;;
      kret EXCEPTION_NONE
  end.

(** ** Replying and waiting *)
Definition handleReply : K unit :=
  let! cur := gets ksCurThread in
  let callerSlot := TCB_PTR_CTE_PTR cur tcbCaller in
  let! callerCap := getCap callerSlot in
  match callerCap with
  | cap_reply_cap _ false caller =>
      kassert (negb (caller =? cur)) ;;;
      doReplyTransfer cur caller callerSlot
  | cap_null_cap => kret tt
  | _ => kfail
  end.

(** [current_lookup_fault = missing_capability(0); current_fault = ...]. *)
Definition fault_on_receive (epCPtr : Z) : K unit :=
  set_lookup_fault (lookup_fault_missing_capability_new 0) ;;;
  modify (upd_current_fault (fault_cap_fault epCPtr true)) ;;;
  let! cur := gets ksCurThread in
  handleFault cur.

Definition handleWait (isBlocking : bool) : K unit :=
  let! cur := gets ksCurThread in
  let! epCPtr := getRegister cur capRegister in
  let! ' (status, cap) := lookupCap cur epCPtr in
  match status with
  | EXCEPTION_NONE =>
      match cap with
      | cap_endpoint_cap _ _ _ canReceive _ =>
          if negb canReceive || negb isBlocking then fault_on_receive epCPtr
          else
            deleteCallerCap cur ;;;
            receiveIPC cur cap
      | cap_async_endpoint_cap _ canReceive _ aepptr =>
          let! aep := getAEP aepptr in
          let boundTCB := aepBoundTCB aep in
          if negb canReceive || (negb (boundTCB =? 0) && negb (boundTCB =? cur)) then
            fault_on_receive epCPtr
          else receiveAsyncIPC cur cap isBlocking
      | _ => fault_on_receive epCPtr
      end
  | _ =>
      modify (upd_current_fault (fault_cap_fault epCPtr true)) ;;;
      handleFault cur
  end.

Definition handleYield : K unit :=
  let! cur := gets ksCurThread in
  tcbSchedDequeue cur ;;;
  tcbSchedAppend cur ;;;
  rescheduleRequired.

(** ** Entry points *)
Definition finish : K exception_t :=
  schedule ;;;
  activateThread ;;;
  kret EXCEPTION_NONE.

(** An invocation that was preempted lets the pending interrupt in. *)
Definition invocation_event (isCall isBlocking : bool) : K unit :=
  let! ret := handleInvocation isCall isBlocking in
  kwhen (negb (bool_decide (ret = EXCEPTION_NONE)))
    (let! irq := getActiveIRQ in
     kwhen (negb (irq =? irqInvalid)) (handleInterrupt irq)).

Definition handleSyscall (syscall : syscall_t) : K exception_t :=
  match syscall with
  | SysSend => invocation_event false true
  | SysNBSend => invocation_event false false
  | SysCall => invocation_event true true
  | SysWait => handleWait true
  | SysReply => handleReply
  | SysReplyWait => handleReply ;;; handleWait true
  | SysPoll => handleWait false
  | SysYield => handleYield
  end ;;;
  finish.

Definition handleInterruptEntry : K exception_t :=
  let! irq := getActiveIRQ in
  (if negb (irq =? irqInvalid) then handleInterrupt irq
   else machine op_handleSpuriousIRQ) ;;;
  finish.

Definition handleUnknownSyscall (w : Z) : K exception_t :=
  modify (upd_current_fault (fault_unknown_syscall w)) ;;;
  let! cur := gets ksCurThread in
  handleFault cur ;;;
  finish.

Definition handleUserLevelFault (w_a w_b : Z) : K exception_t :=
  modify (upd_current_fault (fault_user_exception_new w_a w_b)) ;;;
  let! cur := gets ksCurThread in
  handleFault cur ;;;
  finish.

Definition handleVMFaultEvent (vm_faultType : vm_fault_type_t) : K exception_t :=
  let! cur := gets ksCurThread in
  let! status := handleVMFault cur vm_faultType in
  kwhen (negb (bool_decide (status = EXCEPTION_NONE))) (handleFault cur) ;;;
  finish.
End Syscall.
