(* ===== verification/Fastpath.v ===== *)
(** * The fast path

    Models [src/arch/arm/fastpath/fastpath.c]: a system call on the fast path
    first checks, without changing anything, that the common case holds, and
    goes to the slow path ([handleSyscall]) otherwise; past the checks it does
    the transfer itself.  The stores of whole words follow the layout of the
    bit fields ([structures.bf]): the words of a thread state are its endpoint
    and type, its queued bit, and the rest.  [fastpath_restore] gives the user
    the registers of the current thread with [r0] and [r1] replaced; the model
    records these two in the thread's context, where the slow path puts them. *)

From S2P Require Import Prelude.
From S2P Require Import Word32.
From S2P Require Import Structures.
From S2P Require Import State.
From S2P Require Import VSpace.
From S2P Require Import Sched.
From S2P Require Import CSpace.
From S2P Require Import Finalise.
From S2P Require Import Ipc.
From S2P Require Import Syscall.

(** ** Looking up a capability *)
Fixpoint lookup_fp_loop (fuel : nat) (radixBits ptr cptr bits : Z) : K cap_t :=
  match fuel with
  | O => kdiverge
  | S fuel =>
      let cptr2 := w32 (Z.shiftl cptr bits) in
      let radix := Z.shiftr cptr2 (32 - radixBits) in
      let slot := CTE_AT ptr radix in
      let! cap := getCap slot in
      let bits := bits + radixBits in
      match cap with
      | cap_cnode_cap radixBits' _ _ ptr' =>
          if bits <? 32 then lookup_fp_loop fuel radixBits' ptr' cptr bits else kret cap
      | _ => kret cap
      end
  end.

Definition lookup_fp (cap : cap_t) (cptr : Z) : K cap_t :=
  match cap with
  | cap_cnode_cap radixBits guardSize _ ptr => lookup_fp_loop 33 radixBits ptr cptr guardSize
  | _ => kret cap_null_cap_new
  end.

(** ** Stores of whole words *)

(** Word 0 of a thread state. *)
Definition thread_state_ptr_set_tsType_np (tsType : _thread_state) (st : thread_state_t) :
    thread_state_t :=
  thread_state (blockingIPCBadge st) (blockingIPCCanGrant st) (blockingIPCIsCall st)
    (tcbQueued st) (blockingIPCDiminishCaps st) 0 tsType.
Definition thread_state_ptr_mset_blockingIPCEndpoint_tsType (ep_ref : Z) (tsType : _thread_state)
    (st : thread_state_t) : thread_state_t :=
  thread_state (blockingIPCBadge st) (blockingIPCCanGrant st) (blockingIPCIsCall st)
    (tcbQueued st) (blockingIPCDiminishCaps st) (field_high 28 ep_ref) tsType.
(** Word 2 of a thread state. *)
Definition thread_state_ptr_set_blockingIPCDiminish_np (dim : bool) (st : thread_state_t) :
    thread_state_t :=
  thread_state 0 false false (tcbQueued st) dim (blockingIPCEndpoint st) (tsType st).

Definition cap_reply_cap_ptr_new_np (slot capCallerSlot : Z) : K unit :=
  setCap slot (cap_reply_cap (field_high 28 capCallerSlot) true 0).
Definition cap_reply_cap_ptr_new_np2 (slot : Z) (isMaster : bool) (capTCBPtr : Z) : K unit :=
  setCap slot (cap_reply_cap 0 isMaster (field_high 27 capTCBPtr)).

Definition endpoint_ptr_mset_epQueue_tail_state (tail state : Z) (ep : endpoint_t) : endpoint_t :=
  endpoint (epQueue_head ep) (field_high 28 tail) (field 2 state).
Definition endpoint_ptr_set_epQueue_head_np (head : Z) (ep : endpoint_t) : endpoint_t :=
  endpoint (field_high 28 head) (epQueue_tail ep) (ep_state ep).

(** ** The common steps *)
Definition messageInfoFromWord_raw (w : Z) : message_info_t := w.
Definition seL4_MsgLengthBits : Z := 7.
Definition seL4_MsgExtraCapBits : Z := 2.

Definition fastpath_mi_check (msgInfo : Z) : bool :=
  4 <? Z.land msgInfo (MASK (seL4_MsgLengthBits + seL4_MsgExtraCapBits)).

(** [if (length >= k) setRegister(dest, r, getRegister(src, r))] *)
Definition copy_mr (length k r src dest : Z) : K unit :=
  kwhen (k <=? length) (let! v := getRegister src r in setRegister dest r v).
Definition fastpath_copy_mrs (length src dest : Z) : K unit :=
  kassert (length <=? 4) ;;;
  copy_mr length 1 2 src dest ;;;
  copy_mr length 2 3 src dest ;;;
  copy_mr length 3 4 src dest ;;;
  copy_mr length 4 5 src dest.

Definition isValidVTableRoot_fp (pd_cap : cap_t) : bool :=
  match pd_cap with cap_page_directory_cap _ => true | _ => false end.
Definition cap_page_directory_cap_get_capPDBasePtr_np (pd_cap : cap_t) : option Z :=
  match pd_cap with cap_page_directory_cap base => Some base | _ => None end.

Definition armv_contextSwitch_HWASID (cap_pd hw_asid : Z) : K unit :=
  machine (op_setCurrentPD (addrFromPPtr cap_pd)) ;;;
  machine (op_setHardwareASID hw_asid).

Definition switchToThread_fp (thread cap_pd : Z) (stored_hw_asid : pde_t) : K unit :=
  let! ' (hw_asid, _) := kopt (pde_stored_asid stored_hw_asid) in
  armv_contextSwitch_HWASID cap_pd hw_asid ;;;
  let! t := getTCB thread in
  let! frame := gets armKSGlobalsFrame in
  setWord frame (tcbIPCBuffer t) ;;;
  modify (upd_ksCurThread thread) ;;;
  machine op_clearExMonitor.

Definition fastpath_restore (badge msgInfo cur_thread : Z) : K unit :=
  setRegister cur_thread msgInfoRegister msgInfo ;;;
  setRegister cur_thread badgeRegister badge.

(** [boundAsyncEndpoint && async_endpoint_ptr_get_state(...) == AEPState_Active] *)
Definition async_event_pending (t : tcb_t) : K bool :=
  if boundAsyncEndpoint t =? 0 then kret false
  else
    let! aep := getAEP (boundAsyncEndpoint t) in
    kret (aep_state aep =? AEPState_Active).

(** The page directory of a thread and the entry with its hardware ASID, when
    its address space is valid and the ASID assigned. *)
Definition address_space_fp (thread : Z) : K (option (Z * pde_t)) :=
  let! newVTable := getCap (TCB_PTR_CTE_PTR thread tcbVTable) in
  match cap_page_directory_cap_get_capPDBasePtr_np newVTable with
  | None => kret None
  | Some cap_pd =>
      let! stored_hw_asid := getPDE (PDE_AT cap_pd PD_ASID_SLOT) in
      let! ' (_, valid) := kopt (pde_stored_asid stored_hw_asid) in
      kret (if valid : bool then Some (cap_pd, stored_hw_asid) else None)
  end.

Section Fastpath.
Context {cfg : KernelConfig}.

(** Whether [thread] may be switched to directly from [cur]. *)
Definition can_schedule_fp (thread cur : Z) : K bool :=
  let! prio := getTCBf tcbPriority thread in
  let! curPrio := getTCBf tcbPriority cur in
  let! dom := getTCBf tcbDomain thread in
  let! curDom := gets ksCurDomain in
  kret (negb (prio <? curPrio) && negb ((1 <? CONFIG_NUM_DOMAINS) && negb (dom =? curDom))).

(** ** Call *)

(** What the checks of [fastpath_call] find. *)
Record call_plan : Type := CallPlan {
  call_ep : Z;
  call_badge : Z;
  call_dest : Z;
  call_pd : Z;
  call_asid : pde_t
}.

Definition fastpath_call_check (cptr msgInfo : Z) : K (option call_plan) :=
  let! cur := gets ksCurThread in
  let! t := getTCB cur in
  if fastpath_mi_check msgInfo || negb (fault_get_faultType (tcbFault t) =? 0) then kret None
  else
  let! pending := async_event_pending t in
  if pending : bool then kret None
  else
  let! root := getCap (TCB_PTR_CTE_PTR cur tcbCTable) in
  let! ep_cap := lookup_fp root cptr in
  match ep_cap with
  | cap_endpoint_cap badge canGrant true _ ep_ptr =>
      let! ep := getEP ep_ptr in
      let dest := epQueue_head ep in
      if negb (ep_state ep =? EPState_Recv) then kret None
      else
      let! space := address_space_fp dest in
      match space with
      | None => kret None
      | Some (cap_pd, stored_hw_asid) =>
          let! schedulable := can_schedule_fp dest cur in
          let! diminish := getTCBf (λ t, blockingIPCDiminishCaps (tcbState t)) dest in
          if negb schedulable || negb canGrant || diminish then kret None
          else kret (Some (CallPlan ep_ptr badge dest cap_pd stored_hw_asid))
      end
  | _ => kret None
  end.

(** Past the point of no return. *)
Definition fastpath_call_commit (msgInfo : Z) (p : call_plan) : K exception_t :=
  let info := message_info_set_msgCapsUnwrapped (messageInfoFromWord_raw msgInfo) 0 in
  let length := message_info_get_msgLength info in
  let dest := call_dest p in
  let! cur := gets ksCurThread in
  let! next := getTCBf tcbEPNext dest in
  updEP (call_ep p) (endpoint_ptr_set_epQueue_head_np next) ;;;
  (if negb (next =? 0) then updTCB next (set_tcbEPPrev 0)
   else updEP (call_ep p) (endpoint_ptr_mset_epQueue_tail_state 0 EPState_Idle)) ;;;
  updState (thread_state_ptr_set_tsType_np ThreadState_BlockedOnReply) cur ;;;
  let replySlot := TCB_PTR_CTE_PTR cur tcbReply in
  let callerSlot := TCB_PTR_CTE_PTR dest tcbCaller in
  cap_reply_cap_ptr_new_np2 callerSlot false cur ;;;
  cap_reply_cap_ptr_new_np replySlot callerSlot ;;;
  fastpath_copy_mrs length cur dest ;;;
  updState (thread_state_ptr_set_tsType_np ThreadState_Running) dest ;;;
  switchToThread_fp dest (call_pd p) (call_asid p) ;;;
  let! cur := gets ksCurThread in
  fastpath_restore (call_badge p) (wordFromMessageInfo info) cur ;;;
  kret EXCEPTION_NONE.

Definition fastpath_call (cptr msgInfo : Z) : K exception_t :=
  let! plan := fastpath_call_check cptr msgInfo in
  match plan with
  | Some p => fastpath_call_commit msgInfo p
  | None => handleSyscall SysCall
  end.

(** ** Reply and wait *)
Record reply_plan : Type := ReplyPlan {
  reply_ep : Z;
  reply_canSend : bool;
  reply_caller : Z;
  reply_pd : Z;
  reply_asid : pde_t
}.

Definition fastpath_reply_wait_check (cptr msgInfo : Z) : K (option reply_plan) :=
  let! cur := gets ksCurThread in
  let! t := getTCB cur in
  if fastpath_mi_check msgInfo || negb (fault_get_faultType (tcbFault t) =? 0) then kret None
  else
  let! root := getCap (TCB_PTR_CTE_PTR cur tcbCTable) in
  let! ep_cap := lookup_fp root cptr in
  match ep_cap with
  | cap_endpoint_cap _ _ canSend true ep_ptr =>
      let! pending := async_event_pending t in
      if pending : bool then kret None
      else
      let callerSlot := TCB_PTR_CTE_PTR cur tcbCaller in
      let! callerCap := getCap callerSlot in
      let! ep := getEP ep_ptr in
      if ep_state ep =? EPState_Send then kret None
      else if is_null callerCap then kret None
      else
      let! caller := kopt (match callerCap with cap_reply_cap _ _ t => Some t | _ => None end) in
      let! fault := getTCBf tcbFault caller in
      if negb (fault_get_faultType fault =? 0) then kret None
      else
      let! space := address_space_fp caller in
      match space with
      | None => kret None
      | Some (cap_pd, stored_hw_asid) =>
          let! schedulable := can_schedule_fp caller cur in
          if negb schedulable then kret None
          else kret (Some (ReplyPlan ep_ptr canSend caller cap_pd stored_hw_asid))
      end
  | _ => kret None
  end.

Definition fastpath_reply_wait_commit (msgInfo : Z) (p : reply_plan) : K exception_t :=
  let info := message_info_set_msgCapsUnwrapped (messageInfoFromWord_raw msgInfo) 0 in
  let length := message_info_get_msgLength info in
  let caller := reply_caller p in
  let! cur := gets ksCurThread in
  let callerSlot := TCB_PTR_CTE_PTR cur tcbCaller in
  let replySlot := TCB_PTR_CTE_PTR caller tcbReply in
  updState (thread_state_ptr_mset_blockingIPCEndpoint_tsType (reply_ep p)
              ThreadState_BlockedOnReceive) cur ;;;
  updState (thread_state_ptr_set_blockingIPCDiminish_np (negb (reply_canSend p))) cur ;;;
  let! ep := getEP (reply_ep p) in
  let endpointTail := epQueue_tail ep in
  (if endpointTail =? 0 then
     updTCB cur (set_tcbEPPrev 0) ;;;
     updEP (reply_ep p) (endpoint_ptr_set_epQueue_head_np cur)
   else
     updTCB endpointTail (set_tcbEPNext cur) ;;;
     updTCB cur (set_tcbEPPrev endpointTail)) ;;;
  updEP (reply_ep p) (endpoint_ptr_mset_epQueue_tail_state cur EPState_Recv) ;;;
  updTCB cur (set_tcbEPNext 0) ;;;
  cap_reply_cap_ptr_new_np replySlot 0 ;;;
  setCap callerSlot cap_null_cap_new ;;;
  fastpath_copy_mrs length cur caller ;;;
  updState (thread_state_ptr_set_tsType_np ThreadState_Running) caller ;;;
  switchToThread_fp caller (reply_pd p) (reply_asid p) ;;;
  let! cur := gets ksCurThread in
  fastpath_restore 0 (wordFromMessageInfo info) cur ;;;
  kret EXCEPTION_NONE.

Definition fastpath_reply_wait (cptr msgInfo : Z) : K exception_t :=
  let! plan := fastpath_reply_wait_check cptr msgInfo in
  match plan with
  | Some p => fastpath_reply_wait_commit msgInfo p
  | None => handleSyscall SysReplyWait
  end.

(** The entry of [traps.S]: the registers are saved in the current thread, and
    [r0] and [r1] are the arguments. *)
Definition arm_swi_syscall (syscall : syscall_t) : K exception_t :=
  let! cur := gets ksCurThread in
  let! r0 := getRegister cur 0 in
  let! r1 := getRegister cur 1 in
  match syscall with
  | SysCall => fastpath_call r0 r1
  | SysReplyWait => fastpath_reply_wait r0 r1
  | _ => handleSyscall syscall
  end.
End Fastpath.
