(* ===== verification/Partition.v ===== *)
(** * The partition layer of the process server

    Models [partition.c], [sched.c] and [port.c] of
    [src/projects/refos/impl/apps/process_server/src/system/partition/]: the
    two-level scheduler (a cyclic schedule of partitions, round robin between
    the threads of the partition in its slot), the set-up of partitions and
    threads, and sampling ports.  [deployment.h] is an instance of
    [PartConfig].  System calls the layer makes ([seL4_TCB_Suspend],
    [seL4_TCB_Resume]) and the loading of a program are events of a log.  The
    thread capabilities of the processes the server has loaded are a table of
    the state.  An access outside an array is a panic. *)

From Stdlib Require Import String.
From S2P Require Import Prelude.
From S2P Require Import Word32.

Inductive pok_state_t : Type :=
| POK_STATE_STOPPED | POK_STATE_RUNNABLE | POK_STATE_WAITING | POK_STATE_LOCK
| POK_STATE_WAIT_NEXT_ACTIVATION | POK_STATE_DELAYED_START.
#[export] Instance pok_state_eq_dec : EqDecision pok_state_t.
Proof. solve_decision. Defined.

Inductive pok_partition_mode_t : Type :=
| PART_MODE_COLD_START | PART_MODE_WARM_START | PART_MODE_NORMAL
| PART_MODE_IDLE | PART_MODE_RESTART | PART_MODE_STOPPED.
#[export] Instance pok_partition_mode_eq_dec : EqDecision pok_partition_mode_t.
Proof. solve_decision. Defined.

Inductive pok_ret_t : Type :=
| POK_ERRNO_OK | POK_ERRNO_EINVAL | POK_ERRNO_TOOMANY | POK_ERRNO_EXISTS | POK_ERRNO_PORT
| POK_ERRNO_NOTFOUND | POK_ERRNO_SIZE | POK_ERRNO_EMPTY | POK_ERRNO_MODE
| POK_ERRNO_PARTITION_MODE.
#[export] Instance pok_ret_eq_dec : EqDecision pok_ret_t.
Proof. solve_decision. Defined.

(** ** Data *)
Record partition : Type := Partition {
  p_index : Z;
  p_mode : pok_partition_mode_t;
  lock_level : Z;
  low : Z;
  high : Z;
  thread_index : Z;
  nthreads : Z;
  activation : Z;
  prev_thread : Z;
  p_current_thread : Z;
  thread_main : Z;
}.
Record process : Type := Process {
  p_status : pok_state_t;
  p_partition : Z;
  prio : Z;
  base_priority : Z;
  timecap : Z;
  period : Z;
  p_deadline : Z;
  remaining_time_capacity : Z;
  next_activation : Z;
  end_time : Z;
  wakeup_time : Z;
  ktcb : Z;
}.
Definition zero_partition : partition := Partition 0 PART_MODE_STOPPED 0 0 0 0 0 0 0 0 0.
Definition zero_process : process := Process POK_STATE_STOPPED 0 0 0 0 0 0 0 0 0 0 0.

Definition set_mode (m : pok_partition_mode_t) (p : partition) : partition :=
  Partition (p_index p) m (lock_level p) (low p) (high p) (thread_index p) (nthreads p)
    (activation p) (prev_thread p) (p_current_thread p) (thread_main p).
Definition set_thread_index (i : Z) (p : partition) : partition :=
  Partition (p_index p) (p_mode p) (lock_level p) (low p) (high p) i (nthreads p)
    (activation p) (prev_thread p) (p_current_thread p) (thread_main p).
Definition set_threads (prev cur : Z) (p : partition) : partition :=
  Partition (p_index p) (p_mode p) (lock_level p) (low p) (high p) (thread_index p) (nthreads p)
    (activation p) prev cur (thread_main p).

Definition set_status (s : pok_state_t) (t : process) : process :=
  Process s (p_partition t) (prio t) (base_priority t) (timecap t) (period t) (p_deadline t)
    (remaining_time_capacity t) (next_activation t) (end_time t) (wakeup_time t) (ktcb t).
Definition set_remaining (r : Z) (t : process) : process :=
  Process (p_status t) (p_partition t) (prio t) (base_priority t) (timecap t) (period t)
    (p_deadline t) r (next_activation t) (end_time t) (wakeup_time t) (ktcb t).
Definition set_next_activation (n : Z) (t : process) : process :=
  Process (p_status t) (p_partition t) (prio t) (base_priority t) (timecap t) (period t)
    (p_deadline t) (remaining_time_capacity t) n (end_time t) (wakeup_time t) (ktcb t).
Definition set_end_time (n : Z) (t : process) : process :=
  Process (p_status t) (p_partition t) (prio t) (base_priority t) (timecap t) (period t)
    (p_deadline t) (remaining_time_capacity t) (next_activation t) n (wakeup_time t) (ktcb t).
Definition set_wakeup_time (n : Z) (t : process) : process :=
  Process (p_status t) (p_partition t) (prio t) (base_priority t) (timecap t) (period t)
    (p_deadline t) (remaining_time_capacity t) (next_activation t) (end_time t) n (ktcb t).
Definition set_ktcb (c : Z) (t : process) : process :=
  Process (p_status t) (p_partition t) (prio t) (base_priority t) (timecap t) (period t)
    (p_deadline t) (remaining_time_capacity t) (next_activation t) (end_time t) (wakeup_time t) c.

Definition POK_PORT_MAX_SIZE : Z := 512.
Definition POK_PORT_DIRECTION_IN : Z := 1.
Definition POK_PORT_DIRECTION_OUT : Z := 2.
Definition POK_PORT_KIND_SAMPLING : Z := 2.
Definition POK_PORT_KIND_INVALID : Z := 10.

(** A byte of a buffer that was never written is [None]. *)
Record pok_port_t : Type := Port {
  port_partition : Z;
  port_index : Z;
  port_full : bool;
  port_size : Z;
  port_direction : Z;
  port_ready : bool;
  port_empty : bool;
  port_kind : Z;
  refresh : Z;
  last_receive : Z;
  must_be_flushed : bool;
  port_data : list (option Z);
}.
Definition zero_port : pok_port_t := Port 0 0 false 0 0 false false 0 0 0 false [].

(** Events of the log. *)
Inductive pok_event : Type :=
| ev_suspend (ktcb : Z)
| ev_resume (ktcb : Z)
| ev_set_priority (ktcb prio : Z)
| ev_proc_load (name : string) (prio : Z).

(** ** The deployment *)
Class PartConfig : Type := {
  POK_CONFIG_NB_THREADS : Z;
  POK_CONFIG_NB_PARTITIONS : Z;
  POK_CONFIG_PARTITIONS_NTHREADS : list Z;
  main_array : list Z;
  main_name : list string;
  prio_array : list Z;
  period_array : list Z;
  time_array : list Z;
  pok_sched_slots : list Z;
  pok_sched_slots_allocation : list Z;
  POK_CONFIG_SCHEDULING_MAJOR_FRAME : Z;
  CONFIG_PCB_OFFSET : Z;
  POK_CONFIG_NB_PORTS : Z;
  POK_CONFIG_PARTITIONS_PORTS : list Z;
  pok_ports_names : list string;
  pok_ports_identifiers : list Z;
  pok_ports_nb_destinations : list Z;
  pok_ports_kind : list Z
}.

Definition deployment : PartConfig := {|
  POK_CONFIG_NB_THREADS := 5;
  POK_CONFIG_NB_PARTITIONS := 2;
  POK_CONFIG_PARTITIONS_NTHREADS := [2; 3];
  main_array := [0; 2];
  main_name := ["fileserv/hello_world"; "fileserv/hello_world2"]%string;
  prio_array := [100; 100; 100; 100; 100];
  period_array := [1000; 1000; 1000; 1000; 1000];
  time_array := [1000; 1000; 1000; 1000; 1000];
  pok_sched_slots := [1000; 1000];
  pok_sched_slots_allocation := [0; 1];
  POK_CONFIG_SCHEDULING_MAJOR_FRAME := 2000;
  CONFIG_PCB_OFFSET := 3;
  POK_CONFIG_NB_PORTS := 2;
  POK_CONFIG_PARTITIONS_PORTS := [0; 1];
  pok_ports_names := ["dataout"; "datain"]%string;
  pok_ports_identifiers := [0; 1];
  pok_ports_nb_destinations := [1; 0];
  pok_ports_kind := [POK_PORT_KIND_SAMPLING; POK_PORT_KIND_SAMPLING]
|}.

(** ** State *)
Record pok_state : Type := PokState {
  part_array : list partition;
  proc_array : list process;
  pok_ports : list pok_port_t;
  current_partition : Z;
  current_thread : Z;
  pok_tick_counter : Z;
  pok_sched_next_deadline : Z;
  pok_sched_next_major_frame : Z;
  pok_sched_current_slot : Z;
  proc_tcbs : gmap (Z * Z) Z;
  pok_log : list pok_event;
}.
Definition P (A : Type) : Type := M pok_state A.

Definition upd_part_array (v : list partition) (s : pok_state) : pok_state :=
  PokState v (proc_array s) (pok_ports s) (current_partition s) (current_thread s)
    (pok_tick_counter s) (pok_sched_next_deadline s) (pok_sched_next_major_frame s)
    (pok_sched_current_slot s) (proc_tcbs s) (pok_log s).
Definition upd_proc_array (v : list process) (s : pok_state) : pok_state :=
  PokState (part_array s) v (pok_ports s) (current_partition s) (current_thread s)
    (pok_tick_counter s) (pok_sched_next_deadline s) (pok_sched_next_major_frame s)
    (pok_sched_current_slot s) (proc_tcbs s) (pok_log s).
Definition upd_pok_ports (v : list pok_port_t) (s : pok_state) : pok_state :=
  PokState (part_array s) (proc_array s) v (current_partition s) (current_thread s)
    (pok_tick_counter s) (pok_sched_next_deadline s) (pok_sched_next_major_frame s)
    (pok_sched_current_slot s) (proc_tcbs s) (pok_log s).
Definition upd_current (part thread : Z) (s : pok_state) : pok_state :=
  PokState (part_array s) (proc_array s) (pok_ports s) part thread
    (pok_tick_counter s) (pok_sched_next_deadline s) (pok_sched_next_major_frame s)
    (pok_sched_current_slot s) (proc_tcbs s) (pok_log s).
Definition upd_tick (v : Z) (s : pok_state) : pok_state :=
  PokState (part_array s) (proc_array s) (pok_ports s) (current_partition s) (current_thread s)
    v (pok_sched_next_deadline s) (pok_sched_next_major_frame s)
    (pok_sched_current_slot s) (proc_tcbs s) (pok_log s).
Definition upd_schedule (deadline frame slot : Z) (s : pok_state) : pok_state :=
  PokState (part_array s) (proc_array s) (pok_ports s) (current_partition s) (current_thread s)
    (pok_tick_counter s) deadline frame slot (proc_tcbs s) (pok_log s).
Definition upd_pok_log (v : list pok_event) (s : pok_state) : pok_state :=
  PokState (part_array s) (proc_array s) (pok_ports s) (current_partition s) (current_thread s)
    (pok_tick_counter s) (pok_sched_next_deadline s) (pok_sched_next_major_frame s)
    (pok_sched_current_slot s) (proc_tcbs s) v.

(** [a[i]] in the arrays of the state. *)
Definition getPart (i : Z) : P partition := λ s,
  match znth (part_array s) i with Some p => Ok p s | None => Panic end.
Definition updPart (i : Z) (f : partition → partition) : P unit := λ s,
  match znth (part_array s) i with
  | Some p => Ok tt (upd_part_array (<[Z.to_nat i := f p]> (part_array s)) s)
  | None => Panic
  end.
Definition getProc (i : Z) : P process := λ s,
  match znth (proc_array s) i with Some p => Ok p s | None => Panic end.
Definition updProc (i : Z) (f : process → process) : P unit := λ s,
  match znth (proc_array s) i with
  | Some p => Ok tt (upd_proc_array (<[Z.to_nat i := f p]> (proc_array s)) s)
  | None => Panic
  end.
Definition getPort (i : Z) : P pok_port_t := λ s,
  match znth (pok_ports s) i with Some p => Ok p s | None => Panic end.
Definition updPort (i : Z) (f : pok_port_t → pok_port_t) : P unit := λ s,
  match znth (pok_ports s) i with
  | Some p => Ok tt (upd_pok_ports (<[Z.to_nat i := f p]> (pok_ports s)) s)
  | None => Panic
  end.
Definition syscall (e : pok_event) : P unit := modify (λ s, upd_pok_log (e :: pok_log s) s).
Definition getCurPart : P Z := gets current_partition.

Definition runnable (t : process) : bool := bool_decide (p_status t = POK_STATE_RUNNABLE).
Definition indices (n : Z) : list Z := Z.of_nat <$> seq 0 (Z.to_nat n).

Section Partition.
Context {pc : PartConfig}.

Definition IDLE_THREAD : Z := POK_CONFIG_NB_THREADS.
Definition KERNEL_THREAD : Z := POK_CONFIG_NB_THREADS + 1.
Definition NBSLOTS : Z := Z.of_nat (List.length pok_sched_slots).

(** ** The scheduler ([sched.c]) *)
Definition pok_sched_context_switch (last new : Z) : P unit :=
  kwhen (negb (last =? new))
    (let! l := getProc last in
     kwhen (negb (ktcb l =? 0)) (syscall (ev_suspend (ktcb l))) ;;;
     let! n := getProc new in
     kwhen (negb (ktcb n =? 0)) (syscall (ev_resume (ktcb n)))).

Definition pok_elect_partition : P Z :=
  let! cur := getCurPart in
  let! now := gets pok_tick_counter in
  let! deadline := gets pok_sched_next_deadline in
  if deadline <=? now then
    let! frame := gets pok_sched_next_major_frame in
    let frame := if frame <=? now then w64 (frame + POK_CONFIG_SCHEDULING_MAJOR_FRAME) else frame in
    let! slot := gets pok_sched_current_slot in
    let slot := (slot + 1) mod NBSLOTS in
    let! len := kopt (znth pok_sched_slots slot) in
    modify (upd_schedule (w64 (deadline + len)) frame slot) ;;;
    kopt (znth pok_sched_slots_allocation slot)
  else kret cur.

(** Threads whose delay or period has elapsed become runnable. *)
Definition wake_thread (now : Z) (t : process) : process :=
  let t := if bool_decide (p_status t = POK_STATE_WAITING) && (wakeup_time t <=? now)
           then set_status POK_STATE_RUNNABLE t else t in
  if bool_decide (p_status t = POK_STATE_WAIT_NEXT_ACTIVATION) && (next_activation t <=? now)
  then set_next_activation (w64 (next_activation t + period t))
         (set_remaining (timecap t) (set_status POK_STATE_RUNNABLE t))
  else t.

(** The thread that ran pays for the tick. *)
Definition charge_thread (t : process) : process :=
  if 0 <? remaining_time_capacity t then
    let t := set_remaining (remaining_time_capacity t - 1) t in
    if remaining_time_capacity t <=? 0 then set_status POK_STATE_WAIT_NEXT_ACTIVATION t else t
  else set_status POK_STATE_WAIT_NEXT_ACTIVATION t.

Fixpoint rr_loop (fuel : nat) (index_low index_high from res : Z) : P Z :=
  match fuel with
  | O => kdiverge
  | S fuel =>
      let res := res + 1 in
      let res := if index_high <? res then index_low else res in
      let! t := getProc res in
      if negb (res =? from) && negb (runnable t) then rr_loop fuel index_low index_high from res
      else kret res
  end.

Definition pok_sched_part_rr (index_low index_high prev_thread current_thread : Z) : P Z :=
  let res := if current_thread =? IDLE_THREAD then prev_thread else current_thread in
  let from := res in
  let! t := getProc current_thread in
  if (0 <? remaining_time_capacity t) && runnable t then kret current_thread
  else
    let! n := gets (λ s, S (List.length (proc_array s))) in
    let! res := rr_loop n index_low index_high from res in
    let! t := getProc res in
    if (res =? from) && negb (runnable t) then kret IDLE_THREAD else kret res.

(** The threads of [part] in turn. *)
Definition each_thread (l n : Z) (f : process → process) : P unit :=
  kfor (indices n) (λ i, updProc (l + i) f).

Definition pok_elect_thread (new_partition_id : Z) : P Z :=
  let! now := gets pok_tick_counter in
  let! new_partition := getPart new_partition_id in
  each_thread (low new_partition) (nthreads new_partition) (wake_thread now) ;;;
  let! elected :=
    match p_mode new_partition with
    | PART_MODE_WARM_START | PART_MODE_COLD_START => kret (thread_main new_partition)
    | PART_MODE_NORMAL =>
        let! cur := gets current_thread in
        let! curp := getCurPart in
        let! cp := getPart curp in
        kwhen (negb (cur =? IDLE_THREAD) && negb (cur =? thread_main cp))
          (updProc cur charge_thread) ;;;
        pok_sched_part_rr (low new_partition) (high new_partition) (prev_thread new_partition)
          (p_current_thread new_partition)
    | _ => kret IDLE_THREAD
    end in
  updProc elected (λ t, set_end_time (w64 (now + remaining_time_capacity t)) t) ;;;
  kret elected.

Definition pok_sched : P unit :=
  let! last_thread := gets current_thread in
  let! elected_partition := pok_elect_partition in
  let! elected_thread := pok_elect_thread elected_partition in
  modify (upd_current elected_partition elected_thread) ;;;
  let! part := getPart elected_partition in
  kwhen (negb (p_current_thread part =? elected_thread))
    (updPart elected_partition (λ p,
       set_threads (if negb (p_current_thread p =? IDLE_THREAD) then p_current_thread p
                    else prev_thread p) elected_thread p)) ;;;
  pok_sched_context_switch last_thread elected_thread.

(** One round of [scheduler_thread]: the timer fired. *)
Definition scheduler_tick : P unit :=
  modify (λ s, upd_tick (w64 (pok_tick_counter s + 1)) s) ;;;
  pok_sched.

Fixpoint ticks (n : nat) : P unit :=
  match n with
  | O => kret tt
  | S n => scheduler_tick ;;; ticks n
  end.
(** The first [n] rounds of [scheduler_thread]. *)
Definition scheduler_thread (n : nat) : P unit :=
  modify (λ s, upd_current 0 (current_thread s) s) ;;;
  ticks n.

(** A bad configuration makes the start-up loop for ever. *)
Definition sched_init : P unit :=
  let total_time := w64 (foldr Z.add 0 pok_sched_slots) in
  if negb (total_time =? POK_CONFIG_SCHEDULING_MAJOR_FRAME) then kdiverge
  else
    let! deadline := kopt (znth pok_sched_slots 0) in
    let! part := kopt (znth pok_sched_slots_allocation 0) in
    modify (upd_schedule deadline POK_CONFIG_SCHEDULING_MAJOR_FRAME 0) ;;;
    modify (λ s, upd_current part (current_thread s) s).

(** ** Partitions and threads ([partition.c]) *)
Definition get_tcb_cptr_from_pid (pid tid : Z) : P Z := λ s,
  match proc_tcbs s !! (pid, tid) with Some c => Ok c s | None => Panic end.

Definition setup_main_thread (id part_id : Z) : P unit :=
  updProc id (λ t, Process POK_STATE_RUNNABLE part_id 1 1 0 0 (p_deadline t) 0 0 (end_time t) 0 (ktcb t)) ;;;
  let! name := kopt (znth main_name part_id) in
  syscall (ev_proc_load name 1).

Definition setup_main_thread_ktcb (proc_id part_id : Z) : P unit :=
  let! c := get_tcb_cptr_from_pid (part_id + CONFIG_PCB_OFFSET) 0 in
  updProc proc_id (set_ktcb c).

Definition init_partition (i threads_index : Z) : P Z :=
  let! n := kopt (znth POK_CONFIG_PARTITIONS_NTHREADS i) in
  let! main := kopt (znth main_array i) in
  let h := w32 (threads_index + n - 1) in
  updPart i (λ p, Partition (n mod 256) PART_MODE_WARM_START 0 threads_index h 1 n 0
                    IDLE_THREAD main main) ;;;
  setup_main_thread main i ;;;
  setup_main_thread_ktcb main i ;;;
  let! t := getProc main in
  kassert (negb (ktcb t =? 0)) ;;;
  syscall (ev_suspend (ktcb t)) ;;;
  kret (h + 1).

Fixpoint init_partitions (is_ : list Z) (threads_index : Z) : P unit :=
  match is_ with
  | [] => kret tt
  | i :: is_ =>
      let! next := init_partition i threads_index in
      init_partitions is_ next
  end.
Definition partition_init : P unit := init_partitions (indices POK_CONFIG_NB_PARTITIONS) 0.

Definition init_idle_thread : P unit :=
  updProc IDLE_THREAD (λ t,
    Process POK_STATE_RUNNABLE (p_partition t) (prio t) 0 0 0 0 0 0 (end_time t) 0 0).
Definition init_kernel_thread : P unit :=
  updProc KERNEL_THREAD (λ t,
    Process POK_STATE_RUNNABLE (p_partition t) 0 0 (timecap t) (period t) (p_deadline t)
      (remaining_time_capacity t) 0 (end_time t) (wakeup_time t) (ktcb t)).

Definition process_init : P unit :=
  init_idle_thread ;;;
  init_kernel_thread ;;;
  kfor (indices POK_CONFIG_NB_THREADS) (λ i,
    let! pr := kopt (znth prio_array i) in
    let! per := kopt (znth period_array i) in
    let! tm := kopt (znth time_array i) in
    updProc i (λ t, Process POK_STATE_STOPPED (p_partition t) pr pr tm per 0 tm per 0 0 (ktcb t))).

Definition pok_partition_thread_create (partition_id : Z) : P (pok_ret_t * Z) :=
  let! p := getPart partition_id in
  if negb (bool_decide (p_mode p = PART_MODE_COLD_START)) &&
     negb (bool_decide (p_mode p = PART_MODE_WARM_START)) then kret (POK_ERRNO_MODE, 0)
  else if high p <? thread_index p then kret (POK_ERRNO_TOOMANY, 0)
  else
    let id := low p + thread_index p in
    updPart partition_id (set_thread_index (thread_index p + 1)) ;;;
    let! pr := kopt (znth prio_array id) in
    let! per := kopt (znth period_array id) in
    let! tm := kopt (znth time_array id) in
    let! cur := getCurPart in
    updProc id (λ t, Process POK_STATE_RUNNABLE cur pr pr tm per (p_deadline t) tm per
                       (end_time t) 0 (ktcb t)) ;;;
    let! cp := getPart cur in
    let! c := get_tcb_cptr_from_pid (cur + CONFIG_PCB_OFFSET) (id - low cp) in
    updProc id (set_ktcb c) ;;;
    kassert (0 <? c) ;;;
    syscall (ev_suspend c) ;;;
    kret (POK_ERRNO_OK, id).

Definition INFINITE_TIME : Z := 2 ^ 64 - 1.
(** What entering normal mode does to one thread. *)
Definition start_thread (now act : Z) (t : process) : process :=
  if bool_decide (p_status t = POK_STATE_DELAYED_START) then
    if period t =? INFINITE_TIME then
      let st := if wakeup_time t =? 0 then POK_STATE_RUNNABLE else POK_STATE_WAITING in
      let wake := w64 (wakeup_time t + now) in
      set_end_time (w64 (wake + timecap t)) (set_wakeup_time wake (set_status st t))
    else
      let next := w64 (wakeup_time t + POK_CONFIG_SCHEDULING_MAJOR_FRAME + act) in
      set_status POK_STATE_WAIT_NEXT_ACTIVATION
        (set_end_time (w64 (next + timecap t)) (set_next_activation next t))
  else t.

Definition pok_partition_set_mode (pid : Z) (mode : pok_partition_mode_t) : P pok_ret_t :=
  match mode with
  | PART_MODE_NORMAL =>
      let! cur := gets current_thread in
      let! curp := getCurPart in
      let! cp := getPart curp in
      if negb (cur =? thread_main cp) then kret POK_ERRNO_PARTITION_MODE
      else
        updPart pid (set_mode mode) ;;;
        let! p := getPart pid in
        let! now := gets pok_tick_counter in
        each_thread (low cp) (nthreads p) (start_thread now (activation cp)) ;;;
        updProc (thread_main p) (set_status POK_STATE_STOPPED) ;;;
        pok_sched ;;;
        kret POK_ERRNO_OK
  | _ => kret POK_ERRNO_PARTITION_MODE
  end.

(** ** Sampling ports ([port.c]) *)
Definition port_init : P unit :=
  kfor (indices POK_CONFIG_NB_PORTS) (λ i, updPort i (λ p,
    Port (port_partition p) 0 false 0 (port_direction p) false true POK_PORT_KIND_INVALID (refresh p) 0
      false (port_data p))).

Definition pok_own_port (part port : Z) : option bool :=
  if POK_CONFIG_NB_PORTS <? port then Some false
  else let? owner := znth POK_CONFIG_PARTITIONS_PORTS port in Some (owner =? part).

Fixpoint find_port (is_ : list Z) (part : Z) (name : string) : option (pok_ret_t * Z) :=
  match is_ with
  | [] => Some (POK_ERRNO_NOTFOUND, 0)
  | i :: is_ =>
      let? pname := znth pok_ports_names i in
      let? kind := znth pok_ports_kind i in
      if String.eqb name pname && (kind =? POK_PORT_KIND_SAMPLING) then
        let? own := pok_own_port part i in
        Some (if own then (POK_ERRNO_OK, i) else (POK_ERRNO_PORT, 0))
      else find_port is_ part name
  end.
Definition pok_port_sampling_id (name : string) : P (pok_ret_t * Z) :=
  let! part := getCurPart in
  kopt (find_port (indices POK_CONFIG_NB_PORTS) part name).

Definition pok_port_create (name : string) (size direction kind : Z) : P (pok_ret_t * Z) :=
  if POK_PORT_MAX_SIZE <? size then kret (POK_ERRNO_PORT, 0)
  else if negb (direction =? POK_PORT_DIRECTION_IN) && negb (direction =? POK_PORT_DIRECTION_OUT)
  then kret (POK_ERRNO_PORT, 0)
  else if negb (kind =? POK_PORT_KIND_SAMPLING) then kret (POK_ERRNO_EINVAL, 0)
  else
    let! ' (ret, gid) := pok_port_sampling_id name in
    match ret with
    | POK_ERRNO_OK =>
        let! p := getPort gid in
        if port_ready p then kret (POK_ERRNO_EXISTS, gid)
        else
          let! index := kopt (znth pok_ports_identifiers gid) in
          let! part := getCurPart in
          updPort gid (λ p, Port part index false size direction true (port_empty p) kind
                              (refresh p) (last_receive p) (must_be_flushed p) (repeat None (Z.to_nat size))) ;;;
          kret (POK_ERRNO_OK, gid)
    | _ => kret (ret, 0)
    end.

Definition pok_port_get (pid size : Z) : P pok_ret_t :=
  let! p := getPort pid in
  if port_kind p =? POK_PORT_KIND_SAMPLING then
    if port_empty p then kret POK_ERRNO_EMPTY
    else if port_size p <? size then kret POK_ERRNO_SIZE
    else
      let temp := take (Z.to_nat size) (port_data p) ++ [None] in
      let! temp := kopt (store temp (size + 1) (Some 0)) in
      kret POK_ERRNO_OK
  else kret POK_ERRNO_EINVAL.

(** [data] is the caller's buffer, of which [size] bytes are sent. *)
Definition pok_port_write (pid : Z) (data : list Z) (size : Z) : P pok_ret_t :=
  let! dest := kopt (znth pok_ports_nb_destinations pid) in
  let! p := getPort pid in
  if port_kind p =? POK_PORT_KIND_SAMPLING then
    let! d := getPort dest in
    if port_size d <? size then kret POK_ERRNO_SIZE
    else
      let! now := gets pok_tick_counter in
      let n := Z.to_nat size in
      updPort dest (λ d, Port (port_partition d) (port_index d) (port_full d) (port_size d)
        (port_direction d) (port_ready d) false (port_kind d) (refresh d) (w32 now) (must_be_flushed d)
        (map Some (take n data) ++ drop n (port_data d))) ;;;
      kret POK_ERRNO_OK
  else kret POK_ERRNO_EINVAL.
End Partition.

(** ** Start-up ([partinit.c])

    [boot_state tcbs] is the zeroed memory of the server after its programs
    were loaded, [tcbs] being their thread capabilities; [system_init] is the
    part of [system_init] after the system servers started. *)
Definition boot_state {pc : PartConfig} (tcbs : gmap (Z * Z) Z) : pok_state :=
  PokState (repeat zero_partition (Z.to_nat POK_CONFIG_NB_PARTITIONS))
    (repeat zero_process (Z.to_nat (POK_CONFIG_NB_THREADS + 2)))
    (repeat zero_port (Z.to_nat POK_CONFIG_NB_PORTS)) 0 IDLE_THREAD 0 0 0 0 tcbs [].
Definition system_init {pc : PartConfig} : P unit :=
  partition_init ;;; process_init ;;; sched_init ;;; port_init.
