(* ===== verification/PartitionInv.v ===== *)
(** * Invariants of the partition scheduler

    The shape of the tables of partitions and threads, the round-robin loop as
    a search in a list, and the effect of electing a thread. *)

From S2P Require Import Prelude.
From S2P Require Import Word32.
From S2P Require Import Partition.

(** [zrange a b] is [a; a+1; ...; b]. *)
Definition zrange (a b : Z) : list Z := (λ i, a + Z.of_nat i) <$> seq 0 (Z.to_nat (b - a + 1)).

Lemma zrange_nil a b : b < a → zrange a b = [].
Proof. intros H. unfold zrange. by replace (Z.to_nat (b - a + 1)) with 0%nat by lia. Qed.

Lemma zrange_cons a b : a ≤ b → zrange a b = a :: zrange (a + 1) b.
Proof.
  intros H. unfold zrange.
  replace (Z.to_nat (b - a + 1)) with (S (Z.to_nat (b - (a + 1) + 1))) by lia.
  cbn [seq fmap list_fmap]. f_equal; [lia|].
  rewrite <- fmap_S_seq, <- list_fmap_compose. apply list_fmap_ext. intros i x _. cbn. lia.
Qed.

Lemma elem_of_zrange x a b : x ∈ zrange a b ↔ a ≤ x ≤ b.
Proof.
  unfold zrange. rewrite list_elem_of_fmap. split.
  - intros (i & -> & Hi%elem_of_seq). lia.
  - intros H. exists (Z.to_nat (x - a)). split; [lia|]. apply elem_of_seq. lia.
Qed.

Lemma find_elem {A} (f : A → bool) l x : find f l = Some x → x ∈ l ∧ f x = true.
Proof. intros [H1 H2]%find_some. by rewrite list_elem_of_In. Qed.
Lemma find_no_elem {A} (f : A → bool) l : find f l = None → ∀ x, x ∈ l → f x = false.
Proof. intros H x Hx%list_elem_of_In. by apply (find_none f l H). Qed.

(** ** Accesses *)
Lemma getPart_Ok i p s : znth (part_array s) i = Some p → getPart i s = Ok p s.
Proof. unfold getPart. by intros ->. Qed.
Lemma getProc_Ok i p s : znth (proc_array s) i = Some p → getProc i s = Ok p s.
Proof. unfold getProc. by intros ->. Qed.
Lemma updProc_Ok i f p s :
  znth (proc_array s) i = Some p →
  updProc i f s = Ok tt (upd_proc_array (<[Z.to_nat i := f p]> (proc_array s)) s).
Proof. unfold updProc. by intros ->. Qed.
Lemma updPart_Ok i f p s :
  znth (part_array s) i = Some p →
  updPart i f s = Ok tt (upd_part_array (<[Z.to_nat i := f p]> (part_array s)) s).
Proof. unfold updPart. by intros ->. Qed.
Lemma getPort_Ok i p s : znth (pok_ports s) i = Some p → getPort i s = Ok p s.
Proof. unfold getPort. by intros ->. Qed.
Lemma updPort_Ok i f p s :
  znth (pok_ports s) i = Some p →
  updPort i f s = Ok tt (upd_pok_ports (<[Z.to_nat i := f p]> (pok_ports s)) s).
Proof. unfold updPort. by intros ->. Qed.

(** A run of the loop over the threads of a partition. *)
Lemma each_thread_aux l f a n s :
  0 ≤ l → l + Z.of_nat (a + n) ≤ Z.of_nat (length (proc_array s)) →
  ∃ ps, kfor (Z.of_nat <$> seq a n) (λ i, updProc (l + i) f) s = Ok tt (upd_proc_array ps s) ∧
    length ps = length (proc_array s) ∧
    ∀ i, znth ps i = if decide (l + Z.of_nat a ≤ i < l + Z.of_nat (a + n))
                     then f <$> znth (proc_array s) i else znth (proc_array s) i.
Proof.
  revert a s. induction n as [|n IH]; intros a s Hl Hlen.
  - exists (proc_array s). split; [by destruct s|]. split; [done|]. intros i.
    case_decide; [lia|done].
  - cbn [seq fmap list_fmap kfor].
    destruct (proj1 (znth_range (proc_array s) (l + Z.of_nat a))) as [p Hp]; [lia|].
    rewrite (kbind_Ok _ _ _ _ _ (updProc_Ok _ f _ _ Hp)).
    destruct (IH (S a) (upd_proc_array (<[Z.to_nat (l + Z.of_nat a) := f p]> (proc_array s)) s))
      as (ps & E & Hlen' & Hps); [done|cbn; rewrite length_insert; lia|].
    exists ps. cbn in Hlen', Hps. rewrite length_insert in Hlen'. split; [done|]. split; [done|].
    intros i. rewrite Hps, znth_insert by lia.
    destruct (Z.eqb_spec (l + Z.of_nat a) i) as [<-|Hne].
    + rewrite Hp. repeat case_decide; try lia; done.
    + repeat case_decide; try lia; done.
Qed.

Lemma each_thread_Ok l n f s :
  0 ≤ l → 0 ≤ n → l + n ≤ Z.of_nat (length (proc_array s)) →
  ∃ ps, each_thread l n f s = Ok tt (upd_proc_array ps s) ∧ length ps = length (proc_array s) ∧
    ∀ i, znth ps i = if decide (l ≤ i < l + n)
                     then f <$> znth (proc_array s) i else znth (proc_array s) i.
Proof.
  intros Hl Hn Hlen. unfold each_thread, indices.
  destruct (each_thread_aux l f 0 (Z.to_nat n) s Hl) as (ps & E & H1 & H2); [lia|].
  exists ps. split; [done|]. split; [done|]. intros i. rewrite H2.
  repeat case_decide; try lia; done.
Qed.

(** ** Round robin *)
Definition runnable_at (ps : list process) (i : Z) : bool :=
  match znth ps i with Some t => runnable t | None => false end.

(** The threads of a partition in the order the round robin tries them. *)
Definition rr_order (lo hi from : Z) : list Z := zrange (from + 1) hi ++ zrange lo from.

Section RoundRobin.
Context {pc : PartConfig} (s : pok_state) (lo hi from : Z).
Context (Hlo : 0 ≤ lo) (Hhi : hi < Z.of_nat (length (proc_array s))) (Hfrom : lo ≤ from ≤ hi).

#[local] Abbreviation R := (runnable_at (proc_array s)).

Lemma get_thread res :
  lo ≤ res ≤ hi → ∃ t, getProc res s = Ok t s ∧ runnable t = R res.
Proof using Hlo Hhi.
  intros H. destruct (proj1 (znth_range (proc_array s) res)) as [t Ht]; [lia|].
  exists t. split; [by apply getProc_Ok|]. unfold runnable_at. by rewrite Ht.
Qed.

Lemma rr_up fuel res :
  lo - 1 ≤ res < from → from - res ≤ Z.of_nat fuel →
  rr_loop fuel lo hi from res s = Ok (default from (find R (zrange (res + 1) from))) s.
Proof using Hlo Hhi Hfrom.
  revert res. induction fuel as [|fuel IH]; intros res Hres Hf; [lia|]. cbn [rr_loop].
  rewrite (proj2 (Z.ltb_ge hi (res + 1))) by lia.
  destruct (get_thread (res + 1)) as (t & Ht & HR); [lia|].
  rewrite (kbind_Ok _ _ _ _ _ Ht), HR, zrange_cons by lia. cbn [find].
  destruct (Z.eqb_spec (res + 1) from) as [He|Hne]; cbn [negb andb].
  - rewrite He, zrange_nil by lia. cbn. by destruct (R from).
  - destruct (R (res + 1)) eqn:E; cbn [negb]; [done|]. apply IH; lia.
Qed.

Lemma rr_loop_Ok fuel res :
  from ≤ res ≤ hi → (hi - res) + (from - lo + 1) ≤ Z.of_nat fuel →
  rr_loop fuel lo hi from res s =
    Ok (default from (find R (zrange (res + 1) hi ++ zrange lo from))) s.
Proof using Hlo Hhi Hfrom.
  revert res. induction fuel as [|fuel IH]; intros res Hres Hf; [lia|]. cbn [rr_loop].
  destruct (Z.ltb_spec hi (res + 1)) as [Hw|Hw].
  - destruct (get_thread lo) as (t & Ht & HR); [lia|].
    rewrite (kbind_Ok _ _ _ _ _ Ht), HR, (zrange_nil (res + 1)), (zrange_cons lo) by lia.
    cbn [find app].
    destruct (Z.eqb_spec lo from) as [He|Hne]; cbn [negb andb].
    + rewrite He, zrange_nil by lia. cbn. by destruct (R from).
    + destruct (R lo); cbn [negb]; [done|]. apply rr_up; lia.
  - destruct (get_thread (res + 1)) as (t & Ht & HR); [lia|].
    rewrite (kbind_Ok _ _ _ _ _ Ht), HR, (zrange_cons (res + 1)) by lia. cbn [find app].
    rewrite (proj2 (Z.eqb_neq (res + 1) from)) by lia. cbn [negb andb].
    destruct (R (res + 1)); cbn [negb]; [done|]. apply IH; lia.
Qed.
End RoundRobin.

(** ** The invariant *)
Class PartConfigOk (pc : PartConfig) : Prop := {
  pco_threads : 0 ≤ POK_CONFIG_NB_THREADS;
  pco_parts : 0 < POK_CONFIG_NB_PARTITIONS;
  pco_slots : pok_sched_slots ≠ [];
  pco_positive : Forall (λ len, 0 < len) pok_sched_slots;
  pco_sum : foldr Z.add 0 pok_sched_slots = POK_CONFIG_SCHEDULING_MAJOR_FRAME;
  pco_frame : POK_CONFIG_SCHEDULING_MAJOR_FRAME < 2 ^ 62;
  pco_alloc : length pok_sched_slots_allocation = length pok_sched_slots;
  pco_alloc_range : Forall (λ p, 0 ≤ p < POK_CONFIG_NB_PARTITIONS) pok_sched_slots_allocation;
  pco_first : znth pok_sched_slots_allocation 0 = Some 0
}.

#[export] Instance deployment_ok : PartConfigOk deployment.
Proof. split; cbn; repeat constructor; (done || lia). Qed.

Definition in_part (p : partition) (t : Z) : Prop := low p ≤ t ≤ high p.

(** A partition owns a range of threads, its main thread is one of them, and
    so is the thread the round robin starts from. *)
Record part_ok {pc : PartConfig} (p : partition) : Prop := {
  po_low : 0 ≤ low p;
  po_range : low p ≤ high p < POK_CONFIG_NB_THREADS;
  po_count : nthreads p = high p - low p + 1;
  po_main : in_part p (thread_main p);
  po_current : in_part p (p_current_thread p) ∨
               p_current_thread p = IDLE_THREAD ∧ in_part p (prev_thread p)
}.

(** The thread capabilities that were resumed and not suspended since; the
    newest event comes first. *)
Fixpoint running (log : list pok_event) : gset Z :=
  match log with
  | [] => ∅
  | ev_suspend c :: log => running log ∖ {[c]}
  | ev_resume c :: log => {[c]} ∪ running log
  | ev_set_priority _ _ :: log | ev_proc_load _ _ :: log => running log
  end.
Definition cap_set (c : Z) : gset Z := if c =? 0 then ∅ else {[c]}.
Definition ktcb_of (ps : list process) (i : Z) : Z :=
  match znth ps i with Some t => ktcb t | None => 0 end.

(** The tables of threads: the idle thread has no budget and no capability. *)
Definition procs_ok {pc : PartConfig} (ps : list process) : Prop :=
  Z.of_nat (length ps) = POK_CONFIG_NB_THREADS + 2 ∧
  ∃ idle, znth ps IDLE_THREAD = Some idle ∧ remaining_time_capacity idle = 0 ∧ ktcb idle = 0.

Record pok_ok {pc : PartConfig} (s : pok_state) : Prop := {
  ok_parts : Z.of_nat (length (part_array s)) = POK_CONFIG_NB_PARTITIONS;
  ok_part : Forall part_ok (part_array s);
  ok_procs : procs_ok (proc_array s);
  ok_current_partition : 0 ≤ current_partition s < POK_CONFIG_NB_PARTITIONS;
  ok_current_thread : 0 ≤ current_thread s ≤ IDLE_THREAD;
  ok_running : running (pok_log s) = cap_set (ktcb_of (proc_array s) (current_thread s))
}.

(** What the tables keep while a thread is elected. *)
Definition procs_keep {pc : PartConfig} (ps ps' : list process) : Prop :=
  length ps' = length ps ∧ (∀ i, ktcb_of ps' i = ktcb_of ps i) ∧
  (procs_ok ps → procs_ok ps').

Section Procs.
Context {pc : PartConfig}.

Lemma procs_keep_refl ps : procs_keep ps ps.
Proof. done. Qed.

Lemma procs_keep_trans ps ps' ps'' :
  procs_keep ps ps' → procs_keep ps' ps'' → procs_keep ps ps''.
Proof.
  intros (H1 & H2 & H3) (H1' & H2' & H3'). split; [congruence|]. split; [|auto].
  intros i. by rewrite H2'.
Qed.

(** A change of threads that keeps capabilities, and the budget of the idle
    thread. *)
Lemma procs_keep_map ps ps' (g : Z → process → process) :
  length ps' = length ps → (∀ i, znth ps' i = g i <$> znth ps i) →
  (∀ i t, ktcb (g i t) = ktcb t) →
  (∀ t, remaining_time_capacity (g IDLE_THREAD t) = remaining_time_capacity t) →
  procs_keep ps ps'.
Proof.
  intros Hlen Hg Hk Hr. split; [done|]. split.
  - intros i. unfold ktcb_of. rewrite Hg. destruct (znth ps i); [apply Hk|done].
  - intros (HL & idle & Hi & Hrem & Hkt). split; [by rewrite Hlen|].
    exists (g IDLE_THREAD idle). rewrite Hg, Hi. by rewrite Hr, Hk.
Qed.

Lemma procs_keep_upd ps i f t :
  znth ps i = Some t → (∀ t, ktcb (f t) = ktcb t) →
  (∀ t, i = IDLE_THREAD → remaining_time_capacity (f t) = remaining_time_capacity t) →
  procs_keep ps (<[Z.to_nat i := f t]> ps).
Proof.
  intros Ht Hk Hr. assert (0 ≤ i < Z.of_nat (length ps)) by (apply znth_range; eauto).
  eapply (procs_keep_map _ _ (λ j, if i =? j then f else id)).
  - apply length_insert.
  - intros j. rewrite znth_insert by done. destruct (Z.eqb_spec i j) as [<-|]; [by rewrite Ht|].
    by destruct (znth ps j).
  - intros j t'. by destruct (_ =? _).
  - intros t'. destruct (Z.eqb_spec i IDLE_THREAD); [auto|done].
Qed.

Lemma ktcb_of_Some ps i t : znth ps i = Some t → ktcb_of ps i = ktcb t.
Proof. unfold ktcb_of. by intros ->. Qed.
End Procs.

(** ** The steps of a scheduling round *)
Section Round.
Context {pc : PartConfig}.

Lemma wake_thread_ktcb now t : ktcb (wake_thread now t) = ktcb t.
Proof. unfold wake_thread. by repeat case_match. Qed.
Lemma charge_thread_ktcb t : ktcb (charge_thread t) = ktcb t.
Proof. unfold charge_thread. by repeat case_match. Qed.

(** The round robin of a partition: the thread that runs keeps running while it
    can, else the first runnable thread after it in cyclic order, else the
    idle thread. *)
Definition rr_choice (ps : list process) (lo hi prev cur : Z) : Z :=
  let from := if cur =? IDLE_THREAD then prev else cur in
  let keeps := match znth ps cur with
               | Some t => (0 <? remaining_time_capacity t) && runnable t
               | None => false
               end in
  if keeps then cur
  else match find (runnable_at ps) (rr_order lo hi from) with
       | Some t => t
       | None => IDLE_THREAD
       end.

Lemma pok_sched_part_rr_Ok s lo hi prev cur :
  0 ≤ lo → hi < POK_CONFIG_NB_THREADS →
  Z.of_nat (length (proc_array s)) = POK_CONFIG_NB_THREADS + 2 →
  (lo ≤ cur ≤ hi ∨ cur = IDLE_THREAD ∧ lo ≤ prev ≤ hi) →
  pok_sched_part_rr lo hi prev cur s = Ok (rr_choice (proc_array s) lo hi prev cur) s.
Proof.
  intros Hlo Hhi Hlen Hcur. unfold pok_sched_part_rr, rr_choice.
  assert (IDLE_THREAD = POK_CONFIG_NB_THREADS) as HI by done.
  destruct (proj1 (znth_range (proc_array s) cur)) as [t Ht]; [lia|].
  rewrite (kbind_Ok _ _ _ _ _ (getProc_Ok _ _ _ Ht)), Ht.
  destruct (_ && _) eqn:Ek; [done|].
  set (from := if cur =? IDLE_THREAD then prev else cur).
  assert (lo ≤ from ≤ hi) as Hfrom.
  { subst from. destruct (Z.eqb_spec cur IDLE_THREAD); lia. }
  kstep. erewrite kbind_Ok; [|apply rr_loop_Ok; lia]. fold (rr_order lo hi from).
  assert (∀ x, x ∈ rr_order lo hi from → lo ≤ x ≤ hi) as Hin.
  { intros x. unfold rr_order. rewrite elem_of_app, !elem_of_zrange. lia. }
  destruct (find _ _) as [x|] eqn:Ef; cbn [default].
  - apply find_elem in Ef as [Hx HR].
    destruct (get_thread s lo hi Hlo ltac:(lia) x (Hin x Hx)) as (y & Hy & Ey).
    rewrite (kbind_Ok _ _ _ _ _ Hy), Ey, HR. by rewrite andb_false_r.
  - destruct (get_thread s lo hi Hlo ltac:(lia) from Hfrom) as (y & Hy & Ey).
    rewrite (kbind_Ok _ _ _ _ _ Hy), Ey, Z.eqb_refl.
    rewrite (find_no_elem _ _ Ef from); [done|].
    unfold rr_order. rewrite elem_of_app, !elem_of_zrange. lia.
Qed.

(** Who may be elected in a partition whose threads are [ps]. *)
Definition elected_spec (p : partition) (ps : list process) (e : Z) : Prop :=
  match p_mode p with
  | PART_MODE_WARM_START | PART_MODE_COLD_START => e = thread_main p
  | PART_MODE_NORMAL =>
      in_part p e ∧ runnable_at ps e = true ∨
      e = IDLE_THREAD ∧ ∀ t, in_part p t → runnable_at ps t = false
  | _ => e = IDLE_THREAD
  end.

Lemma rr_choice_spec p ps :
  part_ok p → procs_ok ps → p_mode p = PART_MODE_NORMAL →
  elected_spec p ps (rr_choice ps (low p) (high p) (prev_thread p) (p_current_thread p)).
Proof.
  intros Hp (Hlen & idle & Hidle & Hrem & _) Hm. unfold elected_spec. rewrite Hm. unfold rr_choice.
  destruct (match znth ps _ with Some _ => _ | None => _ end) eqn:Ek.
  - left. destruct (znth ps (p_current_thread p)) as [t|] eqn:Et; [|done].
    apply andb_true_iff in Ek as [H1 H2]. split.
    + destruct (po_current p Hp) as [|[E _]]; [done|].
      rewrite E, Hidle in Et. injection Et as <-. rewrite Hrem in H1. done.
    + unfold runnable_at. by rewrite Et.
  - set (from := if _ =? _ then _ else _).
    assert (in_part p from) as Hfrom.
    { subst from. pose proof (po_range p Hp). destruct (po_current p Hp) as [Hc|[-> Hc]].
      - destruct (Z.eqb_spec (p_current_thread p) IDLE_THREAD) as [E|]; [|done].
        unfold in_part, IDLE_THREAD in *. lia.
      - by rewrite Z.eqb_refl. }
    assert (∀ x, in_part p x ↔ x ∈ rr_order (low p) (high p) from) as Hin.
    { intros x. unfold rr_order, in_part in *. rewrite elem_of_app, !elem_of_zrange. lia. }
    destruct (find _ _) as [x|] eqn:Ef.
    + left. apply find_elem in Ef as [Hx HR]. by rewrite Hin.
    + right. split; [done|]. intros t. rewrite Hin. by apply find_no_elem.
Qed.

Lemma elected_range p ps e : part_ok p → elected_spec p ps e → in_part p e ∨ e = IDLE_THREAD.
Proof.
  intros Hp. unfold elected_spec. pose proof (po_main p Hp).
  destruct (p_mode p); intros; subst; intuition.
Qed.
End Round.

Section Sched.
Context {pc : PartConfig}.

Lemma elected_spec_ext p ps ps' e :
  (∀ i, runnable_at ps' i = runnable_at ps i) → elected_spec p ps e → elected_spec p ps' e.
Proof. intros H. unfold elected_spec. destruct (p_mode p); try done. by setoid_rewrite H. Qed.

Lemma end_time_keeps ps e n t :
  znth ps e = Some t →
  procs_keep ps (<[Z.to_nat e := set_end_time n t]> ps) ∧
  ∀ i, runnable_at (<[Z.to_nat e := set_end_time n t]> ps) i = runnable_at ps i.
Proof.
  intros Ht. assert (0 ≤ e < Z.of_nat (length ps)) by (apply znth_range; eauto). split.
  - by apply (procs_keep_upd ps e (set_end_time n) t Ht).
  - intros i. unfold runnable_at. rewrite znth_insert by done.
    destruct (Z.eqb_spec e i) as [<-|]; [by rewrite Ht|done].
Qed.

Lemma each_keeps s p f :
  part_ok p → procs_ok (proc_array s) → (∀ t, ktcb (f t) = ktcb t) →
  ∃ ps, each_thread (low p) (nthreads p) f s = Ok tt (upd_proc_array ps s) ∧
    procs_keep (proc_array s) ps.
Proof.
  intros Hp (Hlen & _) Hf. pose proof (po_low p Hp). pose proof (po_range p Hp).
  pose proof (po_count p Hp).
  destruct (each_thread_Ok (low p) (nthreads p) f s) as (ps & E & Hl & Hg); [lia..|].
  exists ps. split; [done|].
  apply (procs_keep_map _ _ (λ i, if decide (low p ≤ i < low p + nthreads p) then f else id));
    [done|..].
  - intros i. rewrite Hg. case_decide; [done|]. by destruct (znth _ i).
  - intros i t. case_decide; [apply Hf|done].
  - intros t. rewrite decide_False; [done|]. unfold IDLE_THREAD. lia.
Qed.

Lemma charge_keeps s cur b :
  procs_ok (proc_array s) → 0 ≤ cur ≤ IDLE_THREAD → (b = true → cur ≠ IDLE_THREAD) →
  ∃ ps, kwhen b (updProc cur charge_thread) s = Ok tt (upd_proc_array ps s) ∧
    procs_keep (proc_array s) ps.
Proof.
  intros Hps Hcur Hb. destruct b; cbn [kwhen].
  - destruct Hps as (Hlen & _).
    destruct (proj1 (znth_range (proc_array s) cur)) as [t Ht]; [unfold IDLE_THREAD in *; lia|].
    rewrite (updProc_Ok _ _ _ _ Ht). eexists. split; [done|].
    apply (procs_keep_upd _ cur charge_thread t Ht); [apply charge_thread_ktcb|].
    intros t' E. by destruct Hb.
  - exists (proc_array s). by destruct s.
Qed.

Lemma pok_elect_thread_Ok s np p :
  pok_ok s → znth (part_array s) np = Some p →
  ∃ e ps, pok_elect_thread np s = Ok e (upd_proc_array ps s) ∧
    procs_keep (proc_array s) ps ∧ elected_spec p ps e.
Proof.
  intros Hok Hnp. pose proof (znth_Forall _ _ _ _ (ok_part s Hok) Hnp) as Hp.
  unfold pok_elect_thread. kstep. rewrite (kbind_Ok _ _ _ _ _ (getPart_Ok _ _ _ Hnp)).
  destruct (each_keeps s p _ Hp (ok_procs s Hok) (wake_thread_ktcb (pok_tick_counter s)))
    as (ps1 & E1 & K1).
  rewrite (kbind_Ok _ _ _ _ _ E1).
  pose proof (proj2 (proj2 K1) (ok_procs s Hok)) as Hps1.
  assert (∃ e ps2, (match p_mode p with
    | PART_MODE_WARM_START | PART_MODE_COLD_START => kret (thread_main p)
    | PART_MODE_NORMAL =>
        let! cur := gets current_thread in
        let! curp := getCurPart in
        let! cp := getPart curp in
        kwhen (negb (cur =? IDLE_THREAD) && negb (cur =? thread_main cp))
          (updProc cur charge_thread) ;;;
        pok_sched_part_rr (low p) (high p) (prev_thread p) (p_current_thread p)
    | _ => kret IDLE_THREAD
    end) (upd_proc_array ps1 s) = Ok e (upd_proc_array ps2 s) ∧
    procs_keep ps1 ps2 ∧ elected_spec p ps2 e) as (e & ps2 & E2 & K2 & He).
  { destruct (p_mode p) eqn:Em;
      try (eexists _, ps1; split; [done|]; split; [apply procs_keep_refl|];
           by unfold elected_spec; rewrite Em).
    kstep. unfold getCurPart. kstep.
    destruct (proj1 (znth_range (part_array s) (current_partition s))) as [cp Hcp].
    { rewrite (ok_parts s Hok). apply (ok_current_partition s Hok). }
    rewrite (kbind_Ok _ _ (upd_proc_array ps1 s) _ _ (getPart_Ok _ _ (upd_proc_array ps1 s) Hcp)).
    edestruct (charge_keeps (upd_proc_array ps1 s) (current_thread s)) as (ps2 & E & K2).
    { done. } { apply (ok_current_thread s Hok). }
    2: { rewrite (kbind_Ok _ _ _ _ _ E). pose proof (proj2 (proj2 K2) Hps1) as Hps2.
         exists (rr_choice ps2 (low p) (high p) (prev_thread p) (p_current_thread p)), ps2.
         split; [|split; [done|by apply rr_choice_spec]].
         apply (pok_sched_part_rr_Ok (upd_proc_array ps2 s)); try apply Hp; try apply Hps2. }
    intros [E%negb_true_iff _]%andb_true_iff. by apply Z.eqb_neq. }
  rewrite (kbind_Ok _ _ _ _ _ E2).
  pose proof (proj2 (proj2 K2) Hps1) as Hps2.
  destruct (proj1 (znth_range ps2 e)) as [t Ht].
  { destruct Hps2 as (Hlen & _). pose proof (po_range p Hp). pose proof (po_low p Hp).
    destruct (elected_range _ _ _ Hp He) as [Hr|Hr]; unfold in_part, IDLE_THREAD in Hr; lia. }
  rewrite (kbind_Ok _ _ _ _ _ (updProc_Ok _ _ _ (upd_proc_array ps2 s) Ht)).
  destruct (end_time_keeps ps2 e
    (w64 (pok_tick_counter s + remaining_time_capacity t)) t Ht) as [K3 H3].
  eexists e, _. split; [done|]. split; [by eauto using procs_keep_trans|].
  by eapply elected_spec_ext.
Qed.

(** What electing a partition does to the schedule: nothing before the
    deadline of the slot, else it moves to the next slot. *)
Definition slot_over (s : pok_state) : bool := pok_sched_next_deadline s <=? pok_tick_counter s.
Definition next_slot (s : pok_state) : Z := (pok_sched_current_slot s + 1) mod NBSLOTS.
Definition next_partition (s : pok_state) : Z :=
  if slot_over s then default 0 (znth pok_sched_slots_allocation (next_slot s))
  else current_partition s.
Definition next_schedule (s : pok_state) : pok_state :=
  if slot_over s then
    upd_schedule
      (w64 (pok_sched_next_deadline s + default 0 (znth pok_sched_slots (next_slot s))))
      (if pok_sched_next_major_frame s <=? pok_tick_counter s
       then w64 (pok_sched_next_major_frame s + POK_CONFIG_SCHEDULING_MAJOR_FRAME)
       else pok_sched_next_major_frame s)
      (next_slot s) s
  else s.

Lemma next_slot_range {ok : PartConfigOk pc} s :
  0 ≤ next_slot s < Z.of_nat (length pok_sched_slots).
Proof using.
  unfold next_slot, NBSLOTS. apply Z.mod_pos_bound. pose proof pco_slots.
  destruct pok_sched_slots; [done|cbn; lia].
Qed.

Lemma pok_elect_partition_Ok {ok : PartConfigOk pc} s :
  pok_elect_partition s = Ok (next_partition s) (next_schedule s).
Proof using.
  unfold pok_elect_partition, next_partition, next_schedule, slot_over, getCurPart. ksteps.
  destruct (_ <=? _); [|done]. ksteps. fold (next_slot s).
  pose proof (next_slot_range s) as Hr.
  destruct (proj1 (znth_range pok_sched_slots (next_slot s)) Hr) as [len Hl].
  destruct (proj1 (znth_range pok_sched_slots_allocation (next_slot s))) as [a Ha];
    [by rewrite pco_alloc|].
  rewrite Hl, Ha. reflexivity.
Qed.

Lemma next_partition_range {ok : PartConfigOk pc} s :
  pok_ok s → 0 ≤ next_partition s < POK_CONFIG_NB_PARTITIONS.
Proof using.
  intros Hok. unfold next_partition. destruct (slot_over s); [|apply (ok_current_partition s Hok)].
  destruct (proj1 (znth_range pok_sched_slots_allocation (next_slot s))) as [a Ha].
  { rewrite pco_alloc. apply next_slot_range. }
  rewrite Ha. apply (znth_Forall _ _ _ _ pco_alloc_range Ha).
Qed.

Lemma pok_ok_schedule s d f n : pok_ok s → pok_ok (upd_schedule d f n s).
Proof. by intros []. Qed.
Lemma pok_ok_next_schedule s : pok_ok s → pok_ok (next_schedule s).
Proof. unfold next_schedule. destruct (slot_over s); auto using pok_ok_schedule. Qed.
Lemma pok_ok_tick s v : pok_ok s → pok_ok (upd_tick v s).
Proof. by intros []. Qed.

(** A context switch leaves exactly the new thread running. *)
Lemma context_switch_Ok s last new :
  is_Some (znth (proc_array s) last) → is_Some (znth (proc_array s) new) →
  running (pok_log s) = cap_set (ktcb_of (proc_array s) last) →
  ∃ log, pok_sched_context_switch last new s = Ok tt (upd_pok_log log s) ∧
    running log = cap_set (ktcb_of (proc_array s) new).
Proof.
  intros [l Hl] [n Hn]. unfold pok_sched_context_switch, syscall.
  rewrite (ktcb_of_Some _ _ _ Hl), (ktcb_of_Some _ _ _ Hn). intros Hr.
  destruct (Z.eqb_spec last new) as [->|Hne]; cbn [negb kwhen].
  - exists (pok_log s). rewrite Hl in Hn. injection Hn as <-. by destruct s.
  - rewrite (kbind_Ok _ _ _ _ _ (getProc_Ok _ _ _ Hl)). unfold cap_set in *.
    destruct (Z.eqb_spec (ktcb l) 0) as [El|El]; cbn [negb kwhen]; kstep;
      (erewrite kbind_Ok; [|apply getProc_Ok; exact Hn]);
      destruct (Z.eqb_spec (ktcb n) 0) as [En|En]; cbn [negb kwhen];
      unfold modify; [exists (pok_log s); split; [by destruct s|]|eexists; (split; [done|])..];
      cbn; rewrite ?Hr; set_solver.
Qed.

(** The partition keeps its shape when the elected thread is recorded. *)
Definition set_elected (e : Z) (p : partition) : partition :=
  set_threads (if negb (p_current_thread p =? IDLE_THREAD) then p_current_thread p
               else prev_thread p) e p.

Lemma part_ok_elected p e :
  part_ok p → in_part p e ∨ e = IDLE_THREAD → p_current_thread p ≠ e → part_ok (set_elected e p).
Proof.
  intros Hp He Hne. split; try apply Hp. destruct He as [He| ->]; [by left|]. right. split; [done|].
  cbn. destruct (Z.eqb_spec (p_current_thread p) IDLE_THREAD); [done|].
  by destruct (po_current p Hp) as [|[? _]].
Qed.

Lemma record_elected s np p e :
  Forall part_ok (part_array s) → znth (part_array s) np = Some p →
  in_part p e ∨ e = IDLE_THREAD →
  ∃ parts, kwhen (negb (p_current_thread p =? e)) (updPart np (set_elected e)) s =
             Ok tt (upd_part_array parts s) ∧
    Forall part_ok parts ∧ length parts = length (part_array s) ∧
    ∃ q, znth parts np = Some q ∧ ∀ ps, elected_spec p ps e → elected_spec q ps e.
Proof.
  intros Hf Hp He. destruct (Z.eqb_spec (p_current_thread p) e) as [|Hne]; cbn [negb kwhen].
  - exists (part_array s). split; [by destruct s|]. eauto.
  - eexists. split; [apply (updPart_Ok _ _ _ _ Hp)|]. rewrite length_insert.
    assert (0 ≤ np < Z.of_nat (length (part_array s))) by (apply znth_range; eauto).
    split; [|split; [done|]].
    + apply Forall_insert; [done|]. by apply part_ok_elected; [apply (znth_Forall _ _ _ _ Hf Hp)|..].
    + exists (set_elected e p). rewrite znth_insert by done. by rewrite Z.eqb_refl.
Qed.

(** A scheduling round: it never fails, it keeps the invariant, it moves to the
    partition of the slot and runs a thread that partition may elect. *)
Lemma pok_sched_Ok {ok : PartConfigOk pc} s :
  pok_ok s →
  ∃ s' p, pok_sched s = Ok tt s' ∧ pok_ok s' ∧
    current_partition s' = next_partition s ∧
    znth (part_array s') (current_partition s') = Some p ∧
    elected_spec p (proc_array s') (current_thread s') ∧
    pok_tick_counter s' = pok_tick_counter s ∧
    pok_sched_next_deadline s' = pok_sched_next_deadline (next_schedule s) ∧
    pok_sched_next_major_frame s' = pok_sched_next_major_frame (next_schedule s) ∧
    pok_sched_current_slot s' = pok_sched_current_slot (next_schedule s).
Proof using.
  intros Hok. set (np := next_partition s). set (s1 := next_schedule s).
  assert (pok_ok s1) as Hok1 by by apply pok_ok_next_schedule.
  assert (current_thread s1 = current_thread s ∧ pok_tick_counter s1 = pok_tick_counter s)
    as [Hct Htc] by (unfold s1, next_schedule; by destruct (slot_over s)).
  assert (0 ≤ np < POK_CONFIG_NB_PARTITIONS) as Hnp by by apply next_partition_range.
  destruct (proj1 (znth_range (part_array s1) np)) as [p Hp]; [by rewrite (ok_parts _ Hok1)|].
  pose proof (znth_Forall _ _ _ _ (ok_part s1 Hok1) Hp) as Hpo.
  destruct (pok_elect_thread_Ok s1 np p Hok1 Hp) as (e & ps & E & (Kl & Kk & Ko) & He).
  pose proof (Ko (ok_procs _ Hok1)) as Hps. pose proof (elected_range _ _ _ Hpo He) as Hr.
  assert (0 ≤ e ≤ IDLE_THREAD) as Hre.
  { pose proof (po_range p Hpo). pose proof (po_low p Hpo). pose proof pco_threads.
    unfold in_part, IDLE_THREAD in *. lia. }
  assert (∀ i, 0 ≤ i ≤ IDLE_THREAD → is_Some (znth ps i)) as Hin.
  { intros i Hi. apply znth_range. destruct Hps as (Hl & _). unfold IDLE_THREAD in *. lia. }
  set (s2 := upd_current np e (upd_proc_array ps s1)).
  destruct (record_elected s2 np p e (ok_part s1 Hok1) Hp Hr)
    as (parts & Eu & Hf & Hlp & q & Hq & Heq).
  destruct (context_switch_Ok (upd_part_array parts s2) (current_thread s) e) as (log & El & Hl).
  { apply Hin. apply (ok_current_thread s Hok). }
  { by apply Hin. }
  { cbn. rewrite (ok_running s1 Hok1), Hct. by rewrite Kk. }
  exists (upd_pok_log log (upd_part_array parts s2)), q. split_and!; auto.
  - unfold pok_sched. ksteps. rewrite (kbind_Ok _ _ _ _ _ (pok_elect_partition_Ok s)).
    fold np s1. rewrite (kbind_Ok _ _ _ _ _ E). ksteps. fold s2.
    rewrite (kbind_Ok _ _ _ _ _ (getPart_Ok np p s2 Hp)). fold (set_elected e).
    by rewrite (kbind_Ok _ _ _ _ _ Eu).
  - split; try done. cbn. rewrite Hlp. apply Hok1.
Qed.
End Sched.
