(* ===== verification/PartitionTime.v ===== *)
(** * The cyclic schedule of partitions

    The slots of the major frame as a function of time, and the invariant that
    ties the scheduler's deadline, slot and partition to the tick counter; and
    the start-up, which establishes the invariants. *)

From S2P Require Import Prelude.
From S2P Require Import Word32.
From S2P Require Import Partition.
From S2P Require Import PartitionInv.

(** ** The major frame as a function of time *)

(** The slot that contains instant [t] of the frame, and the instant it ends. *)
Fixpoint slot_of (slots : list Z) (t : Z) : Z :=
  match slots with
  | [] => 0
  | len :: slots => if t <? len then 0 else 1 + slot_of slots (t - len)
  end.
Fixpoint slot_end (slots : list Z) (t : Z) : Z :=
  match slots with
  | [] => 0
  | len :: slots => if t <? len then len else len + slot_end slots (t - len)
  end.
Abbreviation total := (foldr Z.add 0).

Section Slots.

Lemma total_nonneg slots : Forall (λ len, 0 < len) slots → 0 ≤ total slots.
Proof. induction 1; cbn; lia. Qed.

Lemma slot_of_range slots t :
  0 ≤ t < total slots → 0 ≤ slot_of slots t < Z.of_nat (length slots).
Proof.
  revert t. induction slots as [|len slots IH]; cbn; intros t Ht; [lia|].
  destruct (Z.ltb_spec t len); [lia|]. specialize (IH (t - len)). lia.
Qed.

Lemma slot_end_bounds slots t :
  Forall (λ len, 0 < len) slots → 0 ≤ t < total slots → t < slot_end slots t ≤ total slots.
Proof.
  intros Hp. revert t. induction Hp as [|len slots Hlen Hp IH]; cbn; intros t Ht; [lia|].
  pose proof (total_nonneg _ Hp).
  destruct (Z.ltb_spec t len); [lia|]. specialize (IH (t - len)). lia.
Qed.

Lemma slot_zero slots : Forall (λ len, 0 < len) slots → slot_of slots 0 = 0.
Proof. destruct 1; cbn; [done|]. by rewrite (proj2 (Z.ltb_lt _ _)). Qed.

Lemma slot_end_zero slots :
  Forall (λ len, 0 < len) slots → slot_end slots 0 = default 0 (znth slots 0).
Proof. destruct 1; cbn; [done|]. by rewrite (proj2 (Z.ltb_lt _ _)). Qed.

(** Within a slot one tick changes neither the slot nor its end. *)
Lemma slot_stays slots t :
  Forall (λ len, 0 < len) slots → 0 ≤ t < total slots → t + 1 < slot_end slots t →
  slot_of slots (t + 1) = slot_of slots t ∧ slot_end slots (t + 1) = slot_end slots t.
Proof.
  intros Hp. revert t. induction Hp as [|len slots Hlen Hp IH]; cbn; intros t Ht; [lia|].
  destruct (Z.ltb_spec t len); intros He.
  - by rewrite (proj2 (Z.ltb_lt (t + 1) len)) by lia.
  - rewrite (proj2 (Z.ltb_ge (t + 1) len)) by lia.
    destruct (IH (t - len)) as [E1 E2]; [lia..|].
    replace (t + 1 - len) with (t - len + 1) by lia. lia.
Qed.

(** The last tick of a slot that is not the last one leads to the next slot. *)
Lemma slot_moves slots t :
  Forall (λ len, 0 < len) slots → 0 ≤ t → t + 1 < total slots → t + 1 = slot_end slots t →
  slot_of slots (t + 1) = slot_of slots t + 1 ∧
  slot_end slots (t + 1) = t + 1 + default 0 (znth slots (slot_of slots t + 1)).
Proof.
  intros Hp. revert t. induction Hp as [|len slots Hlen Hp IH]; cbn; intros t H0 Ht; [lia|].
  destruct (Z.ltb_spec t len); intros He.
  - rewrite (proj2 (Z.ltb_ge (t + 1) len)) by lia. replace (t + 1 - len) with 0 by lia.
    rewrite slot_zero, slot_end_zero by done. rewrite znth_cons by lia. change (0 + 1 - 1) with 0. lia.
  - rewrite (proj2 (Z.ltb_ge (t + 1) len)) by lia.
    destruct (IH (t - len)) as [E1 E2]; [lia..|].
    replace (t + 1 - len) with (t - len + 1) by lia.
    pose proof (slot_of_range slots (t - len) ltac:(lia)).
    rewrite E1, E2, znth_cons by lia.
    replace (1 + slot_of slots (t - len) + 1 - 1) with (slot_of slots (t - len) + 1) by lia. lia.
Qed.

(** The last slot ends with the frame. *)
Lemma slot_last slots t :
  Forall (λ len, 0 < len) slots → 0 ≤ t → t + 1 = total slots →
  slot_end slots t = total slots ∧ slot_of slots t = Z.of_nat (length slots) - 1.
Proof.
  intros Hp. revert t. induction Hp as [|len slots Hlen Hp IH]; cbn; intros t H0 Ht; [lia|].
  pose proof (total_nonneg _ Hp).
  destruct (Z.ltb_spec t len).
  - destruct Hp as [|len' slots Hlen' Hp]; [cbn; lia|]. cbn in *.
    pose proof (total_nonneg _ Hp). lia.
  - destruct (IH (t - len)) as [E1 E2]; lia.
Qed.
End Slots.

(** ** The scheduler on time *)
Section OnTime.
Context {pc : PartConfig} {ok : PartConfigOk pc}.

#[local] Abbreviation MAF := POK_CONFIG_SCHEDULING_MAJOR_FRAME.

(** The instant of the frame the tick counter stands at. *)
Definition phase (now : Z) : Z := now mod MAF.

(** The deadline is the end of the slot that contains the present, the next
    frame starts a frame later than this one, and the partition is the slot's. *)
Record on_time (s : pok_state) : Prop := {
  ot_now : 0 ≤ pok_tick_counter s;
  ot_slot : pok_sched_current_slot s = slot_of pok_sched_slots (phase (pok_tick_counter s));
  ot_deadline : pok_sched_next_deadline s =
    pok_tick_counter s - phase (pok_tick_counter s) +
    slot_end pok_sched_slots (phase (pok_tick_counter s));
  ot_frame : pok_sched_next_major_frame s =
    pok_tick_counter s - phase (pok_tick_counter s) + MAF;
  ot_partition : znth pok_sched_slots_allocation (pok_sched_current_slot s) =
    Some (current_partition s)
}.

Lemma MAF_positive : 0 < MAF.
Proof using ok.
  rewrite <- pco_sum. pose proof pco_slots. destruct pco_positive as [|len slots Hl Hp]; [done|].
  cbn. pose proof (total_nonneg _ Hp). lia.
Qed.

Lemma phase_range now : 0 ≤ phase now < MAF.
Proof using ok. apply Z.mod_pos_bound, MAF_positive. Qed.

Lemma phase_next now :
  phase (now + 1) = if phase now + 1 =? MAF then 0 else phase now + 1.
Proof using ok.
  pose proof MAF_positive. pose proof (phase_range now). unfold phase in *.
  destruct (Z.eqb_spec (now mod MAF + 1) MAF) as [E|Hne].
    rewrite <- Z.add_mod_idemp_l by lia.
    replace (now mod MAF + 1) with MAF by lia. apply Z.mod_same. lia.
  - rewrite <- Z.add_mod_idemp_l by lia. apply Z.mod_small. lia.
Qed.

Lemma w64_small x : 0 ≤ x < 2 ^ 63 → w64 x = x.
Proof using. intros H. unfold w64. apply Z.mod_small. lia. Qed.

Lemma slot_in_alloc j :
  0 ≤ j < Z.of_nat (length pok_sched_slots) →
  znth pok_sched_slots_allocation j = Some (default 0 (znth pok_sched_slots_allocation j)).
Proof using ok.
  rewrite <- pco_alloc. intros H. by destruct (proj1 (znth_range _ _) H) as [a ->].
Qed.

(** The schedule after one more tick. *)
Lemma next_schedule_on_time s :
  on_time s → pok_tick_counter s + 1 < 2 ^ 62 →
  let s1 := upd_tick (pok_tick_counter s + 1) s in
  let t := phase (pok_tick_counter s + 1) in
  pok_sched_current_slot (next_schedule s1) = slot_of pok_sched_slots t ∧
  pok_sched_next_deadline (next_schedule s1) =
    pok_tick_counter s + 1 - t + slot_end pok_sched_slots t ∧
  pok_sched_next_major_frame (next_schedule s1) = pok_tick_counter s + 1 - t + MAF ∧
  znth pok_sched_slots_allocation (slot_of pok_sched_slots t) = Some (next_partition s1).
Proof using ok.
  intros [Hn Hs Hd Hf Hp] Hlt s1 t. subst s1 t. set (now := pok_tick_counter s) in *.
  pose proof (phase_range now) as Ht. pose proof (phase_next now) as Hnext.
  pose proof pco_positive as Hpos. pose proof pco_sum as Hsum. pose proof pco_frame.
  assert (phase now ≤ now) by (apply Z.mod_le; [done|apply MAF_positive]).
  assert (0 ≤ phase now < total pok_sched_slots) as Hph by lia.
  pose proof (slot_end_bounds _ _ Hpos Hph) as He.
  pose proof (slot_of_range _ _ Hph) as Hr.
  unfold next_partition, next_schedule, slot_over, next_slot.
  cbn [pok_tick_counter upd_tick pok_sched_next_deadline pok_sched_next_major_frame
       pok_sched_current_slot current_partition].
  rewrite Hd, Hf.
  destruct (Z.leb_spec (now - phase now + slot_end pok_sched_slots (phase now)) (now + 1))
    as [Hov|Hin].
  - cbn [pok_sched_current_slot pok_sched_next_deadline pok_sched_next_major_frame upd_schedule].
    rewrite Hs. destruct (Z.eqb_spec (phase now + 1) MAF) as [Em|Em]; rewrite Hnext.
    + destruct (slot_last pok_sched_slots (phase now) Hpos) as [E1 E2]; [lia..|].
      rewrite slot_zero, slot_end_zero, E2, (proj2 (Z.leb_le (now - phase now + MAF) (now + 1)))
        by (done || lia).
      replace ((Z.of_nat (length pok_sched_slots) - 1 + 1) mod NBSLOTS) with 0.
      2: { unfold NBSLOTS. symmetry. rewrite Z.sub_add. apply Z.mod_same. lia. }
      assert (0 ≤ 0 < total pok_sched_slots) as H00 by lia.
      pose proof (slot_end_bounds _ _ Hpos H00) as B.
      rewrite slot_end_zero in B by done.
      rewrite !w64_small by lia. split_and!; [done|lia|lia|].
      apply slot_in_alloc. lia.
    + destruct (slot_moves pok_sched_slots (phase now) Hpos) as [E1 E2]; [lia..|].
      assert (0 ≤ phase now + 1 < total pok_sched_slots) as H1 by lia.
      pose proof (slot_of_range _ _ H1). pose proof (slot_end_bounds _ _ Hpos H1).
      rewrite (proj2 (Z.leb_gt (now - phase now + MAF) (now + 1))) by lia.
      replace ((slot_of pok_sched_slots (phase now) + 1) mod NBSLOTS)
        with (slot_of pok_sched_slots (phase now + 1)).
      2: { rewrite <- E1. symmetry. by apply Z.mod_small. }
      rewrite E1. rewrite w64_small by lia. split_and!; [done|lia|lia|].
      apply slot_in_alloc. lia.
  - destruct (Z.eqb_spec (phase now + 1) MAF) as [Em|Em]; [lia|]. rewrite Hnext.
    destruct (slot_stays pok_sched_slots (phase now) Hpos) as [E1 E2]; [lia..|].
    cbn [pok_sched_current_slot pok_sched_next_deadline pok_sched_next_major_frame upd_tick].
    rewrite E1, E2, <- Hs. split_and!; [done|lia|lia|done].
Qed.

(** A tick keeps the scheduler on time. *)
Lemma scheduler_tick_Ok s :
  pok_ok s → on_time s → pok_tick_counter s + 1 < 2 ^ 62 →
  ∃ s', scheduler_tick s = Ok tt s' ∧ pok_ok s' ∧ on_time s' ∧
    pok_tick_counter s' = pok_tick_counter s + 1.
Proof using ok.
  intros Hok Hot Hlt. pose proof (ot_now s Hot).
  destruct (next_schedule_on_time s Hot Hlt) as (E1 & E2 & E3 & E4).
  set (s1 := upd_tick (pok_tick_counter s + 1) s) in *.
  destruct (pok_sched_Ok s1) as (s' & p & E & Hok' & Hp & _ & _ & Ht & Hd & Hf & Hs);
    [by apply pok_ok_tick|].
  exists s'. split_and!; [|done| |done].
  - unfold scheduler_tick. kstep. by rewrite w64_small by lia.
  - cbn in Ht. split; rewrite ?Ht; [lia|congruence..|]. by rewrite Hp, Hs, E1.
Qed.

Lemma ticks_Ok n s :
  pok_ok s → on_time s → pok_tick_counter s + Z.of_nat n < 2 ^ 62 →
  ∃ s', ticks n s = Ok tt s' ∧ pok_ok s' ∧ on_time s' ∧
    pok_tick_counter s' = pok_tick_counter s + Z.of_nat n.
Proof using ok.
  revert s. induction n as [|n IH]; intros s Hok Hot Hlt; cbn [ticks].
  - exists s. split_and!; [done..|lia].
  - destruct (scheduler_tick_Ok s Hok Hot) as (s1 & E1 & Hok1 & Hot1 & Ht1); [lia|].
    destruct (IH s1 Hok1 Hot1) as (s2 & E2 & Hok2 & Hot2 & Ht2); [lia|].
    exists s2. split_and!; [|done..|lia]. by rewrite (kbind_Ok _ _ _ _ _ E1).
Qed.

(** The start of the scheduler. *)
Lemma sched_init_Ok s :
  pok_ok s → pok_tick_counter s = 0 →
  ∃ s', sched_init s = Ok tt s' ∧ pok_ok s' ∧ on_time s' ∧ pok_tick_counter s' = 0 ∧
    pok_ports s' = pok_ports s.
Proof using ok.
  intros Hok H0. unfold sched_init. pose proof MAF_positive. pose proof pco_frame.
  rewrite pco_sum, w64_small, Z.eqb_refl by lia. cbn [negb].
  pose proof pco_positive as Hpos. pose proof pco_sum.
  assert (0 ≤ 0 < total pok_sched_slots) as H00 by lia.
  pose proof (slot_of_range _ _ H00) as Hr. rewrite slot_zero in Hr by done.
  destruct (proj1 (znth_range pok_sched_slots 0) Hr) as [d Hd].
  rewrite (kopt_Some _ _ _ _ Hd), (kopt_Some _ _ _ _ pco_first). ksteps.
  eexists. split; [done|].
  assert (phase 0 = 0) as Hz by (apply Z.mod_0_l; lia). cbn. split_and!; [| |done..].
  - destruct Hok. split; cbn; try done. pose proof pco_parts. lia.
  - split; cbn; rewrite ?H0, ?Hz, ?slot_zero, ?slot_end_zero, ?Hd by done;
      (lia || done || apply pco_first).
Qed.
End OnTime.

(** ** Start-up of the partition layer

    [partition_init], [process_init], [sched_init] and [port_init] on the
    zeroed memory of the server establish the invariant of the scheduler. *)
(** ** A deployment whose partitions tile the table of threads *)
Definition base (counts : list Z) (i : Z) : Z := total (take (Z.to_nat i) counts).

Class LayoutOk (pc : PartConfig) : Prop := {
  lay_parts : Z.of_nat (length POK_CONFIG_PARTITIONS_NTHREADS) = POK_CONFIG_NB_PARTITIONS;
  lay_counts : Forall (λ n, 0 < n) POK_CONFIG_PARTITIONS_NTHREADS;
  lay_total : total POK_CONFIG_PARTITIONS_NTHREADS = POK_CONFIG_NB_THREADS;
  lay_small : POK_CONFIG_NB_THREADS < 2 ^ 31;
  lay_main : ∀ i n, znth POK_CONFIG_PARTITIONS_NTHREADS i = Some n →
    ∃ m, znth main_array i = Some m ∧
      base POK_CONFIG_PARTITIONS_NTHREADS i ≤ m < base POK_CONFIG_PARTITIONS_NTHREADS i + n;
  lay_names : POK_CONFIG_NB_PARTITIONS ≤ Z.of_nat (length main_name);
  lay_prio : POK_CONFIG_NB_THREADS ≤ Z.of_nat (length prio_array);
  lay_period : POK_CONFIG_NB_THREADS ≤ Z.of_nat (length period_array);
  lay_time : POK_CONFIG_NB_THREADS ≤ Z.of_nat (length time_array);
  lay_ports : 0 ≤ POK_CONFIG_NB_PORTS
}.

#[export] Instance deployment_layout : LayoutOk deployment.
Proof.
  split; cbn; try (repeat constructor; done || lia); try lia.
  intros i n. unfold znth. destruct (Z.leb_spec 0 i) as [H|]; [|done].
  destruct (Z.to_nat i) as [|[|k]] eqn:E; cbn; rewrite ?E; cbn; [| |by destruct k].
  - intros [= <-]. exists 0. unfold base. rewrite E. by cbn.
  - intros [= <-]. exists 2. unfold base. rewrite E. by cbn.
Qed.

Lemma base_succ counts i n : znth counts i = Some n → base counts (i + 1) = base counts i + n.
Proof.
  intros H. assert (0 ≤ i < Z.of_nat (length counts)) as Hi by (apply znth_range; eauto).
  rewrite znth_lookup in H by lia. unfold base.
  replace (Z.to_nat (i + 1)) with (S (Z.to_nat i)) by lia. rewrite (take_S_r _ _ n) by done.
  rewrite foldr_app. cbn. clear.
  induction (take (Z.to_nat i) counts) as [|x l IH]; cbn; [lia|]. rewrite IH. lia.
Qed.

Lemma base_le counts i :
  Forall (λ n, 0 < n) counts → 0 ≤ base counts i ≤ total counts.
Proof.
  intros H. unfold base. generalize (Z.to_nat i) as k.
  induction H as [|n counts Hn HF IH]; intros [|k]; cbn; [lia..| |].
  - pose proof (total_nonneg _ HF). lia.
  - specialize (IH k). lia.
Qed.

Section Init.
Context {pc : PartConfig} {ok : PartConfigOk pc} {lay : LayoutOk pc}.

#[local] Abbreviation counts := POK_CONFIG_PARTITIONS_NTHREADS.

(** Partitions below [k] are set up; nothing runs. *)
Definition parts_upto (tcbs : gmap (Z * Z) Z) (k : Z) (s : pok_state) : Prop :=
  Z.of_nat (length (part_array s)) = POK_CONFIG_NB_PARTITIONS ∧
  Z.of_nat (length (proc_array s)) = POK_CONFIG_NB_THREADS + 2 ∧
  Z.of_nat (length (pok_ports s)) = POK_CONFIG_NB_PORTS ∧
  (∀ j, 0 ≤ j < k → ∃ p, znth (part_array s) j = Some p ∧ part_ok p) ∧
  running (pok_log s) = ∅ ∧ current_thread s = IDLE_THREAD ∧ pok_tick_counter s = 0 ∧
  current_partition s = 0 ∧ proc_tcbs s = tcbs.

Lemma runs_updProc i f s (Q : unit → pok_state → Prop) p :
  znth (proc_array s) i = Some p →
  Q tt (upd_proc_array (<[Z.to_nat i := f p]> (proc_array s)) s) → runs (updProc i f) s Q.
Proof using. intros H HQ. eapply runs_Ok; [by apply updProc_Ok|done]. Qed.

Lemma setup_main_Ok tcbs main i c v s (Q : Z → pok_state → Prop) :
  0 ≤ main < Z.of_nat (length (proc_array s)) → 0 ≤ i < POK_CONFIG_NB_PARTITIONS →
  proc_tcbs s = tcbs → tcbs !! (i + CONFIG_PCB_OFFSET, 0) = Some c → c ≠ 0 →
  (∀ ps name, length ps = length (proc_array s) →
     Q v (upd_pok_log (ev_suspend c :: ev_proc_load name 1 :: pok_log s) (upd_proc_array ps s))) →
  runs (setup_main_thread main i ;;; setup_main_thread_ktcb main i ;;;
        let! t := getProc main in
        kassert (negb (ktcb t =? 0)) ;;; syscall (ev_suspend (ktcb t)) ;;; kret v) s Q.
Proof using lay.
  intros Hm Hi <- Hc Hnz HQ. destruct (proj1 (znth_range (proc_array s) main) Hm) as [t Ht].
  destruct (proj1 (znth_range main_name i)) as [name Hname]; [pose proof lay_names; lia|].
  unfold setup_main_thread, setup_main_thread_ktcb, get_tcb_cptr_from_pid, syscall.
  apply runs_bind, runs_bind. eapply runs_updProc; [done|].
  apply runs_bind. eapply runs_opt; [done|]. apply runs_modify.
  apply runs_bind, runs_bind. eapply runs_Ok; [cbn; by rewrite Hc|].
  eapply runs_updProc; [by apply znth_insert_same|].
  apply runs_bind. eapply runs_Ok.
  { apply getProc_Ok, znth_insert_same. cbn. by rewrite length_insert. }
  apply runs_bind. cbn. apply runs_assert; [by apply negb_true_iff, Z.eqb_neq|].
  apply runs_bind, runs_modify, runs_ret. refine (HQ (<[_ := _]> (<[_ := _]> (proc_array s))) name _).
  by rewrite !length_insert.
Qed.

Lemma init_partition_Ok tcbs i c s :
  0 ≤ i < POK_CONFIG_NB_PARTITIONS → parts_upto tcbs i s →
  tcbs !! (i + CONFIG_PCB_OFFSET, 0) = Some c → c ≠ 0 →
  runs (init_partition i (base counts i)) s
    (λ next s', next = base counts (i + 1) ∧ parts_upto tcbs (i + 1) s').
Proof using ok lay.
  intros Hi (Hp & Hq & Ho & Hparts & Hr & Hct & Htk & Hcp & Htc) Hc Hnz.
  pose proof lay_parts. pose proof lay_small. pose proof lay_total as Htot.
  destruct (proj1 (znth_range counts i)) as [n Hn]; [lia|].
  destruct (lay_main i n Hn) as (main & Hmain & Hrange).
  destruct (proj1 (znth_range (part_array s) i)) as [p0 Hp0]; [lia|].
  pose proof (znth_Forall _ _ _ _ lay_counts Hn) as Hpos. cbn in Hpos.
  pose proof (base_le counts i lay_counts). pose proof (base_le counts (i + 1) lay_counts) as B.
  rewrite (base_succ _ _ _ Hn) in B |- *.
  assert (w32 (base counts i + n - 1) = base counts i + n - 1) as Hw
    by (apply Z.mod_small; lia).
  unfold init_partition. apply runs_bind. eapply runs_opt; [done|]. cbv beta.
  apply runs_bind. eapply runs_opt; [done|]. rewrite Hw.
  apply runs_bind. eapply runs_Ok; [by apply updPart_Ok|].
  eapply setup_main_Ok; try done; [cbn; lia|]. intros ps name Hl. cbn in Hl.
  split; [lia|]. unfold parts_upto. cbn. rewrite Hl, length_insert, Hr.
  split_and!; try done; [|set_solver].
  intros j Hj. rewrite znth_insert by lia. destruct (Z.eqb_spec i j) as [<-|Hne].
  - eexists. split; [done|]. split; cbn; unfold in_part; cbn; (lia || left; lia).
  - apply Hparts. lia.
Qed.

Lemma init_partitions_Ok tcbs k i s :
  (∀ j, 0 ≤ j < POK_CONFIG_NB_PARTITIONS →
     ∃ c, tcbs !! (j + CONFIG_PCB_OFFSET, 0) = Some c ∧ c ≠ 0) →
  Z.of_nat i + Z.of_nat k = POK_CONFIG_NB_PARTITIONS → parts_upto tcbs (Z.of_nat i) s →
  runs (init_partitions (Z.of_nat <$> seq i k) (base counts (Z.of_nat i))) s
    (λ _ s', parts_upto tcbs POK_CONFIG_NB_PARTITIONS s').
Proof using ok lay.
  intros Htcbs. revert i s. induction k as [|k IH]; intros i s Hk Hs.
  - apply runs_ret. by replace POK_CONFIG_NB_PARTITIONS with (Z.of_nat i) by lia.
  - cbn [seq fmap list_fmap init_partitions]. apply runs_bind.
    destruct (Htcbs (Z.of_nat i)) as (c & Hc & Hnz); [lia|].
    eapply runs_mono; [eapply init_partition_Ok; [lia|done..]|]. cbv beta.
    intros next s' [-> Hs']. replace (Z.of_nat i + 1) with (Z.of_nat (S i)) in * by lia.
    apply IH; [lia|done].
Qed.

Lemma parts_upto_procs tcbs k s ps :
  length ps = length (proc_array s) → parts_upto tcbs k s → parts_upto tcbs k (upd_proc_array ps s).
Proof using. unfold parts_upto. cbn. by intros ->. Qed.

Lemma procs_ok_insert ps i t :
  0 ≤ i < POK_CONFIG_NB_THREADS → procs_ok ps → procs_ok (<[Z.to_nat i := t]> ps).
Proof using.
  intros Hi (Hl & idle & Hid & Hrem & Hk). split; [by rewrite length_insert|]. exists idle.
  rewrite znth_insert by lia. by rewrite (proj2 (Z.eqb_neq i IDLE_THREAD)) by (unfold IDLE_THREAD; lia).
Qed.

(** The entries of the idle and the kernel thread. *)
Lemma init_system_threads_Ok tcbs s :
  parts_upto tcbs POK_CONFIG_NB_PARTITIONS s →
  runs (init_idle_thread ;;; init_kernel_thread) s (λ _ s',
    parts_upto tcbs POK_CONFIG_NB_PARTITIONS s' ∧ procs_ok (proc_array s')).
Proof using ok.
  intros Hs. pose proof Hs as (_ & Hq & _). pose proof pco_threads.
  assert (0 ≤ IDLE_THREAD < Z.of_nat (length (proc_array s))) as Hi by (unfold IDLE_THREAD; lia).
  assert (0 ≤ KERNEL_THREAD < Z.of_nat (length (proc_array s))) as Hk
    by (unfold KERNEL_THREAD; lia).
  assert ((IDLE_THREAD =? KERNEL_THREAD) = false) as Hne
    by (apply Z.eqb_neq; unfold IDLE_THREAD, KERNEL_THREAD; lia).
  destruct (proj1 (znth_range _ _) Hi) as [t Ht]. destruct (proj1 (znth_range _ _) Hk) as [u Hu].
  apply runs_bind. eapply runs_updProc; [done|]. eapply runs_updProc.
  { cbn [proc_array upd_proc_array]. by rewrite znth_insert, Hne by done. }
  split; [by repeat (apply parts_upto_procs; [by rewrite ?length_insert|])|].
  split; [cbn; by rewrite !length_insert|]. eexists. split; [|split].
  - cbn [proc_array upd_proc_array]. rewrite znth_insert by (by rewrite length_insert).
    rewrite Z.eqb_sym, Hne. by apply znth_insert_same.
  - done.
  - done.
Qed.

(** The table of threads after [process_init]. *)
Lemma process_init_Ok tcbs s :
  parts_upto tcbs POK_CONFIG_NB_PARTITIONS s →
  runs process_init s (λ _ s',
    parts_upto tcbs POK_CONFIG_NB_PARTITIONS s' ∧ procs_ok (proc_array s')).
Proof using ok lay.
  intros Hs. unfold process_init. pose proof (init_system_threads_Ok tcbs s Hs) as Hsys.
  apply runs_bind_inv in Hsys. apply runs_bind. eapply runs_mono; [exact Hsys|]. intros [] s0 H0.
  apply runs_bind. eapply runs_mono; [exact H0|]. intros [] s1 [Hup1 Hps1]. eapply runs_mono.
  - apply (runs_kfor (λ l s', (∀ i, i ∈ l → 0 ≤ i < POK_CONFIG_NB_THREADS) ∧
      parts_upto tcbs POK_CONFIG_NB_PARTITIONS s' ∧ procs_ok (proc_array s'))).
    + split_and!; try done. intros i (j & -> & Hj%elem_of_seq)%list_elem_of_fmap. lia.
    + intros i l s2 (Hin & Hup & Hps).
      assert (0 ≤ i < POK_CONFIG_NB_THREADS) as Hi by (apply Hin; set_solver).
      pose proof lay_prio. pose proof lay_period. pose proof lay_time.
      destruct (proj1 (znth_range prio_array i)) as [pr Hpr]; [lia|].
      destruct (proj1 (znth_range period_array i)) as [per Hper]; [lia|].
      destruct (proj1 (znth_range time_array i)) as [tm Htm]; [lia|].
      destruct (proj1 (znth_range (proc_array s2) i)) as [v Hv]; [destruct Hps; lia|].
      do 3 (apply runs_bind; eapply runs_opt; [eassumption|]; cbv beta).
      eapply runs_updProc; [eassumption|]. split_and!; [set_solver| |by apply procs_ok_insert].
      apply parts_upto_procs; [by rewrite length_insert|done].
  - by intros ? s' (_ & ? & ?).
Qed.

Lemma port_init_Ok s :
  Z.of_nat (length (pok_ports s)) = POK_CONFIG_NB_PORTS → pok_ok s → on_time s →
  runs port_init s (λ _ s', pok_ok s' ∧ on_time s' ∧ pok_tick_counter s' = pok_tick_counter s).
Proof using ok lay.
  intros Hl Hok Hot. eapply runs_mono.
  - apply (runs_kfor (λ l s', (∀ i, i ∈ l → 0 ≤ i < POK_CONFIG_NB_PORTS) ∧
      Z.of_nat (length (pok_ports s')) = POK_CONFIG_NB_PORTS ∧ pok_ok s' ∧ on_time s' ∧
      pok_tick_counter s' = pok_tick_counter s)).
    + split_and!; try done. intros i (j & -> & Hj%elem_of_seq)%list_elem_of_fmap. lia.
    + intros i l s' (Hin & Hlen & [] & [] & Ht).
      destruct (proj1 (znth_range (pok_ports s') i)) as [v Hv]; [rewrite Hlen; apply Hin; set_solver|].
      eapply runs_Ok; [by apply updPort_Ok|]. split_and!; [set_solver|cbn; by rewrite length_insert|..];
        by try split.
  - by intros ? s' (_ & _ & ? & ? & ?).
Qed.

(** Start-up from the zeroed memory. *)
Lemma system_init_Ok tcbs :
  (∀ j, 0 ≤ j < POK_CONFIG_NB_PARTITIONS →
     ∃ c, tcbs !! (j + CONFIG_PCB_OFFSET, 0) = Some c ∧ c ≠ 0) →
  runs system_init (boot_state tcbs) (λ _ s, pok_ok s ∧ on_time s ∧ pok_tick_counter s = 0).
Proof using ok lay.
  intros Htcbs. pose proof pco_threads. pose proof pco_parts. pose proof lay_ports.
  assert (parts_upto tcbs 0 (boot_state tcbs)) as Hz.
  { unfold parts_upto, boot_state. cbn [part_array proc_array pok_ports pok_log running
      current_thread pok_tick_counter current_partition proc_tcbs].
    rewrite !repeat_length. split_and!; try done; lia. }
  unfold system_init. apply runs_bind.
  unfold partition_init, indices. eapply runs_mono.
  { apply (init_partitions_Ok tcbs _ 0); [done|lia|done]. }
  intros [] s1 Hs1. apply runs_bind. eapply runs_mono; [by apply process_init_Ok|].
  intros [] s2 ((Hp & Hq & Ho & Hparts & Hr & Hct & Htk & Hcp & Htc) & Hps). apply runs_bind.
  assert (pok_ok s2) as Hok.
  { split; try done; [|lia|rewrite Hct; unfold IDLE_THREAD; lia|].
    - apply Forall_lookup. intros i p Hi. destruct (Hparts (Z.of_nat i)) as (q & Hq' & Hqo).
      + apply lookup_lt_Some in Hi. lia.
      + rewrite znth_lookup, Nat2Z.id, Hi in Hq' by lia. by injection Hq' as <-.
    - destruct Hps as (_ & idle & Hidle & _ & Hk).
      rewrite Hr, Hct, (ktcb_of_Some _ _ _ Hidle), Hk. done. }
  destruct (sched_init_Ok s2 Hok Htk) as (s3 & E3 & Hok3 & Hot3 & Ht3 & Hport).
  eapply runs_Ok; [done|]. eapply runs_mono; [apply port_init_Ok; [congruence|done..]|].
  intros [] s4 (? & ? & ?). split_and!; [done..|congruence].
Qed.
End Init.
