(* ===== verification/PartitionTheorems.v ===== *)
(** * Correctness of the partition layer

    The cyclic schedule, the safety of a scheduling round, the round robin
    inside a partition, thread creation, mode changes and sampling ports. *)

From Stdlib Require Import String.
From S2P Require Import Prelude.
From S2P Require Import Word32.
From S2P Require Import Partition.
From S2P Require Import PartitionInv.
From S2P Require Import PartitionTime.

(** ** Lemmas *)
Section Lemmas.
Context {pc : PartConfig} {ok : PartConfigOk pc}.

(** [scheduler_thread] names partition 0, the one of the first slot. *)
Lemma scheduler_thread_Ok n s :
  pok_ok s → on_time s → pok_tick_counter s = 0 → Z.of_nat n < 2 ^ 62 →
  ∃ s', scheduler_thread n s = Ok tt s' ∧ pok_ok s' ∧ on_time s' ∧
    pok_tick_counter s' = Z.of_nat n.
Proof using ok.
  intros Hok Hot H0 Hn. unfold scheduler_thread. kstep.
  assert (current_partition s = 0) as Hcp.
  { pose proof (ot_partition s Hot) as Hp. pose proof (ot_slot s Hot) as Hs.
    rewrite H0 in Hs. unfold phase in Hs. rewrite Z.mod_0_l in Hs.
    2: { pose proof MAF_positive. lia. }
    rewrite slot_zero in Hs by apply pco_positive. rewrite Hs, pco_first in Hp. congruence. }
  replace (upd_current 0 (current_thread s) s) with s by (rewrite <- Hcp; by destruct s).
  destruct (ticks_Ok n s Hok Hot) as (s' & E & ? & ? & ?); [lia|]. exists s'.
  split_and!; [done..|lia].
Qed.

Lemma boot_run tcbs n :
  LayoutOk pc →
  (∀ j, 0 ≤ j < POK_CONFIG_NB_PARTITIONS →
     ∃ c, tcbs !! (j + CONFIG_PCB_OFFSET, 0) = Some c ∧ c ≠ 0) →
  Z.of_nat n < 2 ^ 62 →
  runs (system_init ;;; scheduler_thread n) (boot_state tcbs) (λ _ s,
    pok_ok s ∧ on_time s ∧ pok_tick_counter s = Z.of_nat n).
Proof using ok.
  intros lay Htcbs Hn. apply runs_bind. eapply runs_mono; [by apply system_init_Ok|].
  intros [] s (Hok & Hot & H0).
  destruct (scheduler_thread_Ok n s Hok Hot H0 Hn) as (s' & E & ?).
  by eapply runs_Ok.
Qed.

(** The instant at which a slot starts. *)
Lemma slot_of_base slots j :
  Forall (λ len, 0 < len) slots → 0 ≤ j < Z.of_nat (List.length slots) →
  slot_of slots (base slots j) = j ∧ base slots j < total slots.
Proof using.
  intros H. revert j. induction H as [|len slots Hlen H IH]; cbn; intros j Hj; [lia|].
  pose proof (total_nonneg _ H).
  destruct (Z.eqb_spec j 0) as [->|Hne].
  - change (base (len :: slots) 0) with 0. rewrite (proj2 (Z.ltb_lt 0 len)); lia.
  - assert (base (len :: slots) j = len + base slots (j - 1)) as ->.
    { unfold base. by replace (Z.to_nat j) with (S (Z.to_nat (j - 1))) by lia. }
    pose proof (base_le slots (j - 1) H).
    rewrite (proj2 (Z.ltb_ge _ _)) by lia.
    replace (len + base slots (j - 1) - len) with (base slots (j - 1)) by lia.
    destruct (IH (j - 1)); lia.
Qed.

(** Every instant of the frame comes within one frame. *)
Lemma phase_reached now t :
  0 ≤ now → 0 ≤ t < POK_CONFIG_SCHEDULING_MAJOR_FRAME →
  ∃ n : nat, Z.of_nat n < POK_CONFIG_SCHEDULING_MAJOR_FRAME ∧ phase (now + Z.of_nat n) = t.
Proof using ok.
  intros Hn Ht. pose proof MAF_positive. set (M := POK_CONFIG_SCHEDULING_MAJOR_FRAME) in *.
  pose proof (Z.mod_pos_bound (t - now) M ltac:(lia)) as B.
  exists (Z.to_nat ((t - now) mod M)). rewrite Z2Nat.id by lia. split; [lia|].
  unfold phase. fold M. rewrite Z.add_mod_idemp_r by lia.
  replace (now + (t - now)) with t by lia. by apply Z.mod_small.
Qed.
End Lemmas.

(** ** The cyclic schedule *)


Definition deployment_tcbs : gmap (Z * Z) Z :=
  {[ (3, 0) := 7; (4, 0) := 8; (3, 1) := 17; (4, 1) := 18; (4, 2) := 28 ]}.
Lemma deployment_tcbs_ok : ∀ j, 0 ≤ j < @POK_CONFIG_NB_PARTITIONS deployment →
  ∃ c, deployment_tcbs !! (j + @CONFIG_PCB_OFFSET deployment, 0) = Some c ∧ c ≠ 0.
Proof.
  intros j Hj. cbn in Hj. assert (j = 0 ∨ j = 1) as [-> | ->] by lia.
  - exists 7. split; [by vm_compute|done].
  - exists 8. split; [by vm_compute|done].
Qed.


(** Every slot of the schedule comes round within one major frame of any
    instant: its partition is never starved of its window. *)
Theorem every_slot_comes_round {pc : PartConfig} (ok : PartConfigOk pc) s j :
  pok_ok s → on_time s → 0 ≤ j < Z.of_nat (List.length pok_sched_slots) →
  pok_tick_counter s + POK_CONFIG_SCHEDULING_MAJOR_FRAME < 2 ^ 62 →
  ∃ n s', Z.of_nat n < POK_CONFIG_SCHEDULING_MAJOR_FRAME ∧ ticks n s = Ok tt s' ∧
    pok_sched_current_slot s' = j ∧
    znth pok_sched_slots_allocation j = Some (current_partition s').
Proof.
  intros Hok Hot Hj Hlt.
  destruct (slot_of_base _ j pco_positive Hj) as [Ej Hb]. rewrite pco_sum in Hb.
  pose proof (base_le _ j pco_positive).
  destruct (phase_reached (pok_tick_counter s) (base pok_sched_slots j)) as (n & Hn & Hph);
    [apply Hot|lia|]. exists n.
  destruct (ticks_Ok n s Hok Hot) as (s' & E & _ & Hot' & Ht).
  { lia. }
  pose proof (ot_slot s' Hot') as Hs. rewrite Ht, Hph, Ej in Hs.
  exists s'. split_and!; try done. rewrite <- Hs. apply Hot'.
Qed.

(** The scheduler of the deployment, started. *)
Lemma deployment_started :
  ∃ s, @pok_ok deployment s ∧ @on_time deployment s ∧ pok_tick_counter s = 0.
Proof.
  destruct (@system_init_Ok deployment _ _ deployment_tcbs deployment_tcbs_ok)
    as ([] & s & _ & H). by exists s.
Qed.

Lemma every_slot_comes_round_witness :
  ∃ s n s', Z.of_nat n < 2000 ∧ @ticks deployment n s = Ok tt s' ∧
    pok_sched_current_slot s' = 1 ∧ Some 1 = Some (current_partition s').
Proof.
  destruct deployment_started as (s & Hok & Hot & H0). exists s.
  apply (every_slot_comes_round deployment_ok s 1 Hok Hot); [by vm_compute|rewrite H0; cbn; lia].
Defined.

(** ** A scheduling round *)



(** The round robin of a partition is a search: the running thread keeps
    running while it is runnable and has budget; otherwise the first runnable
    thread after it in cyclic order is elected, itself tried last, and the idle
    thread when none is runnable.  The loop always ends. *)
Theorem pok_sched_part_rr_search {pc : PartConfig} s lo hi prev cur :
  0 ≤ lo → hi < POK_CONFIG_NB_THREADS →
  Z.of_nat (List.length (proc_array s)) = POK_CONFIG_NB_THREADS + 2 →
  (lo ≤ cur ≤ hi ∨ cur = IDLE_THREAD ∧ lo ≤ prev ≤ hi) →
  pok_sched_part_rr lo hi prev cur s = Ok (rr_choice (proc_array s) lo hi prev cur) s.
Proof. apply pok_sched_part_rr_Ok. Qed.

(** Partition 1 with its threads 3 runnable and 2, 4 stopped. *)
Definition rr_state : pok_state :=
  upd_proc_array
    (<[3%nat := set_status POK_STATE_RUNNABLE zero_process]> (repeat zero_process 7))
    (@boot_state deployment ∅).

Lemma pok_sched_part_rr_search_witness :
  @pok_sched_part_rr deployment 2 4 2 4 rr_state = Ok 3 rr_state.
Proof. apply (@pok_sched_part_rr_search deployment rr_state 2 4 2 4); cbn; lia. Defined.

(** ** Mode changes *)
Section Mode.
Context {pc : PartConfig} {ok : PartConfigOk pc}.

Lemma start_thread_ktcb now act t : ktcb (start_thread now act t) = ktcb t.
Proof using. unfold start_thread. by repeat case_match. Qed.

Lemma pok_ok_keep s ps : pok_ok s → procs_keep (proc_array s) ps → pok_ok (upd_proc_array ps s).
Proof using. intros [] (Hl & Hk & Hp). split; cbn; try done; [auto|]. by rewrite Hk. Qed.

Lemma pok_ok_set_mode s i p m :
  pok_ok s → znth (part_array s) i = Some p →
  pok_ok (upd_part_array (<[Z.to_nat i := set_mode m p]> (part_array s)) s).
Proof using.
  intros Hok Hp. pose proof (znth_Forall _ _ _ _ (ok_part s Hok) Hp) as [].
  destruct Hok. split; cbn; try done; [by rewrite length_insert|]. by apply Forall_insert.
Qed.

Lemma on_time_slot s : on_time s → slot_over s = false.
Proof using ok.
  intros [Hn Hs Hd Hf Hp]. unfold slot_over. apply Z.leb_gt. rewrite Hd.
  pose proof (phase_range (pok_tick_counter s)) as Hr.
  assert (0 ≤ phase (pok_tick_counter s) < total pok_sched_slots) as Hr' by (rewrite pco_sum; lia).
  pose proof (slot_end_bounds _ _ pco_positive Hr'). lia.
Qed.

(** A round without a tick stays in the slot. *)
Lemma pok_sched_now s :
  pok_ok s → on_time s →
  ∃ s', pok_sched s = Ok tt s' ∧ pok_ok s' ∧ on_time s' ∧
    pok_tick_counter s' = pok_tick_counter s.
Proof using ok.
  intros Hok Hot.
  destruct (pok_sched_Ok s Hok) as (s' & p & E & Hok' & Hcp & _ & _ & Ht & Hd' & Hf' & Hs').
  pose proof (on_time_slot s Hot) as Hov. destruct Hot as [Hn Hs Hd Hf Hp].
  unfold next_partition, next_schedule in *. rewrite Hov in *.
  exists s'. split_and!; try done. split; by rewrite ?Ht, ?Hs', ?Hd', ?Hf', ?Hcp.
Qed.

(** No thread is locked. *)
Definition unlocked (ps : list process) : Prop :=
  ∀ i t, znth ps i = Some t → p_status t ≠ POK_STATE_LOCK.

Lemma wake_unlocked now t : p_status t ≠ POK_STATE_LOCK → p_status (wake_thread now t) ≠ POK_STATE_LOCK.
Proof using Type. unfold wake_thread. intros H. repeat case_match; cbn; congruence. Qed.
Lemma charge_unlocked t : p_status t ≠ POK_STATE_LOCK → p_status (charge_thread t) ≠ POK_STATE_LOCK.
Proof using Type. unfold charge_thread. intros H. repeat case_match; cbn; congruence. Qed.
Lemma start_unlocked now act t : p_status t ≠ POK_STATE_LOCK → p_status (start_thread now act t) ≠ POK_STATE_LOCK.
Proof using Type. unfold start_thread. intros H. repeat case_match; cbn; congruence. Qed.
Lemma unlocked_insert ps i f t :
  znth ps i = Some t → unlocked ps → (p_status t ≠ POK_STATE_LOCK → p_status (f t) ≠ POK_STATE_LOCK) →
  unlocked (<[Z.to_nat i := f t]> ps).
Proof using Type.
  intros Ht Hu Hf j u. assert (0 ≤ i < Z.of_nat (List.length ps)) by (apply znth_range; eauto).
  rewrite znth_insert by done. destruct (i =? j); [intros [= <-]; apply Hf; by eapply Hu|apply Hu].
Qed.

(** What entering normal mode does before the new round. *)
Lemma set_mode_normal_round s cp :
  pok_ok s → on_time s → znth (part_array s) (current_partition s) = Some cp →
  current_thread s = thread_main cp →
  ∃ s1, pok_partition_set_mode (current_partition s) PART_MODE_NORMAL s =
      (pok_sched ;;; kret POK_ERRNO_OK) s1 ∧
    pok_ok s1 ∧ on_time s1 ∧ pok_tick_counter s1 = pok_tick_counter s ∧
    current_partition s1 = current_partition s ∧ current_thread s1 = current_thread s ∧
    (unlocked (proc_array s) → unlocked (proc_array s1)) ∧
    (∀ i, ¬ in_part cp i → znth (proc_array s1) i = znth (proc_array s) i).
Proof using ok.
  intros Hok Hot Hcp Hmain. pose proof (znth_Forall _ _ _ _ (ok_part s Hok) Hcp) as Hp.
  pose proof (po_low cp Hp). pose proof (po_range cp Hp). pose proof (po_count cp Hp).
  pose proof (po_main cp Hp) as Hin. unfold in_part in Hin.
  assert (0 ≤ current_partition s < Z.of_nat (List.length (part_array s))) as Hr
    by (apply znth_range; eauto).
  unfold pok_partition_set_mode, getCurPart. ksteps.
  rewrite (kbind_Ok _ _ _ _ _ (getPart_Ok _ _ _ Hcp)), Hmain, Z.eqb_refl. cbn [negb].
  rewrite (kbind_Ok _ _ _ _ _ (updPart_Ok _ _ _ _ Hcp)).
  set (s1 := upd_part_array _ s).
  assert (pok_ok s1) as Hok1 by by apply pok_ok_set_mode.
  erewrite kbind_Ok; [|apply getPart_Ok, znth_insert_same; exact Hr]. ksteps.
  destruct (each_keeps s1 cp _ Hp (ok_procs s1 Hok1)
    (start_thread_ktcb (pok_tick_counter s1) (activation cp))) as (ps & E & Hkeep).
  destruct (ok_procs s1 Hok1) as (Hlen & _).
  destruct (each_thread_Ok (low cp) (nthreads cp) (start_thread (pok_tick_counter s1) (activation cp)) s1)
    as (ps' & E' & _ & Hg); [lia..|].
  assert (ps' = ps) as -> by (rewrite E in E'; by injection E' as ->).
  cbn [nthreads set_mode]. rewrite (kbind_Ok _ _ _ _ _ E). pose proof (proj1 Hkeep) as Hl.
  destruct (proj1 (znth_range ps (thread_main cp))) as [t Ht]; [rewrite Hl; lia|].
  cbn [thread_main set_mode].
  rewrite (kbind_Ok _ _ _ _ _ (updProc_Ok _ (set_status POK_STATE_STOPPED) _ (upd_proc_array ps s1) Ht)).
  pose proof (procs_keep_upd ps _ (set_status POK_STATE_STOPPED) t Ht) as Hk2.
  eexists. split; [reflexivity|]. split_and!; try done.
  - apply pok_ok_keep; [by apply pok_ok_keep|]. by apply Hk2.
  - destruct Hot. by split.
  - intros Hu. apply (unlocked_insert ps _ (set_status POK_STATE_STOPPED) t Ht); [|done]. intros i u. rewrite Hg.
    case_decide; [|apply Hu]. destruct (znth _ i) as [v|] eqn:Hv; [|done]. intros [= <-]. by eapply start_unlocked, Hu.
  - intros i Hi. unfold in_part in Hi. cbn [proc_array upd_proc_array].
    rewrite znth_insert by (rewrite Hl; lia). rewrite (proj2 (Z.eqb_neq _ _)) by lia.
    rewrite Hg, decide_False by lia. done.
Qed.

Lemma set_mode_normal_Ok s cp :
  pok_ok s → on_time s → znth (part_array s) (current_partition s) = Some cp →
  current_thread s = thread_main cp →
  ∃ s', pok_partition_set_mode (current_partition s) PART_MODE_NORMAL s = Ok POK_ERRNO_OK s' ∧
    pok_ok s' ∧ on_time s' ∧ pok_tick_counter s' = pok_tick_counter s.
Proof using ok.
  intros Hok Hot Hcp Hmain.
  destruct (set_mode_normal_round s cp Hok Hot Hcp Hmain) as (s1 & -> & Hok1 & Hot1 & Ht1 & _).
  destruct (pok_sched_now s1 Hok1 Hot1) as (s' & Es & Hok' & Hot' & Ht').
  rewrite (kbind_Ok _ _ _ _ _ Es). exists s'. by rewrite <- Ht1.
Qed.

Lemma set_mode_refused s pid m cp :
  znth (part_array s) (current_partition s) = Some cp →
  m ≠ PART_MODE_NORMAL ∨ current_thread s ≠ thread_main cp →
  pok_partition_set_mode pid m s = Ok POK_ERRNO_PARTITION_MODE s.
Proof using.
  intros Hcp [Hm|Hne]; destruct m; try done.
  unfold pok_partition_set_mode, getCurPart. ksteps.
  rewrite (kbind_Ok _ _ _ _ _ (getPart_Ok _ _ _ Hcp)).
  by rewrite (proj2 (Z.eqb_neq _ _) Hne).
Qed.

(** What happens to the scheduler at run time: the timer fires, or the running
    thread asks for a mode of its partition. *)
Inductive pok_step : pok_state → pok_state → Prop :=
| step_tick s s' : scheduler_tick s = Ok tt s' → pok_step s s'
| step_set_mode s m r s' :
    pok_partition_set_mode (current_partition s) m s = Ok r s' → pok_step s s'.

Lemma set_mode_Ok s m :
  pok_ok s → on_time s →
  ∃ r s', pok_partition_set_mode (current_partition s) m s = Ok r s' ∧
    pok_ok s' ∧ on_time s' ∧ pok_tick_counter s' = pok_tick_counter s.
Proof using ok.
  intros Hok Hot. destruct (proj1 (znth_range (part_array s) (current_partition s))) as [cp Hcp].
  { rewrite (ok_parts s Hok). apply (ok_current_partition s Hok). }
  destruct (decide (m = PART_MODE_NORMAL)) as [->|Hm].
  - destruct (decide (current_thread s = thread_main cp)) as [Hc|Hc].
    + destruct (set_mode_normal_Ok s cp Hok Hot Hcp Hc) as (s' & E & ?). eauto.
    + eexists _, s. split; [by eapply set_mode_refused; eauto|done].
  - eexists _, s. split; [by eapply set_mode_refused; eauto|done].
Qed.

Lemma pok_step_Ok s s' :
  pok_ok s → on_time s → pok_tick_counter s + 1 < 2 ^ 62 → pok_step s s' →
  pok_ok s' ∧ on_time s' ∧ pok_tick_counter s ≤ pok_tick_counter s' ≤ pok_tick_counter s + 1.
Proof using ok.
  intros Hok Hot Hlt Hst. revert Hok Hot Hlt.
  destruct Hst as [s0 s1 E|s0 m r s1 E]; intros Hok Hot Hlt.
  - destruct (scheduler_tick_Ok s0 Hok Hot Hlt) as (s2 & E2 & ? & ? & ?).
    assert (s2 = s1) as -> by congruence. split_and!; [done|done|lia..].
  - destruct (set_mode_Ok s0 m Hok Hot) as (r' & s2 & E2 & ? & ? & ?).
    assert (s2 = s1) as -> by congruence. split_and!; [done|done|lia..].
Qed.

Lemma pok_steps_Ok n s s' :
  pok_ok s → on_time s → pok_tick_counter s + Z.of_nat n < 2 ^ 62 → nsteps pok_step n s s' →
  pok_ok s' ∧ on_time s' ∧
  pok_tick_counter s ≤ pok_tick_counter s' ≤ pok_tick_counter s + Z.of_nat n.
Proof using ok.
  intros Hok Hot Hlt Hst. revert Hok Hot Hlt.
  induction Hst as [s|n s s1 s2 Hs1 Hst IH]; intros Hok Hot Hlt; [split_and!; [done|done|lia..]|].
  destruct (pok_step_Ok s s1 Hok Hot ltac:(lia) Hs1) as (Hok1 & Hot1 & Ht1).
  destruct (IH Hok1 Hot1) as (? & ? & ?); [lia|]. split_and!; [done|done|lia..].
Qed.
End Mode.



(** Entering normal mode: only the main thread of the current partition may
    ask for it; it gets [POK_ERRNO_OK] and a new round, which leaves the tables
    consistent and stays in the partition.  Any other mode, and any other
    caller, is refused without an effect. *)
Theorem pok_partition_set_mode_correct {pc : PartConfig} (ok : PartConfigOk pc) s cp m :
  pok_ok s → on_time s → znth (part_array s) (current_partition s) = Some cp →
  (m = PART_MODE_NORMAL ∧ current_thread s = thread_main cp →
     ∃ s', pok_partition_set_mode (current_partition s) m s = Ok POK_ERRNO_OK s' ∧ pok_ok s' ∧
       current_partition s' = current_partition s) ∧
  (m ≠ PART_MODE_NORMAL ∨ current_thread s ≠ thread_main cp →
     pok_partition_set_mode (current_partition s) m s = Ok POK_ERRNO_PARTITION_MODE s).
Proof.
  intros Hok Hot Hcp. split; [|by apply set_mode_refused].
  intros [-> Hc]. destruct (set_mode_normal_Ok s cp Hok Hot Hcp Hc) as (s' & E & Hok' & Hot' & Ht).
  exists s'. split_and!; [done..|]. pose proof (ot_partition s Hot) as P1.
  pose proof (ot_partition s' Hot') as P2. rewrite (ot_slot s Hot) in P1.
  rewrite (ot_slot s' Hot'), Ht in P2. congruence.
Qed.

Lemma pok_partition_set_mode_correct_witness :
  ∃ s, @pok_partition_set_mode deployment (current_partition s) PART_MODE_IDLE s =
    Ok POK_ERRNO_PARTITION_MODE s.
Proof.
  destruct deployment_started as (s & Hok & Hot & _). exists s.
  destruct (proj1 (znth_range (part_array s) (current_partition s))) as [cp Hcp].
  { rewrite (ok_parts s Hok). apply (ok_current_partition s Hok). }
  apply (pok_partition_set_mode_correct deployment_ok s cp PART_MODE_IDLE Hok Hot Hcp). by left.
Defined.

(** ** Thread creation *)

Lemma get_tcb_Ok s pid tid c :
  proc_tcbs s !! (pid, tid) = Some c → get_tcb_cptr_from_pid pid tid s = Ok c s.
Proof. unfold get_tcb_cptr_from_pid. by intros ->. Qed.

(** Creating a thread in the partition being initialised: refused outside
    the two start modes and when the partition is full, without an effect;
    otherwise the next entry of the partition's range becomes a runnable thread
    with the deployment's attributes and the capability of the process's next
    thread, which is suspended until the scheduler elects it. *)
Theorem pok_partition_thread_create_correct {pc : PartConfig} s p pr per tm t c :
  let id := low p + thread_index p in
  let pid := current_partition s in
  znth (part_array s) pid = Some p →
  znth prio_array id = Some pr → znth period_array id = Some per → znth time_array id = Some tm →
  znth (proc_array s) id = Some t →
  proc_tcbs s !! (pid + CONFIG_PCB_OFFSET, thread_index p) = Some c → 0 < c →
  pok_partition_thread_create pid s =
    if negb (bool_decide (p_mode p = PART_MODE_COLD_START)) &&
       negb (bool_decide (p_mode p = PART_MODE_WARM_START)) then Ok (POK_ERRNO_MODE, 0) s
    else if high p <? thread_index p then Ok (POK_ERRNO_TOOMANY, 0) s
    else Ok (POK_ERRNO_OK, id)
      (upd_pok_log (ev_suspend c :: pok_log s)
        (upd_proc_array
          (<[Z.to_nat id :=
             Process POK_STATE_RUNNABLE pid pr pr tm per (p_deadline t) tm per (end_time t) 0 c]>
             (proc_array s))
          (upd_part_array
            (<[Z.to_nat pid := set_thread_index (thread_index p + 1) p]> (part_array s)) s))).
Proof.
  intros id pid Hp Hpr Hper Htm Ht Hc Hpos. unfold pok_partition_thread_create.
  rewrite (kbind_Ok _ _ _ _ _ (getPart_Ok _ _ _ Hp)).
  destruct (_ && _); [done|]. destruct (_ <? _); [done|].
  assert (0 ≤ pid < Z.of_nat (List.length (part_array s))) as Hr by (apply znth_range; eauto).
  assert (0 ≤ id < Z.of_nat (List.length (proc_array s))) as Hi by (apply znth_range; eauto).
  rewrite (kbind_Ok _ _ _ _ _ (updPart_Ok _ _ _ _ Hp)). fold id. ksteps. unfold getCurPart. kstep.
  set (s1 := upd_part_array _ s).
  rewrite (kbind_Ok _ _ _ _ _ (updProc_Ok id _ t s1 Ht)).
  erewrite kbind_Ok; [|apply getPart_Ok, znth_insert_same; exact Hr].
  replace (id - low (set_thread_index (thread_index p + 1) p)) with (thread_index p) by (cbn; lia).
  erewrite kbind_Ok; [|apply get_tcb_Ok; exact Hc].
  erewrite kbind_Ok; [|apply updProc_Ok, znth_insert_same; exact Hi].
  rewrite kassert_true by by apply Z.ltb_lt.
  unfold syscall. kstep. cbn [proc_array upd_proc_array set_ktcb]. by rewrite list_insert_insert_eq.
Qed.

(** The deployment being initialised: partition 1 owns threads 2 to 4. *)
Definition init_parts (index : Z) : list partition :=
  [Partition 2 PART_MODE_WARM_START 0 0 1 1 2 0 5 0 0;
   Partition 3 PART_MODE_WARM_START 0 2 4 index 3 0 5 2 2].
Definition init_state (part index : Z) : pok_state :=
  upd_current part 0 (upd_part_array (init_parts index) (@boot_state deployment deployment_tcbs)).

Lemma pok_partition_thread_create_correct_witness :
  ∃ s', @pok_partition_thread_create deployment 0 (init_state 0 1) = Ok (POK_ERRNO_OK, 1) s'.
Proof.
  eexists. etransitivity.
  - by apply (@pok_partition_thread_create_correct deployment (init_state 0 1)
      (Partition 2 PART_MODE_WARM_START 0 0 1 1 2 0 5 0 0) 100 1000 1000 zero_process 17).
  - vm_compute. reflexivity.
Defined.

(** The guard compares the number of created threads with the partition's
    last global thread index: a partition that is not the first one may create
    more threads than it owns, and the write leaves the table of threads as
    soon as the index does. *)
Theorem thread_create_overruns {pc : PartConfig} s pid p :
  znth (part_array s) pid = Some p →
  p_mode p = PART_MODE_WARM_START → thread_index p ≤ high p →
  Z.of_nat (List.length prio_array) ≤ low p + thread_index p →
  pok_partition_thread_create pid s = Panic.
Proof.
  intros Hp Hm Hti Hout. unfold pok_partition_thread_create.
  rewrite (kbind_Ok _ _ _ _ _ (getPart_Ok _ _ _ Hp)), Hm.
  rewrite (bool_decide_eq_true_2 (PART_MODE_WARM_START = PART_MODE_WARM_START)), andb_false_r by done.
  rewrite (proj2 (Z.ltb_ge _ _) Hti). rewrite (kbind_Ok _ _ _ _ _ (updPart_Ok _ _ _ _ Hp)).
  apply kbind_Panic. assert (znth prio_array (low p + thread_index p) = None) as ->; [|done].
  apply eq_None_not_Some. rewrite <- znth_range. lia.
Qed.

Lemma thread_create_overruns_witness :
  (high (Partition 3 PART_MODE_WARM_START 0 2 4 3 3 0 5 2 2) = 4) ∧
  @pok_partition_thread_create deployment 1 (init_state 1 3) = Panic.
Proof.
  split; [done|].
  by apply (@thread_create_overruns deployment (init_state 1 3) 1
    (Partition 3 PART_MODE_WARM_START 0 2 4 3 3 0 5 2 2)).
Defined.

(** ** Sampling ports *)

(** A sampling read that passes its checks writes one byte past its local
    buffer: no read of a port ever succeeds within the bounds of its memory. *)
Theorem pok_port_get_never_succeeds pid size s s' :
  0 ≤ size → pok_port_get pid size s ≠ Ok POK_ERRNO_OK s'.
Proof.
  intros Hs. unfold pok_port_get, kbind. destruct (getPort pid s) as [p s1| |]; try done.
  destruct (_ =? _); [|done]. destruct (port_empty p); [done|]. destruct (_ <? _); [done|].
  unfold store. destruct (znth _ (size + 1)) as [x|] eqn:E; [|done].
  assert (0 ≤ size + 1 < Z.of_nat (List.length (take (Z.to_nat size) (port_data p) ++ [None])))
    as Hr by (apply znth_range; eauto).
  rewrite length_app, length_take in Hr. cbn in Hr. lia.
Qed.

Lemma pok_port_get_never_succeeds_witness :
  0 ≤ 4 ∧ ∀ s s', pok_port_get 1 4 s ≠ Ok POK_ERRNO_OK s'.
Proof. split; [done|]. intros s s'. by apply pok_port_get_never_succeeds. Defined.

(** Writing a sampling port: a port of another kind is refused, a message
    longer than the destination too; otherwise the message replaces the first
    bytes of the destination, which becomes non-empty and is stamped with the
    present tick, and every other port keeps its value. *)
Theorem pok_port_write_correct {pc : PartConfig} s pid data size dest p d :
  znth pok_ports_nb_destinations pid = Some dest →
  znth (pok_ports s) pid = Some p → znth (pok_ports s) dest = Some d →
  0 ≤ size ≤ Z.of_nat (List.length data) →
  Z.of_nat (List.length (port_data d)) = port_size d →
  (port_kind p ≠ POK_PORT_KIND_SAMPLING → pok_port_write pid data size s = Ok POK_ERRNO_EINVAL s) ∧
  (port_kind p = POK_PORT_KIND_SAMPLING → port_size d < size →
     pok_port_write pid data size s = Ok POK_ERRNO_SIZE s) ∧
  (port_kind p = POK_PORT_KIND_SAMPLING → size ≤ port_size d →
     ∃ s' d', pok_port_write pid data size s = Ok POK_ERRNO_OK s' ∧
       znth (pok_ports s') dest = Some d' ∧
       take (Z.to_nat size) (port_data d') = map Some (take (Z.to_nat size) data) ∧
       drop (Z.to_nat size) (port_data d') = drop (Z.to_nat size) (port_data d) ∧
       Z.of_nat (List.length (port_data d')) = port_size d' ∧
       port_empty d' = false ∧ last_receive d' = w32 (pok_tick_counter s) ∧
       ∀ i, i ≠ dest → znth (pok_ports s') i = znth (pok_ports s) i).
Proof.
  intros Hdest Hp Hd Hsz Hlen. unfold pok_port_write. ksteps.
  rewrite (kbind_Ok _ _ _ _ _ (getPort_Ok _ _ _ Hp)).
  split_and!; [by intros Hk%Z.eqb_neq; rewrite Hk|intros -> Hl|intros -> Hl];
    cbn [Z.eqb POK_PORT_KIND_SAMPLING Pos.eqb];
    rewrite (kbind_Ok _ _ _ _ _ (getPort_Ok _ _ _ Hd)).
  - by rewrite (proj2 (Z.ltb_lt _ _) Hl).
  - rewrite (proj2 (Z.ltb_ge _ _) Hl). kstep.
    rewrite (kbind_Ok _ _ _ _ _ (updPort_Ok _ _ _ _ Hd)). eexists _, _. split; [done|].
    assert (0 ≤ dest < Z.of_nat (List.length (pok_ports s))) as Hr by (apply znth_range; eauto).
    split; [cbn [pok_ports upd_pok_ports]; by apply znth_insert_same|].
    assert (List.length (map (@Some Z) (take (Z.to_nat size) data)) = Z.to_nat size) as Hm
      by (rewrite length_map, length_take; lia).
    cbn [port_data port_size port_empty last_receive]. rewrite take_app_length', drop_app_length' by done.
    split_and!; try done.
    + rewrite length_app, Hm, length_drop. lia.
    + intros i Hi. cbn [pok_ports upd_pok_ports]. rewrite znth_insert by done.
      by rewrite (proj2 (Z.eqb_neq dest i)).
Qed.

Definition port_state : pok_state :=
  upd_pok_ports
    [Port 0 0 false 4 POK_PORT_DIRECTION_OUT true true POK_PORT_KIND_SAMPLING 0 0 false (repeat None 4);
     Port 1 1 false 4 POK_PORT_DIRECTION_IN true true POK_PORT_KIND_SAMPLING 0 0 false (repeat None 4)]
    (@boot_state deployment ∅).

Lemma pok_port_write_correct_witness :
  ∃ s' d', @pok_port_write deployment 0 [104; 105; 0; 0] 2 port_state = Ok POK_ERRNO_OK s' ∧
    znth (pok_ports s') 1 = Some d' ∧ take 2 (port_data d') = [Some 104; Some 105].
Proof.
  destruct (@pok_port_write_correct deployment port_state 0 [104; 105; 0; 0] 2 1
    (Port 0 0 false 4 POK_PORT_DIRECTION_OUT true true POK_PORT_KIND_SAMPLING 0 0 false (repeat None 4))
    (Port 1 1 false 4 POK_PORT_DIRECTION_IN true true POK_PORT_KIND_SAMPLING 0 0 false (repeat None 4)))
    as (_ & _ & H); [done..|]. destruct H as (s' & d' & E & Hd & Ht & _); [done..|].
  by exists s', d'.
Defined.
