(* ===== verification/DataStruct.v ===== *)
(** * The data structures of the RefOS servers

    Models [src/projects/refos/impl/libs/libdatastruct/]: growing vectors
    ([cvector]), bounded queues ([cqueue]), pools of identifiers ([cpool]), bit
    maps of ranges ([cbpool]), tables of objects ([coat]) and hash tables
    ([chash]).  An array of the heap is the list of its elements, [None] where
    nothing was stored yet and [[]] for NULL; a failed assertion or an access
    outside an array is [None].  [malloc_ok] tells which sizes the allocator
    serves.  The tables of objects are modelled a second time, at the end, with
    callbacks that are computations of a server. *)

From S2P Require Import Prelude.
From S2P Require Import Word32.

(** Storing into an array, reading from it. *)
Definition put {A} (d : list (option A)) (i : Z) (v : A) : option (list (option A)) :=
  store d i (Some v).
Definition fetch {A} (d : list (option A)) (i : Z) : option A :=
  match znth d i with Some (Some v) => Some v | _ => None end.
Definition guard (b : bool) : option unit := if b then Some tt else None.
(** The value of a word as a signed integer. *)
Definition s32 (x : Z) : Z := (x + 2 ^ 31) mod 2 ^ 32 - 2 ^ 31.

Definition ENOMEM : Z := 12.
Definition EBADF : Z := 9.

Section DataStruct.
Context (malloc_ok : Z → bool).

(** An array of [n] words. *)
Definition kmalloc {A} (n : Z) : option (list (option A)) :=
  if malloc_ok (w32 (4 * n)) then Some (repeat None (Z.to_nat (w32 (4 * n) / 4))) else None.
Definition krealloc {A} (d : list (option A)) (n : Z) : option (list (option A)) :=
  if malloc_ok (w32 (4 * n)) then
    let k := Z.to_nat (w32 (4 * n) / 4) in
    Some (take k d ++ repeat None (k - length d))
  else None.

(** ** Vectors ([cvector.c]) *)
Definition CVECTOR_INIT_SIZE : Z := 4.
Definition CVECTOR_RESIZE_CHECK_FREQ : Z := 16.

Record cvector_t (A : Type) : Type := cvector {
  cv_data : list (option A);
  cv_size : Z;
  cv_count : Z;
  nextResize : Z
}.
#[global] Arguments cvector {A}.
#[global] Arguments cv_data {A}.
#[global] Arguments cv_size {A}.
#[global] Arguments cv_count {A}.
#[global] Arguments nextResize {A}.

Definition cvector_init {A} : cvector_t A := cvector [] 0 0 CVECTOR_RESIZE_CHECK_FREQ.
Definition cvector_count {A} (v : cvector_t A) : Z := cv_count v.

Definition cvector_delete_resize {A} (v : cvector_t A) : cvector_t A :=
  let next := s32 (nextResize v - 1) in
  if 0 <? nextResize v then cvector (cv_data v) (cv_size v) (cv_count v) next
  else if w32 (w32 (cv_count v + 2) * 2) <? cv_size v then
    let size := w32 (cv_count v + 2) in
    cvector (default [] (krealloc (cv_data v) size)) size (cv_count v) CVECTOR_RESIZE_CHECK_FREQ
  else cvector (cv_data v) (cv_size v) (cv_count v) next.

(** The vector and the index of the new element. *)
Definition cvector_add {A} (v : cvector_t A) (e : A) : option (cvector_t A * Z) :=
  let? v :=
    if cv_size v =? 0 then
      let? data := kmalloc CVECTOR_INIT_SIZE in
      Some (cvector data CVECTOR_INIT_SIZE (cv_count v) (nextResize v))
    else Some v in
  let? v :=
    if cv_size v <=? cv_count v then
      let size := w32 (cv_size v * 2) in
      let? data := krealloc (cv_data v) size in
      Some (cvector data size (cv_count v) (nextResize v))
    else Some v in
  let? data := put (cv_data v) (cv_count v) e in
  Some (cvector data (cv_size v) (w32 (cv_count v + 1)) (nextResize v), cv_count v).

Definition cvector_set {A} (v : cvector_t A) (index : Z) (e : A) : option (cvector_t A) :=
  let? _ := guard (index <? cv_count v) in
  let? data := put (cv_data v) index e in
  Some (cvector data (cv_size v) (cv_count v) (nextResize v)).

Definition cvector_get {A} (v : cvector_t A) (index : Z) : option A :=
  let? _ := guard (w32 index <? cv_count v) in
  fetch (cv_data v) index.

(** Moving the elements from [i + 1] on one place down. *)
Fixpoint shift_down {A} (n : nat) (d : list (option A)) (i : Z) : option (list (option A)) :=
  match n with
  | O => Some d
  | S n =>
      let? x := znth d (i + 1) in
      let? d := store d i x in
      shift_down n d (i + 1)
  end.

Definition cvector_delete {A} (v : cvector_t A) (index : Z) : option (cvector_t A) :=
  let? _ := guard (w32 index <? cv_count v) in
  let? data := shift_down (Z.to_nat (cv_count v - 1 - index)) (cv_data v) index in
  Some (cvector_delete_resize (cvector data (cv_size v) (cv_count v - 1) (nextResize v))).

Definition cvector_free {A} (v : cvector_t A) : cvector_t A := cvector_init.
Definition cvector_reset {A} (v : cvector_t A) : cvector_t A :=
  cvector (cv_data v) (cv_size v) 0 (nextResize v).

(** ** Queues ([cqueue.c]) *)
Record cqueue_t : Type := cqueue {
  cq_data : list (option Z);
  cq_top : Z;
  cq_count : Z;
  maxSize : Z
}.

Definition cqueue_init (size : Z) : option cqueue_t :=
  let? data := kmalloc size in Some (cqueue data 0 0 size).
Definition cqueue_size (q : cqueue_t) : Z := cq_count q.

Definition cqueue_push (q : cqueue_t) (e : Z) : option (cqueue_t * bool) :=
  if maxSize q <=? cq_count q then Some (q, false)
  else
    let? data := put (cq_data q) (cq_top q) e in
    Some (cqueue data (w32 (cq_top q + 1) mod maxSize q) (w32 (cq_count q + 1)) (maxSize q), true).

Definition cqueue_pop (q : cqueue_t) : option (cqueue_t * Z) :=
  if cq_count q =? 0 then Some (q, 0)
  else
    let bot := if cq_count q <=? cq_top q then cq_top q - cq_count q
               else w32 (maxSize q - (cq_count q - cq_top q)) in
    let? _ := guard (bot <? maxSize q) in
    let? item := fetch (cq_data q) bot in
    Some (cqueue (cq_data q) (cq_top q) (cq_count q - 1) (maxSize q), item).

Definition cqueue_free (q : cqueue_t) : cqueue_t := cqueue [] 0 0 0.

(** ** Pools of identifiers ([cpool.c]) *)
Record cpool_t : Type := cpool {
  cp_start : Z;
  cp_end : Z;
  cp_mx : Z;
  freelist : cvector_t Z
}.

Definition cpool_init (start end_ : Z) : cpool_t := cpool start end_ start cvector_init.
Definition cpool_release (p : cpool_t) : cpool_t := cpool_init 0 0.

Definition cpool_alloc (p : cpool_t) : option (cpool_t * Z) :=
  let fSz := cvector_count (freelist p) in
  if 0 <? fSz then
    let? obj := cvector_get (freelist p) (fSz - 1) in
    let? fl := cvector_delete (freelist p) (fSz - 1) in
    Some (cpool (cp_start p) (cp_end p) (cp_mx p) fl, obj)
  else if cp_mx p <=? cp_end p then
    Some (cpool (cp_start p) (cp_end p) (w32 (cp_mx p + 1)) (freelist p), cp_mx p)
  else Some (p, 0).

Definition cpool_free (p : cpool_t) (obj : Z) : option cpool_t :=
  if (obj <? cp_start p) || (cp_end p <? obj) || (cp_mx p <=? obj) then Some p
  else if obj =? cp_mx p then
    Some (cpool (cp_start p) (cp_end p) (w32 (obj - 1)) (freelist p))
  else
    match cvector_add (freelist p) obj with
    | Some (fl, _) => Some (cpool (cp_start p) (cp_end p) (cp_mx p) fl)
    | None => None
    end.

Fixpoint find_from (n : nat) (v : cvector_t Z) (i obj : Z) : option bool :=
  match n with
  | O => Some false
  | S n =>
      let? x := cvector_get v i in
      if x =? obj then Some true else find_from n v (i + 1) obj
  end.
Definition cpool_check (p : cpool_t) (obj : Z) : option bool :=
  if (obj <? cp_start p) || (cp_end p <? obj) then Some false
  else if cp_mx p <? obj then Some true
  else find_from (Z.to_nat (cvector_count (freelist p))) (freelist p) 0 obj.

(** ** Bit maps ([cbpool.c]) *)
Definition CBPOOL_INVALID : Z := 2 ^ 32 - 1.

Record cbpool_t : Type := cbpool {
  cb_size : Z;
  size_ntiles : Z;
  bitmap : list Z
}.

Definition cbpool_init (size : Z) : option cbpool_t :=
  let ntiles := size / 32 + 1 in
  let? _ := guard (malloc_ok (w32 (ntiles * 4))) in
  Some (cbpool size ntiles (repeat 0 (Z.to_nat ntiles))).
(** [buffer] is the caller's memory, of [bufferSize] bytes. *)
Definition cbpool_init_static (size bufferSize : Z) : option cbpool_t :=
  let ntiles := size / 32 + 1 in
  let? _ := guard (ntiles * 4 <=? bufferSize) in
  Some (cbpool size ntiles (repeat 0 (Z.to_nat ntiles))).

(** The memory is the allocator's again. *)
Definition cbpool_release (p : cbpool_t) : cbpool_t := cbpool (cb_size p) (size_ntiles p) [].

Definition cbpool_check_single (p : cbpool_t) (obj : Z) : option bool :=
  let idx := obj / 32 in
  let? _ := guard (idx <? size_ntiles p) in
  let? b := znth (bitmap p) idx in
  Some (negb (Z.land b (BIT (obj mod 32)) =? 0)).

Definition cbpool_set_single (p : cbpool_t) (obj : Z) (val : bool) : option cbpool_t :=
  let idx := obj / 32 in
  let? _ := guard (idx <? size_ntiles p) in
  let? b := znth (bitmap p) idx in
  let b := if val then Z.lor b (BIT (obj mod 32)) else Z.land b (wnot (BIT (obj mod 32))) in
  let? bm := store (bitmap p) idx b in
  Some (cbpool (cb_size p) (size_ntiles p) bm).

(** Setting [n] bits from [obj] on. *)
Fixpoint set_range (n : nat) (p : cbpool_t) (obj : Z) (val : bool) : option cbpool_t :=
  match n with
  | O => Some p
  | S n => let? p := cbpool_set_single p obj val in set_range n p (obj + 1) val
  end.

Fixpoint alloc_loop (fuel : nat) (p : cbpool_t) (size i ed inc : Z) (lt : bool) (freesz : Z) :
    option (cbpool_t * Z) :=
  match fuel with
  | O => None
  | S fuel =>
      if (if lt then i <? ed else ed <=? i) then
        let? used := cbpool_check_single p i in
        if negb used then
          let freesz := freesz + 1 in
          if size <=? freesz then
            let sta := w32 (i - (freesz - 1)) in
            let? p := set_range (Z.to_nat (i - sta + 1)) p sta true in
            Some (p, sta)
          else alloc_loop fuel p size (i + inc) ed inc lt freesz
        else alloc_loop fuel p size (i + inc) ed inc lt 0
      else Some (p, CBPOOL_INVALID)
  end.
Definition cbpool_alloc_internal (p : cbpool_t) (size st ed inc : Z) (lt : bool) :
    option (cbpool_t * Z) :=
  if size =? 0 then Some (p, CBPOOL_INVALID)
  else alloc_loop (S (Z.to_nat (Z.abs (ed - st)))) p size st ed inc lt 0.
Definition cbpool_alloc (p : cbpool_t) (size : Z) : option (cbpool_t * Z) :=
  cbpool_alloc_internal p size 0 (s32 (cb_size p)) 1 true.

Definition cbpool_free (p : cbpool_t) (obj size : Z) : option cbpool_t :=
  if size =? 0 then Some p
  else
    let end_ := w32 (obj + size) in
    let end_ := if cb_size p <=? end_ then w32 (cb_size p - 1) else end_ in
    set_range (Z.to_nat (end_ - obj)) p obj false.

(** ** Tables of objects ([coat.c]) *)

(** The callbacks of a table: the object made for an identifier (0 for none),
    and whether deletions are reported. *)
Record coat_ops : Type := {
  oat_create : option (Z → list Z → Z);
  oat_delete : bool
}.
Record coat_t : Type := coat {
  pool : cpool_t;
  table : cvector_t Z;
  oat_deleted : list Z
}.
Definition COAT_INVALID_ID : Z := -1.

Definition coat_init (start end_ : Z) : option coat_t :=
  let? _ := guard (negb (start =? 0)) in
  Some (coat (cpool_init start end_) cvector_init []).

Fixpoint fill_table (fuel : nat) (v : cvector_t Z) (id : Z) : option (cvector_t Z) :=
  match fuel with
  | O => None
  | S fuel =>
      if cvector_count v <=? id then
        match cvector_add v 0 with
        | Some (v, _) => fill_table fuel v id
        | None => None
        end
      else Some v
  end.

(** The table, the identifier and the object. *)
Definition coat_alloc (ops : coat_ops) (t : coat_t) (arg : list Z) : option (coat_t * Z * Z) :=
  match cpool_alloc (pool t) with
  | None => None
  | Some (pl, id) =>
      if (id =? 0) || (id =? w32 COAT_INVALID_ID) then
        let? pl := if negb (id =? 0) then cpool_free pl id else Some pl in
        Some (coat pl (table t) (oat_deleted t), COAT_INVALID_ID, 0)
      else
        let? tb := fill_table (Z.to_nat (id + 2)) (table t) id in
        let? obj := cvector_get tb id in
        match oat_create ops with
        | Some create =>
            if obj =? 0 then
              let obj := create id arg in
              if obj =? 0 then
                let? pl := cpool_free pl id in
                Some (coat pl tb (oat_deleted t), COAT_INVALID_ID, 0)
              else
                let? tb := cvector_set tb id obj in
                Some (coat pl tb (oat_deleted t), s32 id, obj)
            else Some (coat pl tb (oat_deleted t), s32 id, obj)
        | None => Some (coat pl tb (oat_deleted t), s32 id, obj)
        end
  end.

Definition coat_get (t : coat_t) (id : Z) : option Z :=
  let id := w32 id in
  if (id <? cp_start (pool t)) || (cp_end (pool t) <=? id) || (cvector_count (table t) <=? id)
  then Some 0 else cvector_get (table t) id.

Definition coat_free (ops : coat_ops) (t : coat_t) (id : Z) : option (coat_t * Z) :=
  let id := w32 id in
  let? free := cpool_check (pool t) id in
  if free then Some (t, - EBADF)
  else
    let? obj := if oat_delete ops then coat_get t id else Some 1 in
    if obj =? 0 then Some (t, - EBADF)
    else
      let? tb := cvector_set (table t) id 0 in
      let? pl := cpool_free (pool t) id in
      Some (coat pl tb (if oat_delete ops then obj :: oat_deleted t else oat_deleted t), 0).

(** Reporting the deletion of the objects among the first [n] from [i] on. *)
Fixpoint release_loop (n : nat) (ops : coat_ops) (v : cvector_t Z) (i : Z) (deleted : list Z) :
    option (list Z) :=
  match n with
  | O => Some deleted
  | S n =>
      let? obj := cvector_get v i in
      release_loop n ops v (i + 1)
        (if negb (obj =? 0) && oat_delete ops then obj :: deleted else deleted)
  end.
Definition coat_release (ops : coat_ops) (t : coat_t) : option coat_t :=
  let? deleted :=
    release_loop (Z.to_nat (cvector_count (table t))) ops (table t) 0 (oat_deleted t) in
  Some (coat (cpool_release (pool t)) (cvector_free (table t)) deleted).

(** ** Hash tables ([chash.c]) *)
Record chash_entry_t : Type := chash_entry { entry_key : Z; entry_item : Z }.
Record chash_t : Type := chash {
  buckets : list (cvector_t chash_entry_t);
  tableSize : Z
}.

(** The bytes of a key, which is stored with its low byte first; [char] is
    unsigned on ARM. *)
Definition key_bytes (key : Z) : list Z := (λ i, field 8 (Z.shiftr key (8 * i))) <$> [0; 1; 2; 3].
Definition DEKHash (str : list Z) : Z :=
  foldl (λ hash c, Z.lxor (Z.lxor (w32 (Z.shiftl hash 5)) (Z.shiftr hash 27)) c)
    (Z.of_nat (length str)) str.
Definition chash_hash (key md : Z) : Z := DEKHash (key_bytes key) mod md.

Definition chash_init (sz : Z) : option chash_t :=
  let? _ := guard (malloc_ok (w32 (16 * sz))) in
  Some (chash (repeat cvector_init (Z.to_nat sz)) sz).
Definition chash_release (t : chash_t) : chash_t := chash [] 0.

(** The index and the entry of a key among the first [n] from [i] on. *)
Fixpoint entry_loop (n : nat) (v : cvector_t chash_entry_t) (i key : Z) :
    option (option (Z * chash_entry_t)) :=
  match n with
  | O => Some None
  | S n =>
      let? e := cvector_get v i in
      if entry_key e =? key then Some (Some (i, e)) else entry_loop n v (i + 1) key
  end.
Definition chash_get_entry (t : chash_t) (h key : Z) : option (option (Z * chash_entry_t)) :=
  let? v := znth (buckets t) h in
  entry_loop (Z.to_nat (cvector_count v)) v 0 key.

Definition chash_get (t : chash_t) (key : Z) : option Z :=
  let? e := chash_get_entry t (chash_hash key (tableSize t)) key in
  Some match e with Some (_, e) => entry_item e | None => 0 end.

Definition set_bucket (t : chash_t) (h : Z) (v : cvector_t chash_entry_t) : option chash_t :=
  let? b := store (buckets t) h v in Some (chash b (tableSize t)).

Definition chash_set (t : chash_t) (key obj : Z) : option (chash_t * Z) :=
  let h := chash_hash key (tableSize t) in
  let? e := chash_get_entry t h key in
  let? v := znth (buckets t) h in
  match e with
  | Some (i, _) =>
      let? v := cvector_set v i (chash_entry key obj) in
      let? t := set_bucket t h v in
      Some (t, 0)
  | None =>
      if malloc_ok 8 then
        match cvector_add v (chash_entry key obj) with
        | Some (v, _) => let? t := set_bucket t h v in Some (t, 0)
        | None => None
        end
      else Some (t, - ENOMEM)
  end.

Definition chash_remove (t : chash_t) (key : Z) : option chash_t :=
  let h := chash_hash key (tableSize t) in
  let? e := chash_get_entry t h key in
  match e with
  | Some (i, _) =>
      let? v := znth (buckets t) h in
      let? v := cvector_delete v i in
      set_bucket t h v
  | None => Some t
  end.

Fixpoint free_loop (n : nat) (t : chash_t) (i : Z) : option Z :=
  match n with
  | O => Some (-1)
  | S n =>
      let? e := chash_get_entry t (chash_hash i (tableSize t)) i in
      match e with Some _ => free_loop n t (i + 1) | None => Some (s32 i) end
  end.
Definition chash_find_free (t : chash_t) (rangeStart rangeEnd : Z) : option Z :=
  free_loop (Z.to_nat (rangeEnd - rangeStart)) t rangeStart.
End DataStruct.

(** ** Tables with callbacks

    The tables of objects of [libs/libdatastruct/src/coat.c] as the servers use
    them: the callbacks that create and delete an object are computations of the
    server.  [get] and [upd] are the table in the server's state. *)
Section Table.
Context (malloc_ok : Z → bool) {S : Type} (get : S → coat_t) (upd : coat_t → S → S).

Definition oat_set_pool (pl : cpool_t) : M S unit :=
  modify (λ s, upd (coat pl (table (get s)) (oat_deleted (get s))) s).
Definition oat_set_table (tb : cvector_t Z) : M S unit :=
  modify (λ s, upd (coat (pool (get s)) tb (oat_deleted (get s))) s).
Definition oat_free_id (id : Z) : M S unit :=
  let! t := gets get in
  let! pl := kopt (cpool_free malloc_ok (pool t) id) in
  oat_set_pool pl.
Definition oat_set_object (id obj : Z) : M S unit :=
  let! t := gets get in
  let! tb := kopt (cvector_set (table t) id obj) in
  oat_set_table tb.

(** The identifier and the object, 0 for none. *)
Definition oat_alloc (oat_create : Z → M S Z) : M S (Z * Z) :=
  let! t := gets get in
  let! ' (pl, id) := kopt (cpool_alloc malloc_ok (pool t)) in
  oat_set_pool pl ;;;
  if (id =? 0) || (id =? w32 COAT_INVALID_ID) then
    kwhen (negb (id =? 0)) (oat_free_id id) ;;;
    kret (COAT_INVALID_ID, 0)
  else
    let! tb := kopt (fill_table malloc_ok (Z.to_nat (id + 2)) (table t) id) in
    oat_set_table tb ;;;
    let! obj := kopt (cvector_get tb id) in
    if obj =? 0 then
      let! obj := oat_create id in
      if obj =? 0 then oat_free_id id ;;; kret (COAT_INVALID_ID, 0)
      else oat_set_object id obj ;;; kret (s32 id, obj)
    else kret (s32 id, obj).

Definition oat_get (id : Z) : M S Z :=
  let! t := gets get in kopt (coat_get t id).

Definition oat_free (oat_delete : Z → M S unit) (id : Z) : M S Z :=
  let id := w32 id in
  let! t := gets get in
  let! free := kopt (cpool_check (pool t) id) in
  if free : bool then kret (- EBADF)
  else
    let! obj := kopt (coat_get t id) in
    if obj =? 0 then kret (- EBADF)
    else
      oat_delete obj ;;;
      oat_set_object id 0 ;;;
      oat_free_id id ;;;
      kret 0.

Definition oat_release (oat_delete : Z → M S unit) : M S unit :=
  let! t := gets get in
  kfor (seqZ 0 (cvector_count (table t))) (λ i,
    let! t := gets get in
    let! obj := kopt (cvector_get (table t) i) in
    kwhen (negb (obj =? 0)) (oat_delete obj)) ;;;
  oat_set_table cvector_init ;;;
  let! t := gets get in
  oat_set_pool (cpool_release (pool t)).
End Table.

