(* ===== verification/DataVec.v ===== *)
(** * Vectors and queues refine lists, hash tables finite maps

    The contract of [cvector] as a relation to lists with one lemma per
    operation, which the clients of vectors use, and the refinement of
    [cqueue] by a bounded list and of [chash] by a finite map. *)

From S2P Require Import Prelude.
From S2P Require Import Word32.
From S2P Require Import DataStruct.

(** ** Arrays that begin with known elements *)
Section Arrays.
Context {A : Type}.
Implicit Types (d : list (option A)) (l : list A).

Lemma znth_mid d x d2 i : i = Z.of_nat (length d) → znth (d ++ x :: d2) i = Some x.
Proof.
  intros ->. rewrite znth_lookup by lia. rewrite Nat2Z.id.
  rewrite lookup_app_r by lia. by rewrite Nat.sub_diag.
Qed.

Lemma store_mid d x d2 i y :
  i = Z.of_nat (length d) → store (d ++ x :: d2) i y = Some (d ++ y :: d2).
Proof.
  intros ->. rewrite store_Some.
  - by rewrite Nat2Z.id, insert_app_r_alt, Nat.sub_diag by lia.
  - rewrite length_app. cbn [length]. lia.
Qed.

Lemma shift_down_spec n d x mid d2 i :
  i = Z.of_nat (length d) → n = length mid →
  ∃ y, shift_down n (d ++ x :: mid ++ d2) i = Some (d ++ mid ++ y :: d2).
Proof.
  intros -> ->. revert d x. induction mid as [|y mid IH]; intros d x; cbn [length shift_down app].
  - by exists x.
  - assert (znth (d ++ x :: y :: mid ++ d2) (Z.of_nat (length d) + 1) = Some y) as ->.
    { rewrite cons_middle, app_assoc. apply znth_mid. rewrite length_app. cbn. lia. }
    rewrite store_mid by done.
    destruct (IH (d ++ [y]) y) as [z Hz]. exists z.
    rewrite length_app, <-!app_assoc in Hz. cbn [app length] in Hz.
    by replace (Z.of_nat (length d) + 1) with (Z.of_nat (length d + 1)) by lia.
Qed.

Lemma znth_known l d i x :
  0 ≤ i → l !! Z.to_nat i = Some x → znth ((Some <$> l) ++ d) i = Some (Some x).
Proof.
  intros Hi Hx. rewrite znth_lookup by done. apply lookup_app_l_Some.
  by rewrite list_lookup_fmap, Hx.
Qed.
End Arrays.

(** ** Vectors *)
Section Vectors.
(** Vectors of up to [lim] elements: the allocator serves their arrays. *)
Context (malloc_ok : Z → bool) (lim : Z) (Hlim : 16 ≤ lim ≤ 2 ^ 28).
Context (Hmalloc : ∀ n, 0 < n ≤ 8 * lim → malloc_ok n = true).

(** [v] holds the elements of [l]. *)
Record vrep {A} (v : cvector_t A) (l : list A) : Prop := {
  vr_data : ∃ junk, cv_data v = (Some <$> l) ++ junk;
  vr_size : Z.of_nat (length (cv_data v)) = cv_size v;
  vr_count : cv_count v = Z.of_nat (length l);
  vr_lim : Z.of_nat (length l) ≤ lim;
  vr_max : cv_size v ≤ 2 * lim
}.

Lemma vrep_le {A} (v : cvector_t A) l : vrep v l → cv_count v ≤ cv_size v.
Proof using Type.
  intros [[junk Hd] Hs Hc _ _]. rewrite Hd, length_app, length_fmap in Hs. lia.
Qed.

Lemma words_small n : 0 < n ≤ 2 * lim → w32 (4 * n) = 4 * n.
Proof using Hlim. intros H. apply Z.mod_small. lia. Qed.

Lemma krealloc_Some {A} (d : list (option A)) n :
  0 < n ≤ 2 * lim →
  krealloc malloc_ok d n =
    Some (take (Z.to_nat n) d ++ repeat None (Z.to_nat n - length d)).
Proof using Hlim Hmalloc.
  intros H. unfold krealloc. rewrite words_small, Hmalloc by lia.
  by rewrite (Z.mul_comm 4), Z.div_mul by lia.
Qed.

Lemma kmalloc_Some {A} n :
  0 < n ≤ 2 * lim → kmalloc (A:=A) malloc_ok n = Some (repeat None (Z.to_nat n)).
Proof using Hlim Hmalloc.
  intros H. unfold kmalloc. rewrite words_small, Hmalloc by lia.
  by rewrite (Z.mul_comm 4), Z.div_mul by lia.
Qed.

(** A vector moved to an array of [n] elements that keeps its contents. *)
Lemma vrep_realloc {A} (v : cvector_t A) l n d r :
  vrep v l → Z.of_nat (length l) ≤ n → 0 < n ≤ 2 * lim →
  krealloc malloc_ok (cv_data v) n = Some d → vrep (cvector d n (cv_count v) r) l.
Proof using Hlim Hmalloc.
  intros [[junk Hd] Hs Hc Hl Hm] Hn Hp. rewrite krealloc_Some by done. intros [= <-].
  split; cbn; try done; [|rewrite length_app, length_take, repeat_length; lia|lia].
  rewrite Hd, take_app, <-app_assoc, take_ge by (rewrite length_fmap; lia). eauto.
Qed.

Lemma cvector_init_vrep {A} : vrep (A:=A) cvector_init [].
Proof using Hlim. split; cbn; try lia. by exists []. Qed.

Lemma cvector_reset_vrep {A} (v : cvector_t A) l : vrep v l → vrep (cvector_reset v) [].
Proof using Hlim. intros []. split; cbn; try done; try lia. by exists (cv_data v). Qed.

(** Storing at a known place. *)
Lemma put_end {A} (l : list A) x junk e :
  put ((Some <$> l) ++ x :: junk) (Z.of_nat (length l)) e = Some ((Some <$> (l ++ [e])) ++ junk).
Proof.
  unfold put. rewrite store_mid by by rewrite length_fmap.
  by rewrite fmap_app, <-app_assoc.
Qed.

Lemma vrep_put {A} (v : cvector_t A) l e :
  vrep v l → cv_count v < cv_size v → cv_count v < lim →
  ∃ d, put (cv_data v) (cv_count v) e = Some d ∧
    vrep (cvector d (cv_size v) (w32 (cv_count v + 1)) (nextResize v)) (l ++ [e]).
Proof using Hlim.
  intros [[junk Hd] Hs Hc Hl Hm] Hlt Hlt2.
  destruct junk as [|x junk].
  { rewrite Hd, app_nil_r, length_fmap in Hs. lia. }
  exists ((Some <$> (l ++ [e])) ++ junk). rewrite Hd, Hc, put_end. split; [done|].
  rewrite Hd in Hs. rewrite length_app, length_fmap in Hs. cbn in Hs.
  unfold w32. rewrite Z.mod_small by lia.
  split; cbn; rewrite ?length_app, ?length_fmap, ?length_app; cbn; try lia. by exists junk.
Qed.

Lemma cvector_add_spec {A} (v : cvector_t A) l e :
  vrep v l → Z.of_nat (length l) < lim →
  ∃ v', cvector_add malloc_ok v e = Some (v', Z.of_nat (length l)) ∧ vrep v' (l ++ [e]).
Proof using Hlim Hmalloc.
  intros Hv Hl. unfold cvector_add.
  assert (∃ v1, (if cv_size v =? 0 then
      let? data := kmalloc malloc_ok CVECTOR_INIT_SIZE in
      Some (cvector data CVECTOR_INIT_SIZE (cv_count v) (nextResize v))
    else Some v) = Some v1 ∧ vrep v1 l ∧ 0 < cv_size v1) as (v1 & -> & Hv1 & Hp).
  { destruct (Z.eqb_spec (cv_size v) 0) as [Hz|Hz].
    - unfold CVECTOR_INIT_SIZE. rewrite kmalloc_Some by lia. eexists. split; [done|].
      destruct Hv as [[junk Hd] Hs Hc _ Hm]. split; [|cbn; lia].
      rewrite Hz, Hd, length_app, length_fmap in Hs.
      destruct l; [|cbn in Hs; lia]. split; cbn; try done; try lia. by eexists.
    - exists v. split_and!; [done|done|]. destruct Hv. lia. }
  assert (∃ v2, (if cv_size v1 <=? cv_count v1 then
      let? data := krealloc malloc_ok (cv_data v1) (w32 (cv_size v1 * 2)) in
      Some (cvector data (w32 (cv_size v1 * 2)) (cv_count v1) (nextResize v1))
    else Some v1) = Some v2 ∧ vrep v2 l ∧ cv_count v2 < cv_size v2) as (v2 & -> & Hv2 & Hp2).
  { pose proof (vr_count _ _ Hv1) as Hc. pose proof (vrep_le _ _ Hv1).
    destruct (Z.leb_spec (cv_size v1) (cv_count v1)) as [Hz|Hz]; [|by exists v1].
    unfold w32. rewrite Z.mod_small by lia.
    destruct (krealloc malloc_ok (cv_data v1) (cv_size v1 * 2)) as [d|] eqn:Hd.
    - eexists. split; [done|]. split; [|cbn [cv_count cv_size]; lia].
      apply (vrep_realloc v1); [done|lia|lia|done].
    - by rewrite krealloc_Some in Hd by lia. }
  pose proof (vr_count _ _ Hv2) as Hc.
  destruct (vrep_put v2 l e Hv2 Hp2 ltac:(lia)) as (d & -> & Hr).
  rewrite Hc in *. eexists. by split.
Qed.

Lemma vrep_lookup {A} (v : cvector_t A) l i :
  vrep v l → 0 ≤ i < Z.of_nat (length l) →
  ∃ x, l !! Z.to_nat i = Some x ∧ cvector_get v i = Some x.
Proof using Hlim.
  intros [[junk Hd] Hs Hc Hl Hm] Hi.
  destruct (lookup_lt_is_Some_2 l (Z.to_nat i)) as [x Hx]; [lia|]. exists x. split; [done|].
  unfold cvector_get, fetch, guard, w32. rewrite Z.mod_small by lia.
  rewrite (proj2 (Z.ltb_lt _ _)) by lia. by rewrite Hd, (znth_known l junk i x) by (lia || done).
Qed.

Lemma cvector_get_spec {A} (v : cvector_t A) l i :
  vrep v l → 0 ≤ i < 2 ^ 32 → cvector_get v i = l !! Z.to_nat i.
Proof using Hlim.
  intros Hv Hi. destruct (Z.lt_ge_cases i (Z.of_nat (length l))) as [Hlt|Hge].
  - by destruct (vrep_lookup v l i Hv) as (x & -> & ->); [lia|].
  - rewrite lookup_ge_None_2 by lia. unfold cvector_get, guard, w32.
    rewrite Z.mod_small by lia. rewrite (vr_count _ _ Hv).
    by rewrite (proj2 (Z.ltb_ge _ _)) by lia.
Qed.

Lemma cvector_set_spec {A} (v : cvector_t A) l i e :
  vrep v l → 0 ≤ i < Z.of_nat (length l) →
  ∃ v', cvector_set v i e = Some v' ∧ vrep v' (<[Z.to_nat i := e]> l).
Proof using Hlim.
  intros [[junk Hd] Hs Hc Hl Hm] Hi. unfold cvector_set, guard, put.
  rewrite (proj2 (Z.ltb_lt _ _)) by lia.
  rewrite store_Some by (rewrite Hd, length_app, length_fmap; lia).
  eexists. split; [done|].
  split; cbn; rewrite ?length_insert; try done.
  exists junk. rewrite Hd, insert_app_l by (rewrite length_fmap; lia).
  by rewrite list_fmap_insert.
Qed.

Lemma cvector_delete_resize_spec {A} (v : cvector_t A) l :
  vrep v l → vrep (cvector_delete_resize malloc_ok v) l.
Proof using Hlim Hmalloc.
  intros Hv. unfold cvector_delete_resize. pose proof Hv as [_ Hs Hc Hl Hm].
  destruct (0 <? nextResize v); [by destruct Hv|].
  assert (w32 (cv_count v + 2) = cv_count v + 2) as -> by (apply Z.mod_small; lia).
  unfold w32. rewrite Z.mod_small by lia.
  destruct (Z.ltb_spec ((cv_count v + 2) * 2) (cv_size v)) as [Hz|Hz]; [|by destruct Hv].
  destruct (krealloc malloc_ok (cv_data v) (cv_count v + 2)) as [d|] eqn:Hd; cbn [default].
  - apply (vrep_realloc v); [done|lia|lia|done].
  - by rewrite krealloc_Some in Hd by lia.
Qed.

Lemma cvector_delete_spec {A} (v : cvector_t A) l i :
  vrep v l → 0 ≤ i < Z.of_nat (length l) →
  ∃ v', cvector_delete malloc_ok v i = Some v' ∧ vrep v' (delete (Z.to_nat i) l).
Proof using Hlim Hmalloc.
  intros [[junk Hd] Hs Hc Hl Hm] Hi. unfold cvector_delete, guard.
  rewrite (w32_id i) by (unfold is_w32; lia). rewrite (proj2 (Z.ltb_lt _ _)) by lia.
  destruct (lookup_lt_is_Some_2 l (Z.to_nat i)) as [x Hx]; [lia|].
  pose proof (take_drop_middle l _ x Hx) as Hsp.
  set (l1 := take (Z.to_nat i) l) in *. set (l2 := drop (S (Z.to_nat i)) l) in *.
  assert (length l1 = Z.to_nat i) as H1 by (subst l1; rewrite length_take; lia).
  assert (length l = length l1 + S (length l2))%nat as H2.
  { rewrite <-Hsp, length_app. cbn. lia. }
  destruct (shift_down_spec (Z.to_nat (cv_count v - 1 - i)) (Some <$> l1) (Some x) (Some <$> l2)
    junk i) as [y Hy]; [rewrite length_fmap; lia..|].
  assert (delete (Z.to_nat i) l = l1 ++ l2) as -> by apply delete_take_drop.
  rewrite Hd, <-Hsp, fmap_app, <-app_assoc. cbn [fmap list_fmap app] in *. rewrite Hy.
  eexists. split; [done|]. apply cvector_delete_resize_spec.
  rewrite Hd, <-Hsp, length_app, length_fmap, length_app in Hs. cbn [length] in Hs.
  split; cbn; rewrite ?length_app, ?length_fmap, ?length_app; cbn [length]; rewrite ?length_fmap;
    try lia.
  exists (y :: junk). by rewrite fmap_app, <-app_assoc.
Qed.
End Vectors.

(** *** The operations of a vector, on lists *)
Inductive vec_op (A : Type) : Type :=
| VAdd (e : A)
| VSet (i : Z) (e : A)
| VGet (i : Z)
| VDelete (i : Z)
| VCount
| VReset.
#[global] Arguments VAdd {A}.
#[global] Arguments VSet {A}.
#[global] Arguments VGet {A}.
#[global] Arguments VDelete {A}.
#[global] Arguments VCount {A}.
#[global] Arguments VReset {A}.

(** What a caller sees: an element, a number, or nothing. *)
Inductive vec_result (A : Type) : Type :=
| VElement (e : A)
| VNumber (n : Z)
| VDone.
#[global] Arguments VElement {A}.
#[global] Arguments VNumber {A}.
#[global] Arguments VDone {A}.

Definition vec_step {A} (malloc_ok : Z → bool) (v : cvector_t A) (o : vec_op A) :
    option (cvector_t A * vec_result A) :=
  match o with
  | VAdd e => match cvector_add malloc_ok v e with
              | Some (v, i) => Some (v, VNumber i)
              | None => None
              end
  | VSet i e => let? v := cvector_set v i e in Some (v, VDone)
  | VGet i => let? e := cvector_get v i in Some (v, VElement e)
  | VDelete i => let? v := cvector_delete malloc_ok v i in Some (v, VDone)
  | VCount => Some (v, VNumber (cvector_count v))
  | VReset => Some (cvector_reset v, VDone)
  end.

(** The specification: lists of at most [lim] elements; an index outside the
    list is refused. *)
Definition list_step {A} (lim : Z) (l : list A) (o : vec_op A) :
    option (list A * vec_result A) :=
  let ok i := (0 <=? i) && (i <? Z.of_nat (length l)) in
  match o with
  | VAdd e =>
      if Z.of_nat (length l) <? lim then Some (l ++ [e], VNumber (Z.of_nat (length l))) else None
  | VSet i e => if ok i then Some (<[Z.to_nat i := e]> l, VDone) else None
  | VGet i => if ok i then let? e := l !! Z.to_nat i in Some (l, VElement e) else None
  | VDelete i => if ok i then Some (delete (Z.to_nat i) l, VDone) else None
  | VCount => Some (l, VNumber (Z.of_nat (length l)))
  | VReset => Some ([], VDone)
  end.

Section VectorRefinement.
Context {A : Type} (malloc_ok : Z → bool) (lim : Z) (Hlim : 16 ≤ lim ≤ 2 ^ 28).
Context (Hmalloc : ∀ n, 0 < n ≤ 8 * lim → malloc_ok n = true).

Lemma index_ok (l : list A) i :
  (0 <=? i) && (i <? Z.of_nat (length l)) = true → 0 ≤ i < Z.of_nat (length l).
Proof using Type. intros [?%Z.leb_le ?%Z.ltb_lt]%andb_prop. done. Qed.

Lemma vec_refines : Refines (vec_step (A:=A) malloc_ok) (list_step lim) (vrep lim).
Proof using Hlim Hmalloc.
  intros v l [e|i e|i|i| |] l' r Hv; cbn [list_step vec_step].
  - destruct (Z.ltb_spec (Z.of_nat (length l)) lim); [|done]. intros [= <- <-].
    destruct (cvector_add_spec malloc_ok lim Hlim Hmalloc v l e Hv) as (v' & -> & Hv'); [lia|].
    by exists v'.
  - destruct ((0 <=? i) && (i <? Z.of_nat (length l))) eqn:Hi; [|done]. intros [= <- <-].
    destruct (cvector_set_spec lim Hlim v l i e Hv) as (v' & -> & Hv'); [by apply index_ok|].
    by exists v'.
  - destruct ((0 <=? i) && (i <? Z.of_nat (length l))) eqn:Hi; [|done].
    destruct (vrep_lookup lim Hlim v l i Hv) as (x & -> & ->); [by apply index_ok|].
    intros [= <- <-]. by exists v.
  - destruct ((0 <=? i) && (i <? Z.of_nat (length l))) eqn:Hi; [|done]. intros [= <- <-].
    destruct (cvector_delete_spec malloc_ok lim Hlim Hmalloc v l i Hv) as (v' & -> & Hv');
      [by apply index_ok|].
    by exists v'.
  - intros [= <- <-]. exists v. unfold cvector_count. by rewrite (vr_count _ _ _ Hv).
  - intros [= <- <-]. eexists. split; [done|]. by apply (cvector_reset_vrep lim Hlim v l).
Qed.
End VectorRefinement.

(** ** Queues *)

(** [q] holds the elements of [l], the oldest first: they end just before the
    place of the next one. *)
Record qrep (q : cqueue_t) (l : list Z) : Prop := {
  qr_size : Z.of_nat (length (cq_data q)) = maxSize q;
  qr_max : 0 < maxSize q < 2 ^ 32;
  qr_top : 0 ≤ cq_top q < maxSize q;
  qr_count : cq_count q = Z.of_nat (length l);
  qr_full : cq_count q ≤ maxSize q;
  qr_data k x :
    l !! k = Some x →
    znth (cq_data q) ((cq_top q - cq_count q + Z.of_nat k) mod maxSize q) = Some (Some x)
}.

Inductive queue_op : Type := QPush (e : Z) | QPop | QSize.
Inductive queue_result : Type := QAccepted (b : bool) | QItem (e : Z).

Definition queue_step (q : cqueue_t) (o : queue_op) : option (cqueue_t * queue_result) :=
  match o with
  | QPush e => match cqueue_push q e with Some (q, b) => Some (q, QAccepted b) | None => None end
  | QPop => match cqueue_pop q with Some (q, e) => Some (q, QItem e) | None => None end
  | QSize => Some (q, QItem (cqueue_size q))
  end.

(** A first-in first-out queue of at most [n] elements; 0 is popped off an
    empty one. *)
Definition fifo_step (n : Z) (l : list Z) (o : queue_op) : option (list Z * queue_result) :=
  match o with
  | QPush e =>
      if n <=? Z.of_nat (length l) then Some (l, QAccepted false)
      else Some (l ++ [e], QAccepted true)
  | QPop => match l with [] => Some ([], QItem 0) | x :: l => Some (l, QItem x) end
  | QSize => Some (l, QItem (Z.of_nat (length l)))
  end.

Lemma mod_shift a m c : m ≠ 0 → (a mod m + c) mod m = (a + c) mod m.
Proof. intros H. by rewrite Zplus_mod_idemp_l. Qed.

Lemma mod_ne t m d : 0 ≤ t < m → - m < d < 0 → (t + d) mod m ≠ t.
Proof.
  intros Ht Hd. destruct (Z.le_gt_cases 0 (t + d)).
  - rewrite Z.mod_small by lia. lia.
  - rewrite <-(Z_mod_plus_full (t + d) 1 m), Z.mod_small by lia. lia.
Qed.

Lemma cqueue_push_spec q l e :
  qrep q l →
  ∃ q', cqueue_push q e = Some (q', negb (maxSize q <=? Z.of_nat (length l))) ∧
    maxSize q' = maxSize q ∧
    qrep q' (if maxSize q <=? Z.of_nat (length l) then l else l ++ [e]).
Proof.
  intros Hq. pose proof Hq as [Hs Hm Ht Hc Hf Hd]. unfold cqueue_push. rewrite Hc.
  destruct (Z.leb_spec (maxSize q) (Z.of_nat (length l))) as [Hfull|Hroom]; [by exists q|].
  unfold put. rewrite store_Some by lia. eexists. split; [done|]. split; [done|].
  unfold w32. rewrite (Z.mod_small (cq_top q + 1)), (Z.mod_small (Z.of_nat (length l) + 1)) by lia.
  split; cbn [cq_data cq_top cq_count maxSize]; rewrite ?length_insert, ?length_app; cbn [length];
    try lia; [apply Z.mod_pos_bound; lia|].
  intros k x Hk.
  rewrite <-Z.add_sub_swap, <-Z.add_sub_assoc, mod_shift by lia.
  replace (cq_top q + 1 + (Z.of_nat k - (Z.of_nat (length l) + 1)))
    with (cq_top q + (Z.of_nat k - Z.of_nat (length l))) by lia.
  apply lookup_snoc_Some in Hk as [[Hlt Hk]|[-> ->]].
  - rewrite znth_insert by lia. rewrite (proj2 (Z.eqb_neq _ _)).
    + rewrite <-(Hd k x Hk), Hc. f_equal. f_equal. lia.
    + intros E. symmetry in E. revert E. apply mod_ne; lia.
  - rewrite Z.sub_diag, Z.add_0_r, (Z.mod_small (cq_top q)) by lia.
    apply znth_insert_same. lia.
Qed.

Lemma cqueue_pop_spec q x l :
  qrep q (x :: l) →
  ∃ q', cqueue_pop q = Some (q', x) ∧ maxSize q' = maxSize q ∧ qrep q' l.
Proof.
  intros [Hs Hm Ht Hc Hf Hd]. cbn [length] in Hc. unfold cqueue_pop.
  rewrite (proj2 (Z.eqb_neq _ _)) by lia.
  assert ((if cq_count q <=? cq_top q then cq_top q - cq_count q
           else w32 (maxSize q - (cq_count q - cq_top q)))
          = (cq_top q - cq_count q + Z.of_nat 0) mod maxSize q) as ->.
  { rewrite Z.add_0_r. destruct (Z.leb_spec (cq_count q) (cq_top q)).
    - by rewrite Z.mod_small by lia.
    - rewrite <-(Z_mod_plus_full (cq_top q - cq_count q) 1 (maxSize q)).
      rewrite (Z.mod_small _ (maxSize q)) by lia. unfold w32. rewrite Z.mod_small by lia. lia. }
  unfold guard, fetch. rewrite (proj2 (Z.ltb_lt _ _)) by (apply Z.mod_pos_bound; lia).
  rewrite (Hd 0%nat x eq_refl). eexists. split; [done|]. split; [done|].
  split; cbn [cq_data cq_top cq_count maxSize]; try lia.
  intros k y Hk. rewrite <-(Hd (S k) y Hk). f_equal. f_equal. lia.
Qed.

Lemma queue_refines n :
  Refines queue_step (fifo_step n) (λ q l, qrep q l ∧ maxSize q = n).
Proof.
  intros q l [e| |] l' r [Hq <-]; cbn [queue_step fifo_step].
  - destruct (cqueue_push_spec q l e Hq) as (q' & -> & Hn & Hq').
    destruct (maxSize q <=? Z.of_nat (length l)); intros [= <- <-]; eauto.
  - destruct l as [|x l]; intros [= <- <-].
    + exists q. split; [|done]. unfold cqueue_pop. by rewrite (qr_count _ _ Hq).
    + destruct (cqueue_pop_spec q x l Hq) as (q' & -> & Hn & Hq'). eauto.
  - intros [= <- <-]. exists q. split; [|done]. unfold cqueue_size. by rewrite (qr_count _ _ Hq).
Qed.

Lemma cqueue_init_spec malloc_ok n :
  0 < n < 2 ^ 30 → malloc_ok (4 * n) = true →
  ∃ q, cqueue_init malloc_ok n = Some q ∧ qrep q [] ∧ maxSize q = n.
Proof.
  intros Hn Hm. unfold cqueue_init, kmalloc, w32. rewrite Z.mod_small, Hm by lia.
  rewrite (Z.mul_comm 4), Z.div_mul by lia. eexists. split_and!; [done| |done].
  split; cbn [cq_data cq_top cq_count maxSize]; rewrite ?repeat_length; cbn [length]; try lia.
  by intros k x ?%list_lookup_Some_nil_False || done.
Qed.

(** ** Hash tables refine finite maps

    The contract of [chash]: whatever the hash function does, the operations
    are those of a finite map. *)
Notation keys l := (entry_key <$> l).

Lemma in_bucket {A} (l : A) (Q : A → Prop) : Q l ↔ ∃ l', Some l = Some l' ∧ Q l'.
Proof. split; [by exists l|]. by intros (l' & [= <-] & H). Qed.

(** ** Lists of entries with different keys *)
Section Entries.
Implicit Types (l : list chash_entry_t) (e : chash_entry_t) (k x : Z).

Lemma key_unique l1 e l2 y :
  NoDup (keys (l1 ++ e :: l2)) → y ∈ l1 ++ l2 → entry_key y ≠ entry_key e.
Proof.
  rewrite fmap_app, fmap_cons. intros Hnd Hy E.
  apply NoDup_app in Hnd as (_ & H1 & [H2 _]%NoDup_cons).
  apply elem_of_app in Hy as [Hy|Hy].
  - apply (H1 (entry_key y)); [by apply list_elem_of_fmap_2|]. rewrite E. set_solver.
  - apply H2. rewrite <-E. by apply list_elem_of_fmap_2.
Qed.

Lemma delete_entries l j e :
  l !! j = Some e → NoDup (keys l) →
  NoDup (keys (delete j l)) ∧ ∀ y, y ∈ delete j l ↔ y ∈ l ∧ entry_key y ≠ entry_key e.
Proof.
  intros Hj Hnd. pose proof (take_drop_middle l j e Hj) as Hl. rewrite delete_take_drop.
  set (l1 := take j l) in *. set (l2 := drop (S j) l) in *. rewrite <-Hl in *. split.
  - rewrite fmap_app in *. rewrite fmap_cons in Hnd.
    apply NoDup_app in Hnd as (H1 & H2 & [_ H3]%NoDup_cons). apply NoDup_app.
    split_and!; [done| |done]. intros k Hk1 Hk2. apply (H2 k Hk1). set_solver.
  - intros y. split.
    + intros Hy. split; [set_solver|]. by apply (key_unique l1 e l2).
    + intros [Hy Hne]. apply elem_of_app in Hy as [Hy|Hy]; [set_solver|].
      apply elem_of_cons in Hy as [->|Hy]; [done|set_solver].
Qed.

Lemma update_entries l j e x :
  l !! j = Some e → NoDup (keys l) →
  let l' := <[j := chash_entry (entry_key e) x]> l in
  NoDup (keys l') ∧
  ∀ y, y ∈ l' ↔ y = chash_entry (entry_key e) x ∨ (y ∈ l ∧ entry_key y ≠ entry_key e).
Proof.
  intros Hj Hnd l'. assert (j < length l)%nat as Hlt by by eapply lookup_lt_Some. split.
  - subst l'. rewrite list_fmap_insert. cbn [entry_key]. rewrite list_insert_id; [done|].
    by rewrite list_lookup_fmap, Hj.
  - pose proof (take_drop_middle l j e Hj) as Hl.
    assert (l' = take j l ++ chash_entry (entry_key e) x :: drop (S j) l) as -> by
      (subst l'; by apply insert_take_drop).
    set (l1 := take j l) in *. set (l2 := drop (S j) l) in *. rewrite <-Hl in *.
    intros y. rewrite elem_of_app, elem_of_cons. split.
    + intros [Hy|[->|Hy]]; [right|by left|right]; (split; [set_solver|]);
        apply (key_unique l1 e l2); set_solver.
    + intros [->|[Hy Hne]]; [tauto|].
      apply elem_of_app in Hy as [Hy|Hy]; [by left|].
      apply elem_of_cons in Hy as [->|Hy]; [done|by right; right].
Qed.
End Entries.

Section Tables.
Context (malloc_ok : Z → bool) (lim : Z) (Hlim : 16 ≤ lim ≤ 2 ^ 28).
Context (Hmalloc : ∀ n, 0 < n ≤ 8 * lim → malloc_ok n = true).

(** The search for a key finds its entry. *)
Definition found (l : list chash_entry_t) (key : Z) (r : option (Z * chash_entry_t)) : Prop :=
  match r with
  | None => key ∉ keys l
  | Some (i, e) =>
      0 ≤ i < Z.of_nat (length l) ∧ l !! Z.to_nat i = Some e ∧ entry_key e = key
  end.

Lemma entry_loop_spec n v l i key :
  vrep lim v l → n = (length l - i)%nat → key ∉ keys (take i l) →
  ∃ r, entry_loop n v (Z.of_nat i) key = Some r ∧ found l key r.
Proof using Hlim.
  clear Hmalloc malloc_ok. intros Hv. revert i.
  induction n as [|n IH]; intros i Hn Hno; cbn [entry_loop].
  - exists None. split; [done|]. by rewrite take_ge in Hno by lia.
  - destruct (vrep_lookup lim Hlim v l (Z.of_nat i) Hv) as (e & He & ->); [lia|].
    destruct (Z.eqb_spec (entry_key e) key) as [Hk|Hk].
    + exists (Some (Z.of_nat i, e)). cbn. split_and!; [done|lia|lia|done|done].
    + replace (Z.of_nat i + 1) with (Z.of_nat (S i)) by lia. apply IH; [lia|].
      rewrite Nat2Z.id in He. rewrite (take_S_r _ _ _ He), fmap_app. set_solver.
Qed.

(** [t] holds the bindings of [m]: each in the bucket its key hashes to. *)
Record hrep_lists (t : chash_t) (ls : list (list chash_entry_t)) (m : gmap Z Z) : Prop := {
  hr_lists : Forall2 (vrep lim) (buckets t) ls;
  hr_size : 0 < tableSize t ∧ tableSize t = Z.of_nat (length (buckets t));
  hr_nodup : Forall (λ l, NoDup (keys l)) ls;
  hr_hash h l e :
    ls !! h = Some l → e ∈ l → Z.to_nat (chash_hash (entry_key e) (tableSize t)) = h;
  hr_map k x :
    m !! k = Some x ↔
    ∃ l, ls !! Z.to_nat (chash_hash k (tableSize t)) = Some l ∧ chash_entry k x ∈ l
}.
Definition hrep (t : chash_t) (m : gmap Z Z) : Prop := ∃ ls, hrep_lists t ls m.

Lemma chash_hash_range k sz : 0 < sz → 0 ≤ chash_hash k sz < sz.
Proof using Type. intros H. by apply Z.mod_pos_bound. Qed.

Lemma chash_init_hrep sz :
  0 < sz → malloc_ok (w32 (16 * sz)) = true →
  ∃ t, chash_init malloc_ok sz = Some t ∧ hrep t ∅.
Proof using Hlim.
  clear Hmalloc. intros Hsz Hm. unfold chash_init, guard. rewrite Hm. eexists. split; [done|].
  exists (repeat [] (Z.to_nat sz)).
  split; cbn [buckets tableSize]; rewrite ?repeat_length.
  - apply Forall2_same_length_lookup_2; [by rewrite !repeat_length|].
    intros i v l Hv%list_elem_of_lookup_2%list_elem_of_In%repeat_spec
      Hl%list_elem_of_lookup_2%list_elem_of_In%repeat_spec. subst.
    by apply cvector_init_vrep.
  - lia.
  - apply Forall_forall. intros l ->%list_elem_of_In%repeat_spec. apply NoDup_nil_2.
  - intros h l e ->%list_elem_of_lookup_2%list_elem_of_In%repeat_spec He.
    by apply not_elem_of_nil in He.
  - intros k x. rewrite lookup_empty. split; [done|].
    intros (l & ->%list_elem_of_lookup_2%list_elem_of_In%repeat_spec & He).
    by apply not_elem_of_nil in He.
Qed.

(** The bucket of a key, and the search in it. *)
Lemma bucket_search t ls m k :
  hrep_lists t ls m →
  let h := chash_hash k (tableSize t) in
  ∃ v l r, znth (buckets t) h = Some v ∧ ls !! Z.to_nat h = Some l ∧ vrep lim v l ∧
    NoDup (keys l) ∧ chash_get_entry t h k = Some r ∧ found l k r ∧
    m !! k = match r with Some (_, e) => Some (entry_item e) | None => None end.
Proof using Hlim.
  clear Hmalloc malloc_ok. intros [Hls [Hsz Hlen] Hnd Hh Hm] h.
  pose proof (chash_hash_range k _ Hsz) as Hr. fold h in Hr.
  destruct (proj1 (znth_range (buckets t) h)) as [v Hv]; [lia|].
  rewrite znth_lookup in Hv by lia.
  destruct (Forall2_lookup_l _ _ _ _ _ Hls Hv) as (l & Hl & Hvl).
  assert (NoDup (keys l)) as Hndl by apply (proj1 (Forall_lookup _ _) Hnd _ _ Hl).
  destruct (entry_loop_spec (length l) v l 0 k Hvl) as (r & Hr1 & Hr2).
  { lia. }
  { apply not_elem_of_nil. }
  exists v, l, r. rewrite znth_lookup by lia.
  unfold chash_get_entry, cvector_count. rewrite znth_lookup, Hv by lia.
  rewrite (vr_count _ _ _ Hvl), Nat2Z.id. split_and!; try done.
  destruct r as [[i e]|]; cbn [found] in Hr2.
  - destruct Hr2 as (_ & He & Hk). apply Hm. exists l. split; [done|].
    subst k. destruct e. by eapply list_elem_of_lookup_2.
  - destruct (m !! k) as [x|] eqn:Hx; [|done].
    apply Hm in Hx as (l' & Hl' & Hin). fold h in Hl'. rewrite Hl in Hl'. injection Hl' as <-.
    destruct Hr2. by apply (list_elem_of_fmap_2 entry_key) in Hin.
Qed.

(** A new list for the bucket of a key. *)
Lemma hrep_update t ls m k v l l' m' :
  hrep_lists t ls m → let h := chash_hash k (tableSize t) in
  ls !! Z.to_nat h = Some l → vrep lim v l' → NoDup (keys l') →
  (∀ y, y ∈ l' → entry_key y = k ∨ y ∈ l) →
  (∀ j x, m' !! j = Some x ↔ if decide (Z.to_nat (chash_hash j (tableSize t)) = Z.to_nat h)
                             then chash_entry j x ∈ l' else m !! j = Some x) →
  ∃ t', set_bucket t h v = Some t' ∧ hrep t' m'.
Proof using Type.
  intros [Hls [Hsz Hlen] Hnd Hh Hm] h Hl Hv Hndl Hsub Hm'.
  pose proof (chash_hash_range k _ Hsz) as Hr. fold h in Hr.
  pose proof (Forall2_length _ _ _ Hls) as Hlen2.
  unfold set_bucket. rewrite store_Some by lia. eexists. split; [done|].
  exists (<[Z.to_nat h := l']> ls).
  split; cbn [buckets tableSize]; rewrite ?length_insert.
  - by apply Forall2_insert.
  - done.
  - by apply Forall_insert.
  - intros h' l0 e Hl0 He. destruct (decide (h' = Z.to_nat h)) as [->|Hne].
    + rewrite list_lookup_insert_eq in Hl0 by lia. injection Hl0 as <-.
      destruct (Hsub e He) as [->|He']; [done|]. by apply (Hh _ l).
    + rewrite list_lookup_insert_ne in Hl0 by done. by apply (Hh _ l0).
  - intros j x. rewrite Hm'. case_decide as Hj.
    + rewrite Hj, list_lookup_insert_eq by lia. apply in_bucket.
    + rewrite list_lookup_insert_ne by done. apply Hm.
Qed.

Lemma chash_get_spec t m k : hrep t m → chash_get t k = Some (default 0 (m !! k)).
Proof using Hlim.
  clear Hmalloc malloc_ok. intros [ls Ht]. unfold chash_get.
  destruct (bucket_search t ls m k Ht) as (v & l & r & _ & _ & _ & _ & -> & _ & ->).
  by destruct r as [[i e]|].
Qed.

Lemma chash_remove_spec t m k :
  hrep t m → ∃ t', chash_remove malloc_ok t k = Some t' ∧ hrep t' (delete k m).
Proof using Hlim Hmalloc.
  intros [ls Ht]. unfold chash_remove.
  destruct (bucket_search t ls m k Ht) as (v & l & r & Hv & Hl & Hvl & Hnd & -> & Hf & Hm).
  destruct r as [[i e]|]; cbn [found] in Hf.
  2:{ exists t. split; [done|]. exists ls. by rewrite delete_id. }
  destruct Hf as (Hi & He & <-). rewrite Hv.
  destruct (cvector_delete_spec malloc_ok lim Hlim Hmalloc v l i Hvl Hi) as (v' & -> & Hv').
  destruct (delete_entries l _ e He Hnd) as [Hnd' Hel].
  apply (hrep_update t ls m (entry_key e) v' l _ _ Ht Hl Hv' Hnd').
  - intros y Hy. right. by apply Hel.
  - intros j x. rewrite lookup_delete_Some. case_decide as Hj.
    + rewrite Hel. cbn [entry_key]. rewrite (hr_map _ _ _ Ht), Hj, Hl.
      rewrite <-(in_bucket l (λ l, _ ∈ l)). split; intros [H1 H2]; (split; [done|congruence]).
    + split; [by intros [_ ?]|]. intros Hx. split; [|done]. by intros <-.
Qed.

(** The entries of a bucket are bindings of the map. *)
Lemma bucket_small t ls m h l :
  hrep_lists t ls m → ls !! h = Some l → NoDup (keys l) → (length l ≤ size m)%nat.
Proof using Type.
  intros Ht Hl Hnd. rewrite <-size_dom, <-(length_fmap entry_key l).
  rewrite <-(size_list_to_set (C:=gset Z)) by done. apply subseteq_size.
  intros k. rewrite elem_of_list_to_set, list_elem_of_fmap. intros ([k' x] & -> & He).
  apply elem_of_dom. exists x. apply (hr_map _ _ _ Ht). exists l.
  pose proof (hr_hash _ _ _ Ht h l _ Hl He) as Hh. cbn [entry_key] in *. by rewrite Hh.
Qed.

Lemma chash_set_spec t m k x :
  hrep t m → Z.of_nat (size m) < lim →
  ∃ t', chash_set malloc_ok t k x = Some (t', 0) ∧ hrep t' (<[k := x]> m).
Proof using Hlim Hmalloc.
  intros [ls Ht] Hsz. unfold chash_set.
  destruct (bucket_search t ls m k Ht) as (v & l & r & Hv & Hl & Hvl & Hnd & -> & Hf & Hm).
  rewrite Hv.
  assert (∃ v' l', match r with
      | Some (i, _) => cvector_set v i (chash_entry k x) = Some v'
      | None => cvector_add malloc_ok v (chash_entry k x) = Some (v', Z.of_nat (length l))
      end ∧ vrep lim v' l' ∧ NoDup (keys l') ∧
      ∀ y, y ∈ l' ↔ y = chash_entry k x ∨ (y ∈ l ∧ entry_key y ≠ k)) as (v' & l' & Hr & Hv' & Hnd' & Hel).
  { destruct r as [[i e]|]; cbn [found] in Hf.
    - destruct Hf as (Hi & He & <-).
      destruct (cvector_set_spec lim Hlim v l i (chash_entry (entry_key e) x) Hvl Hi)
        as (v' & -> & Hv').
      destruct (update_entries l _ e x He Hnd). by eexists _, _.
    - pose proof (bucket_small _ _ _ _ _ Ht Hl Hnd).
      destruct (cvector_add_spec malloc_ok lim Hlim Hmalloc v l (chash_entry k x) Hvl)
        as (v' & -> & Hv'); [lia|].
      eexists _, _. split_and!; [done|done| |].
      + rewrite fmap_app. apply NoDup_app. split_and!; [done| |apply NoDup_singleton].
        by intros y Hy ->%list_elem_of_singleton.
      + intros y. rewrite elem_of_app, list_elem_of_singleton. split; [|tauto].
        intros [Hy|Hy]; [right|by left]. split; [done|]. intros <-. apply Hf.
        by apply list_elem_of_fmap_2. }
  assert (∃ t', set_bucket t (chash_hash k (tableSize t)) v' = Some t' ∧ hrep t' (<[k:=x]> m))
    as (t' & Ht' & Hrep).
  { apply (hrep_update t ls m k v' l l' _ Ht Hl Hv' Hnd').
    - intros y Hy. apply Hel in Hy as [->|[Hy _]]; [by left|by right].
    - intros j z. case_decide as Hj.
      + rewrite Hel, lookup_insert_Some. cbn [entry_key].
        rewrite (hr_map _ _ _ Ht), Hj, Hl, <-(in_bucket l (λ l, _ ∈ l)).
        split; (intros [[= -> ->]|[H1 H2]] || intros [[-> ->]|[H1 H2]]);
          (by left) || (right; split; [done|congruence]).
      + rewrite lookup_insert_ne; [done|]. by intros <-. }
  exists t'. split; [|done].
  destruct r as [[i e]|]; rewrite Hr; [by rewrite Ht'|].
  rewrite (Hmalloc 8) by lia. by rewrite Ht'.
Qed.

Lemma free_loop_spec n t m i :
  hrep t m → 0 ≤ i → i + Z.of_nat n ≤ 2 ^ 31 →
  free_loop n t i = Some (default (-1) (find (λ j, bool_decide (m !! j = None)) (seqZ i (Z.of_nat n)))).
Proof using Hlim.
  clear Hmalloc malloc_ok. intros Ht. pose proof Ht as [ls Hls]. revert i.
  induction n as [|n IH]; intros i Hi Hn; cbn [free_loop]; [done|].
  rewrite seqZ_cons by lia. cbn [find].
  destruct (bucket_search t ls m i Hls) as (v & l & r & _ & _ & _ & _ & -> & _ & ->).
  replace (Z.succ i) with (i + 1) by lia. replace (Z.pred (Z.of_nat (S n))) with (Z.of_nat n) by lia.
  destruct r as [[j e]|]; [by apply IH; lia|]. cbn. f_equal.
  unfold s32. rewrite Z.mod_small by lia. lia.
Qed.
End Tables.

(** ** The operations of a table, on maps *)
Inductive hash_op : Type :=
| HGet (k : Z)
| HSet (k x : Z)
| HRemove (k : Z)
| HFindFree (first last : Z).

Definition hash_step (malloc_ok : Z → bool) (t : chash_t) (o : hash_op) : option (chash_t * Z) :=
  match o with
  | HGet k => let? x := chash_get t k in Some (t, x)
  | HSet k x => chash_set malloc_ok t k x
  | HRemove k => let? t := chash_remove malloc_ok t k in Some (t, 0)
  | HFindFree a b => let? i := chash_find_free t a b in Some (t, i)
  end.

(** Maps of at most [lim] bindings; 0 is got for a key that has none, -1 is the
    answer when a range has no free key. *)
Definition map_step (lim : Z) (m : gmap Z Z) (o : hash_op) : option (gmap Z Z * Z) :=
  match o with
  | HGet k => Some (m, default 0 (m !! k))
  | HSet k x => if Z.of_nat (size m) <? lim then Some (<[k := x]> m, 0) else None
  | HRemove k => Some (delete k m, 0)
  | HFindFree a b =>
      if (0 <=? a) && (b <=? 2 ^ 31) then
        Some (m, default (-1) (find (λ j, bool_decide (m !! j = None)) (seqZ a (b - a))))
      else None
  end.

Lemma hash_refines malloc_ok lim :
  16 ≤ lim ≤ 2 ^ 28 → (∀ n, 0 < n ≤ 8 * lim → malloc_ok n = true) →
  Refines (hash_step malloc_ok) (map_step lim) (hrep lim).
Proof.
  intros Hlim Hmalloc t m [k|k x|k|a b] m' r Ht; cbn [hash_step map_step].
  - intros [= <- <-]. rewrite (chash_get_spec lim Hlim t m k Ht). by exists t.
  - destruct (Z.ltb_spec (Z.of_nat (size m)) lim); [|done]. intros [= <- <-].
    by apply chash_set_spec.
  - intros [= <- <-]. destruct (chash_remove_spec malloc_ok lim Hlim Hmalloc t m k Ht)
      as (t' & -> & Ht'). by exists t'.
  - destruct ((0 <=? a) && (b <=? 2 ^ 31)) eqn:E; [|done]. intros [= <- <-].
    apply andb_prop in E as [?%Z.leb_le ?%Z.leb_le]. exists t. split; [|done].
    unfold chash_find_free. destruct (Z.le_gt_cases a b) as [Hle|Hgt].
    + rewrite (free_loop_spec lim Hlim _ t m) by (done || lia).
      by rewrite Z2Nat.id by lia.
    + rewrite seqZ_nil by lia. by replace (Z.to_nat (b - a)) with 0%nat by lia.
Qed.
