(* ===== verification/DataPool.v ===== *)
(** * Pools of identifiers and bit maps of ranges

    [cpool] as the set of the identifiers that are allocated; [cbpool] as a
    function that tells which objects are in use, and its allocation as a
    first-fit search. *)

From S2P Require Import Prelude.
From S2P Require Import Word32.
From S2P Require Import DataStruct.
From S2P Require Import DataVec.

(** ** Pools of identifiers *)
Section Pools.
Context (malloc_ok : Z → bool) (lim : Z) (Hlim : 16 ≤ lim ≤ 2 ^ 28).
Context (Hmalloc : ∀ n, 0 < n ≤ 8 * lim → malloc_ok n = true).

(** [A] is the set of allocated identifiers: those handed out once that are
    not in the free list. *)
Record prep_list (p : cpool_t) (fl : list Z) (A : gset Z) : Prop := {
  pr_vec : vrep lim (freelist p) fl;
  pr_nodup : NoDup fl;
  pr_range : 0 < cp_start p ≤ cp_mx p ∧ cp_mx p ≤ cp_end p + 1 < 2 ^ 32;
  pr_lim : cp_end p + 1 - cp_start p < lim;
  pr_free x : x ∈ fl → cp_start p ≤ x < cp_mx p;
  pr_held x : x ∈ A ↔ cp_start p ≤ x < cp_mx p ∧ x ∉ fl
}.
Definition prep (p : cpool_t) (A : gset Z) : Prop := ∃ fl, prep_list p fl A.
Definition same_range (p q : cpool_t) : Prop :=
  cp_start q = cp_start p ∧ cp_end q = cp_end p.

Lemma prep_list_short p fl A : prep_list p fl A → Z.of_nat (length fl) ≤ cp_mx p - cp_start p.
Proof using Type.
  intros [_ Hnd Hr _ Hfl _].
  assert (length fl ≤ length (seqZ (cp_start p) (cp_mx p - cp_start p)))%nat as Hlen.
  { apply submseteq_length, NoDup_submseteq; [done|].
    intros x Hx. apply elem_of_seqZ. apply Hfl in Hx. lia. }
  rewrite length_seqZ in Hlen. lia.
Qed.

Lemma cpool_init_prep start end_ :
  0 < start ≤ end_ + 1 → end_ + 1 < 2 ^ 32 → end_ + 1 - start < lim →
  prep (cpool_init start end_) ∅.
Proof using Hlim.
  clear Hmalloc malloc_ok. intros H1 H2 H3. exists []. unfold cpool_init.
  split; cbn [freelist cp_start cp_end cp_mx].
  - by apply cvector_init_vrep.
  - apply NoDup_nil_2.
  - lia.
  - done.
  - intros x Hx. by apply not_elem_of_nil in Hx.
  - intros x. split; [set_solver|lia].
Qed.

(** Taking the last identifier off the free list. *)
Lemma cpool_alloc_reuse p fl x :
  vrep lim (freelist p) (fl ++ [x]) →
  ∃ v, cpool_alloc malloc_ok p =
      Some (cpool (cp_start p) (cp_end p) (cp_mx p) v, x) ∧ vrep lim v fl.
Proof using Hlim Hmalloc.
  intros Hv. unfold cpool_alloc, cvector_count. rewrite (vr_count _ _ _ Hv), length_app. cbn [length].
  rewrite (proj2 (Z.ltb_lt _ _)) by lia.
  replace (Z.of_nat (length fl + 1) - 1) with (Z.of_nat (length fl)) by lia.
  destruct (vrep_lookup lim Hlim _ _ (Z.of_nat (length fl)) Hv) as (y & Hy & ->).
  { rewrite length_app. cbn [length]. lia. }
  rewrite Nat2Z.id, lookup_app_r, Nat.sub_diag in Hy by lia. injection Hy as ->.
  destruct (cvector_delete_spec malloc_ok lim Hlim Hmalloc _ _ (Z.of_nat (length fl)) Hv)
    as (v & -> & Hv'); [rewrite length_app; cbn [length]; lia|].
  exists v. split; [done|]. rewrite Nat2Z.id in Hv'.
  rewrite delete_take_drop, take_app_length, drop_ge, app_nil_r in Hv'
    by (rewrite length_app; cbn [length]; lia).
  done.
Qed.

Lemma cpool_alloc_spec p A :
  prep p A →
  (∃ p' id, cpool_alloc malloc_ok p = Some (p', id) ∧ cp_start p ≤ id ≤ cp_end p ∧ id ∉ A ∧
     same_range p p' ∧ prep p' ({[id]} ∪ A)) ∨
  (cpool_alloc malloc_ok p = Some (p, 0) ∧ ∀ x, cp_start p ≤ x ≤ cp_end p → x ∈ A).
Proof using Hlim Hmalloc.
  intros [fl Hp]. pose proof Hp as [Hv Hnd Hr Hl Hfl Hh].
  destruct fl as [|x fl _] using rev_ind.
  - unfold cpool_alloc, cvector_count. rewrite (vr_count _ _ _ Hv). cbn [length Z.of_nat Z.ltb Z.compare].
    destruct (Z.leb_spec (cp_mx p) (cp_end p)) as [Hle|Hgt].
    + left. do 2 eexists. split; [done|]. split; [lia|]. split; [rewrite Hh; intros [? _]; lia|].
      split; [done|]. exists []. unfold w32. rewrite Z.mod_small by lia.
      split; cbn [freelist cp_start cp_end cp_mx]; try done; try lia.
      { intros y Hy. by apply not_elem_of_nil in Hy. }
      intros y. rewrite elem_of_union, elem_of_singleton, Hh.
      assert (y ∉ ([] : list Z)) by apply not_elem_of_nil. split.
      * intros [->|[? ?]]; (split; [lia|done]).
      * intros [? ?]. destruct (decide (y = cp_mx p)); [by left|right; split; [lia|done]].
    + right. split; [done|]. intros y Hy. apply Hh. split; [lia|apply not_elem_of_nil].
  - left. destruct (cpool_alloc_reuse p fl x Hv) as (v & -> & Hv').
    apply NoDup_app in Hnd as (Hnd & Hx & _).
    assert (x ∉ fl) as Hxfl by (intros Hin; apply (Hx x Hin); set_solver).
    pose proof (Hfl x ltac:(set_solver)) as Hxr.
    do 2 eexists. split; [done|]. split; [lia|]. split; [rewrite Hh; set_solver|].
    split; [done|]. exists fl. split; cbn [freelist cp_start cp_end cp_mx]; try done.
    + intros y Hy. apply Hfl. set_solver.
    + intros y. rewrite elem_of_union, elem_of_singleton, Hh.
      rewrite elem_of_app, list_elem_of_singleton. destruct (decide (y = x)) as [->|]; [|tauto].
      tauto.
Qed.

Lemma cpool_free_vec p fl x :
  vrep lim (freelist p) fl → cp_start p ≤ x < cp_mx p → cp_mx p ≤ cp_end p + 1 →
  Z.of_nat (length fl) < lim →
  ∃ v, cpool_free malloc_ok p x = Some (cpool (cp_start p) (cp_end p) (cp_mx p) v) ∧
    vrep lim v (fl ++ [x]).
Proof using Hlim Hmalloc.
  intros Hv Hx Hr Hlen. unfold cpool_free.
  rewrite (proj2 (Z.ltb_ge x _)), (proj2 (Z.ltb_ge _ x)), (proj2 (Z.leb_gt _ x)) by lia.
  cbn [orb]. rewrite (proj2 (Z.eqb_neq _ _)) by lia.
  destruct (cvector_add_spec malloc_ok lim Hlim Hmalloc (freelist p) fl x Hv Hlen)
    as (v & -> & Hv'). by exists v.
Qed.

Lemma cpool_free_held_list p fl A x :
  prep_list p fl A → x ∈ A →
  ∃ v, cpool_free malloc_ok p x = Some (cpool (cp_start p) (cp_end p) (cp_mx p) v) ∧
    prep_list (cpool (cp_start p) (cp_end p) (cp_mx p) v) (fl ++ [x]) (A ∖ {[x]}).
Proof using Hlim Hmalloc.
  intros Hp Hx. pose proof (prep_list_short _ _ _ Hp) as Hlen.
  pose proof Hp as [Hv Hnd Hr Hl Hfl Hh]. apply Hh in Hx as [Hxr Hxfl].
  destruct (cpool_free_vec p fl x Hv Hxr) as (v & -> & Hv'); [lia..|].
  exists v. split; [done|].
  split; cbn [freelist cp_start cp_end cp_mx]; try done.
  - apply NoDup_app. split_and!; [done| |apply NoDup_singleton]. set_solver.
  - intros y [Hy|Hy%list_elem_of_singleton]%elem_of_app; [by apply Hfl|by subst y].
  - intros y. rewrite elem_of_difference, elem_of_singleton, Hh, elem_of_app, list_elem_of_singleton.
    tauto.
Qed.

Lemma cpool_free_held p A x :
  prep p A → x ∈ A →
  ∃ p', cpool_free malloc_ok p x = Some p' ∧ same_range p p' ∧ prep p' (A ∖ {[x]}).
Proof using Hlim Hmalloc.
  intros [fl Hp] Hx. destruct (cpool_free_held_list p fl A x Hp Hx) as (v & -> & Hp').
  eexists. split; [done|]. split; [done|]. by exists (fl ++ [x]).
Qed.

Lemma cpool_double_release p fl A x :
  prep_list p fl A → x ∈ A →
  ∃ p1 p2 p3 p4, cpool_free malloc_ok p x = Some p1 ∧ cpool_free malloc_ok p1 x = Some p2 ∧
    cpool_alloc malloc_ok p2 = Some (p3, x) ∧ cpool_alloc malloc_ok p3 = Some (p4, x).
Proof using Hlim Hmalloc.
  intros Hp Hx. destruct (cpool_free_held_list p fl A x Hp Hx) as (v1 & H1 & Hp1).
  pose proof (prep_list_short _ _ _ Hp1) as Hlen.
  pose proof Hp1 as [Hv1 _ Hr Hl Hfl _].
  destruct (cpool_free_vec _ _ x Hv1 (Hfl x ltac:(set_solver))) as (v2 & H2 & Hv2);
    [cbn [cp_start cp_end cp_mx] in *; lia..|].
  destruct (cpool_alloc_reuse (cpool (cp_start p) (cp_end p) (cp_mx p) v2) (fl ++ [x]) x Hv2)
    as (v3 & H3 & Hv3).
  destruct (cpool_alloc_reuse (cpool (cp_start p) (cp_end p) (cp_mx p) v3) fl x Hv3)
    as (v4 & H4 & _).
  do 4 eexists. by split_and!.
Qed.

Lemma cpool_free_outside p x :
  x < cp_start p ∨ cp_mx p ≤ x → cpool_free malloc_ok p x = Some p.
Proof using Type.
  intros [H|H]; unfold cpool_free; [rewrite (proj2 (Z.ltb_lt _ _)) by lia; done|].
  rewrite (proj2 (Z.leb_le _ _) H). by rewrite orb_true_r.
Qed.

Lemma find_from_spec n v l i x :
  vrep lim v l → n = (length l - i)%nat →
  find_from n v (Z.of_nat i) x = Some (bool_decide (x ∈ drop i l)).
Proof using Hlim.
  clear Hmalloc malloc_ok. intros Hv. revert i. induction n as [|n IH]; intros i Hn; cbn [find_from].
  - rewrite drop_ge by lia. f_equal.
  - destruct (vrep_lookup lim Hlim v l (Z.of_nat i) Hv) as (y & Hy & ->); [lia|].
    rewrite Nat2Z.id in Hy. rewrite (drop_S _ _ _ Hy).
    replace (Z.of_nat i + 1) with (Z.of_nat (S i)) by lia. rewrite IH by lia.
    destruct (Z.eqb_spec y x) as [->|Hne]; f_equal.
    + rewrite bool_decide_true; [done|set_solver].
    + apply bool_decide_ext. set_solver.
Qed.

Lemma cpool_check_spec p A x :
  prep p A →
  cpool_check p x =
    Some (bool_decide (cp_start p ≤ x ≤ cp_end p ∧ x ∉ A ∧ x ≠ cp_mx p)).
Proof using Hlim.
  clear Hmalloc malloc_ok. intros [fl Hp]. pose proof Hp as [Hv Hnd Hr Hl Hfl Hh]. unfold cpool_check.
  destruct (Z.ltb_spec x (cp_start p)) as [H1|H1]; cbn [orb].
  { rewrite bool_decide_false by lia. done. }
  destruct (Z.ltb_spec (cp_end p) x) as [H2|H2].
  { rewrite bool_decide_false by lia. done. }
  destruct (Z.ltb_spec (cp_mx p) x) as [H3|H3].
  { rewrite bool_decide_true; [done|]. rewrite Hh. lia. }
  unfold cvector_count. rewrite (vr_count _ _ _ Hv), Nat2Z.id.
  change 0 with (Z.of_nat 0). rewrite (find_from_spec _ _ fl 0 x Hv) by lia. rewrite drop_0.
  f_equal. apply bool_decide_ext. rewrite Hh. split.
  - intros Hx. pose proof (Hfl x Hx). split_and!; [lia..|tauto|lia].
  - intros (_ & Hx & Hne). destruct (decide (x ∈ fl)) as [Hin|Hin]; [done|].
    exfalso. apply Hx. split; [lia|done].
Qed.
End Pools.

(** ** Bit maps *)

(** [f] tells which objects are in use; the map has [n] objects. *)
Record brep (p : cbpool_t) (n : Z) (f : Z → bool) : Prop := {
  br_size : cb_size p = n;
  br_max : 0 ≤ n < 2 ^ 31;
  br_tiles : size_ntiles p = n / 32 + 1;
  br_length : Z.of_nat (length (bitmap p)) = n / 32 + 1;
  br_bit i b :
    0 ≤ i < 32 * (n / 32 + 1) → znth (bitmap p) (i / 32) = Some b →
    Z.testbit b (i mod 32) = f i
}.

(** [f] with the objects from [a] up to [b] set to [v]. *)
Definition fill (a b : Z) (v : bool) (f : Z → bool) : Z → bool :=
  λ j, if (a <=? j) && (j <? b) then v else f j.

Lemma fill_in a b v f j : a ≤ j < b → fill a b v f j = v.
Proof. intros H. unfold fill. by rewrite (proj2 (Z.leb_le a j)), (proj2 (Z.ltb_lt j b)) by lia. Qed.
Lemma fill_out a b v f j : j < a ∨ b ≤ j → fill a b v f j = f j.
Proof.
  intros [H|H]; unfold fill; [by rewrite (proj2 (Z.leb_gt a j))|].
  by rewrite (proj2 (Z.ltb_ge j b)), andb_false_r.
Qed.

Lemma tile_range n i : 0 ≤ i < 32 * (n / 32 + 1) → 0 ≤ i / 32 < n / 32 + 1.
Proof. intros H. split; [apply Z.div_pos; lia|apply Z.div_lt_upper_bound; lia]. Qed.

Lemma object_in_map n i : 0 ≤ i ≤ n → 0 ≤ i < 32 * (n / 32 + 1).
Proof. intros H. pose proof (Z.div_mod n 32). pose proof (Z.mod_pos_bound n 32). lia. Qed.

Lemma testbit_BIT_nonzero b k : 0 ≤ k < 32 → negb (Z.land b (BIT k) =? 0) = Z.testbit b k.
Proof.
  intros Hk. rewrite BIT_eq by done.
  destruct (Z.testbit b k) eqn:Hb; destruct (Z.eqb_spec (Z.land b (2 ^ k)) 0) as [E|E];
    try done; exfalso.
  - apply (f_equal (λ z, Z.testbit z k)) in E.
    by rewrite Z.land_spec, Hb, Z.pow2_bits_true, Z.bits_0 in E by lia.
  - apply E, Z.bits_inj'. intros j Hj.
    rewrite Z.land_spec, Z.pow2_bits_eqb, Z.bits_0 by lia.
    destruct (Z.eqb_spec k j) as [->|]; [by rewrite Hb|apply andb_false_r].
Qed.

Lemma cbpool_check_single_spec p n f i :
  brep p n f → 0 ≤ i < 32 * (n / 32 + 1) → cbpool_check_single p i = Some (f i).
Proof.
  intros [Hs Hm Ht Hl Hb] Hi. pose proof (tile_range n i Hi) as Hr.
  unfold cbpool_check_single, guard. rewrite Ht, (proj2 (Z.ltb_lt _ _)) by lia.
  destruct (proj1 (znth_range (bitmap p) (i / 32))) as [b Hz]; [lia|]. rewrite Hz.
  rewrite testbit_BIT_nonzero by (apply Z.mod_pos_bound; lia). by rewrite (Hb i b Hi Hz).
Qed.

Lemma testbit_set_bit b k (v : bool) j :
  0 ≤ k < 32 → 0 ≤ j < 32 →
  Z.testbit (if v then Z.lor b (BIT k) else Z.land b (wnot (BIT k))) j
  = if k =? j then v else Z.testbit b j.
Proof.
  intros Hk Hj. destruct v.
  - rewrite testbit_lor_BIT by lia. destruct (k =? j); [apply orb_true_r|apply orb_false_r].
  - rewrite testbit_clear_BIT by lia. destruct (k =? j); [apply andb_false_r|apply andb_true_r].
Qed.

Lemma brep_ext p n f g : (∀ i, 0 ≤ i → f i = g i) → brep p n f → brep p n g.
Proof.
  intros E [Hs Hm Ht Hl Hb]. split; try done.
  intros i b Hi Hz. rewrite <-E by lia. by apply Hb.
Qed.

Lemma cbpool_set_single_spec p n f i v :
  brep p n f → 0 ≤ i < 32 * (n / 32 + 1) →
  ∃ p', cbpool_set_single p i v = Some p' ∧ brep p' n (fill i (i + 1) v f).
Proof.
  intros [Hs Hm Ht Hl Hb] Hi. pose proof (tile_range n i Hi) as Hr.
  unfold cbpool_set_single, guard. rewrite Ht, (proj2 (Z.ltb_lt _ _)) by lia.
  destruct (proj1 (znth_range (bitmap p) (i / 32))) as [b Hz]; [lia|]. rewrite Hz.
  rewrite store_Some by lia. eexists. split; [done|].
  split; cbn [cb_size size_ntiles bitmap]; rewrite ?length_insert; try done.
  intros j c Hj. pose proof (tile_range n j Hj) as Hrj. rewrite znth_insert by lia.
  pose proof (Z.div_mod i 32 ltac:(done)). pose proof (Z.div_mod j 32 ltac:(done)).
  pose proof (Z.mod_pos_bound i 32 eq_refl). pose proof (Z.mod_pos_bound j 32 eq_refl).
  destruct (Z.eqb_spec (i / 32) (j / 32)) as [E|E].
  - intros [= <-]. rewrite testbit_set_bit by lia. destruct (Z.eqb_spec (i mod 32) (j mod 32)).
    + rewrite fill_in by lia. done.
    + rewrite fill_out by lia. apply Hb; [done|]. by rewrite <-E.
  - intros Hc. rewrite fill_out; [by apply Hb|]. destruct (decide (i = j)); [congruence|lia].
Qed.

Lemma set_range_spec k p n f i v :
  brep p n f → 0 ≤ i → i + Z.of_nat k ≤ 32 * (n / 32 + 1) →
  ∃ p', set_range k p i v = Some p' ∧ brep p' n (fill i (i + Z.of_nat k) v f).
Proof.
  revert p f i. induction k as [|k IH]; intros p f i Hp Hi Hk; cbn [set_range].
  - exists p. split; [done|]. refine (brep_ext _ _ _ _ _ Hp). intros j _. by rewrite fill_out by lia.
  - destruct (cbpool_set_single_spec p n f i v Hp) as (p1 & -> & Hp1); [lia|].
    destruct (IH p1 _ (i + 1) Hp1) as (p2 & -> & Hp2); [lia..|].
    exists p2. split; [done|]. refine (brep_ext _ _ _ _ _ Hp2). intros j _.
    destruct (decide (i + 1 ≤ j < i + 1 + Z.of_nat k)).
    + by rewrite !fill_in by lia.
    + rewrite (fill_out (i + 1)) by lia. destruct (decide (i = j)) as [->|].
      * by rewrite !fill_in by lia.
      * by rewrite !fill_out by lia.
Qed.

Lemma cbpool_init_brep p n :
  0 ≤ n < 2 ^ 31 → p = cbpool n (n / 32 + 1) (repeat 0 (Z.to_nat (n / 32 + 1))) →
  brep p n (λ _, false).
Proof.
  intros Hn ->. assert (0 ≤ n / 32) by (apply Z.div_pos; lia).
  split; cbn [cb_size size_ntiles bitmap]; rewrite ?repeat_length; try lia.
  intros i b Hi. rewrite znth_lookup by (apply Z.div_pos; lia).
  intros Hb%list_elem_of_lookup_2. apply list_elem_of_In, repeat_spec in Hb as ->.
  apply Z.bits_0.
Qed.

(** [free f a k]: the [k] objects from [a] on are not in use. *)
Definition free (f : Z → bool) (a k : Z) : Prop := ∀ j, a ≤ j < a + k → f j = false.

(** What a first-fit allocation of [size] objects does. *)
Definition first_fit (p : cbpool_t) (n : Z) (f : Z → bool) (size : Z) (r : cbpool_t * Z) : Prop :=
  (∃ a, r.2 = a ∧ 0 ≤ a ∧ a + size ≤ n ∧ free f a size ∧
     (∀ b, 0 ≤ b < a → ¬ free f b size) ∧ brep r.1 n (fill a (a + size) true f)) ∨
  (r = (p, CBPOOL_INVALID) ∧ ∀ b, 0 ≤ b → b + size ≤ n → ¬ free f b size).

Lemma alloc_loop_spec p n f size fuel i c :
  brep p n f → 0 < size → n - i < Z.of_nat fuel → 0 ≤ c < size → c ≤ i ≤ n →
  free f (i - c) c → (0 < i - c → f (i - c - 1) = true) →
  (∀ b, 0 ≤ b → b + size ≤ i → ¬ free f b size) →
  ∃ r, alloc_loop fuel p size i n 1 true c = Some r ∧ first_fit p n f size r.
Proof.
  intros Hp Hsz. revert i c. induction fuel as [|fuel IH]; intros i c Hfuel Hc Hi Hfree Hmax Hno.
  { lia. }
  cbn [alloc_loop]. destruct (Z.ltb_spec i n) as [Hlt|Hge].
  2:{ eexists. split; [done|]. right. split; [done|]. intros b Hb1 Hb2. apply Hno; lia. }
  rewrite (cbpool_check_single_spec p n f i Hp) by (apply object_in_map; lia).
  destruct (f i) eqn:Hfi; cbn [negb].
  { apply IH; try lia.
    - intros j Hj. lia.
    - intros _. by replace (i + 1 - 0 - 1) with i by lia.
    - intros b Hb1 Hb2 Hfr. destruct (decide (b + size ≤ i)); [by apply (Hno b)|].
      rewrite (Hfr i) in Hfi by lia. done. }
  assert (free f (i - c) (c + 1)) as Hfree1.
  { intros j Hj. destruct (decide (j = i)) as [->|]; [done|]. apply Hfree. lia. }
  destruct (Z.leb_spec size (c + 1)) as [Hdone|Hmore].
  - assert (w32 (i - (c + 1 - 1)) = i - c) as ->.
    { pose proof (br_max _ _ _ Hp). unfold w32. rewrite Z.mod_small; lia. }
    replace (i - (i - c) + 1) with (c + 1) by lia.
    pose proof (object_in_map n n ltac:(lia)) as Hin.
    destruct (set_range_spec (Z.to_nat (c + 1)) p n f (i - c) true Hp) as (p' & -> & Hp'); [lia..|].
    eexists. split; [done|]. left. exists (i - c).
    replace (Z.of_nat (Z.to_nat (c + 1))) with size in Hp' by lia.
    split_and!; cbn [fst snd]; [done|lia|lia| | |done].
    + intros j Hj. apply Hfree1. lia.
    + intros b Hb. apply Hno; lia.
  - apply IH; try lia.
    + intros j Hj. apply Hfree1. lia.
    + intros Hpos. replace (i + 1 - (c + 1) - 1) with (i - c - 1) by lia. apply Hmax. lia.
    + intros b Hb1 Hb2 Hfr. destruct (decide (b + size ≤ i)); [by apply (Hno b)|].
      rewrite (Hfr (i - c - 1)) in Hmax by lia. discriminate Hmax. lia.
Qed.

Lemma cbpool_alloc_first_fit p n f size :
  brep p n f → 0 < size → ∃ r, cbpool_alloc p size = Some r ∧ first_fit p n f size r.
Proof.
  intros Hp Hsz. pose proof (br_max _ _ _ Hp) as Hm.
  unfold cbpool_alloc, cbpool_alloc_internal. rewrite (proj2 (Z.eqb_neq _ _)) by lia.
  rewrite (br_size _ _ _ Hp). assert (s32 n = n) as ->.
  { unfold s32. rewrite Z.mod_small by lia. lia. }
  apply (alloc_loop_spec p n f); done || (unfold free; lia).
Qed.

(** The objects a release covers: all of them, except that the last object of
    the map is never one of them. *)
Lemma cbpool_free_range p n f obj size :
  brep p n f → 0 ≤ obj → 0 < size → obj + size ≤ n →
  ∃ p', cbpool_free p obj size = Some p' ∧
    brep p' n (fill obj (Z.min (obj + size) (n - 1)) false f).
Proof.
  intros Hp Ho Hsz Hn. pose proof (br_max _ _ _ Hp) as Hm.
  unfold cbpool_free. rewrite (proj2 (Z.eqb_neq _ _)), (br_size _ _ _ Hp) by lia.
  unfold w32. rewrite (Z.mod_small (obj + size)), (Z.mod_small (n - 1)) by lia.
  assert ((if n <=? obj + size then n - 1 else obj + size) = Z.min (obj + size) (n - 1)) as ->.
  { destruct (Z.leb_spec n (obj + size)); lia. }
  pose proof (object_in_map n n ltac:(lia)) as Hin.
  destruct (set_range_spec (Z.to_nat (Z.min (obj + size) (n - 1) - obj)) p n f obj false Hp)
    as (p' & -> & Hp'); [lia..|].
  exists p'. split; [done|].
  by replace (obj + Z.of_nat (Z.to_nat (Z.min (obj + size) (n - 1) - obj)))
    with (Z.min (obj + size) (n - 1)) in Hp' by lia.
Qed.
