(* ===== verification/DataTheorems.v ===== *)
(** * Theorems on the data structures

    Sequences of operations on vectors, queues and hash tables give the results
    of lists, bounded queues and finite maps; pools and bit maps hand out what
    is free, and lose what they lose. *)

From S2P Require Import Prelude.
From S2P Require Import Word32.
From S2P Require Import DataStruct.
From S2P Require Import DataVec.
From S2P Require Import DataPool.

(** Vectors refine lists.  When the allocator serves arrays of twice [lim]
    words, any sequence of operations that a list of at most [lim] elements
    allows runs on a new vector without a failed assertion, returns the results
    of the list, and leaves a vector that holds the elements of the list: no
    growing, shifting or shrinking of the array shows. *)
Theorem cvector_refines_list (A : Type) malloc_ok lim (ops : list (vec_op A)) l rs :
  16 ≤ lim ≤ 2 ^ 28 → (∀ n, 0 < n ≤ 8 * lim → malloc_ok n = true) →
  run_ops (list_step lim) [] ops = Some (l, rs) →
  ∃ v, run_ops (vec_step malloc_ok) cvector_init ops = Some (v, rs) ∧ vrep lim v l ∧
    ∀ i, 0 ≤ i < 2 ^ 32 → cvector_get v i = l !! Z.to_nat i.
Proof.
  intros Hlim Hmalloc Hrun.
  destruct (refines_run _ _ _ (Refines0:=vec_refines malloc_ok lim Hlim Hmalloc) ops
    cvector_init [] l rs (cvector_init_vrep lim Hlim) Hrun) as (v & Hv & Hr).
  exists v. split; [done|]. split; [done|]. intros i Hi. by apply cvector_get_spec with lim.
Qed.

Definition sample_vec_ops : list (vec_op Z) :=
  [VAdd 5; VAdd 6; VAdd 7; VAdd 8; VAdd 9; VDelete 1; VSet 0 4; VGet 3; VCount].

Lemma cvector_refines_list_witness :
  ∃ v, run_ops (vec_step (λ _, true)) cvector_init sample_vec_ops =
      Some (v, [VNumber 0; VNumber 1; VNumber 2; VNumber 3; VNumber 4; VDone; VDone; VElement 9;
                VNumber 4]) ∧
    vrep 16 v [4; 7; 8; 9] ∧ ∀ i, 0 ≤ i < 2 ^ 32 → cvector_get v i = [4; 7; 8; 9] !! Z.to_nat i.
Proof.
  apply (cvector_refines_list Z (λ _, true) 16 sample_vec_ops); [lia|done|reflexivity].
Defined.

(** Queues refine first-in first-out queues of bounded length: any sequence
    of pushes, pops and size requests on a new queue of [n] places returns the
    results of a list of at most [n] elements, a push on a full one refused and
    a pop of an empty one giving NULL. *)
Theorem cqueue_refines_fifo malloc_ok n ops l rs :
  0 < n < 2 ^ 30 → malloc_ok (4 * n) = true →
  run_ops (fifo_step n) [] ops = Some (l, rs) →
  ∃ q q', cqueue_init malloc_ok n = Some q ∧ run_ops queue_step q ops = Some (q', rs) ∧ qrep q' l.
Proof.
  intros Hn Hm Hrun. destruct (cqueue_init_spec malloc_ok n Hn Hm) as (q & Hq & Hr & Hs).
  destruct (refines_run _ _ _ (Refines0:=queue_refines n) ops q [] l rs (conj Hr Hs) Hrun)
    as (q' & Hq' & Hr' & _).
  by exists q, q'.
Qed.

Definition sample_queue_ops : list queue_op := [QPush 1; QPush 2; QPush 3; QPop; QPush 4; QPop; QSize].

Lemma cqueue_refines_fifo_witness :
  ∃ q q', cqueue_init (λ _, true) 2 = Some q ∧
    run_ops queue_step q sample_queue_ops =
      Some (q', [QAccepted true; QAccepted true; QAccepted false; QItem 1; QAccepted true;
                 QItem 2; QItem 1]) ∧
    qrep q' [4].
Proof. apply (cqueue_refines_fifo (λ _, true) 2 sample_queue_ops); [lia|done|reflexivity]. Defined.


Definition sample_hash_ops : list hash_op :=
  [HSet 1 10; HSet 2 20; HSet 3 30; HSet 2 25; HRemove 1; HGet 2; HGet 1; HFindFree 2 6].


(** Pools of identifiers, with [A] the set of those that are held: an
    allocation gives an identifier of the range nobody holds, and gives 0 only
    when all are held; a release of a held identifier makes it free again and
    touches no other; a check tells the free identifiers of the range from the
    held ones, but for the next fresh one, which it takes for held. *)
Theorem cpool_correct malloc_ok lim p (A : gset Z) :
  16 ≤ lim ≤ 2 ^ 28 → (∀ n, 0 < n ≤ 8 * lim → malloc_ok n = true) → prep lim p A →
  ((∃ p' id, cpool_alloc malloc_ok p = Some (p', id) ∧ cp_start p ≤ id ≤ cp_end p ∧ id ∉ A ∧
      same_range p p' ∧ prep lim p' ({[id]} ∪ A)) ∨
   (cpool_alloc malloc_ok p = Some (p, 0) ∧ ∀ x, cp_start p ≤ x ≤ cp_end p → x ∈ A)) ∧
  (∀ x, x ∈ A →
     ∃ p', cpool_free malloc_ok p x = Some p' ∧ same_range p p' ∧ prep lim p' (A ∖ {[x]})) ∧
  (∀ x, ∃ b, cpool_check p x = Some b ∧
     (b = true ↔ cp_start p ≤ x ≤ cp_end p ∧ x ∉ A ∧ x ≠ cp_mx p)).
Proof.
  intros Hlim Hmalloc Hp. split_and!.
  - by apply cpool_alloc_spec.
  - intros x. by apply cpool_free_held.
  - intros x. eexists. split; [by apply (cpool_check_spec lim Hlim)|]. apply bool_decide_eq_true.
Qed.

Lemma cpool_correct_witness :
  let p := cpool_init 1 10 in
  prep 16 p ∅ ∧
  ((∃ p' id, cpool_alloc (λ _, true) p = Some (p', id) ∧ cp_start p ≤ id ≤ cp_end p ∧
      id ∉ (∅ : gset Z) ∧ same_range p p' ∧ prep 16 p' ({[id]} ∪ ∅)) ∨
   (cpool_alloc (λ _, true) p = Some (p, 0) ∧ ∀ x, cp_start p ≤ x ≤ cp_end p → x ∈ (∅ : gset Z))) ∧
  (∀ x, x ∈ (∅ : gset Z) →
     ∃ p', cpool_free (λ _, true) p x = Some p' ∧ same_range p p' ∧ prep 16 p' (∅ ∖ {[x]})) ∧
  (∀ x, ∃ b, cpool_check p x = Some b ∧
     (b = true ↔ cp_start p ≤ x ≤ cp_end p ∧ x ∉ (∅ : gset Z) ∧ x ≠ cp_mx p)).
Proof.
  intros p. assert (prep 16 p ∅) as Hp by (apply cpool_init_prep; lia).
  split; [done|]. apply (cpool_correct (λ _, true) 16 p ∅); [lia|done|done].
Defined.

(** The pool does not notice a second release: an identifier that is freed
    twice is then handed out twice. *)
Theorem cpool_double_free malloc_ok lim p (A : gset Z) x :
  16 ≤ lim ≤ 2 ^ 28 → (∀ n, 0 < n ≤ 8 * lim → malloc_ok n = true) → prep lim p A →
  x ∈ A →
  ∃ p1 p2 p3 p4, cpool_free malloc_ok p x = Some p1 ∧ cpool_free malloc_ok p1 x = Some p2 ∧
    cpool_alloc malloc_ok p2 = Some (p3, x) ∧ cpool_alloc malloc_ok p3 = Some (p4, x).
Proof.
  intros Hlim Hmalloc [fl Hp] Hx.
  by apply (cpool_double_release malloc_ok lim Hlim Hmalloc p fl A x Hp).
Qed.

Lemma cpool_double_free_witness :
  let p := cpool 1 10 3 cvector_init in
  1 ∈ ({[1; 2]} : gset Z) ∧
  ∃ p1 p2 p3 p4, cpool_free (λ _, true) p 1 = Some p1 ∧ cpool_free (λ _, true) p1 1 = Some p2 ∧
    cpool_alloc (λ _, true) p2 = Some (p3, 1) ∧ cpool_alloc (λ _, true) p3 = Some (p4, 1).
Proof.
  split; [set_solver|].
  apply (cpool_double_free (λ _, true) 16 _ {[1; 2]} 1); [lia|done| |set_solver].
  exists []. split; cbn [freelist cp_start cp_end cp_mx]; try lia.
  - apply cvector_init_vrep. lia.
  - apply NoDup_nil_2.
  - intros y Hy. by apply not_elem_of_nil in Hy.
  - intros y. rewrite elem_of_union, !elem_of_singleton.
    assert (y ∉ ([] : list Z)) by apply not_elem_of_nil. split; [intros; split; [lia|done]|lia].
Defined.

(** Allocation in a bit map is first fit: it returns the lowest range of
    [size] free objects and marks exactly that range, and fails, changing
    nothing, only when no such range exists.  Releasing the range again gives
    the map from before, when the range does not end with the map. *)
Theorem cbpool_alloc_correct p n f size :
  brep p n f → 0 < size →
  ∃ p' a, cbpool_alloc p size = Some (p', a) ∧ first_fit p n f size (p', a) ∧
    (0 ≤ a → a + size < n → ∃ p2, cbpool_free p' a size = Some p2 ∧ brep p2 n f).
Proof.
  intros Hp Hsz. destruct (cbpool_alloc_first_fit p n f size Hp Hsz) as ([p' a] & Ha & Hff).
  exists p', a. split; [done|]. split; [done|]. intros Ha0 Han.
  destruct Hff as [(b & Hb & _ & _ & Hfree & _ & Hp')|[[= _ Hinv] _]].
  - cbn [fst snd] in *. subst b.
    destruct (cbpool_free_range p' n _ a size Hp') as (p2 & -> & Hp2); [lia..|].
    exists p2. split; [done|]. refine (brep_ext _ _ _ _ _ Hp2). intros j _.
    rewrite Z.min_l by lia. destruct (decide (a ≤ j < a + size)).
    + rewrite fill_in by lia. symmetry. by apply Hfree.
    + by rewrite !fill_out by lia.
  - pose proof (br_max _ _ _ Hp). unfold CBPOOL_INVALID in Hinv. lia.
Qed.

Definition sample_cbpool : cbpool_t := cbpool 40 2 [0; 0].
Lemma sample_brep : brep sample_cbpool 40 (λ _, false).
Proof. by apply cbpool_init_brep. Qed.

Lemma cbpool_alloc_correct_witness :
  brep sample_cbpool 40 (λ _, false) ∧
  ∃ p' a, cbpool_alloc sample_cbpool 3 = Some (p', a) ∧
    first_fit sample_cbpool 40 (λ _, false) 3 (p', a) ∧
    (0 ≤ a → a + 3 < 40 → ∃ p2, cbpool_free p' a 3 = Some p2 ∧ brep p2 40 (λ _, false)).
Proof. split; [apply sample_brep|]. apply cbpool_alloc_correct; [apply sample_brep|lia]. Defined.

(** A range that ends with the map is not released as a whole: whatever its
    length, its last object stays in use. *)
Theorem cbpool_free_keeps_last p n f obj size :
  brep p n f → 0 ≤ obj → 0 < size → obj + size = n → f (n - 1) = true →
  ∃ p', cbpool_free p obj size = Some p' ∧ cbpool_check_single p' (n - 1) = Some true ∧
    ∀ i, obj ≤ i < n - 1 → cbpool_check_single p' i = Some false.
Proof.
  intros Hp Ho Hsz Hn Hf. pose proof (br_max _ _ _ Hp).
  destruct (cbpool_free_range p n f obj size Hp) as (p' & -> & Hp'); [lia..|].
  exists p'. rewrite Z.min_r in Hp' by lia.
  split; [done|]. rewrite (cbpool_check_single_spec p' n _ _ Hp') by (apply object_in_map; lia).
  rewrite fill_out by lia. rewrite Hf. split; [done|]. intros i Hi.
  rewrite (cbpool_check_single_spec p' n _ _ Hp') by (apply object_in_map; lia).
  by rewrite fill_in by lia.
Qed.

Definition full_cbpool : cbpool_t := cbpool 40 2 [2 ^ 32 - 1; 2 ^ 32 - 1].
Lemma full_brep : brep full_cbpool 40 (λ _, true).
Proof.
  split; [done|lia|done|done|].
  intros i b Hi Hb. assert (b = Z.ones 32) as ->.
  { unfold znth in Hb. destruct (0 <=? i / 32); [|done].
    apply list_elem_of_lookup_2 in Hb. set_solver. }
  apply Z.ones_spec_low. by apply Z.mod_pos_bound.
Qed.

Lemma cbpool_free_keeps_last_witness :
  brep full_cbpool 40 (λ _, true) ∧
  ∃ p', cbpool_free full_cbpool 30 10 = Some p' ∧ cbpool_check_single p' (40 - 1) = Some true ∧
    ∀ i, 30 ≤ i < 40 - 1 → cbpool_check_single p' i = Some false.
Proof.
  split; [apply full_brep|].
  apply (cbpool_free_keeps_last full_cbpool 40 (λ _, true) 30 10);
    [apply full_brep|lia|lia|lia|done].
Defined.
