(* ===== verification/PartitionCalls.v ===== *)
(** * The system calls of the partition layer

    The messages of the APEX library that [main.c] of the process server takes
    before it looks at their badge ([proc_server_handle_message]), and the
    system calls on sampling ports, threads and partitions of
    [dispatchers/proc_syscall.c].  A message is the words of the sender's
    message registers.  The system calls find the caller's partition through
    the field [proc] of its process, an index of [proc_array], and the field
    [part] of that thread; no code sets either ([no_links]). *)

From Stdlib Require Import String.
From S2P Require Import Prelude.
From S2P Require Import Word32.
From S2P Require Import DataStruct.
From S2P Require Import Partition.

(** The message labels of [sys_apex.h], and the one of [giveup_period]. *)
Definition SYS_SET_PARTITION_MODE : Z := 0xf001.
Definition SYS_STOP_SELF : Z := 0xf002.
Definition SYS_SUSPEND_SELF : Z := 0xf003.
Definition SYS_SET_PRIORITY : Z := 0xf004.
Definition SYS_SUSPEND : Z := 0xf005.
Definition SYS_RESUME : Z := 0xf006.
Definition GIVEUP_PERIOD : Z := 0xabcd.

(** The values of the enumerations. *)
Definition mode_of (v : Z) : option pok_partition_mode_t :=
  match v with
  | 1 => Some PART_MODE_COLD_START | 2 => Some PART_MODE_WARM_START | 3 => Some PART_MODE_NORMAL
  | 4 => Some PART_MODE_IDLE | 5 => Some PART_MODE_RESTART | 6 => Some PART_MODE_STOPPED
  | _ => None
  end.
Definition mode_value (m : pok_partition_mode_t) : Z :=
  match m with
  | PART_MODE_COLD_START => 1 | PART_MODE_WARM_START => 2 | PART_MODE_NORMAL => 3
  | PART_MODE_IDLE => 4 | PART_MODE_RESTART => 5 | PART_MODE_STOPPED => 6
  end.
Definition state_value (s : pok_state_t) : Z :=
  match s with
  | POK_STATE_STOPPED => 0 | POK_STATE_RUNNABLE => 1 | POK_STATE_WAITING => 2 | POK_STATE_LOCK => 3
  | POK_STATE_WAIT_NEXT_ACTIVATION => 4 | POK_STATE_DELAYED_START => 5
  end.

(** The fields of an 8-bit priority. *)
Definition set_prio (v : Z) (t : process) : process :=
  Process (p_status t) (p_partition t) (v mod 256) (base_priority t) (timecap t) (period t) (p_deadline t)
    (remaining_time_capacity t) (next_activation t) (end_time t) (wakeup_time t) (ktcb t).
Definition set_must_be_flushed (p : pok_port_t) : pok_port_t :=
  Port (port_partition p) (port_index p) (port_full p) (port_size p) (port_direction p) (port_ready p)
    (port_empty p) (port_kind p) (refresh p) (last_receive p) true (port_data p).

Section Messages.
Context {pc : PartConfig}.

(** ** Messages ([main.c]) *)
Definition reschedule (f : P unit) : P bool := f ;;; pok_sched ;;; kret true.

(** The thread [id], when it is one of the current partition. *)
Definition with_own_thread (id : Z) (f : P unit) : P bool :=
  let! cur := getCurPart in
  let! p := getPart cur in
  if (id <? low p) || (high p <? id) then kret true else reschedule f.

(** The result tells whether the message was one of these. *)
Definition partition_message (mr : Z → Z) : P bool :=
  let label := mr 0 in
  if label =? GIVEUP_PERIOD then
    let! cur := gets current_thread in
    reschedule (updProc cur (λ t, set_remaining 0 (set_status POK_STATE_WAIT_NEXT_ACTIVATION t)))
  else if label =? SYS_SET_PARTITION_MODE then
    let! cur := getCurPart in
    let! ret := match mode_of (mr 1) with
                | Some mode => pok_partition_set_mode cur mode
                | None => kret POK_ERRNO_PARTITION_MODE
                end in
    kassert (bool_decide (ret = POK_ERRNO_OK)) ;;;
    kret true
  else if label =? SYS_STOP_SELF then
    let! cur := gets current_thread in reschedule (updProc cur (set_status POK_STATE_STOPPED))
  else if label =? SYS_SUSPEND_SELF then
    let! cur := gets current_thread in reschedule (updProc cur (set_status POK_STATE_STOPPED))
  else if label =? SYS_SET_PRIORITY then
    with_own_thread (mr 1)
      (let! now := gets pok_tick_counter in
       updProc (mr 1) (λ t, set_prio (mr 2) (set_wakeup_time now t)))
  else if label =? SYS_SUSPEND then
    with_own_thread (mr 1) (updProc (mr 1) (set_status POK_STATE_STOPPED))
  else if label =? SYS_RESUME then
    with_own_thread (mr 1)
      (let! now := gets pok_tick_counter in
       updProc (mr 1) (λ t, set_status POK_STATE_RUNNABLE (set_wakeup_time now t)))
  else kret false.

(** ** Sampling ports ([proc_syscall.c]) *)

(** Past its first statement the handler loops for ever. *)
Definition proc_port_sampling_create_handler (name : string) (size core period : Z) : P (pok_ret_t * Z) :=
  let! _ := pok_port_create name size core POK_PORT_KIND_SAMPLING in
  kdiverge.

(** [pok_own_port] takes the port as a byte. *)
Definition own_port (id : Z) : P bool :=
  let! cur := getCurPart in
  kopt (pok_own_port cur (id mod 256)).

(** The error; [data] is [None] for NULL. *)
Inductive port_error : Type := PortError (e : pok_ret_t) | PortDirection.
Definition proc_port_sampling_write_handler (id : Z) (data : option (list Z)) (len : Z) : P port_error :=
  match data with
  | None => kret (PortError POK_ERRNO_EINVAL)
  | Some data =>
      if POK_CONFIG_NB_PORTS <? id then kret (PortError POK_ERRNO_EINVAL)
      else
        let! own := own_port id in
        if negb own then kret (PortError POK_ERRNO_PORT)
        else
          let! p := getPort id in
          if negb (port_ready p) then kret (PortError POK_ERRNO_EINVAL)
          else if port_size p <? w32 len then kret (PortError POK_ERRNO_EINVAL)
          else if negb (port_direction p =? POK_PORT_DIRECTION_OUT) then kret PortDirection
          else
            let! _ := pok_port_write (id mod 256) data (w32 len) in
            updPort id set_must_be_flushed ;;;
            kret (PortError POK_ERRNO_OK)
  end.

(** The error, the length and the validity; [data] tells whether the buffer is
    not NULL. *)
Definition proc_port_sampling_read_handler (id : Z) (data : bool) : P (pok_ret_t * option (Z * bool)) :=
  if negb data then kret (POK_ERRNO_EINVAL, None)
  else if POK_CONFIG_NB_PORTS <? id then kret (POK_ERRNO_EINVAL, None)
  else
    let! own := own_port id in
    if negb own then kret (POK_ERRNO_PORT, None)
    else
      let! p := getPort id in
      if negb (port_ready p) then kret (POK_ERRNO_PORT, None)
      else if negb (port_kind p =? POK_PORT_KIND_SAMPLING) then kret (POK_ERRNO_EINVAL, None)
      else if negb (port_direction p =? POK_PORT_DIRECTION_IN) then kret (POK_ERRNO_MODE, None)
      else
        let! ret := pok_port_get (id mod 256) (port_size p) in
        match ret with
        | POK_ERRNO_EMPTY => kret (POK_ERRNO_EMPTY, Some (0, false))
        | _ =>
            let! now := gets pok_tick_counter in
            let valid := negb (w32 (last_receive p + refresh p) <? now) in
            kret (POK_ERRNO_OK, Some (port_size p, valid))
        end.

(** ** Threads and partitions ([proc_syscall.c]) *)

(** The field [proc] of a process by its identifier and [part] of a thread by
    its index, [None] for NULL; [set_priority_ok] is the kernel's answer. *)
Context (proc_of part_of : Z → option Z) (set_priority_ok : Z → Z → bool).

Definition caller_partition (pid : Z) : P partition :=
  let! proc := kopt (proc_of pid) in
  let! part := kopt (part_of proc) in
  getPart part.

(** -1 for a thread that is not of the caller's partition. *)
Definition thread_of_caller (pid id : Z) : P bool :=
  let! part := caller_partition pid in
  kret (negb ((w32 id <? low part) || (high part <? w32 id))).
Definition get_from_pid (f : process → Z) (pid id : Z) : P Z :=
  let! own := thread_of_caller pid id in
  if negb own then kret (-1) else let! t := getProc id in kret (s32 (f t)).

Definition proc_set_prio_handler (pid id prio : Z) : P bool :=
  let! c := get_tcb_cptr_from_pid pid 0 in
  let! own := thread_of_caller pid id in
  if negb own then kret false
  else syscall (ev_set_priority c prio) ;;; kret (set_priority_ok c prio).
Definition proc_stop_self_handler (pid : Z) : P Z :=
  let! c := get_tcb_cptr_from_pid pid 0 in
  syscall (ev_suspend c) ;;; kret 0.
Definition proc_stop_handler (pid id : Z) : P bool :=
  let! own := thread_of_caller pid id in
  if negb own then kret false
  else
    let! c := get_tcb_cptr_from_pid id 0 in
    syscall (ev_suspend c) ;;; kret true.
Definition proc_resume_handler (pid id : Z) : P bool :=
  let! own := thread_of_caller pid id in
  if negb own then kret false
  else
    let! c := get_tcb_cptr_from_pid id 0 in
    syscall (ev_resume c) ;;; kret true.

Definition proc_get_baseprio_from_pid_handler : Z → Z → P Z := get_from_pid prio.
Definition proc_get_currprio_from_pid_handler : Z → Z → P Z := get_from_pid prio.
Definition proc_get_status_from_pid_handler : Z → Z → P Z := get_from_pid (λ t, state_value (p_status t)).
Definition proc_get_deadline_from_pid_handler : Z → Z → P Z := get_from_pid p_deadline.
Definition proc_get_period_from_pid_handler : Z → Z → P Z := get_from_pid period.
Definition proc_get_timecap_from_pid : Z → Z → P Z := get_from_pid timecap.

Definition proc_current_partition_get_id_handler (pid : Z) : P Z :=
  let! part := caller_partition pid in kret (p_index part).
Definition proc_current_partition_get_duration_handler (pid : Z) : P Z :=
  let! cur := getCurPart in
  kopt (znth pok_sched_slots cur).
Definition proc_current_partition_get_lock_level_handler (pid : Z) : P Z :=
  let! part := caller_partition pid in kret (s32 (lock_level part)).
Definition proc_current_partition_get_operating_mode_handler (pid : Z) : P Z :=
  let! part := caller_partition pid in kret (mode_value (p_mode part)).
End Messages.

(** The memory of processes and threads is zeroed, and no code sets the links. *)
Definition no_links : Z → option Z := λ _, None.
