(* ===== verification/PartitionCallsTheorems.v ===== *)
(** * What a partition can do to another

    The messages of a partition cannot fail, but for a refused change of mode,
    and leave the threads of the other partitions as they are; the last tick of
    a thread that stops itself starts it again; the system calls on partitions
    and ports that do not work. *)

From Stdlib Require Import String.
From S2P Require Import Prelude.
From S2P Require Import Word32.
From S2P Require Import DataStruct.
From S2P Require Import Partition.
From S2P Require Import PartitionInv.
From S2P Require Import PartitionTime.
From S2P Require Import PartitionTheorems.
From S2P Require Import PartitionCalls.

(** ** What a round of the scheduler does to each thread *)
Section Round.
Context {pc : PartConfig}.

(** The thread that pays for the tick, if any. *)
Definition charged (s : pok_state) (np cp : partition) : option Z :=
  let cur := current_thread s in
  if bool_decide (p_mode np = PART_MODE_NORMAL) && negb (cur =? IDLE_THREAD) && negb (cur =? thread_main cp)
  then Some cur else None.
Definition after_round (now : Z) (np : partition) (cur : option Z) (e n i : Z) (t : process) : process :=
  let t := if decide (low np ≤ i < low np + nthreads np) then wake_thread now t else t in
  let t := if bool_decide (cur = Some i) then charge_thread t else t in
  if e =? i then set_end_time n t else t.

Lemma znth_upd_map (ps : list process) i f t j :
  znth ps i = Some t → znth (<[Z.to_nat i := f t]> ps) j = (λ x, if i =? j then f x else x) <$> znth ps j.
Proof using Type.
  intros Ht. assert (0 ≤ i < Z.of_nat (List.length ps)) by (apply znth_range; eauto).
  rewrite znth_insert by done. destruct (Z.eqb_spec i j) as [<-|]; [by rewrite Ht|]. by destruct (znth ps j).
Qed.

Definition reads_only {A} (m : P A) : Prop := ∀ s a s', m s = Ok a s' → s' = s.
Lemma reads_bind {A B} (m : P A) (k : A → P B) :
  reads_only m → (∀ a, reads_only (k a)) → reads_only (kbind m k).
Proof using Type. intros Hm Hk s b s' (a & s1 & H1 & H2)%kbind_Ok_inv. rewrite (Hk _ _ _ _ H2). by eapply Hm. Qed.
Lemma reads_ret {A} (a : A) : reads_only (kret a : P A).
Proof using Type. by intros s b s' [= _ ->]. Qed.
Lemma reads_gets {A} (f : pok_state → A) : reads_only (gets f).
Proof using Type. by intros s b s' [= _ ->]. Qed.
Lemma reads_getProc i : reads_only (getProc i).
Proof using Type. intros s b s'. unfold getProc. destruct (znth _ i); [by intros [= _ ->]|done]. Qed.
Lemma reads_rr_loop n lo hi from : ∀ res, reads_only (rr_loop n lo hi from res).
Proof using Type.
  induction n as [|n IH]; intros res; cbn [rr_loop]; [done|]. apply reads_bind; [apply reads_getProc|].
  intros t. destruct (_ && _); [apply IH|apply reads_ret].
Qed.
Lemma reads_rr lo hi prev cur : reads_only (pok_sched_part_rr lo hi prev cur).
Proof using Type.
  apply reads_bind; [apply reads_getProc|]. intros t. destruct (_ && _); [apply reads_ret|].
  apply reads_bind; [apply reads_gets|]. intros n. apply reads_bind; [apply reads_rr_loop|]. intros res.
  apply reads_bind; [apply reads_getProc|]. intros t'. destruct (_ && _); apply reads_ret.
Qed.

Lemma elect_thread_threads s np p cp e ps :
  pok_ok s → znth (part_array s) np = Some p → znth (part_array s) (current_partition s) = Some cp →
  pok_elect_thread np s = Ok e (upd_proc_array ps s) →
  ∃ n, ∀ i, znth ps i = after_round (pok_tick_counter s) p (charged s p cp) e n i <$> znth (proc_array s) i.
Proof using Type.
  intros Hok Hnp Hcp. pose proof (znth_Forall _ _ _ _ (ok_part s Hok) Hnp) as Hp.
  destruct (ok_procs s Hok) as (Hlen & _). pose proof (po_low p Hp). pose proof (po_range p Hp).
  pose proof (po_count p Hp). pose proof (ok_current_thread s Hok) as Hcur.
  unfold pok_elect_thread. kstep. rewrite (kbind_Ok _ _ _ _ _ (getPart_Ok _ _ _ Hnp)).
  destruct (each_thread_Ok (low p) (nthreads p) (wake_thread (pok_tick_counter s)) s)
    as (ps1 & E1 & Hl1 & Hw1); [lia..|].
  rewrite (kbind_Ok _ _ _ _ _ E1).
  set (s1 := upd_proc_array ps1 s).
  intros (e' & s2 & E2 & (u & s3 & E3 & [= -> ->])%kbind_Ok_inv)%kbind_Ok_inv.
  assert (∃ ps2, s2 = upd_proc_array ps2 s ∧
    ∀ i, znth ps2 i = (λ t, if bool_decide (charged s p cp = Some i) then charge_thread t else t) <$> znth ps1 i)
    as (ps2 & -> & H2).
  { unfold charged. destruct (p_mode p) eqn:Em;
      try (injection E2 as <- <-; exists ps1; split; [done|]; intros i; by destruct (znth ps1 i)).
    apply kbind_Ok_inv in E2 as (cur & s4 & [= <- <-] & E2).
    apply kbind_Ok_inv in E2 as (curp & s4 & [= <- <-] & E2).
    rewrite (kbind_Ok _ _ s1 _ _ (getPart_Ok _ _ s1 Hcp)) in E2.
    apply kbind_Ok_inv in E2 as ([] & s4 & E4 & ->%reads_rr).
    rewrite (bool_decide_eq_true_2 (PART_MODE_NORMAL = PART_MODE_NORMAL)) by done. cbn [andb].
    change (current_thread s1) with (current_thread s) in *.
    destruct (negb (current_thread s =? IDLE_THREAD) && negb (current_thread s =? thread_main cp)).
    - destruct (proj1 (znth_range ps1 (current_thread s))) as [t Ht]; [rewrite Hl1; unfold IDLE_THREAD in *; lia|].
      cbn [kwhen] in E4. rewrite (updProc_Ok _ charge_thread t s1 Ht) in E4. injection E4 as <-.
      eexists. split; [done|]. intros i. rewrite (znth_upd_map ps1 _ charge_thread t) by done.
      destruct (znth ps1 i); [|done]. cbn. f_equal.
      destruct (Z.eqb_spec (current_thread s) i) as [->|Hne]; [by rewrite bool_decide_eq_true_2|].
      rewrite bool_decide_eq_false_2; [done|]. congruence.
    - injection E4 as <-. exists ps1. split; [done|]. intros i. by destruct (znth ps1 i). }
  destruct (znth ps2 e) as [t|] eqn:Ht; [|unfold updProc in E3; cbn in E3; by rewrite Ht in E3].
  rewrite (updProc_Ok _ _ t (upd_proc_array ps2 s) Ht) in E3. injection E3 as <- <-.
  eexists. intros i. erewrite znth_upd_map by done. rewrite H2, Hw1. unfold after_round.
  case_decide; by destruct (znth (proc_array s) i).
Qed.

(** The context switch leaves the tables alone. *)
Lemma context_switch_procs last new s s' :
  pok_sched_context_switch last new s = Ok tt s' → proc_array s' = proc_array s.
Proof using Type.
  unfold pok_sched_context_switch, syscall. destruct (negb (last =? new)); cbn [kwhen]; [|by intros [= ->]].
  intros (l & s1 & ->%reads_getProc & ([] & s2 & H2 & (n & s3 & ->%reads_getProc & H3)%kbind_Ok_inv)%kbind_Ok_inv)%kbind_Ok_inv.
  assert (∀ b e s s', kwhen b (modify (λ s, upd_pok_log (e :: pok_log s) s)) s = Ok tt s' → proc_array s' = proc_array s)
    as Hlog by (intros [] e r r' [= <-]; done).
  rewrite (Hlog _ _ _ _ H3). by eapply Hlog.
Qed.

(** Every thread after a round, as a function of the thread before. *)
Lemma pok_sched_threads {ok : PartConfigOk pc} s s' cp :
  pok_ok s → znth (part_array s) (current_partition s) = Some cp → pok_sched s = Ok tt s' →
  ∃ np p e n, np = next_partition s ∧ znth (part_array s) np = Some p ∧
    ∀ i, znth (proc_array s') i = after_round (pok_tick_counter s) p (charged s p cp) e n i <$> znth (proc_array s) i.
Proof using Type.
  intros Hok Hcp. set (np := next_partition s). set (s1 := next_schedule s).
  assert (pok_ok s1) as Hok1 by by apply pok_ok_next_schedule.
  assert (current_thread s1 = current_thread s ∧ pok_tick_counter s1 = pok_tick_counter s ∧
    proc_array s1 = proc_array s ∧ part_array s1 = part_array s ∧ current_partition s1 = current_partition s)
    as (Hct & Htc & Hpr & Hpa & Hcu) by (unfold s1, next_schedule; by destruct (slot_over s)).
  assert (0 ≤ np < POK_CONFIG_NB_PARTITIONS) as Hnp by by apply next_partition_range.
  destruct (proj1 (znth_range (part_array s1) np)) as [p Hp]; [by rewrite (ok_parts _ Hok1)|].
  unfold pok_sched. ksteps. rewrite (kbind_Ok _ _ _ _ _ (pok_elect_partition_Ok s)). fold np s1.
  destruct (pok_elect_thread_Ok s1 np p Hok1 Hp) as (e & ps & E & _).
  rewrite (kbind_Ok _ _ _ _ _ E). ksteps.
  destruct (elect_thread_threads s1 np p cp e ps Hok1 Hp) as [n Hn]; [congruence|done|].
  intros (q & s2 & Hq & ([] & s3 & H3 & H4%context_switch_procs)%kbind_Ok_inv)%kbind_Ok_inv.
  exists np, p, e, n. split_and!; [done|congruence|]. intros i.
  assert (proc_array s3 = proc_array s2) as H32.
  { destruct (negb (p_current_thread q =? e)); cbn [kwhen] in H3; [|by injection H3 as ->].
    unfold updPart in H3. case_match; by simplify_eq/=. }
  assert (proc_array s2 = ps) as H2.
  { unfold getPart in Hq. case_match; by simplify_eq/=. }
  rewrite H4, H32, H2, Hn, Htc, Hpr. unfold charged. by rewrite Hct.
Qed.

Lemma after_round_unlocked now p cur e n i t :
  p_status t ≠ POK_STATE_LOCK → p_status (after_round now p cur e n i t) ≠ POK_STATE_LOCK.
Proof using Type.
  intros H. unfold after_round. destruct (e =? i); cbn [p_status set_end_time];
    (case_bool_decide; [apply charge_unlocked|]); case_decide; try done; by apply wake_unlocked.
Qed.
Lemma pok_sched_unlocked {ok : PartConfigOk pc} s s' :
  pok_ok s → pok_sched s = Ok tt s' → unlocked (proc_array s) → unlocked (proc_array s').
Proof using Type.
  intros Hok E Hu. destruct (proj1 (znth_range (part_array s) (current_partition s))) as [cp Hcp].
  { rewrite (ok_parts s Hok). apply (ok_current_partition s Hok). }
  destruct (pok_sched_threads s s' cp Hok Hcp E) as (np & p & e & n & _ & _ & Hall).
  intros i t. rewrite Hall. intros (u & Hut & ->)%fmap_Some. by eapply after_round_unlocked, Hu.
Qed.

(** ** What a thread that is left in peace may see *)
Definition waits (t : process) : Prop :=
  p_status t = POK_STATE_WAITING ∨ p_status t = POK_STATE_WAIT_NEXT_ACTIVATION.
Record undisturbed (t t' : process) : Prop := {
  un_partition : p_partition t' = p_partition t;
  un_prio : prio t' = prio t ∧ base_priority t' = base_priority t;
  un_time : timecap t' = timecap t ∧ period t' = period t ∧ p_deadline t' = p_deadline t;
  un_ktcb : ktcb t' = ktcb t;
  un_status : p_status t' = p_status t ∨ (waits t ∧ p_status t' = POK_STATE_RUNNABLE)
}.

Lemma wake_undisturbed now t : undisturbed t (wake_thread now t).
Proof using Type.
  unfold wake_thread. destruct (bool_decide_reflect (p_status t = POK_STATE_WAITING)) as [Hw|Hw]; cbn [andb].
  - destruct (wakeup_time t <=? now); cbn; repeat case_match; split; cbn; unfold waits; auto.
  - case_match eqn:Hc; split; cbn; auto. apply andb_true_iff in Hc as [Hc%bool_decide_eq_true _].
    right. unfold waits. auto.
Qed.
Lemma after_round_undisturbed now p cur e n i t : cur ≠ Some i → undisturbed t (after_round now p cur e n i t).
Proof using Type.
  intros Hne. unfold after_round. rewrite bool_decide_eq_false_2 by done.
  assert (undisturbed t (if decide (low p ≤ i < low p + nthreads p) then wake_thread now t else t)) as [].
  { case_decide; [apply wake_undisturbed|]. split; auto. }
  destruct (e =? i); split; auto.
Qed.
End Round.

(** ** Messages *)
Section Messages.
Context {pc : PartConfig} {ok : PartConfigOk pc}.

(** The threads that are neither of the partition [cp] nor running. *)
Definition isolated (s : pok_state) (cp : partition) (s' : pok_state) : Prop :=
  ∀ i t, ¬ in_part cp i → i ≠ current_thread s → znth (proc_array s) i = Some t →
  ∃ t', znth (proc_array s') i = Some t' ∧ undisturbed t t'.
(** What a message leaves. *)
Record after_message (s : pok_state) (cp : partition) (s' : pok_state) : Prop := {
  am_ok : pok_ok s';
  am_on_time : on_time s';
  am_partition : current_partition s' = current_partition s;
  am_tick : pok_tick_counter s' = pok_tick_counter s;
  am_isolated : isolated s cp s';
  am_unlocked : unlocked (proc_array s) → unlocked (proc_array s')
}.

Lemma current_part s : pok_ok s → ∃ cp, znth (part_array s) (current_partition s) = Some cp ∧ part_ok cp.
Proof using Type.
  intros Hok. destruct (proj1 (znth_range (part_array s) (current_partition s))) as [cp Hcp].
  { rewrite (ok_parts s Hok). apply (ok_current_partition s Hok). }
  exists cp. split; [done|]. exact (znth_Forall _ _ _ _ (ok_part s Hok) Hcp).
Qed.

Lemma round_after s s1 cp :
  on_time s → pok_ok s1 → on_time s1 → znth (part_array s) (current_partition s) = Some cp →
  current_partition s1 = current_partition s → pok_tick_counter s1 = pok_tick_counter s →
  current_thread s1 = current_thread s →
  (∀ i, ¬ in_part cp i → i ≠ current_thread s → znth (proc_array s1) i = znth (proc_array s) i) →
  (unlocked (proc_array s) → unlocked (proc_array s1)) →
  ∃ s', pok_sched s1 = Ok tt s' ∧ after_message s cp s'.
Proof using ok.
  intros Hot Hok1 Hot1 Hcp Hpart Htick Hcur Hsame Hul. destruct (pok_sched_now s1 Hok1 Hot1) as (s' & E & Hok' & Hot' & Ht').
  exists s'. split; [done|]. split; try done; [|congruence|..].
  - pose proof (ot_partition s Hot) as P1. pose proof (ot_partition s' Hot') as P2.
    rewrite (ot_slot s Hot) in P1. rewrite (ot_slot s' Hot'), Ht', Htick in P2. congruence.
  - destruct (current_part s1 Hok1) as (cp1 & Hcp1 & _).
    destruct (pok_sched_threads s1 s' cp1 Hok1 Hcp1 E) as (np & p & e & n & _ & _ & Hall).
    intros i t Hi Hne Ht. rewrite Hall, Hsame, Ht by done. eexists. split; [done|].
    apply after_round_undisturbed. unfold charged. rewrite Hcur. destruct (_ && _ && _); congruence.
  - intros Hu. by eapply pok_sched_unlocked, Hul.
Qed.

Lemma upd_thread_ok s i f t :
  pok_ok s → on_time s → znth (proc_array s) i = Some t → ktcb (f t) = ktcb t →
  (i = IDLE_THREAD → remaining_time_capacity (f t) = 0) →
  ∃ s1, updProc i f s = Ok tt s1 ∧ pok_ok s1 ∧ on_time s1 ∧ current_partition s1 = current_partition s ∧
    pok_tick_counter s1 = pok_tick_counter s ∧ current_thread s1 = current_thread s ∧
    part_array s1 = part_array s ∧ proc_array s1 = <[Z.to_nat i := f t]> (proc_array s) ∧
    znth (proc_array s1) i = Some (f t) ∧
    ∀ j, j ≠ i → znth (proc_array s1) j = znth (proc_array s) j.
Proof using Type.
  intros Hok Hot Ht Hk Hr. assert (0 ≤ i < Z.of_nat (List.length (proc_array s))) by (apply znth_range; eauto).
  eexists. split; [by apply updProc_Ok|].
  assert (∀ j, znth (<[Z.to_nat i := f t]> (proc_array s)) j = if i =? j then Some (f t) else znth (proc_array s) j)
    as Hz by (intros; by apply znth_insert).
  assert (∀ j, ktcb_of (<[Z.to_nat i := f t]> (proc_array s)) j = ktcb_of (proc_array s) j) as Hkt.
  { intros j. unfold ktcb_of. rewrite Hz. destruct (Z.eqb_spec i j) as [<-|]; [by rewrite Ht|done]. }
  split_and!; try done.
  - destruct Hok as [? ? (Hlen & idle & Hidle & Hrem & Hkid) ? ? Hrun]. split; cbn; try done.
    + split; [by rewrite length_insert|]. rewrite Hz. destruct (Z.eqb_spec i IDLE_THREAD) as [->|].
      * exists (f t). split_and!; [done|by apply Hr|]. congruence.
      * by exists idle.
    + by rewrite Hkt.
  - by destruct Hot.
  - cbn. by rewrite Hz, Z.eqb_refl.
  - intros j Hj. cbn. rewrite Hz. by rewrite (proj2 (Z.eqb_neq i j)) by done.
Qed.

Lemma reschedule_after s cp i f t :
  pok_ok s → on_time s → znth (part_array s) (current_partition s) = Some cp → znth (proc_array s) i = Some t →
  in_part cp i ∨ i = current_thread s → ktcb (f t) = ktcb t →
  (i = IDLE_THREAD → remaining_time_capacity (f t) = 0) →
  (p_status t ≠ POK_STATE_LOCK → p_status (f t) ≠ POK_STATE_LOCK) →
  runs (reschedule (updProc i f)) s (λ _ s', after_message s cp s').
Proof using ok.
  intros Hok Hot Hcp Ht Hi Hk Hr Hst. unfold reschedule.
  destruct (upd_thread_ok s i f t Hok Hot Ht Hk Hr) as (s1 & E1 & Hok1 & Hot1 & Hp1 & Ht1 & Hc1 & Hpa1 & Hpr1 & Hi1 & Hz).
  destruct (round_after s s1 cp) as (s' & E & Ham); try done.
  { intros j Hj Hj'. apply Hz. intros ->. by destruct Hi. }
  { rewrite Hpr1. intros Hu. by apply unlocked_insert. }
  exists true, s'. by rewrite (kbind_Ok _ _ _ _ _ E1), (kbind_Ok _ _ _ _ _ E).
Qed.

(** The running thread may change itself in any way. *)
Lemma reschedule_current s cp f :
  pok_ok s → on_time s → znth (part_array s) (current_partition s) = Some cp → (∀ t, ktcb (f t) = ktcb t) →
  (∀ t, remaining_time_capacity t = 0 → remaining_time_capacity (f t) = 0) →
  (∀ t, p_status t ≠ POK_STATE_LOCK → p_status (f t) ≠ POK_STATE_LOCK) →
  runs (let! cur := gets current_thread in reschedule (updProc cur f)) s (λ _ s', after_message s cp s').
Proof using ok.
  intros Hok Hot Hcp Hk Hr Hst. pose proof (ok_current_thread s Hok). destruct (ok_procs s Hok) as (Hlen & idle & Hidle & Hrem & _).
  destruct (proj1 (znth_range (proc_array s) (current_thread s))) as [t Ht]; [unfold IDLE_THREAD in *; lia|].
  apply runs_bind, runs_gets. eapply reschedule_after; try done; try apply Hst; [by right|].
  intros Hi. apply Hr. rewrite Hi, Hidle in Ht. by injection Ht as <-.
Qed.

(** A thread of the current partition; others are not touched. *)
Lemma own_thread_after s cp id f now :
  pok_ok s → on_time s → znth (part_array s) (current_partition s) = Some cp → (∀ t, ktcb (f t) = ktcb t) →
  (∀ t, p_status t ≠ POK_STATE_LOCK → p_status (f t) ≠ POK_STATE_LOCK) →
  now = updProc id f ∨ (∃ g, now = (let! n := gets pok_tick_counter in updProc id (g n)) ∧ f = g (pok_tick_counter s)) →
  runs (with_own_thread id now) s (λ _ s', after_message s cp s').
Proof using ok.
  intros Hok Hot Hcp Hk Hst Hnow. pose proof (znth_Forall _ _ _ _ (ok_part s Hok) Hcp) as Hp.
  unfold with_own_thread, getCurPart. apply runs_bind, runs_gets.
  eapply runs_bind. eapply runs_Ok; [by apply getPart_Ok|].
  destruct (Z.ltb_spec id (low cp)) as [Hl|Hl]; cbn [orb]; [|destruct (Z.ltb_spec (high cp) id) as [Hh|Hh]].
  1,2: apply runs_ret; split; try done; intros i t _ _ Ht; exists t; split; [done|]; split; auto.
  pose proof (po_range cp Hp). pose proof (po_low cp Hp). destruct (ok_procs s Hok) as (Hlen & _).
  destruct (proj1 (znth_range (proc_array s) id)) as [t Ht]; [lia|].
  assert (runs (reschedule (updProc id f)) s (λ _ s', after_message s cp s')) as Hres.
  { eapply reschedule_after; try done; try apply Hst; [left; split; lia|]. unfold IDLE_THREAD. lia. }
  destruct Hnow as [->|(g & -> & ->)]; [done|]. exact Hres.
Qed.
End Messages.

(** A message that asks for a mode asks for the normal mode, from the main thread. *)
Definition mode_allowed (mr : Z → Z) (s : pok_state) (cp : partition) : Prop :=
  mr 0 = SYS_SET_PARTITION_MODE → mode_of (mr 1) = Some PART_MODE_NORMAL ∧ current_thread s = thread_main cp.

Lemma message_after {pc : PartConfig} (ok : PartConfigOk pc) s cp mr :
  pok_ok s → on_time s → znth (part_array s) (current_partition s) = Some cp → mode_allowed mr s cp →
  runs (partition_message mr) s (λ _ s', after_message s cp s').
Proof.
  intros Hok Hot Hcp Hmode. unfold partition_message.
  destruct (mr 0 =? GIVEUP_PERIOD); [by apply reschedule_current|].
  destruct (Z.eqb_spec (mr 0) SYS_SET_PARTITION_MODE) as [Hm|_].
  { destruct (Hmode Hm) as [-> Hmain].
    destruct (set_mode_normal_round s cp Hok Hot Hcp Hmain) as (s1 & E & Hok1 & Hot1 & Ht1 & Hp1 & Hc1 & Hul & Hsame).
    destruct (round_after s s1 cp) as (s' & Es & Ham); auto.
    apply runs_bind, runs_gets, runs_bind. eexists _, s'. split; [rewrite E; by rewrite (kbind_Ok _ _ _ _ _ Es)|].
    by apply runs_ret. }
  destruct (mr 0 =? SYS_STOP_SELF); [by apply reschedule_current|].
  destruct (mr 0 =? SYS_SUSPEND_SELF); [by apply reschedule_current|].
  destruct (mr 0 =? SYS_SET_PRIORITY).
  { eapply (own_thread_after s cp (mr 1) (λ t, set_prio (mr 2) (set_wakeup_time (pok_tick_counter s) t))); try done.
    right. by exists (λ n t, set_prio (mr 2) (set_wakeup_time n t)). }
  destruct (mr 0 =? SYS_SUSPEND).
  { apply (own_thread_after s cp (mr 1) (set_status POK_STATE_STOPPED)); auto. }
  destruct (mr 0 =? SYS_RESUME).
  { eapply (own_thread_after s cp (mr 1) (λ t, set_status POK_STATE_RUNNABLE (set_wakeup_time (pok_tick_counter s) t))); try done.
    right. by exists (λ n t, set_status POK_STATE_RUNNABLE (set_wakeup_time n t)). }
  apply runs_ret. split; try done. intros i t _ _ Ht. exists t. split; [done|]. split; auto.
Qed.

Lemma mode_refused_Panic {pc : PartConfig} s cp mr :
  znth (part_array s) (current_partition s) = Some cp → mr 0 = SYS_SET_PARTITION_MODE →
  ¬ mode_allowed mr s cp → partition_message mr s = Panic.
Proof.
  intros Hcp Hm Hno. unfold partition_message. rewrite Hm. cbn [Z.eqb Pos.eqb SYS_SET_PARTITION_MODE GIVEUP_PERIOD].
  unfold getCurPart. rewrite (kbind_Ok _ _ s s (current_partition s)) by done.
  assert (∃ r, r ≠ POK_ERRNO_OK ∧ match mode_of (mr 1) with
    | Some mode => pok_partition_set_mode (current_partition s) mode | None => kret POK_ERRNO_PARTITION_MODE end s =
    Ok r s) as (r & Hr & E).
  { exists POK_ERRNO_PARTITION_MODE. split; [done|]. destruct (mode_of (mr 1)) as [m|] eqn:Hmr; [|done].
    apply (set_mode_refused s _ m cp Hcp). destruct (decide (m = PART_MODE_NORMAL)) as [->|]; [right|by left].
    intros Hmain. by apply Hno. }
  rewrite (kbind_Ok _ _ _ _ _ E). by rewrite bool_decide_eq_false_2.
Qed.


(** Error behaviour (a defect): any thread stops the process server with a
    message that asks for another mode than the normal one, or that asks for a
    mode from another thread than the main one: the refusal fails an
    assertion. *)
Theorem partition_mode_refused_stops_server {pc : PartConfig} s cp mr :
  znth (part_array s) (current_partition s) = Some cp → mr 0 = SYS_SET_PARTITION_MODE →
  ¬ mode_allowed mr s cp → partition_message mr s = Panic.
Proof. by apply mode_refused_Panic. Qed.

(** Error behaviour (a defect): a thread that stops itself on the last tick
    of its time (or past it) is not stopped: the new round charges it for the
    tick and sets it to wait for its next activation, which starts it again.  With
    more time left it stays stopped. *)
Theorem stop_self_last_tick {pc : PartConfig} (ok : PartConfigOk pc) s cp t mr :
  pok_ok s → on_time s → znth (part_array s) (current_partition s) = Some cp →
  p_mode cp = PART_MODE_NORMAL → current_thread s ≠ IDLE_THREAD → current_thread s ≠ thread_main cp →
  znth (proc_array s) (current_thread s) = Some t → mr 0 = SYS_STOP_SELF →
  ∃ s' t', partition_message mr s = Ok true s' ∧ znth (proc_array s') (current_thread s) = Some t' ∧
    p_status t' = (if remaining_time_capacity t <=? 1 then POK_STATE_WAIT_NEXT_ACTIVATION else POK_STATE_STOPPED) ∧
    (remaining_time_capacity t ≤ 1 → ∀ now, next_activation t ≤ now →
       p_status (wake_thread now t') = POK_STATE_RUNNABLE).
Proof.
  intros Hok Hot Hcp Hmode Hidle Hmain Ht Hmr. unfold partition_message. rewrite Hmr.
  cbn [Z.eqb Pos.eqb SYS_SET_PARTITION_MODE GIVEUP_PERIOD SYS_STOP_SELF]. rewrite (kbind_Ok _ _ s s (current_thread s)) by done.
  unfold reschedule.
  destruct (upd_thread_ok s (current_thread s) (set_status POK_STATE_STOPPED) t Hok Hot Ht eq_refl)
    as (s1 & E1 & Hok1 & Hot1 & Hp1 & Ht1 & Hc1 & Hpa1 & Hpr1 & Hi1 & Hz); [done|].
  destruct (pok_sched_now s1 Hok1 Hot1) as (s' & E & _ & Hot' & Ht').
  rewrite (kbind_Ok _ _ _ _ _ E1), (kbind_Ok _ _ _ _ _ E).
  destruct (pok_sched_threads s1 s' cp Hok1) as (np & p & e & n & Hnp & Hp & Hall); [congruence|done|].
  assert (p = cp) as ->.
  { unfold next_partition in Hnp. rewrite (on_time_slot s1 Hot1) in Hnp. congruence. }
  eexists s', _. split; [done|]. rewrite Hall, Hi1. split; [done|].
  unfold charged. rewrite Hmode, Hc1, (proj2 (Z.eqb_neq _ _) Hidle), (proj2 (Z.eqb_neq _ _) Hmain).
  rewrite (bool_decide_eq_true_2 (PART_MODE_NORMAL = PART_MODE_NORMAL)) by done. cbn [andb negb].
  unfold after_round. rewrite (bool_decide_eq_true_2 (Some (current_thread s) = Some (current_thread s))) by done.
  set (t1 := if decide _ then _ else _).
  assert (t1 = set_status POK_STATE_STOPPED t) as -> by (unfold t1; by case_decide).
  set (t2 := charge_thread _).
  assert (p_status t2 = (if remaining_time_capacity t <=? 1 then POK_STATE_WAIT_NEXT_ACTIVATION else POK_STATE_STOPPED)
    ∧ next_activation t2 = next_activation t) as [Hst Hna].
  { unfold t2, charge_thread. cbn [remaining_time_capacity set_status set_remaining].
    destruct (Z.ltb_spec 0 (remaining_time_capacity t)); [destruct (Z.leb_spec (remaining_time_capacity t - 1) 0)|];
      destruct (Z.leb_spec (remaining_time_capacity t) 1); try lia; done. }
  split; [by destruct (e =? current_thread s)|]. intros Hle now Hnow. rewrite (proj2 (Z.leb_le _ _) Hle) in Hst.
  assert (p_status (if e =? current_thread s then set_end_time n t2 else t2) = POK_STATE_WAIT_NEXT_ACTIVATION ∧
    next_activation (if e =? current_thread s then set_end_time n t2 else t2) = next_activation t) as [Hs3 Hn3]
    by (by destruct (e =? current_thread s)).
  unfold wake_thread. rewrite Hs3. cbn [bool_decide]. rewrite (bool_decide_eq_false_2 (_ = POK_STATE_WAITING)) by done.
  cbn [andb]. rewrite Hs3, Hn3, bool_decide_eq_true_2, (proj2 (Z.leb_le _ _) Hnow) by done. done.
Qed.

(** ** Witnesses *)

(** The deployment in normal mode of partition 0, its thread 1 running with the
    last tick of its time. *)
Definition last_tick_thread : process := Process POK_STATE_RUNNABLE 0 100 100 1000 1000 0 1 1000 0 0 9.
Definition last_tick_partition : partition := Partition 2 PART_MODE_NORMAL 0 0 1 2 2 0 1 1 0.
Definition last_tick_state : pok_state :=
  PokState [last_tick_partition; Partition 3 PART_MODE_WARM_START 0 2 4 1 3 0 2 2 2]
    (<[1%nat := last_tick_thread]> (repeat zero_process 7)) [zero_port; zero_port] 0 1 0 1000 2000 0 ∅
    [ev_resume 9].
Lemma last_tick_ok : @pok_ok deployment last_tick_state.
Proof.
  split; cbn; try done; [|split; [done|by exists zero_process]].
  repeat constructor; unfold in_part; cbn; try lia; left; unfold in_part; cbn; lia.
Qed.
Lemma last_tick_on_time : @on_time deployment last_tick_state.
Proof. by split. Qed.
Definition apex_message (words : list Z) (i : Z) : Z := default 0 (znth words i).


Lemma partition_mode_refused_stops_server_witness :
  @partition_message deployment (apex_message [SYS_SET_PARTITION_MODE; 4]) last_tick_state = Panic.
Proof.
  apply (@partition_mode_refused_stops_server deployment last_tick_state last_tick_partition); [done|done|].
  intros H. destruct (H eq_refl) as [H' _]. by vm_compute in H'.
Defined.

Lemma stop_self_last_tick_witness :
  ∃ s' t', @partition_message deployment (apex_message [SYS_STOP_SELF]) last_tick_state = Ok true s' ∧
    znth (proc_array s') 1 = Some t' ∧ p_status t' = POK_STATE_WAIT_NEXT_ACTIVATION ∧
    (1 ≤ 1 → ∀ now, 1000 ≤ now → p_status (wake_thread now t') = POK_STATE_RUNNABLE).
Proof.
  apply (stop_self_last_tick deployment_ok last_tick_state last_tick_partition last_tick_thread
    (apex_message [SYS_STOP_SELF]) last_tick_ok last_tick_on_time); done.
Defined.

(** ** System calls that do not work *)

(** Bounds (a defect): writing a sampling port checks an identifier only
    from above, and its owner by its last eight bits: a negative identifier that
    agrees with a port of the caller in them accesses memory before the ports. *)
Theorem sampling_write_negative_port {pc : PartConfig} s id data len :
  id < 0 → 0 ≤ POK_CONFIG_NB_PORTS → pok_own_port (current_partition s) (id mod 256) = Some true →
  proc_port_sampling_write_handler id (Some data) len s = Panic.
Proof.
  intros Hid Hn Hown. unfold proc_port_sampling_write_handler. rewrite (proj2 (Z.ltb_ge _ _)) by lia.
  rewrite (kbind_Ok _ _ s s true).
  2:{ unfold own_port, getCurPart. rewrite (kbind_Ok _ _ s s (current_partition s)) by done. by rewrite Hown. }
  cbn [negb]. apply kbind_Panic. unfold getPort. destruct (znth (pok_ports s) id) eqn:Hz; [|done].
  assert (0 ≤ id < Z.of_nat (List.length (pok_ports s))) by (apply znth_range; eauto). lia.
Qed.
Lemma sampling_write_negative_port_witness :
  @proc_port_sampling_write_handler deployment (-256) (Some [104; 105]) 2 last_tick_state = Panic.
Proof. by apply (@sampling_write_negative_port deployment last_tick_state). Defined.
