(* ===== verification/Apex.v ===== *)
(** * The APEX library

    The services of ARINC 653 that [libs/libapex/src/] offers to the threads of
    a partition ([apex_proc.c], [apex_part.c], [apex_sampling.c]).  A service
    asks the process server through generated stubs, whose answers are
    arguments, and sends at most one message without waiting ([RPC_NBSend]):
    its value is the return code and that message, as words.

    The theorem composes the services with the server: no thread is ever
    resumed through them. *)

From Stdlib Require Import String.
From S2P Require Import Prelude.
From S2P Require Import Word32.
From S2P Require Import DataStruct.
From S2P Require Import Partition.
From S2P Require Import PartitionInv.
From S2P Require Import PartitionTime.
From S2P Require Import PartitionTheorems.
From S2P Require Import PartitionCalls.
From S2P Require Import PartitionCallsTheorems.

Inductive RETURN_CODE_TYPE : Type :=
| NO_ERROR | NO_ACTION | NOT_AVAILABLE | INVALID_PARAM | INVALID_CONFIG | INVALID_MODE | TIMED_OUT.
#[export] Instance return_code_eq_dec : EqDecision RETURN_CODE_TYPE.
Proof. solve_decision. Defined.

(** [PROCESS_STATE_TYPE] *)
Definition DORMANT : Z := 0.
Definition READY : Z := 1.
Definition RUNNING : Z := 2.
Definition WAITING : Z := 3.
Definition MIN_PRIORITY_VALUE : Z := 1.
Definition MAX_PRIORITY_VALUE : Z := 63.
Definition INFINITE_TIME_VALUE : Z := -1.
Definition SOURCE : Z := 0.
Definition DESTINATION : Z := 1.

Definition service : Type := RETURN_CODE_TYPE * option (list Z).
(** [RPC_NBSend1] to [RPC_NBSend4] *)
Definition RPC_NBSend (words : list Z) : option (list Z) := Some (w32 <$> words).
Definition giveup_period : option (list Z) := RPC_NBSend [GIVEUP_PERIOD].

(** ** Processes *)
Definition GET_PROCESS_ID (pid_from_name : string → Z) (process_name : string) : Z * RETURN_CODE_TYPE :=
  let process_id := pid_from_name process_name in
  (process_id, if process_id =? 0 then INVALID_CONFIG else NO_ERROR).
Definition GET_MY_ID (getpid : Z) : Z * RETURN_CODE_TYPE := (getpid, NO_ERROR).

Definition STOP_SELF : option (list Z) := RPC_NBSend [SYS_STOP_SELF].

(** [status] and [period] are the server's answers for [process_id]. *)
Definition SET_PRIORITY (status process_id prio : Z) : service :=
  let status := w32 status in
  if (status <? DORMANT) || (WAITING <? status) then (INVALID_PARAM, None)
  else if (MAX_PRIORITY_VALUE <? prio) || (prio <? MIN_PRIORITY_VALUE) then (INVALID_PARAM, None)
  else if status =? DORMANT then (INVALID_MODE, None)
  else (NO_ERROR, RPC_NBSend [SYS_SET_PRIORITY; process_id; prio]).

Definition SUSPEND_SELF (time_out : Z) : service :=
  if 0 <? time_out then (NOT_AVAILABLE, None) else (NO_ERROR, RPC_NBSend [SYS_SUSPEND_SELF]).

Definition SUSPEND (status period process_id : Z) : service :=
  let status := w32 status in
  if status =? DORMANT then (INVALID_MODE, None)
  else if period =? INFINITE_TIME_VALUE then (INVALID_MODE, None)
  else if status =? WAITING then (NO_ACTION, None)
  else (NO_ERROR, RPC_NBSend [SYS_SUSPEND; process_id]).

Definition RESUME (status period process_id : Z) : service :=
  let status := w32 status in
  if status =? DORMANT then (INVALID_MODE, None)
  else if period =? INFINITE_TIME_VALUE then (INVALID_MODE, None)
  else if negb (status =? WAITING) then (NO_ACTION, None)
  else (NO_ERROR, RPC_NBSend [SYS_RESUME; process_id]).
Definition START : Z → Z → Z → service := RESUME.
Definition DELAYED_START (process_id delay_time : Z) : service := (NOT_AVAILABLE, None).
Definition LOCK_PREEMPTION : service := (NOT_AVAILABLE, None).
Definition UNLOCK_PREEMPTION : service := (NOT_AVAILABLE, None).

(** ** Partitions *)
Definition SET_PARTITION_MODE (mode : Z) : service := (NO_ERROR, RPC_NBSend [SYS_SET_PARTITION_MODE; mode]).

(** ** Sampling ports *)

(** The return code is the server's number; [None] when the stub is not called. *)
Definition CREATE_SAMPLING_PORT (create : string → Z → Z → Z → Z * Z)
    (name : string) (size direction period : Z) : RETURN_CODE_TYPE + Z * Z :=
  if direction =? SOURCE then inr (create name size POK_PORT_DIRECTION_OUT period)
  else if direction =? DESTINATION then inr (create name size POK_PORT_DIRECTION_IN period)
  else inl INVALID_PARAM.
Definition WRITE_SAMPLING_MESSAGE (write : Z → list Z → Z → Z) (id : Z) (message : list Z) (length : Z) :
    RETURN_CODE_TYPE + Z :=
  if length <=? 0 then inl INVALID_PARAM else inr (write id message length).
Definition READ_SAMPLING_MESSAGE (read : Z → Z * Z * bool) (id : Z) : Z * Z * bool := read id.

(** ** Resuming a thread *)
Section Resume.
Context {pc : PartConfig} {ok : PartConfigOk pc}.

(** What happens to the server: a tick of the timer or a message of a thread. *)
Inductive apex_step : pok_state → pok_state → Prop :=
| apex_tick s s' : scheduler_tick s = Ok tt s' → apex_step s s'
| apex_call s mr b s' : partition_message mr s = Ok b s' → apex_step s s'.

Lemma apex_step_keeps s s' :
  pok_ok s → on_time s → pok_tick_counter s + 1 < 2 ^ 62 → unlocked (proc_array s) → apex_step s s' →
  pok_ok s' ∧ on_time s' ∧ pok_tick_counter s' ≤ pok_tick_counter s + 1 ∧ unlocked (proc_array s').
Proof using ok.
  intros Hok Hot Hlt Hu Hst. revert Hok Hot Hlt Hu. destruct Hst as [s s' E|s mr b s' E]; intros Hok Hot Hlt Hu.
  - destruct (scheduler_tick_Ok s Hok Hot Hlt) as (s2 & E2 & ? & ? & ?). assert (s2 = s') as -> by congruence.
    split_and!; [done|done|lia|]. refine (pok_sched_unlocked _ s' (pok_ok_tick s _ Hok) E Hu).
  - destruct (current_part s Hok) as (cp & Hcp & _).
    destruct (decide (mr 0 = SYS_SET_PARTITION_MODE ∧
      ¬ (mode_of (mr 1) = Some PART_MODE_NORMAL ∧ current_thread s = thread_main cp))) as [[Hm Hno]|Hyes].
    { rewrite (mode_refused_Panic s cp mr Hcp Hm) in E; [done|]. intros H. by apply Hno, H. }
    destruct (message_after ok s cp mr Hok Hot Hcp) as (b' & s2 & E2 & [Hok2 Hot2 _ Ht2 _ Hu2]).
    { intros Hm. destruct (decide (mode_of (mr 1) = Some PART_MODE_NORMAL ∧ current_thread s = thread_main cp)); [done|].
      destruct Hyes. by split. }
    assert (s2 = s') as -> by congruence. split_and!; [done|done|lia|by apply Hu2].
Qed.

Lemma apex_steps_keep n s s' :
  pok_ok s → on_time s → pok_tick_counter s + Z.of_nat n < 2 ^ 62 → unlocked (proc_array s) →
  nsteps apex_step n s s' → unlocked (proc_array s').
Proof using ok.
  intros Hok Hot Hlt Hu Hst. revert Hok Hot Hlt Hu.
  induction Hst as [s|n s s1 s2 Hs1 Hst IH]; intros Hok Hot Hlt Hu; [done|].
  destruct (apex_step_keeps s s1 Hok Hot) as (? & ? & ? & ?); [lia|done..|]. apply IH; [done|done|lia|done].
Qed.
End Resume.

(** C28. Error behaviour (a defect): RESUME and START compare the status the
    server reports, a value of [pok_state_t], with the states of APEX, and send
    their message for the number of WAITING alone, which is the number of a
    locked thread.  However the timer and the partitions' messages interleave, no
    thread is ever locked, so no thread is ever resumed or started through
    them. *)
Theorem RESUME_never_resumes {pc : PartConfig} (ok : PartConfigOk pc) n s0 s id t period :
  pok_ok s0 → on_time s0 → unlocked (proc_array s0) → pok_tick_counter s0 + Z.of_nat n < 2 ^ 62 →
  nsteps apex_step n s0 s → znth (proc_array s) id = Some t →
  (RESUME (state_value (p_status t)) period id).2 = None ∧ (START (state_value (p_status t)) period id).2 = None.
Proof.
  intros Hok Hot Hu Hlt Hst Ht. pose proof (apex_steps_keep n s0 s Hok Hot Hlt Hu Hst id t Ht) as Hl.
  unfold START, RESUME. by destruct (p_status t), (period =? INFINITE_TIME_VALUE).
Qed.

(** A thread that waits in the deployment, after one tick. *)
Definition resume_state : pok_state :=
  upd_proc_array (<[0%nat := set_wakeup_time 50 (set_status POK_STATE_WAITING zero_process)]>
    (proc_array last_tick_state)) last_tick_state.
Lemma resume_ok : @pok_ok deployment resume_state.
Proof. destruct last_tick_ok. by split. Qed.
Lemma resume_unlocked : unlocked (proc_array resume_state).
Proof.
  intros i t. apply (znth_Forall (λ t, p_status t ≠ POK_STATE_LOCK)). by repeat constructor.
Qed.
Lemma RESUME_never_resumes_witness :
  ∃ s t, nsteps (@apex_step deployment) 1 resume_state s ∧ znth (proc_array s) 0 = Some t ∧
    (RESUME (state_value (p_status t)) 0 0).2 = None ∧ (START (state_value (p_status t)) 0 0).2 = None.
Proof.
  destruct (@scheduler_tick_Ok deployment deployment_ok resume_state resume_ok) as (s & E & _); [by split|done|].
  assert (nsteps (@apex_step deployment) 1 resume_state s) as Hst by (by apply nsteps_once, apex_tick).
  destruct (znth (proc_array s) 0) as [t|] eqn:Ht.
  - exists s, t. split; [done|]. split; [done|].
    apply (RESUME_never_resumes deployment_ok 1 resume_state s 0 t 0 resume_ok); [by split|exact resume_unlocked|done..].
  - vm_compute in E. injection E as <-. by vm_compute in Ht.
Defined.

