(* ===== verification/WindowAssoc.v ===== *)
(** * The windows of a process

    Models the window association lists of the process server
    ([apps/process_server/src/system/memserv/window.c]): the windows of a
    process in its address space, in a growing array that is sorted when a
    search needs it.  [malloc_ok] tells which sizes the allocator serves,
    [qsort] is the sorting function of the C library.  [None] is a failed
    assertion or an access outside an array. *)

From S2P Require Import Prelude.
From S2P Require Import Word32.
From S2P Require Import DataStruct.

(** The error codes of [refos/error.h] that the process server returns here. *)
Inductive refos_error : Type :=
| ESUCCESS | ENOMEM | EINVALID | EUNKNOWNCLIENT | EINVALIDPARAM | ESERVERNOTFOUND | EINVALIDWINDOW
| ESERVICEUNAVAILABLE | EACCESSDENIED | EUNMAPFIRST | EFILENOTFOUND | EENDOFFILE | EDEVICENOTFOUND
| ENOPARAMBUFFER | EUNIMPLEMENTED | EDELEGATED.
#[export] Instance refos_error_eq_dec : EqDecision refos_error.
Proof. solve_decision. Defined.

(** ** The state *)
Definition W_INVALID_WINID : Z := 0.
Definition W_INITIAL_SIZE : Z := 4.
Definition W_MAX_WINDOWS : Z := 8192.
Definition W_MAX_ASSOCIATED_WINDOWS : Z := 2048.

Record w_associated_window : Type := associated_window {
  aw_winID : Z;
  aw_offset : Z;
  aw_size : Z
}.
#[export] Instance w_associated_window_eq_dec : EqDecision w_associated_window.
Proof. solve_decision. Defined.

Record w_associated_windowlist : Type := windowlist {
  associated : list (option w_associated_window);
  associatedVectorSize : Z;
  numIndex : Z;
  updated : bool
}.

(** [sizeof(struct w_associated_window)] *)
Definition sizeof_associated_window : Z := 12.

(** The rights of a capability to a frame, as bits. *)
Definition W_PERMISSION_WRITE : Z := 1.
Definition W_PERMISSION_READ : Z := 2.
Definition seL4_CanWrite : Z := 1.
Definition seL4_CanRead : Z := 2.
Definition seL4_CanGrant : Z := 4.
Definition w_convert_permission_to_caprights (permission : Z) : Z :=
  let capr := seL4_CanGrant in
  let capr := if negb (Z.lor permission W_PERMISSION_WRITE =? 0) then Z.lor capr seL4_CanWrite
              else capr in
  if negb (Z.lor permission W_PERMISSION_READ =? 0) then Z.lor capr seL4_CanRead else capr.

Section WindowAssoc.
Context (malloc_ok : Z → bool).
Context (qsort : list w_associated_window → list w_associated_window).

(** An array of [n] elements of [width] bytes. *)
Definition kmalloc_array {A} (width n : Z) : option (list (option A)) :=
  if malloc_ok (w32 (width * n)) then
    Some (repeat None (Z.to_nat (w32 (width * n) / width)))
  else None.
Definition krealloc_array {A} (d : list (option A)) (width n : Z) : option (list (option A)) :=
  if malloc_ok (w32 (width * n)) then
    let k := Z.to_nat (w32 (width * n) / width) in
    Some (take k d ++ repeat None (k - length d))
  else None.

(** ** Adding and removing *)
Definition w_associate_reserve (aw : w_associated_windowlist) (num : Z) :
    option w_associated_windowlist :=
  if num <? associatedVectorSize aw then Some aw
  else if (associatedVectorSize aw =? 0) || bool_decide (associated aw = []) then
    let n := if num <? W_INITIAL_SIZE then W_INITIAL_SIZE else num in
    let? a := kmalloc_array sizeof_associated_window n in
    Some (windowlist a n (numIndex aw) (updated aw))
  else
    let n := w32 (associatedVectorSize aw * 2 + 1) in
    let? a := krealloc_array (associated aw) sizeof_associated_window n in
    Some (windowlist a n (numIndex aw) (updated aw)).

(** The old array is the allocator's again. *)
Definition w_associate_clear (aw : w_associated_windowlist) : option w_associated_windowlist :=
  w_associate_reserve (windowlist [] 0 0 true) W_INITIAL_SIZE.

Definition w_associate_init : option w_associated_windowlist :=
  w_associate_clear (windowlist [] 0 0 false).

Definition w_associate (aw : w_associated_windowlist) (winID offset size : Z) :
    option (w_associated_windowlist * refos_error) :=
  let? _ := guard (negb (winID =? W_INVALID_WINID)) in
  let? _ := guard ((0 <? winID) && (winID <? W_MAX_WINDOWS)) in
  if W_MAX_ASSOCIATED_WINDOWS <=? numIndex aw then Some (aw, ENOMEM)
  else
    let? aw := w_associate_reserve aw (numIndex aw + 1) in
    let? a := put (associated aw) (numIndex aw) (associated_window winID offset size) in
    Some (windowlist a (associatedVectorSize aw) (numIndex aw + 1) false, ESUCCESS).

(** The loop of [w_unassociate], from [i] on. *)
Fixpoint unassociate_loop (fuel : nat) (aw : w_associated_windowlist) (i winID : Z) :
    option w_associated_windowlist :=
  match fuel with
  | O => None
  | S fuel =>
      if i <? numIndex aw then
        let? w := fetch (associated aw) i in
        if aw_winID w =? winID then
          let n := numIndex aw - 1 in
          let? last := fetch (associated aw) n in
          let? a := put (associated aw) i last in
          unassociate_loop fuel (windowlist a (associatedVectorSize aw) n (updated aw)) (i + 1) winID
        else unassociate_loop fuel aw (i + 1) winID
      else Some aw
  end.
Definition w_unassociate (aw : w_associated_windowlist) (winID : Z) :
    option w_associated_windowlist :=
  unassociate_loop (S (Z.to_nat (numIndex aw))) aw 0 winID.

(** ** Searching *)

(** The first [n] elements from [i] on. *)
Fixpoint collect {A} (n : nat) (a : list (option A)) (i : Z) : option (list A) :=
  match n with
  | O => Some []
  | S n =>
      let? x := fetch a i in
      let? l := collect n a (i + 1) in
      Some (x :: l)
  end.

Definition w_associate_update (aw : w_associated_windowlist) : option w_associated_windowlist :=
  let n := Z.to_nat (numIndex aw) in
  let? l := collect n (associated aw) 0 in
  Some (windowlist ((Some <$> qsort l) ++ drop n (associated aw)) (associatedVectorSize aw)
          (numIndex aw) true).

(** [if (!aw->updated) w_associate_update(aw)] *)
Definition sort_if_needed (aw : w_associated_windowlist) : option w_associated_windowlist :=
  if updated aw then Some aw else w_associate_update aw.

Definition w_associate_window_contains (w : w_associated_window) (addr : Z) : bool :=
  (aw_offset w <=? addr) && (addr <? w32 (aw_offset w + aw_size w)).

(** Whether a window was found, and the last index looked at. *)
Fixpoint bsearch_loop (fuel : nat) (a : list (option w_associated_window)) (n addr start end_ : Z) :
    option (bool * Z) :=
  match fuel with
  | O => None
  | S fuel =>
      let current := (start + end_) / 2 in
      if end_ <=? start then Some (false, current)
      else
        let? _ := guard ((0 <=? current) && (current <? n)) in
        let? w := fetch a current in
        if w_associate_window_contains w addr then Some (true, current)
        else if aw_offset w <=? addr then bsearch_loop fuel a n addr (current + 1) end_
        else bsearch_loop fuel a n addr start current
  end.

Definition w_associate_find_index (aw : w_associated_windowlist) (addr : Z) :
    option (w_associated_windowlist * Z) :=
  let? aw := sort_if_needed aw in
  match bsearch_loop (S (Z.to_nat (numIndex aw))) (associated aw) (numIndex aw) addr 0 (numIndex aw) with
  | Some (found, current) => Some (aw, if found : bool then current else -1 - current)
  | None => None
  end.

Definition w_associate_find (aw : w_associated_windowlist) (addr : Z) :
    option (w_associated_windowlist * option w_associated_window) :=
  match w_associate_find_index aw addr with
  | Some (aw, i) =>
      if i <? 0 then Some (aw, None)
      else let? w := fetch (associated aw) i in Some (aw, Some w)
  | None => None
  end.

(** The first window with the identifier among the first [n] from [i] on. *)
Fixpoint find_winID_loop (n : nat) (a : list (option w_associated_window)) (i winID : Z) :
    option (option w_associated_window) :=
  match n with
  | O => Some None
  | S n =>
      let? w := fetch a i in
      if aw_winID w =? winID then Some (Some w) else find_winID_loop n a (i + 1) winID
  end.
Definition w_associate_find_winID (aw : w_associated_windowlist) (winID : Z) :
    option (w_associated_windowlist * option w_associated_window) :=
  let? aw := sort_if_needed aw in
  let? w := find_winID_loop (Z.to_nat (numIndex aw)) (associated aw) 0 winID in
  Some (aw, w).

Definition w_associate_check (aw : w_associated_windowlist) (offset size : Z) :
    option (w_associated_windowlist * bool) :=
  match w_associate_find_index aw offset with
  | Some (aw, findResult1) =>
      if 0 <=? findResult1 then Some (aw, false)
      else
        match w_associate_find_index aw (w32 (offset + size - 1)) with
        | Some (aw, findResult2) =>
            if 0 <=? findResult2 then Some (aw, false)
            else Some (aw, findResult1 =? findResult2)
        | None => None
        end
  | None => None
  end.

Definition w_associate_find_range (aw : w_associated_windowlist) (offset size : Z) :
    option (w_associated_windowlist * option w_associated_window) :=
  match w_associate_find_index aw offset with
  | Some (aw, findResult1) =>
      if findResult1 <? 0 then Some (aw, None)
      else
        match w_associate_find_index aw (w32 (offset + size - 1)) with
        | Some (aw, findResult2) =>
            if findResult2 <? 0 then Some (aw, None)
            else if negb (findResult1 =? findResult2) then Some (aw, None)
            else let? w := fetch (associated aw) findResult1 in Some (aw, Some w)
        | None => None
        end
  | None => None
  end.
End WindowAssoc.
