(* ===== verification/WindowInv.v ===== *)
(** * Lemmas on the windows of a process

    The array is a list of windows that do not overlap, sorted once a search
    has sorted it; the binary search finds the place of an address among
    them. *)

From S2P Require Import Prelude.
From S2P Require Import Word32.
From S2P Require Import DataStruct.
From S2P Require Import DataVec.
From S2P Require Import WindowAssoc.
From stdpp Require Import sorting.
#[local] Open Scope Z_scope.

(** ** Windows as intervals *)
Definition aw_end (w : w_associated_window) : Z := aw_offset w + aw_size w.
Definition window_ok (w : w_associated_window) : Prop :=
  0 ≤ aw_offset w ∧ 0 < aw_size w ∧ aw_end w < 2 ^ 32.
(** The intervals [a, b) and the window have no address in common. *)
Definition apart (a b : Z) (w : w_associated_window) : Prop := b ≤ aw_offset w ∨ aw_end w ≤ a.
Definition disjoint_windows (w w' : w_associated_window) : Prop :=
  apart (aw_offset w) (aw_end w) w'.
Definition before (w w' : w_associated_window) : Prop := aw_end w ≤ aw_offset w'.

#[export] Instance window_ok_dec w : Decision (window_ok w).
Proof. unfold window_ok. apply _. Defined.
#[export] Instance apart_dec a b w : Decision (apart a b w).
Proof. unfold apart. apply _. Defined.
#[export] Instance disjoint_windows_sym : Symmetric disjoint_windows.
Proof. intros w w'. unfold disjoint_windows, apart. lia. Qed.

(** Windows of one address space. *)
Record windows_ok (ws : list w_associated_window) : Prop := {
  ws_ok : Forall window_ok ws;
  ws_disjoint : ForallOrdPairs disjoint_windows ws
}.

Lemma contains_iff w addr :
  window_ok w → w_associate_window_contains w addr = true ↔ aw_offset w ≤ addr < aw_end w.
Proof.
  intros (H1 & H2 & H3). unfold w_associate_window_contains, aw_end in *.
  rewrite w32_id by (unfold is_w32; lia). rewrite andb_true_iff, Z.leb_le, Z.ltb_lt. lia.
Qed.

#[export] Instance windows_ok_perm : Proper ((≡ₚ) ==> iff) windows_ok.
Proof.
  assert (∀ l l', l ≡ₚ l' → windows_ok l → windows_ok l') as H.
  { intros l l' Hp [H1 H2]. split; [by rewrite <-Hp|]. clear H1.
    induction Hp as [|x l l' Hp IH|x y l|l l2 l3 _ IH1 _ IH2]; [done|..|by auto].
    - inversion H2; subst. constructor; [by rewrite <-Hp|auto].
    - inversion H2 as [|? ? Hx H3]; subst. inversion H3 as [|? ? Hy H4]; subst.
      inversion Hx as [|? ? Hxy Hx']; subst.
      constructor; [constructor; [by symmetry|done]|by constructor]. }
  intros l l' Hp. by split; apply H.
Qed.

Lemma windows_ok_pair ws i j w w' :
  windows_ok ws → ws !! i = Some w → ws !! j = Some w' → i ≠ j → disjoint_windows w w'.
Proof.
  intros [_ H]. revert i j. induction H as [|x l Hx H IH]; intros i j; [done|].
  rewrite Forall_forall in Hx.
  destruct i as [|i], j as [|j]; cbn; [done| | |].
  - intros [= <-] Hj _. by apply list_elem_of_lookup_2, Hx in Hj.
  - intros Hi [= <-] _. symmetry. by apply list_elem_of_lookup_2, Hx in Hi.
  - intros Hi Hj Hij. apply (IH i j); [done|done|congruence].
Qed.

(** At most one window contains an address. *)
Lemma contains_unique ws w w' addr :
  windows_ok ws → w ∈ ws → w' ∈ ws → w_associate_window_contains w addr = true →
  w_associate_window_contains w' addr = true → w = w'.
Proof.
  intros H [i Hi]%list_elem_of_lookup [j Hj]%list_elem_of_lookup.
  pose proof (ws_ok _ H) as HF. rewrite Forall_forall in HF.
  rewrite !contains_iff by (apply HF; by eapply list_elem_of_lookup_2). intros H1 H2.
  destruct (decide (i = j)) as [->|Hne]; [congruence|].
  pose proof (windows_ok_pair _ _ _ _ _ H Hi Hj Hne) as Hd.
  unfold disjoint_windows, apart in Hd. lia.
Qed.

(** A sorted list of windows of one address space. *)
Definition offset_le (w w' : w_associated_window) : Prop := aw_offset w ≤ aw_offset w'.
#[export] Instance offset_le_trans : Transitive offset_le.
Proof. intros x y z. unfold offset_le. lia. Qed.

Lemma sorted_before ws i j w w' :
  windows_ok ws → Sorted offset_le ws → ws !! i = Some w → ws !! j = Some w' → (i < j)%nat →
  before w w'.
Proof.
  intros H Hs Hi Hj Hij. apply Sorted_StronglySorted in Hs; [|apply _].
  assert (offset_le w w') as Hle.
  { revert i j Hi Hj Hij. clear H. induction Hs as [|x l Hs IH HF]; intros i j; [done|].
    destruct i as [|i], j as [|j]; cbn; [intros; lia| |intros; lia|].
    - intros [= <-] Hj _. rewrite Forall_forall in HF. by apply list_elem_of_lookup_2, HF in Hj.
    - intros Hi Hj Hij. apply (IH i j); [done|done|lia]. }
  pose proof (windows_ok_pair _ _ _ _ _ H Hi Hj ltac:(lia)) as Hd.
  pose proof (ws_ok _ H) as HF. rewrite Forall_forall in HF.
  destruct (HF w) as (? & ? & ?); [by eapply list_elem_of_lookup_2|].
  destruct (HF w') as (? & ? & ?); [by eapply list_elem_of_lookup_2|].
  unfold disjoint_windows, apart, offset_le, before, aw_end in *. lia.
Qed.

(** ** The place of an address: all windows before [k] end before it, all
    others start after it. *)
Definition splits (ws : list w_associated_window) (addr : Z) (k : nat) : Prop :=
  (k ≤ length ws)%nat ∧
  ∀ i w, ws !! i = Some w → if decide (i < k)%nat then aw_end w ≤ addr else addr < aw_offset w.

Lemma splits_not_contains ws addr k w :
  Forall window_ok ws → splits ws addr k → w ∈ ws → w_associate_window_contains w addr = false.
Proof.
  intros HF [_ H] Hin. pose proof Hin as [i Hi]%list_elem_of_lookup. specialize (H _ _ Hi).
  rewrite Forall_forall in HF. apply not_true_iff_false. rewrite contains_iff by auto.
  destruct (decide _); lia.
Qed.

(** Two addresses have the same place when no window is between them. *)
Lemma splits_eq_iff ws a b k k' :
  Forall window_ok ws → a ≤ b → splits ws a k → splits ws b k' →
  k = k' ↔ Forall (apart a (b + 1)) ws.
Proof.
  intros HF Hab [Hk H] [Hk' H']. rewrite Forall_forall in HF. split.
  - intros ->. apply Forall_forall. intros w [i Hi]%list_elem_of_lookup.
    specialize (H _ _ Hi). specialize (H' _ _ Hi). unfold apart. destruct (decide _); lia.
  - intros Hap. rewrite Forall_forall in Hap.
    assert (∀ i w, ws !! i = Some w → (i < k)%nat ↔ (i < k')%nat) as Hiff.
    { intros i w Hi. specialize (H _ _ Hi). specialize (H' _ _ Hi).
      pose proof (list_elem_of_lookup_2 _ _ _ Hi) as Hin.
      destruct (Hap w Hin) as [Ha|Ha]; destruct (HF w Hin) as (? & ? & ?); unfold aw_end in *;
        repeat destruct (decide _); lia. }
    destruct (lt_eq_lt_dec k k') as [[Hlt|Heq]|Hgt]; [|done|].
    + destruct (lookup_lt_is_Some_2 ws k) as [w Hw]; [lia|]. specialize (Hiff _ _ Hw). lia.
    + destruct (lookup_lt_is_Some_2 ws k') as [w Hw]; [lia|]. specialize (Hiff _ _ Hw). lia.
Qed.

(** ** The array *)
Section Lists.
Context (malloc_ok : Z → bool) (Hmalloc : ∀ n, 0 < n ≤ 49164 → malloc_ok n = true).
Context (qsort : list w_associated_window → list w_associated_window).
(** The C library sorts windows with different offsets. *)
Context (Hqsort : ∀ l, NoDup (aw_offset <$> l) → qsort l ≡ₚ l ∧ Sorted offset_le (qsort l)).

(** [aw] holds the windows [l], in this order. *)
Record aw_rep (aw : w_associated_windowlist) (l : list w_associated_window) : Prop := {
  ar_data : ∃ junk, associated aw = (Some <$> l) ++ junk;
  ar_size : Z.of_nat (length (associated aw)) = associatedVectorSize aw;
  ar_pos : 0 < associatedVectorSize aw ≤ 4097;
  ar_count : numIndex aw = Z.of_nat (length l);
  ar_max : numIndex aw ≤ W_MAX_ASSOCIATED_WINDOWS;
  ar_sorted : updated aw = true → Sorted offset_le l
}.

Lemma fetch_known (l : list w_associated_window) junk i w :
  0 ≤ i → l !! Z.to_nat i = Some w → fetch ((Some <$> l) ++ junk) i = Some w.
Proof using. intros Hi Hw. unfold fetch. by rewrite (znth_known l junk i w). Qed.

Lemma collect_known (l : list w_associated_window) junk n i :
  0 ≤ i → (Z.to_nat i + n ≤ length l)%nat →
  collect n ((Some <$> l) ++ junk) i = Some (take n (drop (Z.to_nat i) l)).
Proof using.
  revert i. induction n as [|n IH]; intros i Hi Hn; [done|]. cbn [collect].
  destruct (lookup_lt_is_Some_2 l (Z.to_nat i)) as [w Hw]; [lia|].
  rewrite (fetch_known l junk i w) by done. rewrite IH by lia.
  rewrite (drop_S l w (Z.to_nat i)) by done. cbn [take].
  by replace (Z.to_nat (i + 1)) with (S (Z.to_nat i)) by lia.
Qed.

(** Room for one more window. *)
Lemma w_associate_reserve_rep aw l :
  aw_rep aw l → numIndex aw < W_MAX_ASSOCIATED_WINDOWS →
  ∃ aw', w_associate_reserve malloc_ok aw (numIndex aw + 1) = Some aw' ∧ aw_rep aw' l ∧
    numIndex aw' = numIndex aw ∧ numIndex aw < associatedVectorSize aw'.
Proof using Hmalloc.
  intros R Hmax. pose proof R as [[junk Hd] Hs Hp Hc Hm Hso]. unfold W_MAX_ASSOCIATED_WINDOWS in *.
  assert (numIndex aw ≤ associatedVectorSize aw) as Hle.
  { rewrite <-Hs, Hd, Hc, length_app, length_fmap. lia. }
  unfold w_associate_reserve.
  destruct (Z.ltb_spec (numIndex aw + 1) (associatedVectorSize aw)) as [Hlt|Hge].
  { exists aw. split_and!; (done || lia). }
  rewrite (proj2 (Z.eqb_neq _ 0)), bool_decide_eq_false_2; [cbn [orb]| |lia].
  2:{ intros E. rewrite E in Hs. cbn in Hs. lia. }
  rewrite (w32_id (associatedVectorSize aw * 2 + 1)) by (unfold is_w32; lia).
  unfold krealloc_array, sizeof_associated_window.
  set (n := associatedVectorSize aw * 2 + 1).
  rewrite (w32_id (12 * n)) by (unfold is_w32; lia). rewrite Hmalloc by lia.
  rewrite (Z.mul_comm 12), Z.div_mul by lia. eexists. split; [done|].
  split; [|cbn; lia]. split; cbn; try done; try lia.
  - rewrite Hd, take_app, take_ge, <-app_assoc by (rewrite length_fmap; lia). by eexists.
  - rewrite length_app, length_take, repeat_length. lia.
Qed.

Lemma w_associate_clear_rep aw : ∃ aw', w_associate_clear malloc_ok aw = Some aw' ∧ aw_rep aw' [].
Proof using Hmalloc.
  unfold w_associate_clear, w_associate_reserve. cbn [associatedVectorSize Z.ltb Z.compare Z.eqb orb].
  change (W_INITIAL_SIZE <? 0) with false. change (W_INITIAL_SIZE <? W_INITIAL_SIZE) with false.
  unfold kmalloc_array. change (w32 (sizeof_associated_window * W_INITIAL_SIZE)) with 48.
  rewrite Hmalloc by lia. eexists. split; [done|].
  split; cbn; try done; try lia; by eexists.
Qed.

Lemma w_associate_rep aw l id off sz :
  aw_rep aw l → 0 < id < W_MAX_WINDOWS →
  if decide (Z.of_nat (length l) = W_MAX_ASSOCIATED_WINDOWS) then
    w_associate malloc_ok aw id off sz = Some (aw, ENOMEM)
  else ∃ aw', w_associate malloc_ok aw id off sz = Some (aw', ESUCCESS) ∧
         aw_rep aw' (l ++ [associated_window id off sz]).
Proof using Hmalloc.
  intros R Hid. pose proof R as [_ _ _ Hc Hm _]. unfold w_associate, W_MAX_WINDOWS, W_INVALID_WINID in *.
  rewrite (proj2 (Z.eqb_neq id 0)), (proj2 (Z.ltb_lt 0 id)), (proj2 (Z.ltb_lt id 8192)) by lia.
  cbn [negb andb guard]. destruct (decide _) as [E|E].
  - by rewrite (proj2 (Z.leb_le _ _)) by lia.
  - rewrite (proj2 (Z.leb_gt _ _)) by lia.
    destruct (w_associate_reserve_rep aw l R ltac:(lia)) as (aw' & -> & R' & Hn & Hlt).
    pose proof R' as [[junk Hd] Hs Hp Hc' Hm' _].
    destruct junk as [|x junk].
    { rewrite app_nil_r in Hd. rewrite <-Hs, Hd, length_fmap in Hlt. lia. }
    rewrite Hd, Hc', put_end. eexists. split; [done|].
    split; cbn [associated associatedVectorSize numIndex updated]; try done.
    + by eexists.
    + rewrite <-Hs, Hd, !length_app, !length_fmap, length_app. cbn. lia.
    + rewrite length_app. cbn. lia.
    + lia.
Qed.

(** Sorting for a search. *)
Lemma windows_offsets_NoDup l : windows_ok l → NoDup (aw_offset <$> l).
Proof using.
  intros H. apply NoDup_alt. intros i j x Hi Hj.
  rewrite list_lookup_fmap in Hi, Hj.
  destruct (l !! i) as [w|] eqn:Ei; [|done]. destruct (l !! j) as [w'|] eqn:Ej; [|done].
  cbn in *. destruct (decide (i = j)) as [|Hne]; [done|].
  pose proof (windows_ok_pair _ _ _ _ _ H Ei Ej Hne) as Hd.
  pose proof (ws_ok _ H) as HF. rewrite Forall_forall in HF.
  destruct (HF w) as (? & ? & ?); [by eapply list_elem_of_lookup_2|].
  destruct (HF w') as (? & ? & ?); [by eapply list_elem_of_lookup_2|].
  unfold disjoint_windows, apart, aw_end in *. injection Hi as <-. injection Hj as Hj. lia.
Qed.

Lemma sort_if_needed_rep aw l :
  aw_rep aw l → windows_ok l →
  ∃ aw' l', sort_if_needed qsort aw = Some aw' ∧ aw_rep aw' l' ∧ l' ≡ₚ l ∧ updated aw' = true ∧
    Sorted offset_le l'.
Proof using Hqsort.
  intros R H. pose proof R as [[junk Hd] Hs Hp Hc Hm Hso]. unfold sort_if_needed.
  destruct (updated aw) eqn:Hu; [by exists aw, l; split_and!; auto|].
  destruct (Hqsort l (windows_offsets_NoDup l H)) as [Hperm Hsort].
  unfold w_associate_update. rewrite Hd, Hc, Nat2Z.id.
  rewrite (collect_known l junk (length l) 0) by lia.
  rewrite drop_0, firstn_all. eexists _, (qsort l). split; [done|]. split_and!; try done.
  pose proof (Permutation_length Hperm) as Hlen.
  split; cbn; try done.
  - by eexists.
  - rewrite <-Hs, Hd. rewrite !length_app, length_drop, !length_fmap, length_app, length_fmap. lia.
  - by rewrite Hlen.
  - by rewrite <-Hc.
Qed.

(** ** The binary search *)
Lemma bsearch_loop_spec l junk addr fuel start end_ :
  windows_ok l → Sorted offset_le l → 0 ≤ start ≤ end_ → end_ ≤ Z.of_nat (length l) →
  end_ - start < Z.of_nat fuel →
  (∀ i w, l !! i = Some w → (i < Z.to_nat start)%nat → aw_end w ≤ addr) →
  (∀ i w, l !! i = Some w → (Z.to_nat end_ ≤ i)%nat → addr < aw_offset w) →
  (∃ k w, bsearch_loop fuel ((Some <$> l) ++ junk) (Z.of_nat (length l)) addr start end_ =
            Some (true, Z.of_nat k) ∧ l !! k = Some w ∧ w_associate_window_contains w addr = true) ∨
  (∃ k, bsearch_loop fuel ((Some <$> l) ++ junk) (Z.of_nat (length l)) addr start end_ =
          Some (false, Z.of_nat k) ∧ splits l addr k).
Proof using.
  intros H Hs. revert start end_. induction fuel as [|fuel IH]; intros start end_ Hse Hel Hf Hlo Hhi; [lia|].
  cbn [bsearch_loop]. destruct (Z.leb_spec end_ start) as [Hle|Hlt].
  { right. assert (start = end_) as -> by lia. replace ((end_ + end_) / 2) with end_ by (rewrite Z.add_diag, Z.mul_comm, Z.div_mul; lia).
    exists (Z.to_nat end_). split; [f_equal; f_equal; lia|]. split; [lia|]. intros i w Hi.
    destruct (decide _); [by eapply Hlo|eapply Hhi; [done|lia]]. }
  set (cur := (start + end_) / 2).
  assert (start ≤ cur < end_) as Hcur.
  { unfold cur. split; [apply Z.div_le_lower_bound|apply Z.div_lt_upper_bound]; lia. }
  rewrite (proj2 (Z.leb_le 0 cur)), (proj2 (Z.ltb_lt cur _)) by lia. cbn [andb guard].
  destruct (lookup_lt_is_Some_2 l (Z.to_nat cur)) as [w Hw]; [lia|].
  rewrite (fetch_known l junk cur w) by (done || lia).
  pose proof (ws_ok _ H) as HF. rewrite Forall_forall in HF.
  pose proof (HF w (list_elem_of_lookup_2 _ _ _ Hw)) as Hok.
  destruct (w_associate_window_contains w addr) eqn:Hcont.
  { left. exists (Z.to_nat cur), w. split_and!; [f_equal; f_equal; lia|done|done]. }
  assert (¬ (aw_offset w ≤ addr < aw_end w)) as Hnc.
  { rewrite <-contains_iff by done. by rewrite Hcont. }
  destruct (Z.leb_spec (aw_offset w) addr) as [Ho|Ho].
  - apply IH; try lia; [|done]. intros i w' Hi Hlt'.
    destruct (decide (i = Z.to_nat cur)) as [->|Hne]; [assert (w' = w) as -> by congruence; lia|].
    pose proof (sorted_before l i (Z.to_nat cur) w' w H Hs Hi Hw ltac:(lia)) as Hb.
    unfold before in Hb. lia.
  - apply IH; try lia; [done|]. intros i w' Hi Hge.
    destruct (decide (i = Z.to_nat cur)) as [->|Hne]; [assert (w' = w) as -> by congruence; lia|].
    pose proof (sorted_before l (Z.to_nat cur) i w w' H Hs Hw Hi ltac:(lia)) as Hb.
    destruct Hok as (? & ? & ?). unfold before, aw_end in *. lia.
Qed.

(** Searching: the index of the window with the address, or its place. *)
Lemma w_associate_find_index_rep aw l addr :
  aw_rep aw l → windows_ok l →
  ∃ aw' l', aw_rep aw' l' ∧ l' ≡ₚ l ∧ updated aw' = true ∧
    (updated aw = true → aw' = aw ∧ l' = l) ∧
    ((∃ k w, w_associate_find_index qsort aw addr = Some (aw', Z.of_nat k) ∧ l' !! k = Some w ∧
        w_associate_window_contains w addr = true) ∨
     (∃ k, w_associate_find_index qsort aw addr = Some (aw', -1 - Z.of_nat k) ∧ splits l' addr k)).
Proof using Hqsort.
  intros R H. destruct (sort_if_needed_rep aw l R H) as (aw' & l' & Es & R' & Hp & Hu & Hs).
  exists aw', l'. split_and!; try done.
  { intros Hup. unfold sort_if_needed in Es. rewrite Hup in Es. injection Es as <-. split; [done|].
    destruct R as [[j Hd] _ _ Hc _ _], R' as [[j' Hd'] _ _ Hc' _ _]. rewrite Hd in Hd'.
    pose proof (Permutation_length Hp) as Hlen. apply (f_equal (take (length l))) in Hd'.
    rewrite !take_app_le in Hd' by (rewrite length_fmap; lia).
    rewrite !take_ge in Hd' by (rewrite length_fmap; lia).
    by apply (inj (fmap Some)) in Hd'. }
  pose proof R' as [[junk Hd] _ _ Hc _ _].
  assert (windows_ok l') as H' by by rewrite Hp.
  unfold w_associate_find_index. rewrite Es, Hd, Hc, Nat2Z.id.
  destruct (bsearch_loop_spec l' junk addr (S (length l')) 0 (Z.of_nat (length l')) H' Hs)
    as [(k & w & -> & Hk & Hcont)|(k & -> & Hk)]; try lia.
  - intros i w Hi%lookup_lt_Some Hge. lia.
  - left. by exists k, w.
  - right. by exists k.
Qed.
End Lists.
