(* ===== verification/WindowTheorems.v ===== *)
(** * The windows of a process are disjoint intervals

    The association list refines a set of intervals with searches by address,
    by identifier and by range; removing a window leaves the array unsorted but
    marked as sorted, and searches then miss windows. *)

From S2P Require Import Prelude.
From S2P Require Import Word32.
From S2P Require Import DataStruct.
From S2P Require Import DataVec.
From S2P Require Import WindowAssoc.
From S2P Require Import WindowInv.
From stdpp Require Import sorting.
#[local] Open Scope Z_scope.

(** ** The specification *)
Inductive aw_op : Type :=
| AssociateOp (w : w_associated_window)
| FindOp (addr : Z)
| FindWinIDOp (winID : Z)
| CheckOp (offset size : Z)
| FindRangeOp (offset size : Z)
| ClearOp.
Inductive aw_res : Type :=
| ErrRes (e : refos_error)
| WindowRes (w : option w_associated_window)
| BoolRes (b : bool).

Definition range_ok (offset size : Z) : Prop := 0 ≤ offset ∧ 0 < size ∧ offset + size ≤ 2 ^ 32.
#[export] Instance range_ok_dec offset size : Decision (range_ok offset size).
Proof. unfold range_ok. apply _. Defined.

(** Sets of disjoint windows, as lists.  A step is defined when the window to
    add is a window beside the others with a new identifier, and when the range
    asked for is a range of the address space. *)
Definition intervals_step (ws : list w_associated_window) (op : aw_op) :
    option (list w_associated_window * aw_res) :=
  match op with
  | AssociateOp w =>
      if decide (0 < aw_winID w < W_MAX_WINDOWS ∧ window_ok w ∧ aw_winID w ∉ aw_winID <$> ws ∧
                 Forall (apart (aw_offset w) (aw_end w)) ws) then
        if decide (Z.of_nat (length ws) = W_MAX_ASSOCIATED_WINDOWS) then Some (ws, ErrRes ENOMEM)
        else Some (w :: ws, ErrRes ESUCCESS)
      else None
  | FindOp addr => Some (ws, WindowRes (List.find (λ w, w_associate_window_contains w addr) ws))
  | FindWinIDOp winID => Some (ws, WindowRes (List.find (λ w, aw_winID w =? winID) ws))
  | CheckOp offset size =>
      if decide (range_ok offset size) then
        Some (ws, BoolRes (bool_decide (Forall (apart offset (offset + size)) ws)))
      else None
  | FindRangeOp offset size =>
      if decide (range_ok offset size) then
        Some (ws, WindowRes (List.find (λ w, w_associate_window_contains w offset &&
                                             w_associate_window_contains w (offset + size - 1)) ws))
      else None
  | ClearOp => Some ([], ErrRes ESUCCESS)
  end.

Section Refinement.
Context (malloc_ok : Z → bool) (Hmalloc : ∀ n, 0 < n ≤ 49164 → malloc_ok n = true).
Context (qsort : list w_associated_window → list w_associated_window).
Context (Hqsort : ∀ l, NoDup (aw_offset <$> l) → qsort l ≡ₚ l ∧ Sorted offset_le (qsort l)).

Definition aw_step (aw : w_associated_windowlist) (op : aw_op) :
    option (w_associated_windowlist * aw_res) :=
  match op with
  | AssociateOp w =>
      match w_associate malloc_ok aw (aw_winID w) (aw_offset w) (aw_size w) with
      | Some (aw, e) => Some (aw, ErrRes e) | None => None end
  | FindOp addr =>
      match w_associate_find qsort aw addr with
      | Some (aw, w) => Some (aw, WindowRes w) | None => None end
  | FindWinIDOp winID =>
      match w_associate_find_winID qsort aw winID with
      | Some (aw, w) => Some (aw, WindowRes w) | None => None end
  | CheckOp offset size =>
      match w_associate_check qsort aw offset size with
      | Some (aw, b) => Some (aw, BoolRes b) | None => None end
  | FindRangeOp offset size =>
      match w_associate_find_range qsort aw offset size with
      | Some (aw, w) => Some (aw, WindowRes w) | None => None end
  | ClearOp =>
      match w_associate_clear malloc_ok aw with
      | Some aw => Some (aw, ErrRes ESUCCESS) | None => None end
  end.

(** The list holds the windows, in some order. *)
Record aw_rel (aw : w_associated_windowlist) (ws : list w_associated_window) : Prop := {
  rel_rep : ∃ l, aw_rep aw l ∧ l ≡ₚ ws;
  rel_ok : windows_ok ws;
  rel_ids : NoDup (aw_winID <$> ws)
}.

Lemma aw_rel_rep aw l ws :
  aw_rep aw l → l ≡ₚ ws → windows_ok ws → NoDup (aw_winID <$> ws) → aw_rel aw ws.
Proof using. intros. split; [by exists l|done..]. Qed.

(** A search for something unique does not depend on the order. *)
Lemma find_unique (p : w_associated_window → bool) l l' :
  l ≡ₚ l' → (∀ w w', w ∈ l → w' ∈ l → p w = true → p w' = true → w = w') →
  List.find p l = List.find p l'.
Proof using.
  intros Hp Hu. destruct (List.find p l) as [w|] eqn:E, (List.find p l') as [w'|] eqn:E'; [|..|done].
  - apply List.find_some in E as [Hin%list_elem_of_In Hw], E' as [Hin'%list_elem_of_In Hw'].
    rewrite <-Hp in Hin'. by rewrite (Hu w w').
  - apply List.find_some in E as [Hin%list_elem_of_In Hw]. rewrite Hp in Hin.
    apply list_elem_of_In in Hin. by rewrite (List.find_none _ _ E' _ Hin) in Hw.
  - apply List.find_some in E' as [Hin%list_elem_of_In Hw]. rewrite <-Hp in Hin.
    apply list_elem_of_In in Hin. by rewrite (List.find_none _ _ E _ Hin) in Hw.
Qed.

Lemma find_is (p : w_associated_window → bool) l w :
  w ∈ l → p w = true → (∀ w', w' ∈ l → p w' = true → w = w') → List.find p l = Some w.
Proof using.
  intros Hin Hw Hu. destruct (List.find p l) as [w'|] eqn:E.
  - apply List.find_some in E as [Hin'%list_elem_of_In Hw']. by rewrite (Hu w').
  - apply list_elem_of_In in Hin. by rewrite (List.find_none _ _ E _ Hin) in Hw.
Qed.
Lemma find_not (p : w_associated_window → bool) l :
  (∀ w, w ∈ l → p w = false) → List.find p l = None.
Proof using.
  intros H. destruct (List.find p l) as [w|] eqn:E; [|done].
  apply List.find_some in E as [Hin%list_elem_of_In Hw]. by rewrite H in Hw.
Qed.

Lemma find_winID_loop_spec l junk n i id :
  0 ≤ i → (Z.to_nat i + n ≤ length l)%nat →
  find_winID_loop n ((Some <$> l) ++ junk) i id =
    Some (List.find (λ w, aw_winID w =? id) (take n (drop (Z.to_nat i) l))).
Proof using.
  revert i. induction n as [|n IH]; intros i Hi Hn; [done|]. cbn [find_winID_loop].
  destruct (lookup_lt_is_Some_2 l (Z.to_nat i)) as [w Hw]; [lia|].
  rewrite (fetch_known l junk i w) by done.
  rewrite (drop_S l w (Z.to_nat i)) by done. cbn [take List.find].
  destruct (aw_winID w =? id); [done|]. rewrite IH by lia.
  by replace (Z.to_nat (i + 1)) with (S (Z.to_nat i)) by lia.
Qed.

Lemma contains_index ws i j w w' addr :
  windows_ok ws → ws !! i = Some w → ws !! j = Some w' →
  w_associate_window_contains w addr = true → w_associate_window_contains w' addr = true → i = j.
Proof using.
  intros H Hi Hj. pose proof (ws_ok _ H) as HF. rewrite Forall_forall in HF.
  rewrite !contains_iff by (eapply HF, list_elem_of_lookup_2; eassumption). intros H1 H2.
  destruct (decide (i = j)) as [|Hne]; [done|].
  pose proof (windows_ok_pair _ _ _ _ _ H Hi Hj Hne) as Hd. unfold disjoint_windows, apart in Hd. lia.
Qed.

Lemma splits_find_none l addr k (p : w_associated_window → bool) :
  windows_ok l → splits l addr k → (∀ w, p w = true → w_associate_window_contains w addr = true) →
  List.find p l = None.
Proof using.
  intros H Hk Hp. apply find_not. intros w Hin. apply not_true_iff_false. intros Hw.
  apply Hp in Hw. by rewrite (splits_not_contains l addr k w (ws_ok _ H) Hk Hin) in Hw.
Qed.

Lemma find_refines aw ws addr :
  aw_rel aw ws →
  ∃ aw', w_associate_find qsort aw addr =
           Some (aw', List.find (λ w, w_associate_window_contains w addr) ws) ∧ aw_rel aw' ws.
Proof using Hqsort.
  intros [(l & R & Hp) H Hid]. assert (windows_ok l) as Hl by by rewrite Hp.
  destruct (w_associate_find_index_rep qsort Hqsort aw l addr R Hl)
    as (aw' & l' & R' & Hp' & _ & _ & Hres).
  assert (l' ≡ₚ ws) as Hp2 by by rewrite Hp'.
  assert (windows_ok l') as Hl' by by rewrite Hp2.
  exists aw'. split; [|by eapply aw_rel_rep]. unfold w_associate_find.
  rewrite <-(find_unique _ l' ws Hp2) by (intros ? ? ? ? ? ?; by eapply contains_unique).
  pose proof R' as [[junk Hd] _ _ _ _ _].
  destruct Hres as [(k & w & -> & Hk & Hc)|(k & -> & Hk)].
  - rewrite (proj2 (Z.ltb_ge _ 0)) by lia.
    rewrite Hd, (fetch_known l' junk _ w) by (rewrite ?Nat2Z.id; done || lia).
    rewrite (find_is _ l' w); [done|by eapply list_elem_of_lookup_2|done|].
    intros w' Hin Hw'. eapply (contains_unique l'); eauto using list_elem_of_lookup_2.
  - rewrite (proj2 (Z.ltb_lt _ 0)) by lia. by rewrite (splits_find_none l' addr k).
Qed.

Lemma find_winID_refines aw ws id :
  aw_rel aw ws →
  ∃ aw', w_associate_find_winID qsort aw id = Some (aw', List.find (λ w, aw_winID w =? id) ws) ∧
    aw_rel aw' ws.
Proof using Hqsort.
  intros [(l & R & Hp) H Hid]. assert (windows_ok l) as Hl by by rewrite Hp.
  destruct (sort_if_needed_rep qsort Hqsort aw l R Hl) as (aw' & l' & Es & R' & Hp' & _ & _).
  assert (l' ≡ₚ ws) as Hp2 by by rewrite Hp'.
  exists aw'. split; [|by eapply aw_rel_rep]. unfold w_associate_find_winID.
  rewrite Es. pose proof R' as [[junk Hd] _ _ Hc _ _].
  rewrite Hd, Hc, Nat2Z.id, find_winID_loop_spec by lia. rewrite drop_0, firstn_all.
  rewrite (find_unique _ l' ws Hp2); [done|]. intros w w' Hi Hj <-%Z.eqb_eq E%Z.eqb_eq.
  rewrite <-Hp2 in Hid. apply list_elem_of_lookup in Hi as [i Hi], Hj as [j Hj].
  assert (i = j) as ->; [|congruence].
  eapply (proj1 (NoDup_alt _) Hid); rewrite list_lookup_fmap; [by rewrite Hi|by rewrite Hj; cbn; f_equal].
Qed.

(** What a search for an address returns. *)
Definition place (l : list w_associated_window) (addr r : Z) : Prop :=
  (∃ k w, r = Z.of_nat k ∧ l !! k = Some w ∧ w_associate_window_contains w addr = true) ∨
  (∃ k, r = -1 - Z.of_nat k ∧ splits l addr k).

(** The two searches of a range. *)
Lemma two_searches aw ws a b :
  aw_rel aw ws →
  ∃ aw' l r1 r2, w_associate_find_index qsort aw a = Some (aw', r1) ∧
    w_associate_find_index qsort aw' b = Some (aw', r2) ∧ aw_rep aw' l ∧ l ≡ₚ ws ∧ windows_ok l ∧
    aw_rel aw' ws ∧ place l a r1 ∧ place l b r2.
Proof using Hqsort.
  intros [(l & R & Hp) H Hid]. assert (windows_ok l) as Hl by by rewrite Hp.
  destruct (w_associate_find_index_rep qsort Hqsort aw l a R Hl)
    as (aw1 & l1 & R1 & Hp1 & Hu1 & _ & Hres1).
  assert (l1 ≡ₚ ws) as Hp1' by by rewrite Hp1.
  assert (windows_ok l1) as Hl1 by by rewrite Hp1'.
  destruct (w_associate_find_index_rep qsort Hqsort aw1 l1 b R1 Hl1)
    as (aw2 & l2 & R2 & Hp2 & _ & Heq & Hres2).
  destruct (Heq Hu1) as [-> ->].
  assert (∃ r1, w_associate_find_index qsort aw a = Some (aw1, r1) ∧ place l1 a r1) as (r1 & E1 & P1).
  { destruct Hres1 as [(k & w & E & Hk & Hc)|(k & E & Hk)]; eexists; (split; [exact E|]);
      [left; by exists k, w|right; by exists k]. }
  assert (∃ r2, w_associate_find_index qsort aw1 b = Some (aw1, r2) ∧ place l1 b r2) as (r2 & E2 & P2).
  { destruct Hres2 as [(k & w & E & Hk & Hc)|(k & E & Hk)]; eexists; (split; [exact E|]);
      [left; by exists k, w|right; by exists k]. }
  exists aw1, l1, r1, r2. split_and!; try done. by eapply aw_rel_rep.
Qed.

Lemma apart_not_contains w a b addr :
  window_ok w → apart a b w → a ≤ addr < b → w_associate_window_contains w addr = false.
Proof using.
  intros Hw Ha Hr. apply not_true_iff_false. rewrite contains_iff by done. unfold apart in Ha. lia.
Qed.

Lemma check_refines aw ws off sz :
  aw_rel aw ws → range_ok off sz →
  ∃ aw', w_associate_check qsort aw off sz =
           Some (aw', bool_decide (Forall (apart off (off + sz)) ws)) ∧ aw_rel aw' ws.
Proof using Hqsort.
  intros HR (Ho & Hs & Hos).
  destruct (two_searches aw ws off (off + sz - 1) HR)
    as (aw' & l & r1 & r2 & E1 & E2 & _ & Hp & Hl & HR' & P1 & P2).
  exists aw'. split; [|done]. unfold w_associate_check. rewrite E1, w32_id by (unfold is_w32; lia).
  pose proof (ws_ok _ Hl) as HF.
  assert (∀ w addr, w ∈ l → w_associate_window_contains w addr = true → off ≤ addr < off + sz →
    bool_decide (Forall (apart off (off + sz)) ws) = false) as Hno.
  { intros w addr Hin Hc Hr. apply bool_decide_eq_false_2. rewrite <-Hp, Forall_forall. intros Ha.
    rewrite Forall_forall in HF. by rewrite (apart_not_contains w off (off + sz)) in Hc by auto. }
  destruct P1 as [(k & w & -> & Hk & Hc)|(k & -> & Hk)].
  { rewrite (proj2 (Z.leb_le 0 _)) by lia.
    by rewrite (Hno w off) by (eauto using list_elem_of_lookup_2; lia). }
  rewrite (proj2 (Z.leb_gt 0 _)) by lia. rewrite E2.
  destruct P2 as [(k' & w & -> & Hk' & Hc)|(k' & -> & Hk')].
  { rewrite (proj2 (Z.leb_le 0 _)) by lia.
    by rewrite (Hno w (off + sz - 1)) by (eauto using list_elem_of_lookup_2; lia). }
  rewrite (proj2 (Z.leb_gt 0 _)) by lia. do 2 f_equal.
  pose proof (splits_eq_iff l off (off + sz - 1) k k' HF ltac:(lia) Hk Hk') as Hiff.
  replace (off + sz - 1 + 1) with (off + sz) in Hiff by lia. rewrite Hp in Hiff.
  destruct (bool_decide_reflect (Forall (apart off (off + sz)) ws)) as [Ha|Ha].
  - apply Z.eqb_eq. by rewrite (proj2 Hiff Ha).
  - apply Z.eqb_neq. intros E. apply Ha, Hiff. lia.
Qed.

Lemma find_range_refines aw ws off sz :
  aw_rel aw ws → range_ok off sz →
  ∃ aw', w_associate_find_range qsort aw off sz =
      Some (aw', List.find (λ w, w_associate_window_contains w off &&
                                 w_associate_window_contains w (off + sz - 1)) ws) ∧ aw_rel aw' ws.
Proof using Hqsort.
  intros HR (Ho & Hs & Hos).
  destruct (two_searches aw ws off (off + sz - 1) HR)
    as (aw' & l & r1 & r2 & E1 & E2 & R & Hp & Hl & HR' & P1 & P2).
  exists aw'. split; [|done]. unfold w_associate_find_range.
  rewrite E1, w32_id by (unfold is_w32; lia).
  rewrite <-(find_unique _ l ws Hp)
    by (intros ? ? ? ? [? _]%andb_prop [? _]%andb_prop; by eapply (contains_unique l)).
  destruct P1 as [(k & w & -> & Hk & Hc)|(k & -> & Hk)].
  2:{ rewrite (proj2 (Z.ltb_lt _ 0)) by lia.
      by rewrite (splits_find_none l off k) by (done || by intros ? [? _]%andb_prop). }
  rewrite (proj2 (Z.ltb_ge _ 0)) by lia. rewrite E2.
  destruct P2 as [(k' & w' & -> & Hk' & Hc')|(k' & -> & Hk')].
  2:{ rewrite (proj2 (Z.ltb_lt _ 0)) by lia.
      by rewrite (splits_find_none l (off + sz - 1) k') by (done || by intros ? [_ ?]%andb_prop). }
  rewrite (proj2 (Z.ltb_ge _ 0)) by lia.
  destruct (Z.eqb_spec (Z.of_nat k) (Z.of_nat k')) as [E|Hne]; cbn [negb].
  - apply Nat2Z.inj in E as <-. assert (w' = w) as -> by congruence.
    pose proof R as [[junk Hd] _ _ _ _ _].
    rewrite Hd, (fetch_known l junk _ w) by (rewrite ?Nat2Z.id; done || lia).
    rewrite (find_is _ l w); [done|by eapply list_elem_of_lookup_2|by rewrite Hc, Hc'|].
    intros w' Hin [Hw' _]%andb_prop. apply (contains_unique l w w' off); eauto using list_elem_of_lookup_2.
  - rewrite find_not; [done|]. intros x [i Hi]%list_elem_of_lookup.
    apply not_true_iff_false. intros [Hx1 Hx2]%andb_prop.
    pose proof (contains_index l i k x w off Hl Hi Hk Hx1 Hc).
    pose proof (contains_index l i k' x w' (off + sz - 1) Hl Hi Hk' Hx2 Hc'). congruence.
Qed.

Lemma associate_refines aw ws w :
  aw_rel aw ws → 0 < aw_winID w < W_MAX_WINDOWS → window_ok w → aw_winID w ∉ aw_winID <$> ws →
  Forall (apart (aw_offset w) (aw_end w)) ws →
  if decide (Z.of_nat (length ws) = W_MAX_ASSOCIATED_WINDOWS) then
    w_associate malloc_ok aw (aw_winID w) (aw_offset w) (aw_size w) = Some (aw, ENOMEM)
  else ∃ aw', w_associate malloc_ok aw (aw_winID w) (aw_offset w) (aw_size w) = Some (aw', ESUCCESS) ∧
         aw_rel aw' (w :: ws).
Proof using Hmalloc.
  intros [(l & R & Hp) H Hid] Hw Hok Hnew Hap.
  pose proof (w_associate_rep malloc_ok Hmalloc aw l (aw_winID w) (aw_offset w) (aw_size w) R Hw) as HA.
  rewrite (Permutation_length Hp) in HA. destruct (decide _); [done|].
  destruct HA as (aw' & E & R'). exists aw'. split; [done|].
  apply (aw_rel_rep aw' (l ++ [w])).
  - by destruct w.
  - by rewrite Hp, Permutation_app_comm.
  - destruct H as [H1 H2]. split; [by constructor|]. by constructor.
  - cbn. by constructor.
Qed.

#[export] Instance windows_refine : Refines aw_step intervals_step aw_rel.
Proof using Hmalloc Hqsort.
  intros aw ws op ws' r HR Hs. destruct op as [w|addr|id|off sz|off sz|]; cbn [intervals_step aw_step] in *.
  - destruct (decide _) as [(Hw & Hok & Hnew & Hap)|]; [|done].
    pose proof (associate_refines aw ws w HR Hw Hok Hnew Hap) as HA. destruct (decide _).
    + injection Hs as <- <-. exists aw. by rewrite HA.
    + injection Hs as <- <-. destruct HA as (aw' & -> & HR'). by exists aw'.
  - injection Hs as <- <-. destruct (find_refines aw ws addr HR) as (aw' & -> & HR'). by exists aw'.
  - injection Hs as <- <-. destruct (find_winID_refines aw ws id HR) as (aw' & -> & HR'). by exists aw'.
  - destruct (decide _) as [Hr|]; [|done]. injection Hs as <- <-.
    destruct (check_refines aw ws off sz HR Hr) as (aw' & -> & HR'). by exists aw'.
  - destruct (decide _) as [Hr|]; [|done]. injection Hs as <- <-.
    destruct (find_range_refines aw ws off sz HR Hr) as (aw' & -> & HR'). by exists aw'.
  - injection Hs as <- <-. destruct (w_associate_clear_rep malloc_ok Hmalloc aw) as (aw' & -> & R).
    exists aw'. split; [done|]. apply (aw_rel_rep aw' []); try done; [|by constructor].
    split; by constructor.
Qed.
End Refinement.

(** C20. The windows of a process are a set of disjoint intervals: from an empty
    list on, as long as new windows are beside the others, every sequence of
    associations, searches by address, by identifier and by range, checks that
    a range is free, and clearings runs to its end with the results of the set;
    so a binary search, run after sorting when the array changed, finds a
    window exactly when one contains the address, and [w_associate_check]
    accepts exactly the ranges no window meets. *)
Theorem w_associate_refines_intervals malloc_ok qsort ops ws rs :
  (∀ n, 0 < n ≤ 49164 → malloc_ok n = true) →
  (∀ l, NoDup (aw_offset <$> l) → qsort l ≡ₚ l ∧ Sorted offset_le (qsort l)) →
  run_ops intervals_step [] ops = Some (ws, rs) →
  ∃ aw aw', w_associate_init malloc_ok = Some aw ∧
    run_ops (aw_step malloc_ok qsort) aw ops = Some (aw', rs) ∧ aw_rel aw' ws.
Proof.
  intros Hm Hq Hrun. unfold w_associate_init.
  destruct (w_associate_clear_rep malloc_ok Hm (windowlist [] 0 0 false)) as (aw & -> & R).
  pose proof (windows_refine malloc_ok Hm qsort Hq).
  destruct (refines_run (aw_step malloc_ok qsort) intervals_step aw_rel ops aw [] ws rs) as (aw' & Hrun' & HR); [|done|by exists aw, aw'].
  apply (aw_rel_rep aw []); try done; [|by constructor]. split; by constructor.
Qed.

#[local] Instance offset_le_total : Total offset_le.
Proof. intros x y. unfold offset_le. lia. Qed.
#[local] Instance offset_le_dec w w' : Decision (offset_le w w').
Proof. unfold offset_le. apply _. Defined.

Definition sample_windows : list aw_op :=
  [AssociateOp (associated_window 3 0x8000 0x2000); AssociateOp (associated_window 1 0x1000 0x1000);
   AssociateOp (associated_window 7 0x4000 0x1000); FindOp 0x4fff; FindOp 0x5000;
   CheckOp 0x5000 0x3000; CheckOp 0x5000 0x3001; FindRangeOp 0x8000 0x2000; FindWinIDOp 1].

Lemma w_associate_refines_intervals_witness :
  ∃ aw aw' ws, w_associate_init (λ _, true) = Some aw ∧
    run_ops (aw_step (λ _, true) (merge_sort offset_le)) aw sample_windows =
      Some (aw', [ErrRes ESUCCESS; ErrRes ESUCCESS; ErrRes ESUCCESS;
                  WindowRes (Some (associated_window 7 0x4000 0x1000)); WindowRes None;
                  BoolRes true; BoolRes false; WindowRes (Some (associated_window 3 0x8000 0x2000));
                  WindowRes (Some (associated_window 1 0x1000 0x1000))]) ∧ aw_rel aw' ws.
Proof.
  destruct (w_associate_refines_intervals (λ _, true) (merge_sort offset_le) sample_windows
    [associated_window 7 0x4000 0x1000; associated_window 1 0x1000 0x1000;
     associated_window 3 0x8000 0x2000]
    [ErrRes ESUCCESS; ErrRes ESUCCESS; ErrRes ESUCCESS;
     WindowRes (Some (associated_window 7 0x4000 0x1000)); WindowRes None;
     BoolRes true; BoolRes false; WindowRes (Some (associated_window 3 0x8000 0x2000));
     WindowRes (Some (associated_window 1 0x1000 0x1000))]) as (aw & aw' & H).
  - done.
  - intros l _. split; [apply merge_sort_Permutation|apply Sorted_merge_sort, _].
  - by vm_compute.
  - by exists aw, aw', [associated_window 7 0x4000 0x1000; associated_window 1 0x1000 0x1000;
     associated_window 3 0x8000 0x2000].
Defined.

(** ** Removing a window *)

(** Removing a window unsorts the array: with three windows in order, sorted,
    removing the first moves the last one to its place, and although the array
    is still marked as sorted, a search for any address of that window finds
    nothing, and the check for overlaps accepts the range of that window. *)
Theorem w_unassociate_loses_window qsort aw a b c :
  aw_rep aw [a; b; c] → updated aw = true → windows_ok [a; b; c] → before a b → before b c →
  NoDup [aw_winID a; aw_winID b; aw_winID c] →
  ∃ aw', w_unassociate aw (aw_winID a) = Some aw' ∧
    (∀ addr, w_associate_window_contains c addr = true → w_associate_find qsort aw' addr = Some (aw', None)) ∧
    w_associate_check qsort aw' (aw_offset c) (aw_size c) = Some (aw', true).
Proof.
  intros R Hu [HF _] Hab Hbc Hid. destruct R as [[junk Hd] Hs Hp Hc Hm _].
  apply Forall_cons in HF as [Ha HF]. apply Forall_cons in HF as [Hb HF].
  apply Forall_cons in HF as [Hc' _].
  assert (aw_winID a ≠ aw_winID b ∧ aw_winID a ≠ aw_winID c) as [Hne1 Hne2].
  { apply NoDup_cons in Hid as [Hnin _]. split; intros E; apply Hnin; rewrite E; set_solver. }
  destruct aw as [arr sz n u]. cbn in Hd, Hc, Hu. subst.
  set (aw' := windowlist (Some c :: Some b :: Some c :: junk) sz 2 true).
  assert (∀ addr, aw_offset c ≤ addr < aw_end c →
    w_associate_find_index qsort aw' addr = Some (aw', -3)) as Hfind.
  { intros addr Hr. unfold w_associate_find_index. cbn [sort_if_needed updated aw' numIndex associated].
    assert (w_associate_window_contains b addr = false) as Hnb.
    { apply not_true_iff_false. rewrite contains_iff by done. unfold before in Hbc. lia. }
    assert (aw_offset b <=? addr = true) as Hle.
    { apply Z.leb_le. unfold window_ok, before, aw_end in *. lia. }
    assert (bsearch_loop 3 (associated aw') 2 addr 0 2 = Some (false, 2)) as E.
    { transitivity (if w_associate_window_contains b addr then Some (true, 1)
        else if aw_offset b <=? addr then Some (false, 2)
        else bsearch_loop 2 (associated aw') 2 addr 0 1); [done|]. by rewrite Hnb, Hle. }
    change (S (Z.to_nat 2)) with 3%nat. cbn [associated aw'] in E. by rewrite E. }
  exists aw'. split_and!.
  - set (aw0 := windowlist (Some a :: Some b :: Some c :: junk) sz 3 true).
    transitivity (if aw_winID a =? aw_winID a then unassociate_loop 3 aw' 1 (aw_winID a)
                  else unassociate_loop 3 aw0 1 (aw_winID a)); [reflexivity|].
    rewrite Z.eqb_refl.
    transitivity (if aw_winID b =? aw_winID a
                  then unassociate_loop 2 (windowlist (Some c :: Some b :: Some c :: junk) sz 1 true) 2
                         (aw_winID a)
                  else Some aw'); [reflexivity|].
    by rewrite (proj2 (Z.eqb_neq _ _)) by congruence.
  - intros addr Hr%contains_iff; [|done]. unfold w_associate_find. by rewrite Hfind.
  - unfold w_associate_check. destruct Hc' as (? & ? & ?).
    rewrite Hfind by (unfold aw_end; lia). cbn [Z.leb Z.compare].
    rewrite w32_id by (unfold is_w32, aw_end in *; lia). by rewrite Hfind by (unfold aw_end; lia).
Qed.

Definition three_windows : w_associated_windowlist :=
  windowlist [Some (associated_window 1 0x1000 0x1000); Some (associated_window 7 0x4000 0x1000);
              Some (associated_window 3 0x8000 0x2000); None] 4 3 true.

Lemma w_unassociate_loses_window_witness :
  w_associate_find (merge_sort offset_le) three_windows 0x8000 =
    Some (three_windows, Some (associated_window 3 0x8000 0x2000)) ∧
  ∃ aw', w_unassociate three_windows 1 = Some aw' ∧
    (∀ addr, w_associate_window_contains (associated_window 3 0x8000 0x2000) addr = true →
       w_associate_find (merge_sort offset_le) aw' addr = Some (aw', None)) ∧
    w_associate_check (merge_sort offset_le) aw' 0x8000 0x2000 = Some (aw', true).
Proof.
  split; [by vm_compute|].
  apply (w_unassociate_loses_window (merge_sort offset_le) three_windows
    (associated_window 1 0x1000 0x1000) (associated_window 7 0x4000 0x1000)
    (associated_window 3 0x8000 0x2000)); try done.
  - split; try done; [by exists [None]|intros _]. repeat constructor; cbn; unfold offset_le; cbn; lia.
  - split; [repeat (apply Forall_cons; split; [by split_and!|]); by apply Forall_nil|].
    repeat (constructor; try (unfold disjoint_windows, apart, aw_end; cbn; lia)).
  - repeat (constructor; [set_solver by lia|]). by constructor.
Defined.

(** The permission of a window is never looked at: every window's frames are
    mapped with all rights. *)
Lemma w_convert_permission_ignores_permission permission :
  w_convert_permission_to_caprights permission = 7.
Proof.
  unfold w_convert_permission_to_caprights, W_PERMISSION_WRITE, W_PERMISSION_READ.
  rewrite (proj2 (Z.eqb_neq (Z.lor permission 1) 0)), (proj2 (Z.eqb_neq (Z.lor permission 2) 0)); [done|..];
    by intros [_ ?]%Z.lor_eq_0_iff.
Qed.
