(* ===== verification/Nameserv.v ===== *)
(** * Name servers

    The library that a RefOS server uses to serve names
    ([libs/librefos/src/refos-util/nameserv.c]): a list of registrations, each a
    name with the endpoint of the server that has it, and the resolution of the
    next segment of a path.  And the client's side
    ([libs/librefos/src/refos-rpc/name_client_helper.c]): the resolution of a
    path from server to server.

    A string is the list of its characters, [None] for NULL.  Endpoints are
    released with the function that the server gives at start-up, which changes
    the server's environment. *)

From S2P Require Import Prelude.
From S2P Require Import Word32.
From S2P Require Import DataStruct.
From S2P Require Import WindowAssoc.

Definition SLASH : Z := 47.
Definition REFOS_NAMESERV_RESOLVED : Z := -1.

Record nameserv_entry_t : Type := NameservEntry { ns_name : list Z; anonEP : Z }.
Definition nameserv_state_t : Type := cvector_t nameserv_entry_t.

(** ** The server *)
Section Nameserv.
Context (malloc_ok : Z → bool) {W : Type} (free_capability : Z → W → W).
Definition NS (A : Type) : Type := M (nameserv_state_t * W) A.

Definition entries : NS nameserv_state_t := gets fst.
Definition set_entries (n : nameserv_state_t) : NS unit := modify (λ s, (n, s.2)).
Definition release_cap (cap : Z) : NS unit := modify (λ s, (s.1, free_capability cap s.2)).

Definition nameserv_create_entry (name : option (list Z)) (ep : Z) : option nameserv_entry_t :=
  let? name := name in
  if ep =? 0 then None
  else if Z.of_nat (length name) =? 0 then None
  else if negb (malloc_ok 12) then None
  else if negb (malloc_ok (Z.of_nat (length name) + 2)) then None
  else Some (NameservEntry name ep).

Definition nameserv_release_entry (entry : nameserv_entry_t) : NS unit := release_cap (anonEP entry).

Definition nameserv_init : NS unit := set_entries cvector_init.
Definition nameserv_release : NS unit :=
  let! v := entries in
  kfor (map Z.of_nat (seq 0 (Z.to_nat (cvector_count v))))
    (λ i, let! e := kopt (cvector_get v i) in nameserv_release_entry e) ;;;
  set_entries (cvector_free v).

(** The entry from the [i]th on that has the name, -1 for none. *)
Fixpoint find_name_loop (n : nat) (v : nameserv_state_t) (name : list Z) (i : Z) : option Z :=
  match n with
  | O => Some (-1)
  | S n =>
      let? e := cvector_get v i in
      if bool_decide (ns_name e = name) then Some i else find_name_loop n v name (i + 1)
  end.
Definition nameserv_find_entry_index (name : option (list Z)) : NS Z :=
  match name with
  | None => kret (-1)
  | Some name => let! v := entries in kopt (find_name_loop (Z.to_nat (cvector_count v)) v name 0)
  end.

Definition nameserv_delete (name : option (list Z)) : NS unit :=
  let! idx := nameserv_find_entry_index name in
  if idx =? -1 then kret tt
  else
    let! v := entries in
    let! e := kopt (cvector_get v idx) in
    nameserv_release_entry e ;;;
    let! v := kopt (cvector_delete malloc_ok v idx) in
    set_entries v.

Definition nameserv_add (name : option (list Z)) (ep : Z) : NS refos_error :=
  match name with
  | None => kret EINVALIDPARAM
  | Some _ =>
      if ep =? 0 then kret EINVALIDPARAM
      else
        nameserv_delete name ;;;
        match nameserv_create_entry name ep with
        | None => kret ENOMEM
        | Some e =>
            let! v := entries in
            let! r := kopt (cvector_add malloc_ok v e) in
            set_entries r.1 ;;;
            kret ESUCCESS
        end
  end.

(** The characters up to the next slash, and whether there is one. *)
Fixpoint next_segment (path : list Z) : list Z * bool :=
  match path with
  | [] => ([], false)
  | c :: path => if c =? SLASH then ([], true) else let (s, found) := next_segment path in (c :: s, found)
  end.

(** The number of characters resolved and the endpoint written. *)
Definition nameserv_resolve (path : option (list Z)) : NS (Z * option Z) :=
  match path with
  | None => kret (0, None)
  | Some path =>
      let pathLen := Z.of_nat (length path) in
      if pathLen <=? 0 then kret (0, None)
      else
        let lead := match path with c :: _ => b2z (c =? SLASH) | [] => 0 end in
        if negb (malloc_ok (pathLen + 2)) then kret (0, None)
        else
          let (pathSegment, segmentFound) := next_segment (drop (Z.to_nat lead) path) in
          if negb segmentFound then kret (REFOS_NAMESERV_RESOLVED, None)
          else
            let! idx := nameserv_find_entry_index (Some pathSegment) in
            if idx =? -1 then kret (0, None)
            else
              let! v := entries in
              let! e := kopt (cvector_get v idx) in
              let offset := lead + Z.of_nat (length pathSegment) in
              kassert ((0 <=? offset) && (offset <? pathLen)) ;;;
              kret (offset, Some (anonEP e))
  end.
End Nameserv.

(** ** The client *)
Definition NAMESERV_RESOLVED : Z := -1.
Definition NAMESERV_PATH_MAXLEN : Z := 512.

Record nsv_mountpoint_t : Type := Mountpoint {
  success : bool;
  serverAnon : Z;
  dspaceName : list Z;
  nameservRoot : Z;
  nameservPathPrefix : list Z
}.
Definition no_mountpoint : nsv_mountpoint_t := Mountpoint false 0 [] 0 [].

(** The stubs that the client calls are generated: a request to a name server
    answers a capability, a number of characters and an error. *)
Class NameRpc : Type := {
  net : Type;
  nsv_resolve_segment_internal : Z → list Z → net → (Z * Z * refos_error) * net;
  proc_del_endpoint : Z → net → net
}.
Definition NAMESERV_EP : Z := 3.

Section Client.
Context {rpc : NameRpc}.

Record client : Type := Client { cl_net : net; refos_errno : refos_error }.
Definition C (A : Type) : Type := M client A.
Definition REFOS_SET_ERRNO (e : refos_error) : C unit := modify (λ s, Client (cl_net s) e).
Definition del_endpoint (cap : Z) : C unit :=
  modify (λ s, Client (proc_del_endpoint cap (cl_net s)) (refos_errno s)).

(** The capability, and [resolvedBytes] as it is afterwards. *)
Definition nsv_resolve_segment (nameserv : Z) (path : list Z) (resolvedBytes : Z) : C (Z * Z) :=
  let! w := gets cl_net in
  let ' ((tcap, tempResolvedBytes, errnoRetVal), w) := nsv_resolve_segment_internal nameserv path w in
  modify (λ s, Client w (refos_errno s)) ;;;
  if bool_decide (errnoRetVal ≠ ESUCCESS) then REFOS_SET_ERRNO errnoRetVal ;;; kret (0, resolvedBytes)
  else REFOS_SET_ERRNO ESUCCESS ;;; kret (tcap, tempResolvedBytes).

(** No slash but for one at the front. *)
Definition nsv_check_path_resolved (path : list Z) : bool :=
  let path := match path with c :: rest => if c =? SLASH then rest else path | [] => [] end in
  forallb (λ c, negb (c =? SLASH)) path.

Definition nsv_mountpoint_release (m : nsv_mountpoint_t) : C nsv_mountpoint_t :=
  if negb (success m) || (serverAnon m =? 0) then kret m
  else
    kwhen (negb (serverAnon m =? NAMESERV_EP)) (del_endpoint (serverAnon m)) ;;;
    kret no_mountpoint.

(** The string at a position of [path], whose last is its terminator. *)
Definition string_at (path : list Z) (pos : Z) : option (list Z) :=
  if (0 <=? pos) && (pos <=? Z.of_nat (length path)) then Some (drop (Z.to_nat pos) path) else None.

(** A mountpoint has room for [NAMESERV_PATH_MAXLEN] characters in each string. *)
Definition resolved_at (path : list Z) (pos : Z) (cpath : list Z) (nameServer : Z) : C nsv_mountpoint_t :=
  kassert (Z.of_nat (length cpath) <? NAMESERV_PATH_MAXLEN) ;;;
  kassert (pos <=? NAMESERV_PATH_MAXLEN) ;;;
  REFOS_SET_ERRNO ESUCCESS ;;;
  kret (Mountpoint true nameServer cpath NAMESERV_EP (take (Z.to_nat pos) path)).

Fixpoint resolve_hops (fuel : nat) (path : list Z) (pos nameServer : Z) : C nsv_mountpoint_t :=
  match fuel with
  | O => kdiverge
  | S fuel =>
      let! cpath := kopt (string_at path pos) in
      let resolved := nsv_check_path_resolved cpath in
      let! ' (nextNameServer, resolvedBytes) :=
        if resolved then kret (0, 0) else nsv_resolve_segment nameServer cpath 0 in
      if resolved || (resolvedBytes =? NAMESERV_RESOLVED) then resolved_at path pos cpath nameServer
      else
        kwhen (negb (nameServer =? NAMESERV_EP))
          (kassert (negb (nameServer =? 0)) ;;; del_endpoint nameServer) ;;;
        if resolvedBytes =? 0 then REFOS_SET_ERRNO ESERVERNOTFOUND ;;; kret no_mountpoint
        else
          kassert (negb (nextNameServer =? 0)) ;;;
          let pos := pos + resolvedBytes in
          let! rest := kopt (string_at path pos) in
          resolve_hops fuel path (match rest with c :: _ => if c =? SLASH then pos + 1 else pos | [] => pos end)
            nextNameServer
  end.

(** A hop resolves a character at least, if the server is a name server. *)
Definition nsv_resolve (path : option (list Z)) : C nsv_mountpoint_t :=
  match path with
  | None => REFOS_SET_ERRNO EINVALIDPARAM ;;; kret no_mountpoint
  | Some path => resolve_hops (S (length path)) path 0 NAMESERV_EP
  end.
End Client.
