(* ===== verification/Procserv.v ===== *)
(** * The state of the process server

    The objects of the process server ([apps/process_server/src/system/]) and
    the helpers of [state.c].  Objects live in typed maps from addresses, so the
    magic numbers the code checks are the types; process control blocks are
    named by their identifiers and a process's address space by its owner's;
    frames are named by their capability and hold bytes.  [Env] is the interface
    to what the server calls: the allocators (libsel4vka, the C library), the
    address spaces (libsel4utils) and the kernel's invocations. *)

From S2P Require Import Prelude.
From S2P Require Import Word32.
From S2P Require Import DataStruct.
From S2P Require Import WindowAssoc.
From S2P Require Import Nameserv.

(** ** The environment *)
Class Env : Type := {
  env : Type;
  malloc_ok : Z → bool;
  qsort : list w_associated_window → list w_associated_window;
  (* the address of a new object *)
  kmalloc_object : env → option Z * env;
  (* frames, slots and the capabilities in slots *)
  vka_alloc_frame : env → option Z * env;
  vka_free_object : Z → env → env;
  vka_cspace_alloc_path : env → option Z * env;
  vka_cspace_free : Z → env → env;
  (* into a slot of the CSpace at a root, 0 for the server's own, with a badge *)
  procserv_endpoint : Z;
  vka_cnode_mint : Z → Z → Z → Z → env → bool * env;
  vka_cnode_copy : Z → Z → env → bool * env;
  vka_cnode_revoke : Z → env → env;
  vka_cnode_delete : Z → env → env;
  vka_cnode_saveCaller : Z → env → bool * env;
  simple_get_frame_cap : Z → Z → Z → env → bool * env;
  (* the server's own address space *)
  vspace_map_pages : Z → env → bool * env;
  vspace_unmap_own_pages : Z → env → env;
  (* the address spaces of processes *)
  vspace_get_cap : Z → Z → env → Z;
  vspace_reserve_range_at : Z → Z → Z → Z → bool → env → Z * env;
  vspace_free_reservation : Z → env → env;
  sel4utils_move_resize_reservation : Z → Z → Z → Z → env → bool * env;
  reservation_start : Z → env → Z;
  vspace_map_pages_at_vaddr : Z → list Z → Z → Z → env → bool * env;
  vspace_unmap_pages : Z → Z → env → env;
  seL4_ARM_Page_Unify_Instruction : Z → env → env;
  (* messages *)
  seL4_Send : Z → env → env;
  seL4_Reply : env → env;
  reply_proc_new_proc : Z → Z → env → env;
  (* the argument of a message that the code leaves uninitialised *)
  uninitialised : Z → env → Z;
  (* objects and threads *)
  vka_alloc_page_directory : env → option Z * env;
  seL4_ARCH_ASIDPool_Assign : Z → env → bool * env;
  vka_alloc_cnode_object : Z → env → option Z * env;
  vka_alloc_endpoint : bool → env → option Z * env;
  seL4_CNode_Copy : Z → Z → Z → env → bool * env;
  sel4utils_get_vspace : Z → Z → env → bool * env;
  vspace_tear_down : Z → env → env;
  sel4utils_elf_load : Z → list Z → env → Z * env;
  sel4utils_configure_thread : Z → Z → Z → env → option Z * env;
  sel4utils_internal_start_thread : Z → Z → env → bool * env;
  sel4utils_clean_up_thread : Z → Z → env → env;
  seL4_TCB_SetPriority : Z → Z → env → bool * env;
  seL4_IRQControl_Get : Z → Z → env → bool * env
}.

(** ** Objects *)
Record ram_dspace_waiter : Type := waiter { waiter_pageidx : Z; waiter_reply : Z }.

(** [pages] and [contentInitBitmask] are [[]] for NULL. *)
Record ram_dspace : Type := RamDspace {
  rds_ID : Z;
  rds_capability : Z;
  rds_ref : Z;
  rds_pages : list Z;
  rds_npages : Z;
  contentInitEnabled : bool;
  contentInitEP : Z;
  contentInitPID : Z;
  contentInitBitmask : list Z;
  contentInitWaitingList : cvector_t ram_dspace_waiter;
  physicalAddrEnabled : bool;
  physicalAddr : Z
}.

Inductive w_window_mode : Type := W_MODE_EMPTY | W_MODE_ANONYMOUS | W_MODE_PAGER.
#[export] Instance w_window_mode_eq_dec : EqDecision w_window_mode.
Proof. solve_decision. Defined.

(** [w_ramDataspace] and [w_reservation] are 0 for NULL; [w_vspace] is the
    process whose address space it is. *)
Record w_window : Type := Window {
  w_wID : Z;
  w_clientOwnerPID : Z;
  w_size : Z;
  w_mode : w_window_mode;
  w_permissions : Z;
  w_cacheable : bool;
  w_vspace : Z;
  w_reservation : Z;
  w_capability : Z;
  w_pager : Z;
  w_pagerPID : Z;
  w_ramDataspace : Z;
  w_ramDataspaceOffset : Z
}.

(** Ring buffers; [rb_dataspace] is the address of the dataspace. *)
Inductive rb_mode_t : Type := RB_READONLY | RB_WRITEONLY.
#[export] Instance rb_mode_eq_dec : EqDecision rb_mode_t.
Proof. solve_decision. Defined.
Record rb_buffer : Type := RbBuffer {
  rb_mode : rb_mode_t;
  localStart : Z;
  localEnd : Z;
  rb_size : Z;
  rb_dataspace : Z
}.

(** Processes. *)
Record proc_watch_list : Type := WatchList {
  clientList : cvector_t Z;
  endpointNotifyList : cvector_t Z
}.
Record vs_vspace : Type := VSpace {
  vs_ref : Z;
  vs_pid : Z;
  vs_windows : w_associated_windowlist;
  vs_kpd : Z;
  vs_cspace : Z;
  kobjVSpaceAllocatedFreelist : cvector_t Z
}.
(** [vspaceRef] is the process whose address space it is. *)
Record proc_tcb : Type := ProcTcb {
  thread_priority : Z;
  vspaceRef : Z;
  thread_tcb_obj : Z;
  entryPoint : Z
}.
Record pd_list : Type := PdList { PDpool : cpool_t; pd : list Z; cnode : list Z }.
Record proc_pcb : Type := ProcPcb {
  pcb_pid : Z;
  pcb_vspace : vs_vspace;
  clientWatchList : proc_watch_list;
  paramBuffer : Z;
  notificationBuffer : option rb_buffer;
  systemCapabilitiesMask : Z;
  faultReply : Z;
  exitStatus : Z;
  parentPID : Z;
  parentWaiting : bool;
  rpc_reply : Z;
  rpc_skip_reply : bool;
  threads : cvector_t Z
}.

Definition PID_NULL : Z := 0.
Definition PID_START : Z := 1.
Definition PID_MAX : Z := 2048.

(** Setting a field. *)
Definition set_w_clientOwnerPID (v : Z) (w : w_window) : w_window :=
  Window (w_wID w) v (w_size w) (w_mode w) (w_permissions w) (w_cacheable w) (w_vspace w)
  (w_reservation w) (w_capability w) (w_pager w) (w_pagerPID w) (w_ramDataspace w)
  (w_ramDataspaceOffset w).
Definition set_w_size (v : Z) (w : w_window) : w_window :=
  Window (w_wID w) (w_clientOwnerPID w) v (w_mode w) (w_permissions w) (w_cacheable w)
  (w_vspace w) (w_reservation w) (w_capability w) (w_pager w) (w_pagerPID w) (w_ramDataspace w)
  (w_ramDataspaceOffset w).
Definition set_w_mode (v : w_window_mode) (w : w_window) : w_window :=
  Window (w_wID w) (w_clientOwnerPID w) (w_size w) v (w_permissions w) (w_cacheable w)
  (w_vspace w) (w_reservation w) (w_capability w) (w_pager w) (w_pagerPID w) (w_ramDataspace w)
  (w_ramDataspaceOffset w).
Definition set_w_permissions (v : Z) (w : w_window) : w_window :=
  Window (w_wID w) (w_clientOwnerPID w) (w_size w) (w_mode w) v (w_cacheable w) (w_vspace w)
  (w_reservation w) (w_capability w) (w_pager w) (w_pagerPID w) (w_ramDataspace w)
  (w_ramDataspaceOffset w).
Definition set_w_cacheable (v : bool) (w : w_window) : w_window :=
  Window (w_wID w) (w_clientOwnerPID w) (w_size w) (w_mode w) (w_permissions w) v (w_vspace w)
  (w_reservation w) (w_capability w) (w_pager w) (w_pagerPID w) (w_ramDataspace w)
  (w_ramDataspaceOffset w).
Definition set_w_vspace (v : Z) (w : w_window) : w_window :=
  Window (w_wID w) (w_clientOwnerPID w) (w_size w) (w_mode w) (w_permissions w) (w_cacheable w) v
  (w_reservation w) (w_capability w) (w_pager w) (w_pagerPID w) (w_ramDataspace w)
  (w_ramDataspaceOffset w).
Definition set_w_reservation (v : Z) (w : w_window) : w_window :=
  Window (w_wID w) (w_clientOwnerPID w) (w_size w) (w_mode w) (w_permissions w) (w_cacheable w)
  (w_vspace w) v (w_capability w) (w_pager w) (w_pagerPID w) (w_ramDataspace w)
  (w_ramDataspaceOffset w).
Definition set_w_pager (v : Z) (w : w_window) : w_window :=
  Window (w_wID w) (w_clientOwnerPID w) (w_size w) (w_mode w) (w_permissions w) (w_cacheable w)
  (w_vspace w) (w_reservation w) (w_capability w) v (w_pagerPID w) (w_ramDataspace w)
  (w_ramDataspaceOffset w).
Definition set_w_pagerPID (v : Z) (w : w_window) : w_window :=
  Window (w_wID w) (w_clientOwnerPID w) (w_size w) (w_mode w) (w_permissions w) (w_cacheable w)
  (w_vspace w) (w_reservation w) (w_capability w) (w_pager w) v (w_ramDataspace w)
  (w_ramDataspaceOffset w).
Definition set_w_ramDataspace (v : Z) (w : w_window) : w_window :=
  Window (w_wID w) (w_clientOwnerPID w) (w_size w) (w_mode w) (w_permissions w) (w_cacheable w)
  (w_vspace w) (w_reservation w) (w_capability w) (w_pager w) (w_pagerPID w) v
  (w_ramDataspaceOffset w).
Definition set_w_ramDataspaceOffset (v : Z) (w : w_window) : w_window :=
  Window (w_wID w) (w_clientOwnerPID w) (w_size w) (w_mode w) (w_permissions w) (w_cacheable w)
  (w_vspace w) (w_reservation w) (w_capability w) (w_pager w) (w_pagerPID w) (w_ramDataspace w) v.
Definition set_vs_ref (v : Z) (vs : vs_vspace) : vs_vspace :=
  VSpace v (vs_pid vs) (vs_windows vs) (vs_kpd vs) (vs_cspace vs) (kobjVSpaceAllocatedFreelist
  vs).
Definition set_vs_windows (v : w_associated_windowlist) (vs : vs_vspace) : vs_vspace :=
  VSpace (vs_ref vs) (vs_pid vs) v (vs_kpd vs) (vs_cspace vs) (kobjVSpaceAllocatedFreelist vs).
Definition set_vs_kobjs (v : cvector_t Z) (vs : vs_vspace) : vs_vspace :=
  VSpace (vs_ref vs) (vs_pid vs) (vs_windows vs) (vs_kpd vs) (vs_cspace vs) v.
Definition set_pcb_pid (v : Z) (p : proc_pcb) : proc_pcb :=
  ProcPcb v (pcb_vspace p) (clientWatchList p) (paramBuffer p) (notificationBuffer p)
  (systemCapabilitiesMask p) (faultReply p) (exitStatus p) (parentPID p) (parentWaiting p)
  (rpc_reply p) (rpc_skip_reply p) (threads p).
Definition set_pcb_vspace (v : vs_vspace) (p : proc_pcb) : proc_pcb :=
  ProcPcb (pcb_pid p) v (clientWatchList p) (paramBuffer p) (notificationBuffer p)
  (systemCapabilitiesMask p) (faultReply p) (exitStatus p) (parentPID p) (parentWaiting p)
  (rpc_reply p) (rpc_skip_reply p) (threads p).
Definition set_clientWatchList (v : proc_watch_list) (p : proc_pcb) : proc_pcb :=
  ProcPcb (pcb_pid p) (pcb_vspace p) v (paramBuffer p) (notificationBuffer p)
  (systemCapabilitiesMask p) (faultReply p) (exitStatus p) (parentPID p) (parentWaiting p)
  (rpc_reply p) (rpc_skip_reply p) (threads p).
Definition set_paramBuffer (v : Z) (p : proc_pcb) : proc_pcb :=
  ProcPcb (pcb_pid p) (pcb_vspace p) (clientWatchList p) v (notificationBuffer p)
  (systemCapabilitiesMask p) (faultReply p) (exitStatus p) (parentPID p) (parentWaiting p)
  (rpc_reply p) (rpc_skip_reply p) (threads p).
Definition set_notificationBuffer (v : option rb_buffer) (p : proc_pcb) : proc_pcb :=
  ProcPcb (pcb_pid p) (pcb_vspace p) (clientWatchList p) (paramBuffer p) v
  (systemCapabilitiesMask p) (faultReply p) (exitStatus p) (parentPID p) (parentWaiting p)
  (rpc_reply p) (rpc_skip_reply p) (threads p).
Definition set_systemCapabilitiesMask (v : Z) (p : proc_pcb) : proc_pcb :=
  ProcPcb (pcb_pid p) (pcb_vspace p) (clientWatchList p) (paramBuffer p) (notificationBuffer p)
  v (faultReply p) (exitStatus p) (parentPID p) (parentWaiting p) (rpc_reply p) (rpc_skip_reply
  p) (threads p).
Definition set_faultReply (v : Z) (p : proc_pcb) : proc_pcb :=
  ProcPcb (pcb_pid p) (pcb_vspace p) (clientWatchList p) (paramBuffer p) (notificationBuffer p)
  (systemCapabilitiesMask p) v (exitStatus p) (parentPID p) (parentWaiting p) (rpc_reply p)
  (rpc_skip_reply p) (threads p).
Definition set_exitStatus (v : Z) (p : proc_pcb) : proc_pcb :=
  ProcPcb (pcb_pid p) (pcb_vspace p) (clientWatchList p) (paramBuffer p) (notificationBuffer p)
  (systemCapabilitiesMask p) (faultReply p) v (parentPID p) (parentWaiting p) (rpc_reply p)
  (rpc_skip_reply p) (threads p).
Definition set_parentPID (v : Z) (p : proc_pcb) : proc_pcb :=
  ProcPcb (pcb_pid p) (pcb_vspace p) (clientWatchList p) (paramBuffer p) (notificationBuffer p)
  (systemCapabilitiesMask p) (faultReply p) (exitStatus p) v (parentWaiting p) (rpc_reply p)
  (rpc_skip_reply p) (threads p).
Definition set_parentWaiting (v : bool) (p : proc_pcb) : proc_pcb :=
  ProcPcb (pcb_pid p) (pcb_vspace p) (clientWatchList p) (paramBuffer p) (notificationBuffer p)
  (systemCapabilitiesMask p) (faultReply p) (exitStatus p) (parentPID p) v (rpc_reply p)
  (rpc_skip_reply p) (threads p).
Definition set_rpc_reply (v : Z) (p : proc_pcb) : proc_pcb :=
  ProcPcb (pcb_pid p) (pcb_vspace p) (clientWatchList p) (paramBuffer p) (notificationBuffer p)
  (systemCapabilitiesMask p) (faultReply p) (exitStatus p) (parentPID p) (parentWaiting p) v
  (rpc_skip_reply p) (threads p).
Definition set_rpc_skip_reply (v : bool) (p : proc_pcb) : proc_pcb :=
  ProcPcb (pcb_pid p) (pcb_vspace p) (clientWatchList p) (paramBuffer p) (notificationBuffer p)
  (systemCapabilitiesMask p) (faultReply p) (exitStatus p) (parentPID p) (parentWaiting p)
  (rpc_reply p) v (threads p).
Definition set_pcb_threads (v : cvector_t Z) (p : proc_pcb) : proc_pcb :=
  ProcPcb (pcb_pid p) (pcb_vspace p) (clientWatchList p) (paramBuffer p) (notificationBuffer p)
  (systemCapabilitiesMask p) (faultReply p) (exitStatus p) (parentPID p) (parentWaiting p)
  (rpc_reply p) (rpc_skip_reply p) v.

Section State.
Context {E : Env}.

Record procserv : Type := Procserv {
  ps_dspaces : gmap Z ram_dspace;
  ps_windows : gmap Z w_window;
  ps_frames : gmap Z (list Z);
  dspaceList : coat_t;
  windowList : coat_t;
  pids : cpool_t;
  pcbs : gmap Z proc_pcb;
  unblockClientFaultPID : Z;
  exitProcessPID : Z;
  PDList : pd_list;
  ps_threads : gmap Z proc_tcb;
  irqHandlerList : chash_t;
  nameServRegList : nameserv_state_t;
  ps_env : env
}.

Definition upd_ps_dspaces (v : gmap Z ram_dspace) (s : procserv) : procserv :=
  Procserv v (ps_windows s) (ps_frames s) (dspaceList s) (windowList s) (pids s) (pcbs s)
  (unblockClientFaultPID s) (exitProcessPID s) (PDList s) (ps_threads s) (irqHandlerList s)
  (nameServRegList s) (ps_env s).
Definition upd_ps_windows (v : gmap Z w_window) (s : procserv) : procserv :=
  Procserv (ps_dspaces s) v (ps_frames s) (dspaceList s) (windowList s) (pids s) (pcbs s)
  (unblockClientFaultPID s) (exitProcessPID s) (PDList s) (ps_threads s) (irqHandlerList s)
  (nameServRegList s) (ps_env s).
Definition upd_ps_frames (v : gmap Z (list Z)) (s : procserv) : procserv :=
  Procserv (ps_dspaces s) (ps_windows s) v (dspaceList s) (windowList s) (pids s) (pcbs s)
  (unblockClientFaultPID s) (exitProcessPID s) (PDList s) (ps_threads s) (irqHandlerList s)
  (nameServRegList s) (ps_env s).
Definition upd_dspaceList (v : coat_t) (s : procserv) : procserv :=
  Procserv (ps_dspaces s) (ps_windows s) (ps_frames s) v (windowList s) (pids s) (pcbs s)
  (unblockClientFaultPID s) (exitProcessPID s) (PDList s) (ps_threads s) (irqHandlerList s)
  (nameServRegList s) (ps_env s).
Definition upd_windowList (v : coat_t) (s : procserv) : procserv :=
  Procserv (ps_dspaces s) (ps_windows s) (ps_frames s) (dspaceList s) v (pids s) (pcbs s)
  (unblockClientFaultPID s) (exitProcessPID s) (PDList s) (ps_threads s) (irqHandlerList s)
  (nameServRegList s) (ps_env s).
Definition upd_pids (v : cpool_t) (s : procserv) : procserv :=
  Procserv (ps_dspaces s) (ps_windows s) (ps_frames s) (dspaceList s) (windowList s) v (pcbs s)
  (unblockClientFaultPID s) (exitProcessPID s) (PDList s) (ps_threads s) (irqHandlerList s)
  (nameServRegList s) (ps_env s).
Definition upd_pcbs (v : gmap Z proc_pcb) (s : procserv) : procserv :=
  Procserv (ps_dspaces s) (ps_windows s) (ps_frames s) (dspaceList s) (windowList s) (pids s) v
  (unblockClientFaultPID s) (exitProcessPID s) (PDList s) (ps_threads s) (irqHandlerList s)
  (nameServRegList s) (ps_env s).
Definition upd_unblockClientFaultPID (v : Z) (s : procserv) : procserv :=
  Procserv (ps_dspaces s) (ps_windows s) (ps_frames s) (dspaceList s) (windowList s) (pids s)
  (pcbs s) v (exitProcessPID s) (PDList s) (ps_threads s) (irqHandlerList s)
  (nameServRegList s) (ps_env s).
Definition upd_exitProcessPID (v : Z) (s : procserv) : procserv :=
  Procserv (ps_dspaces s) (ps_windows s) (ps_frames s) (dspaceList s) (windowList s) (pids s)
  (pcbs s) (unblockClientFaultPID s) v (PDList s) (ps_threads s) (irqHandlerList s)
  (nameServRegList s) (ps_env s).
Definition upd_PDList (v : pd_list) (s : procserv) : procserv :=
  Procserv (ps_dspaces s) (ps_windows s) (ps_frames s) (dspaceList s) (windowList s) (pids s)
  (pcbs s) (unblockClientFaultPID s) (exitProcessPID s) v (ps_threads s) (irqHandlerList s)
  (nameServRegList s) (ps_env s).
Definition upd_ps_threads (v : gmap Z proc_tcb) (s : procserv) : procserv :=
  Procserv (ps_dspaces s) (ps_windows s) (ps_frames s) (dspaceList s) (windowList s) (pids s)
  (pcbs s) (unblockClientFaultPID s) (exitProcessPID s) (PDList s) v (irqHandlerList s)
  (nameServRegList s) (ps_env s).
Definition upd_irqHandlerList (v : chash_t) (s : procserv) : procserv :=
  Procserv (ps_dspaces s) (ps_windows s) (ps_frames s) (dspaceList s) (windowList s) (pids s)
  (pcbs s) (unblockClientFaultPID s) (exitProcessPID s) (PDList s) (ps_threads s) v
  (nameServRegList s) (ps_env s).
Definition upd_nameServRegList (v : nameserv_state_t) (s : procserv) : procserv :=
  Procserv (ps_dspaces s) (ps_windows s) (ps_frames s) (dspaceList s) (windowList s) (pids s)
  (pcbs s) (unblockClientFaultPID s) (exitProcessPID s) (PDList s) (ps_threads s)
  (irqHandlerList s) v (ps_env s).
Definition upd_ps_env (v : env) (s : procserv) : procserv :=
  Procserv (ps_dspaces s) (ps_windows s) (ps_frames s) (dspaceList s) (windowList s) (pids s)
  (pcbs s) (unblockClientFaultPID s) (exitProcessPID s) (PDList s) (ps_threads s)
  (irqHandlerList s) (nameServRegList s) v.

(** States are equal when their fields are. *)
Lemma procserv_ext s s' :
  ps_dspaces s = ps_dspaces s' → ps_windows s = ps_windows s' → ps_frames s = ps_frames s' →
  dspaceList s = dspaceList s' → windowList s = windowList s' → pids s = pids s' → pcbs s = pcbs s' →
  unblockClientFaultPID s = unblockClientFaultPID s' → exitProcessPID s = exitProcessPID s' →
  PDList s = PDList s' → ps_threads s = ps_threads s' → irqHandlerList s = irqHandlerList s' →
  nameServRegList s = nameServRegList s' → ps_env s = ps_env s' → s = s'.
Proof. destruct s, s'; cbn. congruence. Qed.

Definition P (A : Type) : Type := M procserv A.

Definition getDspace (p : Z) : P ram_dspace := λ s,
  match ps_dspaces s !! p with Some d => Ok d s | None => Panic end.
Definition updDspace (p : Z) (f : ram_dspace → ram_dspace) : P unit := λ s,
  match ps_dspaces s !! p with
  | Some d => Ok tt (upd_ps_dspaces (<[p := f d]> (ps_dspaces s)) s) | None => Panic end.
Definition getWindow (p : Z) : P w_window := λ s,
  match ps_windows s !! p with Some w => Ok w s | None => Panic end.
Definition updWindow (p : Z) (f : w_window → w_window) : P unit := λ s,
  match ps_windows s !! p with
  | Some w => Ok tt (upd_ps_windows (<[p := f w]> (ps_windows s)) s) | None => Panic end.
Definition getPcb (p : Z) : P proc_pcb := λ s,
  match pcbs s !! p with Some d => Ok d s | None => Panic end.
Definition updPcb (p : Z) (f : proc_pcb → proc_pcb) : P unit := λ s,
  match pcbs s !! p with
  | Some d => Ok tt (upd_pcbs (<[p := f d]> (pcbs s)) s) | None => Panic end.
Definition getFrame (c : Z) : P (list Z) := λ s,
  match ps_frames s !! c with Some b => Ok b s | None => Panic end.
Definition setFrame (c : Z) (b : list Z) : P unit :=
  modify (λ s, upd_ps_frames (<[c := b]> (ps_frames s)) s).

(** A call of the environment, with and without a result. *)
Definition call {A} (f : env → A * env) : P A := λ s,
  let (a, e) := f (ps_env s) in Ok a (upd_ps_env e s).
Definition call_ (f : env → env) : P unit := modify (λ s, upd_ps_env (f (ps_env s)) s).

(** ** Running *)
Lemma runs_bind_Ok {S A B} (m : M S A) (k : A → M S B) s a s1 Q :
  m s = Ok a s1 → runs (k a) s1 Q → runs (kbind m k) s Q.
Proof. intros H HQ. apply runs_bind. by eapply runs_Ok. Qed.

Lemma runs_opt_Ok {S A} (o : option A) a (s : S) : o = Some a → kopt o s = Ok a s.
Proof. by intros ->. Qed.

Lemma getDspace_Ok s p d : ps_dspaces s !! p = Some d → getDspace p s = Ok d s.
Proof. intros Hd. unfold getDspace. by rewrite Hd. Qed.

Lemma updDspace_Ok s p d f :
  ps_dspaces s !! p = Some d →
  updDspace p f s = Ok tt (upd_ps_dspaces (<[p := f d]> (ps_dspaces s)) s).
Proof. intros Hd. unfold updDspace. by rewrite Hd. Qed.

Lemma getWindow_Ok s p w : ps_windows s !! p = Some w → getWindow p s = Ok w s.
Proof. intros Hd. unfold getWindow. by rewrite Hd. Qed.

Lemma updWindow_Ok s p w f :
  ps_windows s !! p = Some w →
  updWindow p f s = Ok tt (upd_ps_windows (<[p := f w]> (ps_windows s)) s).
Proof. intros Hd. unfold updWindow. by rewrite Hd. Qed.

Lemma call_Ok {A} (f : env → A * env) s a e :
  f (ps_env s) = (a, e) → call f s = Ok a (upd_ps_env e s).
Proof. unfold call. by intros ->. Qed.

(** ** Helpers of [state.c] *)
Definition REFOS_PAGE_SIZE : Z := 4096.
Definition seL4_PageBits : Z := 12.
Definition REFOS_PAGE_ALIGN (x : Z) : Z := Z.land x (wnot (REFOS_PAGE_SIZE - 1)).

(** A slot with a capability to the server's endpoint, 0 on failure. *)
Definition procserv_mint_badge (badge : Z) : P Z :=
  let! path := call vka_cspace_alloc_path in
  match path with
  | None => kret 0
  | Some path =>
      let! ok := call (vka_cnode_mint 0 path procserv_endpoint badge) in
      if ok : bool then kret path else call_ (vka_cspace_free path) ;;; kret 0
  end.

Definition procserv_flush (frames : list Z) : P unit :=
  kfor frames (λ frame, kwhen (negb (frame =? 0)) (call_ (seL4_ARM_Page_Unify_Instruction frame))).

(** The first [len] bytes of [src] into the frame at [offset]. *)
Definition procserv_frame_write (frame : Z) (src : list Z) (len offset : Z) : P refos_error :=
  if REFOS_PAGE_SIZE <? w32 (offset + len) then kret EINVALIDPARAM
  else
    let! mapped := call (vspace_map_pages frame) in
    if negb mapped then kret ENOMEM
    else
      let! b := getFrame frame in
      setFrame frame (take (Z.to_nat offset) b ++ take (Z.to_nat len) src ++
                      drop (Z.to_nat (offset + len)) b) ;;;
      procserv_flush [frame] ;;;
      call_ (vspace_unmap_own_pages frame) ;;;
      kret ESUCCESS.

Definition procserv_frame_read (frame len offset : Z) : P (refos_error * list Z) :=
  if REFOS_PAGE_SIZE <? w32 (offset + len) then kret (EINVALIDPARAM, [])
  else
    let! mapped := call (vspace_map_pages frame) in
    if negb mapped then kret (ENOMEM, [])
    else
      procserv_flush [frame] ;;;
      let! b := getFrame frame in
      call_ (vspace_unmap_own_pages frame) ;;;
      kret (ESUCCESS, take (Z.to_nat len) (drop (Z.to_nat offset) b)).

(** The smallest [i] from [i] on with [1 << i == size], -1 for none. *)
Fixpoint size_bits_loop (n : nat) (i size : Z) : Z :=
  match n with
  | O => -1
  | S n => if BIT i =? size then i else size_bits_loop n (i + 1) size
  end.

(** A slot with the frame of a device, 0 on failure. *)
Definition procserv_find_device (paddr size : Z) : P Z :=
  let sizeBits := size_bits_loop 32 0 size in
  if sizeBits =? -1 then kret 0
  else
    let! path := call vka_cspace_alloc_path in
    match path with
    | None => kret 0
    | Some path =>
        let! ok := call (simple_get_frame_cap paddr sizeBits path) in
        if ok : bool then kassert (negb (path =? 0)) ;;; kret path
        else call_ (vka_cspace_free path) ;;; kret 0
    end.
End State.

(** [rstep] runs the next statement; [rdspace], the ones on a dataspace. *)
Ltac rstep :=
  lazymatch goal with
  | |- runs (kbind (kret ?a) ?k) ?s ?Q => change (runs (k a) s Q)
  | |- runs (kbind (kopt ?o) _) _ _ => eapply runs_bind_Ok; [by eapply (runs_opt_Ok o)|]
  | |- runs (kbind (kassert ?b) _) _ _ => apply runs_bind, runs_assert; [|]
  | |- runs (kbind (getDspace _) _) _ _ => eapply runs_bind_Ok; [by apply getDspace_Ok|]
  | |- runs (kbind (updDspace _ _) _) _ _ => eapply runs_bind_Ok; [by apply updDspace_Ok|]
  | |- runs (kbind (getWindow _) _) _ _ => eapply runs_bind_Ok; [by apply getWindow_Ok|]
  | |- runs (kbind (updWindow _ _) _) _ _ => eapply runs_bind_Ok; [by apply updWindow_Ok|]
  | |- runs (kbind (gets _) _) _ _ => eapply runs_bind_Ok; [reflexivity|]
  | |- runs (kbind (call _) _) _ _ => eapply runs_bind_Ok; [by apply call_Ok|]
  | |- runs (kbind (setFrame _ _) _) _ _ => eapply runs_bind_Ok; [reflexivity|]
  | |- runs (kbind (call_ _) _) _ _ => eapply runs_bind_Ok; [reflexivity|]
  end; cbv beta iota.
