(* ===== verification/Dataspace.v ===== *)
(** * RAM dataspaces

    Models [apps/process_server/src/system/memserv/dataspace.c]: a dataspace is
    an array of pages, allocated when they are first touched; reading and
    writing go page by page; its contents may be provided by another process,
    page by page, with clients waiting for them.  The table of dataspaces and
    the reference counts are in [Memserv]. *)

From S2P Require Import Prelude.
From S2P Require Import Word32.
From S2P Require Import DataStruct.
From S2P Require Import WindowAssoc.
From S2P Require Import Procserv.

(** [sizeof(vka_object_t)] *)
Definition sizeof_vka_object : Z := 16.

Definition rds_set_pages (v : list Z) (d : ram_dspace) : ram_dspace :=
  RamDspace (rds_ID d) (rds_capability d) (rds_ref d) v (rds_npages d) (contentInitEnabled d)
    (contentInitEP d) (contentInitPID d) (contentInitBitmask d) (contentInitWaitingList d)
    (physicalAddrEnabled d) (physicalAddr d).
Definition rds_set_npages (v : Z) (d : ram_dspace) : ram_dspace :=
  RamDspace (rds_ID d) (rds_capability d) (rds_ref d) (rds_pages d) v (contentInitEnabled d)
    (contentInitEP d) (contentInitPID d) (contentInitBitmask d) (contentInitWaitingList d)
    (physicalAddrEnabled d) (physicalAddr d).
Definition rds_set_ref (v : Z) (d : ram_dspace) : ram_dspace :=
  RamDspace (rds_ID d) (rds_capability d) v (rds_pages d) (rds_npages d) (contentInitEnabled d)
    (contentInitEP d) (contentInitPID d) (contentInitBitmask d) (contentInitWaitingList d)
    (physicalAddrEnabled d) (physicalAddr d).
Definition rds_set_content_init (enabled : bool) (ep pid : Z) (d : ram_dspace) : ram_dspace :=
  RamDspace (rds_ID d) (rds_capability d) (rds_ref d) (rds_pages d) (rds_npages d) enabled ep pid
    (contentInitBitmask d) (contentInitWaitingList d) (physicalAddrEnabled d) (physicalAddr d).
Definition rds_set_bitmask (v : list Z) (d : ram_dspace) : ram_dspace :=
  RamDspace (rds_ID d) (rds_capability d) (rds_ref d) (rds_pages d) (rds_npages d)
    (contentInitEnabled d) (contentInitEP d) (contentInitPID d) v (contentInitWaitingList d)
    (physicalAddrEnabled d) (physicalAddr d).
Definition rds_set_waiting (v : cvector_t ram_dspace_waiter) (d : ram_dspace) : ram_dspace :=
  RamDspace (rds_ID d) (rds_capability d) (rds_ref d) (rds_pages d) (rds_npages d)
    (contentInitEnabled d) (contentInitEP d) (contentInitPID d) (contentInitBitmask d) v
    (physicalAddrEnabled d) (physicalAddr d).
Definition rds_set_physical (v : Z) (d : ram_dspace) : ram_dspace :=
  RamDspace (rds_ID d) (rds_capability d) (rds_ref d) (rds_pages d) (rds_npages d)
    (contentInitEnabled d) (contentInitEP d) (contentInitPID d) (contentInitBitmask d)
    (contentInitWaitingList d) true v.

Section Dataspace.
Context {E : Env}.

(** ** Pages *)
Definition ram_dspace_get_index (nbytes : Z) : Z := nbytes / REFOS_PAGE_SIZE.
Definition npages_of_size (size : Z) : Z :=
  size / REFOS_PAGE_SIZE + (if negb (size mod REFOS_PAGE_SIZE =? 0) then 1 else 0).
Definition ram_dspace_get_size (d : ram_dspace) : Z := w32 (rds_npages d * REFOS_PAGE_SIZE).

Definition ram_dspace_check_page (p offset : Z) : P Z :=
  let! d := getDspace p in
  let idx := ram_dspace_get_index offset in
  if rds_npages d <=? idx then kret 0
  else kopt (znth (rds_pages d) idx).

(** Storing a new page. *)
Definition set_page (p idx c : Z) : P unit :=
  let! d := getDspace p in
  let! pages := kopt (store (rds_pages d) idx c) in
  updDspace p (rds_set_pages pages).

Definition ram_dspace_get_page (p offset : Z) : P Z :=
  let! d := getDspace p in
  let idx := ram_dspace_get_index offset in
  if rds_npages d <=? idx then kret 0
  else
    let! c := kopt (znth (rds_pages d) idx) in
    if negb (c =? 0) then kret c
    else if physicalAddrEnabled d then
      let! c := procserv_find_device (w32 (physicalAddr d + idx * REFOS_PAGE_SIZE)) REFOS_PAGE_SIZE in
      if c =? 0 then kret 0
      else set_page p idx c ;;; kret c
    else
      let! c := call vka_alloc_frame in
      match c with
      | Some c =>
          if c =? 0 then kret 0
          else
            (* the kernel clears the memory of a new frame *)
            setFrame c (repeat 0 (Z.to_nat REFOS_PAGE_SIZE)) ;;;
            set_page p idx c ;;; kret c
      | None => kret 0
      end.

(** ** Size *)
Definition ram_dspace_expand (p size : Z) : P refos_error :=
  let! d := getDspace p in
  let npages := npages_of_size size in
  if npages <? rds_npages d then kret EINVALIDPARAM
  else if npages =? rds_npages d then kret ESUCCESS
  else
    let nbitmaskPrev := rds_npages d / 32 + 1 in
    if negb (malloc_ok (w32 (sizeof_vka_object * npages))) then
      updDspace p (rds_set_pages []) ;;; kret ENOMEM
    else
      updDspace p (rds_set_pages
        (rds_pages d ++ repeat 0 (Z.to_nat (npages - Z.of_nat (length (rds_pages d)))))) ;;;
      let nbitmask := npages / 32 + 1 in
      let! ok :=
        if negb (bool_decide (contentInitBitmask d = [])) && (nbitmaskPrev <? nbitmask) then
          if malloc_ok (w32 (nbitmask * 4)) then
            updDspace p (rds_set_bitmask
              (contentInitBitmask d ++ repeat 0 (Z.to_nat (nbitmask - nbitmaskPrev)))) ;;;
            kret true
          else updDspace p (rds_set_bitmask []) ;;; kret false
        else kret true in
      if negb ok then kret ENOMEM
      else updDspace p (rds_set_npages npages) ;;; kret ESUCCESS.

(** Whether a page from [i] on, among [n], is allocated. *)
Fixpoint page_in_use (n : nat) (pages : list Z) (i : Z) : option bool :=
  match n with
  | O => Some false
  | S n =>
      let? c := znth pages i in
      if negb (c =? 0) then Some true else page_in_use n pages (i + 1)
  end.
Definition ram_dspace_set_to_paddr (p paddr : Z) : P refos_error :=
  let! d := getDspace p in
  if contentInitEnabled d || physicalAddrEnabled d then kret EINVALID
  else
    let! used := kopt (page_in_use (Z.to_nat (rds_npages d)) (rds_pages d) 0) in
    if used : bool then kret EINVALID
    else
      let! deviceFrame := procserv_find_device paddr REFOS_PAGE_SIZE in
      if deviceFrame =? 0 then kret EFILENOTFOUND
      else
        call_ (vka_cnode_delete deviceFrame) ;;;
        call_ (vka_cspace_free deviceFrame) ;;;
        updDspace p (rds_set_physical paddr) ;;;
        kret ESUCCESS.

(** ** Reading and writing *)
Definition ram_dspace_read_page (len p offset : Z) : P (refos_error * list Z) :=
  let skipBytes := offset - REFOS_PAGE_ALIGN offset in
  let len := if REFOS_PAGE_SIZE - skipBytes <? len then REFOS_PAGE_SIZE - skipBytes else len in
  let! frame := ram_dspace_get_page p offset in
  if frame =? 0 then kret (ENOMEM, []) else procserv_frame_read frame len skipBytes.

Definition ram_dspace_write_page (buf : list Z) (len p offset : Z) : P refos_error :=
  let skipBytes := offset - REFOS_PAGE_ALIGN offset in
  let len := if REFOS_PAGE_SIZE - skipBytes <? len then REFOS_PAGE_SIZE - skipBytes else len in
  let! frame := ram_dspace_get_page p offset in
  if frame =? 0 then kret ENOMEM else procserv_frame_write frame buf len skipBytes.

(** The loops of reading and writing, from [start] to [stop]. *)
Fixpoint read_loop (fuel : nat) (p start stop : Z) : P (refos_error * list Z) :=
  match fuel with
  | O => kdiverge
  | S fuel =>
      if start <? stop then
        let end_ := Z.min (w32 (REFOS_PAGE_ALIGN start + REFOS_PAGE_SIZE)) stop in
        let! ' (error, b) := ram_dspace_read_page (w32 (end_ - start)) p start in
        if negb (bool_decide (error = ESUCCESS)) then kret (error, b)
        else
          let! ' (error, b') := read_loop fuel p end_ stop in
          kret (error, b ++ b')
      else kret (ESUCCESS, [])
  end.
Fixpoint write_loop (fuel : nat) (buf : list Z) (p start stop : Z) : P refos_error :=
  match fuel with
  | O => kdiverge
  | S fuel =>
      if start <? stop then
        let end_ := Z.min (w32 (REFOS_PAGE_ALIGN start + REFOS_PAGE_SIZE)) stop in
        let! error := ram_dspace_write_page buf (w32 (end_ - start)) p start in
        if negb (bool_decide (error = ESUCCESS)) then kret error
        else write_loop fuel (drop (Z.to_nat (end_ - start)) buf) p end_ stop
      else kret ESUCCESS
  end.

(** One round per page, and one to stop. *)
Definition page_rounds (len : Z) : nat := Z.to_nat (len / REFOS_PAGE_SIZE + 3).

Definition ram_dspace_read (len p offset : Z) : P (refos_error * list Z) :=
  let! d := getDspace p in
  if w32 (rds_npages d * REFOS_PAGE_SIZE - offset) <? len then kret (EINVALIDPARAM, [])
  else read_loop (page_rounds len) p offset (w32 (offset + len)).

Definition ram_dspace_write (buf : list Z) (len p offset : Z) : P refos_error :=
  let! d := getDspace p in
  if w32 (rds_npages d * REFOS_PAGE_SIZE - offset) <? len then kret EINVALIDPARAM
  else write_loop (page_rounds len) buf p offset (w32 (offset + len)).

(** ** Content initialisation *)

(** Deleting a capability in a slot of the server. *)
Definition release_slot (slot : Z) : P unit :=
  call_ (vka_cnode_revoke slot) ;;;
  call_ (vka_cnode_delete slot) ;;;
  call_ (vka_cspace_free slot).

(** Releasing the waiters from [i] on, among [n]. *)
Fixpoint release_waiters (n : nat) (v : cvector_t ram_dspace_waiter) (i : Z) : P unit :=
  match n with
  | O => kret tt
  | S n =>
      let! w := kopt (cvector_get v i) in
      kassert (negb (waiter_reply w =? 0)) ;;;
      release_slot (waiter_reply w) ;;;
      release_waiters n v (i + 1)
  end.
Definition clear_waiting_list (p : Z) : P unit :=
  let! d := getDspace p in
  let v := contentInitWaitingList d in
  release_waiters (Z.to_nat (cvector_count v)) v 0 ;;;
  updDspace p (rds_set_waiting cvector_init).

Definition ram_dspace_content_init (p initEP initPID : Z) : P refos_error :=
  let! d := getDspace p in
  if physicalAddrEnabled d then kret EINVALID
  else
    updDspace p (rds_set_bitmask []) ;;;
    kwhen (contentInitEnabled d)
      (kassert (negb (contentInitEP d =? 0)) ;;;
       release_slot (contentInitEP d) ;;;
       updDspace p (rds_set_content_init true 0 (contentInitPID d))) ;;;
    if initEP =? 0 then
      updDspace p (λ d, rds_set_content_init false (contentInitEP d) PID_NULL d) ;;;
      kret ESUCCESS
    else
      let nbitmask := rds_npages d / 32 + 1 in
      if negb (malloc_ok (w32 (nbitmask * 4))) then kret ENOMEM
      else
        updDspace p (rds_set_bitmask (repeat 0 (Z.to_nat nbitmask))) ;;;
        clear_waiting_list p ;;;
        updDspace p (rds_set_content_init true initEP initPID) ;;;
        kret ESUCCESS.

(** The answer, or an error ([-EINVALID], [-EINVALIDPARAM] in the code). *)
Definition ram_dspace_need_content_init (p offset : Z) : P (bool + refos_error) :=
  let! d := getDspace p in
  if negb (contentInitEnabled d) || bool_decide (contentInitBitmask d = []) then kret (inr EINVALID)
  else if ram_dspace_get_size d <? offset then kret (inr EINVALIDPARAM)
  else
    let npage := offset / REFOS_PAGE_SIZE in
    kassert (npage <=? rds_npages d) ;;;
    let! b := kopt (znth (contentInitBitmask d) (npage / 32)) in
    kret (inl (negb (Z.testbit b (npage mod 32)))).

Definition ram_dspace_add_content_init_waiter (p offset reply : Z) : P refos_error :=
  let! d := getDspace p in
  if reply =? 0 then kret EINVALIDPARAM
  else if ram_dspace_get_size d <? offset then kret EINVALIDPARAM
  else if negb (contentInitEnabled d) then kret EINVALID
  else
    let npage := offset / REFOS_PAGE_SIZE in
    kassert (npage <? rds_npages d) ;;;
    if negb (malloc_ok 12) then kret ENOMEM
    else
      let! ' (v, _) := kopt (cvector_add malloc_ok (contentInitWaitingList d) (waiter npage reply)) in
      updDspace p (rds_set_waiting v) ;;;
      kret ESUCCESS.

Definition ram_dspace_add_content_init_waiter_save_current_caller (p offset : Z) : P refos_error :=
  let! callerReply := call vka_cspace_alloc_path in
  match callerReply with
  | None => kret ENOMEM
  | Some callerReply =>
      kassert (negb (callerReply =? 0)) ;;;
      let! ok := call (vka_cnode_saveCaller callerReply) in
      if negb ok then kret EINVALID
      else ram_dspace_add_content_init_waiter p offset callerReply
  end.

(** The loop of replies: [i] and the number of waiters left. *)
Fixpoint reply_loop (fuel : nat) (p i count npage : Z) : P unit :=
  match fuel with
  | O => kdiverge
  | S fuel =>
      if i <? count then
        let! d := getDspace p in
        let! w := kopt (cvector_get (contentInitWaitingList d) i) in
        kassert (negb (waiter_reply w =? 0)) ;;;
        if waiter_pageidx w =? npage then
          call_ (seL4_Send (waiter_reply w)) ;;;
          let! v := kopt (cvector_delete malloc_ok (contentInitWaitingList d) i) in
          updDspace p (rds_set_waiting v) ;;;
          let count := count - 1 in
          kassert (count =? cvector_count v) ;;;
          release_slot (waiter_reply w) ;;;
          reply_loop fuel p i count npage
        else reply_loop fuel p (i + 1) count npage
      else kret tt
  end.
Definition ram_dspace_content_init_reply_waiters (p offset : Z) : P unit :=
  let! d := getDspace p in
  let npage := offset / REFOS_PAGE_SIZE in
  if rds_npages d <=? npage then kret tt
  else
    let count := cvector_count (contentInitWaitingList d) in
    reply_loop (S (Z.to_nat count)) p 0 count npage.

Definition ram_dspace_set_content_init_provided (p offset : Z) : P unit :=
  let! d := getDspace p in
  if negb (contentInitEnabled d) || bool_decide (contentInitBitmask d = []) then kret tt
  else if ram_dspace_get_size d <? offset then kret tt
  else
    let npage := offset / REFOS_PAGE_SIZE in
    kassert (npage <=? rds_npages d) ;;;
    let! b := kopt (znth (contentInitBitmask d) (npage / 32)) in
    let! bm := kopt (store (contentInitBitmask d) (npage / 32) (Z.lor b (BIT (npage mod 32)))) in
    updDspace p (rds_set_bitmask bm).
End Dataspace.
