(* ===== verification/DataspaceInv.v ===== *)
(** * Dataspaces as flat arrays

    The contents of a dataspace, [contents_of], are the bytes of its pages, zero
    for the pages that are not allocated yet.  [memory_ok] says that the pages
    of the anonymous dataspaces are distinct frames.  The lemmas give the effect
    of the operations on a page and of the loops of [ram_dspace_read] and
    [ram_dspace_write] on the contents of all dataspaces. *)

From S2P Require Import Prelude.
From S2P Require Import Word32.
From S2P Require Import DataStruct.
From S2P Require Import WindowAssoc.
From S2P Require Import Procserv.
From S2P Require Import Dataspace.

(** ** Lists of pages *)
Section Pages.
Context {A : Type} (n : nat) (Hn : 0 < Z.of_nat n).

(** Byte [i] of the concatenation of lists of length [n]. *)
Lemma lookup_concat (ls : list (list A)) i :
  Forall (λ l, length l = n) ls →
  concat ls !! i = ls !! (i / n)%nat ≫= λ l, l !! (i mod n)%nat.
Proof using Hn.
  intros HF. revert i. induction HF as [|l ls Hl HF IH]; intros i; [by destruct (i / n)%nat|].
  cbn [concat]. destruct (decide (i < n)%nat) as [Hi|Hi].
  - rewrite lookup_app_l by lia. rewrite Nat.div_small, Nat.mod_small by lia. done.
  - rewrite lookup_app_r by lia. rewrite IH, Hl.
    assert (i = (i - n) + 1 * n)%nat as Hi' by lia.
    assert (i / n = S ((i - n) / n))%nat as -> by (rewrite Hi' at 1; rewrite Nat.div_add by lia; lia).
    assert (i mod n = (i - n) mod n)%nat as -> by (rewrite Hi' at 1; apply Nat.Div0.mod_add).
    done.
Qed.

Lemma length_concat_pages (ls : list (list A)) :
  Forall (λ l, length l = n) ls → length (concat ls) = (length ls * n)%nat.
Proof. induction 1 as [|l ls Hl _ IH]; [done|]. cbn. rewrite length_app. lia. Qed.

(** Writing inside one page is writing at the page's place. *)
Lemma concat_insert_page (ls : list (list A)) i off str l :
  Forall (λ l, length l = n) ls → ls !! i = Some l → (off + length str ≤ n)%nat →
  concat (<[i := list_inserts off str l]> ls) = list_inserts (i * n + off) str (concat ls).
Proof using Hn.
  intros HF Hi Ho. pose proof (proj1 (Forall_lookup _ _) HF _ _ Hi) as Hl; cbn in Hl.
  assert (i < length ls)%nat as Hlt by eauto using lookup_lt_Some.
  rewrite <- (take_drop_middle _ _ _ Hi) at 2.
  rewrite insert_take_drop by done. rewrite !concat_app. cbn.
  assert (length (concat (take i ls)) = (i * n)%nat) as Hlen.
  { rewrite length_concat_pages by by apply Forall_take. rewrite length_take. lia. }
  rewrite <- Hlen.
  rewrite list_inserts_app_r. f_equal.
  apply list_eq. intros j. destruct (decide (j < off)%nat) as [H1|H1];
    [|destruct (decide (j < off + length str)%nat) as [H2|H2]].
  - rewrite lookup_app_l, !list_lookup_inserts_lt, lookup_app_l by (rewrite ?length_inserts; lia). done.
  - rewrite lookup_app_l, !list_lookup_inserts by (rewrite ?length_inserts, ?length_app; lia). done.
  - rewrite list_lookup_inserts_ge by lia. destruct (decide (j < n)%nat) as [H3|H3].
    + rewrite !lookup_app_l, list_lookup_inserts_ge by (rewrite ?length_inserts; lia). done.
    + rewrite !lookup_app_r, length_inserts by (rewrite ?length_inserts; lia). done.
Qed.

(** Reading inside one page. *)
Lemma read_concat_page (ls : list (list A)) i off len l :
  Forall (λ l, length l = n) ls → ls !! i = Some l → (off + len ≤ n)%nat →
  take len (drop (i * n + off) (concat ls)) = take len (drop off l).
Proof using Type.
  intros HF Hi Ho. pose proof (proj1 (Forall_lookup _ _) HF _ _ Hi) as Hl; cbn in Hl.
  rewrite <- (take_drop_middle _ _ _ Hi) at 1. rewrite concat_app. cbn.
  assert (length (concat (take i ls)) = (i * n)%nat) as Hlen.
  { rewrite length_concat_pages by by apply Forall_take. rewrite length_take.
    assert (i < length ls)%nat by eauto using lookup_lt_Some. lia. }
  rewrite drop_app_ge, Hlen by lia. replace (i * n + off - i * n)%nat with off by lia.
  rewrite drop_app_le, take_app_le by (rewrite ?length_drop; lia). done.
Qed.
End Pages.

(** Writing in the middle of an array. *)
Lemma take_app_drop_inserts {A} (b str : list A) off :
  (off + length str ≤ length b)%nat →
  take off b ++ str ++ drop (off + length str) b = list_inserts off str b.
Proof.
  intros Ho.
  assert (list_inserts off str b =
          list_inserts (length (take off b) + 0) str (take off b ++ drop off b)) as ->.
  { rewrite take_drop, length_take. f_equal. lia. }
  rewrite list_inserts_app_r. f_equal. rewrite <- (take_drop (length str) (drop off b)) at 1.
  rewrite drop_drop, list_inserts_0_r; [done|]. rewrite length_take, length_drop. lia.
Qed.


Definition page_size : nat := Z.to_nat REFOS_PAGE_SIZE.
Lemma page_size_Z : Z.of_nat page_size = REFOS_PAGE_SIZE.
Proof. unfold page_size. by rewrite Z2Nat.id. Qed.
#[global] Opaque page_size.

(** ** The environment and the memory *)

(** What the server relies on: an allocated frame is none of the frames it
    holds, [handed_out], and mapping a frame leaves them alone. *)
Class EnvOk {E : Env} : Type := {
  handed_out : env → gset Z → Prop;
  alloc_frame_fresh e F r e' :
    handed_out e F → vka_alloc_frame e = (r, e') →
    match r with Some c => c ∉ F ∧ handed_out e' ({[c]} ∪ F) | None => handed_out e' F end;
  map_pages_keeps c e F b e' :
    handed_out e F → vspace_map_pages c e = (b, e') → handed_out e' F;
  unmap_own_keeps c e F : handed_out e F → handed_out (vspace_unmap_own_pages c e) F;
  unify_keeps c e F : handed_out e F → handed_out (seL4_ARM_Page_Unify_Instruction c e) F
}.

(** There is always another frame, and room to map it. *)
Class EnvPlenty {E : Env} : Prop := {
  alloc_frame_succeeds e : ∃ c, c ≠ 0 ∧ fst (vka_alloc_frame e) = Some c;
  map_pages_succeeds c e : fst (vspace_map_pages c e) = true
}.

Section Memory.
Context {E : Env}.

Definition page_bytes (fr : gmap Z (list Z)) (c : Z) : list Z :=
  if c =? 0 then repeat 0 page_size else default [] (fr !! c).
Definition contents (fr : gmap Z (list Z)) (d : ram_dspace) : list Z :=
  concat (page_bytes fr <$> rds_pages d).
Definition contents_of (s : procserv) (p : Z) : list Z :=
  match ps_dspaces s !! p with Some d => contents (ps_frames s) d | None => [] end.

(** Page [i] of the anonymous dataspace [p] is the frame [c]. *)
Definition page_at (s : procserv) (p : Z) (i : nat) (c : Z) : Prop :=
  ∃ d, ps_dspaces s !! p = Some d ∧ physicalAddrEnabled d = false ∧ rds_pages d !! i = Some c ∧ c ≠ 0.

Definition dspace_ok (d : ram_dspace) : Prop :=
  rds_npages d = Z.of_nat (length (rds_pages d)) ∧ rds_npages d * REFOS_PAGE_SIZE < 2 ^ 32.
Definition is_page (fr : gmap Z (list Z)) (c : Z) : Prop :=
  ∃ b, fr !! c = Some b ∧ length b = page_size.

Record memory_ok `{!EnvOk} (s : procserv) : Prop := {
  mem_env : ∃ F, handed_out (ps_env s) F ∧ dom (ps_frames s) ⊆ F;
  mem_dspace p d : ps_dspaces s !! p = Some d → dspace_ok d;
  mem_page p i c : page_at s p i c → is_page (ps_frames s) c;
  mem_distinct p q i j c : page_at s p i c → page_at s q j c → p = q ∧ i = j
}.

(** Everything but the contents of the frames, and pages allocated meanwhile. *)
Definition same_dspaces (s s' : procserv) : Prop :=
  ∀ p, match ps_dspaces s !! p, ps_dspaces s' !! p with
       | Some d, Some d' => ∃ pages, d' = rds_set_pages pages d ∧
                                     length pages = length (rds_pages d)
       | None, None => True
       | _, _ => False
       end.
#[global] Instance same_dspaces_preorder : PreOrder same_dspaces.
Proof.
  split.
  - intros s p. destruct (ps_dspaces s !! p) as [d|]; [|done]. exists (rds_pages d).
    by destruct d.
  - intros s1 s2 s3 H1 H2 p. specialize (H1 p). specialize (H2 p).
    destruct (ps_dspaces s1 !! p) as [d1|], (ps_dspaces s2 !! p) as [d2|],
      (ps_dspaces s3 !! p) as [d3|]; try done.
    destruct H1 as (g1 & -> & L1), H2 as (g2 & -> & L2). exists g2. split; [done|]. cbn in L2. lia.
Qed.

Lemma same_dspaces_at s s' p d :
  same_dspaces s s' → ps_dspaces s !! p = Some d →
  ∃ d', ps_dspaces s' !! p = Some d' ∧ rds_npages d' = rds_npages d ∧
        physicalAddrEnabled d' = physicalAddrEnabled d.
Proof.
  intros H Hd. specialize (H p). rewrite Hd in H.
  destruct (ps_dspaces s' !! p) as [d'|]; [|done]. destruct H as (g & -> & _). by eexists.
Qed.

Context `{HE : !EnvOk}.

Lemma page_bytes_length s p d i c :
  memory_ok s → ps_dspaces s !! p = Some d → physicalAddrEnabled d = false →
  rds_pages d !! i = Some c → length (page_bytes (ps_frames s) c) = page_size.
Proof using Type*.
  intros Hm Hd Ha Hi. unfold page_bytes. destruct (Z.eqb_spec c 0) as [->|Hc].
  - apply repeat_length.
  - destruct (mem_page s Hm p i c) as (b & Hb & Hl); [by exists d|]. by rewrite Hb.
Qed.

Lemma pages_Forall s p d :
  memory_ok s → ps_dspaces s !! p = Some d → physicalAddrEnabled d = false →
  Forall (λ l, length l = page_size) (page_bytes (ps_frames s) <$> rds_pages d).
Proof using Type*.
  intros Hm Hd Ha. apply Forall_fmap, Forall_lookup. intros i c Hi. by eapply page_bytes_length.
Qed.

(** The contents of an anonymous dataspace have its size. *)
Lemma contents_length s p d :
  memory_ok s → ps_dspaces s !! p = Some d → physicalAddrEnabled d = false →
  Z.of_nat (length (contents_of s p)) = rds_npages d * REFOS_PAGE_SIZE.
Proof using Type*.
  intros Hm Hd Ha. unfold contents_of. rewrite Hd. unfold contents.
  erewrite length_concat_pages by by eapply pages_Forall.
  rewrite length_fmap. destruct (mem_dspace s Hm p d Hd) as [-> _]. rewrite <- page_size_Z. lia.
Qed.

(** The contents of the anonymous dataspaces stay, those of [p] up to [f]. *)
Definition contents_change (p : Z) (f : list Z → list Z) (s s' : procserv) : Prop :=
  ∀ q d, ps_dspaces s !! q = Some d → physicalAddrEnabled d = false →
         contents_of s' q = if q =? p then f (contents_of s q) else contents_of s q.
Definition same_contents (s s' : procserv) : Prop :=
  ∀ q d, ps_dspaces s !! q = Some d → physicalAddrEnabled d = false →
         contents_of s' q = contents_of s q.

Lemma same_contents_trans s1 s2 s3 :
  same_dspaces s1 s2 → same_contents s1 s2 → same_contents s2 s3 → same_contents s1 s3.
Proof.
  intros Hs H1 H2 q d Hd Ha. destruct (same_dspaces_at _ _ _ _ Hs Hd) as (d' & Hd' & _ & Ha').
  rewrite (H2 q d' Hd') by congruence. by apply (H1 q d).
Qed.
Lemma contents_change_after p f s1 s2 s3 :
  same_dspaces s1 s2 → same_contents s1 s2 → contents_change p f s2 s3 → contents_change p f s1 s3.
Proof.
  intros Hs H1 H2 q d Hd Ha. destruct (same_dspaces_at _ _ _ _ Hs Hd) as (d' & Hd' & _ & Ha').
  rewrite (H2 q d' Hd') by congruence. by rewrite (H1 q d).
Qed.
Lemma contents_change_trans p f g s1 s2 s3 :
  same_dspaces s1 s2 → contents_change p f s1 s2 → contents_change p g s2 s3 →
  contents_change p (g ∘ f) s1 s3.
Proof.
  intros Hs H1 H2 q d Hd Ha. destruct (same_dspaces_at _ _ _ _ Hs Hd) as (d' & Hd' & _ & Ha').
  rewrite (H2 q d' Hd') by congruence. rewrite (H1 q d) by done. by destruct (q =? p).
Qed.

(** Changing the environment. *)
Lemma memory_ok_env s e :
  memory_ok s → (∃ F, handed_out e F ∧ dom (ps_frames s) ⊆ F) → memory_ok (upd_ps_env e s).
Proof using Type*. intros [H1 H2 H3 H4] He. by split. Qed.

(** Changing the bytes of a frame. *)
Lemma memory_ok_frame s c b :
  memory_ok s → is_Some (ps_frames s !! c) → length b = page_size →
  memory_ok (upd_ps_frames (<[c := b]> (ps_frames s)) s).
Proof using Type*.
  intros [H1 H2 H3 H4] Hc Hb. split; [|done| |done].
  - destruct H1 as (F & HF & Hd). exists F. split; [done|]. cbn.
    apply elem_of_dom in Hc. rewrite dom_insert_L. set_solver.
  - cbn. intros p i c' Hp. destruct (H3 p i c' Hp) as (b' & Hb' & Hl).
    destruct (decide (c' = c)) as [->|Hne]; [exists b|exists b']; split; try done.
    + by rewrite lookup_insert_eq.
    + by rewrite lookup_insert_ne.
Qed.

Lemma page_at_frame s v p i c : page_at (upd_ps_frames v s) p i c ↔ page_at s p i c.
Proof. done. Qed.

(** Writing into a page. *)
Lemma contents_frame s p i c off str :
  memory_ok s → page_at s p i c → (off + length str ≤ page_size)%nat →
  contents_change p (list_inserts (i * page_size + off) str) s
    (upd_ps_frames (<[c := list_inserts off str (default [] (ps_frames s !! c))]> (ps_frames s)) s).
Proof using Type*.
  intros Hm Hp Hlen q d Hd Ha. unfold contents_of. cbn. rewrite Hd. unfold contents.
  set (fr := ps_frames s) in *. set (b := list_inserts _ _ _).
  assert (∀ j c', rds_pages d !! j = Some c' → (q = p ∧ j = i) ∨ ¬ (c' = c ∧ c' ≠ 0)) as Hne.
  { intros j c' Hj. destruct (decide (c' = c ∧ c' ≠ 0)) as [[-> Hc]|]; [left|by right].
    apply (mem_distinct s Hm q p j i c); [by exists d|done]. }
  assert (∀ c', ¬ (c' = c ∧ c' ≠ 0) → page_bytes (<[c:=b]> fr) c' = page_bytes fr c') as Heq.
  { intros c' H. unfold page_bytes. destruct (Z.eqb_spec c' 0); [done|].
    rewrite lookup_insert_ne; naive_solver. }
  destruct (Z.eqb_spec q p) as [->|Hqp].
  - destruct Hp as (d1 & Hd1 & _ & Hi & Hc). assert (d1 = d) as -> by congruence.
    rewrite <- (concat_insert_page page_size) with (l := page_bytes fr c);
      [|rewrite page_size_Z; done|by eapply pages_Forall
       |by rewrite list_lookup_fmap, Hi|done].
    f_equal. apply list_eq. intros j. rewrite list_lookup_fmap.
    destruct (decide (j = i)) as [->|Hj].
    + rewrite list_lookup_insert_eq by (rewrite length_fmap; by eapply lookup_lt_Some).
      rewrite Hi. cbn. unfold page_bytes. rewrite (proj2 (Z.eqb_neq c 0) Hc).
      by rewrite lookup_insert_eq.
    + rewrite list_lookup_insert_ne, list_lookup_fmap by done.
      destruct (rds_pages d !! j) as [c'|] eqn:E1; [|done]. cbn. f_equal. apply Heq.
      destruct (Hne j c' E1) as [[]|]; [done|done].
  - f_equal. apply list_fmap_ext. intros j c' Hj. apply Heq. by destruct (Hne j c' Hj) as [[]|].
Qed.

(** ** A new page *)
Definition new_page (p : Z) (d : ram_dspace) (i : nat) (c : Z) (s : procserv) : procserv :=
  upd_ps_dspaces (<[p := rds_set_pages (<[i := c]> (rds_pages d)) d]> (ps_dspaces s))
    (upd_ps_frames (<[c := repeat 0 page_size]> (ps_frames s)) s).

Section NewPage.
Context (s : procserv) (p : Z) (d : ram_dspace) (i : nat) (c : Z).
Context (Hm : memory_ok s) (Hd : ps_dspaces s !! p = Some d) (Ha : physicalAddrEnabled d = false).
Context (Hi : rds_pages d !! i = Some 0) (Hc : c ≠ 0).
Context (Hfresh : ps_frames s !! c = None).

Lemma new_page_at q j c' :
  page_at (new_page p d i c s) q j c' →
  (q = p ∧ j = i ∧ c' = c) ∨ (page_at s q j c' ∧ c' ≠ c).
Proof using Type*.
  intros (d' & Hd' & Ha' & Hj & Hc'). cbn in Hd'.
  assert (page_at s q j c' → c' ≠ c) as Hne.
  { intros H ->. destruct (mem_page s Hm q j c H) as (b & Hb & _). congruence. }
  destruct (decide (q = p)) as [->|Hqp].
  - rewrite lookup_insert_eq in Hd'. injection Hd' as <-. cbn in Hj.
    destruct (decide (j = i)) as [->|Hji].
    + rewrite list_lookup_insert_eq in Hj by by eapply lookup_lt_Some. left. naive_solver.
    + rewrite list_lookup_insert_ne in Hj by done. right.
      assert (page_at s p j c') by by exists d. auto.
  - rewrite lookup_insert_ne in Hd' by done. right. assert (page_at s q j c') by by exists d'. auto.
Qed.

Lemma new_page_same_dspaces : same_dspaces s (new_page p d i c s).
Proof using Type*.
  intros q. cbn. destruct (decide (q = p)) as [->|Hqp].
  - rewrite lookup_insert_eq, Hd. eexists. split; [done|]. by rewrite length_insert.
  - rewrite lookup_insert_ne by done. destruct (ps_dspaces s !! q) as [d'|]; [|done].
    exists (rds_pages d'). by destruct d'.
Qed.

Lemma new_page_same_contents : same_contents s (new_page p d i c s).
Proof using Type*.
  intros q d' Hd' Ha'. unfold contents_of. cbn.
  assert (∀ j c', page_at s q j c' → c' ≠ c) as Hne.
  { intros j c' H ->. destruct (mem_page s Hm q j c H) as (b & Hb & _). congruence. }
  assert (∀ j c', rds_pages d' !! j = Some c' →
            page_bytes (<[c:=repeat 0 page_size]> (ps_frames s)) c' = page_bytes (ps_frames s) c') as Hpb.
  { intros j c' Hj. unfold page_bytes. destruct (Z.eqb_spec c' 0); [done|].
    rewrite lookup_insert_ne; [done|]. intros <-. apply (Hne j c); [by exists d'|done]. }
  destruct (decide (q = p)) as [->|Hqp].
  - assert (d' = d) as -> by congruence. rewrite lookup_insert_eq, Hd. unfold contents. cbn. f_equal.
    apply list_eq. intros j. rewrite !list_lookup_fmap. destruct (decide (j = i)) as [->|Hji].
    + rewrite list_lookup_insert_eq, Hi by by eapply lookup_lt_Some. cbn. f_equal.
      unfold page_bytes. rewrite (proj2 (Z.eqb_neq c 0) Hc), lookup_insert_eq. done.
    + rewrite list_lookup_insert_ne by done.
      destruct (rds_pages d !! j) as [c'|] eqn:Ej; [|done]. cbn. f_equal. by apply (Hpb j).
  - rewrite lookup_insert_ne, Hd' by done. unfold contents. f_equal.
    apply list_fmap_ext. exact Hpb.
Qed.

Lemma new_page_ok e F :
  handed_out e F → dom (ps_frames s) ⊆ F → c ∈ F → memory_ok (upd_ps_env e (new_page p d i c s)).
Proof using Type*.
  intros He HF HcF. split.
  - exists F. split; [done|]. cbn. rewrite dom_insert_L. set_solver.
  - cbn. intros q d'. destruct (decide (q = p)) as [->|Hqp].
    + rewrite lookup_insert_eq. intros [= <-]. destruct (mem_dspace s Hm p d Hd) as [H1 H2].
      split; [|done]. cbn. by rewrite length_insert.
    + rewrite lookup_insert_ne by done. apply (mem_dspace s Hm).
  - cbn. intros q j c' [(-> & -> & ->)|[Hp Hne]]%new_page_at.
    + exists (repeat 0 page_size). split; [by rewrite lookup_insert_eq|]. apply repeat_length.
    + destruct (mem_page s Hm q j c' Hp) as (b & Hb & Hl). exists b. by rewrite lookup_insert_ne.
  - intros q1 q2 j1 j2 c'. intros [(-> & -> & ->)|[H1 N1]]%new_page_at [(-> & -> & ?)|[H2 N2]]%new_page_at;
      [done|done|done|]. by apply (mem_distinct s Hm q1 q2 j1 j2 c').
Qed.
End NewPage.

(** ** The operations on a page *)

(** The relation between the states around an operation. *)
Definition keeps (s s' : procserv) : Prop := memory_ok s' ∧ same_dspaces s s'.

Lemma ps_env_upd s : upd_ps_env (ps_env s) s = s.
Proof. by destruct s. Qed.

Lemma keeps_env s e :
  memory_ok s → (∃ F, handed_out e F ∧ dom (ps_frames s) ⊆ F) →
  keeps s (upd_ps_env e s) ∧ same_contents s (upd_ps_env e s).
Proof using Type*.
  intros Hm He. split; [split; [by apply memory_ok_env|]|done].
  change (same_dspaces s s). reflexivity.
Qed.

Lemma page_index_range p d s off :
  memory_ok s → ps_dspaces s !! p = Some d → 0 ≤ off < rds_npages d * REFOS_PAGE_SIZE →
  0 ≤ ram_dspace_get_index off < rds_npages d ∧ off < 2 ^ 32.
Proof using Type*.
  intros Hm Hd Ho. unfold ram_dspace_get_index. destruct (mem_dspace s Hm p d Hd) as [_ Hb].
  split; [|lia]. split; [apply Z.div_pos; [lia|done]|]. apply Z.div_lt_upper_bound; [done|lia].
Qed.

Lemma set_page_Ok s p d i c :
  ps_dspaces s !! p = Some d → 0 ≤ i < Z.of_nat (length (rds_pages d)) →
  set_page p i c s = Ok tt (upd_ps_dspaces
    (<[p := rds_set_pages (<[Z.to_nat i := c]> (rds_pages d)) d]> (ps_dspaces s)) s).
Proof.
  intros Hd Hi. unfold set_page. rewrite (kbind_Ok _ _ _ _ _ (getDspace_Ok s p d Hd)).
  rewrite store_Some by done. unfold updDspace. cbn. by rewrite Hd.
Qed.

Lemma get_page_rep s p d off :
  memory_ok s → ps_dspaces s !! p = Some d → physicalAddrEnabled d = false →
  0 ≤ off < rds_npages d * REFOS_PAGE_SIZE →
  runs (ram_dspace_get_page p off) s (λ c s', keeps s s' ∧ same_contents s s' ∧
    (c = 0 ∨ page_at s' p (Z.to_nat (ram_dspace_get_index off)) c) ∧ (EnvPlenty → c ≠ 0)).
Proof using Type*.
  intros Hm Hd Ha Ho. destruct (page_index_range p d s off Hm Hd Ho) as [Hidx _].
  unfold ram_dspace_get_page. rstep. rewrite (proj2 (Z.leb_gt _ _)) by lia.
  destruct (mem_dspace s Hm p d Hd) as [Hnp _]. set (i := ram_dspace_get_index off) in *.
  destruct (proj1 (znth_range (rds_pages d) i)) as [c Hc]; [lia|]. rstep.
  rewrite znth_lookup in Hc by lia.
  destruct (Z.eqb_spec c 0) as [->|Hc0]; cbn [negb].
  2:{ apply runs_ret. split_and!; [|done| |done].
      - split; [done|reflexivity].
      - right. by exists d. }
  rewrite Ha. destruct (vka_alloc_frame (ps_env s)) as [r e'] eqn:Er. rstep.
  destruct (mem_env s Hm) as (F & HF & HdF).
  pose proof (alloc_frame_fresh _ _ _ _ HF Er) as Hr.
  assert (EnvPlenty → ∃ c, c ≠ 0 ∧ r = Some c) as Hplenty.
  { intros HP. destruct (alloc_frame_succeeds (ps_env s)) as (c & Hc0 & Hr'). rewrite Er in Hr'. eauto. }
  destruct r as [c|].
  2:{ apply runs_ret. assert (Hk : ∃ F, handed_out e' F ∧ dom (ps_frames s) ⊆ F) by eauto.
      destruct (keeps_env s e' Hm Hk) as [H1 H2]. split_and!; auto. intros HP. by destruct (Hplenty HP) as (? & ? & ?). }
  destruct Hr as [HcF HF']. destruct (Z.eqb_spec c 0) as [->|Hc0].
  { apply runs_ret. assert (Hk : ∃ F, handed_out e' F ∧ dom (ps_frames s) ⊆ F).
    { exists ({[0]} ∪ F). split; [done|set_solver]. }
    destruct (keeps_env s e' Hm Hk) as [H1 H2]. split_and!; auto. intros HP. by destruct (Hplenty HP) as (? & ? & [= <-]). }
  assert (ps_frames s !! c = None) as Hfr by (apply not_elem_of_dom; set_solver).
  change (Z.to_nat REFOS_PAGE_SIZE) with page_size. rstep.
  eapply runs_bind_Ok; [apply (set_page_Ok _ p d i c); [done|lia]|]. cbn [ps_dspaces upd_ps_env upd_ps_frames].
  apply runs_ret.
  pose proof (new_page_ok s p d (Z.to_nat i) c Hm Hd Ha Hc Hc0 Hfr e' ({[c]} ∪ F)) as Hok.
  split_and!; [split; [apply Hok; [done|set_solver..]|]| | |done].
  - apply (new_page_same_dspaces s p d (Z.to_nat i) c Hm Hd Ha Hc Hc0 Hfr).
  - apply (new_page_same_contents s p d (Z.to_nat i) c Hm Hd Ha Hc Hc0 Hfr).
  - right. exists (rds_set_pages (<[Z.to_nat i := c]> (rds_pages d)) d). cbn.
    rewrite lookup_insert_eq, list_lookup_insert_eq by by eapply lookup_lt_Some. done.
Qed.

Lemma skip_bytes off : 0 ≤ off < 2 ^ 32 → off - REFOS_PAGE_ALIGN off = off mod REFOS_PAGE_SIZE.
Proof. intros Ho. unfold REFOS_PAGE_ALIGN. change (REFOS_PAGE_SIZE - 1) with (MASK 12). rewrite land_wnot_MASK by done. change (2 ^ 12) with REFOS_PAGE_SIZE. lia. Qed.

Lemma page_offset off :
  0 ≤ off →
  Z.to_nat off = (Z.to_nat (ram_dspace_get_index off) * page_size +
                  Z.to_nat (off mod REFOS_PAGE_SIZE))%nat.
Proof.
  intros Ho. unfold ram_dspace_get_index.
  pose proof (Z.div_mod off REFOS_PAGE_SIZE ltac:(done)). pose proof page_size_Z.
  pose proof (Z.mod_pos_bound off REFOS_PAGE_SIZE ltac:(done)).
  assert (0 ≤ off / REFOS_PAGE_SIZE) by (apply Z.div_pos; [lia|done]). nia.
Qed.

(** The part of an access that lies in the page of [off]. *)
Definition in_page (off len : Z) : Prop := 0 ≤ len ≤ REFOS_PAGE_SIZE - off mod REFOS_PAGE_SIZE.

Lemma in_page_cap off len :
  0 ≤ off < 2 ^ 32 → in_page off len →
  (if REFOS_PAGE_SIZE - (off - REFOS_PAGE_ALIGN off) <? len
   then REFOS_PAGE_SIZE - (off - REFOS_PAGE_ALIGN off) else len) = len ∧
  REFOS_PAGE_SIZE <? w32 (off mod REFOS_PAGE_SIZE + len) = false ∧
  (Z.to_nat (off mod REFOS_PAGE_SIZE) + Z.to_nat len ≤ page_size)%nat.
Proof.
  intros Ho Hl. rewrite skip_bytes by done. unfold in_page in Hl.
  pose proof (Z.mod_pos_bound off REFOS_PAGE_SIZE ltac:(done)). pose proof page_size_Z.
  assert (REFOS_PAGE_SIZE < 2 ^ 32) by done. split_and!; [|..|lia].
  - by rewrite (proj2 (Z.ltb_ge _ _)) by lia.
  - rewrite w32_id by (unfold is_w32; lia). by rewrite (proj2 (Z.ltb_ge _ _)) by lia.
Qed.

(** Getting the page of an access, and mapping it. *)
Lemma page_access {A} s p d off (err : A) (k : Z → P A) Q :
  memory_ok s → ps_dspaces s !! p = Some d → physicalAddrEnabled d = false →
  0 ≤ off < rds_npages d * REFOS_PAGE_SIZE →
  (∀ c s1, keeps s s1 → same_contents s s1 →
     page_at s1 p (Z.to_nat (ram_dspace_get_index off)) c → runs (k c) s1 Q) →
  (∀ s1, keeps s s1 → same_contents s s1 → ¬ EnvPlenty → Q err s1) →
  runs (let! c := ram_dspace_get_page p off in if c =? 0 then kret err else k c) s Q.
Proof using Type*.
  intros Hm Hd Ha Ho Hk Herr. apply runs_bind.
  eapply runs_mono; [by apply (get_page_rep s p d)|]. cbv beta.
  intros c s1 (Hs1 & Hc1 & Hc & Hplenty). destruct (Z.eqb_spec c 0) as [->|Hc0].
  - apply runs_ret, Herr; [done..|]. intros HP. by destruct (Hplenty HP).
  - destruct Hc as [|Hc]; [done|]. by apply Hk.
Qed.

Lemma map_access {A} s c (err : A) (k : P A) Q :
  memory_ok s →
  (∀ e, keeps s (upd_ps_env e s) → runs k (upd_ps_env e s) Q) →
  (∀ e, keeps s (upd_ps_env e s) → ¬ EnvPlenty → Q err (upd_ps_env e s)) →
  runs (let! mapped := call (vspace_map_pages c) in if negb mapped then kret err else k) s Q.
Proof using Type*.
  intros Hm Hk Herr. destruct (vspace_map_pages c (ps_env s)) as [b e] eqn:Eb. rstep.
  destruct (mem_env s Hm) as (F & HF & HdF).
  assert (He : ∃ F, handed_out e F ∧ dom (ps_frames s) ⊆ F).
  { exists F. split; [by eapply map_pages_keeps|done]. }
  destruct (keeps_env s e Hm He) as [Hs _]. destruct b; cbn [negb]; [by apply Hk|].
  apply runs_ret, Herr; [done|]. intros HP.
  pose proof (map_pages_succeeds c (ps_env s)) as H. by rewrite Eb in H.
Qed.

(** Flushing the caches and unmapping the frame again. *)
Lemma flush_Ok c s :
  memory_ok s →
  ∃ e, procserv_flush [c] s = Ok tt (upd_ps_env e s) ∧
       (∃ F, handed_out e F ∧ dom (ps_frames s) ⊆ F).
Proof using Type*.
  intros Hm. destruct (mem_env s Hm) as (F & HF & HdF). unfold procserv_flush. cbn.
  destruct (c =? 0).
  - exists (ps_env s). split; [by destruct s|]. by exists F.
  - eexists. split; [done|]. exists F. split; [by apply unify_keeps|done].
Qed.
Lemma unmap_own_Ok c s :
  memory_ok s → ∃ F, handed_out (vspace_unmap_own_pages c (ps_env s)) F ∧ dom (ps_frames s) ⊆ F.
Proof using Type*.
  intros Hm. destruct (mem_env s Hm) as (F & HF & HdF). exists F. split; [by apply unmap_own_keeps|done].
Qed.

Lemma keeps_trans s1 s2 s3 : keeps s1 s2 → keeps s2 s3 → keeps s1 s3.
Proof. intros [_ H1] [Hm H2]. split; [done|by etrans]. Qed.

Lemma write_page_rep s p d off len buf :
  memory_ok s → ps_dspaces s !! p = Some d → physicalAddrEnabled d = false →
  0 ≤ off < rds_npages d * REFOS_PAGE_SIZE → in_page off len → (Z.to_nat len ≤ length buf)%nat →
  runs (ram_dspace_write_page buf len p off) s (λ e s', keeps s s' ∧
    ((e = ESUCCESS ∧ contents_change p (list_inserts (Z.to_nat off) (take (Z.to_nat len) buf)) s s') ∨
     (e = ENOMEM ∧ same_contents s s' ∧ ¬ EnvPlenty))).
Proof using Type*.
  intros Hm Hd Ha Ho Hl Hb. destruct (page_index_range p d s off Hm Hd Ho) as [_ Hw].
  destruct (in_page_cap off len ltac:(lia) Hl) as (Hcap & Hfits & Hnat).
  unfold ram_dspace_write_page. rewrite Hcap, skip_bytes by lia.
  apply (page_access s p d); [done..| |by auto]. intros c s1 [Hm1 Hs1] Hc1 Hc.
  unfold procserv_frame_write. rewrite Hfits. apply map_access; [done| |].
  2:{ intros e He HP. split; [by eapply keeps_trans|]. right. done. }
  intros e [Hm2 Hs2]. destruct (mem_page s1 Hm1 p _ c Hc) as (b & Hb1 & Hlb).
  eapply runs_bind_Ok; [unfold getFrame; cbn; by rewrite Hb1|]. rstep.
  pose proof (Z.mod_pos_bound off REFOS_PAGE_SIZE ltac:(done)) as Hmod.
  assert (length (take (Z.to_nat len) buf) = Z.to_nat len) as Hlt by (rewrite length_take; lia).
  rewrite Z2Nat.inj_add by (unfold in_page in Hl; lia).
  pose proof (take_app_drop_inserts b (take (Z.to_nat len) buf) (Z.to_nat (off mod REFOS_PAGE_SIZE))
    ltac:(lia)) as Heq. rewrite Hlt in Heq. rewrite Heq. clear Heq.
  pose proof (contents_frame (upd_ps_env e s1) p _ c (Z.to_nat (off mod REFOS_PAGE_SIZE))
    (take (Z.to_nat len) buf) Hm2 Hc ltac:(lia)) as Hch.
  rewrite <- page_offset in Hch by lia. cbn [ps_frames upd_ps_env] in Hch. rewrite Hb1 in Hch.
  cbn [default] in Hch.
  assert (memory_ok (upd_ps_frames (<[c := list_inserts (Z.to_nat (off mod REFOS_PAGE_SIZE))
            (take (Z.to_nat len) buf) b]> (ps_frames s1)) (upd_ps_env e s1))) as Hm3.
  { apply (memory_ok_frame (upd_ps_env e s1) c); [done|cbn; by rewrite Hb1|by rewrite length_inserts]. }
  destruct (flush_Ok c _ Hm3) as (e2 & Hflush & He2). eapply runs_bind_Ok; [exact Hflush|]. rstep.
  apply runs_ret. split.
  - split; [|exact (transitivity Hs1 Hs2)]. apply memory_ok_env, unmap_own_Ok; by apply memory_ok_env.
  - left. split; [done|]. exact (contents_change_after _ _ _ _ _ Hs1 Hc1 Hch).
Qed.

Lemma read_page_rep s p d off len :
  memory_ok s → ps_dspaces s !! p = Some d → physicalAddrEnabled d = false →
  0 ≤ off < rds_npages d * REFOS_PAGE_SIZE → in_page off len →
  runs (ram_dspace_read_page len p off) s (λ r s', keeps s s' ∧ same_contents s s' ∧
    ((r.1 = ESUCCESS ∧ r.2 = take (Z.to_nat len) (drop (Z.to_nat off) (contents_of s p))) ∨
     (r.1 = ENOMEM ∧ ¬ EnvPlenty))).
Proof using Type*.
  intros Hm Hd Ha Ho Hl. destruct (page_index_range p d s off Hm Hd Ho) as [_ Hw].
  destruct (in_page_cap off len ltac:(lia) Hl) as (Hcap & Hfits & Hnat).
  unfold ram_dspace_read_page. rewrite Hcap, skip_bytes by lia.
  apply (page_access s p d); [done..| |by auto]. intros c s1 [Hm1 Hs1] Hc1 Hc.
  unfold procserv_frame_read. rewrite Hfits. apply map_access; [done| |].
  2:{ intros e He HP. split; [by eapply keeps_trans|]. split; [exact Hc1|by right]. }
  intros e [Hm2 Hs2]. destruct (mem_page s1 Hm1 p _ c Hc) as (b & Hb1 & Hlb).
  destruct (flush_Ok c _ Hm2) as (e2 & Hflush & He2). eapply runs_bind_Ok; [exact Hflush|].
  eapply runs_bind_Ok; [unfold getFrame; cbn; by rewrite Hb1|]. rstep. apply runs_ret.
  split; [split; [|exact (transitivity Hs1 Hs2)]|].
  { apply memory_ok_env, unmap_own_Ok; by apply memory_ok_env. }
  split; [exact Hc1|]. left. split; [done|]. cbn [snd].
  rewrite <- (Hc1 p d) by done. destruct Hc as (d1 & Hd1 & Ha1 & Hi1 & Hc0).
  unfold contents_of. rewrite Hd1, (page_offset off) by lia. unfold contents.
  erewrite (read_concat_page page_size);
    [|by eapply pages_Forall|by rewrite list_lookup_fmap, Hi1|lia].
  unfold page_bytes. by rewrite (proj2 (Z.eqb_neq c 0) Hc0), Hb1.
Qed.

(** ** The loops *)
Lemma contents_change_ext p f g s s' :
  (∀ l, f l = g l) → contents_change p f s s' → contents_change p g s s'.
Proof. intros Hfg H q d Hd Ha. rewrite (H q d Hd Ha). by rewrite Hfg. Qed.

Lemma inserts_inserts {A} (buf l : list A) i m k :
  (m ≤ length buf)%nat →
  list_inserts (m + i) (take k (drop m buf)) (list_inserts i (take m buf) l) =
  list_inserts i (take (m + k) buf) l.
Proof.
  intros Hm. rewrite <- (take_take_drop buf m k), list_inserts_app_l, length_take.
  by rewrite Nat.min_l by lia.
Qed.

(** One round of a loop: the end of the access in the first page. *)
Lemma loop_round start stop size :
  0 ≤ start < stop → stop ≤ size → size < 2 ^ 32 → size mod REFOS_PAGE_SIZE = 0 →
  let end_ := Z.min (w32 (REFOS_PAGE_ALIGN start + REFOS_PAGE_SIZE)) stop in
  start < end_ ≤ stop ∧ w32 (end_ - start) = end_ - start ∧ in_page start (end_ - start) ∧
  (end_ = stop ∨ end_ / REFOS_PAGE_SIZE = start / REFOS_PAGE_SIZE + 1).
Proof.
  intros Hs Hstop Hsize Hal end_. subst end_. rewrite (Z.mod_eq size REFOS_PAGE_SIZE ltac:(done)) in Hal.
  pose proof (skip_bytes start ltac:(lia)) as Hskip.
  pose proof (Z.mod_pos_bound start REFOS_PAGE_SIZE ltac:(done)) as Hb.
  pose proof (Z.mod_eq start REFOS_PAGE_SIZE ltac:(done)) as He.
  assert (REFOS_PAGE_SIZE = 4096) as HP by done.
  assert (REFOS_PAGE_ALIGN start = REFOS_PAGE_SIZE * (start / REFOS_PAGE_SIZE)) as Ha by lia.
  assert (start / REFOS_PAGE_SIZE < size / REFOS_PAGE_SIZE) as Hlt by nia.
  rewrite w32_id by (unfold is_w32; nia). split; [nia|]. split.
  { apply w32_id. unfold is_w32. nia. }
  split; [unfold in_page; nia|].
  destruct (Z.le_gt_cases stop (REFOS_PAGE_ALIGN start + REFOS_PAGE_SIZE)) as [H|H]; [left; lia|right].
  rewrite Z.min_l by lia. rewrite Ha.
  replace (REFOS_PAGE_SIZE * (start / REFOS_PAGE_SIZE) + REFOS_PAGE_SIZE)
    with (0 + (start / REFOS_PAGE_SIZE + 1) * REFOS_PAGE_SIZE) by lia.
  by rewrite Z.div_add.
Qed.

Definition rounds_ok (fuel : nat) (start stop : Z) : Prop :=
  1 ≤ Z.of_nat fuel ∧
  (start < stop → stop / REFOS_PAGE_SIZE - start / REFOS_PAGE_SIZE + 2 ≤ Z.of_nat fuel).

Lemma rounds_ok_next fuel start end_ stop :
  rounds_ok (S fuel) start stop → 0 ≤ start < stop →
  end_ = stop ∨ end_ / REFOS_PAGE_SIZE = start / REFOS_PAGE_SIZE + 1 → rounds_ok fuel end_ stop.
Proof.
  intros [_ H] Hs He. specialize (H (proj2 Hs)).
  assert (start / REFOS_PAGE_SIZE ≤ stop / REFOS_PAGE_SIZE) by (apply Z.div_le_mono; [done|lia]).
  split; [lia|]. intros Hlt. destruct He as [->|He]; lia.
Qed.

Lemma dspace_size_aligned d : (rds_npages d * REFOS_PAGE_SIZE) mod REFOS_PAGE_SIZE = 0.
Proof. by apply Z.mod_mul. Qed.

Lemma write_loop_rep fuel : ∀ s p d start stop buf,
  memory_ok s → ps_dspaces s !! p = Some d → physicalAddrEnabled d = false →
  0 ≤ start → start ≤ stop ≤ rds_npages d * REFOS_PAGE_SIZE → rounds_ok fuel start stop →
  (Z.to_nat (stop - start) ≤ length buf)%nat →
  runs (write_loop fuel buf p start stop) s (λ e s', keeps s s' ∧ ∃ k,
    contents_change p (list_inserts (Z.to_nat start) (take k buf)) s s' ∧
    ((e = ESUCCESS ∧ k = Z.to_nat (stop - start)) ∨
     (e = ENOMEM ∧ (k ≤ Z.to_nat (stop - start))%nat ∧ ¬ EnvPlenty))).
Proof using Type*.
  induction fuel as [|fuel IH]; intros s p d start stop buf Hm Hd Ha H0 Hs Hf Hb.
  { destruct Hf. lia. }
  cbn [write_loop]. destruct (Z.ltb_spec start stop) as [Hlt|Hge].
  2:{ apply runs_ret. split; [split; [done|reflexivity]|]. exists 0%nat.
      split; [by intros q d' _ _; destruct (q =? p)|]. left. split; [done|lia]. }
  destruct (mem_dspace s Hm p d Hd) as [_ Hsz].
  destruct (loop_round start stop _ ltac:(lia) (proj2 Hs) Hsz (dspace_size_aligned d))
    as (He & Hw & Hin & Hnext). set (end_ := Z.min _ stop) in *. rewrite Hw.
  apply runs_bind. eapply runs_mono; [apply (write_page_rep s p d); [done..|lia|done|lia]|]. cbv beta.
  intros e s1 ([Hm1 Hs1] & [(-> & Hc1)|(-> & Hc1 & HP)]); cycle 1.
  { apply runs_ret. split; [done|]. exists 0%nat. split.
    - intros q d' Hd' Ha'. rewrite (Hc1 q d') by done. by destruct (q =? p).
    - right. split; [done|split; [lia|done]]. }
  cbn. destruct (same_dspaces_at _ _ _ _ Hs1 Hd) as (d1 & Hd1 & Hn1 & Ha1).
  eapply runs_mono; [apply (IH s1 p d1 end_ stop); [done..|congruence|lia|rewrite Hn1; lia| |]|]; cbv beta.
  { by eapply rounds_ok_next. }
  { rewrite length_drop. lia. }
  intros e s2 (Hs2 & k & Hc2 & Hk). split; [by eapply keeps_trans|].
  exists (Z.to_nat (end_ - start) + k)%nat. split; [|destruct Hk as [[-> ->]|(-> & Hk & HP)]].
  - eapply contents_change_ext; [|exact (contents_change_trans _ _ _ _ _ _ Hs1 Hc1 Hc2)].
    intros l. cbn. rewrite <- inserts_inserts by lia.
    by replace (Z.to_nat (end_ - start) + Z.to_nat start)%nat with (Z.to_nat end_) by lia.
  - left. split; [done|lia].
  - right. split; [done|split; [lia|done]].
Qed.

Lemma read_loop_rep fuel : ∀ s p d start stop,
  memory_ok s → ps_dspaces s !! p = Some d → physicalAddrEnabled d = false →
  0 ≤ start → start ≤ stop ≤ rds_npages d * REFOS_PAGE_SIZE → rounds_ok fuel start stop →
  runs (read_loop fuel p start stop) s (λ r s', keeps s s' ∧ same_contents s s' ∧
    ((r.1 = ESUCCESS ∧
      r.2 = take (Z.to_nat (stop - start)) (drop (Z.to_nat start) (contents_of s p))) ∨
     (r.1 = ENOMEM ∧ ¬ EnvPlenty))).
Proof using Type*.
  induction fuel as [|fuel IH]; intros s p d start stop Hm Hd Ha H0 Hs Hf.
  { destruct Hf. lia. }
  cbn [read_loop]. destruct (Z.ltb_spec start stop) as [Hlt|Hge].
  2:{ apply runs_ret. split; [split; [done|reflexivity]|]. split; [done|]. left.
      by replace (Z.to_nat (stop - start)) with 0%nat by lia. }
  destruct (mem_dspace s Hm p d Hd) as [_ Hsz].
  destruct (loop_round start stop _ ltac:(lia) (proj2 Hs) Hsz (dspace_size_aligned d))
    as (He & Hw & Hin & Hnext). set (end_ := Z.min _ stop) in *. rewrite Hw.
  apply runs_bind. eapply runs_mono; [apply (read_page_rep s p d); [done..|lia|done]|]. cbv beta.
  intros [e b] s1 ([Hm1 Hs1] & Hc1 & [[Hr Hb]|[Hr HP]]); cbn [fst snd] in *; subst e; cycle 1.
  { apply runs_ret. split; [done|]. split; [done|]. by right. }
  cbn. destruct (same_dspaces_at _ _ _ _ Hs1 Hd) as (d1 & Hd1 & Hn1 & Ha1).
  apply runs_bind. eapply runs_mono; [apply (IH s1 p d1 end_ stop); [done..|congruence|lia|rewrite Hn1; lia|]|].
  { by eapply rounds_ok_next. }
  cbv beta. intros [e b'] s2 (Hs2 & Hc2 & Hr). apply runs_ret. split; [by eapply keeps_trans|].
  split; [by eapply same_contents_trans|]. cbn [fst snd] in *.
  destruct Hr as [[-> ->]|[-> HP]]; [left|by right]. split; [done|].
  rewrite Hb, (Hc1 p d) by done.
  replace (Z.to_nat (stop - start)) with (Z.to_nat (end_ - start) + Z.to_nat (stop - end_))%nat by lia.
  rewrite <- (take_take_drop _ (Z.to_nat (end_ - start))). f_equal.
  rewrite drop_drop. do 2 f_equal. lia.
Qed.

(** ** Reading and writing *)
Lemma page_rounds_ok off len : 0 ≤ off → 0 ≤ len → rounds_ok (page_rounds len) off (off + len).
Proof.
  intros Ho Hl. unfold page_rounds. assert (REFOS_PAGE_SIZE = 4096) as HP by done.
  pose proof (Z.div_mod off REFOS_PAGE_SIZE ltac:(done)).
  pose proof (Z.div_mod len REFOS_PAGE_SIZE ltac:(done)).
  pose proof (Z.div_mod (off + len) REFOS_PAGE_SIZE ltac:(done)).
  pose proof (Z.mod_pos_bound off REFOS_PAGE_SIZE ltac:(done)).
  pose proof (Z.mod_pos_bound len REFOS_PAGE_SIZE ltac:(done)).
  pose proof (Z.mod_pos_bound (off + len) REFOS_PAGE_SIZE ltac:(done)).
  assert (0 ≤ len / REFOS_PAGE_SIZE) by (apply Z.div_pos; [lia|done]).
  rewrite HP in *. split; [lia|]. intros _. rewrite Z2Nat.id, HP by lia. lia.
Qed.

Section Access.
Context (s : procserv) (p : Z) (d : ram_dspace) (off len : Z).
Context (Hm : memory_ok s) (Hd : ps_dspaces s !! p = Some d) (Ha : physicalAddrEnabled d = false).
Context (Ho : 0 ≤ off) (Hl : 0 ≤ len < 2 ^ 32).

Lemma access_check :
  off ≤ rds_npages d * REFOS_PAGE_SIZE →
  (w32 (rds_npages d * REFOS_PAGE_SIZE - off) <? len) =
  negb (off + len <=? rds_npages d * REFOS_PAGE_SIZE).
Proof using Type*.
  intros Hoff. destruct (mem_dspace s Hm p d Hd) as [Hn Hsz].
  rewrite w32_id by (unfold is_w32; lia). lia.
Qed.

Lemma ram_dspace_write_rep buf :
  off + len ≤ rds_npages d * REFOS_PAGE_SIZE → (Z.to_nat len ≤ length buf)%nat →
  runs (ram_dspace_write buf len p off) s (λ e s', keeps s s' ∧ ∃ k,
    contents_change p (list_inserts (Z.to_nat off) (take k buf)) s s' ∧
    ((e = ESUCCESS ∧ k = Z.to_nat len) ∨ (e = ENOMEM ∧ (k ≤ Z.to_nat len)%nat ∧ ¬ EnvPlenty))).
Proof using Type*.
  intros Hr Hb. unfold ram_dspace_write. rstep. rewrite access_check by lia.
  rewrite (proj2 (Z.leb_le _ _) Hr). cbn [negb].
  destruct (mem_dspace s Hm p d Hd) as [_ Hsz]. rewrite w32_id by (unfold is_w32; lia).
  replace (Z.to_nat len) with (Z.to_nat (off + len - off)) in * by lia.
  apply (write_loop_rep _ s p d); [done..|lia|apply page_rounds_ok; lia|done].
Qed.

Lemma ram_dspace_read_rep :
  off + len ≤ rds_npages d * REFOS_PAGE_SIZE →
  runs (ram_dspace_read len p off) s (λ r s', keeps s s' ∧ same_contents s s' ∧
    ((r.1 = ESUCCESS ∧ r.2 = take (Z.to_nat len) (drop (Z.to_nat off) (contents_of s p))) ∨
     (r.1 = ENOMEM ∧ ¬ EnvPlenty))).
Proof using Type*.
  intros Hr. unfold ram_dspace_read. rstep. rewrite access_check by lia.
  rewrite (proj2 (Z.leb_le _ _) Hr). cbn [negb].
  destruct (mem_dspace s Hm p d Hd) as [_ Hsz]. rewrite w32_id by (unfold is_w32; lia).
  replace (Z.to_nat len) with (Z.to_nat (off + len - off)) by lia.
  apply (read_loop_rep _ s p d); [done..|lia|apply page_rounds_ok; lia].
Qed.

Lemma ram_dspace_access_past_end buf :
  off ≤ rds_npages d * REFOS_PAGE_SIZE < off + len →
  ram_dspace_write buf len p off s = Ok EINVALIDPARAM s ∧
  ram_dspace_read len p off s = Ok (EINVALIDPARAM, []) s.
Proof using Type*.
  intros Hr. unfold ram_dspace_write, ram_dspace_read.
  rewrite !(kbind_Ok _ _ _ _ _ (getDspace_Ok s p d Hd)), access_check by lia.
  by rewrite (proj2 (Z.leb_gt _ _)) by lia.
Qed.
End Access.
End Memory.
