(* ===== verification/Memserv.v ===== *)
(** * The tables of dataspaces and windows

    The rest of [apps/process_server/src/system/memserv/dataspace.c] and
    [window.c]: dataspaces and windows are objects of two tables ([coat]), a
    window shows a dataspace and holds a reference to it, and the last reference
    deletes the dataspace, which empties the windows that show it.  Emptying a
    window drops its reference again, so these operations are mutually
    recursive: [unref_at] counts the depth of the recursion.  Emptying a window
    also unmaps it from its process ([vs_unmap_window], [addrspace/vspace.c]). *)

From S2P Require Import Prelude.
From S2P Require Import Word32.
From S2P Require Import DataStruct.
From S2P Require Import WindowAssoc.
From S2P Require Import Procserv.
From S2P Require Import Dataspace.

Definition PID_BADGE_BASE : Z := 3.
Definition PID_BADGE_END : Z := PID_BADGE_BASE + PID_MAX.
Definition PID_LIVENESS_BADGE_BASE : Z := PID_BADGE_END.
Definition PID_LIVENESS_BADGE_END : Z := PID_LIVENESS_BADGE_BASE + PID_MAX.
Definition W_BADGE_BASE : Z := PID_LIVENESS_BADGE_END.
Definition W_BADGE_END : Z := W_BADGE_BASE + W_MAX_WINDOWS.
Definition RAM_DATASPACE_MAX_NUM_DATASPACE : Z := 8192.
Definition RAM_DATASPACE_BADGE_BASE : Z := W_BADGE_END.
Definition RAM_DATASPACE_BADGE_END : Z := RAM_DATASPACE_BADGE_BASE + RAM_DATASPACE_MAX_NUM_DATASPACE.
Definition RAM_DATASPACE_INVALID_ID : Z := 0.

(** The tables of the server. *)
Notation table_alloc := (oat_alloc malloc_ok).
Notation table_get := oat_get.
Notation table_free := (oat_free malloc_ok).
Notation table_release := oat_release.
Notation set_pool := oat_set_pool.
Notation set_table := oat_set_table.
Notation free_id := (oat_free_id malloc_ok).
Notation set_object := oat_set_object.

Section Memserv.
Context {E : Env}.

(** ** The table of dataspaces *)
Definition ram_dspace_init : P unit :=
  let! t := kopt (coat_init 1 RAM_DATASPACE_MAX_NUM_DATASPACE) in
  modify (upd_dspaceList t).

(** The address of the dataspace, 0 for none. *)
Definition ram_dspace_get (id : Z) : P Z :=
  if (id <=? RAM_DATASPACE_INVALID_ID) || (RAM_DATASPACE_MAX_NUM_DATASPACE <=? id) then kret 0
  else table_get dspaceList id.
Definition ram_dspace_get_badge (badge : Z) : P Z :=
  ram_dspace_get (s32 (badge - RAM_DATASPACE_BADGE_BASE)).

Definition ram_dspace_oat_create (size id : Z) : P Z :=
  let! p := call kmalloc_object in
  match p with
  | None => kret 0
  | Some p =>
      let npages := npages_of_size size in
      if negb (malloc_ok (w32 (sizeof_vka_object * npages))) then kret 0
      else
        let! capability := procserv_mint_badge (RAM_DATASPACE_BADGE_BASE + id) in
        if capability =? 0 then kret 0
        else
          modify (λ s, upd_ps_dspaces (<[p :=
            RamDspace id capability 1 (repeat 0 (Z.to_nat npages)) npages false 0 PID_NULL []
              cvector_init false 0]> (ps_dspaces s)) s) ;;;
          kret p
  end.

Definition ram_dspace_create (size : Z) : P Z :=
  let! ' (ID, dspace) := table_alloc dspaceList upd_dspaceList (ram_dspace_oat_create size) in
  if ID =? RAM_DATASPACE_INVALID_ID then kret 0
  else kassert (negb (dspace =? 0)) ;;; kret dspace.

Definition ram_dspace_ref (ID : Z) : P unit :=
  let! dspace := ram_dspace_get ID in
  kassert (negb (dspace =? 0)) ;;;
  let! d := getDspace dspace in
  kassert (0 <? rds_ref d) ;;;
  updDspace dspace (rds_set_ref (w32 (rds_ref d + 1))).

(** ** Windows *)
Definition w_init : P unit :=
  let! t := kopt (coat_init 1 W_MAX_WINDOWS) in
  modify (upd_windowList t).

(** The address of the window, 0 for none. *)
Definition w_get_window (windowID : Z) : P Z :=
  if (windowID <=? W_INVALID_WINID) || (W_MAX_WINDOWS <=? windowID) then kret 0
  else table_get windowList windowID.

Definition window_oat_create (id : Z) : P Z :=
  let! p := call kmalloc_object in
  match p with
  | None => kret 0
  | Some p =>
      let! capability := procserv_mint_badge (W_BADGE_BASE + id) in
      if capability =? 0 then kret 0
      else
        modify (λ s, upd_ps_windows (<[p :=
          Window id 0 0 W_MODE_EMPTY 0 false 0 0 capability 0 PID_NULL 0 0]> (ps_windows s)) s) ;;;
        kret p
  end.

Definition w_create_window (size ownerPID permissions vspace reservation : Z) (cacheable : bool) : P Z :=
  let! ' (ID, w) := table_alloc windowList upd_windowList window_oat_create in
  if ID =? W_INVALID_WINID then kret 0
  else
    kassert (negb (w =? 0)) ;;;
    updWindow w (λ w, Window (w_wID w) ownerPID size W_MODE_EMPTY permissions cacheable vspace
      reservation (w_capability w) (w_pager w) (w_pagerPID w) (w_ramDataspace w)
      (w_ramDataspaceOffset w)) ;;;
    kret w.

(** ** Unmapping a window from its process ([addrspace/vspace.c]) *)
Definition pid_get_pcb (pid : Z) : P (option proc_pcb) :=
  if (pid <? PID_START) || (PID_MAX <=? pid) then kret None else gets (λ s, pcbs s !! pid).

(** A search in the windows of a process, which may sort them. *)
Definition with_windows {A} (pid : Z)
    (f : w_associated_windowlist → option (w_associated_windowlist * A)) : P A :=
  let! p := getPcb pid in
  let! ' (aw, r) := kopt (f (vs_windows (pcb_vspace p))) in
  updPcb pid (set_pcb_vspace (set_vs_windows aw (pcb_vspace p))) ;;;
  kret r.
Definition find_winID (pid winID : Z) : P (option w_associated_window) :=
  with_windows pid (λ aw, w_associate_find_winID qsort aw winID).

Definition vs_unmap_frame (pid vaddr : Z) : P unit :=
  let! e := gets ps_env in
  let frameCap := vspace_get_cap pid vaddr e in
  if frameCap =? 0 then kret tt
  else
    call_ (vspace_unmap_pages pid vaddr) ;;;
    release_slot frameCap.

(** Unmapping [n] pages from [vaddr] on. *)
Definition vs_unmap_frames (pid vaddr n : Z) : P unit :=
  kfor (seqZ 0 n) (λ va, vs_unmap_frame pid (w32 (vaddr + va * REFOS_PAGE_SIZE))).

Definition vs_unmap_window (pid wID : Z) : P unit :=
  let! awindow := find_winID pid wID in
  match awindow with
  | None => kret tt
  | Some awindow =>
      let! window := w_get_window (aw_winID awindow) in
      kassert (negb (window =? 0)) ;;;
      let! w := getWindow window in
      kassert (w_vspace w =? pid) ;;;
      vs_unmap_frames pid (aw_offset awindow) (npages_of_size (aw_size awindow))
  end.

(** ** Emptying windows, deleting dataspaces *)
Section Unref.
Context (unref : Z → P unit).

Definition switch_mode (window : Z) (mode : w_window_mode) : P unit :=
  let! w := getWindow window in
  kwhen (negb (w_pager w =? 0))
    (release_slot (w_pager w) ;;;
     updWindow window (λ w, set_w_pagerPID PID_NULL (set_w_pager 0 w))) ;;;
  kwhen (negb (w_ramDataspace w =? 0))
    (let! d := getDspace (w_ramDataspace w) in
     unref (rds_ID d) ;;;
     updWindow window (λ w, set_w_ramDataspaceOffset 0 (set_w_ramDataspace 0 w))) ;;;
  let! w := getWindow window in
  kwhen (negb (bool_decide (w_mode w = W_MODE_EMPTY)) && negb (w_clientOwnerPID w =? PID_NULL))
    (let! clientPCB := pid_get_pcb (w_clientOwnerPID w) in
     match clientPCB with
     | Some _ => vs_unmap_window (w_clientOwnerPID w) (w_wID w)
     | None => kret tt
     end) ;;;
  updWindow window (set_w_mode mode).

(** One round of the loop of [w_purge_dspace]. *)
Definition purge_window (dspace i : Z) : P unit :=
  let! window := w_get_window i in
  if window =? 0 then kret tt
  else
    let! w := getWindow window in
    if w_ramDataspace w =? 0 then kret tt
    else
      let! d := getDspace (w_ramDataspace w) in
      let! d' := getDspace dspace in
      kwhen ((w_ramDataspace w =? dspace) || (rds_ID d =? rds_ID d'))
        (switch_mode window W_MODE_EMPTY).
Definition purge_dspace (dspace : Z) : P unit :=
  kfor (seqZ 1 (W_MAX_WINDOWS - 1)) (purge_window dspace).

(** Freeing the pages of a dataspace. *)
Definition free_page (physical : bool) (c : Z) : P unit :=
  if c =? 0 then kret tt
  else
    call_ (vka_cnode_revoke c) ;;;
    if physical then call_ (vka_cnode_delete c) ;;; call_ (vka_cspace_free c)
    else
      call_ (vka_free_object c) ;;;
      modify (λ s, upd_ps_frames (delete c (ps_frames s)) s).

Definition dspace_delete (p : Z) : P unit :=
  purge_dspace p ;;;
  let! d := getDspace p in
  kassert (rds_ref d =? 0) ;;;
  kwhen (contentInitEnabled d)
    (kassert (negb (contentInitEP d =? 0)) ;;; release_slot (contentInitEP d)) ;;;
  release_waiters (Z.to_nat (cvector_count (contentInitWaitingList d))) (contentInitWaitingList d) 0 ;;;
  kassert (negb (bool_decide (rds_pages d = [])) || (rds_npages d =? 0)) ;;;
  kfor (rds_pages d) (free_page (physicalAddrEnabled d)) ;;;
  kassert (negb (rds_capability d =? 0)) ;;;
  release_slot (rds_capability d) ;;;
  modify (λ s, upd_ps_dspaces (delete p (ps_dspaces s)) s).

Definition window_delete (p : Z) : P unit :=
  switch_mode p W_MODE_EMPTY ;;;
  let! w := getWindow p in
  kwhen (negb (w_reservation w =? 0))
    (kassert (negb (w_vspace w =? 0)) ;;; call_ (vspace_free_reservation (w_reservation w))) ;;;
  kwhen (negb (w_capability w =? 0)) (release_slot (w_capability w)) ;;;
  modify (λ s, upd_ps_windows (delete p (ps_windows s)) s).
End Unref.

Fixpoint unref_at (depth : nat) (ID : Z) : P unit :=
  match depth with
  | O => kdiverge
  | S depth =>
      let! dspace := ram_dspace_get ID in
      kassert (negb (dspace =? 0)) ;;;
      let! d := getDspace dspace in
      kassert (0 <? rds_ref d) ;;;
      updDspace dspace (rds_set_ref (rds_ref d - 1)) ;;;
      kwhen (rds_ref d - 1 =? 0)
        (table_free dspaceList upd_dspaceList (dspace_delete (unref_at depth)) ID ;;; kret tt)
  end.

(** A dataspace deletes the windows that show it, a window drops a reference to
    a dataspace without references, which fails. *)
Definition unref_depth : nat := 2.
Definition ram_dspace_unref (ID : Z) : P unit := unref_at unref_depth ID.
Definition window_switch_mode (window : Z) (mode : w_window_mode) : P unit :=
  switch_mode ram_dspace_unref window mode.
Definition w_purge_dspace (dspace : Z) : P unit := purge_dspace ram_dspace_unref dspace.
Definition ram_dspace_oat_delete (p : Z) : P unit := dspace_delete ram_dspace_unref p.
Definition window_oat_delete (p : Z) : P unit := window_delete ram_dspace_unref p.

Definition ram_dspace_deinit : P unit :=
  kfor (seqZ 1 (RAM_DATASPACE_MAX_NUM_DATASPACE - 1)) (λ i,
    let! dspace := ram_dspace_get i in
    if dspace =? 0 then kret tt
    else updDspace dspace (λ d, rds_set_ref (w32 (rds_ref d - 1)) d)) ;;;
  table_release dspaceList upd_dspaceList ram_dspace_oat_delete.

Definition w_deinit : P unit := table_release windowList upd_windowList window_oat_delete.

Definition w_delete_window (windowID : Z) : P refos_error :=
  table_free windowList upd_windowList window_oat_delete windowID ;;; kret ESUCCESS.

Definition w_set_pager_endpoint (window endpoint pid : Z) : P unit :=
  if endpoint =? 0 then window_switch_mode window W_MODE_EMPTY
  else
    window_switch_mode window W_MODE_PAGER ;;;
    updWindow window (λ w, set_w_pagerPID pid (set_w_pager endpoint w)).

(** [dspace] is 0 for NULL. *)
Definition w_set_anon_dspace (window dspace offset : Z) : P unit :=
  if dspace =? 0 then window_switch_mode window W_MODE_EMPTY
  else
    window_switch_mode window W_MODE_ANONYMOUS ;;;
    updWindow window (λ w, set_w_ramDataspaceOffset offset (set_w_ramDataspace dspace w)) ;;;
    let! d := getDspace dspace in
    ram_dspace_ref (rds_ID d).

Definition w_resize_window (window vaddr size : Z) : P refos_error :=
  let! w := getWindow window in
  if size =? w_size w then kret ESUCCESS
  else
    let! ok := call (sel4utils_move_resize_reservation (w_vspace w) (w_reservation w) vaddr size) in
    if negb ok then kret EINVALIDWINDOW
    else updWindow window (set_w_size size) ;;; kret ESUCCESS.

(** Deleting the windows of a process, which loses its list. *)
Definition w_associate_release_associated_all_windows (pid : Z) : P unit :=
  let! p := getPcb pid in
  kfor (seqZ 0 (numIndex (vs_windows (pcb_vspace p)))) (λ i,
    let! p := getPcb pid in
    let! w := kopt (fetch (associated (vs_windows (pcb_vspace p))) i) in
    w_delete_window (aw_winID w) ;;; kret tt) ;;;
  let! p := getPcb pid in
  let! aw := kopt (w_associate_clear malloc_ok (vs_windows (pcb_vspace p))) in
  updPcb pid (set_pcb_vspace (set_vs_windows aw (pcb_vspace p))).
End Memserv.
