(* ===== verification/RingBuffer.v ===== *)
(** * Ring buffers

    Models [apps/process_server/src/system/memserv/ringbuffer.c]: a queue of
    bytes in a dataspace that the server shares with a process.  The first two
    words of the dataspace are the start and the end of the queue; the writer
    owns the end and keeps a copy of the start, the reader the other way round. *)

From S2P Require Import Prelude.
From S2P Require Import Word32.
From S2P Require Import DataStruct.
From S2P Require Import WindowAssoc.
From S2P Require Import Procserv.
From S2P Require Import Dataspace.
From S2P Require Import Memserv.

Definition RINGBUFFER_METADATA_SIZE : Z := 8.
(** [sizeof(uint32_t)], [sizeof(struct rb_buffer)] *)
Definition sizeof_uint32 : Z := 4.
Definition sizeof_rb_buffer : Z := 24.

(** The bytes of a word in memory, lowest first. *)
Definition bytes_of_word (x : Z) : list Z :=
  [x mod 256; x / 256 mod 256; x / 65536 mod 256; x / 16777216 mod 256].
Fixpoint word_of_bytes (b : list Z) : Z :=
  match b with [] => 0 | x :: b => x + 256 * word_of_bytes b end.

Definition set_localStart (v : Z) (b : rb_buffer) : rb_buffer :=
  RbBuffer (rb_mode b) v (localEnd b) (rb_size b) (rb_dataspace b).
Definition set_localEnd (v : Z) (b : rb_buffer) : rb_buffer :=
  RbBuffer (rb_mode b) (localStart b) v (rb_size b) (rb_dataspace b).

Section RingBuffer.
Context {E : Env}.

(** Reading a word of the dataspace, [None] on an error. *)
Definition read_word (p offset : Z) : P (refos_error * option Z) :=
  let! ' (error, b) := ram_dspace_read sizeof_uint32 p offset in
  kret (error, if bool_decide (error = ESUCCESS) then Some (word_of_bytes b) else None).

Definition rb_update_local_start (buf : rb_buffer) : P (refos_error * rb_buffer) :=
  match rb_mode buf with
  | RB_WRITEONLY =>
      let! ' (error, x) := read_word (rb_dataspace buf) 0 in
      kret (error, set_localStart (default (localStart buf) x) buf)
  | RB_READONLY =>
      let! error := ram_dspace_write (bytes_of_word (localStart buf)) sizeof_uint32 (rb_dataspace buf) 0 in
      kret (error, buf)
  end.

Definition rb_update_local_end (buf : rb_buffer) : P (refos_error * rb_buffer) :=
  match rb_mode buf with
  | RB_WRITEONLY =>
      let! error := ram_dspace_write (bytes_of_word (localEnd buf)) sizeof_uint32 (rb_dataspace buf)
                      sizeof_uint32 in
      kret (error, buf)
  | RB_READONLY =>
      let! ' (error, x) := read_word (rb_dataspace buf) sizeof_uint32 in
      kret (error, set_localEnd (default (localEnd buf) x) buf)
  end.

Definition rb_remaining_size (buf : rb_buffer) : Z :=
  if localEnd buf <? localStart buf then w32 (localStart buf - localEnd buf - 1)
  else w32 (w32 (rb_size buf - 1) - (localEnd buf - localStart buf)).

Definition rb_create (dataspace : Z) (mode : rb_mode_t) : P (option rb_buffer) :=
  if negb (malloc_ok sizeof_rb_buffer) then kret None
  else
    let! d := getDspace dataspace in
    ram_dspace_ref (rds_ID d) ;;;
    kret (Some (RbBuffer mode 0 0 (w32 (ram_dspace_get_size d - RINGBUFFER_METADATA_SIZE)) dataspace)).

Definition rb_delete (rb : rb_buffer) : P unit :=
  let! d := getDspace (rb_dataspace rb) in
  ram_dspace_unref (rds_ID d).

(** The two pieces of the data, at the end and from the start on. *)
Definition rb_write_data (buf : rb_buffer) (str : list Z) (len : Z) : P refos_error :=
  let p := rb_dataspace buf in
  if localEnd buf <? localStart buf then
    ram_dspace_write str len p (w32 (localEnd buf + RINGBUFFER_METADATA_SIZE))
  else
    let endBytes := Z.min len (w32 (rb_size buf - localEnd buf)) in
    let! error := ram_dspace_write str endBytes p (w32 (localEnd buf + RINGBUFFER_METADATA_SIZE)) in
    if negb (bool_decide (error = ESUCCESS)) then kret error
    else if endBytes <? len then
      ram_dspace_write (drop (Z.to_nat endBytes) str) (len - endBytes) p RINGBUFFER_METADATA_SIZE
    else kret ESUCCESS.

(** Room for [len] bytes, with the shared start when the copy leaves too little. *)
Definition rb_make_room (buf : rb_buffer) (len : Z) : P (refos_error * rb_buffer) :=
  if rb_remaining_size buf <? len then
    let! ' (error, buf) := rb_update_local_start buf in
    if negb (bool_decide (error = ESUCCESS)) then kret (EINVALID, buf)
    else if rb_remaining_size buf <? len then kret (ENOMEM, buf)
    else kret (ESUCCESS, buf)
  else kret (ESUCCESS, buf).

Definition rb_write (buf : rb_buffer) (str : list Z) (len : Z) : P (refos_error * rb_buffer) :=
  if negb (bool_decide (rb_mode buf = RB_WRITEONLY)) then kret (EACCESSDENIED, buf)
  else
    let! ' (error, buf) := rb_make_room buf len in
    if negb (bool_decide (error = ESUCCESS)) then kret (error, buf)
    else
      let! error := rb_write_data buf str len in
      if negb (bool_decide (error = ESUCCESS)) then kret (error, buf)
      else
        kassert (negb (rb_size buf =? 0)) ;;;
        rb_update_local_end (set_localEnd (w32 (localEnd buf + len) mod rb_size buf) buf).

(** The error and the bytes read. *)
Definition rb_read_data (buf : rb_buffer) (len : Z) : P (refos_error * list Z) :=
  let p := rb_dataspace buf in
  if localStart buf <=? localEnd buf then
    ram_dspace_read (Z.min (localEnd buf - localStart buf) len) p
      (w32 (localStart buf + RINGBUFFER_METADATA_SIZE))
  else
    let bytesRead := Z.min (w32 (rb_size buf - localStart buf)) len in
    let! ' (error, b) := ram_dspace_read bytesRead p (w32 (localStart buf + RINGBUFFER_METADATA_SIZE)) in
    if negb (bool_decide (error = ESUCCESS)) then kret (error, b)
    else
      let bytesRemain := Z.min (len - bytesRead) (localEnd buf) in
      if 0 <? bytesRemain then
        let! ' (error, b') := ram_dspace_read bytesRemain p RINGBUFFER_METADATA_SIZE in
        kret (error, b ++ b')
      else kret (ESUCCESS, b).

Definition rb_read (buf : rb_buffer) (len : Z) : P (refos_error * rb_buffer * list Z) :=
  if negb (bool_decide (rb_mode buf = RB_READONLY)) then kret (EACCESSDENIED, buf, [])
  else
    let contentSize := w32 (w32 (rb_size buf - 1) - rb_remaining_size buf) in
    let! ' (error, buf) :=
      if contentSize <? len then rb_update_local_end buf else kret (ESUCCESS, buf) in
    if negb (bool_decide (error = ESUCCESS)) then kret (error, buf, [])
    else
      let! ' (error, b) := rb_read_data buf len in
      if negb (bool_decide (error = ESUCCESS)) then kret (error, buf, b)
      else
        kassert (negb (rb_size buf =? 0)) ;;;
        let buf := set_localEnd (w32 (localEnd buf + len) mod rb_size buf) buf in
        let buf := set_localStart (w32 (localStart buf + Z.of_nat (length b)) mod rb_size buf) buf in
        let! ' (error, buf) := rb_update_local_start buf in
        kret (error, buf, b).
End RingBuffer.
