(* ===== verification/AddrSpace.v ===== *)
(** * The address spaces of processes

    Windows and mappings of a process ([apps/process_server/src/system/addrspace/vspace.c]):
    creating, resizing and deleting windows, mapping frames into a window of the
    same or of another process, mapping device frames, and unmapping.  An
    address space is named by its owner's identifier. *)

From S2P Require Import Prelude.
From S2P Require Import Word32.
From S2P Require Import DataStruct.
From S2P Require Import WindowAssoc.
From S2P Require Import Procserv.
From S2P Require Import Dataspace.
From S2P Require Import Memserv.

Section AddrSpace.
Context {E : Env}.

(** A list of windows is the one of the process [pid]. *)
Definition set_windows (pid : Z) (aw : w_associated_windowlist) : P unit :=
  updPcb pid (λ p, set_pcb_vspace (set_vs_windows aw (pcb_vspace p)) p).

(** ** Windows *)
(** The error and the window's identifier. *)
Definition vs_create_window (pid vaddr size permissions : Z) (cacheable : bool) : P (refos_error * Z) :=
  let! free := with_windows pid (λ aw, w_associate_check qsort aw vaddr size) in
  if negb free then kret (EINVALIDWINDOW, W_INVALID_WINID)
  else
    let! r := call (vspace_reserve_range_at pid vaddr size
                (w_convert_permission_to_caprights permissions) cacheable) in
    if r =? 0 then kret (EINVALIDWINDOW, W_INVALID_WINID)
    else
      let! window := w_create_window size pid permissions pid r cacheable in
      if window =? 0 then
        call_ (vspace_free_reservation r) ;;;
        kret (ENOMEM, W_INVALID_WINID)
      else
        let! w := getWindow window in
        kassert (negb (w_wID w =? W_INVALID_WINID)) ;;;
        let! error := with_windows pid (λ aw, w_associate malloc_ok aw (w_wID w) vaddr size) in
        kassert (bool_decide (error = ESUCCESS)) ;;;
        kret (ESUCCESS, w_wID w).

Definition vs_delete_window (pid wID : Z) : P unit :=
  let! awindow := find_winID pid wID in
  match awindow with
  | None => kret tt
  | Some _ =>
      vs_unmap_window pid wID ;;;
      let! p := getPcb pid in
      let! aw := kopt (w_unassociate (vs_windows (pcb_vspace p)) wID) in
      set_windows pid aw ;;;
      let! error := w_delete_window wID in
      kassert (bool_decide (error = ESUCCESS))
  end.

Definition vs_unmap (pid vaddr nFrames : Z) : P refos_error :=
  let! awindow := with_windows pid (λ aw,
    w_associate_find_range qsort aw vaddr (w32 (nFrames * REFOS_PAGE_SIZE))) in
  match awindow with
  | None => kret EINVALIDWINDOW
  | Some awindow =>
      let! window := w_get_window (aw_winID awindow) in
      kassert (negb (window =? 0)) ;;;
      let! w := getWindow window in
      kassert (w_vspace w =? pid) ;;;
      vs_unmap_frames pid vaddr nFrames ;;;
      kret ESUCCESS
  end.

(** [awindow->size = size], for the window found before. *)
Fixpoint set_found_size (wID size : Z) (a : list (option w_associated_window)) :
    list (option w_associated_window) :=
  match a with
  | Some w :: a =>
      if aw_winID w =? wID then Some (associated_window (aw_winID w) (aw_offset w) size) :: a
      else Some w :: set_found_size wID size a
  | o => o
  end.

(** The check of the new part when the window grows, the unmapping of the old
    one when it shrinks. *)
Definition resize_range (pid : Z) (awindow : w_associated_window) (size : Z) : P refos_error :=
  if aw_size awindow <? size then
    let! free := with_windows pid (λ aw,
      w_associate_check qsort aw (w32 (aw_offset awindow + aw_size awindow)) (size - aw_size awindow)) in
    kret (if free : bool then ESUCCESS else EINVALIDPARAM)
  else if size <? aw_size awindow then
    vs_unmap pid (REFOS_PAGE_ALIGN (w32 (aw_offset awindow + size))) (npages_of_size (aw_size awindow - size))
  else kret ESUCCESS.

Definition vs_resize_window (pid wID size : Z) : P refos_error :=
  if size =? 0 then kret EINVALIDPARAM
  else
    let! awindow := find_winID pid wID in
    match awindow with
    | None => kret EINVALIDWINDOW
    | Some awindow =>
        let! window := w_get_window wID in
        if window =? 0 then kret EINVALIDWINDOW
        else
          let! w := getWindow window in
          let! e := gets ps_env in
          kassert (aw_offset awindow =? reservation_start (w_reservation w) e) ;;;
          let! error := resize_range pid awindow size in
          if negb (bool_decide (error = ESUCCESS)) then kret error
          else
            let! error := w_resize_window window (aw_offset awindow) size in
            if negb (bool_decide (error = ESUCCESS)) then kret error
            else
              let! p := getPcb pid in
              let aw := vs_windows (pcb_vspace p) in
              set_windows pid (windowlist (set_found_size wID size (associated aw))
                (associatedVectorSize aw) (numIndex aw) (updated aw)) ;;;
              kret ESUCCESS
    end.

(** ** Mapping *)
(** Whether a page from [i] on has a frame, among the next [n]. *)
Fixpoint some_mapped (n : nat) (pid vaddr i : Z) (e : env) : bool :=
  match n with
  | O => false
  | S n =>
      negb (vspace_get_cap pid (w32 (vaddr + i * REFOS_PAGE_SIZE)) e =? 0) ||
      some_mapped n pid vaddr (i + 1) e
  end.

(** A copy of every capability, and whether all were made. *)
Fixpoint copy_frames (frames : list Z) : P (list Z * bool) :=
  match frames with
  | [] => kret ([], true)
  | frame :: frames =>
      let! slot := call vka_cspace_alloc_path in
      match slot with
      | None => kret ([], false)
      | Some slot =>
          if slot =? 0 then kret ([], false)
          else
            let! _ := call (vka_cnode_copy slot frame) in
            let! ' (slots, ok) := copy_frames frames in
            kret (slot :: slots, ok)
      end
  end.

Definition sizeof_seL4_CPtr : Z := 4.

Definition vs_map (pid vaddr : Z) (frames : list Z) : P refos_error :=
  let nFrames := Z.of_nat (length frames) in
  let vaddr := REFOS_PAGE_ALIGN vaddr in
  let! awindow := with_windows pid (λ aw,
    w_associate_find_range qsort aw vaddr (w32 (nFrames * REFOS_PAGE_SIZE))) in
  match awindow with
  | None => kret EINVALIDWINDOW
  | Some awindow =>
      let! window := w_get_window (aw_winID awindow) in
      kassert (negb (window =? 0)) ;;;
      let! w := getWindow window in
      kassert (w_vspace w =? pid) ;;;
      let! e := gets ps_env in
      if some_mapped (length frames) pid vaddr 0 e then kret EUNMAPFIRST
      else if negb (malloc_ok (w32 (sizeof_seL4_CPtr * nFrames))) then kret ENOMEM
      else
        let! ' (frameCopy, ok) := copy_frames frames in
        if negb ok then kfor frameCopy release_slot ;;; kret ENOMEM
        else
          let! ok := call (vspace_map_pages_at_vaddr pid frameCopy vaddr (w_reservation w)) in
          if negb ok then kfor frameCopy release_slot ;;; kret EUNMAPFIRST
          else procserv_flush frameCopy ;;; kret ESUCCESS
  end.

(** The error and the owner of the window. *)
Definition vs_map_across_vspace (pidSrc vaddrSrc windowDest windowDestOffset : Z) : P (refos_error * Z) :=
  let! e := gets ps_env in
  let frameCap := vspace_get_cap pidSrc vaddrSrc e in
  if frameCap =? 0 then kret (EINVALIDPARAM, PID_NULL)
  else
    let! w := getWindow windowDest in
    if w_size w <=? windowDestOffset then kret (EINVALIDPARAM, PID_NULL)
    else
      let! clientPCB := pid_get_pcb (w_clientOwnerPID w) in
      match clientPCB with
      | None => kret (EINVALIDWINDOW, PID_NULL)
      | Some _ =>
          let client := w_clientOwnerPID w in
          let! wa := find_winID client (w_wID w) in
          match wa with
          | None => kret (EINVALIDWINDOW, client)
          | Some wa =>
              let! error := vs_map client (w32 (aw_offset wa + windowDestOffset)) [frameCap] in
              kret (error, client)
          end
      end.

Definition vs_map_device (pid window windowOffset paddr size : Z) (cached : bool) : P refos_error :=
  let! w := getWindow window in
  kassert (size =? REFOS_PAGE_SIZE) ;;;
  if w_size w <? w32 (windowOffset + size) then kret EINVALIDPARAM
  else
    let! clientPCB := pid_get_pcb (w_clientOwnerPID w) in
    match clientPCB with
    | None => kret EINVALID
    | Some _ =>
        if negb (w_clientOwnerPID w =? pid) then kret EACCESSDENIED
        else
          let! wa := find_winID (w_clientOwnerPID w) (w_wID w) in
          match wa with
          | None => kret EINVALIDWINDOW
          | Some wa =>
              if negb (bool_decide (cached = w_cacheable w)) then kret EACCESSDENIED
              else
                let! deviceFrame := procserv_find_device paddr size in
                if deviceFrame =? 0 then kret EFILENOTFOUND
                else
                  let! error := vs_map pid (w32 (aw_offset wa + windowOffset)) [deviceFrame] in
                  if negb (bool_decide (error = ESUCCESS)) then kret error
                  else
                    call_ (vka_cnode_delete deviceFrame) ;;;
                    call_ (vka_cspace_free deviceFrame) ;;;
                    kret ESUCCESS
          end
    end.

(** The slot of the frame at an address, 0 for none. *)
Definition vs_get_frame (pid vaddr : Z) : P Z :=
  let! e := gets ps_env in kret (vspace_get_cap pid vaddr e).
End AddrSpace.
