(* ===== verification/Process.v ===== *)
(** * Processes

    Process identifiers ([system/process/pid.c]), page directories
    ([system/addrspace/pagedir.c]), the life of an address space ([vspace.c]),
    threads ([thread.c]), watched clients ([proc_client_watch.c]) and processes
    ([process.c]).  The pool of identifiers names the process control blocks;
    an address space is in the control block of its owner, and one that was
    released has no references, which stands for its cleared magic number. *)

From S2P Require Import Prelude.
From S2P Require Import Word32.
From S2P Require Import DataStruct.
From S2P Require Import WindowAssoc.
From S2P Require Import Procserv.
From S2P Require Import Dataspace.
From S2P Require Import Memserv.
From S2P Require Import RingBuffer.
From S2P Require Import AddrSpace.

(** The contents of cleared memory. *)
Definition zero_cvector {A} : cvector_t A := cvector [] 0 0 0.
Definition zero_vspace : vs_vspace := VSpace 0 0 (windowlist [] 0 0 false) 0 0 zero_cvector.
Definition zero_pcb : proc_pcb :=
  ProcPcb 0 zero_vspace (WatchList zero_cvector zero_cvector) 0 None 0 0 0 0 false 0 false zero_cvector.

Definition REFOS_CSPACE_RADIX : Z := 16.
Definition REFOS_CSPACE_GUARD : Z := 32 - REFOS_CSPACE_RADIX.
Definition REFOS_CSPACE : Z := 2.
Definition REFOS_PROCSERV_EP : Z := 3.
Definition REFOS_LIVENESS : Z := 4.
Definition REFOS_THREAD_TCB : Z := 8.
Definition PD_ID_BASE : Z := 1.
Definition PD_MAX : Z := 64.
Definition sizeof_cspacepath : Z := 28.

Section Process.
Context {E : Env}.

(** ** Process identifiers *)
Definition pid_init : P unit :=
  modify (λ s, upd_pcbs ∅ (upd_pids (cpool_init PID_START PID_MAX) s)).

Definition free_pid (pid : Z) : P unit :=
  let! pl := gets pids in
  let! pl := kopt (cpool_free malloc_ok pl pid) in
  modify (upd_pids pl).

Definition pid_alloc : P Z :=
  let! pl := gets pids in
  let! ' (pl, pid) := kopt (cpool_alloc malloc_ok pl) in
  modify (upd_pids pl) ;;;
  if (pid <? PID_START) || (PID_MAX <=? pid) then kret PID_NULL
  else
    let! m := gets pcbs in
    kassert (bool_decide (m !! pid = None)) ;;;
    let! o := call kmalloc_object in
    match o with
    | None => free_pid pid ;;; kret PID_NULL
    | Some _ => modify (λ s, upd_pcbs (<[pid := zero_pcb]> (pcbs s)) s) ;;; kret pid
    end.

Definition pid_free (pid : Z) : P unit :=
  if (pid <? PID_START) || (PID_MAX <=? pid) then kret tt
  else
    let! m := gets pcbs in
    match m !! pid with
    | None => kret tt
    | Some _ => modify (λ s, upd_pcbs (delete pid (pcbs s)) s) ;;; free_pid pid
    end.

Definition pid_get_badge (pid : Z) : option Z :=
  if (pid <? PID_START) || (PID_MAX <=? pid) then None else Some (pid + PID_BADGE_BASE).
Definition pid_get_liveness_badge (pid : Z) : option Z :=
  if (pid <? PID_START) || (PID_MAX <=? pid) then None else Some (pid + PID_LIVENESS_BADGE_BASE).
Definition pid_get_pcb_from_badge (badge : Z) : P (option proc_pcb) :=
  if badge <? PID_BADGE_BASE then kret None else pid_get_pcb (badge - PID_BADGE_BASE).

Definition pid_iterate (callback : Z → P unit) : P unit :=
  kfor (seqZ PID_START (PID_MAX - PID_START)) (λ i,
    let! pcb := pid_get_pcb i in
    match pcb with Some _ => callback i | None => kret tt end).

(** ** Page directories *)
Definition upd_pool (pl : cpool_t) (l : pd_list) : pd_list := PdList pl (pd l) (cnode l).
Definition upd_cnodes (c : list Z) (l : pd_list) : pd_list := PdList (PDpool l) (pd l) c.

Definition pd_init : P unit :=
  modify (upd_PDList (PdList (cpool_init PD_ID_BASE (PD_ID_BASE + PD_MAX)) [] [])) ;;;
  kfor (seqZ 0 PD_MAX) (λ _,
    let! p := call vka_alloc_page_directory in
    let! p := kopt p in
    kassert (negb (p =? 0)) ;;;
    let! ok := call (seL4_ARCH_ASIDPool_Assign p) in
    kassert ok ;;;
    let! c := call (vka_alloc_cnode_object REFOS_CSPACE_RADIX) in
    let! c := kopt c in
    kassert (negb (c =? 0)) ;;;
    modify (λ s, upd_PDList (PdList (PDpool (PDList s)) (pd (PDList s) ++ [p]) (cnode (PDList s) ++ [c])) s)).

(** A page directory and a CNode, 0 for none. *)
Definition pd_assign : P (Z * Z) :=
  let! l := gets PDList in
  let! ' (pl, pdID) := kopt (cpool_alloc malloc_ok (PDpool l)) in
  modify (upd_PDList (upd_pool pl l)) ;;;
  if pdID =? 0 then kret (0, 0)
  else
    let! p := kopt (znth (pd l) (pdID - 1)) in
    let! c := kopt (znth (cnode l) (pdID - 1)) in
    kret (p, c).

(** The first index from [i] on. *)
Fixpoint find_pd (pds : list Z) (i pdPtr : Z) : option Z :=
  match pds with
  | [] => None
  | p :: pds => if p =? pdPtr then Some i else find_pd pds (i + 1) pdPtr
  end.

Definition pd_free (pdPtr : Z) : P unit :=
  let! l := gets PDList in
  match find_pd (pd l) 0 pdPtr with
  | None => kret tt
  | Some idx =>
      let! free := kopt (cpool_check (PDpool l) (idx + 1)) in
      if free : bool then kret tt
      else
        call_ (vka_cnode_revoke pdPtr) ;;;
        let! c := kopt (znth (cnode l) idx) in
        call_ (vka_cnode_revoke c) ;;;
        call_ (vka_cnode_delete c) ;;;
        call_ (vka_free_object c) ;;;
        let! c := call (vka_alloc_cnode_object REFOS_CSPACE_RADIX) in
        match c with
        | None => kret tt
        | Some c =>
            let! cs := kopt (store (cnode l) idx c) in
            let! pl := kopt (cpool_free malloc_ok (PDpool l) (idx + 1)) in
            modify (upd_PDList (PdList pl (pd l) cs))
        end
  end.

(** ** The life of an address space *)
Definition upd_vspace (pid : Z) (f : vs_vspace → vs_vspace) : P unit :=
  updPcb pid (λ p, set_pcb_vspace (f (pcb_vspace p)) p).

Definition vs_initialise (pid : Z) : P refos_error :=
  let! windows := kopt (w_associate_init malloc_ok) in
  upd_vspace pid (λ _, VSpace 1 pid windows 0 0 cvector_init) ;;;
  let! ' (kpdObject, kcnodeObject) := pd_assign in
  if (kpdObject =? 0) || (kcnodeObject =? 0) then kret ENOMEM
  else
    upd_vspace pid (λ v, VSpace (vs_ref v) (vs_pid v) (vs_windows v) kpdObject (vs_cspace v)
      (kobjVSpaceAllocatedFreelist v)) ;;;
    let! cspace := call vka_cspace_alloc_path in
    match cspace with
    | None => call_ (vka_cnode_revoke kcnodeObject) ;;; pd_free kpdObject ;;; kret ENOMEM
    | Some cspace =>
        upd_vspace pid (λ v, VSpace (vs_ref v) (vs_pid v) (vs_windows v) (vs_kpd v) cspace
          (kobjVSpaceAllocatedFreelist v)) ;;;
        let! ok := call (vka_cnode_mint 0 cspace kcnodeObject REFOS_CSPACE_GUARD) in
        kassert ok ;;;
        let exit3 (error : refos_error) :=
          call_ (vka_cnode_delete cspace) ;;;
          call_ (vka_cspace_free cspace) ;;;
          call_ (vka_cnode_revoke kcnodeObject) ;;;
          pd_free kpdObject ;;;
          kret error in
        let! ok := call (seL4_CNode_Copy cspace REFOS_CSPACE cspace) in
        if negb ok then exit3 EINVALID
        else
          let! ok := call (sel4utils_get_vspace pid kpdObject) in
          if negb ok then exit3 ENOMEM else kret ESUCCESS
    end.

(** The objects tracked from [i] on, among [n]. *)
Fixpoint release_kobjs (n : nat) (v : cvector_t Z) (i : Z) : P (cvector_t Z) :=
  match n with
  | O => kret v
  | S n =>
      let! kobj := kopt (cvector_get v i) in
      kassert (negb (kobj =? 0)) ;;;
      call_ (vka_cnode_revoke kobj) ;;;
      call_ (vka_cnode_delete kobj) ;;;
      call_ (vka_free_object kobj) ;;;
      let! v := kopt (cvector_set v i 0) in
      release_kobjs n v (i + 1)
  end.

Definition vs_release (pid : Z) : P unit :=
  let! p := getPcb pid in
  kfor (seqZ 0 (numIndex (vs_windows (pcb_vspace p)))) (λ i,
    let! p := getPcb pid in
    let! w := kopt (fetch (associated (vs_windows (pcb_vspace p))) i) in
    vs_unmap_window pid (aw_winID w)) ;;;
  w_associate_release_associated_all_windows pid ;;;
  let! p := getPcb pid in
  let v := kobjVSpaceAllocatedFreelist (pcb_vspace p) in
  let! v := release_kobjs (Z.to_nat (cvector_count v)) v 0 in
  call_ (vspace_tear_down pid) ;;;
  release_slot (vs_cspace (pcb_vspace p)) ;;;
  pd_free (vs_kpd (pcb_vspace p)) ;;;
  upd_vspace pid (λ _, zero_vspace).

(** The assertion is the one on the magic number. *)
Definition vs_ref_inc (pid : Z) : P unit :=
  let! p := getPcb pid in
  kassert (0 <? vs_ref (pcb_vspace p)) ;;;
  upd_vspace pid (λ v, set_vs_ref (w32 (vs_ref v + 1)) v).
Definition vs_unref (pid : Z) : P unit :=
  let! p := getPcb pid in
  kassert (0 <? vs_ref (pcb_vspace p)) ;;;
  upd_vspace pid (λ v, set_vs_ref (vs_ref v - 1) v) ;;;
  kwhen (vs_ref (pcb_vspace p) - 1 <=? 0) (vs_release pid).

(** Tracking an object that is freed with the address space; it leaks when
    there is no memory to track it. *)
Definition vs_track_obj (pid kobj : Z) : P unit :=
  let! o := call kmalloc_object in
  match o with
  | None => kret tt
  | Some _ =>
      let! p := getPcb pid in
      let! ' (v, _) := kopt (cvector_add malloc_ok (kobjVSpaceAllocatedFreelist (pcb_vspace p)) kobj) in
      upd_vspace pid (set_vs_kobjs v)
  end.

(** ** Threads *)
Definition set_thread (t : Z) (v : proc_tcb) : P unit :=
  modify (λ s, upd_ps_threads (<[t := v]> (ps_threads s)) s).
Definition zero_proc_tcb : proc_tcb := ProcTcb 0 0 0 0.
Definition getThread (t : Z) : P proc_tcb :=
  let! m := gets ps_threads in kopt (m !! t).

Definition thread_config (t priority entry vspace : Z) : P refos_error :=
  if entry =? 0 then set_thread t zero_proc_tcb ;;; kret EINVALIDPARAM
  else
    vs_ref_inc vspace ;;;
    let! p := getPcb vspace in
    let! o := call (sel4utils_configure_thread vspace priority (vs_cspace (pcb_vspace p))) in
    match o with
    | None => set_thread t zero_proc_tcb ;;; vs_unref vspace ;;; kret EINVALID
    | Some tcb => set_thread t (ProcTcb priority vspace tcb entry) ;;; kret ESUCCESS
    end.

Definition thread_start (t : Z) : P refos_error :=
  let! thread := getThread t in
  kassert (negb (entryPoint thread =? 0)) ;;;
  let! ok := call (sel4utils_internal_start_thread (thread_tcb_obj thread) (entryPoint thread)) in
  kret (if ok : bool then ESUCCESS else EINVALID).

Definition thread_release (t : Z) : P unit :=
  let! thread := getThread t in
  kassert (negb (vspaceRef thread =? 0)) ;;;
  call_ (vka_cnode_revoke (thread_tcb_obj thread)) ;;;
  call_ (sel4utils_clean_up_thread (vspaceRef thread) (thread_tcb_obj thread)) ;;;
  vs_unref (vspaceRef thread) ;;;
  set_thread t zero_proc_tcb.
Definition free_thread (t : Z) : P unit :=
  modify (λ s, upd_ps_threads (delete t (ps_threads s)) s).
End Process.
