(* ===== verification/Proc.v ===== *)
(** * Watched clients, buffers and the exit of processes

    The rest of [system/process/]: the list of clients whose death a process is
    told of ([proc_client_watch.c]), the parameter and notification buffers of a
    process, its start and its release ([process.c]).  Names for debugging are
    not kept. *)

From S2P Require Import Prelude.
From S2P Require Import Word32.
From S2P Require Import DataStruct.
From S2P Require Import WindowAssoc.
From S2P Require Import Procserv.
From S2P Require Import Dataspace.
From S2P Require Import Memserv.
From S2P Require Import RingBuffer.
From S2P Require Import AddrSpace.
From S2P Require Import Process.

Definition PROCSERV_NOTIFICATION_MAGIC : Z := 0xB0BA11CE.
Definition PROCSERV_NOTIFY_FAULT_DELEGATION : Z := 0.
Definition PROCSERV_NOTIFY_CONTENT_INIT : Z := 1.
Definition PROCSERV_NOTIFY_DEATH : Z := 2.
Definition PROCESS_STATICPARAM_ADDR : Z := 0xDFF30000.
Definition PROCESS_STATICPARAM_SIZE : Z := 0x1000.

Section Proc.
Context {E : Env}.

(** ** Notifications *)

(** A notification of nine words, the arguments not given uninitialised. *)
Definition proc_notification (label : Z) (args : list Z) : P (list Z) :=
  let! e := gets ps_env in
  let n := Z.of_nat (length args) in
  let rest := (λ i, uninitialised i e) <$> seqZ n (7 - n) in
  kret (concat (bytes_of_word <$> [PROCSERV_NOTIFICATION_MAGIC; label] ++ args ++ rest)).

Definition dispatcher_notify (endpoint : Z) : P unit := call_ (seL4_Send endpoint).

(** Writing to the notification buffer [buf] of the process [pid]. *)
Definition notify_buffer (pid : Z) (buf : rb_buffer) (msg : list Z) : P refos_error :=
  let! ' (error, buf) := rb_write buf msg (Z.of_nat (length msg)) in
  updPcb pid (set_notificationBuffer (Some buf)) ;;;
  kret error.

(** ** Watched clients *)
Definition client_watch_free_ep_cslot (ep : Z) : P unit :=
  kassert (negb (ep =? 0)) ;;; release_slot ep.

(** The first index from [i] on among [n], -1 for none. *)
Fixpoint watch_find_loop (n : nat) (v : cvector_t Z) (i pid : Z) : option Z :=
  match n with
  | O => Some (-1)
  | S n =>
      let? x := cvector_get v i in
      if x =? pid then Some i else watch_find_loop n v (i + 1) pid
  end.
Definition client_watch_find (wl : proc_watch_list) (pid : Z) : option Z :=
  watch_find_loop (Z.to_nat (cvector_count (clientList wl))) (clientList wl) 0 pid.

(** The watch list of the process [owner]. *)
Definition get_watch (owner : Z) : P proc_watch_list :=
  let! p := getPcb owner in kret (clientWatchList p).
Definition set_watch (owner : Z) (wl : proc_watch_list) : P unit :=
  updPcb owner (set_clientWatchList wl).

Definition client_watch_init (owner : Z) : P unit :=
  set_watch owner (WatchList cvector_init cvector_init).

Fixpoint release_eps (n : nat) (v : cvector_t Z) (i : Z) : P unit :=
  match n with
  | O => kret tt
  | S n =>
      let! ep := kopt (cvector_get v i) in
      client_watch_free_ep_cslot ep ;;; release_eps n v (i + 1)
  end.
Definition client_watch_release (owner : Z) : P unit :=
  let! wl := get_watch owner in
  release_eps (Z.to_nat (cvector_count (endpointNotifyList wl))) (endpointNotifyList wl) 0 ;;;
  set_watch owner (WatchList (cvector_free (clientList wl)) (cvector_free (endpointNotifyList wl))).

Definition client_watch_get (owner pid : Z) : P Z :=
  let! wl := get_watch owner in
  let! idx := kopt (client_watch_find wl pid) in
  if idx =? -1 then kret 0
  else
    let! ep := kopt (cvector_get (endpointNotifyList wl) idx) in
    kassert (negb (ep =? 0)) ;;; kret ep.

Definition client_unwatch (owner pid : Z) : P unit :=
  let! wl := get_watch owner in
  let! idx := kopt (client_watch_find wl pid) in
  if idx =? -1 then kret tt
  else
    let! ep := kopt (cvector_get (endpointNotifyList wl) idx) in
    client_watch_free_ep_cslot ep ;;;
    let! eps := kopt (cvector_delete malloc_ok (endpointNotifyList wl) idx) in
    let! clients := kopt (cvector_delete malloc_ok (clientList wl) idx) in
    set_watch owner (WatchList clients eps).

Definition client_watch (owner pid notifyEP : Z) : P refos_error :=
  if notifyEP =? 0 then kret EINVALIDPARAM
  else if negb (malloc_ok sizeof_cspacepath) then kret ENOMEM
  else
    let! wl := get_watch owner in
    let! idx := kopt (client_watch_find wl pid) in
    kwhen (negb (idx =? -1)) (client_unwatch owner pid) ;;;
    let! wl := get_watch owner in
    let! ' (clients, _) := kopt (cvector_add malloc_ok (clientList wl) pid) in
    let! ' (eps, _) := kopt (cvector_add malloc_ok (endpointNotifyList wl) notifyEP) in
    set_watch owner (WatchList clients eps) ;;;
    kassert (cvector_count clients =? cvector_count eps) ;;;
    kret ESUCCESS.

(** Telling the process [pid] of the death of [deathPID]. *)
Definition client_watch_notify_death_callback (deathPID pid : Z) : P unit :=
  let! pcb := getPcb pid in
  if pcb_pid pcb =? deathPID then kret tt
  else
    let! ep := client_watch_get pid deathPID in
    if ep =? 0 then kret tt
    else
      match notificationBuffer pcb with
      | None => kret tt
      | Some buf =>
          let! msg := proc_notification PROCSERV_NOTIFY_DEATH [deathPID] in
          let! error := notify_buffer pid buf msg in
          if negb (bool_decide (error = ESUCCESS)) then kret tt
          else dispatcher_notify ep ;;; client_unwatch pid deathPID
      end.

(** ** Buffers *)

(** [dspace] is 0 for NULL. *)
Definition proc_set_parambuffer (pid dspace : Z) : P unit :=
  let! p := getPcb pid in
  if paramBuffer p =? dspace then kret tt
  else
    kwhen (negb (paramBuffer p =? 0))
      (let! d := getDspace (paramBuffer p) in
       ram_dspace_unref (rds_ID d) ;;;
       updPcb pid (set_paramBuffer 0)) ;;;
    kwhen (negb (dspace =? 0))
      (let! d := getDspace dspace in ram_dspace_ref (rds_ID d)) ;;;
    updPcb pid (set_paramBuffer dspace).

Definition drop_notificationBuffer (pid : Z) : P unit :=
  let! p := getPcb pid in
  match notificationBuffer p with
  | Some rb => rb_delete rb ;;; updPcb pid (set_notificationBuffer None)
  | None => kret tt
  end.
Definition proc_set_notificationbuffer (pid dspace : Z) : P refos_error :=
  drop_notificationBuffer pid ;;;
  if dspace =? 0 then kret ESUCCESS
  else
    let! rb := rb_create dspace RB_WRITEONLY in
    updPcb pid (set_notificationBuffer rb) ;;;
    kret (if bool_decide (rb = None) then ENOMEM else ESUCCESS).

(** The process lets go of a dataspace that is to be deleted. *)
Definition proc_dspace_delete_callback (dspace pid : Z) : P unit :=
  let! p := getPcb pid in
  let! d := getDspace dspace in
  kwhen (negb (paramBuffer p =? 0))
    (let! b := getDspace (paramBuffer p) in
     kwhen ((paramBuffer p =? dspace) || (rds_ID b =? rds_ID d))
       (proc_set_parambuffer pid 0)) ;;;
  match notificationBuffer p with
  | None => kret tt
  | Some rb =>
      let! b := getDspace (rb_dataspace rb) in
      kwhen ((rb_dataspace rb =? dspace) || (rds_ID b =? rds_ID d)) (drop_notificationBuffer pid)
  end.

(** ** Starting a process *)
Definition proc_get_thread (pid tindex : Z) : P Z :=
  let! p := getPcb pid in
  if cvector_count (threads p) <=? tindex then kret 0
  else
    let! t := kopt (cvector_get (threads p) tindex) in
    let! thread := getThread t in
    kassert (negb (entryPoint thread =? 0)) ;;;
    kret t.

Definition proc_start_thread (pid tindex : Z) : P refos_error :=
  let! p := getPcb pid in
  kassert (1 <=? cvector_count (threads p)) ;;;
  let! t := kopt (cvector_get (threads p) tindex) in
  kassert (negb (t =? 0)) ;;;
  thread_start t.

(** A capability with a badge in a slot of the process. *)
Definition proc_pass_badge (pid destCSlot ep badge : Z) : P unit :=
  let! p := getPcb pid in
  let! ok := call (vka_cnode_mint (vs_cspace (pcb_vspace p)) destCSlot ep badge) in
  kassert ok.

(** [param] is a string without its end. *)
Definition proc_staticparam_create_and_set (pid : Z) (param : list Z) : P refos_error :=
  let paramLen := Z.of_nat (length param) in
  kassert ((paramLen <=? PROCESS_STATICPARAM_SIZE) && (paramLen <=? REFOS_PAGE_SIZE)) ;;;
  let! frame := call vka_alloc_frame in
  match frame with
  | None => kret ENOMEM
  | Some frame =>
      if frame =? 0 then kret ENOMEM
      else
        setFrame frame (repeat 0 (Z.to_nat REFOS_PAGE_SIZE)) ;;;
        let free_frame (error : refos_error) :=
          call_ (vka_free_object frame) ;;;
          modify (λ s, upd_ps_frames (delete frame (ps_frames s)) s) ;;;
          kret error in
        let! error := procserv_frame_write frame param paramLen 0 in
        if negb (bool_decide (error = ESUCCESS)) then free_frame ENOMEM
        else
          let! ' (error, windowID) := vs_create_window pid PROCESS_STATICPARAM_ADDR
            PROCESS_STATICPARAM_SIZE (Z.lor W_PERMISSION_WRITE W_PERMISSION_READ) true in
          if negb (bool_decide (error = ESUCCESS)) then free_frame error
          else
            let! error := vs_map pid PROCESS_STATICPARAM_ADDR [frame] in
            if negb (bool_decide (error = ESUCCESS)) then
              kwhen (negb (windowID =? W_INVALID_WINID)) (vs_delete_window pid windowID) ;;;
              free_frame error
            else kret ESUCCESS
  end.

Definition proc_setup_environment (pid : Z) (param : list Z) : P unit :=
  let! _ := proc_staticparam_create_and_set pid param in
  let! p := getPcb pid in
  let! badge := kopt (pid_get_badge (pcb_pid p)) in
  proc_pass_badge pid REFOS_PROCSERV_EP procserv_endpoint badge ;;;
  let! badge := kopt (pid_get_liveness_badge (pcb_pid p)) in
  proc_pass_badge pid REFOS_LIVENESS procserv_endpoint badge ;;;
  let! t0 := proc_get_thread pid 0 in
  kassert (negb (t0 =? 0)) ;;;
  let! thread := getThread t0 in
  proc_pass_badge pid REFOS_THREAD_TCB (thread_tcb_obj thread) 0.

(** [imageName] is a string that is not NULL. *)
Definition proc_config_new (pid priority : Z) (imageName : list Z) (systemCapabilitiesMask : Z) :
    P refos_error :=
  updPcb pid (λ _, ProcPcb pid zero_vspace (WatchList zero_cvector zero_cvector) 0 None
    systemCapabilitiesMask 0 0 0 false 0 false zero_cvector) ;;;
  let exit0 (error : refos_error) := updPcb pid (λ _, zero_pcb) ;;; kret error in
  let exit1 (error : refos_error) := vs_unref pid ;;; exit0 error in
  let! error := vs_initialise pid in
  if negb (bool_decide (error = ESUCCESS)) then exit0 error
  else
    updPcb pid (set_pcb_threads cvector_init) ;;;
    let! thread := call kmalloc_object in
    match thread with
    | None => exit1 ENOMEM
    | Some thread =>
        let! entry := call (sel4utils_elf_load pid imageName) in
        if entry =? 0 then exit1 EINVALIDPARAM
        else
          let! error := thread_config thread priority entry pid in
          if negb (bool_decide (error = ESUCCESS)) then free_thread thread ;;; exit1 error
          else
            let! p := getPcb pid in
            let! ' (v, _) := kopt (cvector_add malloc_ok (threads p) thread) in
            updPcb pid (set_pcb_threads v) ;;;
            kassert (cvector_count v =? 1) ;;;
            client_watch_init pid ;;;
            kret ESUCCESS
    end.

Definition proc_load_direct (name : list Z) (priority : Z) (param : list Z)
    (parent systemCapabilitiesMask : Z) : P refos_error :=
  let! npid := pid_alloc in
  if npid =? PID_NULL then kret ENOMEM
  else
    let! error := proc_config_new npid (priority mod 256) name systemCapabilitiesMask in
    if negb (bool_decide (error = ESUCCESS)) then pid_free npid ;;; kret error
    else
      updPcb npid (set_parentPID parent) ;;;
      proc_setup_environment npid param ;;;
      let! error := proc_start_thread npid 0 in
      if negb (bool_decide (error = ESUCCESS)) then pid_free npid ;;; kret error
      else kret ESUCCESS.

Definition proc_nice (pid tindex priority : Z) : P refos_error :=
  let! p := getPcb pid in
  kassert (1 <=? cvector_count (threads p)) ;;;
  let! t := kopt (cvector_get (threads p) tindex) in
  if t =? 0 then kret EINVALIDPARAM
  else
    let! thread := getThread t in
    kassert (negb (thread_tcb_obj thread =? 0)) ;;;
    let! ok := call (seL4_TCB_SetPriority (thread_tcb_obj thread) priority) in
    if negb ok then kret EINVALID
    else
      (* the field has eight bits *)
      set_thread t (ProcTcb (priority mod 256) (vspaceRef thread) (thread_tcb_obj thread) (entryPoint thread)) ;;;
      kret ESUCCESS.

(** A further thread of the process, and its index, -1 for none. *)
Definition proc_clone (pid stackAddr entry : Z) : P (refos_error * Z) :=
  if (stackAddr =? 0) || (entry =? 0) then kret (EINVALIDPARAM, -1)
  else
    let! t := proc_get_thread pid 0 in
    if t =? 0 then kret (EINVALID, -1)
    else
      let! first := getThread t in
      let! thread := call kmalloc_object in
      match thread with
      | None => kret (ENOMEM, -1)
      | Some thread =>
          let! error := thread_config thread (thread_priority first) entry pid in
          if negb (bool_decide (error = ESUCCESS)) then free_thread thread ;;; kret (error, -1)
          else
            let! p := getPcb pid in
            let tID := cvector_count (threads p) in
            let! ' (v, _) := kopt (cvector_add malloc_ok (threads p) thread) in
            updPcb pid (set_pcb_threads v) ;;;
            let! error := proc_start_thread pid tID in
            if negb (bool_decide (error = ESUCCESS)) then
              let! v := kopt (cvector_delete malloc_ok v tID) in
              updPcb pid (set_pcb_threads v) ;;;
              thread_release thread ;;;
              free_thread thread ;;;
              kret (error, tID)
            else kret (ESUCCESS, tID)
      end.

(** ** Saved callers *)
Definition drop_faultReply (pid : Z) : P unit :=
  let! p := getPcb pid in
  kwhen (negb (faultReply p =? 0))
    (call_ (vka_cnode_delete (faultReply p)) ;;;
     call_ (vka_cspace_free (faultReply p)) ;;;
     updPcb pid (set_faultReply 0)).

Definition proc_save_caller (pid : Z) : P refos_error :=
  drop_faultReply pid ;;;
  let! slot := call vka_cspace_alloc_path in
  match slot with
  | None => kret ENOMEM
  | Some slot =>
      updPcb pid (set_faultReply slot) ;;;
      kassert (negb (slot =? 0)) ;;;
      let! ok := call (vka_cnode_saveCaller slot) in
      kret (if ok : bool then ESUCCESS else EINVALID)
  end.

Definition proc_fault_reply (pid : Z) : P unit :=
  let! p := getPcb pid in
  if faultReply p =? 0 then kret tt
  else call_ (seL4_Send (faultReply p)) ;;; drop_faultReply pid.

Definition proc_parent_reply (pid : Z) : P unit :=
  let! p := getPcb pid in
  kassert (negb (parentPID p =? PID_NULL)) ;;;
  let! parentPCB := pid_get_pcb (parentPID p) in
  match parentPCB with
  | None => kret tt
  | Some parentPCB =>
      if negb (parentWaiting parentPCB) then kret tt
      else if faultReply parentPCB =? 0 then kret tt
      else
        updPcb (parentPID p) (λ q, set_rpc_reply (faultReply q) (set_rpc_skip_reply false q)) ;;;
        call_ (reply_proc_new_proc (faultReply parentPCB) (exitStatus p)) ;;;
        drop_faultReply (parentPID p)
  end.

(** ** Exit *)
Definition proc_purge_pid_callback (deathPID pid : Z) : P unit :=
  let! p := getPcb pid in
  if pcb_pid p =? deathPID then kret tt
  else
    kwhen (parentPID p =? deathPID)
      (updPcb pid (λ p, set_parentWaiting false (set_parentPID PID_NULL p))).

Fixpoint release_threads (n : nat) (v : cvector_t Z) (i : Z) : P unit :=
  match n with
  | O => kret tt
  | S n =>
      let! t := kopt (cvector_get v i) in
      thread_release t ;;; free_thread t ;;;
      release_threads n v (i + 1)
  end.

Definition proc_release (pid : Z) : P unit :=
  updPcb pid (λ p, set_rpc_reply 0 (set_rpc_skip_reply false p)) ;;;
  let! p := getPcb pid in
  let me := pcb_pid p in
  pid_iterate (client_watch_notify_death_callback me) ;;;
  pid_iterate (proc_purge_pid_callback me) ;;;
  let! p := getPcb pid in
  kwhen (negb (parentPID p =? PID_NULL)) (proc_parent_reply pid) ;;;
  let! p := getPcb pid in
  kwhen (negb (paramBuffer p =? 0))
    (let! d := getDspace (paramBuffer p) in
     ram_dspace_unref (rds_ID d) ;;;
     updPcb pid (set_paramBuffer 0)) ;;;
  drop_notificationBuffer pid ;;;
  drop_faultReply pid ;;;
  vs_unref pid ;;;
  let! p := getPcb pid in
  release_threads (Z.to_nat (cvector_count (threads p))) (threads p) 0 ;;;
  updPcb pid (set_pcb_threads (cvector_free (threads p))) ;;;
  updPcb pid (λ p, set_systemCapabilitiesMask 0 (set_pcb_pid 0 p)).

Definition proc_queue_release (pid : Z) : P unit :=
  let! x := gets exitProcessPID in
  kassert (x =? PID_NULL) ;;;
  let! p := getPcb pid in
  modify (upd_exitProcessPID (pcb_pid p)).

Definition proc_syscall_postaction : P unit :=
  let! x := gets exitProcessPID in
  if x =? PID_NULL then kret tt
  else
    let! pcb := pid_get_pcb x in
    match pcb with
    | None => modify (upd_exitProcessPID PID_NULL)
    | Some pcb =>
        updPcb x (set_rpc_skip_reply true) ;;;
        proc_release x ;;;
        pid_free (pcb_pid pcb) ;;;
        modify (upd_exitProcessPID PID_NULL)
    end.
End Proc.
