(* ===== verification/Share.v ===== *)
(** * What servers share with the process server

    The library of RefOS servers, [libs/librefos/src/]: rings of bytes in mapped
    memory ([share.c]), the slots of a process's own CSpace
    ([refos-util/cspace.c]), and the loop that takes the process server's
    notifications from the ring it writes ([srv_dispatch_notification] of
    [refos-util/serv_common.c]).

    Mapped memory is the list of its bytes from the address given; an access
    outside of it, or a failed assertion, is [None].  Pointers to a position or
    a count are arguments and results. *)

From S2P Require Import Prelude.
From S2P Require Import Word32.
From S2P Require Import DataStruct.
From S2P Require Import WindowAssoc.
From S2P Require Import Procserv.
From S2P Require Import Dataspace.
From S2P Require Import Memserv.
From S2P Require Import RingBuffer.
From S2P Require Import Process.
From S2P Require Import Proc.

(** ** Memory *)
Definition load (buf : list Z) (off len : Z) : option (list Z) :=
  if (0 <=? off) && (0 <=? len) && (off + len <=? Z.of_nat (length buf))
  then Some (take (Z.to_nat len) (drop (Z.to_nat off) buf)) else None.
Definition store_bytes (buf : list Z) (off : Z) (b : list Z) : option (list Z) :=
  if (0 <=? off) && (off + Z.of_nat (length b) <=? Z.of_nat (length buf))
  then Some (list_inserts (Z.to_nat off) b buf) else None.

(** ** Rings ([share.c]) *)
Definition SHARE_METADATA_SIZE : Z := 8.
Definition refos_share_get_start (buf : list Z) : option Z := word_of_bytes <$> load buf 0 4.
Definition refos_share_get_end (buf : list Z) : option Z := word_of_bytes <$> load buf 4 4.
Definition refos_share_write_remaining_size (start end_ bufSize : Z) : Z :=
  if end_ <? start then w32 (start - end_ - 1) else w32 (w32 (bufSize - 1) - (end_ - start)).
Definition refos_share_validate_params (bufSize start end_ : Z) : Z :=
  if bufSize <? SHARE_METADATA_SIZE + 1 then -1
  else if (bufSize <? start) || (bufSize <? end_) then -1 else 0.

(** The result, the memory, the start and the bytes read. *)
Definition refos_share_read (len : Z) (buf : list Z) (bufSize start : Z) :
    option (Z * list Z * Z * list Z) :=
  let? end_ := refos_share_get_end buf in
  let ringBufSize := w32 (bufSize - SHARE_METADATA_SIZE) in
  if negb (refos_share_validate_params bufSize start end_ =? 0) then Some (-1, buf, start, [])
  else
    let? dest :=
      if start <=? end_ then load buf (SHARE_METADATA_SIZE + start) (Z.min (end_ - start) len)
      else
        let bytesRead := Z.min (w32 (ringBufSize - start)) len in
        let? b := load buf (SHARE_METADATA_SIZE + start) bytesRead in
        let bytesRemain := Z.min (len - bytesRead) end_ in
        if 0 <? bytesRemain then
          let? b' := load buf SHARE_METADATA_SIZE bytesRemain in Some (b ++ b')
        else Some b in
    let start := w32 (start + Z.of_nat (length dest)) mod ringBufSize in
    let? buf := store_bytes buf 0 (bytes_of_word start) in
    Some (0, buf, start, dest).

(** The result, the memory and the end. *)
Definition refos_share_write (src : list Z) (buf : list Z) (bufSize end_ : Z) : option (Z * list Z * Z) :=
  let len := Z.of_nat (length src) in
  let? start := refos_share_get_start buf in
  let ringBufSize := w32 (bufSize - SHARE_METADATA_SIZE) in
  if negb (refos_share_validate_params bufSize start end_ =? 0) then Some (-1, buf, end_)
  else if refos_share_write_remaining_size start end_ ringBufSize <? len then Some (-1, buf, end_)
  else
    let? buf :=
      if end_ <? start then store_bytes buf (SHARE_METADATA_SIZE + end_) src
      else
        let endBytes := Z.min len (w32 (ringBufSize - end_)) in
        let? buf := store_bytes buf (SHARE_METADATA_SIZE + end_) (take (Z.to_nat endBytes) src) in
        if endBytes <? len then store_bytes buf SHARE_METADATA_SIZE (drop (Z.to_nat endBytes) src)
        else Some buf in
    let end_ := w32 (end_ + len) mod ringBufSize in
    let? buf := store_bytes buf 4 (bytes_of_word end_) in
    Some (0, buf, end_).

(** ** Slots ([cspace.c]) *)

(** The array of the free list, [[]] for NULL, and the number of free slots. *)
Record cspace_t : Type := Cspace { cspaceFreeList : list Z; cspaceFreeListNum : Z }.
Definition csalloc_deinit : cspace_t := Cspace [] 0.
Definition csalloc_init (start end_ : Z) : cspace_t := Cspace (seqZ start (end_ - start)) (end_ - start).
Definition csalloc (c : cspace_t) : option (cspace_t * Z) :=
  let? _ := guard (negb (bool_decide (cspaceFreeList c = []))) in
  if cspaceFreeListNum c =? 0 then Some (c, 0)
  else
    let? slot := znth (cspaceFreeList c) (cspaceFreeListNum c - 1) in
    Some (Cspace (cspaceFreeList c) (cspaceFreeListNum c - 1), slot).
Definition csfree (c : cspace_t) (slot : Z) : option cspace_t :=
  let? _ := guard (negb (bool_decide (cspaceFreeList c = []))) in
  let? l := store (cspaceFreeList c) (cspaceFreeListNum c) slot in
  Some (Cspace l (cspaceFreeListNum c + 1)).

(** With the deletion of the capability in the slot. *)
Definition csfree_delete {W} (seL4_CNode_Delete : Z → W → W) (cw : cspace_t * W) (slot : Z) : option (cspace_t * W) :=
  let? c := csfree cw.1 slot in Some (c, seL4_CNode_Delete slot cw.2).

(** ** Notifications ([serv_common.c]) *)
Definition DISPATCH_ERROR : Z := -2.
Definition DISPATCH_PASS : Z := -1.
Definition DISPATCH_SUCCESS : Z := 0.
Definition sizeof_proc_notification : Z := 36.

(** The structure the process server calls [struct proc_notification]. *)
Record notification_t : Type := Notification { magic : Z; label : Z; arg : list Z }.
(** The words of a notification. *)
Fixpoint words_of (n : nat) (b : list Z) : list Z :=
  match n with O => [] | S n => word_of_bytes (take 4 b) :: words_of n (drop 4 b) end.
Definition notification_of (b : list Z) : option notification_t :=
  match words_of 9 b with
  | magic :: label :: arg => Some (Notification magic label arg)
  | _ => None
  end.

(** The buffer of a server, mapped, with the position it has read up to, and
    the rest of its state. *)
Record notify_state (T : Type) : Type := NotifyState {
  notifyBuffer : list Z;
  notifyBufferStart : Z;
  srv_state : T
}.
#[global] Arguments NotifyState {T}.
#[global] Arguments notifyBuffer {T}.
#[global] Arguments notifyBufferStart {T}.
#[global] Arguments srv_state {T}.

(** The callbacks, [None] for NULL. *)
Record srv_common_notify_handler_callbacks_t (T : Type) : Type := Callbacks {
  handle_server_fault : option (notification_t → M T Z);
  handle_server_content_init : option (notification_t → M T Z);
  handle_server_death_notification : option (notification_t → M T Z)
}.
#[global] Arguments Callbacks {T}.
#[global] Arguments handle_server_fault {T}.
#[global] Arguments handle_server_content_init {T}.
#[global] Arguments handle_server_death_notification {T}.

Section Dispatch.
Context {T : Type} (malloc_ok : Z → bool) (callbacks : srv_common_notify_handler_callbacks_t T).

(** A callback works on the rest of the state. *)
Definition on_state {A} (m : M T A) : M (notify_state T) A := λ s,
  match m (srv_state s) with
  | Ok a t => Ok a (NotifyState (notifyBuffer s) (notifyBufferStart s) t)
  | Panic => Panic
  | NoFuel => NoFuel
  end.

(** The cases of the switch fall through while there is no callback. *)
Definition dispatch_label (n : notification_t) : option (notification_t → M T Z) :=
  let death := handle_server_death_notification callbacks in
  let content := match handle_server_content_init callbacks with Some h => Some h | None => death end in
  if label n =? PROCSERV_NOTIFY_FAULT_DELEGATION then
    match handle_server_fault callbacks with Some h => Some h | None => content end
  else if label n =? PROCSERV_NOTIFY_CONTENT_INIT then content
  else if label n =? PROCSERV_NOTIFY_DEATH then death
  else None.

Fixpoint notification_loop (fuel : nat) : M (notify_state T) Z :=
  match fuel with
  | O => kdiverge
  | S fuel =>
      let! s := gets id in
      let! ' (error, buf, start, b) := kopt (refos_share_read sizeof_proc_notification (notifyBuffer s)
        (Z.of_nat (length (notifyBuffer s))) (notifyBufferStart s)) in
      modify (λ s, NotifyState buf start (srv_state s)) ;;;
      if (error =? 0) && (Z.of_nat (length b) =? 0) then kret error
      else if negb (error =? 0) || negb (Z.of_nat (length b) =? sizeof_proc_notification) then kret DISPATCH_ERROR
      else
        let! n := kopt (notification_of b) in
        kassert (magic n =? PROCSERV_NOTIFICATION_MAGIC) ;;;
        let! h := kopt (dispatch_label n) in
        on_state (h n) ;;;
        notification_loop fuel
  end.

(** A ring of [n] bytes holds at most [n / 36] notifications; the callbacks
    leave the ring alone. *)
Definition srv_dispatch_notification : M (notify_state T) Z :=
  if negb (malloc_ok sizeof_proc_notification) then kret DISPATCH_ERROR
  else let! s := gets id in notification_loop (S (length (notifyBuffer s))).
End Dispatch.
