(* ===== verification/Handlers.v ===== *)
(** * The system calls of the process server

    The dispatchers of [apps/process_server/src/dispatchers/]: the helpers of
    [dispatcher.c], the system calls on dataspaces ([data_syscall.c]), on
    windows ([mem_syscall.c]) and on processes ([proc_syscall.c], but for those
    of the partition layer, which [Partition] has).  A handler runs for the
    process [pid]; a capability that the kernel unwrapped is its badge.  The
    value of the error argument is a result.  The system calls on names
    ([name_syscall.c]) and the start-up of the modules come last. *)

From S2P Require Import Prelude.
From S2P Require Import Word32.
From S2P Require Import DataStruct.
From S2P Require Import WindowAssoc.
From S2P Require Import Nameserv.
From S2P Require Import Procserv.
From S2P Require Import Dataspace.
From S2P Require Import Memserv.
From S2P Require Import RingBuffer.
From S2P Require Import AddrSpace.
From S2P Require Import Process.
From S2P Require Import Proc.

Record procserv_msg : Type := Msg {
  msg_label : Z;
  msg_capsUnwrapped : Z;
  msg_extraCaps : Z;
  msg_badge : Z
}.

Definition PROCSERV_SYSCALL_PARAM_SIZE_MAX : Z := REFOS_PAGE_SIZE * 8.
Definition PROCESS_KERNEL_RESERVED : Z := 0xE0000000.
Definition PROCSERV_DSPACE_FLAG_DEVICE_PADDR : Z := 0x10000000.
Definition PROCESS_PERMISSION_DEVICE_MAP : Z := 1.
Definition PROCESS_PERMISSION_DEVICE_IRQ : Z := 2.
Definition W_FLAGS_UNCACHED : Z := 1.

(** ** The kinds of badges *)
Definition dispatcher_badge_PID (badge : Z) : bool := (PID_BADGE_BASE <=? badge) && (badge <? PID_BADGE_END).
Definition dispatcher_badge_liveness (badge : Z) : bool :=
  (PID_LIVENESS_BADGE_BASE <=? badge) && (badge <? PID_LIVENESS_BADGE_END).
Definition dispatcher_badge_dspace (badge : Z) : bool :=
  (RAM_DATASPACE_BADGE_BASE <=? badge) && (badge <? RAM_DATASPACE_BADGE_END).
Definition dispatcher_badge_window (badge : Z) : bool := (W_BADGE_BASE <=? badge) && (badge <? W_BADGE_END).

Definition check_dispatch_caps (m : procserv_msg) (unwrappedMask numExtraCaps : Z) : bool :=
  (msg_capsUnwrapped m =? unwrappedMask) && (msg_extraCaps m =? numExtraCaps).

Section Handlers.
Context {E : Env}.

(** A copy of a capability, 0 for none. *)
Definition dispatcher_copyout_cptr (c : Z) : P Z :=
  let! cslot := call vka_cspace_alloc_path in
  match cslot with
  | None => kret 0
  | Some cslot =>
      if cslot =? 0 then kret 0
      else
        let! ok := call (vka_cnode_copy cslot c) in
        kassert ok ;;;
        kret cslot
  end.
Definition dispatcher_release_copyout_cptr (c : Z) : P unit :=
  if c =? 0 then kret tt else release_slot c.

(** The buffer of [PROCSERV_SYSCALL_PARAM_SIZE_MAX] bytes, [None] for NULL. *)
Definition dispatcher_read_param (pid readLen : Z) : P (option (list Z)) :=
  let! p := getPcb pid in
  if (paramBuffer p =? 0) && negb (readLen =? 0) then kret None
  else if PROCSERV_SYSCALL_PARAM_SIZE_MAX <? readLen then kret None
  else if 0 <? readLen then
    let! ' (error, b) := ram_dspace_read readLen (paramBuffer p) 0 in
    kassert (bool_decide (error = ESUCCESS)) ;;;
    kret (Some (b ++ repeat 0 (Z.to_nat (PROCSERV_SYSCALL_PARAM_SIZE_MAX - readLen))))
  else kret (Some (repeat 0 (Z.to_nat PROCSERV_SYSCALL_PARAM_SIZE_MAX))).

(** The object of a badge, 0 for none. *)
Definition window_of_badge (badge : Z) : P Z := w_get_window (badge - W_BADGE_BASE).
Definition dspace_of_badge (badge : Z) : P Z :=
  if dispatcher_badge_dspace badge then ram_dspace_get_badge badge else kret 0.

(** ** Dataspaces *)

(** [name] is [None] for NULL, or a string. *)
Definition anon : list Z := [97; 110; 111; 110].
Definition data_open_handler (pid : Z) (name : option (list Z)) (flags mode size : Z) :
    P (Z * refos_error) :=
  if size <=? 0 then kret (0, EINVALIDPARAM)
  else if match name with None => false | Some n => negb (bool_decide (n = []) || bool_decide (n = anon)) end
  then kret (0, EFILENOTFOUND)
  else
    let! dspace := ram_dspace_create size in
    if dspace =? 0 then kret (0, ENOMEM)
    else
      let! p := getPcb pid in
      let! error :=
        if Z.land flags PROCSERV_DSPACE_FLAG_DEVICE_PADDR =? 0 then kret ESUCCESS
        else if Z.land (systemCapabilitiesMask p) PROCESS_PERMISSION_DEVICE_MAP =? 0 then kret EACCESSDENIED
        else ram_dspace_set_to_paddr dspace (w32 mode) in
      let! d := getDspace dspace in
      if negb (bool_decide (error = ESUCCESS)) then
        ram_dspace_unref (rds_ID d) ;;; kret (0, error)
      else kret (rds_capability d, ESUCCESS).

Definition data_close_handler (pid : Z) (m : procserv_msg) (dspace_fd : Z) : P refos_error :=
  if negb (check_dispatch_caps m 1 1) then kret EINVALIDWINDOW
  else
    let! dspace := dspace_of_badge dspace_fd in
    if dspace =? 0 then kret EINVALIDPARAM
    else
      w_purge_dspace dspace ;;;
      pid_iterate (proc_dspace_delete_callback dspace) ;;;
      let! d := getDspace dspace in
      ram_dspace_unref (rds_ID d) ;;;
      kret ESUCCESS.

(** The size, or in place of it an error (0 for a bad capability). *)
Definition data_get_size_handler (pid : Z) (m : procserv_msg) (dspace_fd : Z) : P (Z + refos_error) :=
  if negb (check_dispatch_caps m 1 1) then kret (inl 0)
  else
    let! dspace := dspace_of_badge dspace_fd in
    if dspace =? 0 then kret (inr EINVALIDPARAM)
    else let! d := getDspace dspace in kret (inl (w32 (rds_npages d * REFOS_PAGE_SIZE))).

Definition data_expand_handler (pid : Z) (m : procserv_msg) (dspace_fd size : Z) : P refos_error :=
  if negb (check_dispatch_caps m 1 1) then kret EINVALIDPARAM
  else
    let! dspace := dspace_of_badge dspace_fd in
    if dspace =? 0 then kret EINVALIDPARAM else ram_dspace_expand dspace size.

Definition data_datamap_handler (pid : Z) (m : procserv_msg) (dspace_fd memoryWindow offset : Z) :
    P refos_error :=
  if negb (check_dispatch_caps m 3 2) then kret EINVALIDPARAM
  else if negb (dispatcher_badge_window memoryWindow) then kret EINVALIDWINDOW
  else
    let! window := window_of_badge memoryWindow in
    if window =? 0 then kret EINVALIDWINDOW
    else
      let! dspace := dspace_of_badge dspace_fd in
      if dspace =? 0 then kret EINVALIDPARAM
      else
        let! d := getDspace dspace in
        if w32 (rds_npages d * REFOS_PAGE_SIZE) <? offset then kret EINVALIDPARAM
        else w_set_anon_dspace window dspace offset ;;; kret ESUCCESS.

Definition data_dataunmap_handler (pid : Z) (m : procserv_msg) (memoryWindow : Z) : P refos_error :=
  if negb (check_dispatch_caps m 1 1) then kret EINVALIDPARAM
  else if negb (dispatcher_badge_window memoryWindow) then kret EINVALIDWINDOW
  else
    let! window := window_of_badge memoryWindow in
    if window =? 0 then kret EINVALIDWINDOW
    else
      let! w := getWindow window in
      match w_mode w with
      | W_MODE_EMPTY => kret ESUCCESS
      | W_MODE_PAGER => kret EINVALIDPARAM
      | W_MODE_ANONYMOUS => w_set_anon_dspace window 0 0 ;;; kret ESUCCESS
      end.

(** The error and the identifier for notifications. *)
Definition data_have_data_handler (pid : Z) (m : procserv_msg) (dspace_fd faultNotifyEP : Z) :
    P (refos_error * Z) :=
  if negb (check_dispatch_caps m 1 2 || check_dispatch_caps m 1 1) then kret (EINVALIDPARAM, 0)
  else
    let! dspace := dspace_of_badge dspace_fd in
    if dspace =? 0 then kret (EINVALIDPARAM, 0)
    else if faultNotifyEP =? 0 then
      let! error := ram_dspace_content_init dspace 0 PID_NULL in kret (error, 0)
    else
      let! ep := dispatcher_copyout_cptr faultNotifyEP in
      if ep =? 0 then kret (EINVALIDPARAM, 0)
      else
        let! p := getPcb pid in
        let! error := ram_dspace_content_init dspace ep (pcb_pid p) in
        if negb (bool_decide (error = ESUCCESS)) then
          dispatcher_release_copyout_cptr ep ;;; kret (error, 0)
        else let! d := getDspace dspace in kret (ESUCCESS, rds_ID d).

Definition data_unhave_data_handler (pid : Z) (m : procserv_msg) (dspace_fd : Z) : P refos_error :=
  let! ' (error, _) := data_have_data_handler pid m dspace_fd 0 in kret error.

Definition data_provide_data_from_parambuffer_handler (pid : Z) (m : procserv_msg)
    (dspace_fd offset contentSize : Z) : P refos_error :=
  if negb (check_dispatch_caps m 1 1) then kret EINVALIDPARAM
  else
    let! dspace := dspace_of_badge dspace_fd in
    if dspace =? 0 then kret EINVALIDPARAM
    else
      let! b := dispatcher_read_param pid contentSize in
      match b with
      | None => kret ENOPARAMBUFFER
      | Some b =>
          let! error := ram_dspace_write b contentSize dspace offset in
          if negb (bool_decide (error = ESUCCESS)) then kret error
          else
            kfor (seqZ 0 (npages_of_size contentSize)) (λ i,
              let off := w32 (REFOS_PAGE_ALIGN offset + i * REFOS_PAGE_SIZE) in
              ram_dspace_set_content_init_provided dspace off ;;;
              ram_dspace_content_init_reply_waiters dspace off) ;;;
            kret ESUCCESS
      end.

(** ** Windows *)
Definition proc_create_mem_window_internal_handler (pid vaddr size permissions flags : Z) :
    P (Z * refos_error) :=
  if (PROCESS_KERNEL_RESERVED <=? vaddr) || (PROCESS_KERNEL_RESERVED <? w32 (size + vaddr)) then
    kret (0, EINVALIDPARAM)
  else
    let cached := Z.land flags W_FLAGS_UNCACHED =? 0 in
    let! ' (error, windowID) := vs_create_window pid vaddr size permissions cached in
    if negb (bool_decide (error = ESUCCESS)) || (windowID =? W_INVALID_WINID) then kret (0, error)
    else
      let! window := w_get_window windowID in
      kassert (negb (window =? 0)) ;;;
      let! w := getWindow window in
      kassert (negb (w_capability w =? 0)) ;;;
      kret (w_capability w, ESUCCESS).

Definition proc_resize_mem_window_handler (pid : Z) (m : procserv_msg) (rpc_window size : Z) :
    P refos_error :=
  if negb (check_dispatch_caps m 1 1) then kret EINVALIDWINDOW
  else if negb (dispatcher_badge_window rpc_window) then kret EINVALIDWINDOW
  else vs_resize_window pid (rpc_window - W_BADGE_BASE) size.

Definition proc_delete_mem_window_handler (pid : Z) (m : procserv_msg) (rpc_window : Z) : P refos_error :=
  if negb (check_dispatch_caps m 1 1) then kret EINVALIDWINDOW
  else if negb (dispatcher_badge_window rpc_window) then kret EINVALIDWINDOW
  else vs_delete_window pid (rpc_window - W_BADGE_BASE) ;;; kret ESUCCESS.

Definition proc_get_mem_window_handler (pid vaddr : Z) : P Z :=
  let! aw := with_windows pid (λ aw, w_associate_find qsort aw vaddr) in
  match aw with
  | None => kret 0
  | Some aw =>
      let! window := w_get_window (aw_winID aw) in
      if window =? 0 then kret 0
      else
        let! w := getWindow window in
        kassert (negb (w_capability w =? 0)) ;;;
        kret (w_capability w)
  end.

Definition proc_get_mem_window_dspace_handler (pid : Z) (m : procserv_msg) (rpc_window : Z) :
    P (Z * refos_error) :=
  if negb (check_dispatch_caps m 1 1) then kret (0, EINVALIDWINDOW)
  else if negb (dispatcher_badge_window rpc_window) then kret (0, EINVALIDWINDOW)
  else
    let! window := window_of_badge rpc_window in
    if window =? 0 then kret (0, EINVALIDWINDOW)
    else
      let! w := getWindow window in
      if negb (bool_decide (w_mode w = W_MODE_ANONYMOUS)) then kret (0, ESUCCESS)
      else
        kassert (negb (w_ramDataspace w =? 0)) ;;;
        let! d := getDspace (w_ramDataspace w) in
        kret (rds_capability d, ESUCCESS).

(** The error and the window's identifier. *)
Definition proc_register_as_pager_handler (pid : Z) (m : procserv_msg) (rpc_window faultNotifyEP : Z) :
    P (refos_error * Z) :=
  if negb (check_dispatch_caps m 1 2) then kret (EINVALIDPARAM, 0)
  else if negb (dispatcher_badge_window rpc_window) then kret (EINVALIDPARAM, 0)
  else
    let! win := window_of_badge rpc_window in
    if win =? 0 then kret (EINVALIDPARAM, 0)
    else
      let! ep := dispatcher_copyout_cptr faultNotifyEP in
      if ep =? 0 then kret (EINVALIDPARAM, 0)
      else
        let! p := getPcb pid in
        w_set_pager_endpoint win ep (pcb_pid p) ;;;
        let! w := getWindow win in
        kret (ESUCCESS, w_wID w).

Definition proc_unregister_as_pager_handler (pid : Z) (m : procserv_msg) (rpc_window : Z) : P refos_error :=
  if negb (check_dispatch_caps m 1 1) then kret EINVALIDPARAM
  else if negb (dispatcher_badge_window rpc_window) then kret EINVALIDPARAM
  else
    let! win := window_of_badge rpc_window in
    if win =? 0 then kret EINVALIDPARAM
    else w_set_pager_endpoint win 0 PID_NULL ;;; kret ESUCCESS.

Definition proc_notification_buffer_handler (pid : Z) (m : procserv_msg) (rpc_dataspace : Z) :
    P refos_error :=
  if negb (check_dispatch_caps m 1 1) then kret EINVALIDPARAM
  else
    let! dspace := dspace_of_badge rpc_dataspace in
    if dspace =? 0 then kret EINVALIDPARAM else proc_set_notificationbuffer pid dspace.

Definition proc_window_map_handler (pid : Z) (m : procserv_msg) (rpc_window windowOffset srcAddr : Z) :
    P refos_error :=
  if negb (check_dispatch_caps m 1 1) then kret EINVALIDPARAM
  else if negb (dispatcher_badge_window rpc_window) then kret EINVALIDPARAM
  else
    let! window := window_of_badge rpc_window in
    if window =? 0 then kret EINVALIDWINDOW
    else
      let! ' (error, client) := vs_map_across_vspace pid srcAddr window windowOffset in
      if negb (bool_decide (error = ESUCCESS)) then kret error
      else
        let! x := gets unblockClientFaultPID in
        kassert (x =? PID_NULL) ;;;
        let! c := getPcb client in
        modify (upd_unblockClientFaultPID (pcb_pid c)) ;;;
        kret ESUCCESS.

Definition proc_device_map_handler (pid : Z) (m : procserv_msg)
    (rpc_window windowOffset paddr size cached : Z) : P refos_error :=
  if negb (check_dispatch_caps m 1 1) then kret EINVALIDPARAM
  else
    let! p := getPcb pid in
    if Z.land (systemCapabilitiesMask p) PROCESS_PERMISSION_DEVICE_MAP =? 0 then kret EACCESSDENIED
    else
      let! window := window_of_badge rpc_window in
      if window =? 0 then kret EINVALIDWINDOW
      else
        let! w := getWindow window in
        let! clientPCB := pid_get_pcb (w_clientOwnerPID w) in
        match clientPCB with
        | None => kret EINVALID
        | Some _ => vs_map_device (w_clientOwnerPID w) window windowOffset paddr size (negb (cached =? 0))
        end.

Definition mem_syscall_postaction : P unit :=
  let! x := gets unblockClientFaultPID in
  if x =? PID_NULL then kret tt
  else
    let! clientPCB := pid_get_pcb x in
    kwhen (bool_decide (clientPCB ≠ None)) (proc_fault_reply x) ;;;
    modify (upd_unblockClientFaultPID PID_NULL).

(** ** Processes *)
Definition proc_syscall_allocate_endpoint (pid : Z) (async : bool) : P Z :=
  let! endpoint := call (vka_alloc_endpoint async) in
  match endpoint with
  | None => kret 0
  | Some ep => if ep =? 0 then kret 0 else vs_track_obj pid ep ;;; kret ep
  end.
Definition proc_new_endpoint_internal_handler (pid : Z) : P (Z * refos_error) :=
  let! ep := proc_syscall_allocate_endpoint pid false in
  kret (ep, if ep =? 0 then ENOMEM else ESUCCESS).
Definition proc_new_async_endpoint_internal_handler (pid : Z) : P (Z * refos_error) :=
  let! ep := proc_syscall_allocate_endpoint pid true in
  kret (ep, if ep =? 0 then ENOMEM else ESUCCESS).

(** The error and the client's identifier. *)
Definition proc_watch_client_handler (pid : Z) (m : procserv_msg) (liveness deathEP : Z) :
    P (refos_error * Z) :=
  if negb (check_dispatch_caps m 1 2) then kret (EINVALIDPARAM, 0)
  else if negb (dispatcher_badge_liveness liveness) then kret (EINVALIDPARAM, 0)
  else
    let! client := pid_get_pcb (liveness - PID_LIVENESS_BADGE_BASE) in
    match client with
    | None => kret (EINVALIDPARAM, 0)
    | Some client =>
        let! ep := dispatcher_copyout_cptr deathEP in
        if ep =? 0 then kret (ENOMEM, 0)
        else
          let! error := client_watch pid (pcb_pid client) ep in
          if negb (bool_decide (error = ESUCCESS)) then
            dispatcher_release_copyout_cptr ep ;;; kret (error, 0)
          else kret (ESUCCESS, pcb_pid client)
    end.

Definition proc_unwatch_client_handler (pid : Z) (m : procserv_msg) (liveness : Z) : P refos_error :=
  if negb (check_dispatch_caps m 1 1) then kret EINVALIDPARAM
  else if negb (dispatcher_badge_liveness liveness) then kret EINVALIDPARAM
  else
    let! client := pid_get_pcb (liveness - PID_LIVENESS_BADGE_BASE) in
    match client with
    | None => kret EINVALIDPARAM
    | Some client => client_unwatch pid (pcb_pid client) ;;; kret ESUCCESS
    end.

Definition proc_set_parambuffer_handler (pid : Z) (m : procserv_msg) (rpc_dataspace size : Z) :
    P refos_error :=
  if (size =? 0) && (rpc_dataspace =? 0) then proc_set_parambuffer pid 0 ;;; kret ESUCCESS
  else if negb (check_dispatch_caps m 1 1) then kret EINVALIDPARAM
  else if negb (dispatcher_badge_dspace rpc_dataspace) then kret EINVALIDPARAM
  else
    let! dspace := ram_dspace_get_badge rpc_dataspace in
    if dspace =? 0 then kret EINVALID
    else proc_set_parambuffer pid dspace ;;; kret ESUCCESS.

(** The name of the program that loads programs. *)
Definition selfloader : list Z := [115; 101; 108; 102; 108; 111; 97; 100; 101; 114].
Definition proc_new_proc_handler (pid : Z) (name : option (list Z)) (block : bool) (priority : Z) :
    P refos_error :=
  match name with
  | None => kret EINVALIDPARAM
  | Some name =>
      let! p := getPcb pid in
      let! error := proc_load_direct selfloader priority name (pcb_pid p) 0 in
      if negb (bool_decide (error = ESUCCESS)) then kret error
      else
        kwhen block
          (let! _ := proc_save_caller pid in
           updPcb pid (λ p, set_rpc_skip_reply true (set_parentWaiting true p))) ;;;
        kret ESUCCESS
  end.

Definition proc_exit_handler (pid status : Z) : P refos_error :=
  updPcb pid (λ p, set_rpc_skip_reply true (set_exitStatus status p)) ;;;
  proc_queue_release pid ;;;
  kret ESUCCESS.

Definition proc_clone_internal_handler (pid entryPoint childStack : Z) : P (Z * refos_error) :=
  let! ' (error, threadID) := proc_clone pid childStack entryPoint in kret (threadID, error).
Definition proc_nice_handler (pid threadID priority : Z) : P refos_error := proc_nice pid threadID priority.

(** The slot of the handler of an interrupt, 0 for none. *)
Definition procserv_get_irq_handler (irq : Z) : P Z :=
  let! t := gets irqHandlerList in
  let! existing := kopt (chash_get t irq) in
  if negb (existing =? 0) then kret existing
  else
    let! handler := call vka_cspace_alloc_path in
    match handler with
    | None => kret 0
    | Some handler =>
        let! ok := call (seL4_IRQControl_Get irq handler) in
        if negb ok then call_ (vka_cspace_free handler) ;;; kret 0
        else
          let! t := gets irqHandlerList in
          let! ' (t, _) := kopt (chash_set malloc_ok t irq handler) in
          modify (upd_irqHandlerList t) ;;;
          kret handler
    end.
Definition proc_get_irq_handler_handler (pid irq : Z) : P Z :=
  let! p := getPcb pid in
  if Z.land (systemCapabilitiesMask p) PROCESS_PERMISSION_DEVICE_IRQ =? 0 then kret 0
  else procserv_get_irq_handler irq.
End Handlers.

(** ** The process server as a name server

    The system calls on names ([dispatchers/name_syscall.c]): the process server
    is the root of the name space, and keeps the registrations of the library
    [Nameserv] in its state.  And the start-up of the server's modules
    ([initialise_modules] of [state.c]). *)
Section NameCalls.
Context {E : Env}.

(** Clients keep their copies of an endpoint that is released. *)
Definition procserv_nameserv_callback_free_cap (cap : Z) (e : env) : env :=
  if cap =? 0 then e else vka_cspace_free cap (vka_cnode_delete cap e).

(** An operation of the library on the server's registrations. *)
Definition with_nameserv {A} (m : NS (W:=env) A) : P A := λ s,
  match m (nameServRegList s, ps_env s) with
  | Ok a (n, e) => Ok a (upd_ps_env e (upd_nameServRegList n s))
  | Panic => Panic
  | NoFuel => NoFuel
  end.

Definition initialise_modules : P unit :=
  pd_init ;;;
  pid_init ;;;
  w_init ;;;
  ram_dspace_init ;;;
  with_nameserv nameserv_init.

Definition nsv_register_handler (m : procserv_msg) (rpc_name : option (list Z)) (rpc_ep : Z) : P refos_error :=
  if negb (check_dispatch_caps m 0 1) then kret EINVALIDPARAM
  else
    match rpc_name with
    | None => kret EINVALIDPARAM
    | Some _ =>
        let! anonCap := dispatcher_copyout_cptr rpc_ep in
        if anonCap =? 0 then kret ENOMEM
        else
          let! error := with_nameserv (nameserv_add malloc_ok procserv_nameserv_callback_free_cap rpc_name anonCap) in
          if negb (bool_decide (error = ESUCCESS)) then
            dispatcher_release_copyout_cptr anonCap ;;; kret error
          else kret ESUCCESS
    end.

Definition nsv_unregister_handler (rpc_name : option (list Z)) : P refos_error :=
  match rpc_name with
  | None => kret EINVALIDPARAM
  | Some _ =>
      with_nameserv (nameserv_delete malloc_ok procserv_nameserv_callback_free_cap rpc_name) ;;;
      kret ESUCCESS
  end.

(** The capability, the number of characters resolved (written unless the path
    is NULL) and the error.  A capability that the library does not write is
    what was on the stack. *)
Definition nsv_resolve_segment_internal_handler (rpc_path : option (list Z)) : P (Z * option Z * refos_error) :=
  match rpc_path with
  | None => kret (0, None, EINVALIDPARAM)
  | Some _ =>
      let! ' (resolvedBytes, out) := with_nameserv (nameserv_resolve malloc_ok rpc_path) in
      let! stack := gets (λ s, uninitialised 0 (ps_env s)) in
      kret (default stack out, Some resolvedBytes, ESUCCESS)
  end.
End NameCalls.
