(* ===== verification/Servlib.v ===== *)
(** * The clients of a server

    The library that RefOS servers use for their clients
    ([libs/librefos/src/refos-util/serv_connect.c], and the handlers of
    [serv_common.c]): a table of clients, each with a session capability that
    has its badge, and the list of those that go at the end of the request.
    [ServerEnv] is what the library calls: the kernel and the process server. *)

From S2P Require Import Prelude.
From S2P Require Import Word32.
From S2P Require Import DataStruct.
From S2P Require Import WindowAssoc.
From S2P Require Import Procserv.
From S2P Require Import Dataspace.
From S2P Require Import Memserv.
From S2P Require Import RingBuffer.
From S2P Require Import Process.
From S2P Require Import Proc.
From S2P Require Import Handlers.
From S2P Require Import Share.

Class ServerEnv : Type := {
  senv : Type;
  heap_ok : Z → bool;
  (* the address of a new object *)
  heap_object : senv → option Z * senv;
  (* the server's CSpace: from a slot, into a slot, with a badge *)
  cnode_mint : Z → Z → Z → senv → bool * senv;
  cnode_revoke : Z → senv → senv;
  cnode_delete : Z → senv → senv;
  (* a copy of a capability of the message *)
  rpc_copyout_cptr : Z → senv → Z * senv;
  (* calls of the process server *)
  proc_watch_client : Z → Z → senv → (refos_error * Z) * senv;
  proc_unwatch_client : Z → senv → senv
}.

Record srv_client : Type := SrvClient {
  cID : Z;
  liveness : Z;
  session : Z;
  deathID : Z;
  paramBufferStart : Z;
  client_paramBuffer : Z;
  paramBufferSize : Z
}.

Section Servlib.
Context {SE : ServerEnv}.

(** The table of clients, the free slots and the environment of a server. *)
Record srv_common : Type := SrvCommon {
  ct_allocTable : coat_t;
  ct_clients : gmap Z srv_client;
  pendingFreeList : cvector_t Z;
  maxClients : Z;
  badgeBase : Z;
  sessionSrcEP : Z;
  notifyClientFaultDeathAsyncEP : Z;
  srv_cspace : cspace_t;
  srv_env : senv
}.
Definition V (A : Type) : Type := M srv_common A.

Definition upd_ct_allocTable (v : coat_t) (s : srv_common) : srv_common :=
  SrvCommon v (ct_clients s) (pendingFreeList s) (maxClients s) (badgeBase s) (sessionSrcEP s)
    (notifyClientFaultDeathAsyncEP s) (srv_cspace s) (srv_env s).
Definition upd_ct_clients (v : gmap Z srv_client) (s : srv_common) : srv_common :=
  SrvCommon (ct_allocTable s) v (pendingFreeList s) (maxClients s) (badgeBase s) (sessionSrcEP s)
    (notifyClientFaultDeathAsyncEP s) (srv_cspace s) (srv_env s).
Definition upd_pendingFreeList (v : cvector_t Z) (s : srv_common) : srv_common :=
  SrvCommon (ct_allocTable s) (ct_clients s) v (maxClients s) (badgeBase s) (sessionSrcEP s)
    (notifyClientFaultDeathAsyncEP s) (srv_cspace s) (srv_env s).
Definition upd_srv_cspace (v : cspace_t) (s : srv_common) : srv_common :=
  SrvCommon (ct_allocTable s) (ct_clients s) (pendingFreeList s) (maxClients s) (badgeBase s) (sessionSrcEP s)
    (notifyClientFaultDeathAsyncEP s) v (srv_env s).
Definition upd_srv_env (v : senv) (s : srv_common) : srv_common :=
  SrvCommon (ct_allocTable s) (ct_clients s) (pendingFreeList s) (maxClients s) (badgeBase s) (sessionSrcEP s)
    (notifyClientFaultDeathAsyncEP s) (srv_cspace s) v.

Definition scall {A} (f : senv → A * senv) : V A := λ s,
  let (a, e) := f (srv_env s) in Ok a (upd_srv_env e s).
Definition scall_ (f : senv → senv) : V unit := modify (λ s, upd_srv_env (f (srv_env s)) s).
Definition slot_alloc : V Z :=
  let! c := gets srv_cspace in
  let! ' (c, slot) := kopt (csalloc c) in
  modify (upd_srv_cspace c) ;;; kret slot.
Definition slot_free (slot : Z) : V unit :=
  let! c := gets srv_cspace in
  let! c := kopt (csfree c slot) in
  modify (upd_srv_cspace c).
Definition slot_delete (slot : Z) : V unit := scall_ (cnode_delete slot) ;;; slot_free slot.
Definition getClient (p : Z) : V srv_client := λ s,
  match ct_clients s !! p with Some c => Ok c s | None => Panic end.
Definition setClient (p : Z) (c : srv_client) : V unit :=
  modify (λ s, upd_ct_clients (<[p := c]> (ct_clients s)) s).

(** ** Clients ([serv_connect.c]) *)
Definition client_oat_create (arg0 id : Z) : V Z :=
  let! p := scall heap_object in
  match p with
  | None => kret 0
  | Some p =>
      let! session := slot_alloc in
      if session =? 0 then kret 0
      else
        let! ep := gets sessionSrcEP in
        let! base := gets badgeBase in
        let! ok := scall (cnode_mint ep session (w32 (id + base))) in
        if ok : bool then setClient p (SrvClient id arg0 session (-1) 0 0 0) ;;; kret p
        else slot_free session ;;; kret 0
  end.
Definition client_oat_delete (p : Z) : V unit :=
  let! c := getClient p in
  kwhen (negb (liveness c =? 0)) (slot_delete (liveness c)) ;;;
  kwhen (negb (session c =? 0)) (slot_delete (session c)) ;;;
  kwhen (negb (client_paramBuffer c =? 0)) (slot_delete (client_paramBuffer c)) ;;;
  modify (λ s, upd_ct_clients (delete p (ct_clients s)) s).

Definition client_table_init (max base ep : Z) : V unit :=
  let! t := kopt (coat_init 1 max) in
  modify (λ s, SrvCommon t (ct_clients s) cvector_init max base ep (notifyClientFaultDeathAsyncEP s)
    (srv_cspace s) (srv_env s)).
Definition client_table_release : V unit :=
  oat_release ct_allocTable upd_ct_allocTable client_oat_delete ;;;
  modify (λ s, upd_pendingFreeList (cvector_free (pendingFreeList s)) s).

(** The address of the client, 0 for none. *)
Definition client_alloc (liveness : Z) : V Z :=
  let! ' (ID, c) := oat_alloc heap_ok ct_allocTable upd_ct_allocTable (client_oat_create liveness) in
  if c =? 0 then kret 0
  else kassert (negb (ID =? COAT_INVALID_ID)) ;;; getClient c ;;; kret c.
Definition client_get (id : Z) : V Z :=
  let! max := gets maxClients in
  if (id <? 0) || (max <=? id) then kret 0 else oat_get ct_allocTable id.
Definition client_get_badge (badge : Z) : V Z :=
  let! max := gets maxClients in
  let! base := gets badgeBase in
  if (badge <? base) || (base + max <=? badge) then kret 0 else client_get (badge - base).

Definition client_table_postaction : V unit :=
  let! v := gets pendingFreeList in
  kfor (seqZ 0 (cvector_count v)) (λ i,
    let! v := gets pendingFreeList in
    let! id := kopt (cvector_get v i) in
    let! c := client_get id in
    kassert (negb (c =? 0)) ;;;
    oat_free heap_ok ct_allocTable upd_ct_allocTable client_oat_delete id ;;;
    kret tt) ;;;
  modify (λ s, upd_pendingFreeList (cvector_reset (pendingFreeList s)) s).

(** Whether the identifier is among the [n] from [i] on. *)
Fixpoint queued (n : nat) (v : cvector_t Z) (i id : Z) : option bool :=
  match n with
  | O => Some false
  | S n => let? cid := cvector_get v i in if id =? cid then Some true else queued n v (i + 1) id
  end.
Definition client_queue_delete (id : Z) : V unit :=
  let! c := client_get id in
  if c =? 0 then kret tt
  else
    let! v := gets pendingFreeList in
    let! found := kopt (queued (Z.to_nat (cvector_count v)) v 0 id) in
    if found : bool then kret tt
    else
      let! ' (v, _) := kopt (cvector_add heap_ok v id) in
      modify (upd_pendingFreeList v).

(** The first client from [i] on with the identifier for its death. *)
Fixpoint queue_delete_loop (n : nat) (i death : Z) : V Z :=
  match n with
  | O => kret (-1)
  | S n =>
      let! p := client_get i in
      if p =? 0 then queue_delete_loop n (i + 1) death
      else
        let! c := getClient p in
        if deathID c =? death then client_queue_delete (cID c) ;;; kret 0
        else queue_delete_loop n (i + 1) death
  end.
Definition client_queue_delete_deathID (death : Z) : V Z :=
  let! max := gets maxClients in queue_delete_loop (Z.to_nat max) 0 death.

(** ** The handlers of connections ([serv_common.c]) *)
Definition srv_check_dispatch_caps (m : procserv_msg) (unwrappedMask numExtraCaps : Z) : bool :=
  check_dispatch_caps m unwrappedMask numExtraCaps.

(** The address of the client, 0 with an error. *)
Definition srv_ctable_connect_direct_handler (m : procserv_msg) (live : Z) : V (Z * refos_error) :=
  if negb (srv_check_dispatch_caps m 0 1) then kret (0, EINVALIDPARAM)
  else
    let! livenessCP := scall (rpc_copyout_cptr live) in
    if (live =? 0) || (livenessCP =? 0) then kret (0, ENOMEM)
    else
      let! p := client_alloc livenessCP in
      if p =? 0 then slot_delete livenessCP ;;; kret (0, ENOMEM)
      else
        let! c := getClient p in
        kassert (negb (session c =? 0)) ;;;
        let! ep := gets notifyClientFaultDeathAsyncEP in
        let! ' (error, death) := scall (proc_watch_client (liveness c) ep) in
        let! c := getClient p in
        setClient p (SrvClient (cID c) (liveness c) (session c) death (paramBufferStart c)
          (client_paramBuffer c) (paramBufferSize c)) ;;;
        if bool_decide (error = ESUCCESS) then kret (p, ESUCCESS)
        else
          client_queue_delete (cID c) ;;;
          client_table_postaction ;;;
          slot_delete livenessCP ;;;
          kret (0, error).

Definition set_client_paramBuffer (p buffer size : Z) : V unit :=
  let! c := getClient p in
  setClient p (SrvClient (cID c) (liveness c) (session c) (deathID c) (paramBufferStart c) buffer size).
Definition srv_ctable_set_param_buffer_handler (p : Z) (m : procserv_msg) (dataspace size : Z) : V refos_error :=
  if (dataspace =? 0) && (size =? 0) then
    let! c := getClient p in
    scall_ (cnode_revoke (client_paramBuffer c)) ;;;
    slot_delete (client_paramBuffer c) ;;;
    set_client_paramBuffer p 0 0 ;;;
    kret ESUCCESS
  else if negb (srv_check_dispatch_caps m 0 1) then kret EINVALIDPARAM
  else if size =? 0 then kret EINVALIDPARAM
  else
    let! buffer := scall (rpc_copyout_cptr dataspace) in
    let! c := getClient p in
    if buffer =? 0 then set_client_paramBuffer p 0 (paramBufferSize c) ;;; kret ENOMEM
    else set_client_paramBuffer p buffer size ;;; kret ESUCCESS.

Definition srv_ctable_disconnect_direct_handler (p : Z) : V unit :=
  let! c := getClient p in
  client_queue_delete (cID c) ;;;
  scall_ (proc_unwatch_client (liveness c)).

(** A badged copy of an endpoint, 0 on failure. *)
Definition srv_mint (badge ep : Z) : V Z :=
  kassert (negb (ep =? 0)) ;;;
  let! slot := slot_alloc in
  if slot =? 0 then kret 0
  else
    let! ok := scall (cnode_mint ep slot badge) in
    if ok : bool then kret slot else slot_free slot ;;; kret 0.
End Servlib.
