(* ===== verification/FileServer.v ===== *)
(** * The file server

    Models [apps/file_server/src/]: its dataspaces and their associations
    ([dataspace.c]), the frames for paging ([pager.c]), the dataspace calls on
    the files of the archive and of the RAM file system
    ([dispatchers/cpio_dspace.c]), and the notifications of the process server
    ([dispatchers/fault_notify.c]).

    Objects of the heap are in typed maps from addresses.  The arrays of the RAM
    file system lie one after the other in [ramfs_archive], a map from positions
    to bytes, zero where nothing was stored; an access that leaves the arrays is a
    panic.  The frames are the pages at their addresses.  The archive of files is
    read by libcpio, and the calls of other servers are generated stubs: both are
    in [FileEnv]. *)

From S2P Require Import Prelude.
From S2P Require Import Word32.
From S2P Require Import DataStruct.
From S2P Require Import WindowAssoc.
From S2P Require Import Procserv.
From S2P Require Import Dataspace.
From S2P Require Import Memserv.
From S2P Require Import RingBuffer.
From S2P Require Import Process.
From S2P Require Import Proc.
From S2P Require Import Handlers.
From S2P Require Import Share.
From S2P Require Import Servlib.

Class FileEnv `{SE : ServerEnv} : Type := {
  (* the contents of a file of the archive *)
  cpio_get_file : list Z → option (list Z);
  fs_register_as_pager : Z → Z → senv → (refos_error * Z) * senv;
  proc_window_getID : Z → senv → Z * senv;
  fs_have_data : Z → Z → senv → (refos_error * Z) * senv;
  fs_unhave_data : Z → senv → senv;
  data_provide_data : Z → Z → list Z → senv → refos_error * senv;
  proc_window_map : Z → Z → Z → senv → refos_error * senv;
  (* the setup of the frames: a dataspace, a window, the mapping *)
  data_open_anon : Z → senv → (refos_error * Z) * senv;
  walloc : Z → senv → (Z * Z) * senv;
  fs_datamap : Z → Z → senv → refos_error * senv;
  fs_data_close : Z → senv → senv;
  proc_delete_mem_window : Z → senv → senv
}.

Definition FILESERVER_MAX_DATASPACES : Z := 8192.
Definition FILESERVER_DSPACE_ASSOC_HASHSIZE : Z := 4096.
Definition FILESERVER_WINDOW_ASSOC_HASHSIZE : Z := 4096.
Definition FILESERVER_MAX_PAGE_FRAMES : Z := 128.
Definition CPIO_RAMFS_MAX_CREATED_FILES : Z := 64.
Definition CPIO_RAMFS_MAX_FILESSIZE : Z := 40960.
Definition CPIO_RAMFS_MAX_FILENAME : Z := 32.
Definition FS_CLIENT_BADGE_BASE : Z := 0x32.
Definition SRV_DEFAULT_MAX_CLIENTS : Z := 2048.
Definition FS_DSPACE_BADGE_BASE : Z := FS_CLIENT_BADGE_BASE + SRV_DEFAULT_MAX_CLIENTS.
Definition PROCESS_MAX_WINDOWS : Z := 8192.
Definition O_ACCMODE : Z := 3.
Definition O_RDONLY : Z := 0.
Definition O_CREAT : Z := 64.

(** Where the bytes of a file are: in the archive, or in an array of the RAM
    file system. *)
Inductive file_data : Type := CpioFile (bytes : list Z) | RamFile (i : Z).

Record fs_dataspace : Type := FsDataspace {
  dID : Z;
  ds_deathID : Z;
  dataspaceCap : Z;
  ds_permissions : Z;
  fileData : file_data;
  fileDataSize : Z;
  fileCreated : bool
}.
Record dataspace_association_info : Type := AssocInfo {
  dataspaceID : Z;
  dataspaceOffset : Z;
  objectCap : Z
}.
Record fs_frame_block : Type := FrameBlock {
  fb_initialised : bool;
  framePool : cpool_t;
  fb_dataspace : Z;
  fb_window : Z;
  frameBlockVAddr : Z;
  frameBlockNumPages : Z
}.

Section FileServer.
Context {SE : ServerEnv} {FE : FileEnv}.

Record fs_state : Type := FsState {
  commonState : srv_common;
  fs_dspaces : gmap Z fs_dataspace;
  allocTable : coat_t;
  windowAssocTable : chash_t;
  dspaceAssocTable : chash_t;
  fs_assocs : gmap Z dataspace_association_info;
  pageFrameBlock : fs_frame_block;
  frame_pages : gmap Z (list Z);
  ramfs_archive : gmap Z Z;
  ramfs_filename : list (list Z);
  ramfs_filesz : list Z;
  ramfs_curfile : Z
}.
Definition F (A : Type) : Type := M fs_state A.

Definition upd_commonState (v : srv_common) (s : fs_state) : fs_state :=
  FsState v (fs_dspaces s) (allocTable s) (windowAssocTable s) (dspaceAssocTable s) (fs_assocs s)
    (pageFrameBlock s) (frame_pages s) (ramfs_archive s) (ramfs_filename s) (ramfs_filesz s) (ramfs_curfile s).
Definition upd_fs_dspaces (v : gmap Z fs_dataspace) (s : fs_state) : fs_state :=
  FsState (commonState s) v (allocTable s) (windowAssocTable s) (dspaceAssocTable s) (fs_assocs s)
    (pageFrameBlock s) (frame_pages s) (ramfs_archive s) (ramfs_filename s) (ramfs_filesz s) (ramfs_curfile s).
Definition upd_allocTable (v : coat_t) (s : fs_state) : fs_state :=
  FsState (commonState s) (fs_dspaces s) v (windowAssocTable s) (dspaceAssocTable s) (fs_assocs s)
    (pageFrameBlock s) (frame_pages s) (ramfs_archive s) (ramfs_filename s) (ramfs_filesz s) (ramfs_curfile s).
Definition upd_windowAssocTable (v : chash_t) (s : fs_state) : fs_state :=
  FsState (commonState s) (fs_dspaces s) (allocTable s) v (dspaceAssocTable s) (fs_assocs s)
    (pageFrameBlock s) (frame_pages s) (ramfs_archive s) (ramfs_filename s) (ramfs_filesz s) (ramfs_curfile s).
Definition upd_dspaceAssocTable (v : chash_t) (s : fs_state) : fs_state :=
  FsState (commonState s) (fs_dspaces s) (allocTable s) (windowAssocTable s) v (fs_assocs s)
    (pageFrameBlock s) (frame_pages s) (ramfs_archive s) (ramfs_filename s) (ramfs_filesz s) (ramfs_curfile s).
Definition upd_fs_assocs (v : gmap Z dataspace_association_info) (s : fs_state) : fs_state :=
  FsState (commonState s) (fs_dspaces s) (allocTable s) (windowAssocTable s) (dspaceAssocTable s) v
    (pageFrameBlock s) (frame_pages s) (ramfs_archive s) (ramfs_filename s) (ramfs_filesz s) (ramfs_curfile s).
Definition upd_pageFrameBlock (v : fs_frame_block) (s : fs_state) : fs_state :=
  FsState (commonState s) (fs_dspaces s) (allocTable s) (windowAssocTable s) (dspaceAssocTable s) (fs_assocs s)
    v (frame_pages s) (ramfs_archive s) (ramfs_filename s) (ramfs_filesz s) (ramfs_curfile s).
Definition upd_frame_pages (v : gmap Z (list Z)) (s : fs_state) : fs_state :=
  FsState (commonState s) (fs_dspaces s) (allocTable s) (windowAssocTable s) (dspaceAssocTable s) (fs_assocs s)
    (pageFrameBlock s) v (ramfs_archive s) (ramfs_filename s) (ramfs_filesz s) (ramfs_curfile s).
Definition upd_ramfs (a : gmap Z Z) (names : list (list Z)) (sizes : list Z) (cur : Z) (s : fs_state) : fs_state :=
  FsState (commonState s) (fs_dspaces s) (allocTable s) (windowAssocTable s) (dspaceAssocTable s) (fs_assocs s)
    (pageFrameBlock s) (frame_pages s) a names sizes cur.

(** A step of the server's library, a call of the environment. *)
Definition common {A} (m : V A) : F A := λ s,
  match m (commonState s) with
  | Ok a c => Ok a (upd_commonState c s)
  | Panic => Panic
  | NoFuel => NoFuel
  end.
Definition fcall {A} (f : senv → A * senv) : F A := common (scall f).
Definition fcall_ (f : senv → senv) : F unit := common (scall_ f).
Definition getFsDataspace (p : Z) : F fs_dataspace := λ s,
  match fs_dspaces s !! p with Some d => Ok d s | None => Panic end.
Definition setFsDataspace (p : Z) (d : fs_dataspace) : F unit :=
  modify (λ s, upd_fs_dspaces (<[p := d]> (fs_dspaces s)) s).
Definition getAssoc (p : Z) : F dataspace_association_info := λ s,
  match fs_assocs s !! p with Some d => Ok d s | None => Panic end.

(** ** Memory of files *)

(** Positions of the arrays of the RAM file system. *)
Definition ramfs_size : Z := CPIO_RAMFS_MAX_CREATED_FILES * CPIO_RAMFS_MAX_FILESSIZE.
Definition read_archive (a : gmap Z Z) (pos count : Z) : option (list Z) :=
  if (0 <=? pos) && (0 <=? count) && (pos + count <=? ramfs_size)
  then Some ((λ k, default 0 (a !! k)) <$> seqZ pos count) else None.
Fixpoint write_bytes (a : gmap Z Z) (pos : Z) (b : list Z) : gmap Z Z :=
  match b with [] => a | x :: b => write_bytes (<[pos := x]> a) (pos + 1) b end.
Definition write_archive (a : gmap Z Z) (pos : Z) (b : list Z) : option (gmap Z Z) :=
  if (0 <=? pos) && (pos + Z.of_nat (length b) <=? ramfs_size) then Some (write_bytes a pos b) else None.
(** The position that an offset from the start of an array means: the sum of a
    pointer and a word wraps around. *)
Definition archive_pos (i offset : Z) : Z := i * CPIO_RAMFS_MAX_FILESSIZE + s32 offset.

(** [count] bytes of a file from [offset] on. *)
Definition read_file (data : file_data) (offset count : Z) : F (list Z) :=
  match data with
  | CpioFile bytes =>
      kopt (if (0 <=? s32 offset) && (offset + count <=? Z.of_nat (length bytes))
            then Some (take (Z.to_nat count) (drop (Z.to_nat offset) bytes)) else None)
  | RamFile i => let! a := gets ramfs_archive in kopt (read_archive a (archive_pos i offset) count)
  end.
Definition write_file (data : file_data) (offset : Z) (b : list Z) : F unit :=
  match data with
  | CpioFile _ => kfail
  | RamFile i =>
      let! a := gets ramfs_archive in
      let! a := kopt (write_archive a (archive_pos i offset) b) in
      modify (λ s, upd_ramfs a (ramfs_filename s) (ramfs_filesz s) (ramfs_curfile s) s)
  end.

(** ** Dataspaces ([dataspace.c]) *)
Definition dspace_oat_create (deathID : Z) (data : file_data) (size permissions id : Z) : F Z :=
  let! p := fcall heap_object in
  let! p := kopt p in
  let! cap := common slot_alloc in
  if cap =? 0 then kret 0
  else
    let! ep := gets (λ s, sessionSrcEP (commonState s)) in
    let! ok := fcall (cnode_mint ep cap (w32 (id + FS_DSPACE_BADGE_BASE))) in
    kassert ok ;;;
    setFsDataspace p (FsDataspace id deathID cap permissions data size false) ;;;
    kret p.
Definition dspace_oat_delete (p : Z) : F unit :=
  let! d := getFsDataspace p in
  kassert (negb (dataspaceCap d =? 0)) ;;;
  fcall_ (cnode_revoke (dataspaceCap d)) ;;;
  common (slot_delete (dataspaceCap d)) ;;;
  modify (λ s, upd_fs_dspaces (delete p (fs_dspaces s)) s).

Definition dspace_table_init : F unit :=
  let! t := kopt (coat_init 1 FILESERVER_MAX_DATASPACES) in
  let! w := kopt (chash_init heap_ok FILESERVER_WINDOW_ASSOC_HASHSIZE) in
  let! d := kopt (chash_init heap_ok FILESERVER_DSPACE_ASSOC_HASHSIZE) in
  modify (upd_allocTable t) ;;; modify (upd_windowAssocTable w) ;;; modify (upd_dspaceAssocTable d).

(** The address of the dataspace, 0 for none. *)
Definition dspace_alloc (deathID : Z) (data : file_data) (size permissions : Z) : F Z :=
  let! ' (ID, p) := oat_alloc heap_ok allocTable upd_allocTable (dspace_oat_create deathID data size permissions) in
  if p =? 0 then kret 0 else kassert (negb (ID =? COAT_INVALID_ID)) ;;; kret p.
Definition dspace_get (id : Z) : F Z :=
  if (id <? 0) || (FILESERVER_MAX_DATASPACES <=? id) then kret 0 else oat_get allocTable id.
Definition dspace_get_badge (badge : Z) : F Z :=
  if (badge <? FS_DSPACE_BADGE_BASE) || (FS_DSPACE_BADGE_BASE + FILESERVER_MAX_DATASPACES <=? badge)
  then kret 0 else dspace_get (badge - FS_DSPACE_BADGE_BASE).
Definition fs_dspace_delete (id : Z) : F unit :=
  oat_free heap_ok allocTable upd_allocTable dspace_oat_delete id ;;; kret tt.

(** *** Associations: of a table [get], with the addresses of its objects *)
Section Assoc.
Context (get : fs_state → chash_t) (upd : chash_t → fs_state → fs_state).
Definition dspace_externalID_find (objID : Z) : F Z := let! t := gets get in kopt (chash_get t objID).
Definition set_assoc (objID p : Z) : F unit :=
  let! t := gets get in
  let! ' (t, _) := kopt (chash_set heap_ok t objID p) in
  modify (upd t).
Definition dspace_externalID_unassociate (objID : Z) : F unit :=
  let! di := dspace_externalID_find objID in
  if di =? 0 then kret tt
  else
    let! d := getAssoc di in
    set_assoc objID 0 ;;;
    kwhen (negb (objectCap d =? 0))
      (fcall_ (cnode_revoke (objectCap d)) ;;; common (slot_delete (objectCap d))) ;;;
    modify (λ s, upd_fs_assocs (delete di (fs_assocs s)) s).
Definition dspace_externalID_associate (objID dsID dsOffset cap : Z) : F refos_error :=
  dspace_externalID_unassociate objID ;;;
  let! di := fcall heap_object in
  match di with
  | None => kret ENOMEM
  | Some di =>
      modify (λ s, upd_fs_assocs (<[di := AssocInfo dsID dsOffset cap]> (fs_assocs s)) s) ;;;
      set_assoc objID di ;;;
      kret ESUCCESS
  end.
End Assoc.
Definition dspace_window_associate : Z → Z → Z → Z → F refos_error :=
  dspace_externalID_associate windowAssocTable upd_windowAssocTable.
Definition dspace_window_find : Z → F Z := dspace_externalID_find windowAssocTable.
Definition dspace_window_unassociate : Z → F unit :=
  dspace_externalID_unassociate windowAssocTable upd_windowAssocTable.
Definition dspace_external_associate : Z → Z → Z → Z → F refos_error :=
  dspace_externalID_associate dspaceAssocTable upd_dspaceAssocTable.
Definition dspace_external_find : Z → F Z := dspace_externalID_find dspaceAssocTable.
Definition dspace_external_unassociate : Z → F unit :=
  dspace_externalID_unassociate dspaceAssocTable upd_dspaceAssocTable.

Definition dspace_table_release : F unit :=
  kfor (seqZ 0 PROCESS_MAX_WINDOWS) dspace_window_unassociate ;;;
  oat_release allocTable upd_allocTable dspace_oat_delete ;;;
  modify (λ s, upd_windowAssocTable (chash_release (windowAssocTable s)) s).

(** ** Frames ([pager.c]) *)
Definition pager_init (framesSize : Z) : F unit :=
  kassert (framesSize mod REFOS_PAGE_SIZE =? 0) ;;;
  let n := framesSize / REFOS_PAGE_SIZE in
  let! ' (error, ds) := fcall (data_open_anon framesSize) in
  kassert (bool_decide (error = ESUCCESS) && negb (ds =? 0)) ;;;
  let! ' (vaddr, window) := fcall (walloc n) in
  kassert (negb (vaddr =? 0) && negb (window =? 0)) ;;;
  let! error := fcall (fs_datamap ds window) in
  kassert (bool_decide (error = ESUCCESS)) ;;;
  modify (upd_pageFrameBlock (FrameBlock true (cpool_init 1 n) ds window vaddr n)).

Definition pager_release : F unit :=
  let! fb := gets pageFrameBlock in
  fcall_ (fs_data_close (fb_dataspace fb)) ;;;
  fcall_ (cnode_delete (fb_dataspace fb)) ;;;
  fcall_ (proc_delete_mem_window (fb_window fb)) ;;;
  common (slot_free (fb_dataspace fb)) ;;;
  common (slot_free (fb_window fb)) ;;;
  modify (upd_pageFrameBlock (FrameBlock false (cpool_release (framePool fb)) (fb_dataspace fb) (fb_window fb) 0 0)).

Definition set_framePool (p : cpool_t) : F unit :=
  modify (λ s, let fb := pageFrameBlock s in
    upd_pageFrameBlock (FrameBlock (fb_initialised fb) p (fb_dataspace fb) (fb_window fb)
      (frameBlockVAddr fb) (frameBlockNumPages fb)) s).
(** The address of the frame, 0 for none. *)
Definition pager_alloc_frame : F Z :=
  let! fb := gets pageFrameBlock in
  kassert (fb_initialised fb) ;;;
  let! ' (p, pagen) := kopt (cpool_alloc heap_ok (framePool fb)) in
  set_framePool p ;;;
  if (pagen =? 0) || (frameBlockNumPages fb <=? pagen) then kret 0
  else kret (w32 (frameBlockVAddr fb + pagen * REFOS_PAGE_SIZE)).

Definition pager_free_frame (frame : Z) : F unit :=
  let! fb := gets pageFrameBlock in
  kassert (fb_initialised fb) ;;;
  if frame <? frameBlockVAddr fb then kret tt
  else
    let pagen := (frame - frameBlockVAddr fb) / REFOS_PAGE_SIZE in
    if (pagen <=? 0) || (frameBlockNumPages fb <=? pagen) then kret tt
    else
      let! free := kopt (cpool_check (framePool fb) pagen) in
      if free : bool then kret tt
      else let! p := kopt (cpool_free heap_ok (framePool fb) pagen) in set_framePool p.

(** ** Calls on files ([cpio_dspace.c]) *)

(** [strncpy] into an array of [CPIO_RAMFS_MAX_FILENAME] characters. *)
Definition stored_name (name : list Z) : list Z :=
  take (Z.to_nat CPIO_RAMFS_MAX_FILENAME) (name ++ repeat 0 (Z.to_nat CPIO_RAMFS_MAX_FILENAME)).
(** The string that begins in an array goes on in the next ones up to a zero. *)
Fixpoint until_zero (l : list Z) : option (list Z) :=
  match l with [] => None | c :: l => if c =? 0 then Some [] else cons c <$> until_zero l end.
Definition name_at (names : list (list Z)) (i : nat) : option (list Z) := until_zero (concat (drop i names)).

(** The first file from [i] on among [n] with the name. *)
Fixpoint find_ramfs (n : nat) (names : list (list Z)) (name : list Z) (i : nat) : option (option Z) :=
  match n with
  | O => Some None
  | S n =>
      let? stored := name_at names i in
      if bool_decide (name = stored) then Some (Some (Z.of_nat i)) else find_ramfs n names name (S i)
  end.

(** The file with its size and whether it is of the RAM file system, or an error. *)
Definition open_file (name : list Z) (flags : Z) : F ((file_data * Z * bool) + refos_error) :=
  match cpio_get_file name with
  | Some bytes =>
      if negb (Z.land flags O_ACCMODE =? O_RDONLY) then kret (inr EACCESSDENIED)
      else kret (inl (CpioFile bytes, Z.of_nat (length bytes), false))
  | None =>
      let! names := gets ramfs_filename in
      let! cur := gets ramfs_curfile in
      let! found := kopt (find_ramfs (Z.to_nat cur) names name 0) in
      match found with
      | Some i =>
          kwhen (negb (Z.land flags O_CREAT =? 0))
            (let! a := gets ramfs_archive in
             let! a := kopt (write_archive a (archive_pos i 0) (repeat 0 (Z.to_nat CPIO_RAMFS_MAX_FILESSIZE))) in
             let! sizes := gets ramfs_filesz in
             let! sizes := kopt (store sizes i 0) in
             modify (upd_ramfs a names sizes cur)) ;;;
          let! sizes := gets ramfs_filesz in
          let! size := kopt (znth sizes i) in
          kret (inl (RamFile i, size, true))
      | None =>
          if Z.land flags O_CREAT =? 0 then kret (inr EFILENOTFOUND)
          else if CPIO_RAMFS_MAX_CREATED_FILES <=? cur then kret (inr EACCESSDENIED)
          else
            let! names := kopt (store names cur (stored_name name)) in
            modify (λ s, upd_ramfs (ramfs_archive s) names (ramfs_filesz s) (cur + 1) s) ;;;
            kret (inl (RamFile cur, 0, true))
      end
  end.

(** The capability, 0 with an error; [client] is the caller. *)
Definition fs_data_open_handler (client : Z) (rpc_name : option (list Z)) (flags : Z) : F (Z * refos_error) :=
  let! c := common (getClient client) in
  match rpc_name with
  | None => kret (0, EINVALIDPARAM)
  | Some name =>
      let! r := open_file name flags in
      match r with
      | inr error => kret (0, error)
      | inl (data, size, created) =>
          let! p := dspace_alloc (deathID c) data size O_RDONLY in
          if p =? 0 then kret (0, ENOMEM)
          else
            let! d := getFsDataspace p in
            setFsDataspace p (FsDataspace (dID d) (ds_deathID d) (dataspaceCap d) (ds_permissions d) (fileData d)
              (fileDataSize d) created) ;;;
            kassert (negb (dataspaceCap d =? 0)) ;;;
            kret (dataspaceCap d, ESUCCESS)
      end
  end.

Definition fs_data_close_handler (m : procserv_msg) (fd : Z) : F refos_error :=
  if negb (check_dispatch_caps m 1 1) then kret EINVALIDPARAM
  else
    let! p := dspace_get_badge fd in
    if p =? 0 then kret EINVALIDPARAM
    else fs_dspace_delete (fd - FS_DSPACE_BADGE_BASE) ;;; kret ESUCCESS.

(** The result and the bytes put into the buffer, which has [count]. *)
Definition fs_data_read_handler (m : procserv_msg) (fd offset count : Z) : F (Z * list Z) :=
  if negb (check_dispatch_caps m 1 1) then kret (4, [])
  else
    let! p := dspace_get_badge fd in
    if p =? 0 then kret (0, [])
    else
      let! d := getFsDataspace p in
      if fileDataSize d <=? offset then kret (0, [])
      else
        let count := Z.min (fileDataSize d - offset) count in
        let! b := read_file (fileData d) offset count in
        kret (count, b).

(** The first array from [i] on, among [n], that is the dataspace's gets its size. *)
Definition set_filesz (d : fs_dataspace) : F unit :=
  match fileData d with
  | RamFile i =>
      let! cur := gets ramfs_curfile in
      kwhen (i <? cur)
        (let! sizes := gets ramfs_filesz in
         let! sizes := kopt (store sizes i (fileDataSize d)) in
         modify (λ s, upd_ramfs (ramfs_archive s) (ramfs_filename s) sizes (ramfs_curfile s) s))
  | CpioFile _ => kret tt
  end.

Definition set_fileDataSize (size : Z) (d : fs_dataspace) : fs_dataspace :=
  FsDataspace (dID d) (ds_deathID d) (dataspaceCap d) (ds_permissions d) (fileData d) size (fileCreated d).
(** [-EINVALIDPARAM], [-EACCESSDENIED]; [buf] is the caller's buffer. *)
Definition fs_data_write_handler (m : procserv_msg) (fd offset : Z) (buf : list Z) : F Z :=
  let count := Z.of_nat (length buf) in
  if negb (check_dispatch_caps m 1 1) then kret (-4)
  else
    let! p := dspace_get_badge fd in
    if p =? 0 then kret 0
    else
      let! d := getFsDataspace p in
      if negb (fileCreated d) then kret (-8)
      else
        let grow := fileDataSize d <? w32 (offset + count) in
        kwhen grow (kassert (w32 (offset + count) <=? CPIO_RAMFS_MAX_FILESSIZE)) ;;;
        let d := if grow then set_fileDataSize (w32 (offset + count)) d else d in
        setFsDataspace p d ;;;
        set_filesz d ;;;
        write_file (fileData d) offset buf ;;;
        kret count.

Definition fs_data_get_size_handler (m : procserv_msg) (fd : Z) : F Z :=
  if negb (check_dispatch_caps m 1 1) then kret 0
  else
    let! p := dspace_get_badge fd in
    if p =? 0 then kret 0 else let! d := getFsDataspace p in kret (fileDataSize d).

Definition first_unwrapped (m : procserv_msg) : bool := Z.odd (msg_capsUnwrapped m).
(** [badge] is the one of the first capability of the message. *)
Definition fs_data_datamap_handler (m : procserv_msg) (badge fd window offset : Z) : F refos_error :=
  if negb (msg_extraCaps m =? 2) || negb (first_unwrapped m) then kret EINVALIDPARAM
  else
    kassert (badge =? fd) ;;;
    let! p := dspace_get_badge badge in
    if p =? 0 then kret EINVALIDPARAM
    else
      let! d := getFsDataspace p in
      let! memoryWindow := fcall (rpc_copyout_cptr window) in
      if memoryWindow =? 0 then kret EINVALIDPARAM
      else
        let! ep := gets (λ s, notifyClientFaultDeathAsyncEP (commonState s)) in
        let! ' (error, winID) := fcall (fs_register_as_pager memoryWindow ep) in
        if negb (bool_decide (error = ESUCCESS)) then common (slot_free memoryWindow) ;;; kret EINVALID
        else
          let! error := dspace_window_associate winID (dID d) offset memoryWindow in
          if negb (bool_decide (error = ESUCCESS)) then common (slot_free memoryWindow) ;;; kret error
          else kret ESUCCESS.

Definition fs_data_dataunmap_handler (m : procserv_msg) (window : Z) : F refos_error :=
  if negb (msg_extraCaps m =? 1) || negb (first_unwrapped m) then kret EINVALIDPARAM
  else
    let! memoryWindow := fcall (rpc_copyout_cptr window) in
    if memoryWindow =? 0 then kret EINVALIDPARAM
    else
      let! winID := fcall (proc_window_getID memoryWindow) in
      if winID <? 0 then common (slot_free memoryWindow) ;;; kret EINVALIDPARAM
      else
        dspace_window_unassociate winID ;;;
        common (slot_free memoryWindow) ;;;
        kret ESUCCESS.

Definition fs_data_init_data_handler (m : procserv_msg) (dest src offset : Z) : F refos_error :=
  if negb (check_dispatch_caps m 2 2) then kret EINVALIDPARAM
  else
    let! p := dspace_get_badge src in
    if p =? 0 then kret EINVALIDPARAM
    else
      let! d := getFsDataspace p in
      let! destDataspace := fcall (rpc_copyout_cptr dest) in
      if destDataspace =? 0 then kret ENOMEM
      else
        let! ep := gets (λ s, notifyClientFaultDeathAsyncEP (commonState s)) in
        let! ' (error, dataID) := fcall (fs_have_data destDataspace ep) in
        if negb (bool_decide (error = ESUCCESS)) || (dataID =? w32 (-1)) then
          common (slot_delete destDataspace) ;;; kret EINVALID
        else
          let! error := dspace_external_associate dataID (dID d) offset destDataspace in
          if negb (bool_decide (error = ESUCCESS)) then
            fcall_ (fs_unhave_data destDataspace) ;;; common (slot_delete destDataspace) ;;; kret error
          else kret ESUCCESS.

(** ** Notifications ([fault_notify.c]) *)
Definition set_frame_page (vaddr : Z) (page : list Z) : F unit :=
  modify (λ s, upd_frame_pages (<[vaddr := page]> (frame_pages s)) s).

(** The page for a fault at [faultAddr] in a window at [winBase]: the number of
    bytes that the window leaves free at its start, the place in the window, and
    the number of bytes of the file, all words. *)
Definition initFrameSkip (winBase alignedFaultAddr : Z) : Z :=
  if alignedFaultAddr <? winBase then winBase - alignedFaultAddr else 0.
Definition dataspaceSkipWinOffset (winBase alignedFaultAddr : Z) : Z :=
  if alignedFaultAddr <? winBase then 0 else alignedFaultAddr - winBase.
Definition fault_nbytes (size dsOffset winSize skip winOffset : Z) : Z :=
  Z.min (Z.min (w32 (REFOS_PAGE_SIZE - skip)) (w32 (size - winOffset - dsOffset))) (w32 (winSize - winOffset)).
Definition nbytes_overflowed (size dsOffset winOffset : Z) : bool :=
  (size <? w32 (size - winOffset - dsOffset)) || (size <? w32 (size - winOffset)) || (size <? w32 (size - dsOffset)).

Definition handle_fileserver_fault (n : notification_t) : F Z :=
  match arg n with
  | winID :: winSize :: faultAddr :: winBase :: _ =>
      let! dwa := dspace_window_find winID in
      kassert (negb (dwa =? 0)) ;;;
      let! a := getAssoc dwa in
      let! p := dspace_get (dataspaceID a) in
      kassert (negb (p =? 0)) ;;;
      let! d := getFsDataspace p in
      let faultAddrWinOffset := w32 (faultAddr - winBase) in
      let! pframe := pager_alloc_frame in
      if pframe =? 0 then kret DISPATCH_ERROR
      else
        let aligned := REFOS_PAGE_ALIGN faultAddr in
        let skip := initFrameSkip winBase aligned in
        let winOffset := dataspaceSkipWinOffset winBase aligned in
        let nbytes := fault_nbytes (fileDataSize d) (dataspaceOffset a) winSize skip winOffset in
        kassert (negb (nbytes_overflowed (fileDataSize d) (dataspaceOffset a) winOffset)) ;;;
        let! b := read_file (fileData d) (w32 (dataspaceOffset a + winOffset)) nbytes in
        let! page := kopt (store_bytes (repeat 0 (Z.to_nat REFOS_PAGE_SIZE)) skip b) in
        set_frame_page pframe page ;;;
        let! error := fcall (proc_window_map (objectCap a) faultAddrWinOffset pframe) in
        kassert (bool_decide (error = ESUCCESS)) ;;;
        kret DISPATCH_SUCCESS
  | _ => kfail
  end.

Definition handle_fileserver_content_init (n : notification_t) : F Z :=
  match arg n with
  | dataID :: destDataspaceOffset :: _ =>
      let! dda := dspace_external_find dataID in
      kassert (negb (dda =? 0)) ;;;
      let! a := getAssoc dda in
      let! p := dspace_get (dataspaceID a) in
      kassert (negb (p =? 0)) ;;;
      let! d := getFsDataspace p in
      let offset := w32 (destDataspaceOffset + dataspaceOffset a) in
      let contentSize := Z.min (w32 (fileDataSize d - offset)) REFOS_PAGE_SIZE in
      kassert (offset <? fileDataSize d) ;;;
      let! b := read_file (fileData d) offset contentSize in
      let! error := fcall (data_provide_data (objectCap a) destDataspaceOffset b) in
      kassert (bool_decide (error = ESUCCESS)) ;;;
      kret DISPATCH_SUCCESS
  | _ => kfail
  end.

Definition handle_fileserver_death_notification (n : notification_t) : F Z :=
  match arg n with
  | deathID :: _ => common (client_queue_delete deathID) ;;; kret DISPATCH_SUCCESS
  | [] => kfail
  end.

Definition dispatch_notification : srv_common_notify_handler_callbacks_t fs_state :=
  Callbacks (Some handle_fileserver_fault) (Some handle_fileserver_content_init)
    (Some handle_fileserver_death_notification).
End FileServer.
