(* ===== verification/Devices.v ===== *)
(** * The timer and the console servers

    Models the servers of devices, [apps/timer_server/src/] and
    [apps/console_server/src/], for the ARM build: the sleeping clients of the
    timer ([device_timer.c], [timer_dspace.c]), the clients that wait for input
    and the backlog of characters ([device_input.c], [stdio_dspace.c],
    [screen_dspace.c]), the dispatch of dataspace calls ([dspace.c]), and the
    notification of deaths ([client_watch.c]).

    The drivers of the devices, the kernel and the replies are the environment
    [DeviceEnv].  Both servers keep the clients that wait in a vector of
    addresses of their structures, with a capability to reply to each. *)

From S2P Require Import Prelude.
From S2P Require Import Word32.
From S2P Require Import DataStruct.
From S2P Require Import WindowAssoc.
From S2P Require Import Procserv.
From S2P Require Import Dataspace.
From S2P Require Import Memserv.
From S2P Require Import RingBuffer.
From S2P Require Import Process.
From S2P Require Import Proc.
From S2P Require Import Share.
From S2P Require Import Handlers.
From S2P Require Import Servlib.

Class DeviceEnv `{SE : ServerEnv} : Type := {
  (* the caller's reply capability into a slot *)
  cnode_save_caller : Z → senv → bool * senv;
  (* an answer through a saved reply capability: the capability, the value *)
  reply_data_write : Z → Z → senv → senv;
  reply_data_getc : Z → Z → senv → senv;
  (* the clock; whether it counts upwards *)
  timer_get_time : senv → Z * senv;
  upcounter : bool;
  timer_handle_irq : Z → senv → senv;
  tick_handle_irq : Z → senv → senv;
  (* the serial device: a character, or -1; how many it holds at most *)
  cdev_handle_irq : Z → senv → senv;
  cdev_getchar : senv → Z * senv;
  cdev_waiting : senv → nat;
  cdev_putchar : Z → senv → senv;
  (* the virtual terminal of a screen *)
  vterm_write : list Z → senv → senv
}.

(** The numbers of [enum refos_error]. *)
Definition refos_error_number (e : refos_error) : Z :=
  match e with
  | ESUCCESS => 0 | ENOMEM => 1 | EINVALID => 2 | EUNKNOWNCLIENT => 3 | EINVALIDPARAM => 4
  | ESERVERNOTFOUND => 5 | EINVALIDWINDOW => 6 | ESERVICEUNAVAILABLE => 7 | EACCESSDENIED => 8
  | EUNMAPFIRST => 9 | EFILENOTFOUND => 10 | EENDOFFILE => 11 | EDEVICENOTFOUND => 12
  | ENOPARAMBUFFER => 13 | EUNIMPLEMENTED => 14 | EDELEGATED => 15
  end.

Definition TICK_TIMER_PERIOD : Z := 2000000.
Definition TICK_TIMER_SCALE_NS : Z := 1.
Definition TIMER_PERIODIC_MAX : Z := 2 ^ 32 / 66 * 1000.
Definition TIMESERV_DSPACE_BADGE_TIMER : Z := 0x26.
Definition CONSERV_DSPACE_BADGE_STDIO : Z := 0x28.
Definition CONSERV_DSPACE_BADGE_SCREEN : Z := 0x27.
Definition CONSERV_DEVICE_INPUT_BACKLOG_MAXSIZE : Z := 2.
Definition INPUT_WAITERTYPE_GETC : bool := false.
(** The bit of a badge that tells notifications from calls, and the one of the
    process server; the two servers have the same. *)
Definition ASYNC_BADGE_MASK : Z := 2 ^ 19.
Definition ASYNC_NOTIFY_BADGE : Z := 1.

Record device_timer_waiter : Type := TimerWaiter { tw_time : Z; tw_reply : Z; tw_client : Z }.
Record input_waiter : Type := InputWaiter { iw_reply : Z; iw_client : Z; iw_type : bool }.
Record device_timer_state : Type := TimerState {
  cumulativeTime : Z;
  timerIRQPeriod : Z;
  timerBadgeEP : Z
}.
Record conserv_state : Type := ConservState {
  inputBacklog : cqueue_t;
  screen_initialised : bool;
  serialBadgeEP : Z;
  screenBadgeEP : Z
}.

Section Devices.
Context {SE : ServerEnv} {DE : DeviceEnv}.

(** ** A server with waiting clients: [D] is the state of its device, [W] the
    structures of those that wait; [skip_reply] is the flag of a client's
    connection that keeps the stubs from answering *)
Record dev_server (D W : Type) : Type := DevServer {
  dv_common : srv_common;
  skip_reply : gmap Z bool;
  waiterList : cvector_t Z;
  waiters : gmap Z W;
  device : D
}.
#[global] Arguments DevServer {D W}.
#[global] Arguments dv_common {D W}.
#[global] Arguments skip_reply {D W}.
#[global] Arguments waiterList {D W}.
#[global] Arguments waiters {D W}.
#[global] Arguments device {D W}.

Section Waiting.
Context {D W : Type}.
Definition DV (A : Type) : Type := M (dev_server D W) A.

Definition upd_dv_common (v : srv_common) (s : dev_server D W) : dev_server D W :=
  DevServer v (skip_reply s) (waiterList s) (waiters s) (device s).
Definition upd_skip_reply (v : gmap Z bool) (s : dev_server D W) : dev_server D W :=
  DevServer (dv_common s) v (waiterList s) (waiters s) (device s).
Definition upd_waiterList (v : cvector_t Z) (s : dev_server D W) : dev_server D W :=
  DevServer (dv_common s) (skip_reply s) v (waiters s) (device s).
Definition upd_waiters (v : gmap Z W) (s : dev_server D W) : dev_server D W :=
  DevServer (dv_common s) (skip_reply s) (waiterList s) v (device s).
Definition upd_device (v : D) (s : dev_server D W) : dev_server D W :=
  DevServer (dv_common s) (skip_reply s) (waiterList s) (waiters s) v.

Definition dcommon {A} (m : V A) : DV A := λ s,
  match m (dv_common s) with
  | Ok a c => Ok a (upd_dv_common c s)
  | Panic => Panic
  | NoFuel => NoFuel
  end.
Definition dcall {A} (f : senv → A * senv) : DV A := dcommon (scall f).
Definition dcall_ (f : senv → senv) : DV unit := dcommon (scall_ f).
Definition getWaiter (p : Z) : DV W := λ s,
  match waiters s !! p with Some w => Ok w s | None => Panic end.
Definition set_skip_reply (client : Z) (b : bool) : DV unit :=
  dcommon (getClient client) ;;; modify (λ s, upd_skip_reply (<[client := b]> (skip_reply s)) s).

(** The structure that [prepare] fills in but for the slot goes to the end of
    the list, and the caller's reply capability to the slot; whether the vector
    could grow is not looked at. *)
Definition save_caller_as_waiter (prepare : DV (Z → W)) : DV refos_error :=
  let! p := dcall heap_object in
  match p with
  | None => kret ENOMEM
  | Some p =>
      let! w := prepare in
      let! slot := dcommon slot_alloc in
      if slot =? 0 then kret ENOMEM
      else
        let! ok := dcall (cnode_save_caller slot) in
        if ok : bool then
          modify (λ s, upd_waiters (<[p := w slot]> (waiters s)) s) ;;;
          let! v := gets waiterList in
          let! ' (v, _) := kopt (cvector_add heap_ok v p) in
          modify (upd_waiterList v) ;;;
          kret ESUCCESS
        else dcommon (slot_free slot) ;;; kret EINVALID
  end.

(** The answer to a client that waited; the slot and the structure go. *)
Definition answer_waiter (client : Z) (reply : senv → senv) : DV unit :=
  set_skip_reply client false ;;; dcall_ reply.
Definition free_waiter (p slot : Z) : DV unit :=
  dcommon (slot_delete slot) ;;; modify (λ s, upd_waiters (delete p (waiters s)) s).
Definition remove_waiter (i : Z) : DV unit :=
  let! v := gets waiterList in
  let! v := kopt (cvector_delete heap_ok v i) in
  modify (upd_waiterList v).

(** The death of a client ([client_watch.c]): who waits is left as it is. *)
Definition handle_death_notification (n : notification_t) : DV Z :=
  match arg n with
  | death :: _ =>
      let! error := dcommon (client_queue_delete_deathID death) in
      kassert (error =? 0) ;;;
      kret DISPATCH_SUCCESS
  | [] => kfail
  end.
Definition death_callbacks : srv_common_notify_handler_callbacks_t (dev_server D W) :=
  Callbacks None None (Some handle_death_notification).
(** With the notifications of the process server in the ring, [DISPATCH_PASS]
    for a message that does not tell of any. *)
Definition dispatch_client_watch (badge : Z) : M (notify_state (dev_server D W)) Z :=
  if Z.land badge ASYNC_BADGE_MASK =? 0 then kret DISPATCH_PASS
  else if Z.land badge ASYNC_NOTIFY_BADGE =? 0 then kret DISPATCH_PASS
  else srv_dispatch_notification heap_ok death_callbacks.
End Waiting.

(** ** The timer server *)
Section Timer.
Definition timeserv : Type := dev_server device_timer_state device_timer_waiter.
Definition T (A : Type) : Type := M timeserv A.

(** The time in nanoseconds. *)
Definition device_timer_get_time : T Z :=
  let! d := gets device in
  let! time := dcall timer_get_time in
  kassert (upcounter || (time <=? timerIRQPeriod d)) ;;;
  let time := if upcounter then time else timerIRQPeriod d - time in
  kret (w64 (w64 (time + cumulativeTime d) * TICK_TIMER_SCALE_NS)).

(** The [n] waiters from [i] on: those whose time has come are answered. *)
Fixpoint sleepers_loop (n : nat) (i time : Z) : T unit :=
  match n with
  | O => kret tt
  | S n =>
      let! v := gets waiterList in
      let! p := kopt (cvector_get v i) in
      let! w := getWaiter p in
      kassert (negb (tw_reply w =? 0) && negb (tw_client w =? 0)) ;;;
      if time <? tw_time w then sleepers_loop n (i + 1) time
      else
        answer_waiter (tw_client w) (reply_data_write (tw_reply w) 4) ;;;
        free_waiter p (tw_reply w) ;;;
        remove_waiter i ;;;
        sleepers_loop n i time
  end.
Definition device_timer_update_sleepers : T unit :=
  let! time := device_timer_get_time in
  let! v := gets waiterList in
  sleepers_loop (Z.to_nat (cvector_count v)) 0 time.

(** The interrupt of the clock when it overflows, and the one of the ticks. *)
Definition device_timer_handle_irq (irq : Z) : T unit :=
  let! d := gets device in
  kassert (0 <? timerIRQPeriod d) ;;;
  modify (upd_device (TimerState (w64 (cumulativeTime d + timerIRQPeriod d)) (timerIRQPeriod d) (timerBadgeEP d))) ;;;
  dcall_ (timer_handle_irq irq) ;;;
  device_timer_update_sleepers.
Definition device_tick_handle_irq (irq : Z) : T unit :=
  dcall_ (tick_handle_irq irq) ;;; device_timer_update_sleepers.

Definition device_timer_save_caller_as_waiter (client waitTime : Z) : T refos_error :=
  save_caller_as_waiter (
    let! now := device_timer_get_time in
    kret (λ slot, TimerWaiter (w64 (waitTime / TICK_TIMER_SCALE_NS + now)) slot client)).

Definition timer_open_handler : T (Z * refos_error) :=
  let! d := gets device in
  kassert (negb (timerBadgeEP d =? 0)) ;;;
  kret (timerBadgeEP d, ESUCCESS).
(** A sleep; the buffer begins with the time to wait.  A [client] is [None] for
    a caller without a session, for whom an assertion fails. *)
Definition word64_of (buf : list Z) : Z := word_of_bytes (take 4 buf) + 2 ^ 32 * word_of_bytes (take 4 (drop 4 buf)).
Definition timer_write_handler (client : option Z) (buf : list Z) : T Z :=
  let! client := kopt client in
  if Z.of_nat (length buf) <? 8 then kret (- refos_error_number EINVALIDPARAM)
  else
    let! error := device_timer_save_caller_as_waiter client (word64_of buf) in
    kwhen (bool_decide (error = ESUCCESS)) (set_skip_reply client true) ;;;
    kret (- refos_error_number error).
(** The time; the result and the bytes put into a buffer of [count]. *)
Definition timer_read_handler (count : Z) : T (Z * list Z) :=
  if count =? 0 then kret (- refos_error_number EINVALIDPARAM, [])
  else if count <? 8 then kret (0, [])
  else
    let! time := device_timer_get_time in
    kret (8, bytes_of_word (w32 time) ++ bytes_of_word (w32 (time / 2 ^ 32))).

(** *** The calls on dataspaces ([dspace.c]); a name is its characters *)
Definition name_timer : list Z := [116; 105; 109; 101; 114].
Definition name_time : list Z := [116; 105; 109; 101].
Definition timeserv_open_handler (rpc_name : option (list Z)) : T (Z * refos_error) :=
  match rpc_name with
  | None => kret (0, EFILENOTFOUND)
  | Some name =>
      if bool_decide (name = name_timer) || bool_decide (name = name_time)
      then timer_open_handler else kret (0, EFILENOTFOUND)
  end.
Definition timeserv_close_handler (m : procserv_msg) (fd : Z) : T refos_error :=
  if negb (srv_check_dispatch_caps m 1 1) then kret EINVALIDPARAM
  else if fd =? TIMESERV_DSPACE_BADGE_TIMER then kret ESUCCESS else kret EFILENOTFOUND.
Definition timeserv_read_handler (m : procserv_msg) (fd count : Z) : T (Z * list Z) :=
  if negb (srv_check_dispatch_caps m 1 1) then kret (- refos_error_number EINVALIDPARAM, [])
  else if fd =? TIMESERV_DSPACE_BADGE_TIMER then timer_read_handler count
  else kret (- refos_error_number EFILENOTFOUND, []).
Definition timeserv_write_handler (m : procserv_msg) (client : option Z) (fd : Z) (buf : list Z) : T Z :=
  if negb (srv_check_dispatch_caps m 1 1) then kret (- refos_error_number EINVALIDPARAM)
  else if fd =? TIMESERV_DSPACE_BADGE_TIMER then timer_write_handler client buf
  else kret (- refos_error_number EFILENOTFOUND).
End Timer.

(** ** The console server *)
Section Console.
Definition conserv : Type := dev_server conserv_state input_waiter.
Definition CS (A : Type) : Type := M conserv A.

Definition set_inputBacklog (q : cqueue_t) : CS unit :=
  modify (λ s, let d := device s in
    upd_device (ConservState q (screen_initialised d) (serialBadgeEP d) (screenBadgeEP d)) s).
(** The oldest character, 0 when there is none. *)
Definition backlog_pop : CS Z :=
  let! d := gets device in
  let! ' (q, c) := kopt (cqueue_pop (inputBacklog d)) in
  set_inputBacklog q ;;; kret c.

(** A round takes a character off a backlog that is too long. *)
Fixpoint prune_backlog (n : nat) : CS unit :=
  let! d := gets device in
  if cqueue_size (inputBacklog d) <? CONSERV_DEVICE_INPUT_BACKLOG_MAXSIZE then kret tt
  else match n with O => kdiverge | S n => backlog_pop ;;; prune_backlog n end.
Definition input_push_char (c : Z) : CS unit :=
  let! d := gets device in
  prune_backlog (Z.to_nat (cqueue_size (inputBacklog d))) ;;;
  let! d := gets device in
  let! ' (q, success) := kopt (cqueue_push (inputBacklog d) c) in
  set_inputBacklog q.

(** The characters of the device, until it has none. *)
Fixpoint getchar_loop (n : nat) : CS unit :=
  let! c := dcall cdev_getchar in
  if c =? -1 then kret tt
  else match n with O => kdiverge | S n => input_push_char c ;;; getchar_loop n end.

(** The [n] waiters from [i] on, while there are characters. *)
Fixpoint input_waiters_loop (n : nat) (i : Z) : CS unit :=
  match n with
  | O => kret tt
  | S n =>
      let! v := gets waiterList in
      let! p := kopt (cvector_get v i) in
      let! w := getWaiter p in
      kassert (negb (iw_reply w =? 0) && negb (iw_client w =? 0)) ;;;
      let! d := gets device in
      if cqueue_size (inputBacklog d) <=? 0 then kret tt
      else
        set_skip_reply (iw_client w) false ;;;
        kassert (Bool.eqb (iw_type w) INPUT_WAITERTYPE_GETC) ;;;
        let! ch := backlog_pop in
        dcall_ (reply_data_getc (iw_reply w) ch) ;;;
        free_waiter p (iw_reply w) ;;;
        let! v := gets waiterList in
        let! v := kopt (cvector_set v i 0) in
        modify (upd_waiterList v) ;;;
        remove_waiter i ;;;
        input_waiters_loop n i
  end.
Definition input_handle_irq (irq : Z) : CS unit :=
  dcall_ (cdev_handle_irq irq) ;;;
  let! s := gets id in
  getchar_loop (cdev_waiting (srv_env (dv_common s))) ;;;
  let! v := gets waiterList in
  input_waiters_loop (Z.to_nat (cvector_count v)) 0.

(** At most [n] characters. *)
Fixpoint input_read_loop (n : nat) : CS (list Z) :=
  match n with
  | O => kret []
  | S n =>
      let! d := gets device in
      if cqueue_size (inputBacklog d) <=? 0 then kret []
      else let! c := backlog_pop in let! cs := input_read_loop n in kret (c :: cs)
  end.
(** The characters read, into a buffer of [count]. *)
Definition input_read (count : Z) : CS (list Z) := input_read_loop (Z.to_nat count).
Definition input_save_caller_as_waiter (client : Z) (type : bool) : CS refos_error :=
  save_caller_as_waiter (kret (λ slot, InputWaiter slot client type)).

(** *** The serial device and the screen *)
Definition serial_open_handler : CS (Z * refos_error) :=
  let! d := gets device in
  kassert (negb (serialBadgeEP d =? 0)) ;;; kret (serialBadgeEP d, ESUCCESS).
Definition serial_write_handler (buf : list Z) : CS Z :=
  kfor buf (λ c, dcall_ (cdev_putchar c)) ;;; kret (Z.of_nat (length buf)).
(** [-1] without a character, and for a caller that is to wait. *)
Definition serial_getc_handler (client block : Z) : CS Z :=
  let! cs := input_read 1 in
  match cs with
  | c :: _ => kret c
  | [] =>
      if block =? 0 then kret (-1)
      else
        set_skip_reply client true ;;;
        input_save_caller_as_waiter client INPUT_WAITERTYPE_GETC ;;;
        kret (-1)
  end.
Definition serial_putc_handler (c : Z) : CS refos_error := dcall_ (cdev_putchar c) ;;; kret ESUCCESS.

Definition device_screen_write (buf : list Z) : CS unit :=
  let! d := gets device in
  if negb (screen_initialised d) && bool_decide (buf = []) then kret tt else dcall_ (vterm_write buf).
Definition screen_open_handler : CS (Z * refos_error) :=
  let! d := gets device in
  kassert (negb (screenBadgeEP d =? 0)) ;;;
  if screen_initialised d then kret (screenBadgeEP d, ESUCCESS) else kret (0, EFILENOTFOUND).
Definition screen_write_handler (buf : list Z) : CS Z :=
  let! d := gets device in
  if negb (screen_initialised d) then kret (-1)
  else device_screen_write buf ;;; kret (Z.of_nat (length buf)).
Definition screen_getc_handler (client block : Z) : CS Z := serial_getc_handler client block.
(** The number of the error. *)
Definition screen_putc_handler (c : Z) : CS Z :=
  let! d := gets device in
  if negb (screen_initialised d) then kret (-1)
  else device_screen_write [field 8 c] ;;; kret (refos_error_number ESUCCESS).

(** *** The calls on dataspaces ([dspace.c]) *)
Definition name_serial : list Z := [115; 101; 114; 105; 97; 108].
Definition name_stdio : list Z := [115; 116; 100; 105; 111].
Definition name_screen : list Z := [115; 99; 114; 101; 101; 110].
Definition name_keyboard : list Z := [107; 101; 121; 98; 111; 97; 114; 100].
Definition conserv_open_handler (rpc_name : option (list Z)) : CS (Z * refos_error) :=
  match rpc_name with
  | None => kret (0, EFILENOTFOUND)
  | Some name =>
      if bool_decide (name = name_serial) || bool_decide (name = name_stdio) then serial_open_handler
      else if bool_decide (name = name_screen) || bool_decide (name = name_keyboard) then screen_open_handler
      else kret (0, EFILENOTFOUND)
  end.
Definition is_device (fd : Z) : bool := (fd =? CONSERV_DSPACE_BADGE_STDIO) || (fd =? CONSERV_DSPACE_BADGE_SCREEN).
Definition conserv_close_handler (m : procserv_msg) (fd : Z) : CS refos_error :=
  if negb (srv_check_dispatch_caps m 1 1) then kret EINVALIDPARAM
  else if is_device fd then kret ESUCCESS else kret EFILENOTFOUND.
Definition conserv_read_handler (m : procserv_msg) (fd : Z) : CS Z :=
  if negb (srv_check_dispatch_caps m 1 1) then kret (- refos_error_number EINVALIDPARAM)
  else if is_device fd then kret (- refos_error_number EACCESSDENIED)
  else kret (- refos_error_number EFILENOTFOUND).
Definition conserv_write_handler (m : procserv_msg) (fd : Z) (buf : list Z) : CS Z :=
  if negb (srv_check_dispatch_caps m 1 1) then kret (- refos_error_number EINVALIDPARAM)
  else if fd =? CONSERV_DSPACE_BADGE_STDIO then serial_write_handler buf
  else if fd =? CONSERV_DSPACE_BADGE_SCREEN then screen_write_handler buf
  else kret (- refos_error_number EFILENOTFOUND).
Definition conserv_getc_handler (m : procserv_msg) (client : option Z) (fd block : Z) : CS Z :=
  match client with
  | None => kret (-1)
  | Some client =>
      if negb (srv_check_dispatch_caps m 1 1) then kret (-1)
      else if fd =? CONSERV_DSPACE_BADGE_STDIO then serial_getc_handler client block
      else if fd =? CONSERV_DSPACE_BADGE_SCREEN then screen_getc_handler client block
      else kret (-1)
  end.
Definition conserv_putc_handler (m : procserv_msg) (fd c : Z) : CS Z :=
  if negb (srv_check_dispatch_caps m 1 1) then kret (refos_error_number EINVALIDPARAM)
  else if fd =? CONSERV_DSPACE_BADGE_STDIO then
    let! error := serial_putc_handler c in kret (refos_error_number error)
  else if fd =? CONSERV_DSPACE_BADGE_SCREEN then screen_putc_handler c
  else kret (refos_error_number EFILENOTFOUND).
End Console.
End Devices.
