(* ===== verification/Fault.v ===== *)
(** * Page faults of processes

    The fault handler of the process server
    ([apps/process_server/src/dispatchers/fault_handler.c]): a fault in a window
    that shows a dataspace maps the page of the dataspace, or waits for its
    content; one in a window with a pager is delegated to it; any other blocks
    the process.  Printing is left out. *)

From S2P Require Import Prelude.
From S2P Require Import Word32.
From S2P Require Import DataStruct.
From S2P Require Import WindowAssoc.
From S2P Require Import Procserv.
From S2P Require Import Dataspace.
From S2P Require Import Memserv.
From S2P Require Import RingBuffer.
From S2P Require Import AddrSpace.
From S2P Require Import Process.
From S2P Require Import Proc.
From S2P Require Import Handlers.

Record procserv_vmfault_msg : Type := VmFault {
  vf_pid : Z;
  vf_pc : Z;
  faultAddr : Z;
  vf_instruction : Z;
  vf_fsr : Z;
  vf_read : bool
}.
Definition seL4_VMFault : Z := 2.
Definition seL4_NoFault : Z := 0.

Section Fault.
Context {E : Env}.

Definition fault_delegate_notification (f : procserv_vmfault_msg) (delegation delegationEP : Z)
    (vmFaultNotification : list Z) (saveReply : bool) : P unit :=
  let! q := getPcb delegation in
  match notificationBuffer q with
  | None => kret tt
  | Some _ =>
      let! error := if saveReply then proc_save_caller (vf_pid f) else kret ESUCCESS in
      if negb (bool_decide (error = ESUCCESS)) then kret tt
      else
        let! q := getPcb delegation in
        let! buf := kopt (notificationBuffer q) in
        let! error := notify_buffer delegation buf vmFaultNotification in
        if negb (bool_decide (error = ESUCCESS)) then kret tt
        else dispatcher_notify delegationEP
  end.

(** The delegation of a fault on content that is not there yet. *)
Definition delegate_content_init (f : procserv_vmfault_msg) (aw : w_associated_window) (w : w_window)
    (dspace dspaceOffset : Z) : P refos_error :=
  if w32 (aw_offset aw + aw_size aw) <=? w32 (faultAddr f + w_ramDataspaceOffset w) then kret EINVALID
  else
    let! d := getDspace dspace in
    kassert (negb (contentInitPID d =? PID_NULL)) ;;;
    let! cinitPCB := pid_get_pcb (contentInitPID d) in
    match cinitPCB with
    | None => kret EINVALID
    | Some _ =>
        if contentInitEP d =? 0 then kret EINVALID
        else
          let! error := ram_dspace_add_content_init_waiter_save_current_caller dspace dspaceOffset in
          if negb (bool_decide (error = ESUCCESS)) then kret EINVALID
          else
            let! msg := proc_notification PROCSERV_NOTIFY_CONTENT_INIT
              [rds_ID d; REFOS_PAGE_ALIGN dspaceOffset] in
            fault_delegate_notification f (contentInitPID d) (contentInitEP d) msg false ;;;
            kret EDELEGATED
    end.

Definition map_dspace_page (f : procserv_vmfault_msg) (dspace dspaceOffset : Z) : P refos_error :=
  let! frame := ram_dspace_get_page dspace dspaceOffset in
  if frame =? 0 then kret ENOMEM else vs_map (vf_pid f) (faultAddr f) [frame].

Definition handle_vm_fault_dspace (f : procserv_vmfault_msg) (aw : w_associated_window) (window : Z) :
    P refos_error :=
  let! w := getWindow window in
  kassert (bool_decide (w_mode w = W_MODE_ANONYMOUS)) ;;;
  let dspaceOffset := w32 (faultAddr f + w_ramDataspaceOffset w - REFOS_PAGE_ALIGN (aw_offset aw)) in
  let dspace := w_ramDataspace w in
  let! d := getDspace dspace in
  if contentInitEnabled d then
    let! state := ram_dspace_need_content_init dspace dspaceOffset in
    match state with
    | inr _ => kret EINVALID
    | inl true => delegate_content_init f aw w dspace dspaceOffset
    | inl false => map_dspace_page f dspace dspaceOffset
    end
  else map_dspace_page f dspace dspaceOffset.

Definition handle_vm_fault_pager (f : procserv_vmfault_msg) (aw : w_associated_window) (window : Z) :
    P refos_error :=
  let! w := getWindow window in
  kassert (bool_decide (w_mode w = W_MODE_PAGER)) ;;;
  let! msg := proc_notification PROCSERV_NOTIFY_FAULT_DELEGATION
    [w_wID w; w_size w; faultAddr f; aw_offset aw; vf_instruction f; w_permissions w; vf_pc f] in
  kassert (negb (w_pagerPID w =? PID_NULL)) ;;;
  let! pagerPCB := pid_get_pcb (w_pagerPID w) in
  match pagerPCB with
  | None => kret EINVALID
  | Some _ =>
      fault_delegate_notification f (w_pagerPID w) (w_pager w) msg true ;;;
      kret EDELEGATED
  end.

Definition handle_vm_fault (f : procserv_vmfault_msg) : P unit :=
  let! p := getPcb (vf_pid f) in
  if negb (faultReply p =? 0) then kret tt
  else
    let! aw := with_windows (vf_pid f) (λ aw, w_associate_find qsort aw (faultAddr f)) in
    match aw with
    | None => kret tt
    | Some aw =>
        let! window := w_get_window (aw_winID aw) in
        kassert (negb (window =? 0)) ;;;
        let! w := getWindow window in
        if vf_read f && (Z.lor (w_permissions w) W_PERMISSION_READ =? 0) then kret tt
        else if negb (vf_read f) && (Z.lor (w_permissions w) W_PERMISSION_WRITE =? 0) then kret tt
        else
          let! pageEntry := vs_get_frame (vf_pid f) (faultAddr f) in
          if negb (pageEntry =? 0) then kret tt
          else
            let! error :=
              match w_mode w with
              | W_MODE_EMPTY => kret EINVALID
              | W_MODE_ANONYMOUS => handle_vm_fault_dspace f aw window
              | W_MODE_PAGER => handle_vm_fault_pager f aw window
              end in
            kwhen (bool_decide (error = ESUCCESS)) (call_ seL4_Reply)
    end.

(** Whether the message is a fault of a process. *)
Definition check_dispatch_fault (m : procserv_msg) : bool :=
  (msg_label m =? seL4_VMFault) && dispatcher_badge_PID (msg_badge m).

(** [None] passes the message on, [false] is an error.  [pc], [addr], the
    prefetch flag, [fsr] and the direction are the registers of the message. *)
Definition dispatch_vm_fault (m : procserv_msg) (pc addr prefetch fsr : Z) (is_read : bool) : P (option bool) :=
  if negb (check_dispatch_fault m) then kret None
  else
    let! pcb := pid_get_pcb_from_badge (msg_badge m) in
    match pcb with
    | None => kret (Some false)
    | Some pcb =>
        kassert (pcb_pid pcb =? msg_badge m - PID_BADGE_BASE) ;;;
        handle_vm_fault (VmFault (msg_badge m - PID_BADGE_BASE) pc addr prefetch fsr is_read) ;;;
        kret (Some true)
    end.

(** The process that a system call of an interface is for; [None] passes the
    message on, [Some None] is an error. *)
Definition check_dispatch_interface (m : procserv_msg) (syscallFunc labelMin labelMax : Z) :
    P (option (option Z)) :=
  if negb (msg_label m =? seL4_NoFault) || negb (dispatcher_badge_PID (msg_badge m)) then kret None
  else
    let! pcb := pid_get_pcb_from_badge (msg_badge m) in
    match pcb with
    | None => kret (Some None)
    | Some _ =>
        if (syscallFunc <=? labelMin) || (labelMax <=? syscallFunc) then kret None
        else kret (Some (Some (msg_badge m - PID_BADGE_BASE)))
    end.
End Fault.
