(* ===== verification/RingBufferInv.v ===== *)
(** * Ring buffers as queues of bytes

    [view s p c]: the contents of the dataspace [p] are [c]; the operations on
    dataspaces change views when memory is not exhausted ([EnvPlenty]).  A ring
    of [n] bytes from [st] on holds the queue [ring_queue]; writing at its end
    appends to the queue. *)

From S2P Require Import Prelude.
From S2P Require Import Word32.
From S2P Require Import DataStruct.
From S2P Require Import WindowAssoc.
From S2P Require Import Procserv.
From S2P Require Import Dataspace.
From S2P Require Import DataspaceInv.
From S2P Require Import Memserv.
From S2P Require Import RingBuffer.

(** ** Rings *)
Section Ring.
Local Open Scope nat_scope.
Context (n : nat).

Definition wrap (x : nat) : nat := if decide (x < n) then x else x - n.
(** The way from [a] to [b]. *)
Definition dist (a b : nat) : nat := if decide (a <= b) then b - a else b + n - a.

Definition ring_queue (C : list Z) (st k : nat) : list Z :=
  (λ i, nth (wrap (st + i)) C 0%Z) <$> seq 0 k.
Definition ring_write (C : list Z) (en : nat) (str : list Z) : list Z :=
  list_inserts 0 (drop (n - en) str) (list_inserts en (take (n - en) str) C).

Lemma wrap_lt x : x < 2 * n → 0 < n → wrap x < n.
Proof. unfold wrap. case_decide; lia. Qed.
Lemma dist_lt a b : a < n → b < n → dist a b < n.
Proof. unfold dist. case_decide; lia. Qed.
Lemma dist_wrap a k : a < n → k < n → dist a (wrap (a + k)) = k.
Proof. unfold dist, wrap. repeat case_decide; lia. Qed.
Lemma wrap_dist a b : a < n → b < n → wrap (a + dist a b) = b.
Proof. unfold dist, wrap. repeat case_decide; lia. Qed.

Lemma ring_queue_length C st k : length (ring_queue C st k) = k.
Proof. unfold ring_queue. by rewrite length_fmap, length_seq. Qed.
Lemma ring_write_length C en str : length (ring_write C en str) = length C.
Proof. unfold ring_write. by rewrite !length_inserts. Qed.

Lemma ring_write_lookup C en str j :
  length C = n → en < n → length str < n → j < n →
  ring_write C en str !! j = if decide (dist en j < length str) then str !! dist en j else C !! j.
Proof.
  intros HC Hen Hs Hj. unfold ring_write, dist.
  destruct (decide (j < length (drop (n - en) str))) as [H1|H1]; rewrite length_drop in H1.
  - rewrite list_lookup_inserts by (rewrite ?length_drop, ?length_inserts; lia).
    rewrite lookup_drop. repeat case_decide; try lia. f_equal. lia.
  - rewrite list_lookup_inserts_ge by (rewrite length_drop; lia).
    destruct (decide (j < en)) as [H2|H2].
    + rewrite list_lookup_inserts_lt by lia. repeat case_decide; try lia. done.
    + destruct (decide (j < en + length str)) as [H3|H3].
      * rewrite list_lookup_inserts by (rewrite ?length_take; lia).
        rewrite lookup_take_lt by lia. repeat case_decide; try lia. done.
      * rewrite list_lookup_inserts_ge by (rewrite length_take; lia).
        repeat case_decide; try lia. done.
Qed.

(** Writing at the end of the queue appends. *)
Lemma ring_queue_write C st k str :
  length C = n → st < n → k + length str < n →
  ring_queue (ring_write C (wrap (st + k)) str) st (k + length str) = ring_queue C st k ++ str.
Proof.
  intros HC Hst Hk. assert (wrap (st + k) < n) as Hen by (apply wrap_lt; lia).
  apply list_eq. intros i. unfold ring_queue. rewrite list_lookup_fmap.
  destruct (decide (i < k + length str)) as [Hi|Hi].
  2:{ rewrite lookup_ge_None_2 by (rewrite length_seq; lia).
      rewrite lookup_ge_None_2; [done|]. rewrite length_app, length_fmap, length_seq. lia. }
  rewrite lookup_seq_lt by lia. cbn.
  assert (wrap (st + i) < n) as Hw by (apply wrap_lt; lia).
  rewrite (nth_lookup (ring_write _ _ _)), ring_write_lookup by (done || lia).
  destruct (decide (i < k)) as [Hik|Hik].
  - rewrite lookup_app_l by (rewrite length_fmap, length_seq; lia).
    rewrite list_lookup_fmap, lookup_seq_lt by lia. cbn. rewrite nth_lookup.
    rewrite decide_False; [done|]. unfold dist, wrap. repeat case_decide; lia.
  - rewrite lookup_app_r by (rewrite length_fmap, length_seq; lia).
    rewrite length_fmap, length_seq.
    assert (dist (wrap (st + k)) (wrap (st + i)) = i - k) as ->
      by (unfold dist, wrap; repeat case_decide; lia).
    rewrite decide_True by lia. destruct (lookup_lt_is_Some_2 str (i - k)) as [x Hx]; [lia|].
    by rewrite Hx.
Qed.

Lemma ring_queue_nowrap C a m : length C = n → a + m <= n → take m (drop a C) = ring_queue C a m.
Proof.
  intros HC Ha. apply list_eq. intros i. unfold ring_queue. rewrite list_lookup_fmap.
  destruct (decide (i < m)) as [Hi|Hi].
  - rewrite lookup_take_lt, lookup_drop, lookup_seq_lt by lia. cbn. unfold wrap.
    rewrite decide_True, nth_lookup by lia.
    destruct (lookup_lt_is_Some_2 C (a + i)) as [x Hx]; [lia|]. by rewrite Hx.
  - rewrite lookup_take_ge by lia. by rewrite lookup_ge_None_2 by (rewrite length_seq; lia).
Qed.

Lemma ring_queue_app C a m1 m2 :
  a < n → m1 + m2 <= n →
  ring_queue C a (m1 + m2) = ring_queue C a m1 ++ ring_queue C (wrap (a + m1)) m2.
Proof.
  intros Ha Hm. unfold ring_queue. rewrite seq_app, fmap_app. f_equal.
  apply list_eq. intros i. rewrite !list_lookup_fmap. destruct (decide (i < m2)) as [Hi|Hi].
  - rewrite !lookup_seq_lt by lia. cbn. do 2 f_equal. unfold wrap. repeat case_decide; lia.
  - by rewrite !lookup_ge_None_2 by (rewrite length_seq; lia).
Qed.

(** A prefix of the queue. *)
Lemma ring_queue_take C st k m : m <= k → ring_queue C st m = take m (ring_queue C st k).
Proof.
  intros Hm. unfold ring_queue. rewrite <- fmap_take. f_equal.
  replace k with (m + (k - m)) by lia. rewrite seq_app, take_app_le by (rewrite length_seq; lia).
  by rewrite take_ge by (rewrite length_seq; lia).
Qed.
End Ring.

(** ** Words in memory *)
Lemma word_of_bytes_of_word x : is_w32 x → word_of_bytes (bytes_of_word x) = x.
Proof.
  intros [H1 H2]. unfold bytes_of_word. cbn [word_of_bytes].
  replace (x / 65536) with (x / 256 / 256) by (rewrite Z.div_div; done).
  replace (x / 16777216) with (x / 256 / 256 / 256) by (rewrite !Z.div_div; done).
  pose proof (Z.div_mod x 256 ltac:(done)). pose proof (Z.div_mod (x / 256) 256 ltac:(done)).
  pose proof (Z.div_mod (x / 256 / 256) 256 ltac:(done)).
  assert (0 ≤ x / 256 / 256 / 256 < 256) as Hs.
  { rewrite !Z.div_div by done. split; [apply Z.div_pos; lia|]. apply Z.div_lt_upper_bound; lia. }
  rewrite (Z.mod_small (x / 256 / 256 / 256)) by done. lia.
Qed.

(** The words at the start of a ring buffer, and its ring. *)
Definition word_at (i : nat) (c : list Z) : Z := word_of_bytes (take 4 (drop i c)).
Definition ring_of (c : list Z) : list Z := drop 8 c.

Section Words.
Local Open Scope nat_scope.

Lemma drop_inserts {A} k i (x l : list A) :
  k <= length l → drop k (list_inserts (k + i) x l) = list_inserts i x (drop k l).
Proof.
  intros Hk. rewrite <- (take_drop k l) at 1.
  assert (length (take k l) = k) as Hl by (rewrite length_take; lia). rewrite <- Hl at 2.
  rewrite list_inserts_app_r, drop_app_ge, Hl, Nat.sub_diag by lia. done.
Qed.
Lemma take_inserts_ge {A} k i (x l : list A) : k <= i → take k (list_inserts i x l) = take k l.
Proof.
  intros Hk. apply list_eq. intros j. destruct (decide (j < k)) as [Hj|Hj].
  - rewrite !lookup_take_lt, list_lookup_inserts_lt by lia. done.
  - rewrite !lookup_take_ge by lia. done.
Qed.
Lemma drop_inserts_lt {A} k i (x l : list A) :
  i + length x <= k → drop k (list_inserts i x l) = drop k l.
Proof.
  intros Hk. apply list_eq. intros j. by rewrite !lookup_drop, list_lookup_inserts_ge by lia.
Qed.

Lemma word_at_inserts_ge i k x c : i + 4 <= k → word_at i (list_inserts k x c) = word_at i c.
Proof.
  intros Hk. unfold word_at. rewrite !take_drop_commute, take_inserts_ge by lia. done.
Qed.
Lemma word_at_inserts_lt i k x c :
  k + length x <= i → word_at i (list_inserts k x c) = word_at i c.
Proof. intros Hk. unfold word_at. by rewrite drop_inserts_lt. Qed.
Lemma word_at_inserts i x c :
  i + 4 <= length c → is_w32 x → word_at i (list_inserts i (bytes_of_word x) c) = x.
Proof.
  intros Hi Hx. unfold word_at. rewrite <- (Nat.add_0_r i) at 2. rewrite drop_inserts by lia.
  rewrite <- (take_drop 4 (drop i c)) at 1.
  rewrite list_inserts_0_r by (rewrite length_take, length_drop; change (length (bytes_of_word x)) with 4; lia).
  rewrite take_app_le by done. rewrite take_ge by done. by apply word_of_bytes_of_word.
Qed.
End Words.

(** ** Views of dataspaces *)
Section Views.
Context {E : Env} `{HE : !EnvOk}.

Definition view (s : procserv) (p : Z) (c : list Z) : Prop :=
  memory_ok s ∧ (∃ d, ps_dspaces s !! p = Some d ∧ physicalAddrEnabled d = false) ∧
  contents_of s p = c.

(** The other dataspaces stay as they are. *)
Definition others_same (p : Z) (s s' : procserv) : Prop :=
  same_dspaces s s' ∧
  ∀ q d, q ≠ p → ps_dspaces s !! q = Some d → physicalAddrEnabled d = false →
         contents_of s' q = contents_of s q.
#[global] Instance others_same_preorder p : PreOrder (others_same p).
Proof using Type.
  split; [by split|].
  intros s1 s2 s3 [H1 C1] [H2 C2]. split; [by etrans|]. intros q d Hq Hd Ha.
  destruct (same_dspaces_at _ _ _ _ H1 Hd) as (d' & Hd' & _ & Ha').
  rewrite (C2 q d') by (done || congruence). by apply (C1 q d).
Qed.

Lemma view_bound s p c : view s p c → Z.of_nat (length c) < 2 ^ 32.
Proof using Type.
  intros (Hm & (d & Hd & Ha) & <-). rewrite (contents_length s p d Hm Hd Ha).
  by destruct (mem_dspace s Hm p d Hd).
Qed.

Context {HP : EnvPlenty}.

Lemma view_write s p c off len buf :
  view s p c → 0 ≤ off → 0 ≤ len → off + len ≤ Z.of_nat (length c) →
  (Z.to_nat len ≤ length buf)%nat →
  runs (ram_dspace_write buf len p off) s (λ e s', e = ESUCCESS ∧
    view s' p (list_inserts (Z.to_nat off) (take (Z.to_nat len) buf) c) ∧ others_same p s s').
Proof using Type*.
  intros Hv Ho Hl Hr Hb. pose proof (view_bound s p c Hv) as Hbd.
  destruct Hv as (Hm & (d & Hd & Ha) & <-).
  rewrite (contents_length s p d Hm Hd Ha) in Hr, Hbd.
  eapply runs_mono; [by apply (ram_dspace_write_rep s p d off len Hm Hd Ha Ho ltac:(lia) buf)|].
  cbv beta. intros e s' ([Hm' Hs'] & k & Hc & [[-> ->]|(_ & _ & HnP)]); [|by destruct HnP].
  destruct (same_dspaces_at _ _ _ _ Hs' Hd) as (d' & Hd' & _ & Ha').
  split_and!; [done| |split; [done|]].
  - split_and!; [done|exists d'; split; [done|congruence]|]. by rewrite (Hc p d), Z.eqb_refl.
  - intros q dq Hq Hdq Haq. rewrite (Hc q dq) by done. by rewrite (proj2 (Z.eqb_neq _ _) Hq).
Qed.

Lemma view_read s p c off len :
  view s p c → 0 ≤ off → 0 ≤ len → off + len ≤ Z.of_nat (length c) →
  runs (ram_dspace_read len p off) s (λ r s',
    r = (ESUCCESS, take (Z.to_nat len) (drop (Z.to_nat off) c)) ∧ view s' p c ∧ others_same p s s').
Proof using Type*.
  intros Hv Ho Hl Hr. pose proof (view_bound s p c Hv) as Hbd.
  destruct Hv as (Hm & (d & Hd & Ha) & <-).
  rewrite (contents_length s p d Hm Hd Ha) in Hr, Hbd.
  eapply runs_mono; [by apply (ram_dspace_read_rep s p d off len Hm Hd Ha Ho ltac:(lia))|].
  cbv beta. intros [e b] s' ([Hm' Hs'] & Hc & [[He Hb]|[_ HnP]]); [|by destruct HnP].
  cbn [fst snd] in *. subst e b.
  destruct (same_dspaces_at _ _ _ _ Hs' Hd) as (d' & Hd' & _ & Ha').
  split_and!; [done| |split; [done|]].
  - split_and!; [done|exists d'; split; [done|congruence]|]. by apply (Hc p d).
  - intros q dq _ Hdq Haq. by apply (Hc q dq).
Qed.

(** ** The writer *)

(** The ring buffer of the writer holds the queue [q]: its end is the shared
    one, its start an older one. *)
Record writer_ok (buf : rb_buffer) (c q : list Z) (n st ls en : nat) : Prop := {
  wr_mode : rb_mode buf = RB_WRITEONLY;
  wr_size : rb_size buf = Z.of_nat n;
  wr_length : length c = (8 + n)%nat;
  wr_start : word_at 0 c = Z.of_nat st;
  wr_end : word_at 4 c = Z.of_nat en;
  wr_local_start : localStart buf = Z.of_nat ls;
  wr_local_end : localEnd buf = Z.of_nat en;
  wr_range : (st < n ∧ ls < n ∧ en < n)%nat;
  wr_older : (dist n st en ≤ dist n ls en)%nat;
  wr_queue : q = ring_queue n (ring_of c) st (dist n st en)
}.

Lemma remaining_size buf n ls en :
  rb_size buf = Z.of_nat n → localStart buf = Z.of_nat ls → localEnd buf = Z.of_nat en →
  (ls < n ∧ en < n)%nat → Z.of_nat n < 2 ^ 32 →
  rb_remaining_size buf = Z.of_nat n - 1 - Z.of_nat (dist n ls en).
Proof using Type.
  intros Hn Hls Hen Hr Hb. unfold rb_remaining_size, dist. rewrite Hn, Hls, Hen.
  rewrite (w32_id (Z.of_nat n - 1)) by (unfold is_w32; lia).
  destruct (Z.ltb_spec (Z.of_nat en) (Z.of_nat ls)); case_decide; try lia;
    rewrite w32_id by (unfold is_w32; lia); lia.
Qed.

Lemma read_word_rep s p c i :
  view s p c → (i + 4 ≤ length c)%nat →
  runs (read_word p (Z.of_nat i)) s (λ r s',
    r = (ESUCCESS, Some (word_at i c)) ∧ view s' p c ∧ others_same p s s').
Proof using Type*.
  intros Hv Hi. unfold read_word. apply runs_bind.
  eapply runs_mono; [apply (view_read s p c); [done|lia|done|unfold sizeof_uint32; lia]|]. cbv beta.
  intros r s' (-> & Hv' & Ho). apply runs_ret. split; [|done]. rewrite bool_decide_true by done.
  unfold word_at. by rewrite Nat2Z.id.
Qed.

Lemma make_room_rep s c q buf n st ls en len :
  view s (rb_dataspace buf) c → writer_ok buf c q n st ls en → 0 ≤ len →
  runs (rb_make_room buf len) s (λ r s', view s' (rb_dataspace buf) c ∧
    others_same (rb_dataspace buf) s s' ∧ rb_dataspace r.2 = rb_dataspace buf ∧
    ∃ ls', writer_ok r.2 c q n st ls' en ∧
      if decide (Z.of_nat (length q) + len ≤ Z.of_nat n - 1) then
        r.1 = ESUCCESS ∧ Z.of_nat (dist n ls' en) + len ≤ Z.of_nat n - 1
      else r.1 = ENOMEM).
Proof using Type*.
  intros Hv Hw Hlen. pose proof (view_bound s _ c Hv) as Hbd. destruct Hw as [H1 H2 H3 H4 H5 H6 H7 H8 H9 H10].
  assert (length q = dist n st en) as Hq by by rewrite H10, ring_queue_length.
  unfold rb_make_room. rewrite (remaining_size buf n ls en) by (done || lia).
  destruct (Z.ltb_spec (Z.of_nat n - 1 - Z.of_nat (dist n ls en)) len) as [Hlt|Hge].
  2:{ apply runs_ret. split_and!; [done|reflexivity|done|]. exists ls. split; [by split|].
      case_decide; [cbn; split; [done|lia]|lia]. }
  unfold rb_update_local_start. rewrite H1. apply runs_bind, runs_bind.
  eapply runs_mono; [apply (read_word_rep s _ c 0); [done|lia]|]. cbv beta.
  intros r s' (-> & Hv' & Ho). apply runs_ret. rewrite bool_decide_true by done. cbn [negb default].
  set (buf' := set_localStart _ buf).
  assert (writer_ok buf' c q n st st en) as Hw'.
  { split; try done; lia. }
  rewrite (remaining_size buf' n st en) by (done || lia).
  destruct (Z.ltb_spec (Z.of_nat n - 1 - Z.of_nat (dist n st en)) len) as [Hlt'|Hge'];
    apply runs_ret; (split_and!; [done|done|done|]); exists st; (split; [done|]);
    case_decide; cbn; try lia; try done. split; [done|lia].
Qed.

Lemma ring_of_inserts c i x :
  (8 ≤ length c)%nat → ring_of (list_inserts (i + 8) x c) = list_inserts i x (ring_of c).
Proof using Type. intros Hc. unfold ring_of. by rewrite Nat.add_comm, drop_inserts. Qed.

Lemma write_data_rep s c q buf n st ls en str :
  view s (rb_dataspace buf) c → writer_ok buf c q n st ls en →
  Z.of_nat (dist n ls en) + Z.of_nat (length str) ≤ Z.of_nat n - 1 →
  runs (rb_write_data buf str (Z.of_nat (length str))) s (λ e s', e = ESUCCESS ∧
    others_same (rb_dataspace buf) s s' ∧
    ∃ c', view s' (rb_dataspace buf) c' ∧ length c' = length c ∧
      word_at 0 c' = word_at 0 c ∧ word_at 4 c' = word_at 4 c ∧
      ring_of c' = ring_write n (ring_of c) en str).
Proof using Type*.
  intros Hv Hw Hlen. pose proof (view_bound s _ c Hv) as Hbd. destruct Hw as [H1 H2 H3 H4 H5 H6 H7 H8 H9 H10].
  unfold rb_write_data. rewrite H6, H7, H2.
  assert (w32 (Z.of_nat en + RINGBUFFER_METADATA_SIZE) = Z.of_nat (en + 8)) as ->.
  { unfold RINGBUFFER_METADATA_SIZE. rewrite w32_id by (unfold is_w32; lia). lia. }
  destruct (Z.ltb_spec (Z.of_nat en) (Z.of_nat ls)) as [Hlt|Hge].
  - (* The free space does not wrap around. *)
    unfold dist in Hlen. case_decide; [lia|].
    eapply runs_mono; [apply (view_write s _ c); [done|lia|lia|lia|lia]|]. cbv beta.
    intros e s' (-> & Hv' & Ho). rewrite !Nat2Z.id, take_ge in Hv' by lia. split_and!; [done|done|].
    eexists. split; [exact Hv'|]. rewrite !word_at_inserts_ge, length_inserts, ring_of_inserts by lia.
    split_and!; try done. unfold ring_write. rewrite drop_ge, take_ge by lia. done.
  - rewrite (w32_id (Z.of_nat n - Z.of_nat en)) by (unfold is_w32; lia).
    assert (Z.min (Z.of_nat (length str)) (Z.of_nat n - Z.of_nat en) =
            Z.of_nat (Nat.min (length str) (n - en))) as -> by lia.
    set (k := Nat.min (length str) (n - en)).
    apply runs_bind. eapply runs_mono; [apply (view_write s _ c); [done|lia|lia|lia|lia]|]. cbv beta.
    intros e s' (-> & Hv' & Ho). rewrite !Nat2Z.id in Hv'. rewrite bool_decide_true by done. cbn [negb].
    assert (take k str = take (n - en) str) as Hk.
    { unfold k. destruct (decide (length str ≤ n - en)%nat); [|f_equal; lia].
      rewrite !take_ge by lia. done. }
    rewrite Hk in Hv'.
    set (c1 := list_inserts (en + 8) (take (n - en) str) c) in *.
    assert (length c1 = length c) as Hl1 by apply length_inserts.
    assert (ring_of c1 = list_inserts en (take (n - en) str) (ring_of c)) as Hr1
      by (apply ring_of_inserts; lia).
    assert (∀ i, (i + 4 ≤ 8)%nat → word_at i c1 = word_at i c) as Hw1.
    { intros i Hi. apply word_at_inserts_ge. lia. }
    destruct (Z.ltb_spec (Z.of_nat k) (Z.of_nat (length str))) as [Hlt2|Hge2].
    + replace (Z.of_nat (length str) - Z.of_nat k) with (Z.of_nat (length (drop (n - en) str)))
        by (rewrite length_drop; lia).
      replace (drop (Z.to_nat (Z.of_nat k)) str) with (drop (n - en) str) by (f_equal; lia).
      eapply runs_mono; [apply (view_write s' _ c1); [done|done|lia|rewrite length_drop; unfold RINGBUFFER_METADATA_SIZE; unfold dist in Hlen; case_decide; lia|lia]|].
      cbv beta. intros e s2 (-> & Hv2 & Ho2). rewrite Nat2Z.id, take_ge in Hv2 by lia.
      split_and!; [done|by etrans|]. eexists. split; [exact Hv2|]. rewrite length_inserts.
      change (Z.to_nat RINGBUFFER_METADATA_SIZE) with (0 + 8)%nat.
      rewrite ring_of_inserts, !word_at_inserts_ge, !Hw1, Hr1, Hl1 by lia. done.
    + apply runs_ret. split_and!; [done|done|]. exists c1. rewrite !Hw1, Hr1 by lia.
      split_and!; try done. unfold ring_write. by rewrite (drop_ge str) by lia.
Qed.

Lemma dist_add n a b k :
  (a < n → b < n → dist n a b + k < n → dist n a (wrap n (b + k)) = dist n a b + k)%nat.
Proof using Type. unfold dist, wrap. repeat case_decide; lia. Qed.

Lemma wrap_mod n x : (x < 2 * n)%nat → Z.of_nat x mod Z.of_nat n = Z.of_nat (wrap n x).
Proof using Type.
  intros Hx. unfold wrap. case_decide; [apply Z.mod_small; lia|].
  replace (Z.of_nat x) with (Z.of_nat (x - n) + 1 * Z.of_nat n) by lia.
  rewrite Z.mod_add by lia. apply Z.mod_small. lia.
Qed.

Lemma rb_write_rep s c q buf n st ls en str :
  view s (rb_dataspace buf) c → writer_ok buf c q n st ls en → Z.of_nat n ≤ 2 ^ 31 →
  runs (rb_write buf str (Z.of_nat (length str))) s (λ r s',
    others_same (rb_dataspace buf) s s' ∧ rb_dataspace r.2 = rb_dataspace buf ∧
    ∃ c' ls', view s' (rb_dataspace buf) c' ∧
      if decide (length q + length str < n)%nat then
        r.1 = ESUCCESS ∧ writer_ok r.2 c' (q ++ str) n st ls' (wrap n (en + length str))
      else r.1 = ENOMEM ∧ c' = c ∧ writer_ok r.2 c q n st ls' en).
Proof using Type*.
  intros Hv Hw Hn. pose proof (view_bound s _ c Hv) as Hbd.
  unfold rb_write. rewrite bool_decide_true by apply Hw. cbn [negb].
  apply runs_bind. eapply runs_mono; [apply (make_room_rep s c q buf n st ls en); [done|done|lia]|].
  cbv beta. intros [e buf1] s1 (Hv1 & Ho1 & Hp1 & ls1 & Hw1 & Hr). cbn [fst snd] in *.
  case_decide as Hfits; cycle 1.
  { subst e. apply runs_ret. split_and!; [done|done|]. exists c, ls1.
    split; [done|]. by rewrite decide_False by lia. }
  destruct Hr as [-> Hr]. cbn [negb bool_decide]. rewrite bool_decide_true by done. cbn [negb].
  rewrite <- Hp1 in Hv1, Ho1 |- *.
  apply runs_bind. eapply runs_mono; [by apply (write_data_rep s1 c q buf1 n st ls1 en)|]. cbv beta.
  intros e s2 (-> & Ho2 & c2 & Hv2 & Hl2 & Hst2 & Hen2 & Hring2).
  rewrite bool_decide_true by done. cbn [negb].
  destruct Hw1 as [H1 H2 H3 H4 H5 H6 H7 (H8 & H8' & H8'') H9 H10].
  rewrite H2, H7. rewrite (proj2 (Z.eqb_neq _ _)) by lia. apply runs_bind, runs_assert; [done|].
  rewrite w32_id, <- Nat2Z.inj_add, wrap_mod by (unfold is_w32; lia).
  set (en' := wrap n (en + length str)).
  assert (en' < n)%nat as Hen' by (apply wrap_lt; lia).
  unfold rb_update_local_end. cbn [rb_mode set_localEnd rb_dataspace localEnd]. rewrite H1.
  apply runs_bind. eapply runs_mono; [apply (view_write s2 _ c2); [done|done|done|unfold sizeof_uint32; lia|done]|].
  cbv beta. intros e s3 (-> & Hv3 & Ho3). apply runs_ret. split_and!; [by do 2 etrans|done|].
  rewrite take_ge in Hv3 by done. eexists _, ls1. split; [exact Hv3|].
  assert (length q = dist n st en) as Hq by by rewrite H10, ring_queue_length.
  rewrite decide_True by lia. split; [done|].
  change (Z.to_nat sizeof_uint32) with 4%nat.
  split; cbn [rb_mode rb_size localStart localEnd set_localEnd]; try done.
  - rewrite length_inserts. lia.
  - rewrite word_at_inserts_ge by lia. by rewrite Hst2.
  - apply word_at_inserts; [lia|unfold is_w32; lia].
  - unfold en'. rewrite !dist_add by lia. lia.
  - unfold en', ring_of. rewrite drop_inserts_lt by done. fold (ring_of c2). rewrite Hring2, H10.
    rewrite dist_add by lia. rewrite <- (wrap_dist n st en) at 2 by lia.
    symmetry. apply ring_queue_write; [|lia|lia]. unfold ring_of. rewrite length_drop. lia.
Qed.

(** ** The reader *)

(** The ring buffer of a reader that is up to date. *)
Record reader_ok (buf : rb_buffer) (c q : list Z) (n st en : nat) : Prop := {
  rd_mode : rb_mode buf = RB_READONLY;
  rd_size : rb_size buf = Z.of_nat n;
  rd_length : length c = (8 + n)%nat;
  rd_start : word_at 0 c = Z.of_nat st;
  rd_end : word_at 4 c = Z.of_nat en;
  rd_local_start : localStart buf = Z.of_nat st;
  rd_local_end : localEnd buf = Z.of_nat en;
  rd_range : (st < n ∧ en < n)%nat;
  rd_queue : q = ring_queue n (ring_of c) st (dist n st en)
}.

(** Reading from the local start to the local end of a ring. *)
Lemma read_data_rep s c buf n a b len :
  view s (rb_dataspace buf) c → rb_size buf = Z.of_nat n → length c = (8 + n)%nat →
  localStart buf = Z.of_nat a → localEnd buf = Z.of_nat b → (a < n ∧ b < n)%nat →
  runs (rb_read_data buf (Z.of_nat len)) s (λ r s',
    r = (ESUCCESS, ring_queue n (ring_of c) a (Nat.min (dist n a b) len)) ∧
    view s' (rb_dataspace buf) c ∧ others_same (rb_dataspace buf) s s').
Proof using Type*.
  intros Hv Hn Hl Ha Hb Hr. pose proof (view_bound s _ c Hv) as Hbd.
  assert (length (ring_of c) = n) as Hring by (unfold ring_of; rewrite length_drop; lia).
  assert (∀ m k, k = Z.of_nat (m + 8) → drop (Z.to_nat k) c = drop m (ring_of c)) as Hdrop.
  { intros m k ->. unfold ring_of. rewrite Nat2Z.id, drop_drop. f_equal. lia. }
  unfold rb_read_data. rewrite Ha, Hb, Hn.
  assert (w32 (Z.of_nat a + RINGBUFFER_METADATA_SIZE) = Z.of_nat (a + 8)) as ->.
  { unfold RINGBUFFER_METADATA_SIZE. rewrite w32_id by (unfold is_w32; lia). lia. }
  unfold dist. case_decide as Hab.
  - rewrite (proj2 (Z.leb_le _ _)) by lia.
    replace (Z.min (Z.of_nat b - Z.of_nat a) (Z.of_nat len)) with (Z.of_nat (Nat.min (b - a) len)) by lia.
    eapply runs_mono; [apply (view_read s _ c); [done|lia|lia|lia]|]. cbv beta.
    intros r s' (-> & Hv' & Ho). split; [|done]. f_equal.
    rewrite (Hdrop a) by done. rewrite Nat2Z.id. apply ring_queue_nowrap; lia.
  - rewrite (proj2 (Z.leb_gt _ _)) by lia. rewrite w32_id by (unfold is_w32; lia).
    replace (Z.min (Z.of_nat n - Z.of_nat a) (Z.of_nat len)) with (Z.of_nat (Nat.min (n - a) len)) by lia.
    set (m1 := Nat.min (n - a) len). apply runs_bind.
    eapply runs_mono; [apply (view_read s _ c); [done|lia|lia|lia]|]. cbv beta.
    intros r s' (-> & Hv' & Ho). rewrite bool_decide_true by done. cbn [negb].
    rewrite (Hdrop a), Nat2Z.id, (ring_queue_nowrap n) by (done || lia).
    replace (Z.min (Z.of_nat len - Z.of_nat m1) (Z.of_nat b)) with (Z.of_nat (Nat.min (len - m1) b)) by lia.
    set (m2 := Nat.min (len - m1) b). destruct (Z.ltb_spec 0 (Z.of_nat m2)) as [Hm2|Hm2].
    + apply runs_bind. eapply runs_mono; [apply (view_read s' _ c); [done|done|lia|unfold RINGBUFFER_METADATA_SIZE; lia]|].
      cbv beta. intros r s2 (-> & Hv2 & Ho2). apply runs_ret. split; [|split; [done|by etrans]]. f_equal.
      rewrite (Hdrop 0%nat), Nat2Z.id, (ring_queue_nowrap n) by (done || lia).
      replace (Nat.min (b + n - a) len) with (m1 + m2)%nat by lia.
      rewrite ring_queue_app by lia. do 2 f_equal. unfold wrap. case_decide; lia.
    + apply runs_ret. split; [|done]. do 2 f_equal. lia.
Qed.

(** A read that the local copy of the end allows. *)
Lemma rb_read_local s c buf n a b len :
  view s (rb_dataspace buf) c → rb_mode buf = RB_READONLY → rb_size buf = Z.of_nat n →
  length c = (8 + n)%nat → localStart buf = Z.of_nat a → localEnd buf = Z.of_nat b →
  (a < n ∧ b < n)%nat → Z.of_nat n ≤ 2 ^ 31 → (len ≤ dist n a b)%nat →
  runs (rb_read buf (Z.of_nat len)) s (λ r s',
    r = (ESUCCESS, set_localStart (Z.of_nat (wrap n (a + len)))
                     (set_localEnd (Z.of_nat (wrap n (b + len))) buf), ring_queue n (ring_of c) a len) ∧
    view s' (rb_dataspace buf) (list_inserts 0 (bytes_of_word (Z.of_nat (wrap n (a + len)))) c) ∧
    others_same (rb_dataspace buf) s s').
Proof using Type*.
  intros Hv Hm Hn Hl Ha Hb Hr Hbn Hlen. pose proof (view_bound s _ c Hv) as Hbd.
  pose proof (dist_lt n a b ltac:(lia) ltac:(lia)) as Hd.
  unfold rb_read. rewrite Hm, bool_decide_true by done. cbn [negb].
  rewrite (remaining_size buf n a b), Hn by (done || lia).
  rewrite (w32_id (Z.of_nat n - 1)), w32_id by (unfold is_w32; lia).
  rewrite (proj2 (Z.ltb_ge _ _)) by lia. rstep. rewrite bool_decide_true by done. cbn [negb].
  apply runs_bind. eapply runs_mono; [by apply (read_data_rep s c buf n a b len)|]. cbv beta.
  intros r s1 (-> & Hv1 & Ho1). rewrite bool_decide_true by done. cbn [negb].
  rewrite Nat.min_r by lia. rewrite (proj2 (Z.eqb_neq _ _)) by lia.
  apply runs_bind, runs_assert; [done|]. cbn [localStart set_localEnd rb_size].
  rewrite ring_queue_length, Ha, Hb, <- !Nat2Z.inj_add, Hn.
  rewrite !w32_id, !wrap_mod by (unfold is_w32; lia).
  unfold rb_update_local_start. cbn [rb_mode set_localStart set_localEnd rb_dataspace localStart]. rewrite Hm.
  apply runs_bind, runs_bind.
  eapply runs_mono; [apply (view_write s1 _ c); [done|done|done|unfold sizeof_uint32; lia|done]|].
  cbv beta. intros e s2 (-> & Hv2 & Ho2). apply runs_ret, runs_ret.
  split; [done|]. rewrite take_ge in Hv2 by done. split; [exact Hv2|by etrans].
Qed.
End Views.
