(* ===== verification/DataspaceTheorems.v ===== *)
(** * Dataspaces are flat arrays, ring buffers are queues

    The dataspaces of the process server refine an array of bytes each; a ring
    buffer with one writer, the server, refines a bounded queue of bytes.  A
    read past the end of the address space succeeds without reading, and a
    reader of a ring buffer reads bytes again. *)

From S2P Require Import Prelude.
From S2P Require Import Word32.
From S2P Require Import DataStruct.
From S2P Require Import WindowAssoc.
From S2P Require Import Procserv.
From S2P Require Import Dataspace.
From S2P Require Import DataspaceInv.
From S2P Require Import Memserv.
From S2P Require Import RingBuffer.
From S2P Require Import RingBufferInv.

(** ** An environment

    Frames, objects and slots are numbered in the order of their allocation. *)
Definition numbered : Env := {|
  env := positive;
  malloc_ok _ := true;
  qsort l := l;
  kmalloc_object e := (Some (Z.pos e), Pos.succ e);
  vka_alloc_frame e := (Some (Z.pos e), Pos.succ e);
  vka_free_object _ e := e;
  vka_cspace_alloc_path e := (Some (Z.pos e), Pos.succ e);
  vka_cspace_free _ e := e;
  procserv_endpoint := 1;
  vka_cnode_mint _ _ _ _ e := (true, e);
  vka_cnode_copy _ _ e := (true, e);
  vka_cnode_revoke _ e := e;
  vka_cnode_delete _ e := e;
  vka_cnode_saveCaller _ e := (true, e);
  simple_get_frame_cap _ _ _ e := (true, e);
  vspace_map_pages _ e := (true, e);
  vspace_unmap_own_pages _ e := e;
  vspace_get_cap _ _ _ := 0;
  vspace_reserve_range_at _ _ _ _ _ e := (Z.pos e, Pos.succ e);
  vspace_free_reservation _ e := e;
  sel4utils_move_resize_reservation _ _ _ _ e := (true, e);
  reservation_start _ _ := 0;
  vspace_map_pages_at_vaddr _ _ _ _ e := (true, e);
  vspace_unmap_pages _ _ e := e;
  seL4_ARM_Page_Unify_Instruction _ e := e;
  seL4_Send _ e := e;
  seL4_Reply e := e;
  reply_proc_new_proc _ _ e := e;
  uninitialised _ _ := 0;
  vka_alloc_page_directory e := (Some (Z.pos e), Pos.succ e);
  seL4_ARCH_ASIDPool_Assign _ e := (true, e);
  vka_alloc_cnode_object _ e := (Some (Z.pos e), Pos.succ e);
  vka_alloc_endpoint _ e := (Some (Z.pos e), Pos.succ e);
  seL4_CNode_Copy _ _ _ e := (true, e);
  sel4utils_get_vspace _ _ e := (true, e);
  vspace_tear_down _ e := e;
  sel4utils_elf_load _ _ e := (4096, e);
  sel4utils_configure_thread _ _ _ e := (Some (Z.pos e), Pos.succ e);
  sel4utils_internal_start_thread _ _ e := (true, e);
  sel4utils_clean_up_thread _ _ e := e;
  seL4_TCB_SetPriority _ _ e := (true, e);
  seL4_IRQControl_Get _ _ e := (true, e)
|}.
#[export] Existing Instance numbered.
#[export] Program Instance numbered_ok : EnvOk := {|
  handed_out e F := ∀ c, c ∈ F → c < Z.pos e
|}.
Next Obligation.
  cbn. intros e F r e' HF [= <- <-]. split; [intros H; apply HF in H; lia|].
  intros c [->%elem_of_singleton|Hc]%elem_of_union; [lia|]. apply HF in Hc. lia.
Qed.
Next Obligation. cbn. by intros _ e F b e' H [= <- <-]. Qed.
Next Obligation. done. Qed.
Next Obligation. done. Qed.
#[export] Instance numbered_plenty : EnvPlenty.
Proof. split; [|done]. intros e. by exists (Z.pos e). Qed.

(** Two dataspaces, of two pages at 100 and of one page at 101. *)
Definition blank_dspace (id npages : Z) : ram_dspace :=
  RamDspace id 5 1 (repeat 0 (Z.to_nat npages)) npages false 0 PID_NULL [] cvector_init false 0.
Definition two_dspaces : procserv :=
  Procserv {[100 := blank_dspace 1 2; 101 := blank_dspace 2 1]} ∅ ∅ (coat (cpool_init 1 1) cvector_init [])
    (coat (cpool_init 1 1) cvector_init []) (cpool_init 1 1) ∅ 0 0 (PdList (cpool_init 1 1) [] []) ∅ (chash [] 0) cvector_init 1%positive.

Lemma two_dspaces_ok : memory_ok two_dspaces.
Proof.
  assert (∀ p i c, ¬ page_at two_dspaces p i c) as Hno.
  { intros p i c (d & Hd & _ & Hi & Hc). cbn in Hd.
    apply lookup_insert_Some in Hd as [[_ <-]|[_ [_ <-]%lookup_singleton_Some]];
      by apply list_elem_of_lookup_2, list_elem_of_In, repeat_spec in Hi. }
  split.
  - exists ∅. split; [|set_solver]. intros c Hc. by apply not_elem_of_empty in Hc.
  - intros p d Hd. cbn in Hd.
    by apply lookup_insert_Some in Hd as [[_ <-]|[_ [_ <-]%lookup_singleton_Some]].
  - intros p i c H. by destruct (Hno p i c).
  - intros p q i j c H. by destruct (Hno p i c).
Qed.

(** ** Dataspaces as flat arrays *)
Inductive mem_op : Type := MWrite (p off : Z) (buf : list Z) | MRead (p off len : Z).

Definition mem_step `{E : Env} (s : procserv) (o : mem_op) :
    option (procserv * (refos_error * list Z)) :=
  match o with
  | MWrite p off buf =>
      match ram_dspace_write buf (Z.of_nat (length buf)) p off s with
      | Ok e s => Some (s, (e, [])) | _ => None end
  | MRead p off len =>
      match ram_dspace_read len p off s with Ok r s => Some (s, r) | _ => None end
  end.

(** Arrays of bytes by their addresses.  A step is defined for accesses that
    start in an array. *)
Definition flat_step (m : gmap Z (list Z)) (o : mem_op) :
    option (gmap Z (list Z) * (refos_error * list Z)) :=
  match o with
  | MWrite p off buf =>
      let? c := m !! p in
      let len := Z.of_nat (length buf) in
      if decide (0 ≤ off ≤ Z.of_nat (length c) ∧ len < 2 ^ 32) then
        if decide (off + len ≤ Z.of_nat (length c)) then
          Some (<[p := list_inserts (Z.to_nat off) buf c]> m, (ESUCCESS, []))
        else Some (m, (EINVALIDPARAM, []))
      else None
  | MRead p off len =>
      let? c := m !! p in
      if decide (0 ≤ off ≤ Z.of_nat (length c) ∧ 0 ≤ len < 2 ^ 32) then
        if decide (off + len ≤ Z.of_nat (length c)) then
          Some (m, (ESUCCESS, take (Z.to_nat len) (drop (Z.to_nat off) c)))
        else Some (m, (EINVALIDPARAM, []))
      else None
  end.

Section Flat.
Context {E : Env} `{HE : !EnvOk} {HP : EnvPlenty}.

Definition mem_rel (s : procserv) (m : gmap Z (list Z)) : Prop :=
  memory_ok s ∧ ∀ p c, m !! p = Some c → view s p c.

Lemma mem_rel_view s m p c s' c' :
  mem_rel s m → m !! p = Some c → view s' p c' → others_same p s s' → mem_rel s' (<[p := c']> m).
Proof using Type.
  intros [Hm Hr] Hp Hv [Hs Ho]. split; [apply Hv|]. intros q cq.
  destruct (decide (q = p)) as [->|Hq]; [rewrite lookup_insert_eq; by intros [= <-]|].
  rewrite lookup_insert_ne by done. intros Hcq. destruct (Hr q cq Hcq) as (_ & (d & Hd & Ha) & <-).
  destruct (same_dspaces_at _ _ _ _ Hs Hd) as (d' & Hd' & _ & Ha').
  split_and!; [apply Hv|exists d'; split; [done|congruence]|]. by apply (Ho q d).
Qed.

Lemma view_size s p c : view s p c → ∃ d, ps_dspaces s !! p = Some d ∧ physicalAddrEnabled d = false ∧
  rds_npages d * REFOS_PAGE_SIZE = Z.of_nat (length c).
Proof using Type.
  intros (Hm & (d & Hd & Ha) & <-). exists d. by rewrite (contents_length s p d Hm Hd Ha).
Qed.

#[local] Instance memory_refines : Refines mem_step flat_step mem_rel.
Proof using Type*.
  intros s m o m' r Hr Hstep. destruct o as [p off buf|p off len]; cbn in Hstep |- *;
    destruct (m !! p) as [c|] eqn:Hp; try done; case_decide as Hok; try done;
    pose proof (proj2 Hr p c Hp) as Hv;
    destruct (view_size s p c Hv) as (d & Hd & Ha & Hsz); destruct Hok as [Hoff Hlen];
    case_decide as Hin; injection Hstep as <- <-.
  - destruct (view_write s p c off (Z.of_nat (length buf)) buf Hv ltac:(lia) ltac:(lia) Hin ltac:(lia))
      as (e & s' & -> & -> & Hv' & Ho). rewrite Nat2Z.id, take_ge in Hv' by lia.
    eexists. split; [done|]. by eapply mem_rel_view.
  - destruct (ram_dspace_access_past_end s p d off (Z.of_nat (length buf)) (proj1 Hr) Hd Ha ltac:(lia) ltac:(lia) buf
      ltac:(rewrite Hsz; lia)) as [-> _]. by exists s.
  - destruct (view_read s p c off len Hv ltac:(lia) ltac:(lia) Hin) as (e & s' & -> & -> & Hv' & Ho).
    eexists. split; [done|]. rewrite <- (insert_id m p c Hp). by eapply mem_rel_view.
  - destruct (ram_dspace_access_past_end s p d off len (proj1 Hr) Hd Ha ltac:(lia) ltac:(lia) []
      ltac:(rewrite Hsz; lia)) as [_ ->]. by exists s.
Qed.

(** C13. Refinement: as long as frames can be allocated and mapped, the
    anonymous dataspaces behave like one flat array of bytes each, zero at
    first: any sequence of reads and writes that start inside a dataspace gives
    the results of the arrays, an access that runs past the end is refused and
    changes nothing, and no access touches another dataspace. *)
Theorem memory_refines_flat s m ops m' rs :
  mem_rel s m → run_ops flat_step m ops = Some (m', rs) →
  ∃ s', run_ops mem_step s ops = Some (s', rs) ∧ mem_rel s' m'.
Proof using Type*. apply refines_run; exact _. Qed.
End Flat.

Definition flat_ops : list mem_op :=
  [MWrite 100 4094 [7; 8; 9]; MRead 100 4093 5; MRead 101 0 2; MWrite 101 4095 [1; 2]].

Lemma memory_refines_flat_witness :
  ∃ s', run_ops mem_step two_dspaces flat_ops =
    Some (s', [(ESUCCESS, []); (ESUCCESS, [0; 7; 8; 9; 0]); (ESUCCESS, [0; 0]); (EINVALIDPARAM, [])]).
Proof.
  destruct (memory_refines_flat two_dspaces
    {[100 := repeat 0 8192; 101 := repeat 0 4096]} flat_ops
    {[100 := list_inserts 4094 [7; 8; 9] (repeat 0 8192); 101 := repeat 0 4096]}
    [(ESUCCESS, []); (ESUCCESS, [0; 7; 8; 9; 0]); (ESUCCESS, [0; 0]); (EINVALIDPARAM, [])])
    as (s' & H & _).
  - split; [exact two_dspaces_ok|]. intros p c Hp.
    apply lookup_insert_Some in Hp as [[<- <-]|[_ [<- <-]%lookup_singleton_Some]];
      (split; [exact two_dspaces_ok|]; split; [by eexists|by vm_compute]).
  - by vm_compute.
  - by exists s'.
Defined.

(** Error behaviour (a divergence from the comment "check if the write length
    runs off the end of the dataspace"): the check compares the length with the
    distance to the end modulo [2^32], so an access that starts past the end and
    reaches the top of the address space passes it; its end wraps around to
    below its start, nothing is copied and the access reports success. *)
Theorem ram_dspace_write_past_end_succeeds `{E : Env} s p d off len buf :
  ps_dspaces s !! p = Some d → dspace_ok d →
  rds_npages d * REFOS_PAGE_SIZE < off < 2 ^ 32 →
  2 ^ 32 ≤ off + len ≤ 2 ^ 32 + rds_npages d * REFOS_PAGE_SIZE →
  ram_dspace_write buf len p off s = Ok ESUCCESS s ∧
  ram_dspace_read len p off s = Ok (ESUCCESS, []) s.
Proof.
  intros Hd [Hn Hsz] Ho Hl. assert (0 ≤ rds_npages d * REFOS_PAGE_SIZE) as H0.
  { assert (REFOS_PAGE_SIZE = 4096) as -> by done. lia. }
  unfold ram_dspace_write, ram_dspace_read. rewrite !(kbind_Ok _ _ _ _ _ (getDspace_Ok s p d Hd)).
  assert (w32 (rds_npages d * REFOS_PAGE_SIZE - off) = 2 ^ 32 + rds_npages d * REFOS_PAGE_SIZE - off) as ->.
  { unfold w32. symmetry. apply Z.mod_unique with (-1); lia. }
  rewrite (proj2 (Z.ltb_ge _ _)) by lia.
  assert (w32 (off + len) = off + len - 2 ^ 32) as ->.
  { unfold w32. symmetry. apply Z.mod_unique with 1; lia. }
  unfold page_rounds. destruct (Z.to_nat (len / REFOS_PAGE_SIZE + 3)) as [|n] eqn:En.
  { assert (0 ≤ len / REFOS_PAGE_SIZE) by (apply Z.div_pos; [lia|done]). lia. }
  cbn [write_loop read_loop]. by rewrite (proj2 (Z.ltb_ge _ _)) by lia.
Qed.

Lemma ram_dspace_write_past_end_succeeds_witness :
  ram_dspace_write [1; 2; 3; 4] 4 100 4294967292 two_dspaces = Ok ESUCCESS two_dspaces.
Proof.
  by apply (ram_dspace_write_past_end_succeeds two_dspaces 100 (blank_dspace 1 2) 4294967292 4 [1; 2; 3; 4]).
Defined.

(** ** Ring buffers as queues *)
Inductive ring_op : Type :=
| RWrite (str : list Z)
(* the process at the other end takes [k] bytes *)
| RConsume (k : nat).

Section RingSteps.
Context {E : Env}.

(** The process at the other end advances the shared start, by mapping the
    dataspace; the server's view of it is a write to the first word. *)
Definition consume (n : nat) (p : Z) (k : nat) : P refos_error :=
  let! ' (_, st) := read_word p 0 in
  ram_dspace_write (bytes_of_word ((default 0 st + Z.of_nat k) mod Z.of_nat n)) 4 p 0.

Definition ring_step (n : nat) (sb : procserv * rb_buffer) (o : ring_op) :
    option ((procserv * rb_buffer) * refos_error) :=
  match o with
  | RWrite str =>
      match rb_write sb.2 str (Z.of_nat (length str)) sb.1 with
      | Ok (e, b) s => Some ((s, b), e) | _ => None end
  | RConsume k =>
      match consume n (rb_dataspace sb.2) k sb.1 with
      | Ok e s => Some ((s, sb.2), e) | _ => None end
  end.
End RingSteps.

(** A queue of at most [n - 1] bytes. *)
Definition bytes_step (n : nat) (q : list Z) (o : ring_op) : option (list Z * refos_error) :=
  match o with
  | RWrite str =>
      if decide (length q + length str < n)%nat then Some (q ++ str, ESUCCESS) else Some (q, ENOMEM)
  | RConsume k => if decide (k ≤ length q)%nat then Some (drop k q, ESUCCESS) else None
  end.

Section RingRefinement.
Context {E : Env} `{HE : !EnvOk} {HP : EnvPlenty} (n : nat) (Hn : Z.of_nat n ≤ 2 ^ 31).

Definition ring_rel (sb : procserv * rb_buffer) (q : list Z) : Prop :=
  ∃ c st ls en, view sb.1 (rb_dataspace sb.2) c ∧ writer_ok sb.2 c q n st ls en.

Lemma consume_rep s buf c q st ls en k :
  view s (rb_dataspace buf) c → writer_ok buf c q n st ls en → (k ≤ length q)%nat →
  runs (consume n (rb_dataspace buf) k) s (λ e s', e = ESUCCESS ∧
    ∃ c', view s' (rb_dataspace buf) c' ∧ writer_ok buf c' (drop k q) n (wrap n (st + k)) ls en).
Proof using Type*.
  intros Hv Hw Hk. pose proof (view_bound s _ c Hv) as Hbd.
  destruct Hw as [H1 H2 H3 H4 H5 H6 H7 (H8 & H8' & H8'') H9 H10].
  assert (length q = dist n st en) as Hq by by rewrite H10, ring_queue_length.
  pose proof (dist_lt n st en H8 H8'') as Hdl.
  unfold consume. apply runs_bind. eapply runs_mono; [apply (read_word_rep s _ c 0); [done|lia]|].
  cbv beta. intros r s1 (-> & Hv1 & _). change (default 0 (Some (word_at 0 c))) with (word_at 0 c). rewrite H4.
  replace (Z.of_nat st + Z.of_nat k) with (Z.of_nat (st + k)) by lia.
  rewrite wrap_mod by lia.
  pose proof (wrap_lt n (st + k) ltac:(lia) ltac:(lia)) as Hst'.
  eapply runs_mono; [apply (view_write s1 _ c); [done|done|done|lia|done]|]. cbv beta.
  intros e s2 (-> & Hv2 & _). split; [done|]. rewrite take_ge in Hv2 by done.
  eexists. split; [exact Hv2|]. change (Z.to_nat 0) with 0%nat.
  assert (dist n (wrap n (st + k)) en = dist n st en - k)%nat as Hd'.
  { unfold dist, wrap in *. repeat case_decide; lia. }
  split; try done.
  - rewrite length_inserts. lia.
  - apply word_at_inserts; [lia|unfold is_w32; lia].
  - by rewrite word_at_inserts_lt by done.
  - lia.
  - rewrite H10, Hd'. unfold ring_of. rewrite drop_inserts_lt by (cbn; lia). fold (ring_of c).
    replace (dist n st en) with (k + (dist n st en - k))%nat at 1 by lia.
    rewrite ring_queue_app by lia. rewrite drop_app_ge by (rewrite ring_queue_length; lia).
    by rewrite ring_queue_length, Nat.sub_diag.
Qed.

#[local] Instance ring_refines : Refines (ring_step n) (bytes_step n) ring_rel.
Proof using Type*.
  intros [s buf] q o q' r (c & st & ls & en & Hv & Hw) Hstep. cbn [fst snd] in *.
  destruct o as [str|k]; cbn in Hstep |- *.
  - destruct (rb_write_rep s c q buf n st ls en str Hv Hw Hn)
      as ([e b] & s' & -> & _ & Hp & c' & ls' & Hv' & Hr). cbn [fst snd] in *. exists (s', b).
    case_decide; injection Hstep as <- <-.
    + destruct Hr as [-> Hw']. split; [done|]. unfold ring_rel. cbn. rewrite Hp. eauto 8.
    + destruct Hr as (-> & -> & Hw'). split; [done|]. unfold ring_rel. cbn. rewrite Hp. eauto 8.
  - case_decide as Hk; [|done]. injection Hstep as <- <-.
    destruct (consume_rep s buf c q st ls en k Hv Hw Hk) as (e & s' & -> & -> & c' & Hv' & Hw').
    exists (s', buf). split; [done|]. unfold ring_rel. cbn. eauto 8.
Qed.

(** Refinement: a ring buffer with the server as its writer is a queue of at
    most [n - 1] bytes, [n] the size of its ring: any sequence of writes by the
    server and of bytes taken at the other end gives the results of the queue,
    wherever the ring wraps around and however old the writer's copy of the
    start is; a write is refused exactly when the queue has no room for it. *)
Theorem ring_buffer_refines_queue s buf q ops q' rs :
  ring_rel (s, buf) q → run_ops (bytes_step n) q ops = Some (q', rs) →
  ∃ sb', run_ops (ring_step n) (s, buf) ops = Some (sb', rs) ∧ ring_rel sb' q'.
Proof using Type*. apply refines_run; exact _. Qed.
End RingRefinement.

(** The writer of a ring of 4088 bytes, in the dataspace at 101. *)
Definition demo_writer : rb_buffer := RbBuffer RB_WRITEONLY 0 0 4088 101.
Definition ring_ops : list ring_op :=
  [RWrite (repeat 1 4080); RConsume 4000; RWrite (repeat 2 4000); RWrite [3; 4; 5; 6; 7; 8; 9; 10]].

Lemma ring_buffer_refines_queue_witness :
  ∃ sb', run_ops (ring_step 4088) (two_dspaces, demo_writer) ring_ops =
    Some (sb', [ESUCCESS; ESUCCESS; ESUCCESS; ENOMEM]).
Proof.
  destruct (ring_buffer_refines_queue 4088 ltac:(done) two_dspaces demo_writer [] ring_ops
    (repeat 1 80 ++ repeat 2 4000) [ESUCCESS; ESUCCESS; ESUCCESS; ENOMEM]) as (sb' & H & _).
  - exists (repeat 0 4096), 0%nat, 0%nat, 0%nat. split.
    + split; [exact two_dspaces_ok|]. split; [by exists (blank_dspace 2 1)|by vm_compute].
    + split; try lia; by vm_compute.
  - by vm_compute.
  - by exists sb'.
Defined.

(** Error behaviour (a code bug): a read advances the local copy of the end
    along with the start, so a reader that has read everything believes that as
    much again is there: a second read of [k] bytes succeeds on the empty queue
    and returns the [k] bytes of the ring past its end. *)
Theorem rb_read_rereads `{E : Env} `{HE : !EnvOk} {HP : EnvPlenty} s buf c q n st en k :
  view s (rb_dataspace buf) c → reader_ok buf c q n st en → Z.of_nat n ≤ 2 ^ 31 →
  length q = k → (0 < k)%nat →
  ∃ buf' s' buf'' s'',
    rb_read buf (Z.of_nat k) s = Ok (ESUCCESS, buf', q) s' ∧
    rb_read buf' (Z.of_nat k) s' = Ok (ESUCCESS, buf'', ring_queue n (ring_of c) en k) s''.
Proof.
  intros Hv [H1 H2 H3 H4 H5 H6 H7 H8 H9] Hn Hq Hk.
  assert (k = dist n st en) as Hk' by by rewrite <- Hq, H9, ring_queue_length.
  pose proof (dist_lt n st en ltac:(lia) ltac:(lia)) as Hdl.
  destruct (rb_read_local s c buf n st en k Hv H1 H2 H3 H6 H7 H8 Hn ltac:(lia))
    as (r & s' & Hr & -> & Hv' & Ho').
  assert (wrap n (st + k) = en) as Hend by (rewrite Hk'; apply wrap_dist; lia).
  assert (ring_queue n (ring_of c) st k = q) as Hqq by by rewrite H9, Hk'.
  rewrite Hend, Hqq in Hr. rewrite Hend in Hv'. set (buf' := set_localStart _ _) in *.
  assert (dist n en (wrap n (en + k)) = k) as Hdist by (apply dist_wrap; lia).
  destruct (rb_read_local s' _ buf' n en (wrap n (en + k)) k Hv' H1 H2)
    as (r & s'' & Hr' & -> & _); try done.
  - by rewrite length_inserts.
  - split; [lia|apply wrap_lt; lia].
  - lia.
  - exists buf', s'. eexists _, s''. split; [exact Hr|].
    rewrite Hr'. do 3 f_equal. unfold ring_of. by rewrite drop_inserts_lt by (cbn; lia).
Qed.

(** The reader of a ring with the three bytes 7, 8, 9. *)
Definition demo_reader : rb_buffer := RbBuffer RB_READONLY 0 3 4088 101.
Lemma rb_read_rereads_witness :
  ∃ s buf' s' buf'' s'', rb_read demo_reader 3 s = Ok (ESUCCESS, buf', [7; 8; 9]) s' ∧
                        rb_read buf' 3 s' = Ok (ESUCCESS, buf'', [0; 0; 0]) s''.
Proof.
  set (c := [0; 0; 0; 0; 3; 0; 0; 0; 7; 8; 9] ++ repeat 0 4085).
  assert (∃ s, view s 101 c) as [s Hv].
  { assert (view two_dspaces 101 (repeat 0 4096)) as Hv.
    { split; [exact two_dspaces_ok|]. split; [by exists (blank_dspace 2 1)|by vm_compute]. }
    destruct (view_write _ _ _ 0 11 [0; 0; 0; 0; 3; 0; 0; 0; 7; 8; 9] Hv) as (e & s & _ & _ & Hs & _);
      [done..|rewrite repeat_length; lia|done|].
    exists s. assert (list_inserts (Z.to_nat 0) (take (Z.to_nat 11) [0; 0; 0; 0; 3; 0; 0; 0; 7; 8; 9])
      (repeat 0 4096) = c) as <- by by vm_compute. exact Hs. }
  destruct (rb_read_rereads s demo_reader c [7; 8; 9] 4088 0 3 3 Hv) as (b1 & s1 & b2 & s2 & H1 & H2);
    [|done..|lia|].
  - split; try lia; by vm_compute.
  - exists s, b1, s1, b2, s2. split; [exact H1|].
    assert (ring_queue 4088 (ring_of c) 3 3 = [0; 0; 0]) as Heq by by vm_compute.
    by rewrite Heq in H2.
Defined.
