(* ===== verification/MemservInv.v ===== *)
(** * References between windows and dataspaces

    [coat_rep]: a table of objects is a map from identifiers to addresses.
    [refs_ok]: the two tables hold the dataspaces and the windows, and the
    reference count of a dataspace is the number of windows that show it and of
    the references held elsewhere.  The lemmas give the effect of the operations
    of [Memserv] on such states. *)

From S2P Require Import Prelude.
From S2P Require Import Word32.
From S2P Require Import DataStruct.
From S2P Require Import DataVec.
From S2P Require Import DataPool.
From S2P Require Import WindowAssoc.
From S2P Require Import WindowInv.
From S2P Require Import Procserv.
From S2P Require Import Dataspace.
From S2P Require Import Memserv.

(** The tables have room for 8192 objects. *)
Definition max_objects : Z := 8192.
Definition table_lim : Z := 16384.

Record coat_rep (t : coat_t) (m : gmap Z Z) : Prop := {
  ct_pool : ∃ A, prep table_lim (pool t) A ∧ ∀ id, id ∈ A ↔ is_Some (m !! id);
  ct_range : cp_start (pool t) = 1 ∧ cp_end (pool t) = max_objects;
  ct_table : ∃ l, vrep table_lim (table t) l ∧
    ∀ id, 0 ≤ id → l !! Z.to_nat id = m !! id ∨ (m !! id = None ∧ l !! Z.to_nat id = Some 0);
  ct_objects id p : m !! id = Some p → 1 ≤ id < max_objects ∧ p ≠ 0
}.

Section Coat.
Context {E : Env} (Hmalloc : ∀ n, 0 < n ≤ 8 * table_lim → malloc_ok n = true).

Lemma lim_ok : 16 ≤ table_lim ≤ 2 ^ 28.
Proof. done. Qed.

Lemma coat_get_rep t m id :
  coat_rep t m → 0 ≤ id < max_objects → coat_get t id = Some (default 0 (m !! id)).
Proof using Type.
  intros [_ [Hs He] (l & Hv & Hl) Ho] Hid. assert (max_objects = 8192) as Hmax by done.
  unfold coat_get. rewrite Hs, He, w32_id by (unfold is_w32; lia).
  destruct (Z.ltb_spec id 1) as [H1|H1]; cbn [orb].
  { destruct (m !! id) as [p|] eqn:E1; [|done]. apply Ho in E1. lia. }
  rewrite (proj2 (Z.leb_gt _ _)) by lia. cbn [orb]. unfold cvector_count. rewrite (vr_count _ _ _ Hv).
  destruct (Z.leb_spec (Z.of_nat (length l)) id) as [H2|H2].
  - destruct (Hl id ltac:(lia)) as [H|[_ H]]; rewrite lookup_ge_None_2 in H by lia; [|done].
    by rewrite <- H.
  - rewrite (cvector_get_spec table_lim lim_ok _ _ _ Hv) by lia.
    destruct (Hl id ltac:(lia)) as [H|[-> H]]; [|done].
    destruct (lookup_lt_is_Some_2 l (Z.to_nat id)) as [x Hx]; [lia|]. rewrite Hx in *. by rewrite <- H.
Qed.

Section Lens.
Context (get : procserv → coat_t) (upd : coat_t → procserv → procserv).
Context (get_upd : ∀ t s, get (upd t s) = t) (upd_upd : ∀ t t' s, upd t (upd t' s) = upd t s).

Lemma table_get_Ok s m id :
  coat_rep (get s) m → 0 ≤ id < max_objects → table_get get id s = Ok (default 0 (m !! id)) s.
Proof using Type.
  intros Hr Hid. unfold oat_get. kstep. by rewrite (coat_get_rep _ m).
Qed.

(** Freeing an object of the table runs its deletion. *)
Lemma table_free_run s m id p del :
  coat_rep (get s) m → m !! id = Some p →
  table_free get upd del id s =
    (del p ;;; set_object get upd id 0 ;;; free_id get upd id ;;; kret 0) s.
Proof using Type.
  intros Hr Hid. destruct (ct_objects _ _ Hr id p Hid) as [Hb Hp].
  assert (max_objects = 8192) as Hmax by done.
  unfold oat_free. kstep. rewrite w32_id by (unfold is_w32; lia).
  destruct (ct_pool _ _ Hr) as (A & HA & HAm).
  rewrite (kopt_Some _ false).
  2:{ rewrite (cpool_check_spec table_lim lim_ok _ _ _ HA). f_equal.
      apply bool_decide_false. rewrite HAm. naive_solver. }
  rewrite (kopt_Some _ p) by (rewrite (coat_get_rep _ m), Hid by (done || lia); done).
  by rewrite (proj2 (Z.eqb_neq p 0)) by done.
Qed.

(** Freeing an object whose deletion leaves the table alone. *)
Lemma table_free_Ok s m id p del s1 :
  coat_rep (get s) m → m !! id = Some p → del p s = Ok tt s1 → coat_rep (get s1) m →
  ∃ t, coat_rep t (delete id m) ∧ table_free get upd del id s = Ok 0 (upd t s1).
Proof using Type*.
  intros Hr Hid Hdel Hr1. destruct (ct_objects _ _ Hr id p Hid) as [Hb Hp].
  assert (max_objects = 8192) as Hmax by done.
  rewrite (table_free_run s m id p) by done.
  rewrite (kbind_Ok _ _ _ _ _ Hdel).
  destruct Hr1 as [(A1 & HA1 & HAm1) Hrange (l & Hv & Hl) Ho].
  assert (Z.to_nat id < length l)%nat as Hlen.
  { apply lookup_lt_is_Some. destruct (Hl id ltac:(lia)) as [->|[? _]]; [by rewrite Hid|congruence]. }
  destruct (cvector_set_spec table_lim lim_ok _ _ id 0 Hv) as (v & Hset & Hv'); [lia|].
  unfold oat_set_object. rewrite (kbind_Ok _ _ s1 (upd (coat (pool (get s1)) v (oat_deleted (get s1))) s1) tt).
  2:{ kstep. by rewrite (kopt_Some _ v) by done. }
  destruct (cpool_free_held malloc_ok table_lim lim_ok Hmalloc (pool (get s1)) A1 id HA1)
    as (pl & Hfree & Hsame & Hpl); [apply HAm1; by rewrite Hid|].
  unfold oat_free_id.
  rewrite (kbind_Ok _ _ _ (upd (coat pl v (oat_deleted (get s1))) s1) tt).
  2:{ kstep. rewrite get_upd. cbn [pool]. rewrite (kopt_Some _ pl) by done. unfold oat_set_pool, modify.
      by rewrite get_upd, upd_upd. }
  eexists. split; [|done]. split; cbn [pool table].
  - exists (A1 ∖ {[id]}). split; [done|]. intros i. rewrite elem_of_difference, HAm1, elem_of_singleton.
    destruct (decide (i = id)) as [->|Hne]; [rewrite lookup_delete_eq|rewrite lookup_delete_ne by done];
      unfold is_Some; naive_solver.
  - destruct Hsame as [-> ->]. done.
  - exists (<[Z.to_nat id:=0]> l). split; [done|]. intros i Hi.
    destruct (decide (i = id)) as [->|Hne].
    + right. rewrite lookup_delete_eq, list_lookup_insert_eq by done. done.
    + rewrite lookup_delete_ne, list_lookup_insert_ne by (done || lia). by apply Hl.
  - intros i q Hq. apply lookup_delete_Some in Hq as [_ Hq]. by apply Ho.
Qed.
End Lens.
End Coat.

(** ** Searching the windows of a process *)

(** The array holds the windows [ws], in any order. *)
Definition holds_windows (aw : w_associated_windowlist) (ws : list w_associated_window) : Prop :=
  numIndex aw = Z.of_nat (length ws) ∧ ∃ rest, associated aw = (Some <$> ws) ++ rest.

Section Spaces.
Context {E : Env} (Hqsort : ∀ l, qsort l ≡ₚ l).

Lemma sort_held aw ws :
  holds_windows aw ws → ∃ aw' ws', sort_if_needed qsort aw = Some aw' ∧ holds_windows aw' ws'.
Proof using Type*.
  intros [Hn (rest & Ha)]. unfold sort_if_needed. destruct (updated aw).
  { exists aw, ws. split; [done|]. split; [done|by exists rest]. }
  unfold w_associate_update. rewrite Ha, Hn, Nat2Z.id.
  rewrite (collect_known ws rest (length ws) 0) by lia. rewrite drop_0, take_ge by lia. eexists _, (qsort ws). split; [done|]. split; cbn.
  - by rewrite Hqsort.
  - rewrite drop_app_ge by (rewrite length_fmap; lia). by eexists.
Qed.

Lemma find_winID_held n : ∀ ws rest i winID,
  length ws = (i + n)%nat →
  ∃ r, find_winID_loop n ((Some <$> ws) ++ rest) (Z.of_nat i) winID = Some r ∧
       ∀ w, r = Some w → aw_winID w = winID.
Proof.
  induction n as [|n IH]; intros ws rest i winID Hl; cbn [find_winID_loop]; [by exists None|].
  destruct (lookup_lt_is_Some_2 ws i) as [x Hx]; [lia|]. rewrite (fetch_known ws rest _ x) by (rewrite ?Nat2Z.id; done || lia).
  destruct (Z.eqb_spec (aw_winID x) winID) as [He|He].
  - exists (Some x). split; [done|]. by intros w [= <-].
  - replace (Z.of_nat i + 1) with (Z.of_nat (S i)) by lia. apply IH. lia.
Qed.

Lemma find_winID_Ok pid p ws winID s :
  pcbs s !! pid = Some p → holds_windows (vs_windows (pcb_vspace p)) ws →
  ∃ r aw ws', find_winID pid winID s = Ok r (upd_pcbs
      (<[pid := set_pcb_vspace (set_vs_windows aw (pcb_vspace p)) p]> (pcbs s)) s) ∧
    holds_windows aw ws' ∧ ∀ w, r = Some w → aw_winID w = winID.
Proof using Type*.
  intros Hp Hw. destruct (sort_held _ _ Hw) as (aw & ws' & Hsort & Hw').
  destruct Hw' as [Hn (rest & Ha)].
  destruct (find_winID_held (length ws') ws' rest 0 winID eq_refl) as (r & Hr & Hid).
  exists r, aw, ws'. split; [|split; [|done]].
  - unfold find_winID, with_windows. unfold getPcb at 1, kbind at 1. rewrite Hp.
    unfold w_associate_find_winID. rewrite Hsort, Hn, Nat2Z.id, Ha. change (Z.of_nat 0) with 0 in Hr. rewrite Hr.
    cbn. unfold updPcb, kbind. by rewrite Hp.
  - split; [done|by exists rest].
Qed.
End Spaces.

Lemma kbind_assoc {S A} (m k : M S unit) (c : M S A) s :
  (m ;;; k ;;; c) s = ((m ;;; k) ;;; c) s.
Proof. unfold kbind. by destruct (m s) as [[] s1| |]. Qed.

(** ** Operations that only call the environment *)
Section EnvOnly.
Context {E : Env}.

Definition env_only (m : P unit) : Prop := ∀ s, ∃ e, m s = Ok tt (upd_ps_env e s).

Lemma env_only_ret : env_only (kret tt).
Proof. intros s. exists (ps_env s). by destruct s. Qed.
Lemma env_only_call f : env_only (call_ f).
Proof. intros s. by eexists. Qed.
Lemma env_only_bind (m k : P unit) : env_only m → env_only k → env_only (m ;;; k).
Proof.
  intros Hm Hk s. destruct (Hm s) as [e He]. rewrite (kbind_Ok _ _ _ _ _ He).
  destruct (Hk (upd_ps_env e s)) as [e' ->]. by exists e'.
Qed.
Lemma env_only_when b m : env_only m → env_only (kwhen b m).
Proof. intros Hm. destruct b; [exact Hm|exact env_only_ret]. Qed.
Lemma env_only_for {A} (xs : list A) (body : A → P unit) :
  (∀ x, env_only (body x)) → env_only (kfor xs body).
Proof.
  intros Hb. induction xs as [|x xs IH]; cbn; [exact env_only_ret|]. by apply env_only_bind.
Qed.
Lemma env_only_release slot : env_only (release_slot slot).
Proof. repeat apply env_only_bind; apply env_only_call. Qed.
Lemma env_only_unmap_frame pid vaddr : env_only (vs_unmap_frame pid vaddr).
Proof.
  intros s. unfold vs_unmap_frame. kstep. destruct (_ =? 0); [apply env_only_ret|].
  apply env_only_bind; [apply env_only_call|apply env_only_release].
Qed.
Lemma env_only_unmap_frames pid vaddr n : env_only (vs_unmap_frames pid vaddr n).
Proof. apply env_only_for. intros. apply env_only_unmap_frame. Qed.
End EnvOnly.
#[export] Hint Resolve env_only_ret env_only_call env_only_bind env_only_when env_only_release
  env_only_unmap_frame env_only_unmap_frames : kernel.

(** ** The references *)

(** How many windows show the dataspace [p]. *)
Definition shows (ws : gmap Z w_window) (p : Z) : Z :=
  Z.of_nat (size (filter (λ w, w_ramDataspace w.2 = p) ws)).
Definition shows_1 (w : w_window) (p : Z) : Z := if w_ramDataspace w =? p then 1 else 0.

Lemma shows_new ws w win p :
  ws !! w = None → shows (<[w := win]> ws) p = shows ws p + shows_1 win p.
Proof.
  intros Hw. unfold shows, shows_1. destruct (Z.eqb_spec (w_ramDataspace win) p) as [He|He].
  - rewrite map_filter_insert_True by done. rewrite map_size_insert_None; [lia|].
    apply map_lookup_filter_None. by left.
  - rewrite map_filter_insert_False by done. rewrite delete_id by done. lia.
Qed.

Lemma shows_delete ws w win p :
  ws !! w = Some win → shows (delete w ws) p = shows ws p - shows_1 win p.
Proof.
  intros Hw. rewrite <- (insert_delete_id ws w win Hw) at 2.
  rewrite shows_new by apply lookup_delete_eq. lia.
Qed.

Lemma shows_insert ws w win win' p :
  ws !! w = Some win → shows (<[w := win']> ws) p = shows ws p - shows_1 win p + shows_1 win' p.
Proof.
  intros Hw. rewrite <- insert_delete_eq, shows_new by apply lookup_delete_eq.
  by rewrite (shows_delete ws w win).
Qed.

Lemma shows_nonneg ws p : 0 ≤ shows ws p.
Proof. unfold shows. lia. Qed.

Lemma shows_pos ws w win p : ws !! w = Some win → w_ramDataspace win = p → 1 ≤ shows ws p.
Proof.
  intros Hw Hp. pose proof (shows_delete ws w win p Hw) as H. unfold shows_1 in H.
  rewrite (proj2 (Z.eqb_eq _ _) Hp) in H. pose proof (shows_nonneg (delete w ws) p). lia.
Qed.

Lemma shows_none ws p : (∀ w win, ws !! w = Some win → w_ramDataspace win ≠ p) ↔ shows ws p = 0.
Proof.
  split.
  - intros H. unfold shows. replace (filter _ ws) with (∅ : gmap Z w_window); [done|]. symmetry.
    apply map_empty. intros w. apply map_lookup_filter_None. right. intros win Hw. by apply (H w win).
  - intros H w win Hw Hp. pose proof (shows_pos ws w win p Hw Hp). lia.
Qed.

(** A window is in its owner's address space. *)
Definition owned (w : w_window) : Prop :=
  w_vspace w = w_clientOwnerPID w ∧ (w_reservation w ≠ 0 → w_vspace w ≠ 0).

(** What deleting a dataspace relies on. *)
Record deletable (d : ram_dspace) : Prop := {
  dl_capability : rds_capability d ≠ 0;
  dl_content_init : contentInitEnabled d = true → contentInitEP d ≠ 0;
  dl_waiters : ∃ l, vrep table_lim (contentInitWaitingList d) l ∧ Forall (λ w, waiter_reply w ≠ 0) l;
  dl_pages : rds_pages d = [] → rds_npages d = 0
}.

Section Refs.
Context {E : Env}.

(** [D] and [W] are the tables of dataspaces and windows, [ext p] is the number
    of references to the dataspace at [p] that are held elsewhere. *)
Record refs_ok (D W : gmap Z Z) (ext : Z → Z) (s : procserv) : Prop := {
  rf_dtable : coat_rep (dspaceList s) D;
  rf_wtable : coat_rep (windowList s) W;
  rf_dspace id p : D !! id = Some p ↔ ∃ d, ps_dspaces s !! p = Some d ∧ rds_ID d = id;
  rf_window id w : W !! id = Some w ↔ ∃ win, ps_windows s !! w = Some win ∧ w_wID win = id;
  rf_deletable p d : ps_dspaces s !! p = Some d → deletable d;
  rf_shown w win : ps_windows s !! w = Some win → w_ramDataspace win ≠ 0 →
    is_Some (ps_dspaces s !! w_ramDataspace win);
  rf_owner w win : ps_windows s !! w = Some win → owned win;
  rf_count p d : ps_dspaces s !! p = Some d →
    rds_ref d = shows (ps_windows s) p + ext p ∧ 0 ≤ ext p ∧ rds_ref d < 2 ^ 32;
  rf_spaces pid q : pcbs s !! pid = Some q → ∃ ws, holds_windows (vs_windows (pcb_vspace q)) ws
}.

Lemma refs_ok_env D W ext s e : refs_ok D W ext s → refs_ok D W ext (upd_ps_env e s).
Proof. intros [? ? ? ? ? ? ? ? ?]. by split. Qed.

Lemma refs_ok_pcb D W ext s pid q q' ws :
  refs_ok D W ext s → pcbs s !! pid = Some q → holds_windows (vs_windows (pcb_vspace q')) ws →
  refs_ok D W ext (upd_pcbs (<[pid := q']> (pcbs s)) s).
Proof.
  intros [? ? ? ? ? ? ? ? H] Hq Hw. split; try done. cbn. intros pid' q1.
  destruct (decide (pid' = pid)) as [->|Hne].
  - rewrite lookup_insert_eq. intros [= <-]. eauto.
  - rewrite lookup_insert_ne by done. apply H.
Qed.

(** A dataspace is named by its identifier. *)
Lemma refs_ok_id D W ext s p q d d' :
  refs_ok D W ext s → ps_dspaces s !! p = Some d → ps_dspaces s !! q = Some d' →
  rds_ID d = rds_ID d' → p = q.
Proof.
  intros H Hp Hq He. assert (D !! rds_ID d = Some p) as H1 by (apply (rf_dspace D W ext s H); eauto).
  assert (D !! rds_ID d = Some q) as H2 by (apply (rf_dspace D W ext s H); eauto). congruence.
Qed.
Lemma refs_ok_window_id D W ext s w v win win' :
  refs_ok D W ext s → ps_windows s !! w = Some win → ps_windows s !! v = Some win' →
  w_wID win = w_wID win' → w = v.
Proof.
  intros H Hp Hq He. assert (W !! w_wID win = Some w) as H1 by (apply (rf_window D W ext s H); eauto).
  assert (W !! w_wID win = Some v) as H2 by (apply (rf_window D W ext s H); eauto). congruence.
Qed.

(** Changing a window, and the counts of the dataspaces it shows. *)
Definition set_window (w : Z) (win : w_window) (s : procserv) : procserv :=
  upd_ps_windows (<[w := win]> (ps_windows s)) s.
Definition set_ref (p r : Z) (s : procserv) : procserv :=
  match ps_dspaces s !! p with
  | Some d => upd_ps_dspaces (<[p := rds_set_ref r d]> (ps_dspaces s)) s
  | None => s
  end.

Lemma ram_dspace_get_Ok D W ext s p d :
  refs_ok D W ext s → ps_dspaces s !! p = Some d → ram_dspace_get (rds_ID d) s = Ok p s.
Proof.
  intros H Hp. assert (D !! rds_ID d = Some p) as HD by (apply (rf_dspace D W ext s H); eauto).
  destruct (ct_objects _ _ (rf_dtable D W ext s H) _ _ HD) as [Hr _].
  unfold ram_dspace_get. assert (max_objects = 8192) as Hmax by done.
  rewrite (proj2 (Z.leb_gt _ _)), (proj2 (Z.leb_gt _ _)) by
    (unfold RAM_DATASPACE_INVALID_ID, RAM_DATASPACE_MAX_NUM_DATASPACE; lia). cbn [orb].
  rewrite (table_get_Ok _ s D) by (apply H || lia). by rewrite HD.
Qed.

Lemma w_get_window_Ok D W ext s id :
  refs_ok D W ext s → w_get_window id s = Ok (default 0 (W !! id)) s.
Proof.
  intros H. unfold w_get_window. assert (max_objects = 8192) as Hmax by done.
  assert (W_MAX_WINDOWS = 8192) as HW by done.
  destruct (Z.leb_spec id W_INVALID_WINID) as [H1|H1]; cbn [orb];
    [|destruct (Z.leb_spec W_MAX_WINDOWS id) as [H2|H2]].
  1,2: destruct (W !! id) as [w|] eqn:Hw; [|done];
    destruct (ct_objects _ _ (rf_wtable D W ext s H) _ _ Hw); unfold W_INVALID_WINID in *; lia.
  apply table_get_Ok; [apply H|]. unfold W_INVALID_WINID in *. lia.
Qed.

(** Replacing a window moves its reference. *)
Definition move_refs (win win' : w_window) (ds : gmap Z ram_dspace) (ds' : gmap Z ram_dspace) : Prop :=
  ∀ p, ds' !! p = (λ d, rds_set_ref (rds_ref d - shows_1 win p + shows_1 win' p) d) <$> ds !! p.

Lemma rds_set_ref_id d : rds_set_ref (rds_ref d) d = d.
Proof. by destruct d. Qed.

Lemma deletable_ref d r : deletable d → deletable (rds_set_ref r d).
Proof. intros [? ? ? ?]. by split. Qed.

Lemma move_refs_same win win' ds : w_ramDataspace win = w_ramDataspace win' → move_refs win win' ds ds.
Proof.
  intros He p. unfold shows_1. rewrite He. destruct (ds !! p) as [d|]; [|done]. cbn. f_equal.
  rewrite Z.sub_add. by rewrite rds_set_ref_id.
Qed.

Lemma refs_ok_show D W ext s w win win' ds' :
  refs_ok D W ext s → ps_windows s !! w = Some win → move_refs win win' (ps_dspaces s) ds' →
  w_wID win' = w_wID win → owned win' →
  (w_ramDataspace win' ≠ 0 → is_Some (ps_dspaces s !! w_ramDataspace win')) →
  (∀ p d, ds' !! p = Some d → rds_ref d < 2 ^ 32) →
  refs_ok D W ext (upd_ps_dspaces ds' (set_window w win' s)).
Proof.
  intros H Hw Hmove Hid Hown Hram Hbd. pose proof H as [H1 H2 H3 H4 H5 H6 H7 H8 H9].
  assert (∀ p d', ds' !! p = Some d' ↔ ∃ d, ps_dspaces s !! p = Some d ∧
    d' = rds_set_ref (rds_ref d - shows_1 win p + shows_1 win' p) d) as Hds.
  { intros p d'. rewrite Hmove. destruct (ps_dspaces s !! p) as [d|]; cbn; naive_solver. }
  assert (∀ p, is_Some (ps_dspaces s !! p) → is_Some (ds' !! p)) as Hsome.
  { intros p [d Hd]. rewrite Hmove, Hd. by eexists. }
  split; cbn; try done.
  - intros id p. rewrite H3. split; intros (d & Hd & He).
    + eexists. split; [apply Hds; by exists d|done].
    + apply Hds in Hd as (d0 & Hd0 & ->). by exists d0.
  - intros id v. rewrite H4. split; intros (win0 & Hv & He).
    + destruct (decide (v = w)) as [->|Hne]; [exists win'; rewrite lookup_insert_eq; split; [done|congruence]|].
      exists win0. by rewrite lookup_insert_ne.
    + destruct (decide (v = w)) as [->|Hne].
      * rewrite lookup_insert_eq in Hv. injection Hv as <-. exists win. split; [done|congruence].
      * rewrite lookup_insert_ne in Hv by done. by exists win0.
  - intros p d Hd. apply Hds in Hd as (d0 & Hd0 & ->). by eapply deletable_ref, H5.
  - intros v win0 Hv Hr. apply Hsome. destruct (decide (v = w)) as [->|Hne].
    + rewrite lookup_insert_eq in Hv. injection Hv as <-. auto.
    + rewrite lookup_insert_ne in Hv by done. eauto.
  - intros v win0 Hv. destruct (decide (v = w)) as [->|Hne].
    + rewrite lookup_insert_eq in Hv. by injection Hv as <-.
    + rewrite lookup_insert_ne in Hv by done. eauto.
  - intros p d Hd. pose proof (Hbd p d Hd) as Hb. apply Hds in Hd as (d0 & Hd0 & ->).
    destruct (H8 p d0 Hd0) as (Hr & He & _). cbn in *. rewrite (shows_insert _ w win) by done. lia.
Qed.

(** Changing a window but not what it shows. *)
Lemma refs_ok_window D W ext s w win win' :
  refs_ok D W ext s → ps_windows s !! w = Some win → w_wID win' = w_wID win →
  owned win' → w_ramDataspace win' = w_ramDataspace win →
  refs_ok D W ext (set_window w win' s).
Proof.
  intros H Hw Hid Hown Hram.
  assert (set_window w win' s = upd_ps_dspaces (ps_dspaces s) (set_window w win' s)) as -> by done.
  apply (refs_ok_show D W ext s w win); try done.
  - by apply move_refs_same.
  - rewrite Hram. by apply (rf_shown D W ext s H w win).
  - intros p d Hd. by apply (rf_count D W ext s H p d).
Qed.

(** ** Dropping a shared reference, emptying a window *)
Lemma unref_shared D W ext s p d n :
  refs_ok D W ext s → ps_dspaces s !! p = Some d → 1 < rds_ref d →
  unref_at (S n) (rds_ID d) s =
    Ok tt (upd_ps_dspaces (<[p := rds_set_ref (rds_ref d - 1) d]> (ps_dspaces s)) s).
Proof.
  intros H Hp Hr. cbn [unref_at]. rewrite (kbind_Ok _ _ _ _ _ (ram_dspace_get_Ok D W ext s p d H Hp)).
  assert (D !! rds_ID d = Some p) as HD by (apply (rf_dspace D W ext s H); eauto).
  destruct (ct_objects _ _ (rf_dtable D W ext s H) _ _ HD) as [_ Hp0].
  rewrite (proj2 (Z.eqb_neq p 0)) by done. cbn [negb]. unfold kassert at 1. rewrite kbind_kret.
  rewrite (kbind_Ok _ _ _ _ _ (getDspace_Ok s p d Hp)). rewrite (proj2 (Z.ltb_lt _ _)) by lia.
  unfold kassert at 1. rewrite kbind_kret.
  rewrite (kbind_Ok _ _ _ _ _ (updDspace_Ok s p d (rds_set_ref (rds_ref d - 1)) Hp)).
  by rewrite (proj2 (Z.eqb_neq _ _)) by lia.
Qed.

Context (Hqsort : ∀ l, qsort l ≡ₚ l).

Lemma unmap_window_rep D W ext s pid q w win :
  refs_ok D W ext s → pcbs s !! pid = Some q → ps_windows s !! w = Some win → w_vspace win = pid →
  runs (vs_unmap_window pid (w_wID win)) s (λ _ s', refs_ok D W ext s' ∧
    ∃ e qs, s' = upd_ps_env e (upd_pcbs qs s)).
Proof using Hqsort.
  intros H Hq Hw Hv. destruct (rf_spaces D W ext s H pid q Hq) as [ws Hws].
  destruct (find_winID_Ok Hqsort pid q ws (w_wID win) s Hq Hws) as (r & aw & ws' & Hfind & Hws' & Hid).
  unfold vs_unmap_window. eapply runs_bind_Ok; [exact Hfind|].
  set (s1 := upd_pcbs _ s). assert (refs_ok D W ext s1) as H1 by (by eapply refs_ok_pcb).
  assert (Hnop : ∃ e qs, s1 = upd_ps_env e (upd_pcbs qs s)) by (by eexists (ps_env s), _).
  destruct r as [a|]; [|by apply runs_ret].
  rewrite (Hid a eq_refl). eapply runs_bind_Ok; [by apply (w_get_window_Ok D W ext)|].
  assert (W !! w_wID win = Some w) as HW by (apply (rf_window D W ext s H); eauto).
  destruct (ct_objects _ _ (rf_wtable D W ext s H) _ _ HW) as [_ Hw0].
  rewrite HW. cbn [default]. change (id w) with w. rewrite (proj2 (Z.eqb_neq w 0)) by done.
  apply runs_bind, runs_assert; [done|]. rstep.
  apply runs_bind, runs_assert; [by apply Z.eqb_eq|].
  destruct (env_only_unmap_frames pid (aw_offset a) (npages_of_size (aw_size a)) s1) as [e He].
  eapply runs_Ok; [exact He|]. split; [by apply refs_ok_env|]. by eexists e, _.
Qed.

Definition no_pager (w : w_window) : w_window :=
  if w_pager w =? 0 then w else set_w_pagerPID PID_NULL (set_w_pager 0 w).
Definition no_dspace (w : w_window) : w_window :=
  if w_ramDataspace w =? 0 then w else set_w_ramDataspaceOffset 0 (set_w_ramDataspace 0 w).
Definition emptied (mode : w_window_mode) (w : w_window) : w_window :=
  set_w_mode mode (no_dspace (no_pager w)).

Lemma no_pager_fields w :
  w_wID (no_pager w) = w_wID w ∧ w_ramDataspace (no_pager w) = w_ramDataspace w ∧
  (owned w → owned (no_pager w)).
Proof using Type. unfold no_pager. by destruct (_ =? 0). Qed.
Lemma no_dspace_fields w :
  w_wID (no_dspace w) = w_wID w ∧ w_ramDataspace (no_dspace w) = 0 ∧
  (owned w → owned (no_dspace w)).
Proof using Type. unfold no_dspace. by destruct (Z.eqb_spec (w_ramDataspace w) 0). Qed.

(** The dataspaces when a window drops its reference. *)
Definition drop_ref (win : w_window) (ds : gmap Z ram_dspace) : gmap Z ram_dspace :=
  match ds !! w_ramDataspace win with
  | Some d => if w_ramDataspace win =? 0 then ds
              else <[w_ramDataspace win := rds_set_ref (rds_ref d - 1) d]> ds
  | None => ds
  end.

Lemma drop_ref_moves win win' ds :
  w_ramDataspace win' = 0 → ds !! 0 = None → move_refs win win' ds (drop_ref win ds).
Proof.
  intros Hw' H0 p. unfold drop_ref, shows_1. rewrite Hw'.
  destruct (Z.eqb_spec (w_ramDataspace win) 0) as [Hz|Hz].
  { rewrite Hz, H0. destruct (Z.eqb_spec 0 p) as [<-|]; [by rewrite H0|].
    destruct (ds !! p) as [d|]; [|done]. cbn. rewrite Z.sub_0_r, Z.add_0_r. by rewrite rds_set_ref_id. }
  destruct (Z.eqb_spec 0 p) as [<-|Hp]; [|].
  { rewrite H0. destruct (ds !! w_ramDataspace win) as [d|]; [|by rewrite H0].
    by rewrite lookup_insert_ne, H0. }
  destruct (Z.eqb_spec (w_ramDataspace win) p) as [<-|Hne].
  - destruct (ds !! w_ramDataspace win) as [d|] eqn:Hd; [|by rewrite Hd].
    rewrite lookup_insert_eq. cbn. by rewrite Z.add_0_r.
  - assert (∀ d, rds_set_ref (rds_ref d - 0 + 0) d = d) as Hid.
    { intros d. rewrite Z.sub_0_r, Z.add_0_r. apply rds_set_ref_id. }
    destruct (ds !! w_ramDataspace win) as [d|] eqn:Hd; [rewrite lookup_insert_ne by done|];
      destruct (ds !! p) as [d'|]; cbn; by rewrite ?Hid.
Qed.

Lemma no_null_dspace D W ext s : refs_ok D W ext s → ps_dspaces s !! 0 = None.
Proof using Type.
  intros H. destruct (ps_dspaces s !! 0) as [d|] eqn:Hd; [|done].
  assert (D !! rds_ID d = Some 0) as HD by (apply (rf_dspace D W ext s H); eauto).
  by destruct (ct_objects _ _ (rf_dtable D W ext s H) _ _ HD).
Qed.

Lemma drop_ref_refs_ok D W ext s w win win' :
  refs_ok D W ext s → ps_windows s !! w = Some win → w_ramDataspace win' = 0 →
  w_wID win' = w_wID win → owned win' →
  refs_ok D W ext (upd_ps_dspaces (drop_ref win (ps_dspaces s)) (set_window w win' s)).
Proof using Type.
  intros H Hw Hr Hid Hown. pose proof (no_null_dspace D W ext s H) as Hnull.
  apply (refs_ok_show D W ext s w win); try done.
  - by apply drop_ref_moves.
  - intros p d Hd. rewrite (drop_ref_moves win win') in Hd by done.
    destruct (ps_dspaces s !! p) as [d0|] eqn:Hd0; [|done]. cbn in Hd. injection Hd as <-. cbn.
    unfold shows_1. destruct (rf_count D W ext s H p d0 Hd0) as (_ & _ & Hlt). rewrite Hr.
    destruct (Z.eqb_spec 0 p) as [<-|]; [congruence|]. destruct (_ =? p); lia.
Qed.

(** Windows written to twice. *)
Lemma set_window_twice w win win' s : set_window w win' (set_window w win s) = set_window w win' s.
Proof using Type. unfold set_window. cbn. by rewrite insert_insert_eq. Qed.
Lemma set_window_id w win s : ps_windows s !! w = Some win → set_window w win s = s.
Proof using Type. intros Hw. unfold set_window. rewrite insert_id by done. by destruct s. Qed.

(** The first half: the pager and the dataspace of the window are dropped. *)
Lemma drop_pager_rep D W ext s w win :
  refs_ok D W ext s → ps_windows s !! w = Some win →
  runs (kwhen (negb (w_pager win =? 0))
    (release_slot (w_pager win) ;;;
     updWindow w (λ w, set_w_pagerPID PID_NULL (set_w_pager 0 w)))) s (λ _ s',
    refs_ok D W ext s' ∧ ∃ e, s' = upd_ps_env e (set_window w (no_pager win) s)).
Proof using Type.
  intros H Hw. destruct (no_pager_fields win) as (F1 & F2 & F3).
  assert (∀ e, refs_ok D W ext (upd_ps_env e (set_window w (no_pager win) s))) as Hok.
  { intros e. apply (refs_ok_env D W ext (set_window w (no_pager win) s) e).
    apply (refs_ok_window D W ext s w win); try done.
    by apply F3, (rf_owner D W ext s H w win). }
  unfold no_pager in *. apply runs_when; intros Hpg.
  - apply negb_true_iff in Hpg. rewrite Hpg in *. destruct (env_only_release (w_pager win) s) as [e He].
    eapply runs_bind_Ok; [exact He|]. eapply runs_Ok; [by apply updWindow_Ok|]. split; [apply Hok|by exists e].
  - apply negb_false_iff in Hpg. rewrite Hpg in *. split; [done|]. exists (ps_env s).
    rewrite set_window_id by done. by destruct s.
Qed.

Lemma drop_dspace_rep D W ext s w win :
  refs_ok D W ext s → ps_windows s !! w = Some win →
  (w_ramDataspace win ≠ 0 → 1 ≤ ext (w_ramDataspace win)) →
  runs (kwhen (negb (w_ramDataspace win =? 0))
    (let! d := getDspace (w_ramDataspace win) in
     ram_dspace_unref (rds_ID d) ;;;
     updWindow w (λ w, set_w_ramDataspaceOffset 0 (set_w_ramDataspace 0 w)))) s (λ _ s',
    refs_ok D W ext s' ∧
    s' = upd_ps_dspaces (drop_ref win (ps_dspaces s)) (set_window w (no_dspace win) s)).
Proof using Type.
  intros H Hw Hext. pose proof (no_null_dspace D W ext s H) as Hnull.
  destruct (no_dspace_fields win) as (F1 & F2 & F3).
  assert (refs_ok D W ext (upd_ps_dspaces (drop_ref win (ps_dspaces s)) (set_window w (no_dspace win) s))) as Hok.
  { apply (drop_ref_refs_ok D W ext s w win); try done. by apply F3, (rf_owner D W ext s H w win). }
  unfold no_dspace, drop_ref in *. apply runs_when; intros Hz.
  - apply negb_true_iff in Hz. rewrite Hz in *. apply Z.eqb_neq in Hz.
    destruct (rf_shown D W ext s H w win Hw Hz) as [d Hd]. rewrite Hd in *. rstep.
    destruct (rf_count D W ext s H _ d Hd) as (Hr & _ & _).
    pose proof (shows_pos _ _ _ _ Hw eq_refl) as Hsp. specialize (Hext Hz).
    eapply runs_bind_Ok; [by apply (unref_shared D W ext s _ d 1 H Hd); lia|].
    eapply runs_Ok; [by apply updWindow_Ok|]. by split.
  - apply negb_false_iff in Hz. rewrite Hz in *. apply Z.eqb_eq in Hz. rewrite Hz, Hnull in *.
    rewrite set_window_id in * by done. split; [done|]. by destruct s.
Qed.

Lemma switch_mode_rep D W ext s w win mode :
  refs_ok D W ext s → ps_windows s !! w = Some win →
  (w_ramDataspace win ≠ 0 → 1 ≤ ext (w_ramDataspace win)) →
  runs (window_switch_mode w mode) s (λ _ s', refs_ok D W ext s' ∧
    ∃ e qs, s' = upd_ps_env e (upd_pcbs qs (upd_ps_dspaces (drop_ref win (ps_dspaces s))
                   (set_window w (emptied mode win) s)))).
Proof using Hqsort.
  intros H Hw Hext. unfold window_switch_mode, switch_mode. rstep.
  apply runs_bind. eapply runs_mono; [by apply (drop_pager_rep D W ext s w win)|]. cbv beta.
  intros _ s1 (H1 & e & Hs1). destruct (no_pager_fields win) as (F1 & F2 & F3).
  assert (ps_windows s1 !! w = Some (no_pager win)) as Hw1 by (subst s1; apply lookup_insert_eq).
  rewrite <- F2 in Hext |- *. apply runs_bind.
  eapply runs_mono; [by apply (drop_dspace_rep D W ext s1 w (no_pager win))|]. cbv beta.
  intros _ s2 [H2 Hs2]. destruct (no_dspace_fields (no_pager win)) as (G1 & G2 & G3).
  set (win2 := no_dspace (no_pager win)) in *.
  assert (ps_windows s2 !! w = Some win2) as Hw2 by (subst s2; apply lookup_insert_eq).
  rstep. apply runs_bind, runs_mono with (λ _ s', refs_ok D W ext s' ∧ ∃ e qs, s' = upd_ps_env e (upd_pcbs qs s2)).
  { assert (Hnop : refs_ok D W ext s2 ∧ ∃ e qs, s2 = upd_ps_env e (upd_pcbs qs s2)).
    { split; [done|]. exists (ps_env s2), (pcbs s2). by destruct s2. }
    apply runs_when; intros Hz; [|done]. unfold pid_get_pcb. apply runs_bind.
    destruct ((_ <? _) || _); [by apply runs_ret, runs_ret|]. apply runs_gets.
    destruct (pcbs s2 !! w_clientOwnerPID win2) as [q|] eqn:Hq; [|by apply runs_ret].
    apply (unmap_window_rep D W ext s2 _ q w win2); try done. by apply (rf_owner D W ext s2 H2 w win2). }
  cbv beta. intros _ s3 (H3 & e3 & qs & Hs3).
  assert (ps_windows s3 !! w = Some win2) as Hw3 by by subst s3.
  eapply runs_Ok; [by apply updWindow_Ok|]. split.
  - apply (refs_ok_window D W ext s3 w win2); try done. by apply (rf_owner D W ext s3 H3 w win2).
  - exists e3, qs. fold (set_window w (set_w_mode mode win2) s3). subst s3 s2 s1.
    assert (drop_ref (no_pager win) (ps_dspaces s) = drop_ref win (ps_dspaces s)) as Hdrop
      by (unfold drop_ref; by rewrite F2).
    by apply procserv_ext; cbn; rewrite ?insert_insert_eq, ?Hdrop.
Qed.

Lemma emptied_fields mode w :
  w_wID (emptied mode w) = w_wID w ∧ w_ramDataspace (emptied mode w) = 0 ∧ w_mode (emptied mode w) = mode.
Proof using Type.
  unfold emptied. cbn. destruct (no_dspace_fields (no_pager w)) as (-> & -> & _).
  by destruct (no_pager_fields w) as (-> & _).
Qed.

(** ** Emptying the windows that show a dataspace *)
Section Purge.
Context (D W : gmap Z Z) (ext : Z → Z) (s : procserv) (p : Z) (d : ram_dspace).
Context (H : refs_ok D W ext s) (Hp : ps_dspaces s !! p = Some d).

(** The windows when the identifiers [xs] are still to come. *)
Definition purged (xs : list Z) (win : w_window) : w_window :=
  if decide (w_ramDataspace win = p ∧ w_wID win ∉ xs) then emptied W_MODE_EMPTY win else win.
Record purging (xs : list Z) (s' : procserv) : Prop := {
  pg_refs : refs_ok D W ext s';
  pg_windows w : ps_windows s' !! w = purged xs <$> ps_windows s !! w;
  pg_others q : q ≠ p → ps_dspaces s' !! q = ps_dspaces s !! q;
  pg_dspace : ∃ r, ps_dspaces s' !! p = Some (rds_set_ref r d);
  pg_nodup : NoDup xs
}.

Lemma purged_id xs win : w_wID (purged xs win) = w_wID win.
Proof using Type. unfold purged. case_decide; [apply emptied_fields|done]. Qed.

Lemma purging_skip i xs s' :
  purging (i :: xs) s' → (∀ w win, ps_windows s !! w = Some win → w_wID win = i → w_ramDataspace win ≠ p) →
  purging xs s'.
Proof using Type.
  clear H Hp Hqsort. intros [H1 H2 H3 H4 H5] Hi. apply NoDup_cons in H5 as [_ H5]. split; try done.
  intros w. rewrite H2. destruct (ps_windows s !! w) as [win|] eqn:Hw; [|done]. cbn. f_equal.
  unfold purged. repeat case_decide; try done; set_solver.
Qed.

Lemma purge_step i xs s' :
  1 ≤ ext p → purging (i :: xs) s' →
  runs (purge_window ram_dspace_unref p i) s' (λ _ s2, purging xs s2).
Proof using Type*.
  intros Hext Hpg. pose proof Hpg as [H1 H2 H3 [r H4] H5].
  apply NoDup_cons in H5 as [Hi H5]. unfold purge_window.
  eapply runs_bind_Ok; [by apply (w_get_window_Ok D W ext)|].
  destruct (W !! i) as [w|] eqn:HW; cbn [default].
  2:{ rewrite Z.eqb_refl. apply runs_ret, purging_skip with i; [done|]. intros w win Hw <- _.
      assert (W !! w_wID win = Some w) by (apply (rf_window D W ext s H); eauto). congruence. }
  destruct (ct_objects _ _ (rf_wtable D W ext s H) _ _ HW) as [_ Hw0].
  change (id w) with w. rewrite (proj2 (Z.eqb_neq w 0)) by done.
  apply (rf_window D W ext s H) in HW as (win & Hw & Hid).
  assert (ps_windows s' !! w = Some win) as Hw'.
  { rewrite H2, Hw. cbn. f_equal. unfold purged. rewrite decide_False; [done|]. set_solver. }
  assert (∀ v win0, ps_windows s !! v = Some win0 → w_wID win0 = i → win0 = win) as Huniq.
  { intros v win0 Hv Hvi. assert (v = w) as -> by (apply (refs_ok_window_id D W ext s v w win0 win); congruence).
    congruence. }
  rstep. destruct (Z.eqb_spec (w_ramDataspace win) 0) as [Hz|Hz].
  { apply runs_ret, purging_skip with i; [done|]. intros v win0 Hv Hvi. rewrite (Huniq v win0 Hv Hvi), Hz.
    intros <-. by rewrite (no_null_dspace D W ext s H) in Hp. }
  destruct (rf_shown D W ext s' H1 w win Hw' Hz) as [d1 Hd1]. rstep. rstep.
  apply runs_when; intros Hcond.
  - assert (w_ramDataspace win = p) as Hwp.
    { apply orb_true_iff in Hcond as [Hc%Z.eqb_eq|Hc%Z.eqb_eq]; [done|].
      by apply (refs_ok_id D W ext s' _ _ d1 (rds_set_ref r d)). }
    eapply runs_mono; [by apply (switch_mode_rep D W ext s' w win); [| |rewrite Hwp]|]. cbv beta.
    intros _ s2 (Hr2 & e & qs & ->). split; try done; cbn.
    + intros v. destruct (decide (v = w)) as [->|Hne].
      * rewrite lookup_insert_eq, Hw. cbn. f_equal. unfold purged. rewrite decide_True; [done|].
        split; [done|]. by rewrite Hid.
      * rewrite lookup_insert_ne, H2 by done. destruct (ps_windows s !! v) as [win0|] eqn:Hv; [|done].
        cbn. f_equal. assert (w_wID win0 ≠ i).
        { intros Hvi. apply Hne. apply (refs_ok_window_id D W ext s v w win0 win); congruence. }
        unfold purged. repeat case_decide; try done; set_solver.
    + intros q Hq. unfold drop_ref. rewrite Hwp, H4. destruct (p =? 0); [by apply H3|].
      rewrite lookup_insert_ne by done. by apply H3.
    + unfold drop_ref. rewrite Hwp, H4. destruct (Z.eqb_spec p 0) as [->|_]; [by exists r|].
      rewrite lookup_insert_eq. by eexists.
  - apply orb_false_iff in Hcond as [Hc%Z.eqb_neq _]. apply purging_skip with i; [done|].
    intros v win0 Hv Hvi. by rewrite (Huniq v win0 Hv Hvi).
Qed.

Lemma all_windows w win : ps_windows s !! w = Some win → w_wID win ∈ seqZ 1 (W_MAX_WINDOWS - 1).
Proof using H.
  intros Hw. assert (W !! w_wID win = Some w) as HW by (apply (rf_window D W ext s H); eauto).
  destruct (ct_objects _ _ (rf_wtable D W ext s H) _ _ HW) as [Hr _].
  apply elem_of_seqZ. unfold max_objects in Hr. unfold W_MAX_WINDOWS. lia.
Qed.

Lemma purge_rep :
  1 ≤ ext p →
  runs (w_purge_dspace p) s (λ _ s', purging [] s' ∧ shows (ps_windows s') p = 0 ∧
    ps_dspaces s' !! p = Some (rds_set_ref (ext p) d)).
Proof using Type*.
  intros Hext. assert (p ≠ 0) as Hp0 by (intros ->; by rewrite (no_null_dspace D W ext s H) in Hp).
  eapply runs_mono; [apply (runs_kfor purging)|]; cbv beta.
  - split; try done.
    + intros w. destruct (ps_windows s !! w) as [win|] eqn:Hw; [|done]. cbn. f_equal.
      unfold purged. rewrite decide_False; [done|]. intros [_ []]. by eapply all_windows.
    + exists (rds_ref d). by rewrite rds_set_ref_id.
    + apply NoDup_seqZ.
  - intros i xs s1 Hpg. by apply purge_step.
  - intros _ s' Hpg. destruct (pg_dspace [] s' Hpg) as [r Hr].
    assert (shows (ps_windows s') p = 0) as Hshows.
    { apply shows_none. intros w win Hw. rewrite (pg_windows [] s' Hpg) in Hw.
      destruct (ps_windows s !! w) as [win0|]; [|done]. cbn in Hw. injection Hw as <-.
      unfold purged. case_decide as Hd.
      - destruct (emptied_fields W_MODE_EMPTY win0) as (_ & -> & _). done.
      - intros Hwp. apply Hd. split; [done|]. apply not_elem_of_nil. }
    split_and!; [done|done|]. rewrite Hr. do 2 f_equal.
    destruct (rf_count D W ext s' (pg_refs [] s' Hpg) p _ Hr) as (Hc & _). cbn in Hc. lia.
Qed.
End Purge.

(** ** Deleting a dataspace *)
Lemma refs_ok_frames D W ext s f : refs_ok D W ext s → refs_ok D W ext (upd_ps_frames f s).
Proof using Type. intros [? ? ? ? ? ? ? ? ?]. by split. Qed.

Lemma purge_none D W ext s p d unref :
  refs_ok D W ext s → ps_dspaces s !! p = Some d → shows (ps_windows s) p = 0 →
  purge_dspace unref p s = Ok tt s.
Proof using Type.
  intros H Hp Hs. assert (runs (purge_dspace unref p) s (λ _ s', s' = s)) as (? & s' & -> & ->); [|by f_equal; destruct x].
  apply (runs_kfor (λ _ s', s' = s)); [done|]. intros i xs s1 ->. unfold purge_window.
  eapply runs_bind_Ok; [by apply (w_get_window_Ok D W ext)|].
  destruct (W !! i) as [w|] eqn:HW; [|by apply runs_ret]. change (default 0 (Some w)) with w.
  destruct (Z.eqb_spec w 0); [by apply runs_ret|].
  apply (rf_window D W ext s H) in HW as (win & Hw & Hid). rstep.
  destruct (Z.eqb_spec (w_ramDataspace win) 0) as [Hz|Hz]; [by apply runs_ret|].
  destruct (rf_shown D W ext s H w win Hw Hz) as [d1 Hd1]. do 2 rstep.
  assert (w_ramDataspace win ≠ p) as Hne by (by eapply shows_none).
  apply runs_when; [|done]. intros [Hc%Z.eqb_eq|Hc%Z.eqb_eq]%orb_true_iff; [done|].
  destruct Hne. by apply (refs_ok_id D W ext s _ _ d1 d).
Qed.

(** Operations that only call the environment and forget frames. *)
Definition quiet (m : P unit) : Prop := ∀ s, ∃ e f, m s = Ok tt (upd_ps_env e (upd_ps_frames f s)).
Lemma quiet_env_only m : env_only m → quiet m.
Proof using Type. intros Hm s. destruct (Hm s) as [e He]. exists e, (ps_frames s). rewrite He. by destruct s. Qed.
Lemma quiet_bind m k : quiet m → quiet k → quiet (m ;;; k).
Proof using Type.
  intros Hm Hk s. destruct (Hm s) as (e & f & He). rewrite (kbind_Ok _ _ _ _ _ He).
  destruct (Hk (upd_ps_env e (upd_ps_frames f s))) as (e' & f' & ->). by exists e', f'.
Qed.
Lemma quiet_free_page b c : quiet (free_page b c).
Proof using Type.
  unfold free_page. destruct (c =? 0); [apply quiet_env_only; auto with kernel|].
  apply quiet_bind; [apply quiet_env_only; auto with kernel|].
  destruct b; [apply quiet_env_only; auto with kernel|].
  apply quiet_bind; [apply quiet_env_only; auto with kernel|].
  intros s. exists (ps_env s), (delete c (ps_frames s)). by destruct s.
Qed.
Lemma quiet_free_pages b cs : quiet (kfor cs (free_page b)).
Proof using Type.
  induction cs as [|c cs IH]; cbn; [apply quiet_env_only; auto with kernel|].
  apply quiet_bind; [apply quiet_free_page|exact IH].
Qed.

Lemma env_only_waiters n : ∀ v l i,
  vrep table_lim v l → Forall (λ w, waiter_reply w ≠ 0) l → 0 ≤ i → i + Z.of_nat n ≤ Z.of_nat (length l) →
  env_only (release_waiters n v i).
Proof using Type.
  induction n as [|n IH]; intros v l i Hv HF Hi Hn; cbn [release_waiters]; [auto with kernel|].
  destruct (vrep_lookup table_lim lim_ok v l i Hv) as (w & Hw & Hget); [lia|].
  intros s. rewrite (kopt_Some _ w) by done.
  rewrite kassert_true by (apply negb_true_iff, Z.eqb_neq; by apply (proj1 (Forall_lookup _ l) HF _ _ Hw)).
  apply env_only_bind; [auto with kernel|]. apply (IH v l); [done|done|lia|lia].
Qed.

Lemma env_only_assert b : b = true → env_only (kassert b).
Proof using Type. intros ->. auto with kernel. Qed.

Lemma dspace_delete_rep D W ext s p d unref :
  refs_ok D W ext s → ps_dspaces s !! p = Some d → shows (ps_windows s) p = 0 → rds_ref d = 0 →
  ∃ e f, dspace_delete unref p s =
    Ok tt (upd_ps_dspaces (delete p (ps_dspaces s)) (upd_ps_env e (upd_ps_frames f s))).
Proof using Type.
  intros H Hp Hs Hr. destruct (rf_deletable D W ext s H p d Hp) as [H1 H2 (l & Hv & HF) H4].
  unfold dspace_delete. rewrite (kbind_Ok _ _ _ _ _ (purge_none D W ext s p d unref H Hp Hs)).
  rewrite (kbind_Ok _ _ _ _ _ (getDspace_Ok s p d Hp)).
  rewrite kassert_true by by apply Z.eqb_eq.
  assert (quiet (kwhen (contentInitEnabled d)
    (kassert (negb (contentInitEP d =? 0)) ;;; release_slot (contentInitEP d)))) as Q1.
  { apply quiet_env_only. destruct (contentInitEnabled d); [|apply env_only_ret].
    apply env_only_bind; [|auto with kernel]. apply env_only_assert, negb_true_iff, Z.eqb_neq. auto. }
  assert (quiet (release_waiters (Z.to_nat (cvector_count (contentInitWaitingList d)))
    (contentInitWaitingList d) 0)) as Q2.
  { apply quiet_env_only. apply (env_only_waiters _ _ l); [done..|].
    unfold cvector_count. rewrite (vr_count _ _ _ Hv). lia. }
  assert (quiet (kassert (negb (bool_decide (rds_pages d = [])) || (rds_npages d =? 0)))) as Q3.
  { apply quiet_env_only, env_only_assert. destruct (decide (rds_pages d = [])) as [Hn|Hn].
    - rewrite (H4 Hn). apply orb_true_r.
    - by rewrite bool_decide_false. }
  pose proof (quiet_free_pages (physicalAddrEnabled d) (rds_pages d)) as Q4.
  assert (quiet (kassert (negb (rds_capability d =? 0)))) as Q5.
  { by apply quiet_env_only, env_only_assert, negb_true_iff, Z.eqb_neq. }
  pose proof (quiet_env_only _ (env_only_release (rds_capability d))) as Q6.
  destruct (quiet_bind _ _ Q1 (quiet_bind _ _ Q2 (quiet_bind _ _ Q3 (quiet_bind _ _ Q4
    (quiet_bind _ _ Q5 Q6)))) s) as (e & f & Hall).
  exists e, f. rewrite !kbind_assoc in Hall. rewrite !kbind_assoc.
  by rewrite (kbind_Ok _ _ _ _ _ Hall).
Qed.

(** ** References held elsewhere *)
Definition ext_set (ext : Z → Z) (p v : Z) : Z → Z := λ q, if q =? p then v else ext q.

(** Changing the count of a dataspace along with the references elsewhere. *)
Lemma refs_ok_ext D W ext s p d v :
  refs_ok D W ext s → ps_dspaces s !! p = Some d → 0 ≤ v → shows (ps_windows s) p + v < 2 ^ 32 →
  refs_ok D W (ext_set ext p v)
    (upd_ps_dspaces (<[p := rds_set_ref (shows (ps_windows s) p + v) d]> (ps_dspaces s)) s).
Proof using Type.
  intros H Hp Hv Hb. pose proof H as [H1 H2 H3 H4 H5 H6 H7 H8 H9]. split; cbn; try done.
  - intros id q. rewrite H3. split; intros (d' & Hd & He).
    + destruct (decide (q = p)) as [->|Hne].
      * eexists. rewrite lookup_insert_eq. split; [done|]. cbn. congruence.
      * exists d'. by rewrite lookup_insert_ne.
    + destruct (decide (q = p)) as [->|Hne].
      * rewrite lookup_insert_eq in Hd. injection Hd as <-. by exists d.
      * rewrite lookup_insert_ne in Hd by done. by exists d'.
  - intros q d'. destruct (decide (q = p)) as [->|Hne].
    + rewrite lookup_insert_eq. intros [= <-]. by eapply deletable_ref, H5.
    + rewrite lookup_insert_ne by done. apply H5.
  - intros w win Hw Hr. rewrite lookup_insert_is_Some. destruct (decide (p = w_ramDataspace win)); [by left|].
    right. split; [done|]. by eapply H6.
  - intros q d'. unfold ext_set. destruct (Z.eqb_spec q p) as [->|Hne].
    + rewrite lookup_insert_eq. intros [= <-]. cbn. lia.
    + rewrite lookup_insert_ne by done. apply H8.
Qed.

Lemma ram_dspace_ref_rep D W ext s p d :
  refs_ok D W ext s → ps_dspaces s !! p = Some d → 0 < rds_ref d → rds_ref d + 1 < 2 ^ 32 →
  runs (ram_dspace_ref (rds_ID d)) s (λ _ s', refs_ok D W (ext_set ext p (ext p + 1)) s' ∧
    s' = upd_ps_dspaces (<[p := rds_set_ref (rds_ref d + 1) d]> (ps_dspaces s)) s).
Proof using Type.
  intros H Hp Hr Hb. destruct (rf_count D W ext s H p d Hp) as (Hc & He & _).
  assert (p ≠ 0) as Hp0 by (intros ->; by rewrite (no_null_dspace D W ext s H) in Hp).
  unfold ram_dspace_ref. eapply runs_bind_Ok; [by apply (ram_dspace_get_Ok D W ext s p d)|].
  apply runs_bind, runs_assert; [by apply negb_true_iff, Z.eqb_neq|]. rstep.
  apply runs_bind, runs_assert; [by apply Z.ltb_lt|].
  eapply runs_Ok; [by apply updDspace_Ok|]. rewrite w32_id by (unfold is_w32; lia). split; [|done].
  replace (rds_ref d + 1) with (shows (ps_windows s) p + (ext p + 1)) by lia.
  apply refs_ok_ext; try done; lia.
Qed.

Context (Hmalloc : ∀ n, 0 < n ≤ 8 * table_lim → malloc_ok n = true).

Lemma refs_ok_delete D W ext s p d t f e :
  refs_ok D W ext s → ps_dspaces s !! p = Some d → shows (ps_windows s) p = 0 →
  coat_rep t (delete (rds_ID d) D) →
  refs_ok (delete (rds_ID d) D) W ext
    (upd_dspaceList t (upd_ps_dspaces (delete p (ps_dspaces s)) (upd_ps_env e (upd_ps_frames f s)))).
Proof using Type.
  intros H Hp Hs Ht. pose proof H as [H1 H2 H3 H4 H5 H6 H7 H8 H9]. split; cbn; try done.
  - intros id q. rewrite lookup_delete_Some, H3. split.
    + intros [Hne (d' & Hd & He)]. exists d'. split; [|done]. rewrite lookup_delete_ne; [done|]. naive_solver.
    + intros (d' & [Hne Hd]%lookup_delete_Some & He). split; [|by exists d'].
      intros Heq. apply Hne. apply (refs_ok_id D W ext s p q d d'); congruence.
  - intros q d' [_ Hd]%lookup_delete_Some. by eapply H5.
  - intros w win Hw Hr. apply lookup_delete_is_Some. split; [|by eapply H6].
    intros ->. by apply (proj2 (shows_none _ _) Hs w win Hw).
  - intros q d' [_ Hd]%lookup_delete_Some. by apply H8.
Qed.

(** The last reference deletes the dataspace. *)
Lemma unref_last D W ext s p d :
  refs_ok D W ext s → ps_dspaces s !! p = Some d → rds_ref d = 1 → shows (ps_windows s) p = 0 →
  runs (ram_dspace_unref (rds_ID d)) s (λ _ s',
    refs_ok (delete (rds_ID d) D) W (ext_set ext p 0) s' ∧ ps_dspaces s' = delete p (ps_dspaces s) ∧
    ps_windows s' = ps_windows s ∧ pcbs s' = pcbs s).
Proof using Hmalloc.
  intros H Hp Hr Hs. assert (p ≠ 0) as Hp0 by (intros ->; by rewrite (no_null_dspace D W ext s H) in Hp).
  assert (D !! rds_ID d = Some p) as HD by (apply (rf_dspace D W ext s H); eauto).
  unfold ram_dspace_unref, unref_depth. cbn [unref_at].
  eapply runs_bind_Ok; [by apply (ram_dspace_get_Ok D W ext s p d)|].
  apply runs_bind, runs_assert; [by apply negb_true_iff, Z.eqb_neq|]. rstep.
  apply runs_bind, runs_assert; [apply Z.ltb_lt; lia|]. rstep. rewrite Hr. cbn [Z.sub Z.eqb kwhen Z.opp Z.pos_sub Z.add].
  pose proof (refs_ok_ext D W ext s p d 0 H Hp ltac:(done) ltac:(lia)) as H1.
  rewrite Hs, Z.add_0_l in H1. set (s1 := upd_ps_dspaces _ s) in *.
  assert (ps_dspaces s1 !! p = Some (rds_set_ref 0 d)) as Hp1 by apply lookup_insert_eq.
  destruct (dspace_delete_rep D W _ s1 p _ (unref_at 1) H1 Hp1 Hs eq_refl) as (e & f & Hdel).
  destruct (table_free_Ok Hmalloc dspaceList upd_dspaceList ltac:(done) ltac:(done) s1 D (rds_ID d) p
    _ _ (rf_dtable _ _ _ _ H1) HD Hdel (rf_dtable _ _ _ _ H1)) as (t & Ht & Hfree).
  eapply runs_bind_Ok; [exact Hfree|]. apply runs_ret. split_and!; try done.
  - by apply (refs_ok_delete D W _ s1 p (rds_set_ref 0 d)).
  - cbn. by rewrite delete_insert_eq.
Qed.

(** ** Deleting a window *)
Lemma refs_ok_delete_window D W ext s w win t :
  refs_ok D W ext s → ps_windows s !! w = Some win → w_ramDataspace win = 0 →
  coat_rep t (delete (w_wID win) W) →
  refs_ok D (delete (w_wID win) W) ext
    (upd_windowList t (upd_ps_windows (delete w (ps_windows s)) s)).
Proof using Type.
  intros H Hw Hr Ht. pose proof H as [H1 H2 H3 H4 H5 H6 H7 H8 H9]. split; cbn; try done.
  - intros id v. rewrite lookup_delete_Some, H4. split.
    + intros [Hne (win0 & Hv & He)]. exists win0. split; [|done]. rewrite lookup_delete_ne; [done|]. naive_solver.
    + intros (win0 & [Hne Hv]%lookup_delete_Some & He). split; [|by exists win0].
      intros Heq. apply Hne. apply (refs_ok_window_id D W ext s w v win win0); congruence.
  - intros v win0 [_ Hv]%lookup_delete_Some. by apply (H6 v).
  - intros v win0 [_ Hv]%lookup_delete_Some. by apply (H7 v).
  - intros p d Hp. rewrite (shows_delete (ps_windows s) w win) by done. destruct (H8 p d Hp) as (Hc & He & Hb).
    unfold shows_1. rewrite Hr. destruct (Z.eqb_spec 0 p) as [<-|]; [|lia].
    by rewrite (no_null_dspace D W ext s H) in Hp.
Qed.

Lemma delete_window_rep D W ext s w win :
  refs_ok D W ext s → ps_windows s !! w = Some win →
  (w_ramDataspace win ≠ 0 → 1 ≤ ext (w_ramDataspace win)) →
  runs (w_delete_window (w_wID win)) s (λ e s', e = ESUCCESS ∧
    refs_ok D (delete (w_wID win) W) ext s' ∧ ps_windows s' = delete w (ps_windows s) ∧
    ps_dspaces s' = drop_ref win (ps_dspaces s)).
Proof using Hqsort Hmalloc.
  intros H Hw Hext. assert (W !! w_wID win = Some w) as HW by (apply (rf_window D W ext s H); eauto).
  destruct (switch_mode_rep D W ext s w win W_MODE_EMPTY H Hw Hext) as ([] & s1 & Hsw & H1 & e1 & qs & Hs1).
  assert (ps_windows s1 !! w = Some (emptied W_MODE_EMPTY win)) as Hw1 by (subst s1; apply lookup_insert_eq).
  set (win1 := emptied W_MODE_EMPTY win) in *.
  assert (∃ e, window_oat_delete w s =
    Ok tt (upd_ps_windows (delete w (ps_windows s1)) (upd_ps_env e s1))) as [e Hdel].
  { unfold window_oat_delete, window_delete. fold (window_switch_mode w W_MODE_EMPTY).
    rewrite (kbind_Ok _ _ _ _ _ Hsw), (kbind_Ok _ _ _ _ _ (getWindow_Ok s1 w win1 Hw1)).
    assert (env_only (kwhen (negb (w_reservation win1 =? 0)) (kassert (negb (w_vspace win1 =? 0)) ;;;
      call_ (vspace_free_reservation (w_reservation win1))))) as Q1.
    { destruct (Z.eqb_spec (w_reservation win1) 0) as [|Hr]; cbn [negb kwhen]; [auto with kernel|].
      apply env_only_bind; [|auto with kernel].
      apply env_only_assert, negb_true_iff, Z.eqb_neq, (proj2 (rf_owner D W ext s1 H1 w win1 Hw1) Hr). }
    pose proof (env_only_when (negb (w_capability win1 =? 0)) _ (env_only_release (w_capability win1))) as Q2.
    destruct (env_only_bind _ _ Q1 Q2 s1) as [e He]. exists e.
    by rewrite kbind_assoc, (kbind_Ok _ _ _ _ _ He). }
  destruct (table_free_Ok Hmalloc windowList upd_windowList ltac:(done) ltac:(done) s W (w_wID win) w
    _ _ (rf_wtable _ _ _ _ H) HW Hdel (rf_wtable _ _ _ _ H1)) as (t & Ht & Hfree).
  unfold w_delete_window. eapply runs_bind_Ok; [exact Hfree|]. apply runs_ret.
  destruct (emptied_fields W_MODE_EMPTY win) as (F1 & F2 & _). split_and!; [done| | |].
  - rewrite <- F1 in Ht |- *. apply (refs_ok_env D (delete (w_wID win1) W) ext
      (upd_windowList t (upd_ps_windows (delete w (ps_windows s1)) s1)) e).
    by apply refs_ok_delete_window.
  - cbn. subst s1. cbn. by rewrite delete_insert_eq.
  - cbn. by subst s1.
Qed.

(** ** Showing a dataspace in a window *)
Lemma refs_ok_ext_eq D W ext ext' s : (∀ p, ext p = ext' p) → refs_ok D W ext s → refs_ok D W ext' s.
Proof using Type. intros He [? ? ? ? ? ? ? H ?]. split; try done. intros p d Hp. rewrite <- He. by apply H. Qed.

Lemma refs_ok_lend D W ext s w win win' p :
  refs_ok D W ext s → ps_windows s !! w = Some win → w_ramDataspace win = 0 →
  w_ramDataspace win' = p → is_Some (ps_dspaces s !! p) → 1 ≤ ext p → w_wID win' = w_wID win →
  owned win' → refs_ok D W (ext_set ext p (ext p - 1)) (set_window w win' s).
Proof using Type.
  intros H Hw Hr Hr' Hp He Hid Hown. pose proof H as [H1 H2 H3 H4 H5 H6 H7 H8 H9].
  assert (p ≠ 0) as Hp0.
  { intros ->. rewrite (no_null_dspace D W ext s H) in Hp. by destruct Hp. }
  split; cbn; try done.
  - intros id v. rewrite H4. split; intros (win0 & Hv & Hi).
    + destruct (decide (v = w)) as [->|Hne]; [exists win'; rewrite lookup_insert_eq; split; [done|congruence]|].
      exists win0. by rewrite lookup_insert_ne.
    + destruct (decide (v = w)) as [->|Hne].
      * rewrite lookup_insert_eq in Hv. injection Hv as <-. exists win. split; [done|congruence].
      * rewrite lookup_insert_ne in Hv by done. by exists win0.
  - intros v win0 Hv Hz. destruct (decide (v = w)) as [->|Hne].
    + rewrite lookup_insert_eq in Hv. injection Hv as <-. by rewrite Hr'.
    + rewrite lookup_insert_ne in Hv by done. eauto.
  - intros v win0 Hv. destruct (decide (v = w)) as [->|Hne].
    + rewrite lookup_insert_eq in Hv. by injection Hv as <-.
    + rewrite lookup_insert_ne in Hv by done. eauto.
  - intros q d Hq. rewrite (shows_insert (ps_windows s) w win) by done. destruct (H8 q d Hq) as (Hc & Hn & Hb).
    unfold shows_1, ext_set. rewrite Hr, Hr'. rewrite (Z.eqb_sym q p).
    destruct (Z.eqb_spec 0 q) as [<-|]; [by rewrite (no_null_dspace D W ext s H) in Hq|].
    destruct (Z.eqb_spec p q) as [->|]; lia.
Qed.

Definition shown (p off : Z) (w : w_window) : w_window :=
  set_w_ramDataspaceOffset off (set_w_ramDataspace p (emptied W_MODE_ANONYMOUS w)).

Lemma set_anon_rep D W ext s w win p off :
  refs_ok D W ext s → ps_windows s !! w = Some win → is_Some (ps_dspaces s !! p) →
  (w_ramDataspace win ≠ 0 → 1 ≤ ext (w_ramDataspace win)) → 1 ≤ ext p →
  (∀ q d, ps_dspaces s !! q = Some d → rds_ref d + 1 < 2 ^ 32) →
  runs (w_set_anon_dspace w p off) s (λ _ s', refs_ok D W ext s' ∧
    ps_windows s' = <[w := shown p off win]> (ps_windows s)).
Proof using Hqsort.
  intros H Hw Hp Hext Hep Hb.
  assert (p ≠ 0) as Hp0.
  { intros ->. rewrite (no_null_dspace D W ext s H) in Hp. by destruct Hp. }
  unfold w_set_anon_dspace. rewrite (proj2 (Z.eqb_neq p 0)) by done.
  apply runs_bind. eapply runs_mono; [by apply (switch_mode_rep D W ext s w win)|]. cbv beta.
  intros _ s1 (H1 & e & qs & Hs1). set (win1 := emptied W_MODE_ANONYMOUS win) in *.
  assert (ps_windows s1 !! w = Some win1) as Hw1 by (subst s1; apply lookup_insert_eq).
  destruct (emptied_fields W_MODE_ANONYMOUS win) as (F1 & F2 & _). fold win1 in F1, F2.
  assert (∃ d, ps_dspaces s1 !! p = Some d ∧ rds_ref d + 1 < 2 ^ 32) as (d & Hd & Hbd).
  { destruct Hp as [d0 Hd0]. pose proof (Hb p d0 Hd0). subst s1. cbn.
    rewrite (drop_ref_moves win win1) by (done || by eapply no_null_dspace). rewrite Hd0. cbn.
    eexists. split; [done|]. cbn. unfold shows_1. rewrite F2, (proj2 (Z.eqb_neq 0 p)) by done.
    destruct (_ =? p); lia. }
  rstep. set (win2 := set_w_ramDataspaceOffset off _).
  pose proof (refs_ok_lend D W ext s1 w win1 win2 p H1 Hw1 F2 eq_refl ltac:(by eexists) Hep eq_refl
    (rf_owner D W ext s1 H1 w win1 Hw1)) as H2. fold (set_window w win2 s1).
  assert (ps_dspaces (set_window w win2 s1) !! p = Some d) as Hd2 by done.
  rstep. eapply runs_mono; [apply (ram_dspace_ref_rep D W _ _ p d H2 Hd2)|].
  - destruct (rf_count _ _ _ _ H2 p d Hd2) as (Hc & Hn & _).
    pose proof (shows_pos (ps_windows (set_window w win2 s1)) w win2 p ltac:(apply lookup_insert_eq) eq_refl). lia.
  - done.
  - cbv beta. intros _ s' [H3 ->]. split.
    + eapply refs_ok_ext_eq; [|exact H3]. intros q. unfold ext_set.
      destruct (Z.eqb_spec q p) as [->|]; [rewrite Z.eqb_refl; lia|done].
    + cbn. subst s1. cbn. by rewrite insert_insert_eq.
Qed.
End Refs.
