(* ===== verification/MemservTheorems.v ===== *)
(** * Windows, dataspaces and the references between them

    The tables of the process server refine a map of the dataspaces with the
    references to them that are held outside the windows, and a map from the
    windows to the dataspaces they show: as long as a dataspace that a window
    lets go has such a reference, no assertion of the reference counts fails,
    and a dataspace is deleted with its last reference.  A window that lets go
    of the last reference fails an assertion. *)

From S2P Require Import Prelude.
From S2P Require Import Word32.
From S2P Require Import DataStruct.
From S2P Require Import DataVec.
From S2P Require Import DataPool.
From S2P Require Import WindowAssoc.
From S2P Require Import Procserv.
From S2P Require Import Dataspace.
From S2P Require Import Memserv.
From S2P Require Import MemservInv.
From S2P Require Import DataspaceTheorems.

(** ** The operations *)

(** Windows and dataspaces are named by their identifiers, as in the badges of
    the client's capabilities. *)
Inductive mem_call : Type :=
| Ref (dspace : Z) | Unref (dspace : Z) | Show (window dspace offset : Z)
| SetPager (window endpoint pid : Z) | Purge (dspace : Z) | DeleteWindow (window : Z).

Definition perform `{E : Env} (c : mem_call) : P unit :=
  match c with
  | Ref id => ram_dspace_ref id
  | Unref id => ram_dspace_unref id
  | Show wid id off =>
      let! w := w_get_window wid in let! p := ram_dspace_get id in w_set_anon_dspace w p off
  | SetPager wid ep pid => let! w := w_get_window wid in w_set_pager_endpoint w ep pid
  | Purge id => let! p := ram_dspace_get id in w_purge_dspace p
  | DeleteWindow wid => w_delete_window wid ;;; kret tt
  end.

(** The references to each dataspace held outside the windows, and the
    dataspace each window shows, 0 for none. *)
Record memory : Type := { held : gmap Z Z; showing : gmap Z Z }.
Definition max_held : Z := 2 ^ 32 - 8192.

Definition unshown (id : Z) (m : memory) : bool := bool_decide (map_Forall (λ _ o, o ≠ id) (showing m)).
(** The dataspace a window lets go is held elsewhere. *)
Definition lets_go (wid : Z) (m : memory) : bool :=
  match showing m !! wid with
  | None => false
  | Some o => (o =? 0) || (1 <=? default 0 (held m !! o))
  end.

Definition mem_abs (c : mem_call) (m : memory) : option memory :=
  match c with
  | Ref id =>
      match held m !! id with
      | Some n => if ((1 <=? n) || negb (unshown id m)) && (n + 1 <? max_held)
                  then Some {| held := <[id := n + 1]> (held m); showing := showing m |} else None
      | None => None
      end
  | Unref id =>
      match held m !! id with
      | Some n => if n <? 1 then None
                  else if (n =? 1) && unshown id m
                  then Some {| held := delete id (held m); showing := showing m |}
                  else Some {| held := <[id := n - 1]> (held m); showing := showing m |}
      | None => None
      end
  | Show wid id _ =>
      if lets_go wid m && (1 <=? default 0 (held m !! id))
      then Some {| held := held m; showing := <[wid := id]> (showing m) |} else None
  | SetPager wid _ _ =>
      if lets_go wid m then Some {| held := held m; showing := <[wid := 0]> (showing m) |} else None
  | Purge id =>
      if 1 <=? default 0 (held m !! id)
      then Some {| held := held m; showing := (λ o, if o =? id then 0 else o) <$> showing m |} else None
  | DeleteWindow wid =>
      if lets_go wid m then Some {| held := held m; showing := delete wid (showing m) |} else None
  end.
Fixpoint mem_abs_all (cs : list mem_call) (m : memory) : option memory :=
  match cs with [] => Some m | c :: cs => mem_abs c m ≫= mem_abs_all cs end.

(** ** The tables refine the maps *)
Section Refine.
Context {E : Env}.

Definition dspace_ids (s : procserv) : gmap Z Z := rds_ID <$> ps_dspaces s.
Definition shows_id (ids : gmap Z Z) (win : w_window) : Z := default 0 (ids !! w_ramDataspace win).

Record refines (D W : gmap Z Z) (ext : Z → Z) (s : procserv) (m : memory) : Prop := {
  rm_refs : refs_ok D W ext s;
  rm_held id : held m !! id = ext <$> D !! id;
  rm_windows wid : is_Some (showing m !! wid) ↔ is_Some (W !! wid);
  rm_showing w win : ps_windows s !! w = Some win →
    showing m !! w_wID win = Some (shows_id (dspace_ids s) win);
  rm_few id n : held m !! id = Some n → n < max_held
}.
Definition memory_is (s : procserv) (m : memory) : Prop := ∃ D W ext, refines D W ext s m.

(** The identifiers of the dataspaces are in the table. *)
Lemma dspace_ids_table D W ext s id p :
  refs_ok D W ext s → D !! id = Some p ↔ dspace_ids s !! p = Some id.
Proof.
  intros H. rewrite (rf_dspace D W ext s H). unfold dspace_ids. rewrite lookup_fmap_Some.
  split; intros (d & ? & ?); by exists d.
Qed.
Lemma dspace_ids_eq D W W' ext ext' s s' :
  refs_ok D W ext s → refs_ok D W' ext' s' → dspace_ids s' = dspace_ids s.
Proof.
  intros H H'. apply map_eq. intros p. apply option_eq. intros id.
  by rewrite <- (dspace_ids_table _ _ _ _ id p H), <- (dspace_ids_table _ _ _ _ id p H').
Qed.

(** A window shows no dataspace, or a dataspace of the table. *)
Lemma shows_id_cases D W ext s w win :
  refs_ok D W ext s → ps_windows s !! w = Some win →
  (w_ramDataspace win = 0 ∧ shows_id (dspace_ids s) win = 0) ∨
  (w_ramDataspace win ≠ 0 ∧ shows_id (dspace_ids s) win ≠ 0 ∧
   D !! shows_id (dspace_ids s) win = Some (w_ramDataspace win)).
Proof.
  intros H Hw. unfold shows_id. destruct (decide (w_ramDataspace win = 0)) as [Hz|Hz].
  - left. split; [done|]. unfold dspace_ids. by rewrite Hz, lookup_fmap, (no_null_dspace D W ext s H).
  - right. split; [done|]. destruct (rf_shown D W ext s H w win Hw Hz) as [d Hd].
    assert (dspace_ids s !! w_ramDataspace win = Some (rds_ID d)) as ->
      by (unfold dspace_ids; by rewrite lookup_fmap, Hd).
    assert (D !! rds_ID d = Some (w_ramDataspace win)) as HD by (apply (rf_dspace D W ext s H); eauto).
    cbn. split; [|done]. destruct (ct_objects _ _ (rf_dtable D W ext s H) _ _ HD). lia.
Qed.

(** At most 8191 windows show a dataspace. *)
Lemma few_shows D W ext s p : refs_ok D W ext s → shows (ps_windows s) p < 8192.
Proof.
  intros H. unfold shows. set (ws := filter _ (ps_windows s)).
  assert (length (w_wID ∘ snd <$> map_to_list ws) ≤ length (seqZ 1 8191))%nat as Hle.
  { apply submseteq_length, NoDup_submseteq.
    - apply NoDup_fmap_2_strong; [|apply NoDup_map_to_list].
      intros [v win] [v' win'] Hv Hv' Heq. cbn in Heq.
      apply elem_of_map_to_list, map_lookup_filter_Some in Hv as [Hv _], Hv' as [Hv' _].
      assert (v = v') as <- by (by apply (refs_ok_window_id D W ext s v v' win win')). congruence.
    - intros i ([v win] & -> & Hv)%list_elem_of_fmap.
      apply elem_of_map_to_list, map_lookup_filter_Some in Hv as [Hv _].
      by apply (all_windows D W ext s H v win). }
  rewrite length_fmap, length_map_to_list, length_seqZ in Hle. lia.
Qed.
Lemma unshown_shows D W ext s m p d :
  refines D W ext s m → ps_dspaces s !! p = Some d → shows (ps_windows s) p = 0 ↔ unshown (rds_ID d) m = true.
Proof.
  intros [H _ HW Hs _] Hp. unfold unshown. rewrite bool_decide_eq_true, <- shows_none. split.
  - intros Hno wid o Ho ->. destruct (HW wid) as [[w HWw] _]; [by eexists|].
    apply (rf_window D W ext s H) in HWw as (win & Hw & <-). rewrite (Hs w win Hw) in Ho. injection Ho as Ho.
    assert (D !! rds_ID d = Some p) as HD by (apply (rf_dspace D W ext s H); eauto).
    destruct (shows_id_cases D W ext s w win H Hw) as [[Hz Hz']|(Hz & Hz' & HD')].
    + destruct (ct_objects _ _ (rf_dtable D W ext s H) _ _ HD). lia.
    + apply (Hno w win Hw). congruence.
  - intros Hall w win Hw Hwp. apply (Hall _ _ (Hs w win Hw)). unfold shows_id, dspace_ids.
    by rewrite lookup_fmap, Hwp, Hp.
Qed.

(** *** What the maps say of the tables *)
Lemma held_dspace D W ext s m id n :
  refines D W ext s m → held m !! id = Some n →
  ∃ p d, D !! id = Some p ∧ ps_dspaces s !! p = Some d ∧ rds_ID d = id ∧ ext p = n.
Proof.
  intros [H Hh _ _ _] Hn. rewrite Hh in Hn. apply fmap_Some in Hn as (p & HD & ->).
  apply (rf_dspace D W ext s H) in HD as HD'. destruct HD' as (d & Hd & Hid). by exists p, d.
Qed.
Lemma held_1 D W ext s m id :
  refines D W ext s m → (1 <=? default 0 (held m !! id)) = true →
  ∃ p d, D !! id = Some p ∧ ps_dspaces s !! p = Some d ∧ rds_ID d = id ∧ 1 ≤ ext p.
Proof.
  intros H Hn%Z.leb_le. destruct (held m !! id) as [n|] eqn:Hid; [|done].
  destruct (held_dspace D W ext s m id n H Hid) as (p & d & ? & ? & ? & <-). by exists p, d.
Qed.
Lemma lets_go_window D W ext s m wid :
  refines D W ext s m → lets_go wid m = true →
  ∃ w win, W !! wid = Some w ∧ ps_windows s !! w = Some win ∧ w_wID win = wid ∧
    (w_ramDataspace win ≠ 0 → 1 ≤ ext (w_ramDataspace win)).
Proof.
  intros [H Hh HW Hs _]. unfold lets_go. destruct (showing m !! wid) as [o|] eqn:Ho; [|done].
  destruct (proj1 (HW wid)) as [w HWw]; [by eexists|].
  apply (rf_window D W ext s H) in HWw as HW'. destruct HW' as (win & Hw & Hid).
  pose proof (Hs w win Hw) as Ho'. rewrite Hid, Ho in Ho'. injection Ho' as ->.
  intros Hlet. exists w, win. split_and!; [done..|]. intros Hz.
  destruct (shows_id_cases D W ext s w win H Hw) as [[? _]|(_ & Hz' & HD)]; [done|].
  apply orb_true_iff in Hlet as [?%Z.eqb_eq|Hlet%Z.leb_le]; [done|]. by rewrite Hh, HD in Hlet.
Qed.

(** *** Steps of the tables as steps of the maps *)
Lemma refines_window D W ext s s' m w win win' o :
  refines D W ext s m → refs_ok D W ext s' → ps_windows s !! w = Some win →
  ps_windows s' = <[w := win']> (ps_windows s) → w_wID win' = w_wID win →
  shows_id (dspace_ids s) win' = o →
  refines D W ext s' {| held := held m; showing := <[w_wID win := o]> (showing m) |}.
Proof.
  intros [H Hh HW Hs Hf] H' Hw Hws Hid Ho. pose proof (dspace_ids_eq D W W ext ext s s' H H') as Hids.
  assert (W !! w_wID win = Some w) as HWw by (apply (rf_window D W ext s H); eauto).
  split; try done; cbn.
  - intros wid. rewrite lookup_insert_is_Some, <- HW. destruct (decide (w_wID win = wid)) as [<-|]; [|tauto].
    split; [|tauto]. intros _. apply HW. by eexists.
  - intros v win0 Hv. rewrite Hws in Hv. rewrite Hids.
    apply lookup_insert_Some in Hv as [[<- <-]|[Hne Hv]].
    + by rewrite Hid, lookup_insert_eq, Ho.
    + rewrite lookup_insert_ne; [by eapply Hs|]. intros Heq. apply Hne.
      by apply (refs_ok_window_id D W ext s w v win win0).
Qed.

Lemma refines_ext D W ext s s' m p d v :
  refines D W ext s m → refs_ok D W (ext_set ext p v) s' → ps_dspaces s !! p = Some d →
  ps_windows s' = ps_windows s → v < max_held →
  refines D W (ext_set ext p v) s' {| held := <[rds_ID d := v]> (held m); showing := showing m |}.
Proof.
  intros [H Hh HW Hs Hf] H' Hp Hws Hv. pose proof (dspace_ids_eq D W W _ _ s s' H H') as Hids.
  assert (D !! rds_ID d = Some p) as HD by (apply (rf_dspace D W ext s H); eauto).
  split; try done; cbn.
  - intros id. destruct (decide (id = rds_ID d)) as [->|Hne].
    + rewrite lookup_insert_eq, HD. cbn. unfold ext_set. by rewrite Z.eqb_refl.
    + rewrite lookup_insert_ne, Hh by done. destruct (D !! id) as [q|] eqn:Hq; [|done]. cbn.
      unfold ext_set. rewrite (proj2 (Z.eqb_neq q p)); [done|]. intros ->.
      apply (rf_dspace D W ext s H) in Hq as (d' & Hd' & Hid). congruence.
  - intros w win. rewrite Hws, Hids. apply Hs.
  - intros id n. destruct (decide (id = rds_ID d)) as [->|Hne].
    + rewrite lookup_insert_eq. by intros [= <-].
    + rewrite lookup_insert_ne by done. apply Hf.
Qed.

Lemma refines_unref_last D W ext s s' m p d :
  refines D W ext s m → ps_dspaces s !! p = Some d → shows (ps_windows s) p = 0 →
  refs_ok (delete (rds_ID d) D) W (ext_set ext p 0) s' → ps_windows s' = ps_windows s →
  ps_dspaces s' = delete p (ps_dspaces s) →
  refines (delete (rds_ID d) D) W (ext_set ext p 0) s'
    {| held := delete (rds_ID d) (held m); showing := showing m |}.
Proof.
  intros [H Hh HW Hs Hf] Hp Hno H' Hws Hds.
  assert (D !! rds_ID d = Some p) as HD by (apply (rf_dspace D W ext s H); eauto).
  split; try done; cbn.
  - intros id. destruct (decide (id = rds_ID d)) as [->|Hne]; [by rewrite !lookup_delete_eq|].
    rewrite !lookup_delete_ne, Hh by done. destruct (D !! id) as [q|] eqn:Hq; [|done]. cbn.
    unfold ext_set. rewrite (proj2 (Z.eqb_neq q p)); [done|]. intros ->.
    apply (rf_dspace D W ext s H) in Hq as (d' & Hd' & Hid). congruence.
  - intros w win. rewrite Hws. intros Hw. rewrite (Hs w win Hw). f_equal. unfold shows_id, dspace_ids.
    rewrite Hds, fmap_delete, lookup_delete_ne; [done|]. intros Heq. by apply (proj2 (shows_none _ _) Hno w win Hw).
  - intros id n [_ Hn]%lookup_delete_Some. by eapply Hf.
Qed.

Lemma refines_purge D W ext s s' m p d :
  refines D W ext s m → ps_dspaces s !! p = Some d → purging D W ext s p d [] s' →
  refines D W ext s' {| held := held m; showing := (λ o, if o =? rds_ID d then 0 else o) <$> showing m |}.
Proof.
  intros [H Hh HW Hs Hf] Hp [H' Hws _ _ _]. pose proof (dspace_ids_eq D W W _ _ s s' H H') as Hids.
  split; try done; cbn.
  - intros wid. rewrite lookup_fmap, fmap_is_Some. apply HW.
  - intros w win. rewrite Hws, Hids. intros (win0 & Hw & ->)%fmap_Some. rewrite purged_id, lookup_fmap, (Hs w win0 Hw).
    cbn. f_equal. unfold purged.
    assert (D !! rds_ID d = Some p) as HD by (apply (rf_dspace D W ext s H); eauto).
    destruct (ct_objects _ _ (rf_dtable D W ext s H) _ _ HD) as [Hr Hp0].
    destruct (shows_id_cases D W ext s w win0 H Hw) as [[Hz ->]|(Hz & _ & HD')].
    + rewrite (proj2 (Z.eqb_neq _ _)) by lia. rewrite decide_False by (intros [? _]; congruence).
      destruct (shows_id_cases D W ext s w win0 H Hw) as [[_ ->]|[? _]]; done.
    + case_decide as Hd.
      * destruct Hd as [Hwp _]. rewrite Hwp in HD'.
        assert (shows_id (dspace_ids s) win0 = rds_ID d) as ->.
        { unfold shows_id, dspace_ids. by rewrite Hwp, lookup_fmap, Hp. }
        rewrite Z.eqb_refl. unfold shows_id, dspace_ids.
        destruct (emptied_fields W_MODE_EMPTY win0) as (_ & -> & _).
        by rewrite lookup_fmap, (no_null_dspace D W ext s H).
      * rewrite (proj2 (Z.eqb_neq _ _)); [done|]. intros Heq. apply Hd. split; [congruence|].
        apply not_elem_of_nil.
Qed.

Lemma refines_delete_window D W ext s s' m w win :
  refines D W ext s m → ps_windows s !! w = Some win → refs_ok D (delete (w_wID win) W) ext s' →
  ps_windows s' = delete w (ps_windows s) →
  refines D (delete (w_wID win) W) ext s' {| held := held m; showing := delete (w_wID win) (showing m) |}.
Proof.
  intros [H Hh HW Hs Hf] Hw H' Hws. pose proof (dspace_ids_eq D W _ _ _ s s' H H') as Hids.
  split; try done; cbn.
  - intros wid. rewrite !lookup_delete_is_Some, HW. done.
  - intros v win0. rewrite Hws, Hids. intros [Hne Hv]%lookup_delete_Some.
    rewrite lookup_delete_ne; [by eapply Hs|]. intros Heq. apply Hne.
    by apply (refs_ok_window_id D W ext s w v win win0).
Qed.
End Refine.

(** ** The calls refine the maps *)
Section Calls.
Context {E : Env} (Hqsort : ∀ l, qsort l ≡ₚ l).
Context (Hmalloc : ∀ n, 0 < n ≤ 8 * table_lim → malloc_ok n = true).

Lemma ref_refines D W ext s m m' id :
  refines D W ext s m → mem_abs (Ref id) m = Some m' →
  runs (ram_dspace_ref id) s (λ _ s', memory_is s' m').
Proof using Type.
  intros H. cbn. destruct (held m !! id) as [n|] eqn:Hn; [|done].
  destruct (_ && _) eqn:Hc; [|done]. intros [= <-].
  apply andb_true_iff in Hc as [Hc Hlt%Z.ltb_lt].
  destruct (held_dspace D W ext s m id n H Hn) as (p & d & _ & Hp & <- & <-).
  pose proof (rm_refs _ _ _ _ _ H) as H0. destruct (rf_count _ _ _ _ H0 p d Hp) as (Hr & He & _).
  pose proof (few_shows D W ext s p H0) as Hfew. unfold max_held in *.
  pose proof (shows_nonneg (ps_windows s) p) as Hnn.
  assert (0 < rds_ref d) as Hpos.
  { rewrite Hr. apply orb_true_iff in Hc as [Hc%Z.leb_le|Hc%negb_true_iff]; [lia|].
    assert (shows (ps_windows s) p ≠ 0); [|lia]. intros Hz.
    apply (unshown_shows D W ext s m p d H Hp) in Hz. congruence. }
  eapply runs_mono; [apply (ram_dspace_ref_rep D W ext s p d H0 Hp Hpos); lia|].
  cbv beta. intros _ s' [H' Hs']. exists D, W, (ext_set ext p (ext p + 1)).
  apply (refines_ext D W ext s); try done. by subst s'.
Qed.

Lemma unref_refines D W ext s m m' id :
  refines D W ext s m → mem_abs (Unref id) m = Some m' →
  runs (ram_dspace_unref id) s (λ _ s', memory_is s' m').
Proof using Hmalloc.
  intros H. cbn. destruct (held m !! id) as [n|] eqn:Hn; [|done].
  destruct (Z.ltb_spec n 1) as [|Hn1]; [done|].
  pose proof (rm_few _ _ _ _ _ H id n Hn) as Hfew.
  destruct (held_dspace D W ext s m id n H Hn) as (p & d & _ & Hp & <- & <-).
  pose proof (rm_refs _ _ _ _ _ H) as H0. destruct (rf_count _ _ _ _ H0 p d Hp) as (Hr & He & Hlt).
  pose proof (shows_nonneg (ps_windows s) p) as Hnn.
  destruct (_ && _) eqn:Hc; intros [= <-].
  - apply andb_true_iff in Hc as [Hc%Z.eqb_eq Hun]. apply (unshown_shows D W ext s m p d H Hp) in Hun.
    eapply runs_mono; [apply (unref_last Hmalloc D W ext s p d H0 Hp); lia|]. cbv beta.
    intros _ s' (H' & Hds & Hws & _). exists (delete (rds_ID d) D), W, (ext_set ext p 0).
    by apply (refines_unref_last D W ext s s' m p d).
  - assert (1 < rds_ref d).
    { assert (shows (ps_windows s) p ≠ 0 ∨ ext p ≠ 1) as [?|?]; [|lia|lia].
      apply andb_false_iff in Hc as [?%Z.eqb_neq|Hun]; [by right|left].
      intros Hz%(unshown_shows D W ext s m p d H Hp). congruence. }
    eapply runs_Ok; [by apply (unref_shared D W ext s p d 1 H0 Hp)|].
    exists D, W, (ext_set ext p (ext p - 1)). apply (refines_ext D W ext s); try done; [|lia].
    replace (rds_ref d - 1) with (shows (ps_windows s) p + (ext p - 1)) by lia.
    apply refs_ok_ext; try done; lia.
Qed.

Lemma get_window_id D W ext s m wid w :
  refines D W ext s m → W !! wid = Some w → w_get_window wid s = Ok w s.
Proof using Type. intros H HW. rewrite (w_get_window_Ok D W ext s wid) by apply H. by rewrite HW. Qed.

Lemma show_refines D W ext s m m' wid id off :
  refines D W ext s m → mem_abs (Show wid id off) m = Some m' →
  runs (perform (Show wid id off)) s (λ _ s', memory_is s' m').
Proof using Hqsort.
  intros H. cbn. destruct (_ && _) eqn:Hc; [|done]. intros [= <-].
  apply andb_true_iff in Hc as [Hlet Hheld].
  destruct (lets_go_window D W ext s m wid H Hlet) as (w & win & HW & Hw & <- & Hext).
  destruct (held_1 D W ext s m id H Hheld) as (p & d & HD & Hp & <- & Hep).
  pose proof (rm_refs _ _ _ _ _ H) as H0.
  eapply runs_bind_Ok; [by apply (get_window_id D W ext s m)|].
  eapply runs_bind_Ok; [by apply (ram_dspace_get_Ok D W ext s p d)|].
  eapply runs_mono; [apply (set_anon_rep Hqsort D W ext s w win p off H0 Hw)|]; try done.
  - intros q d' Hq. destruct (rf_count _ _ _ _ H0 q d' Hq) as (-> & _ & _).
    pose proof (few_shows D W ext s q H0).
    assert (held m !! rds_ID d' = Some (ext q)) as Hheld'.
    { rewrite (rm_held _ _ _ _ _ H). assert (D !! rds_ID d' = Some q) as ->; [|done].
      apply (rf_dspace D W ext s H0); eauto. }
    pose proof (rm_few _ _ _ _ _ H _ _ Hheld'). unfold max_held in *. lia.
  - cbv beta. intros _ s' [H' Hws]. exists D, W, ext.
    apply (refines_window D W ext s s' m w win (shown p off win)); try done.
    + unfold shown. cbn. apply (emptied_fields W_MODE_ANONYMOUS).
    + unfold shows_id, dspace_ids, shown. cbn. by rewrite lookup_fmap, Hp.
Qed.

Lemma set_pager_rep D W ext s w win ep pid :
  refs_ok D W ext s → ps_windows s !! w = Some win →
  (w_ramDataspace win ≠ 0 → 1 ≤ ext (w_ramDataspace win)) →
  runs (w_set_pager_endpoint w ep pid) s (λ _ s', refs_ok D W ext s' ∧
    ∃ win', ps_windows s' = <[w := win']> (ps_windows s) ∧ w_wID win' = w_wID win ∧ w_ramDataspace win' = 0).
Proof using Hqsort.
  intros H Hw Hext. unfold w_set_pager_endpoint. destruct (ep =? 0).
  - eapply runs_mono; [by apply (switch_mode_rep Hqsort D W ext s w win)|]. cbv beta.
    intros _ s' (H' & e & qs & ->). split; [done|]. exists (emptied W_MODE_EMPTY win).
    destruct (emptied_fields W_MODE_EMPTY win) as (? & ? & _). done.
  - apply runs_bind. eapply runs_mono; [by apply (switch_mode_rep Hqsort D W ext s w win)|]. cbv beta.
    intros _ s' (H' & e & qs & Hs'). destruct (emptied_fields W_MODE_PAGER win) as (F1 & F2 & _).
    assert (ps_windows s' !! w = Some (emptied W_MODE_PAGER win)) as Hw' by (subst s'; apply lookup_insert_eq).
    eapply runs_Ok; [by apply updWindow_Ok|]. split.
    + apply (refs_ok_window D W ext s' w (emptied W_MODE_PAGER win)); try done.
      by apply (rf_owner D W ext s' H' w (emptied W_MODE_PAGER win)).
    + eexists. split; [subst s'; cbn; by rewrite insert_insert_eq|]. done.
Qed.

Lemma pager_refines D W ext s m m' wid ep pid :
  refines D W ext s m → mem_abs (SetPager wid ep pid) m = Some m' →
  runs (perform (SetPager wid ep pid)) s (λ _ s', memory_is s' m').
Proof using Hqsort.
  intros H. cbn. destruct (lets_go wid m) eqn:Hlet; [|done]. intros [= <-].
  destruct (lets_go_window D W ext s m wid H Hlet) as (w & win & HW & Hw & <- & Hext).
  pose proof (rm_refs _ _ _ _ _ H) as H0.
  eapply runs_bind_Ok; [by apply (get_window_id D W ext s m)|].
  eapply runs_mono; [by apply (set_pager_rep D W ext s w win ep pid)|]. cbv beta.
  intros _ s' (H' & win' & Hws & Hid & Hz). exists D, W, ext.
  apply (refines_window D W ext s s' m w win win'); try done.
  unfold shows_id, dspace_ids. by rewrite Hz, lookup_fmap, (no_null_dspace D W ext s).
Qed.

Lemma purge_refines D W ext s m m' id :
  refines D W ext s m → mem_abs (Purge id) m = Some m' →
  runs (perform (Purge id)) s (λ _ s', memory_is s' m').
Proof using Hqsort.
  intros H. cbn. destruct (1 <=? _) eqn:Hheld; [|done]. intros [= <-].
  destruct (held_1 D W ext s m id H Hheld) as (p & d & HD & Hp & <- & Hep).
  pose proof (rm_refs _ _ _ _ _ H) as H0.
  eapply runs_bind_Ok; [by apply (ram_dspace_get_Ok D W ext s p d)|].
  eapply runs_mono; [by apply (purge_rep Hqsort D W ext s p d)|]. cbv beta.
  intros _ s' (Hpg & _). exists D, W, ext. by apply (refines_purge D W ext s s' m p d).
Qed.

Lemma delete_refines D W ext s m m' wid :
  refines D W ext s m → mem_abs (DeleteWindow wid) m = Some m' →
  runs (perform (DeleteWindow wid)) s (λ _ s', memory_is s' m').
Proof using Hqsort Hmalloc.
  intros H. cbn. destruct (lets_go wid m) eqn:Hlet; [|done]. intros [= <-].
  destruct (lets_go_window D W ext s m wid H Hlet) as (w & win & HW & Hw & <- & Hext).
  apply runs_bind. eapply runs_mono; [apply (delete_window_rep Hqsort Hmalloc D W ext s w win); [apply H|done..]|].
  cbv beta. intros _ s' (_ & H' & Hws & _). apply runs_ret. eexists D, _, ext.
  by apply (refines_delete_window D W ext s s' m w win).
Qed.

(** C12. Refinement: the tables of dataspaces and windows implement two maps, the
    references to each dataspace held outside the windows and the dataspace
    each window shows.  A sequence of references taken and dropped, windows
    made to show a dataspace or given a pager, dataspaces purged from all
    windows, and windows deleted runs without a failing assertion and ends in
    the maps the specification gives, as long as no window lets go of a
    dataspace that is not held elsewhere; in particular a dataspace is deleted
    exactly when its last reference is dropped. *)
Theorem memory_calls_refine cs s m m' :
  memory_is s m → mem_abs_all cs m = Some m' →
  runs (kfor cs perform) s (λ _ s', memory_is s' m').
Proof using Hqsort Hmalloc.
  revert s m; induction cs as [|c cs IH]; intros s m Hm; cbn [mem_abs_all kfor].
  { intros [= <-]. by apply runs_ret. }
  intros (m1 & Hc & Hcs)%bind_Some. apply runs_bind. destruct Hm as (D & W & ext & H).
  apply (runs_mono _ s (λ _ s1, memory_is s1 m1)); [|intros [] s1 H1; by apply (IH s1 m1)].
  destruct c; [apply (ref_refines D W ext s m)|apply (unref_refines D W ext s m)
    |apply (show_refines D W ext s m)|apply (pager_refines D W ext s m)
    |apply (purge_refines D W ext s m)|apply (delete_refines D W ext s m)]; done.
Qed.
End Calls.

(** Dataspaces 1 and 2, and window 1, which shows dataspace 1. *)
Definition demo_dspace (id npages ref : Z) : ram_dspace := rds_set_ref ref (blank_dspace id npages).
Definition demo_window : w_window := Window 1 0 4096 W_MODE_ANONYMOUS 3 true 0 0 7 0 0 100 0.
Definition demo_tables : procserv :=
  Procserv {[100 := demo_dspace 1 2 2; 101 := demo_dspace 2 1 1]} {[200 := demo_window]} ∅
    (coat (cpool 1 8192 3 cvector_init) (cvector [Some 0; Some 100; Some 101] 3 3 8) [])
    (coat (cpool 1 8192 2 cvector_init) (cvector [Some 0; Some 200] 2 2 8) [])
    (cpool_init 1 1) ∅ 0 0 (PdList (cpool_init 1 1) [] []) ∅ (chash [] 0) cvector_init 1%positive.

Lemma fresh_pool n : 1 ≤ n ≤ 8192 → prep table_lim (cpool 1 8192 n cvector_init) (list_to_set (seqZ 1 (n - 1))).
Proof.
  intros Hn. exists []. split; cbn; try lia.
  - split; cbn; try done. by exists [].
  - apply NoDup_nil_2.
  - unfold table_lim. lia.
  - by intros x ?%elem_of_nil.
  - intros x. rewrite elem_of_list_to_set, elem_of_seqZ, elem_of_nil. lia.
Qed.

Lemma demo_dtable : coat_rep (dspaceList demo_tables) {[1 := 100; 2 := 101]}.
Proof.
  split.
  - eexists. split; [by apply fresh_pool|]. intros id.
    rewrite elem_of_list_to_set, elem_of_seqZ, lookup_insert_is_Some, lookup_singleton_is_Some. lia.
  - done.
  - exists [0; 100; 101]. split; [split; try done; by exists []|]. intros id Hid.
    destruct (decide (id = 0)) as [->|]; [by right|]. destruct (decide (id = 1)) as [->|]; [by left|].
    destruct (decide (id = 2)) as [->|]; [by left|]. left. rewrite ?lookup_insert_ne, lookup_singleton_ne by done.
    apply lookup_ge_None_2. cbn. lia.
  - intros id p [[<- <-]|[_ [<- <-]%lookup_singleton_Some]]%lookup_insert_Some; done.
Qed.
Lemma demo_wtable : coat_rep (windowList demo_tables) {[1 := 200]}.
Proof.
  split.
  - eexists. split; [by apply fresh_pool|]. intros id.
    rewrite elem_of_list_to_set, elem_of_seqZ, lookup_singleton_is_Some. lia.
  - done.
  - exists [0; 200]. split; [split; try done; by exists []|]. intros id Hid.
    destruct (decide (id = 0)) as [->|]; [by right|]. destruct (decide (id = 1)) as [->|]; [by left|].
    left. rewrite ?lookup_insert_ne, lookup_singleton_ne by done. apply lookup_ge_None_2. cbn. lia.
  - by intros id p [<- <-]%lookup_singleton_Some.
Qed.

Lemma demo_refs :
  refs_ok {[1 := 100; 2 := 101]} {[1 := 200]} (λ _, 1) demo_tables.
Proof.
  split; [exact demo_dtable|exact demo_wtable|..].
  - intros id p. cbn. split.
    + intros [[<- <-]|[_ [<- <-]%lookup_singleton_Some]]%lookup_insert_Some; by eexists.
    + intros (d & [[<- <-]|[_ [<- <-]%lookup_singleton_Some]]%lookup_insert_Some & <-); done.
  - intros id w. cbn. split.
    + intros [<- <-]%lookup_singleton_Some. by eexists.
    + by intros (d & [<- <-]%lookup_singleton_Some & <-).
  - cbn. intros p d [[<- <-]|[_ [<- <-]%lookup_singleton_Some]]%lookup_insert_Some;
      (split; [done|done| |done]; exists []; split; [split; try done; by exists []|by apply Forall_nil_2]).
  - cbn. by intros w win [<- <-]%lookup_singleton_Some _.
  - cbn. by intros w win [<- <-]%lookup_singleton_Some.
  - cbn. intros p d [[<- <-]|[_ [<- <-]%lookup_singleton_Some]]%lookup_insert_Some; by vm_compute.
  - done.
Qed.

Lemma demo_memory : memory_is demo_tables {| held := {[1 := 1; 2 := 1]}; showing := {[1 := 1]} |}.
Proof.
  do 3 eexists. split; [exact demo_refs|..]; cbn.
  - intros id. destruct (decide (id = 1)) as [->|]; [done|]. destruct (decide (id = 2)) as [->|]; [done|].
    by rewrite !lookup_insert_ne, !lookup_singleton_ne by done.
  - intros wid. by rewrite !lookup_singleton_is_Some.
  - cbn. by intros w win [<- <-]%lookup_singleton_Some.
  - intros id n [[<- <-]|[_ [<- <-]%lookup_singleton_Some]]%lookup_insert_Some; done.
Qed.

(** Dataspace 1 is taken from window 1, and deleted. *)
Definition demo_calls : list mem_call := [Purge 1; Unref 1; Show 1 2 0; Ref 2; DeleteWindow 1].
Lemma memory_calls_refine_witness :
  ∃ s', kfor demo_calls perform demo_tables = Ok tt s' ∧
    memory_is s' {| held := {[2 := 2]}; showing := ∅ |}.
Proof.
  destruct (@memory_calls_refine numbered (λ l, reflexivity l) (λ _ _, eq_refl) demo_calls demo_tables
    {| held := {[1 := 1; 2 := 1]}; showing := {[1 := 1]} |} {| held := {[2 := 2]}; showing := ∅ |})
    as ([] & s' & H & H').
  - exact demo_memory.
  - by vm_compute.
  - exists s'. exact (conj H H').
Defined.

(** ** The last reference *)

Lemma kfor_Panic {S A} (xs ys : list A) x (body : A → M S unit) s :
  (∀ y, y ∈ xs → body y s = Ok tt s) → body x s = Panic → kfor (xs ++ x :: ys) body s = Panic.
Proof.
  intros Hxs Hx. induction xs as [|y xs IH]; cbn; [by apply kbind_Panic|].
  rewrite (kbind_Ok _ _ _ _ _ (Hxs y ltac:(left))). apply IH. intros z Hz. apply Hxs. by right.
Qed.

Section Last.
Context {E : Env}.

(** Looking up an identifier depends on the table alone. *)
Lemma get_window_same s s' id w :
  windowList s' = windowList s → w_get_window id s = Ok w s → w_get_window id s' = Ok w s'.
Proof.
  intros Heq. unfold w_get_window. destruct (_ || _); [by intros [= ->]|].
  unfold table_get, kbind, gets. rewrite Heq. by destruct (coat_get _ _); intros [= ->].
Qed.
Lemma get_dspace_same s s' id p :
  dspaceList s' = dspaceList s → ram_dspace_get id s = Ok p s → ram_dspace_get id s' = Ok p s'.
Proof.
  intros Heq. unfold ram_dspace_get. destruct (_ || _); [by intros [= ->]|].
  unfold table_get, kbind, gets. rewrite Heq. by destruct (coat_get _ _); intros [= ->].
Qed.

(** Without references, a dataspace that a window shows cannot be deleted. *)
Lemma purge_unreferenced D W ext s w win p d n :
  refs_ok D W ext s → ps_windows s !! w = Some win → w_ramDataspace win = p → w_pager win = 0 →
  ps_dspaces s !! p = Some d → shows (ps_windows s) p = 1 →
  let s' := upd_ps_dspaces (<[p := rds_set_ref 0 d]> (ps_dspaces s)) s in
  purge_dspace (unref_at (S n)) p s' = Panic.
Proof.
  intros H Hw Hwp Hpager Hp Hone s'.
  assert (p ≠ 0) as Hp0 by (intros ->; by rewrite (no_null_dspace D W ext s H) in Hp).
  assert (∀ id, w_get_window id s' = Ok (default 0 (W !! id)) s') as Hget.
  { intros id. by apply (get_window_same s), (w_get_window_Ok D W ext). }
  assert (ps_dspaces s' !! p = Some (rds_set_ref 0 d)) as Hp' by apply lookup_insert_eq.
  assert (W !! w_wID win = Some w) as HW by (apply (rf_window D W ext s H); eauto).
  destruct (ct_objects _ _ (rf_wtable D W ext s H) _ _ HW) as [_ Hw0].
  pose proof (all_windows D W ext s H w win Hw) as Hin.
  apply list_elem_of_split in Hin as (pre & post & Hsplit). unfold purge_dspace. rewrite Hsplit.
  pose proof (NoDup_seqZ 1 (W_MAX_WINDOWS - 1)) as Hnd. rewrite Hsplit in Hnd.
  apply NoDup_app in Hnd as (_ & Hpre & _). apply kfor_Panic.
  - intros i Hi. specialize (Hpre i Hi). unfold purge_window. rewrite (kbind_Ok _ _ _ _ _ (Hget i)).
    destruct (W !! i) as [v|] eqn:Hv; cbn [default]; [|done]. change (id v) with v.
    destruct (Z.eqb_spec v 0); [done|]. apply (rf_window D W ext s H) in Hv as (win' & Hv & Hvi).
    assert (ps_windows s' !! v = Some win') as Hv' by done.
    rewrite (kbind_Ok _ _ _ _ _ (getWindow_Ok s' v win' Hv')).
    destruct (Z.eqb_spec (w_ramDataspace win') 0) as [|Hz]; [done|].
    assert (v ≠ w) as Hvw by (intros ->; rewrite Hw in Hv; injection Hv as <-; set_solver).
    assert (w_ramDataspace win' ≠ p) as Hne.
    { intros Hwp'. pose proof (shows_delete (ps_windows s) w win p Hw) as Hd. unfold shows_1 in Hd.
      rewrite (proj2 (Z.eqb_eq _ _) Hwp) in Hd.
      pose proof (shows_pos (delete w (ps_windows s)) v win' p ltac:(by rewrite lookup_delete_ne) Hwp'). lia. }
    destruct (rf_shown D W ext s H v win' Hv Hz) as [d' Hd'].
    assert (ps_dspaces s' !! w_ramDataspace win' = Some d') as Hd'' by (unfold s'; cbn; by rewrite lookup_insert_ne).
    rewrite (kbind_Ok _ _ _ _ _ (getDspace_Ok s' _ d' Hd'')), (kbind_Ok _ _ _ _ _ (getDspace_Ok s' p _ Hp')).
    rewrite (proj2 (Z.eqb_neq _ _) Hne). cbn [orb rds_ID rds_set_ref].
    rewrite (proj2 (Z.eqb_neq _ _)); [done|]. intros Hid. apply Hne.
    by apply (refs_ok_id D W ext s _ _ d' d).
  - unfold purge_window. rewrite (kbind_Ok _ _ _ _ _ (Hget _)), HW. cbn [default]. change (id w) with w.
    rewrite (proj2 (Z.eqb_neq w 0)) by done.
    assert (ps_windows s' !! w = Some win) as Hw' by done.
    rewrite (kbind_Ok _ _ _ _ _ (getWindow_Ok s' w win Hw')), Hwp. rewrite (proj2 (Z.eqb_neq p 0)) by done.
    rewrite !(kbind_Ok _ _ _ _ _ (getDspace_Ok s' p _ Hp')), Z.eqb_refl. cbn [orb kwhen].
    unfold switch_mode. rewrite (kbind_Ok _ _ _ _ _ (getWindow_Ok s' w win Hw')), Hpager, Hwp.
    rewrite (proj2 (Z.eqb_neq p 0)) by done. cbn [Z.eqb negb kwhen]. rewrite kbind_kret.
    apply kbind_Panic. rewrite (kbind_Ok _ _ _ _ _ (getDspace_Ok s' p _ Hp')). apply kbind_Panic.
    cbn [unref_at rds_ID rds_set_ref].
    rewrite (kbind_Ok _ _ s' s' p).
    2:{ apply (get_dspace_same s); [done|]. by apply (ram_dspace_get_Ok D W ext). }
    rewrite (proj2 (Z.eqb_neq p 0)) by done. cbn [negb]. unfold kassert at 1. rewrite kbind_kret.
    by rewrite (kbind_Ok _ _ _ _ _ (getDspace_Ok s' p _ Hp')).
Qed.

(** Error behaviour (a defect): deleting a window that holds the last
    reference to its dataspace fails an assertion.  The window drops the
    reference before it forgets the dataspace, so the deletion of the dataspace
    finds the window still showing it and drops the reference once more. *)
Theorem w_delete_window_last_reference D W ext s w win d :
  refs_ok D W ext s → ps_windows s !! w = Some win →
  ps_dspaces s !! w_ramDataspace win = Some d → rds_ref d = 1 →
  w_delete_window (w_wID win) s = Panic.
Proof.
  intros H Hw Hp Hr. destruct (rf_count D W ext s H _ d Hp) as (Hc & He & _).
  set (p := w_ramDataspace win) in *. pose proof (shows_pos (ps_windows s) w win p Hw eq_refl) as Hone.
  assert (p ≠ 0) as Hp0 by (intros Hz; rewrite Hz in Hp; by rewrite (no_null_dspace D W ext s H) in Hp).
  assert (W !! w_wID win = Some w) as HW by (apply (rf_window D W ext s H); eauto).
  unfold w_delete_window. apply kbind_Panic.
  rewrite (table_free_run windowList upd_windowList s W (w_wID win) w) by (done || apply H).
  do 2 apply kbind_Panic. unfold switch_mode. rewrite (kbind_Ok _ _ _ _ _ (getWindow_Ok s w win Hw)).
  destruct (drop_pager_rep D W ext s w win H Hw) as ([] & s1 & Hdrop & H1 & e & Hs1).
  rewrite (kbind_Ok _ _ _ _ _ Hdrop). fold p. rewrite (proj2 (Z.eqb_neq p 0)) by done. cbn [negb kwhen].
  apply kbind_Panic. assert (ps_dspaces s1 !! p = Some d) as Hp1 by by subst s1.
  rewrite (kbind_Ok _ _ _ _ _ (getDspace_Ok s1 p d Hp1)). apply kbind_Panic.
  destruct (no_pager_fields win) as (F1 & F2 & _).
  assert (ps_windows s1 !! w = Some (no_pager win)) as Hw1 by (subst s1; apply lookup_insert_eq).
  assert (shows (ps_windows s1) p = 1) as Hs.
  { destruct (rf_count D W ext s1 H1 p d Hp1) as (Hc1 & _). lia. }
  assert (D !! rds_ID d = Some p) as HD by (apply (rf_dspace D W ext s H); eauto).
  unfold ram_dspace_unref, unref_depth. cbn [unref_at].
  rewrite (kbind_Ok _ _ _ _ _ (ram_dspace_get_Ok D W ext s1 p d H1 Hp1)).
  rewrite (proj2 (Z.eqb_neq p 0)) by done. cbn [negb]. unfold kassert at 1. rewrite kbind_kret.
  rewrite (kbind_Ok _ _ _ _ _ (getDspace_Ok s1 p d Hp1)), Hr. rewrite kassert_true by done.
  rewrite (kbind_Ok _ _ _ _ _ (updDspace_Ok s1 p d (rds_set_ref 0) Hp1)). cbn [kwhen Z.eqb Z.sub Z.add Z.opp Z.pos_sub].
  apply kbind_Panic. set (s2 := upd_ps_dspaces _ s1).
  rewrite (table_free_run dspaceList upd_dspaceList s2 D (rds_ID d) p) by (done || apply H1).
  do 2 apply kbind_Panic. apply (purge_unreferenced D W ext s1 w (no_pager win) p d 0); try done.
  unfold no_pager. by destruct (Z.eqb_spec (w_pager win) 0).
Qed.
End Last.

(** Window 1 is the only holder of dataspace 1. *)
Definition last_tables : procserv :=
  upd_ps_dspaces (<[100 := demo_dspace 1 2 1]> (ps_dspaces demo_tables)) demo_tables.
Lemma last_refs : refs_ok {[1 := 100; 2 := 101]} {[1 := 200]} (ext_set (λ _, 1) 100 0) last_tables.
Proof.
  by apply (refs_ok_ext {[1 := 100; 2 := 101]} {[1 := 200]} (λ _, 1) demo_tables 100
    (demo_dspace 1 2 2) 0 demo_refs).
Qed.
Lemma w_delete_window_last_reference_witness :
  w_delete_window 1 last_tables = Panic ∧ is_Some (ps_windows last_tables !! 200).
Proof.
  split; [|by eexists].
  apply (w_delete_window_last_reference _ _ _ last_tables 200 demo_window (demo_dspace 1 2 1) last_refs);
    by vm_compute.
Defined.
