(* ===== verification/HandlersInv.v ===== *)
(** * What the system calls keep of the references

    The references to a dataspace are the one of its creation, one for every
    window that shows it, and one for every process that has it as its parameter
    or notification buffer.  The buffers of the processes are left alone by the
    operations on windows and dataspaces ([keeps]). *)

From S2P Require Import Prelude.
From S2P Require Import Word32.
From S2P Require Import DataStruct.
From S2P Require Import WindowAssoc.
From S2P Require Import WindowInv.
From S2P Require Import Procserv.
From S2P Require Import Dataspace.
From S2P Require Import Memserv.
From S2P Require Import MemservInv.
From S2P Require Import MemservTheorems.
From S2P Require Import RingBuffer.
From S2P Require Import AddrSpace.
From S2P Require Import Process.
From S2P Require Import Proc.
From S2P Require Import Handlers.

Section Keeps.
Context {E : Env}.

(** ** What is left alone *)
Definition buffers (q : proc_pcb) : Z * option rb_buffer := (paramBuffer q, notificationBuffer q).
Definition views (s : procserv) : gmap Z (Z * option rb_buffer) := buffers <$> pcbs s.
Definition keeps {A} (m : P A) : Prop := ∀ s a s', m s = Ok a s' → views s' = views s.

Lemma keeps_runs {A} (m : P A) s Q :
  keeps m → runs m s Q → runs m s (λ a s', Q a s' ∧ views s' = views s).
Proof. intros Hk (a & s' & Hm & HQ). exists a, s'. split; [done|]. split; [done|]. by apply (Hk s a). Qed.

Lemma keeps_ret {A} (a : A) : keeps (kret a).
Proof. by intros s b s' [= <- <-]. Qed.
Lemma keeps_fail {A} : keeps (kfail : P A).
Proof. done. Qed.
Lemma keeps_diverge {A} : keeps (kdiverge : P A).
Proof. done. Qed.
Lemma keeps_gets {A} (f : procserv → A) : keeps (gets f).
Proof. by intros s b s' [= <- <-]. Qed.
Lemma keeps_opt {A} (o : option A) : keeps (kopt o : P A).
Proof. destruct o; [apply keeps_ret|apply keeps_fail]. Qed.
Lemma keeps_assert b : keeps (kassert b : P unit).
Proof. destruct b; [apply keeps_ret|apply keeps_fail]. Qed.
Lemma keeps_modify f : (∀ s, pcbs (f s) = pcbs s) → keeps (modify f).
Proof. intros Hf s b s' [= <- <-]. unfold views. by rewrite Hf. Qed.
Lemma keeps_bind {A B} (m : P A) (k : A → P B) : keeps m → (∀ a, keeps (k a)) → keeps (kbind m k).
Proof.
  intros Hm Hk s b s' H. unfold kbind in H. destruct (m s) as [a s1| |] eqn:Hm1; try done.
  rewrite (Hk a s1 b s' H). by apply (Hm s a).
Qed.
Lemma keeps_when b (m : P unit) : keeps m → keeps (kwhen b m).
Proof. destruct b; [done|]. intros _. apply keeps_ret. Qed.
Lemma keeps_for {A} (xs : list A) (body : A → P unit) : (∀ x, keeps (body x)) → keeps (kfor xs body).
Proof.
  intros Hb. induction xs as [|x xs IH]; [apply keeps_ret|]. cbn. apply keeps_bind; [apply Hb|by intros _].
Qed.
Lemma keeps_call {A} (f : env → A * env) : keeps (call f).
Proof. intros s b s' H. unfold call in H. destruct (f (ps_env s)). by injection H as <- <-. Qed.
Lemma keeps_call_ f : keeps (call_ f).
Proof. by apply keeps_modify. Qed.
Lemma keeps_getDspace p : keeps (getDspace p).
Proof. intros s b s' H. unfold getDspace in H. destruct (_ !! _); [|done]. by injection H as <- <-. Qed.
Lemma keeps_getWindow p : keeps (getWindow p).
Proof. intros s b s' H. unfold getWindow in H. destruct (_ !! _); [|done]. by injection H as <- <-. Qed.
Lemma keeps_getPcb p : keeps (getPcb p).
Proof. intros s b s' H. unfold getPcb in H. destruct (_ !! _); [|done]. by injection H as <- <-. Qed.
Lemma keeps_updDspace p f : keeps (updDspace p f).
Proof. intros s b s' H. unfold updDspace in H. destruct (_ !! _); [|done]. by injection H as <- <-. Qed.
Lemma keeps_updWindow p f : keeps (updWindow p f).
Proof. intros s b s' H. unfold updWindow in H. destruct (_ !! _); [|done]. by injection H as <- <-. Qed.
Lemma keeps_updPcb p f : (∀ q, buffers (f q) = buffers q) → keeps (updPcb p f).
Proof.
  intros Hf s b s' H. unfold updPcb in H. destruct (pcbs s !! p) as [q|] eqn:Hq; [|done].
  injection H as <- <-. unfold views. cbn. rewrite fmap_insert, Hf. apply insert_id. by rewrite lookup_fmap, Hq.
Qed.
End Keeps.
#[export] Hint Resolve keeps_ret keeps_fail keeps_diverge keeps_gets keeps_opt keeps_assert keeps_bind
  keeps_when keeps_for keeps_call keeps_call_ keeps_getDspace keeps_getWindow keeps_getPcb
  keeps_updDspace keeps_updWindow : kernel.

(** [keeps] follows the structure of the operation; the lemmas it needs are in
    the hint database. *)
Ltac keeps_step :=
  match goal with
  | |- keeps (kbind _ _) => apply keeps_bind; [|intros ?]
  | |- keeps (kwhen _ _) => apply keeps_when
  | |- keeps (kfor _ _) => apply keeps_for; intros ?
  | |- keeps (modify _) => apply keeps_modify; done
  | |- keeps (updPcb _ _) => apply keeps_updPcb; done
  | |- keeps (match ?x with _ => _ end) => destruct x
  | |- keeps (if ?b then _ else _) => destruct b
  | |- keeps _ => solve [auto with kernel]
  end.
Ltac keeps := repeat keeps_step.

Section Operations.
Context {E : Env}.

Lemma keeps_release_slot slot : keeps (release_slot slot).
Proof. unfold release_slot. keeps. Qed.
Lemma keeps_with_windows {A} pid (f : w_associated_windowlist → option (w_associated_windowlist * A)) :
  keeps (with_windows pid f).
Proof. unfold with_windows. keeps. Qed.
Lemma keeps_pid_get_pcb pid : keeps (pid_get_pcb pid).
Proof. unfold pid_get_pcb. keeps. Qed.
Hint Resolve keeps_release_slot keeps_with_windows keeps_pid_get_pcb : kernel.

Section Table.
Context (get : procserv → coat_t) (upd : coat_t → procserv → procserv) (Hupd : ∀ t s, pcbs (upd t s) = pcbs s).
Lemma keeps_table_get id : keeps (table_get get id).
Proof using Type. unfold oat_get. keeps. Qed.
Lemma keeps_table_free del id : (∀ p, keeps (del p)) → keeps (table_free get upd del id).
Proof using Hupd.
  intros Hdel. unfold oat_free, oat_set_object, oat_free_id, oat_set_table, oat_set_pool. keeps; by apply keeps_modify.
Qed.
End Table.
Hint Resolve keeps_table_get : kernel.
Lemma keeps_ram_dspace_get id : keeps (ram_dspace_get id).
Proof. unfold ram_dspace_get. keeps. Qed.
Lemma keeps_w_get_window id : keeps (w_get_window id).
Proof. unfold w_get_window. keeps. Qed.
Hint Resolve keeps_ram_dspace_get keeps_w_get_window : kernel.
Lemma keeps_unmap_window pid wID : keeps (vs_unmap_window pid wID).
Proof. unfold vs_unmap_window, find_winID, vs_unmap_frames, vs_unmap_frame. keeps. Qed.
Hint Resolve keeps_unmap_window : kernel.

Section Unref.
Context (unref : Z → P unit) (Hunref : ∀ id, keeps (unref id)).
Hint Resolve Hunref : kernel.
Lemma keeps_switch_mode w mode : keeps (switch_mode unref w mode).
Proof using Hunref. unfold switch_mode. keeps. Qed.
Hint Resolve keeps_switch_mode : kernel.
Lemma keeps_purge_dspace p : keeps (purge_dspace unref p).
Proof using Hunref. unfold purge_dspace, purge_window. keeps. Qed.
Lemma keeps_release_waiters n : ∀ v i, keeps (release_waiters n v i).
Proof using Type. clear Hunref. induction n; intros v i; cbn [release_waiters]; keeps. Qed.
Lemma keeps_free_page b c : keeps (free_page b c).
Proof using Type. unfold free_page. keeps. Qed.
Hint Resolve keeps_purge_dspace keeps_release_waiters keeps_free_page : kernel.
Lemma keeps_dspace_delete p : keeps (dspace_delete unref p).
Proof using Hunref. unfold dspace_delete. keeps. Qed.
Lemma keeps_window_delete p : keeps (window_delete unref p).
Proof using Hunref. unfold window_delete. keeps. Qed.
End Unref.

Lemma keeps_unref_at n : ∀ id, keeps (unref_at n id).
Proof.
  induction n as [|n IH]; intros id; cbn [unref_at]; [auto with kernel|]. keeps.
  apply keeps_table_free; [done|]. intros p. by apply keeps_dspace_delete.
Qed.
Lemma keeps_unref id : keeps (ram_dspace_unref id).
Proof. apply keeps_unref_at. Qed.
Lemma keeps_ref id : keeps (ram_dspace_ref id).
Proof. unfold ram_dspace_ref. keeps. Qed.
Hint Resolve keeps_unref keeps_ref : kernel.
Lemma keeps_window_switch_mode w mode : keeps (window_switch_mode w mode).
Proof. apply keeps_switch_mode, keeps_unref. Qed.
Lemma keeps_w_purge_dspace p : keeps (w_purge_dspace p).
Proof. apply keeps_purge_dspace, keeps_unref. Qed.
Hint Resolve keeps_window_switch_mode : kernel.
Lemma keeps_w_set_anon_dspace w p off : keeps (w_set_anon_dspace w p off).
Proof. unfold w_set_anon_dspace. keeps. Qed.
Lemma keeps_w_set_pager_endpoint w ep pid : keeps (w_set_pager_endpoint w ep pid).
Proof. unfold w_set_pager_endpoint. keeps. Qed.
Lemma keeps_w_delete_window wid : keeps (w_delete_window wid).
Proof.
  unfold w_delete_window. keeps. apply keeps_table_free; [done|]. intros p.
  apply keeps_window_delete, keeps_unref.
Qed.
End Operations.
#[export] Hint Resolve keeps_release_slot keeps_with_windows keeps_pid_get_pcb keeps_ram_dspace_get
  keeps_w_get_window keeps_unmap_window keeps_unref keeps_ref keeps_window_switch_mode
  keeps_w_purge_dspace keeps_w_set_anon_dspace keeps_w_set_pager_endpoint keeps_w_delete_window : kernel.

(** ** Counting the users of a dataspace *)
Definition uses (b : Z * option rb_buffer) (p : Z) : Z :=
  if p =? 0 then 0
  else (if b.1 =? p then 1 else 0) +
    match b.2 with Some rb => if rb_dataspace rb =? p then 1 else 0 | None => 0 end.
Definition users (v : gmap Z (Z * option rb_buffer)) (p : Z) : Z :=
  map_fold (λ _ b acc, uses b p + acc) 0 v.

Lemma uses_range b p : 0 ≤ uses b p ≤ 2.
Proof. unfold uses. destruct (p =? 0), (b.1 =? p), b.2 as [rb|]; try destruct (_ =? _); lia. Qed.
Lemma users_new v k b p : v !! k = None → users (<[k := b]> v) p = uses b p + users v p.
Proof. intros Hk. unfold users. rewrite (map_fold_insert_L (λ _ b acc, uses b p + acc)); [done| |done]. intros. lia. Qed.
Lemma users_singleton k b p : users {[k := b]} p = uses b p.
Proof. rewrite <- insert_empty, users_new by done. unfold users. rewrite map_fold_empty. lia. Qed.
Lemma users_delete v k b p : v !! k = Some b → users (delete k v) p = users v p - uses b p.
Proof.
  intros Hk. rewrite <- (insert_delete_id v k b Hk) at 2. rewrite users_new by apply lookup_delete_eq. lia.
Qed.
Lemma users_insert v k b b' p :
  v !! k = Some b → users (<[k := b']> v) p = users v p - uses b p + uses b' p.
Proof.
  intros Hk. rewrite <- insert_delete_eq, users_new by apply lookup_delete_eq.
  rewrite (users_delete v k b) by done. lia.
Qed.
Lemma users_nonneg v p : 0 ≤ users v p.
Proof.
  unfold users. apply (map_fold_weak_ind (λ r _, 0 ≤ r)); [done|]. intros k b m r _ Hr.
  pose proof (uses_range b p). lia.
Qed.
Lemma users_size v p : users v p ≤ 2 * Z.of_nat (size v).
Proof.
  unfold users. apply (map_fold_weak_ind (λ r m, r ≤ 2 * Z.of_nat (size m))); [done|]. intros k b m r Hk Hr.
  rewrite map_size_insert_None by done. pose proof (uses_range b p). lia.
Qed.
Lemma users_in v k b p : v !! k = Some b → uses b p ≤ users v p.
Proof.
  intros Hk. pose proof (users_delete v k b p Hk). pose proof (users_nonneg (delete k v) p). lia.
Qed.
Lemma users_none v p : (∀ k b, v !! k = Some b → uses b p = 0) → users v p = 0.
Proof.
  unfold users. apply (map_fold_weak_ind (λ r m, (∀ k b, m !! k = Some b → uses b p = 0) → r = 0)); [done|].
  intros k b m r Hk IH Hall. rewrite (Hall k b) by apply lookup_insert_eq.
  rewrite IH; [done|]. intros k' b' Hk'. apply (Hall k'). rewrite lookup_insert_ne; [done|]. congruence.
Qed.

(** ** The invariant *)
Section Server.
Context {E : Env}.

(** The dataspaces a process has as its buffers. *)
Definition holder (b : Z * option rb_buffer) (p : Z) : Prop :=
  (b.1 = p ∧ p ≠ 0) ∨ (∃ rb, b.2 = Some rb ∧ rb_dataspace rb = p).
Definition references (s : procserv) (p : Z) : Z := 1 + users (views s) p.

Record server_ok (D W : gmap Z Z) (s : procserv) : Prop := {
  so_refs : refs_ok D W (references s) s;
  so_held pid b p : views s !! pid = Some b → holder b p → ∃ id, D !! id = Some p;
  so_pids pid : is_Some (views s !! pid) → PID_START ≤ pid < PID_MAX
}.

Lemma server_keep {A} D W W' (m : P A) s :
  server_ok D W s → keeps m → runs m s (λ _ s', refs_ok D W' (references s) s') →
  runs m s (λ _ s', server_ok D W' s' ∧ views s' = views s).
Proof.
  intros [Hr Hh Hp] Hk Hm. eapply runs_mono; [by apply keeps_runs|]. cbv beta. intros a s' [H' Hv].
  split; [|done]. split; rewrite ?Hv; try done. unfold references. by rewrite Hv.
Qed.

Lemma server_refs_few D W s p d :
  server_ok D W s → ps_dspaces s !! p = Some d → rds_ref d + 1 < 2 ^ 32.
Proof.
  intros [Hr _ Hp] Hd. destruct (rf_count _ _ _ _ Hr p d Hd) as (-> & _ & _).
  pose proof (few_shows D W _ s p Hr). unfold references. pose proof (users_size (views s) p).
  assert (size (views s) ≤ 2047)%nat; [|lia].
  assert (size (views s) = length (map_to_list (views s)).*1) as ->.
  { rewrite length_fmap. symmetry. apply length_map_to_list. }
  change 2047%nat with (length (seqZ PID_START (PID_MAX - PID_START))).
  apply submseteq_length, NoDup_submseteq; [apply NoDup_fst_map_to_list|].
  intros k ([k' b] & -> & Hk)%list_elem_of_fmap. apply elem_of_map_to_list in Hk.
  apply elem_of_seqZ. specialize (Hp k' ltac:(by eexists)). cbn. lia.
Qed.

Lemma no_null_table D W ext s id : refs_ok D W ext s → D !! id = Some 0 → False.
Proof. intros H HD. by destruct (ct_objects _ _ (rf_dtable D W ext s H) _ _ HD). Qed.

(** The process [pid] changes its buffers from [q] to [q'], which gives up or
    takes one use of the dataspace at [p]. *)
Section Change.
Context (D W : gmap Z Z) (s : procserv) (pid : Z) (q q' : proc_pcb) (p : Z) (d : ram_dspace).
Context (H : server_ok D W s) (Hq : pcbs s !! pid = Some q) (Hd : ps_dspaces s !! p = Some d).
Context (Hw : vs_windows (pcb_vspace q') = vs_windows (pcb_vspace q)).

Definition moved (s1 : procserv) : procserv := upd_pcbs (<[pid := q']> (pcbs s1)) s1.

Lemma views_moved s1 : pcbs s1 = pcbs s → views (moved s1) = <[pid := buffers q']> (views s).
Proof using Type. clear H Hq Hd Hw. intros Hs. unfold views, moved. cbn. by rewrite fmap_insert, Hs. Qed.
Lemma view_q : views s !! pid = Some (buffers q).
Proof using Hq. clear H Hd Hw. unfold views. by rewrite lookup_fmap, Hq. Qed.

Lemma change_ok delta s1 :
  s1 = upd_ps_dspaces (<[p := rds_set_ref (rds_ref d + delta) d]> (ps_dspaces s)) s →
  (∀ r, uses (buffers q') r = uses (buffers q) r + if r =? p then delta else 0) →
  (∀ r, holder (buffers q') r → holder (buffers q) r ∨ r = p) →
  0 ≤ references s p + delta → rds_ref d + delta < 2 ^ 32 →
  server_ok D W (moved s1).
Proof using H Hq Hd Hw.
  intros -> Hu Hh Hpos Hlt. destruct H as [Hr Hheld Hpids].
  destruct (rf_count _ _ _ _ Hr p d Hd) as (Hc & _ & _).
  set (s1 := upd_ps_dspaces _ s). pose proof (views_moved s1 eq_refl) as Hv.
  assert (refs_ok D W (ext_set (references s) p (references s p + delta)) s1) as H1.
  { subst s1. replace (rds_ref d + delta) with (shows (ps_windows s) p + (references s p + delta)) by lia.
    apply refs_ok_ext; try done; lia. }
  split; rewrite ?Hv.
  - destruct (rf_spaces _ _ _ _ H1 pid q) as [ws Hws]; [done|].
    apply refs_ok_ext_eq with (ext_set (references s) p (references s p + delta)).
    2:{ apply (refs_ok_pcb D W _ s1 pid q q' ws); [done|done|]. by rewrite Hw. }
    intros r. unfold ext_set, references. rewrite Hv, (users_insert _ pid (buffers q)) by apply view_q.
    rewrite (Hu r). destruct (Z.eqb_spec r p) as [->|]; lia.
  - intros k b r. destruct (decide (k = pid)) as [->|Hne].
    + rewrite lookup_insert_eq. intros [= <-] [Hb| ->]%Hh; [by apply (Hheld pid _ r view_q)|].
      exists (rds_ID d). apply (rf_dspace _ _ _ _ Hr). by exists d.
    + rewrite lookup_insert_ne by done. apply Hheld.
  - intros k Hk. apply Hpids. destruct (decide (k = pid)) as [->|Hne]; [by rewrite view_q|].
    by rewrite lookup_insert_ne in Hk.
Qed.

Lemma lose_use :
  (∀ r, uses (buffers q') r = uses (buffers q) r + if r =? p then -1 else 0) →
  (∀ r, holder (buffers q') r → holder (buffers q) r) →
  ∃ s1, ram_dspace_unref (rds_ID d) s = Ok tt s1 ∧ pcbs s1 = pcbs s ∧ ps_windows s1 = ps_windows s ∧
    server_ok D W (moved s1).
Proof using H Hq Hd Hw.
  intros Hu Hh. pose proof (so_refs D W s H) as Hr. destruct (rf_count _ _ _ _ Hr p d Hd) as (Hc & _ & Hlt).
  pose proof (shows_nonneg (ps_windows s) p). pose proof (users_in _ _ _ p view_q).
  pose proof (uses_range (buffers q') p). pose proof (Hu p) as Hup. rewrite Z.eqb_refl in Hup.
  unfold references in Hc. eexists. split; [apply (unref_shared D W _ s p d 1 Hr Hd); lia|].
  split_and!; [done..|]. apply (change_ok (-1)); [done|done| | |lia].
  - intros r Hb. left. by apply Hh.
  - unfold references. lia.
Qed.

Lemma gain_use :
  (∀ r, uses (buffers q') r = uses (buffers q) r + if r =? p then 1 else 0) →
  (∀ r, holder (buffers q') r → holder (buffers q) r ∨ r = p) →
  ∃ s1, ram_dspace_ref (rds_ID d) s = Ok tt s1 ∧ pcbs s1 = pcbs s ∧ ps_windows s1 = ps_windows s ∧
    server_ok D W (moved s1).
Proof using H Hq Hd Hw.
  intros Hu Hh. pose proof (so_refs D W s H) as Hr. destruct (rf_count _ _ _ _ Hr p d Hd) as (Hc & _ & Hlt).
  pose proof (shows_nonneg (ps_windows s) p). pose proof (users_nonneg (views s) p).
  pose proof (server_refs_few D W s p d H Hd). unfold references in Hc.
  destruct (ram_dspace_ref_rep D W _ s p d Hr Hd) as ([] & s1 & Href & _ & ->); [lia|lia|].
  eexists. split_and!; [done..|]. apply (change_ok 1); try done. unfold references. lia.
Qed.
End Change.

Lemma same_use D W s pid q q' :
  server_ok D W s → pcbs s !! pid = Some q → vs_windows (pcb_vspace q') = vs_windows (pcb_vspace q) →
  buffers q' = buffers q → server_ok D W (moved pid q' s).
Proof.
  intros [Hr Hh Hp] Hq Hw Hb.
  assert (views (moved pid q' s) = views s) as Hv.
  { rewrite (views_moved s pid q' s eq_refl), Hb. apply insert_id. unfold views. by rewrite lookup_fmap, Hq. }
  split; rewrite ?Hv; try done. unfold references. rewrite Hv.
  destruct (rf_spaces _ _ _ _ Hr pid q Hq) as [ws Hws].
  apply (refs_ok_pcb D W _ s pid q q' ws); [done|done|]. by rewrite Hw.
Qed.

Lemma updPcb_Ok s pid q f : pcbs s !! pid = Some q → updPcb pid f s = Ok tt (moved pid (f q) s).
Proof. intros Hq. unfold updPcb. by rewrite Hq. Qed.
Lemma getPcb_Ok s pid q : pcbs s !! pid = Some q → getPcb pid s = Ok q s.
Proof. intros Hq. unfold getPcb. by rewrite Hq. Qed.
Lemma moved_moved pid q q' s : moved pid q' (moved pid q s) = moved pid q' s.
Proof. unfold moved. cbn. by rewrite insert_insert_eq. Qed.
Lemma moved_pcb pid q s : pcbs (moved pid q s) !! pid = Some q.
Proof. apply lookup_insert_eq. Qed.

Lemma table_dspace D W ext s id p : refs_ok D W ext s → D !! id = Some p → ∃ d, ps_dspaces s !! p = Some d ∧ rds_ID d = id ∧ p ≠ 0.
Proof.
  intros H HD. destruct (ct_objects _ _ (rf_dtable D W ext s H) _ _ HD) as [_ Hp].
  apply (rf_dspace D W ext s H) in HD as (d & Hd & Hid). by exists d.
Qed.

(** ** The buffers of a process *)

(** What changing the buffers of [pid] to [b] keeps. *)
Definition rebuffered (D W : gmap Z Z) (pid : Z) (b : Z * option rb_buffer) (s s' : procserv) : Prop :=
  server_ok D W s' ∧ views s' = <[pid := b]> (views s) ∧ ps_windows s' = ps_windows s ∧
  ∃ q', pcbs s' !! pid = Some q' ∧ buffers q' = b.

Lemma drop_param_rep D W s pid q :
  server_ok D W s → pcbs s !! pid = Some q → paramBuffer q ≠ 0 →
  runs (let! d := getDspace (paramBuffer q) in ram_dspace_unref (rds_ID d) ;;; updPcb pid (set_paramBuffer 0)) s
    (λ _ s', rebuffered D W pid (0, notificationBuffer q) s s').
Proof.
  intros H Hq Hz. pose proof (so_refs D W s H) as Hr.
  destruct (so_held D W s H pid (buffers q) (paramBuffer q)) as [id HD].
  { unfold views. by rewrite lookup_fmap, Hq. }
  { left. by split. }
  destruct (table_dspace D W _ s _ _ Hr HD) as (d & Hd & _ & Hp0). rstep.
  destruct (lose_use D W s pid q (set_paramBuffer 0 q) (paramBuffer q) d H Hq Hd eq_refl)
    as (s1 & Hun & Hpc & Hws & H1).
  { intros r. unfold uses. cbn [buffers fst snd paramBuffer set_paramBuffer notificationBuffer].
    destruct (Z.eqb_spec r 0) as [->|Hr0]; [by rewrite (proj2 (Z.eqb_neq 0 _)) by lia|].
    rewrite (proj2 (Z.eqb_neq 0 r)), (Z.eqb_sym r) by lia. destruct (_ =? _); lia. }
  { intros r [[? ?]|Hrb]; [cbn in *; lia|by right]. }
  eapply runs_bind_Ok; [exact Hun|]. eapply runs_Ok; [apply updPcb_Ok; by rewrite Hpc|].
  split_and!; [done| |done|by eexists; split; [apply moved_pcb|]]. by rewrite (views_moved s pid _ s1 Hpc).
Qed.

Lemma proc_set_parambuffer_rep D W s pid q p :
  server_ok D W s → pcbs s !! pid = Some q → (p = 0 ∨ ∃ id, D !! id = Some p) →
  runs (proc_set_parambuffer pid p) s (λ _ s', rebuffered D W pid (p, notificationBuffer q) s s').
Proof.
  intros H Hq Hp. unfold proc_set_parambuffer. eapply runs_bind_Ok; [by apply getPcb_Ok|].
  assert (views s !! pid = Some (buffers q)) as Hvq by (unfold views; by rewrite lookup_fmap, Hq).
  destruct (Z.eqb_spec (paramBuffer q) p) as [<-|Hne].
  { apply runs_ret. split_and!; [done| |done|by exists q]. by rewrite insert_id. }
  apply runs_bind, runs_mono with (λ _ s1, rebuffered D W pid (0, notificationBuffer q) s s1).
  { apply runs_when; intros Hz.
    - apply drop_param_rep; try done. by apply Z.eqb_neq, negb_true_iff.
    - apply negb_false_iff, Z.eqb_eq in Hz. split_and!; [done| |done|].
      + rewrite insert_id; [done|]. rewrite Hvq. unfold buffers. by rewrite Hz.
      + exists q. split; [done|]. unfold buffers. by rewrite Hz. }
  intros _ s1 (H1 & Hv1 & Hw1 & q1 & Hq1 & Hb1). unfold buffers in Hb1. injection Hb1 as Hz1 Hn1.
  destruct (Z.eqb_spec p 0) as [->|Hp0]; cbn [negb kwhen].
  - rewrite kbind_kret. eapply runs_Ok; [by apply updPcb_Ok|]. split_and!.
    + apply (same_use D W s1 pid q1); try done. unfold buffers. cbn. by rewrite Hz1.
    + rewrite (views_moved s1 pid _ s1 eq_refl), Hv1, insert_insert_eq. unfold buffers. cbn. by rewrite Hn1.
    + done.
    + eexists. split; [apply moved_pcb|]. unfold buffers. cbn. by rewrite Hn1.
  - destruct Hp as [?|[id HD]]; [done|]. pose proof (so_refs D W s1 H1) as Hr1.
    destruct (table_dspace D W _ s1 _ _ Hr1 HD) as (d & Hd & _ & _).
    destruct (gain_use D W s1 pid q1 (set_paramBuffer p q1) p d H1 Hq1 Hd eq_refl)
      as (s2 & Href & Hpc & Hws & H2).
    { intros r. unfold uses. cbn [buffers fst snd paramBuffer set_paramBuffer notificationBuffer].
      rewrite Hz1. destruct (Z.eqb_spec r 0) as [->|Hr0]; [by rewrite (proj2 (Z.eqb_neq 0 _)) by lia|].
      rewrite (proj2 (Z.eqb_neq 0 r)), (Z.eqb_sym r) by lia. destruct (_ =? _); lia. }
    { intros r [[? ?]|Hrb]; [right; cbn in *; lia|left; by right]. }
    apply runs_bind. rstep. eapply runs_Ok; [exact Href|].
    eapply runs_Ok; [apply updPcb_Ok; by rewrite Hpc|]. split_and!.
    + done.
    + rewrite (views_moved s1 pid _ s2 Hpc), Hv1, insert_insert_eq. unfold buffers. cbn. by rewrite Hn1.
    + cbn. congruence.
    + eexists. split; [apply moved_pcb|]. unfold buffers. cbn. by rewrite Hn1.
Qed.

Lemma drop_notificationBuffer_rep D W s pid q :
  server_ok D W s → pcbs s !! pid = Some q →
  runs (drop_notificationBuffer pid) s (λ _ s', rebuffered D W pid (paramBuffer q, None) s s').
Proof.
  intros H Hq. unfold drop_notificationBuffer. eapply runs_bind_Ok; [by apply getPcb_Ok|].
  assert (views s !! pid = Some (buffers q)) as Hvq by (unfold views; by rewrite lookup_fmap, Hq).
  destruct (notificationBuffer q) as [rb|] eqn:Hn.
  2:{ apply runs_ret. assert (buffers q = (paramBuffer q, None)) as Hb by (unfold buffers; by rewrite Hn).
      split_and!; [done| |done|by exists q]. rewrite insert_id; [done|congruence]. }
  pose proof (so_refs D W s H) as Hr. destruct (so_held D W s H pid (buffers q) (rb_dataspace rb)) as [id HD].
  { done. }
  { right. by exists rb. }
  destruct (table_dspace D W _ s _ _ Hr HD) as (d & Hd & _ & Hp0).
  destruct (lose_use D W s pid q (set_notificationBuffer None q) (rb_dataspace rb) d H Hq Hd eq_refl)
    as (s1 & Hun & Hpc & Hws & H1).
  { intros r. unfold uses. cbn [buffers fst snd paramBuffer set_notificationBuffer notificationBuffer].
    rewrite Hn. destruct (Z.eqb_spec r 0) as [->|Hr0]; [by rewrite (proj2 (Z.eqb_neq 0 _)) by lia|].
    rewrite (Z.eqb_sym r). destruct (rb_dataspace rb =? r); lia. }
  { intros r [Hpb|(? & ? & _)]; [by left|done]. }
  unfold rb_delete. eapply runs_bind_Ok; [|eapply runs_Ok; [apply updPcb_Ok; by rewrite Hpc|]].
  { rewrite (kbind_Ok _ _ _ _ _ (getDspace_Ok s _ d Hd)). exact Hun. }
  split_and!; [done| |done|by eexists; split; [apply moved_pcb|]]. by rewrite (views_moved s pid _ s1 Hpc).
Qed.

Lemma set_notificationbuffer_rep D W s pid q p :
  server_ok D W s → pcbs s !! pid = Some q → (∃ id, D !! id = Some p) →
  runs (proc_set_notificationbuffer pid p) s
    (λ _ s', ∃ nb, rebuffered D W pid (paramBuffer q, nb) s s').
Proof.
  intros H Hq [id HD]. unfold proc_set_notificationbuffer. apply runs_bind.
  eapply runs_mono; [by apply drop_notificationBuffer_rep|]. cbv beta.
  intros _ s1 (H1 & Hv1 & Hw1 & q1 & Hq1 & Hb1). unfold buffers in Hb1. injection Hb1 as Hz1 Hn1.
  pose proof (so_refs D W s1 H1) as Hr1. destruct (table_dspace D W _ s1 _ _ Hr1 HD) as (d & Hd & _ & Hp0).
  rewrite (proj2 (Z.eqb_neq p 0)) by done. unfold rb_create.
  destruct (malloc_ok sizeof_rb_buffer); cbn [negb].
  2:{ change (runs (updPcb pid (set_notificationBuffer None) ;;; kret ENOMEM) s1
        (λ _ s', ∃ nb, rebuffered D W pid (paramBuffer q, nb) s s')).
      eapply runs_bind_Ok; [by apply updPcb_Ok|]. apply runs_ret. exists None. split_and!.
      - apply (same_use D W s1 pid q1); try done. unfold buffers. cbn. by rewrite Hn1.
      - rewrite (views_moved s1 pid _ s1 eq_refl), Hv1, insert_insert_eq. unfold buffers. cbn. by rewrite Hz1.
      - done.
      - eexists. split; [apply moved_pcb|]. unfold buffers. cbn. by rewrite Hz1. }
  set (rb := RbBuffer RB_WRITEONLY 0 0 (w32 (ram_dspace_get_size d - RINGBUFFER_METADATA_SIZE)) p).
  destruct (gain_use D W s1 pid q1 (set_notificationBuffer (Some rb) q1) p d H1 Hq1 Hd eq_refl)
    as (s2 & Href & Hpc & Hws & H2).
  { intros r. unfold uses. cbn [buffers fst snd paramBuffer set_notificationBuffer notificationBuffer rb_dataspace rb].
    rewrite Hn1. destruct (Z.eqb_spec r 0) as [->|Hr0]; [by rewrite (proj2 (Z.eqb_neq 0 _)) by lia|].
    rewrite (Z.eqb_sym r). destruct (p =? r); lia. }
  { intros r [Hpb|(rb' & [= <-] & <-)]; [left; by left|by right]. }
  eapply runs_bind_Ok; [rewrite (kbind_Ok _ _ _ _ _ (getDspace_Ok s1 p d Hd)); by rewrite (kbind_Ok _ _ _ _ _ Href)|].
  eapply runs_bind_Ok; [apply updPcb_Ok; by rewrite Hpc|]. apply runs_ret. exists (Some rb). split_and!.
  - done.
  - rewrite (views_moved s1 pid _ s2 Hpc), Hv1, insert_insert_eq. unfold buffers. cbn. by rewrite Hz1.
  - cbn. congruence.
  - eexists. split; [apply moved_pcb|]. unfold buffers. cbn. by rewrite Hz1.
Qed.

(** ** A dataspace that is to be deleted *)

Lemma uses_holder b p : p ≠ 0 → uses b p = 0 → ¬ holder b p.
Proof.
  unfold uses. intros Hp. rewrite (proj2 (Z.eqb_neq p 0)) by done. intros Hu [[Hb _]|(rb & Hb & Hrb)].
  - rewrite (proj2 (Z.eqb_eq _ _) Hb) in Hu. destruct b.2; [destruct (_ =? _)|]; lia.
  - rewrite Hb, (proj2 (Z.eqb_eq _ _) Hrb) in Hu. destruct (_ =? _); lia.
Qed.

(** Two dataspaces are the same by their addresses or by their identifiers. *)
Lemma same_dspace D W ext s p q d d' :
  refs_ok D W ext s → ps_dspaces s !! p = Some d → ps_dspaces s !! q = Some d' →
  (p =? q) || (rds_ID d =? rds_ID d') = (p =? q).
Proof.
  intros H Hp Hq. destruct (Z.eqb_spec p q) as [|Hne]; [done|]. cbn. apply Z.eqb_neq.
  intros Hid. by apply Hne, (refs_ok_id D W ext s p q d d').
Qed.

(** What letting go of the dataspace [p] keeps. *)
Definition let_go (D W : gmap Z Z) (p pid : Z) (s s' : procserv) : Prop :=
  server_ok D W s' ∧ ps_windows s' = ps_windows s ∧
  ∃ b, views s' = <[pid := b]> (views s) ∧ uses b p = 0.

Lemma dspace_delete_callback_rep D W s pid q p id :
  server_ok D W s → pcbs s !! pid = Some q → D !! id = Some p →
  runs (proc_dspace_delete_callback p pid) s (λ _ s', let_go D W p pid s s').
Proof.
  intros H Hq HD. pose proof (so_refs D W s H) as Hr.
  destruct (table_dspace D W _ s _ _ Hr HD) as (d & Hd & _ & Hp0).
  assert (views s !! pid = Some (buffers q)) as Hvq by (unfold views; by rewrite lookup_fmap, Hq).
  unfold proc_dspace_delete_callback. eapply runs_bind_Ok; [by apply getPcb_Ok|]. rstep.
  apply runs_bind, runs_mono with (λ _ s1, ∃ x, rebuffered D W pid (x, notificationBuffer q) s s1 ∧ x ≠ p).
  { apply runs_when; intros Hz.
    - apply negb_true_iff, Z.eqb_neq in Hz. destruct (so_held D W s H pid _ (paramBuffer q) Hvq) as [i HDi].
      { left. by split. }
      destruct (table_dspace D W _ s _ _ Hr HDi) as (d' & Hd' & _ & _). rstep.
      rewrite (same_dspace D W _ s _ _ d' d Hr Hd' Hd). destruct (Z.eqb_spec (paramBuffer q) p) as [He|He]; cbn [kwhen].
      + eapply runs_mono; [apply (proc_set_parambuffer_rep D W s pid q 0); by auto|]. cbv beta. intros _ s1 Hs1.
        exists 0. split; [done|lia].
      + apply runs_ret. exists (paramBuffer q). split; [|done]. split_and!; [done| |done|by exists q].
        by rewrite insert_id.
    - apply negb_false_iff, Z.eqb_eq in Hz. exists (paramBuffer q). split; [|lia]. split_and!; [done| |done|by exists q].
      by rewrite insert_id. }
  intros _ s1 (x & (H1 & Hv1 & Hw1 & q1 & Hq1 & Hb1) & Hx). unfold buffers in Hb1. injection Hb1 as Hz1 Hn1.
  assert (∀ nb, match nb with Some rb => rb_dataspace rb ≠ p | None => True end → uses (x, nb) p = 0) as Hno.
  { intros nb Hnb. unfold uses. cbn. rewrite (proj2 (Z.eqb_neq p 0)), (proj2 (Z.eqb_neq x p)) by done.
    destruct nb as [rb|]; [|done]. by rewrite (proj2 (Z.eqb_neq _ _)). }
  destruct (notificationBuffer q) as [rb|] eqn:Hn.
  2:{ apply runs_ret. split_and!; [done..|]. eexists. split; [done|]. by apply Hno. }
  pose proof (so_refs D W s1 H1) as Hr1. destruct (table_dspace D W _ s1 _ _ Hr1 HD) as (d1 & Hd1 & Hi1 & _).
  destruct (so_held D W s H pid _ (rb_dataspace rb) Hvq) as [i HDi].
  { right. exists rb. by rewrite <- Hn. }
  destruct (table_dspace D W _ s1 _ _ Hr1 HDi) as (d' & Hd' & Hi' & _). rstep.
  assert (rds_ID d = rds_ID d1) as ->.
  { destruct (table_dspace D W _ s _ _ Hr HD) as (d2 & Hd2 & Hi2 & _). congruence. }
  rewrite (same_dspace D W _ s1 _ _ d' d1 Hr1 Hd' Hd1).
  destruct (Z.eqb_spec (rb_dataspace rb) p) as [He|He]; cbn [kwhen].
  - eapply runs_mono; [apply (drop_notificationBuffer_rep D W s1 pid q1 H1 Hq1)|]. cbv beta.
    intros _ s2 (H2 & Hv2 & Hw2 & _). split_and!; [done|congruence|]. eexists.
    split; [by rewrite Hv2, Hv1, insert_insert_eq|]. rewrite Hz1. by apply Hno.
  - apply runs_ret. split_and!; [done..|]. eexists. split; [done|]. by apply Hno.
Qed.
End Server.
