(* ===== verification/HandlersTheorems.v ===== *)
(** * The system calls keep the references exact

    Whatever processes ask of the server about dataspaces, windows that show
    them, pagers and buffers, no assertion about the references fails, and the
    count of a dataspace is one for its creation and one for every window and
    every buffer that has it. *)

From S2P Require Import Prelude.
From S2P Require Import Word32.
From S2P Require Import DataStruct.
From S2P Require Import WindowAssoc.
From S2P Require Import WindowInv.
From S2P Require Import Procserv.
From S2P Require Import Dataspace.
From S2P Require Import Memserv.
From S2P Require Import MemservInv.
From S2P Require Import DataspaceTheorems.
From S2P Require Import MemservTheorems.
From S2P Require Import RingBuffer.
From S2P Require Import AddrSpace.
From S2P Require Import Process.
From S2P Require Import Proc.
From S2P Require Import Handlers.
From S2P Require Import HandlersInv.

(** ** Single requests *)
Section Requests.
Context {E : Env}.

(** The state is still that of the server, with the same processes. *)
Definition still_ok (D W : gmap Z Z) (s s' : procserv) : Prop :=
  server_ok D W s' ∧ dom (views s') = dom (views s).
Definition serves {A} (m : P A) (s : procserv) : Prop :=
  runs m s (λ _ s', ∃ D W, still_ok D W s s').

Lemma serves_ret {A} D W s (a : A) : server_ok D W s → serves (kret a) s.
Proof. intros H. apply runs_ret. by exists D, W. Qed.
Lemma serves_bind {A B} s (m : P A) (k : A → P B) s1 a :
  m s = Ok a s1 → dom (views s1) = dom (views s) → serves (k a) s1 → serves (kbind m k) s.
Proof.
  intros Hm Hv Hk. unfold serves. eapply runs_bind_Ok; [exact Hm|]. eapply runs_mono; [exact Hk|]. cbv beta.
  intros b s' (D & W & H & Hd). exists D, W. split; [done|congruence].
Qed.
Lemma serves_read {A B} s (m : P A) (k : A → P B) a : m s = Ok a s → serves (k a) s → serves (kbind m k) s.
Proof. intros Hm. by apply (serves_bind s m k s). Qed.
Lemma serves_then {A B} D W s (m : P A) (b : B) :
  runs m s (λ _ s', server_ok D W s' ∧ views s' = views s) → serves (m ;;; kret b) s.
Proof.
  intros Hm. unfold serves. apply runs_bind. eapply runs_mono; [exact Hm|]. cbv beta. intros _ s' [H Hv].
  apply runs_ret. exists D, W. split; [done|congruence].
Qed.
Lemma rebuffered_still D W pid b s s' : is_Some (pcbs s !! pid) → rebuffered D W pid b s s' → still_ok D W s s'.
Proof.
  intros [q Hq] (H & Hv & _). split; [done|]. rewrite Hv, dom_insert_lookup_L; [done|].
  unfold views. rewrite lookup_fmap, Hq. by eexists.
Qed.

(** The objects of the badges. *)
Lemma dspace_get_any D W ext s id :
  refs_ok D W ext s → ram_dspace_get id s = Ok (default 0 (D !! id)) s.
Proof.
  intros H. unfold ram_dspace_get. assert (max_objects = 8192) as Hmax by done.
  assert (RAM_DATASPACE_MAX_NUM_DATASPACE = 8192) as Hm by done. assert (RAM_DATASPACE_INVALID_ID = 0) as Hi by done.
  destruct (Z.leb_spec id RAM_DATASPACE_INVALID_ID) as [H1|H1]; cbn [orb];
    [|destruct (Z.leb_spec RAM_DATASPACE_MAX_NUM_DATASPACE id) as [H2|H2]].
  1,2: destruct (D !! id) as [p|] eqn:Hp; [|done];
    destruct (ct_objects _ _ (rf_dtable D W ext s H) _ _ Hp); lia.
  apply table_get_Ok; [apply H|lia].
Qed.
Lemma dspace_of_badge_Ok D W ext s badge :
  refs_ok D W ext s → ∃ p, dspace_of_badge badge s = Ok p s ∧ (p = 0 ∨ ∃ id, D !! id = Some p).
Proof.
  intros H. unfold dspace_of_badge. destruct (dispatcher_badge_dspace badge); [|exists 0; auto].
  unfold ram_dspace_get_badge. rewrite (dspace_get_any D W ext) by done. eexists. split; [done|].
  destruct (D !! _) as [p|] eqn:Hp; [right; by eexists|by left].
Qed.
Lemma window_of_badge_Ok D W ext s badge :
  refs_ok D W ext s → ∃ w, window_of_badge badge s = Ok w s ∧ (w = 0 ∨ ∃ win, ps_windows s !! w = Some win).
Proof.
  intros H. unfold window_of_badge. rewrite (w_get_window_Ok D W ext) by done. eexists. split; [done|].
  destruct (W !! _) as [w|] eqn:Hw; [right|by left].
  apply (rf_window D W ext s H) in Hw as (win & Hw & _). by exists win.
Qed.
End Requests.

(** [serve] follows a handler through its checks of the message and of the
    badges; what it leaves is the request itself. *)
Ltac serve H :=
  repeat match goal with
  | |- serves (if ?b then _ else _) _ => destruct b; [eapply serves_ret; exact H|]
  | |- serves (kbind (dspace_of_badge ?b) _) ?s =>
      let p := fresh "p" in let E := fresh in let Hp := fresh "Hp" in
      destruct (dspace_of_badge_Ok _ _ _ s b (so_refs _ _ _ H)) as (p & E & Hp);
      apply (serves_read s _ _ _ E); clear E; cbv beta;
      destruct (Z.eqb_spec p 0); [eapply serves_ret; exact H|];
      destruct Hp as [Hp|Hp]; [done|]
  | |- serves (kbind (window_of_badge ?b) _) ?s =>
      let p := fresh "w" in let E := fresh in let Hp := fresh "Hw" in
      destruct (window_of_badge_Ok _ _ _ s b (so_refs _ _ _ H)) as (p & E & Hp);
      apply (serves_read s _ _ _ E); clear E; cbv beta;
      destruct (Z.eqb_spec p 0); [eapply serves_ret; exact H|];
      destruct Hp as [Hp|Hp]; [done|]
  end.

Section Handle.
Context {E : Env} (Hqsort : ∀ l, qsort l ≡ₚ l).
Context (Hmalloc : ∀ n, 0 < n ≤ 8 * table_lim → malloc_ok n = true).

Lemma references_1 s p : 1 ≤ references s p.
Proof using Type. unfold references. pose proof (users_nonneg (views s) p). lia. Qed.

Lemma get_size_serves D W s pid m fd : server_ok D W s → serves (data_get_size_handler pid m fd) s.
Proof using Type.
  intros H. unfold data_get_size_handler. serve H. destruct Hp as [id HD].
  destruct (table_dspace D W _ s _ _ (so_refs _ _ _ H) HD) as (d & Hd & _).
  apply (serves_read s _ _ d); [by apply getDspace_Ok|]. by eapply serves_ret.
Qed.

Lemma datamap_serves D W s pid m fd win off : server_ok D W s → serves (data_datamap_handler pid m fd win off) s.
Proof using Hqsort.
  intros H. unfold data_datamap_handler. serve H. destruct Hp as [id HD], Hw as [w1 Hw].
  destruct (table_dspace D W _ s _ _ (so_refs _ _ _ H) HD) as (d & Hd & _).
  apply (serves_read s _ _ d); [by apply getDspace_Ok|]. serve H.
  apply (serves_then D W), server_keep with W; [done|auto with kernel|].
  eapply runs_mono; [apply (set_anon_rep Hqsort D W (references s) s w w1 p off)|]; try done.
  - by apply H.
  - intros _. apply references_1.
  - apply references_1.
  - intros. by eapply server_refs_few.
  - cbv beta. by intros _ s' [? _].
Qed.

Lemma dataunmap_serves D W s pid m win : server_ok D W s → serves (data_dataunmap_handler pid m win) s.
Proof using Hqsort.
  intros H. unfold data_dataunmap_handler. serve H. destruct Hw as [w1 Hw].
  apply (serves_read s _ _ w1); [by apply getWindow_Ok|]. destruct (w_mode w1); try by eapply serves_ret.
  apply (serves_then D W), server_keep with W; [done|auto with kernel|]. unfold w_set_anon_dspace. cbn [Z.eqb].
  eapply runs_mono; [apply (switch_mode_rep Hqsort D W (references s) s w w1)|]; try done.
  - by apply H.
  - intros _. apply references_1.
  - cbv beta. by intros _ s' [? _].
Qed.

Lemma pager_keeps D W s win ep wpid w1 :
  server_ok D W s → ps_windows s !! win = Some w1 →
  runs (w_set_pager_endpoint win ep wpid) s
    (λ _ s', server_ok D W s' ∧ views s' = views s ∧ is_Some (ps_windows s' !! win)).
Proof using Hqsort.
  intros [Hr Hh Hp] Hw. eapply runs_mono; [apply keeps_runs; [auto with kernel|];
    apply (set_pager_rep Hqsort D W (references s) s win w1 ep wpid Hr Hw); intros _; apply references_1|].
  cbv beta. intros _ s' [(H' & w' & Hws & _) Hv]. split_and!; [|done|rewrite Hws, lookup_insert_eq; by eexists].
  split; rewrite ?Hv; try done. unfold references. by rewrite Hv.
Qed.

Lemma unregister_serves D W s pid m win : server_ok D W s → serves (proc_unregister_as_pager_handler pid m win) s.
Proof using Hqsort.
  intros H. unfold proc_unregister_as_pager_handler. serve H. destruct Hw as [w1 Hw].
  apply (serves_then D W). eapply runs_mono; [by apply (pager_keeps D W s w 0 PID_NULL w1)|].
  cbv beta. by intros _ s' (? & ? & _).
Qed.

Lemma server_ok_env D W s e : server_ok D W s → server_ok D W (upd_ps_env e s).
Proof using Type. intros [Hr Hh Hp]. split; [by apply refs_ok_env|done..]. Qed.

Lemma set_parambuffer_serves D W s pid m ds size :
  server_ok D W s → is_Some (pcbs s !! pid) → serves (proc_set_parambuffer_handler pid m ds size) s.
Proof using Type.
  intros H [q Hq]. unfold proc_set_parambuffer_handler.
  assert (∀ p, p = 0 ∨ (∃ id, D !! id = Some p) → serves (proc_set_parambuffer pid p ;;; kret ESUCCESS) s) as Hset.
  { intros p Hp. unfold serves. apply runs_bind.
    eapply runs_mono; [by apply (proc_set_parambuffer_rep D W s pid q p)|]. cbv beta. intros _ s' Hs'.
    apply runs_ret. exists D, W. by eapply rebuffered_still. }
  destruct (_ && _); [apply Hset; by left|]. destruct (negb _); [by eapply serves_ret|].
  destruct (dispatcher_badge_dspace ds) eqn:Hb; cbn [negb]; [|by eapply serves_ret].
  destruct (dspace_of_badge_Ok D W _ s ds (so_refs _ _ _ H)) as (p & Hget & Hp).
  unfold dspace_of_badge in Hget. rewrite Hb in Hget. apply (serves_read s _ _ p Hget).
  destruct (Z.eqb_spec p 0); [by eapply serves_ret|]. by apply Hset.
Qed.

Lemma notification_buffer_serves D W s pid m ds :
  server_ok D W s → is_Some (pcbs s !! pid) → serves (proc_notification_buffer_handler pid m ds) s.
Proof using Type.
  intros H [q Hq]. unfold proc_notification_buffer_handler. serve H.
  eapply runs_mono; [by apply (set_notificationbuffer_rep D W s pid q p)|]. cbv beta. intros e s' [nb Hs'].
  exists D, W. by eapply rebuffered_still.
Qed.

(** ** Closing a dataspace *)

(** The processes when those of [xs] are still to let go of the dataspace. *)
Record letting_go (D W : gmap Z Z) (p : Z) (s : procserv) (xs : list Z) (s' : procserv) : Prop := {
  lg_server : server_ok D W s';
  lg_windows : ps_windows s' = ps_windows s;
  lg_processes : dom (views s') = dom (views s);
  lg_users k b : views s' !! k = Some b → k ∈ xs ∨ uses b p = 0;
  lg_range x : x ∈ xs → PID_START ≤ x < PID_MAX
}.

Lemma pid_iterate_rep D W s p id :
  server_ok D W s → D !! id = Some p →
  runs (pid_iterate (proc_dspace_delete_callback p)) s (λ _ s', letting_go D W p s [] s').
Proof using Type.
  intros H HD. unfold pid_iterate. apply (runs_kfor (letting_go D W p s)).
  { split; try done.
    - intros k b Hk. left. apply elem_of_seqZ. pose proof (so_pids D W s H k ltac:(by eexists)). lia.
    - intros x. rewrite elem_of_seqZ. lia. }
  intros i xs s1 [H1 Hw1 Hd1 Hu1 Hx1]. pose proof (Hx1 i ltac:(left)) as Hi.
  assert (pid_get_pcb i s1 = Ok (pcbs s1 !! i) s1) as Hget.
  { unfold pid_get_pcb. by rewrite (proj2 (Z.ltb_ge _ _)), (proj2 (Z.leb_gt _ _)) by lia. }
  eapply runs_bind_Ok; [exact Hget|].
  assert (∀ k, k ∈ i :: xs → k = i ∨ k ∈ xs) as Hcons by (intros k ?%elem_of_cons; done).
  destruct (pcbs s1 !! i) as [q|] eqn:Hq.
  - eapply runs_mono; [by apply (dspace_delete_callback_rep D W s1 i q p id)|]. cbv beta.
    intros _ s2 (H2 & Hw2 & b & Hv2 & Hb). split; [done|congruence|..].
    + rewrite Hv2, <- Hd1. apply dom_insert_lookup_L. unfold views. rewrite lookup_fmap, Hq. by eexists.
    + intros k b'. rewrite Hv2. intros [[<- <-]|[Hne Hk]]%lookup_insert_Some; [by right|].
      destruct (Hu1 k b' Hk) as [[?|?]%Hcons|?]; [done|by left|by right].
    + intros x Hx. apply Hx1. by right.
  - apply runs_ret. split; try done.
    + intros k b Hk. destruct (Hu1 k b Hk) as [[->|?]%Hcons|?]; [|by left|by right].
      unfold views in Hk. by rewrite lookup_fmap, Hq in Hk.
    + intros x Hx. apply Hx1. by right.
Qed.

(** The references to dataspaces that are not there do not matter. *)
Lemma refs_ok_agree D W ext ext' s :
  (∀ p, is_Some (ps_dspaces s !! p) → ext p = ext' p) → refs_ok D W ext s → refs_ok D W ext' s.
Proof using Type.
  intros He [? ? ? ? ? ? ? H ?]. split; try done. intros p d Hp. rewrite <- He by (by eexists). by apply H.
Qed.

Lemma unref_unused D W s p d :
  server_ok D W s → ps_dspaces s !! p = Some d → shows (ps_windows s) p = 0 → users (views s) p = 0 →
  runs (ram_dspace_unref (rds_ID d)) s (λ _ s', still_ok (delete (rds_ID d) D) W s s').
Proof using Hmalloc.
  intros [Hr Hh Hpid] Hd Hs Hu. destruct (rf_count _ _ _ _ Hr p d Hd) as (Hc & _ & _).
  unfold references in Hc.
  assert (D !! rds_ID d = Some p) as HD by (apply (rf_dspace _ _ _ _ Hr); by exists d).
  destruct (ct_objects _ _ (rf_dtable _ _ _ _ Hr) _ _ HD) as [_ Hp0].
  eapply runs_mono; [apply (unref_last Hmalloc D W _ s p d Hr Hd); lia|]. cbv beta.
  intros _ s' (H' & Hds & Hws & Hpc). assert (views s' = views s) as Hv by (unfold views; congruence).
  split; [|congruence]. split; rewrite ?Hv; try done.
  - eapply refs_ok_agree; [|exact H']. intros r. rewrite Hds. intros [Hne _]%lookup_delete_is_Some.
    unfold ext_set, references. rewrite Hv. by rewrite (proj2 (Z.eqb_neq r p)) by done.
  - intros pid b r Hb Hhb. destruct (Hh pid b r Hb Hhb) as [id Hid]. exists id.
    rewrite lookup_delete_ne; [done|]. intros <-. assert (r = p) as -> by congruence.
    refine (uses_holder b p Hp0 _ Hhb). pose proof (users_in _ _ _ p Hb). pose proof (uses_range b p). lia.
Qed.

Lemma close_rep D W s pid m fd p id :
  server_ok D W s → check_dispatch_caps m 1 1 = true → dspace_of_badge fd s = Ok p s → D !! id = Some p →
  runs (data_close_handler pid m fd) s (λ e s', e = ESUCCESS ∧ still_ok (delete id D) W s s').
Proof using Hqsort Hmalloc.
  intros H Hcaps Hget HD.
  destruct (table_dspace D W _ s _ _ (so_refs _ _ _ H) HD) as (d & Hd & Hid & Hp0).
  unfold data_close_handler. rewrite Hcaps. cbn [negb]. eapply runs_bind_Ok; [exact Hget|].
  rewrite (proj2 (Z.eqb_neq p 0)) by done.
  apply runs_bind. eapply runs_mono; [apply keeps_runs; [apply keeps_w_purge_dspace|];
    apply (purge_rep Hqsort D W (references s) s p d); [apply H|done|apply references_1]|].
  cbv beta. intros _ s1 [([Hr1 _ _ _ _] & Hs1 & Hd1) Hv1].
  assert (server_ok D W s1) as H1.
  { destruct H as [Hr Hh Hp]. split; rewrite ?Hv1; try done. unfold references. by rewrite Hv1. }
  apply runs_bind. eapply runs_mono; [by apply (pid_iterate_rep D W s1 p id)|]. cbv beta.
  intros _ s2 [H2 Hw2 Hdom Hu2 _].
  destruct (table_dspace D W _ s2 _ _ (so_refs _ _ _ H2) HD) as (d2 & Hd2 & Hid2 & _). rstep.
  apply runs_bind. eapply runs_mono; [apply (unref_unused D W s2 p d2 H2 Hd2); [congruence|]|].
  - apply users_none. intros k b Hk. destruct (Hu2 k b Hk) as [?%not_elem_of_nil|?]; done.
  - cbv beta. rewrite Hid2. intros _ s3 [H3 Hdom3]. apply runs_ret. split; [done|]. split; [done|congruence].
Qed.

Lemma close_serves D W s pid m fd : server_ok D W s → serves (data_close_handler pid m fd) s.
Proof using Hqsort Hmalloc.
  intros H. destruct (check_dispatch_caps m 1 1) eqn:Hcaps.
  2:{ unfold data_close_handler. rewrite Hcaps. by eapply serves_ret. }
  destruct (dspace_of_badge_Ok D W _ s fd (so_refs _ _ _ H)) as (p & Hget & Hp).
  destruct Hp as [->|[id HD]].
  - unfold data_close_handler. rewrite Hcaps. by eapply serves_read; [exact Hget|eapply serves_ret].
  - eapply runs_mono; [by apply (close_rep D W s pid m fd p id)|]. cbv beta. intros e s' [_ H']. by eexists _, W.
Qed.

(** ** Content of other processes *)

Lemma refs_ok_dspace D W ext s p d d' :
  refs_ok D W ext s → ps_dspaces s !! p = Some d → rds_ID d' = rds_ID d → rds_ref d' = rds_ref d →
  deletable d' → refs_ok D W ext (upd_ps_dspaces (<[p := d']> (ps_dspaces s)) s).
Proof using Type.
  intros [H1 H2 H3 H4 H5 H6 H7 H8 H9] Hp Hid Href Hdel. split; cbn; try done.
  - intros id q. rewrite H3. destruct (decide (q = p)) as [->|Hne].
    + rewrite lookup_insert_eq, Hp. split; intros (? & [= <-] & ?); eexists; (split; [done|congruence]).
    + by rewrite lookup_insert_ne.
  - intros q d0 [[<- <-]|[_ Hq]]%lookup_insert_Some; [done|by eapply H5].
  - intros w win Hw Hz. rewrite lookup_insert_is_Some. destruct (H6 w win Hw Hz) as [x Hx].
    destruct (decide (p = w_ramDataspace win)); [by left|right; split; [done|by exists x]].
  - intros q d0 [[<- <-]|[_ Hq]]%lookup_insert_Some; [rewrite Href; by apply H8|by apply H8].
Qed.

(** Without an endpoint the content of the dataspace is the server's again. *)
Lemma content_unset D W ext s p d :
  refs_ok D W ext s → ps_dspaces s !! p = Some d →
  runs (ram_dspace_content_init p 0 PID_NULL) s (λ _ s', refs_ok D W ext s').
Proof using Type.
  intros H Hp. pose proof (rf_deletable _ _ _ _ H p d Hp) as [Hc Hci Hw Hpg].
  unfold ram_dspace_content_init. rstep. destruct (physicalAddrEnabled d); [by apply runs_ret|].
  rstep. set (s1 := upd_ps_dspaces _ s). assert (ps_dspaces s1 !! p = Some (rds_set_bitmask [] d)) as Hp1 by apply lookup_insert_eq.
  apply runs_bind, runs_mono with (λ _ s2, ∃ e d2, s2 = upd_ps_env e (upd_ps_dspaces (<[p := d2]> (ps_dspaces s)) s) ∧
    rds_ID d2 = rds_ID d ∧ rds_ref d2 = rds_ref d ∧ rds_capability d2 ≠ 0 ∧ rds_pages d2 = rds_pages d ∧
    rds_npages d2 = rds_npages d ∧ contentInitWaitingList d2 = contentInitWaitingList d).
  { apply runs_when; intros Hen.
    - apply runs_bind, runs_assert; [by apply negb_true_iff, Z.eqb_neq, Hci|].
      destruct (env_only_release (contentInitEP d) s1) as [e He]. eapply runs_bind_Ok; [exact He|].
      eapply runs_Ok; [by apply updDspace_Ok|]. eexists e, _. cbn. rewrite insert_insert_eq. by split_and!.
    - exists (ps_env s), (rds_set_bitmask [] d). split; [by destruct s|]. by split_and!. }
  intros _ s2 (e & d2 & -> & Hid & Href & Hc2 & Hpg2 & Hn2 & Hw2).
  cbn [Z.eqb]. eapply runs_bind_Ok; [apply updDspace_Ok, lookup_insert_eq|]. apply runs_ret. cbn.
  rewrite insert_insert_eq.
  refine (refs_ok_env D W ext (upd_ps_dspaces
    (<[p := rds_set_content_init false (contentInitEP d2) PID_NULL d2]> (ps_dspaces s)) s) e _).
  apply refs_ok_dspace with d; try done. split; cbn; [done|done|by rewrite Hw2|by rewrite Hpg2, Hn2].
Qed.
Lemma keeps_content_init p ep pid : keeps (ram_dspace_content_init p ep pid).
Proof using Type. unfold ram_dspace_content_init, clear_waiting_list. keeps. apply keeps_release_waiters. Qed.

Lemma unhave_data_serves D W s pid m fd : server_ok D W s → serves (data_unhave_data_handler pid m fd) s.
Proof using Type.
  intros H. unfold data_unhave_data_handler. apply runs_bind.
  eapply runs_mono with (λ _ s', ∃ D W, still_ok D W s s').
  2:{ cbv beta. intros [? ?] s' Hs'. by apply runs_ret. }
  change (serves (data_have_data_handler pid m fd 0) s). unfold data_have_data_handler. serve H.
  destruct Hp as [id HD]. destruct (table_dspace D W _ s _ _ (so_refs _ _ _ H) HD) as (d & Hd & _). cbn [Z.eqb].
  unfold serves. apply runs_bind. eapply runs_mono; [apply (server_keep D W W _ s H); [apply keeps_content_init|]|].
  - apply (content_unset D W _ s p d); [apply H|done].
  - cbv beta. intros x s' [H' Hv]. apply runs_ret. exists D, W. split; [done|congruence].
Qed.

(** ** Pagers *)

(** The kernel copies a capability to a free slot of the server. *)
Context (Hcopy : ∀ slot c e, (vka_cnode_copy slot c e).1 = true).

Lemma copyout_env c s : runs (dispatcher_copyout_cptr c) s (λ _ s', ∃ e, s' = upd_ps_env e s).
Proof using Hcopy.
  unfold dispatcher_copyout_cptr. destruct (vka_cspace_alloc_path (ps_env s)) as [[slot|] e] eqn:Ha;
    (eapply runs_bind_Ok; [by apply call_Ok|]); cbv beta iota; [|apply runs_ret; by exists e].
  destruct (slot =? 0); [apply runs_ret; by exists e|].
  set (s1 := upd_ps_env e s). destruct (vka_cnode_copy slot c (ps_env s1)) as [b e'] eqn:Hc.
  eapply runs_bind_Ok; [by apply call_Ok|]. pose proof (Hcopy slot c (ps_env s1)) as Hb. rewrite Hc in Hb.
  apply runs_bind, runs_assert; [exact Hb|]. apply runs_ret. by exists e'.
Qed.

Lemma register_serves D W s pid m win ep :
  server_ok D W s → is_Some (pcbs s !! pid) → serves (proc_register_as_pager_handler pid m win ep) s.
Proof using Hqsort Hcopy.
  intros H [q Hq]. unfold proc_register_as_pager_handler. serve H. destruct Hw as [w1 Hw].
  unfold serves. apply runs_bind. eapply runs_mono; [apply copyout_env|]. cbv beta. intros c s1 [e ->].
  pose proof (server_ok_env D W s e H) as H1. destruct (c =? 0); [apply runs_ret; by exists D, W|].
  eapply runs_bind_Ok; [by apply getPcb_Ok|]. apply runs_bind.
  eapply runs_mono; [by apply (pager_keeps D W (upd_ps_env e s) w c (pcb_pid q) w1)|]. cbv beta.
  intros _ s2 (H2 & Hv & w2 & Hw2). rstep. apply runs_ret. exists D, W. split; [done|]. by rewrite Hv.
Qed.
End Handle.

(** ** Sequences of requests *)

(** The requests about dataspaces, the windows that show them, pagers and
    buffers.  Capabilities are the badges that the kernel unwraps. *)
Inductive request : Type :=
| Close (dspace_fd : Z) | GetSize (dspace_fd : Z)
| Datamap (dspace_fd memoryWindow offset : Z) | Dataunmap (memoryWindow : Z)
| UnhaveData (dspace_fd : Z)
| RegisterAsPager (window faultNotifyEP : Z) | UnregisterAsPager (window : Z)
| SetParamBuffer (dataspace size : Z) | NotificationBuffer (dataspace : Z).

Definition handle `{E : Env} (pid : Z) (m : procserv_msg) (r : request) : P unit :=
  match r with
  | Close fd => data_close_handler pid m fd ;;; kret tt
  | GetSize fd => data_get_size_handler pid m fd ;;; kret tt
  | Datamap fd w off => data_datamap_handler pid m fd w off ;;; kret tt
  | Dataunmap w => data_dataunmap_handler pid m w ;;; kret tt
  | UnhaveData fd => data_unhave_data_handler pid m fd ;;; kret tt
  | RegisterAsPager w ep => proc_register_as_pager_handler pid m w ep ;;; kret tt
  | UnregisterAsPager w => proc_unregister_as_pager_handler pid m w ;;; kret tt
  | SetParamBuffer d size => proc_set_parambuffer_handler pid m d size ;;; kret tt
  | NotificationBuffer d => proc_notification_buffer_handler pid m d ;;; kret tt
  end.

(** The count of each dataspace is one for its creation, one for each window
    that shows it and one for each buffer of a process that it is. *)
Definition references_exact (s : procserv) : Prop := ∀ p d,
  ps_dspaces s !! p = Some d → rds_ref d = 1 + shows (ps_windows s) p + users (views s) p.
Definition server_inv `{E : Env} (s : procserv) : Prop := ∃ D W, server_ok D W s.

Lemma server_inv_exact `{E : Env} s : server_inv s → references_exact s.
Proof.
  intros (D & W & H) p d Hd. destruct (rf_count _ _ _ _ (so_refs _ _ _ H) p d Hd) as (Hc & _ & _).
  unfold references in Hc. lia.
Qed.

Lemma serves_unit `{E : Env} {A} (m : P A) s : serves m s → serves (m ;;; kret tt) s.
Proof.
  intros Hm. apply runs_bind. eapply runs_mono; [exact Hm|]. cbv beta. intros a s' H. by apply runs_ret.
Qed.


(** Process 3 has dataspace 2 as its parameter buffer, process 4 has no buffer. *)
Definition demo_pcb (pid buffer : Z) : proc_pcb := set_pcb_pid pid (set_paramBuffer buffer zero_pcb).
Definition demo_server : procserv :=
  upd_pcbs {[3 := demo_pcb 3 101; 4 := demo_pcb 4 0]}
    (upd_ps_dspaces (<[101 := demo_dspace 2 1 2]> (ps_dspaces demo_tables)) demo_tables).

Lemma refs_ok_pcbs `{E : Env} D W ext s qs :
  refs_ok D W ext s → (∀ pid q, qs !! pid = Some q → vs_windows (pcb_vspace q) = windowlist [] 0 0 false) →
  refs_ok D W ext (upd_pcbs qs s).
Proof.
  intros [? ? ? ? ? ? ? ? _] Hqs. split; try done. cbn. intros pid q Hq. rewrite (Hqs pid q Hq).
  exists []. split; [done|by exists []].
Qed.
Lemma demo_views : views demo_server = {[3 := (101, None); 4 := (0, None)]}.
Proof. unfold views, demo_server. cbn. by rewrite fmap_insert, map_fmap_singleton. Qed.
Lemma demo_server_inv : server_inv demo_server.
Proof.
  exists {[1 := 100; 2 := 101]}, {[1 := 200]}. split.
  - apply refs_ok_pcbs.
    2:{ cbn. by intros pid q [[<- <-]|[_ [<- <-]%lookup_singleton_Some]]%lookup_insert_Some. }
    eapply refs_ok_ext_eq.
    2:{ apply (refs_ok_ext {[1 := 100; 2 := 101]} {[1 := 200]} (λ _, 1) demo_tables 101
          (demo_dspace 2 1 1) 2 demo_refs); by vm_compute. }
    intros p. unfold ext_set, references. rewrite demo_views.
    rewrite (users_new _ 3), users_singleton by done. unfold uses. cbn [fst snd].
    rewrite (Z.eqb_sym 0), (Z.eqb_sym 101). destruct (Z.eqb_spec p 0) as [->|]; [done|]. by destruct (p =? 101).
  - rewrite demo_views.
    intros pid b p [[<- <-]|[_ [<- <-]%lookup_singleton_Some]]%lookup_insert_Some [[Hb ?]|(? & ? & _)];
      try done; cbn in Hb. subst p. by exists 2.
  - intros pid. rewrite demo_views, lookup_insert_is_Some, lookup_singleton_is_Some.
    intros [<-|[_ <-]]; by vm_compute.
Qed.

(** Process 4 shares dataspace 2 as its notification buffer, dataspace 1 is
    unmapped from window 1 and dataspace 2 shown there, and process 3 closes it. *)
Definition demo_badge (id : Z) : Z := RAM_DATASPACE_BADGE_BASE + id.
Definition demo_requests : list (Z * procserv_msg * request) :=
  [(4, Msg 0 1 1 0, NotificationBuffer (demo_badge 2)); (3, Msg 0 1 1 0, Dataunmap (W_BADGE_BASE + 1));
   (3, Msg 0 3 2 0, Datamap (demo_badge 2) (W_BADGE_BASE + 1) 0);
   (4, Msg 0 1 1 0, SetParamBuffer (demo_badge 1) 4096); (3, Msg 0 1 1 0, Close (demo_badge 2))].
Example demo_requests_run :
  match kfor demo_requests (λ c, handle c.1.1 c.1.2 c.2) demo_server with
  | Ok _ s' => (rds_ref <$> ps_dspaces s' !! 100) = Some 2 ∧ ps_dspaces s' !! 101 = None
  | _ => False
  end.
Proof. by vm_compute. Qed.

(** ** Closing a dataspace *)

(** C3. Functional: closing a dataspace by its capability deletes it, takes it
    from the windows that show it, and takes it from the processes that have it
    as a buffer: nothing refers to it any more. *)
Theorem data_close_leaves_nothing `{E : Env} pid m dspace_fd s p :
  (∀ l, qsort l ≡ₚ l) → (∀ n, 0 < n ≤ 8 * table_lim → malloc_ok n = true) →
  server_inv s → check_dispatch_caps m 1 1 = true → dspace_of_badge dspace_fd s = Ok p s → p ≠ 0 →
  ∃ s', data_close_handler pid m dspace_fd s = Ok ESUCCESS s' ∧ server_inv s' ∧
    ps_dspaces s' !! p = None ∧
    (∀ w win, ps_windows s' !! w = Some win → w_ramDataspace win ≠ p) ∧
    (∀ k q, pcbs s' !! k = Some q → paramBuffer q ≠ p ∧
       ∀ rb, notificationBuffer q = Some rb → rb_dataspace rb ≠ p).
Proof.
  intros Hq Hm (D & W & H) Hcaps Hget Hp.
  destruct (dspace_of_badge_Ok D W _ s dspace_fd (so_refs _ _ _ H)) as (p' & Hget' & Hp').
  assert (p' = p) as -> by congruence. destruct Hp' as [?|[id HD]]; [done|].
  destruct (close_rep Hq Hm D W s pid m dspace_fd p id H Hcaps Hget HD) as (e & s' & Hrun & -> & H' & _).
  exists s'. split; [done|]. split; [by eexists _, W|].
  assert (∀ i, delete id D !! i = Some p → False) as Hgone.
  { intros i [Hne Hi]%lookup_delete_Some. apply Hne.
    apply (rf_dspace _ _ _ _ (so_refs _ _ _ H)) in HD as (d & Hd & <-), Hi as (d' & Hd' & <-). congruence. }
  assert (ps_dspaces s' !! p = None) as Hnone.
  { destruct (ps_dspaces s' !! p) as [d|] eqn:Hd; [|done]. destruct (Hgone (rds_ID d)).
    apply (rf_dspace _ _ _ _ (so_refs _ _ _ H')). by exists d. }
  split_and!; [done|..].
  - intros w win Hw Hwp. destruct (rf_shown _ _ _ _ (so_refs _ _ _ H') w win Hw) as [d Hd]; congruence.
  - intros k q Hk. assert (views s' !! k = Some (buffers q)) as Hv by (unfold views; by rewrite lookup_fmap, Hk).
    split; [intros Hpb|intros rb Hn Hrb];
      (destruct (so_held _ _ _ H' k _ p Hv) as [i Hi]; [|by apply (Hgone i)]).
    + left. by split.
    + right. by exists rb.
Qed.

Lemma data_close_leaves_nothing_witness :
  ∃ s', data_close_handler 3 (Msg 0 1 1 0) (demo_badge 1) demo_server = Ok ESUCCESS s' ∧ server_inv s' ∧
    ps_dspaces s' !! 100 = None ∧
    (∀ w win, ps_windows s' !! w = Some win → w_ramDataspace win ≠ 100) ∧
    (∀ k q, pcbs s' !! k = Some q → paramBuffer q ≠ 100 ∧
       ∀ rb, notificationBuffer q = Some rb → rb_dataspace rb ≠ 100).
Proof.
  apply (@data_close_leaves_nothing numbered 3 (Msg 0 1 1 0) (demo_badge 1) demo_server 100
    (λ l, reflexivity l) (λ _ _, eq_refl) demo_server_inv); by vm_compute.
Defined.

(** ** A request that stops the server *)

(** Error behaviour (a defect): a process that provides more content than
    its parameter buffer has, up to the eight pages of the server's own buffer,
    makes the server fail an assertion. *)
Theorem data_provide_data_past_parambuffer `{E : Env} pid m dspace_fd offset contentSize s p q b :
  check_dispatch_caps m 1 1 = true → dspace_of_badge dspace_fd s = Ok p s → p ≠ 0 →
  pcbs s !! pid = Some q → paramBuffer q ≠ 0 → ps_dspaces s !! paramBuffer q = Some b →
  0 ≤ rds_npages b → rds_npages b * REFOS_PAGE_SIZE < contentSize ≤ PROCSERV_SYSCALL_PARAM_SIZE_MAX →
  data_provide_data_from_parambuffer_handler pid m dspace_fd offset contentSize s = Panic.
Proof.
  intros Hcaps Hget Hp Hq Hz Hb Hn Hsize. assert (PROCSERV_SYSCALL_PARAM_SIZE_MAX = 32768) as Hmax by done.
  assert (REFOS_PAGE_SIZE = 4096) as Hpg by done. unfold data_provide_data_from_parambuffer_handler.
  rewrite Hcaps. cbn [negb]. rewrite (kbind_Ok _ _ _ _ _ Hget), (proj2 (Z.eqb_neq p 0)) by done.
  apply kbind_Panic. unfold dispatcher_read_param. rewrite (kbind_Ok _ _ _ _ _ (getPcb_Ok s pid q Hq)).
  rewrite (proj2 (Z.eqb_neq (paramBuffer q) 0)), (proj2 (Z.ltb_ge _ _)), (proj2 (Z.ltb_lt 0 _)) by lia. cbn [andb].
  assert (ram_dspace_read contentSize (paramBuffer q) 0 s = Ok (EINVALIDPARAM, []) s) as Hread.
  { unfold ram_dspace_read. rewrite (kbind_Ok _ _ _ _ _ (getDspace_Ok s _ b Hb)).
    rewrite w32_id by (unfold is_w32; lia). by rewrite (proj2 (Z.ltb_lt _ _)) by lia. }
  by rewrite (kbind_Ok _ _ _ _ _ Hread).
Qed.

(** Process 3 has one page of parameters and provides two. *)
Lemma data_provide_data_past_parambuffer_witness :
  data_provide_data_from_parambuffer_handler 3 (Msg 0 1 1 0) (demo_badge 1) 0 8192 demo_server = Panic.
Proof.
  apply (@data_provide_data_past_parambuffer numbered 3 (Msg 0 1 1 0) (demo_badge 1) 0 8192 demo_server 100
    (demo_pcb 3 101) (demo_dspace 2 1 2)); by vm_compute.
Defined.
