(* ===== verification/ProcessTheorems.v ===== *)
(** * Watching processes, and the pool of page directories

    The watch list of a process implements a map from the processes it watches
    to the endpoints it is told on; the pool of page directories hands out one
    more than there are. *)

From S2P Require Import Prelude.
From S2P Require Import Word32.
From S2P Require Import DataStruct.
From S2P Require Import DataVec.
From S2P Require Import DataPool.
From S2P Require Import WindowAssoc.
From S2P Require Import Procserv.
From S2P Require Import Dataspace.
From S2P Require Import Memserv.
From S2P Require Import MemservInv.
From S2P Require Import DataspaceTheorems.
From S2P Require Import MemservTheorems.
From S2P Require Import RingBuffer.
From S2P Require Import AddrSpace.
From S2P Require Import Process.
From S2P Require Import Proc.
From S2P Require Import HandlersInv.

(** ** Watch lists *)
Section Watch.
Context {E : Env} (Hmalloc : ∀ n, 0 < n ≤ 8 * table_lim → malloc_ok n = true).

(** The two vectors hold the clients and the endpoints of the map [m]. *)
Record watch_rep (wl : proc_watch_list) (m : gmap Z Z) : Prop := {
  wr_list : ∃ l : list (Z * Z), vrep table_lim (clientList wl) l.*1 ∧
    vrep table_lim (endpointNotifyList wl) l.*2 ∧ NoDup l.*1 ∧ m = list_to_map l;
  wr_range pid ep : m !! pid = Some ep → PID_START ≤ pid < PID_MAX ∧ ep ≠ 0
}.

Lemma watch_find_from n v (l : list Z) pid : ∀ i,
  vrep table_lim v l → 0 ≤ i → Z.of_nat (length l) = i + Z.of_nat n →
  match list_find (λ x, x = pid) (drop (Z.to_nat i) l) with
  | Some (j, _) => watch_find_loop n v i pid = Some (i + Z.of_nat j)
  | None => watch_find_loop n v i pid = Some (-1)
  end.
Proof using Type.
  induction n as [|n IH]; intros i Hv Hi Hl; cbn [watch_find_loop].
  - by rewrite drop_ge by lia.
  - destruct (vrep_lookup table_lim lim_ok v l i Hv) as (x & Hx & ->); [lia|].
    rewrite (drop_S _ x _ Hx). cbn [list_find].
    destruct (Z.eqb_spec x pid) as [->|Hne].
    + rewrite decide_True by done. f_equal. lia.
    + rewrite decide_False by done. specialize (IH (i + 1) Hv ltac:(lia) ltac:(lia)).
      replace (Z.to_nat (i + 1)) with (S (Z.to_nat i)) in IH by lia.
      destruct (list_find _ (drop (S (Z.to_nat i)) l)) as [[j y]|]; cbn; [|done]. rewrite IH. f_equal. lia.
Qed.

Lemma watch_find_spec wl (l : list (Z * Z)) pid :
  vrep table_lim (clientList wl) l.*1 → NoDup l.*1 →
  match (list_to_map l : gmap Z Z) !! pid with
  | Some ep => ∃ i : nat, client_watch_find wl pid = Some (Z.of_nat i) ∧ l !! i = Some (pid, ep)
  | None => client_watch_find wl pid = Some (-1)
  end.
Proof using Type.
  intros Hv Hnd. unfold client_watch_find, cvector_count. rewrite (vr_count _ _ _ Hv), Nat2Z.id.
  pose proof (watch_find_from (length l.*1) (clientList wl) l.*1 pid 0 Hv ltac:(done) eq_refl) as H.
  rewrite drop_0 in H. destruct (list_find _ l.*1) as [[j y]|] eqn:Hf.
  - apply list_find_Some in Hf as (Hj & -> & _). apply list_lookup_fmap_Some in Hj as ([k ep] & Hp & Hk).
    cbn in Hp. subst k. assert ((list_to_map l : gmap Z Z) !! pid = Some ep) as ->.
    { apply elem_of_list_to_map_1; [done|]. by eapply list_elem_of_lookup_2. }
    exists j. split; [exact H|done].
  - apply list_find_None in Hf. assert ((list_to_map l : gmap Z Z) !! pid = None) as ->; [|done].
    apply not_elem_of_list_to_map_1. intros Hin. by eapply Forall_forall in Hf.
Qed.

Lemma watch_few (l : list (Z * Z)) :
  NoDup l.*1 → (∀ pid ep, (list_to_map l : gmap Z Z) !! pid = Some ep → PID_START ≤ pid < PID_MAX ∧ ep ≠ 0) →
  Z.of_nat (length l) < 2048.
Proof using Type.
  intros Hnd Hr. assert (length l.*1 ≤ length (seqZ PID_START (PID_MAX - PID_START)))%nat as Hle.
  { apply submseteq_length, NoDup_submseteq; [done|]. intros k ([k' ep] & -> & Hk)%list_elem_of_fmap.
    apply elem_of_seqZ. pose proof (Hr k' ep). cbn.
    enough (PID_START ≤ k' < PID_MAX) by lia. apply Hr with ep. by apply elem_of_list_to_map_1. }
  rewrite length_fmap, length_seqZ in Hle. change (Z.to_nat (PID_MAX - PID_START)) with 2047%nat in Hle. lia.
Qed.

(** The watch list of the process [owner] is the map [m]. *)
Definition watches (owner : Z) (m : gmap Z Z) (s : procserv) : Prop :=
  ∃ q, pcbs s !! owner = Some q ∧ watch_rep (clientWatchList q) m.

Lemma get_watch_Ok s owner q : pcbs s !! owner = Some q → get_watch owner s = Ok (clientWatchList q) s.
Proof using Type. intros Hq. unfold get_watch. by rewrite (kbind_Ok _ _ _ _ _ (getPcb_Ok s owner q Hq)). Qed.

Lemma set_watch_watches s owner q wl m :
  pcbs s !! owner = Some q → watch_rep wl m →
  runs (set_watch owner wl) s (λ _ s', watches owner m s').
Proof using Type.
  intros Hq Hw. eexists _, _. split; [by apply updPcb_Ok|]. eexists. split; [apply moved_pcb|done].
Qed.

Lemma client_watch_get_rep s owner m pid :
  watches owner m s → client_watch_get owner pid s = Ok (default 0 (m !! pid)) s.
Proof using Type.
  intros (q & Hq & [(l & Hc & He & Hnd & ->) Hr]). unfold client_watch_get.
  rewrite (kbind_Ok _ _ _ _ _ (get_watch_Ok s owner q Hq)). pose proof (watch_find_spec _ l pid Hc Hnd) as Hf.
  destruct (_ !! pid) as [ep|] eqn:Hm.
  - destruct Hf as (i & Hi & Hl). rewrite (kopt_Some _ _ _ _ Hi), (proj2 (Z.eqb_neq _ _)) by lia.
    destruct (vrep_lookup table_lim lim_ok _ _ (Z.of_nat i) He) as (x & Hx & Hget).
    { rewrite length_fmap. apply lookup_lt_Some in Hl. lia. }
    rewrite Nat2Z.id, list_lookup_fmap, Hl in Hx. injection Hx as <-.
    rewrite (kopt_Some _ _ _ _ Hget), kassert_true; [done|].
    apply negb_true_iff, Z.eqb_neq. by apply (Hr pid).
  - by rewrite (kopt_Some _ _ _ _ Hf).
Qed.

Lemma NoDup_delete_1 (l : list (Z * Z)) i pid ep :
  l !! i = Some (pid, ep) → NoDup l.*1 →
  NoDup (delete i l).*1 ∧ (list_to_map (delete i l) : gmap Z Z) = delete pid (list_to_map l).
Proof using Type.
  intros Hl Hnd. pose proof (delete_Permutation l i _ Hl) as Hp.
  assert (NoDup ((pid, ep) :: delete i l).*1) as Hnd2 by (by rewrite <- Hp).
  rewrite (list_to_map_proper l _ Hnd Hp). cbn in Hnd2 |- *. apply NoDup_cons in Hnd2 as [Hnot Hnd2].
  split; [done|]. rewrite delete_insert_id; [done|]. by apply not_elem_of_list_to_map_1.
Qed.

Lemma client_unwatch_rep s owner m pid :
  watches owner m s → runs (client_unwatch owner pid) s (λ _ s', watches owner (delete pid m) s').
Proof using Hmalloc.
  intros (q & Hq & [(l & Hc & He & Hnd & ->) Hr]). unfold client_unwatch.
  eapply runs_bind_Ok; [by apply get_watch_Ok|]. pose proof (watch_find_spec _ l pid Hc Hnd) as Hf.
  destruct (_ !! pid) as [ep|] eqn:Hm.
  2:{ eapply runs_bind_Ok; [by apply runs_opt_Ok|]. apply runs_ret. exists q. rewrite delete_id by done.
      split; [done|]. split; [by exists l|done]. }
  destruct Hf as (i & Hi & Hl). rstep. rewrite (proj2 (Z.eqb_neq _ _)) by lia.
  pose proof (lookup_lt_Some _ _ _ Hl) as Hlen.
  destruct (vrep_lookup table_lim lim_ok _ _ (Z.of_nat i) He) as (x & Hx & Hget); [rewrite length_fmap; lia|].
  rewrite Nat2Z.id, list_lookup_fmap, Hl in Hx. injection Hx as <-. rstep.
  unfold client_watch_free_ep_cslot.
  destruct (env_only_release ep s) as [e Hrel].
  eapply runs_bind_Ok; [rewrite kassert_true; [exact Hrel|]; apply negb_true_iff, Z.eqb_neq; by apply (Hr pid)|].
  destruct (cvector_delete_spec malloc_ok table_lim lim_ok Hmalloc _ _ (Z.of_nat i) He) as (v1 & Hd1 & Hv1);
    [rewrite length_fmap; lia|].
  destruct (cvector_delete_spec malloc_ok table_lim lim_ok Hmalloc _ _ (Z.of_nat i) Hc) as (v2 & Hd2 & Hv2);
    [rewrite length_fmap; lia|].
  do 2 rstep. rewrite Nat2Z.id, <- list_fmap_delete in Hv1, Hv2.
  destruct (NoDup_delete_1 l i pid ep Hl Hnd) as [Hnd' Hmap].
  apply (set_watch_watches _ owner q); [done|]. split.
  - exists (delete i l). by rewrite Hmap.
  - intros k ep'. rewrite lookup_delete_Some. intros [_ Hk]. by eapply Hr.
Qed.

Lemma client_watch_rep s owner m pid ep :
  watches owner m s → PID_START ≤ pid < PID_MAX →
  runs (client_watch owner pid ep) s (λ e s',
    (ep = 0 ∧ e = EINVALIDPARAM ∧ watches owner m s') ∨ (ep ≠ 0 ∧ e = ESUCCESS ∧ watches owner (<[pid := ep]> m) s')).
Proof using Hmalloc.
  intros Hw Hpid. unfold client_watch. destruct (Z.eqb_spec ep 0) as [|Hep]; [apply runs_ret; by left|].
  rewrite Hmalloc by (by vm_compute). cbn [negb]. pose proof Hw as (q & Hq & [(l & Hc & He & Hnd & Hm) Hr]).
  eapply runs_bind_Ok; [by apply get_watch_Ok|]. pose proof (watch_find_spec _ l pid Hc Hnd) as Hf.
  assert (∃ i, client_watch_find (clientWatchList q) pid = Some i ∧ (i = -1 → m !! pid = None)) as (i & Hi & Hnone).
  { rewrite Hm. destruct (_ !! pid); [destruct Hf as (i & Hi & _); eexists; split; [done|lia]|by eexists]. }
  rstep. apply runs_bind, runs_mono with (λ _ s1, watches owner (delete pid m) s1).
  { apply runs_when; [intros _; by apply client_unwatch_rep|]. intros Hi1%negb_false_iff%Z.eqb_eq.
    by rewrite delete_id by auto. }
  clear dependent l q i. intros _ s1 (q & Hq & [(l & Hc & He & Hnd & Hm) Hr2]).
  eapply runs_bind_Ok; [by apply get_watch_Ok|].
  assert (Z.of_nat (length l) < 2048) as Hfew by (apply watch_few; [done|]; intros k e; rewrite <- Hm; apply Hr2).
  assert (NoDup (l ++ [(pid, ep)]).*1) as Hnd2.
  { rewrite fmap_app. apply NoDup_app. split; [done|]. split; [|apply NoDup_singleton].
    intros k Hk Hk'. assert (k = pid) as -> by (apply list_elem_of_singleton in Hk'; done).
    assert (delete pid m !! pid = None) as Hno by apply lookup_delete_eq. rewrite Hm in Hno.
    by apply not_elem_of_list_to_map_2 in Hno. }
  destruct (cvector_add_spec malloc_ok table_lim lim_ok Hmalloc _ _ pid Hc) as (v1 & Hd1 & Hv1);
    [rewrite length_fmap; unfold table_lim; lia|].
  destruct (cvector_add_spec malloc_ok table_lim lim_ok Hmalloc _ _ ep He) as (v2 & Hd2 & Hv2);
    [rewrite length_fmap; unfold table_lim; lia|].
  rstep. rstep. apply runs_bind. eapply runs_mono.
  { apply (set_watch_watches s1 owner q _ (<[pid := ep]> m) Hq). split.
    - exists (l ++ [(pid, ep)]). split; [by rewrite fmap_app|]. split; [by rewrite fmap_app|]. split; [done|].
      rewrite (list_to_map_proper _ ((pid, ep) :: l) Hnd2) by (by rewrite Permutation_app_comm).
      cbn. by rewrite <- Hm, insert_delete_eq.
    - intros k e. rewrite lookup_insert_Some. intros [[<- <-]|[_ Hk]]; [done|by apply (Hr k)]. }
  cbv beta. intros _ s2 Hs2. apply runs_bind, runs_assert; [|by apply runs_ret; right].
  unfold cvector_count. rewrite (vr_count _ _ _ Hv1), (vr_count _ _ _ Hv2), !length_app, !length_fmap. by apply Z.eqb_eq.
Qed.

(** What a process asks of its watch list. *)
Inductive watch_op : Type := Watch (pid ep : Z) | Unwatch (pid : Z) | WatchOf (pid : Z).
Definition watch_step (owner : Z) (o : watch_op) : P (option refos_error * Z) :=
  match o with
  | Watch pid ep => let! e := client_watch owner pid ep in kret (Some e, 0)
  | Unwatch pid => client_unwatch owner pid ;;; kret (None, 0)
  | WatchOf pid => let! ep := client_watch_get owner pid in kret (None, ep)
  end.
Definition watch_map (o : watch_op) (m : gmap Z Z) : gmap Z Z * (option refos_error * Z) :=
  match o with
  | Watch pid ep => if ep =? 0 then (m, (Some EINVALIDPARAM, 0)) else (<[pid := ep]> m, (Some ESUCCESS, 0))
  | Unwatch pid => (delete pid m, (None, 0))
  | WatchOf pid => (m, (None, default 0 (m !! pid)))
  end.
Definition watch_pid (o : watch_op) : Prop :=
  match o with Watch pid _ => PID_START ≤ pid < PID_MAX | _ => True end.
Fixpoint watch_steps (owner : Z) (os : list watch_op) : P (list (option refos_error * Z)) :=
  match os with
  | [] => kret []
  | o :: os => let! r := watch_step owner o in let! rs := watch_steps owner os in kret (r :: rs)
  end.
Fixpoint watch_maps (os : list watch_op) (m : gmap Z Z) : gmap Z Z * list (option refos_error * Z) :=
  match os with
  | [] => (m, [])
  | o :: os => let (m, r) := watch_map o m in let (m, rs) := watch_maps os m in (m, r :: rs)
  end.

Lemma watch_step_rep s owner m o :
  watches owner m s → watch_pid o →
  runs (watch_step owner o) s (λ r s', watches owner (watch_map o m).1 s' ∧ r = (watch_map o m).2).
Proof using Hmalloc.
  intros Hw Ho. destruct o as [pid ep|pid|pid]; cbn [watch_step watch_map].
  - apply runs_bind. eapply runs_mono; [by apply client_watch_rep|]. cbv beta.
    intros e s' [(-> & -> & H)|(Hep & -> & H)]; apply runs_ret; [done|]. by rewrite (proj2 (Z.eqb_neq ep 0)).
  - apply runs_bind. eapply runs_mono; [by apply client_unwatch_rep|]. cbv beta. intros _ s' H. by apply runs_ret.
  - eapply runs_bind_Ok; [by apply client_watch_get_rep|]. by apply runs_ret.
Qed.
End Watch.

(** C34. Refinement: the two vectors of a watch list implement a map from the
    watched processes to their endpoints: any sequence of watching, unwatching
    and asking gives the answers of the map, and never fails an assertion. *)
Theorem client_watch_refines_map `{E : Env} owner os s m :
  (∀ n, 0 < n ≤ 8 * table_lim → malloc_ok n = true) → watches owner m s → Forall watch_pid os →
  ∃ s', watch_steps owner os s = Ok (watch_maps os m).2 s' ∧ watches owner (watch_maps os m).1 s'.
Proof.
  intros Hmalloc Hw Hos. revert s m Hw. induction Hos as [|o os Ho Hos IH]; intros s m Hw; [by exists s|].
  destruct (watch_step_rep Hmalloc s owner m o Hw Ho) as (r & s1 & E1 & Hw1 & ->).
  destruct (IH s1 _ Hw1) as (s2 & E2 & Hw2). exists s2. cbn [watch_steps watch_maps].
  rewrite (kbind_Ok _ _ _ _ _ E1), (kbind_Ok _ _ _ _ _ E2).
  destruct (watch_map o m) as [m1 r]. cbn in *. by destruct (watch_maps os m1).
Qed.

(** Process 3 of the demonstration with an empty watch list. *)
Definition watching_server : procserv :=
  upd_pcbs {[3 := set_clientWatchList (WatchList cvector_init cvector_init) zero_pcb]} demo_tables.
Lemma watching_server_watches : watches 3 ∅ watching_server.
Proof.
  eexists. split; [apply lookup_insert_eq|]. split; [|done].
  exists []. split_and!; try done; try apply NoDup_nil_2; by apply cvector_init_vrep, lim_ok.
Qed.
Definition demo_watch : list watch_op := [Watch 4 9; Watch 5 10; Watch 4 11; WatchOf 4; Unwatch 5; WatchOf 5].
Lemma client_watch_refines_map_witness :
  ∃ s', watch_steps 3 demo_watch watching_server =
      Ok [(Some ESUCCESS, 0); (Some ESUCCESS, 0); (Some ESUCCESS, 0); (None, 11); (None, 0); (None, 0)] s' ∧
    watches 3 {[4 := 11]} s'.
Proof.
  apply (@client_watch_refines_map numbered 3 demo_watch watching_server ∅ (λ _ _, eq_refl) watching_server_watches).
  by repeat constructor.
Defined.

(** ** Page directories *)

(** The pool of [PD_MAX] page directories, of which those of [A] are assigned. *)
Record pd_pool (A : gset Z) (l : pd_list) : Prop := {
  pp_pool : prep table_lim (PDpool l) A;
  pp_range : cp_start (PDpool l) = PD_ID_BASE ∧ cp_end (PDpool l) = PD_ID_BASE + PD_MAX;
  pp_mx : cp_mx (PDpool l) ≤ PD_ID_BASE + PD_MAX;
  pp_pds : Z.of_nat (length (pd l)) = PD_MAX ∧ Z.of_nat (length (cnode l)) = PD_MAX
}.
Definition pd_id (id : Z) : Prop := PD_ID_BASE ≤ id < PD_ID_BASE + PD_MAX.

(** The identifier that is handed out, below [mx] while there are free ones. *)
Lemma pd_alloc `{E : Env} (Hmalloc : ∀ n, 0 < n ≤ 8 * table_lim → malloc_ok n = true) A l :
  pd_pool A l →
  ∃ p' id, cpool_alloc malloc_ok (PDpool l) = Some (p', id) ∧ id ∉ A ∧ 1 ≤ id ≤ cp_mx (PDpool l) ∧
    prep table_lim p' ({[id]} ∪ A) ∧ same_range (PDpool l) p' ∧ cp_mx p' ≤ Z.max (cp_mx (PDpool l)) (id + 1) ∧
    (id = cp_mx (PDpool l) → ∀ x, 1 ≤ x < id → x ∈ A).
Proof.
  intros [[fl Hp] [Hs He] Hmx _]. assert (PD_ID_BASE = 1) as Hbase by done. assert (PD_MAX = 64) as Hmax by done.
  destruct (cpool_alloc_spec malloc_ok table_lim lim_ok Hmalloc (PDpool l) A (ex_intro _ fl Hp))
    as [(p' & id & Ha & Hid & HnA & Hsame & Hp')|[_ Hall]].
  2:{ pose proof (Hall (cp_end (PDpool l)) ltac:(lia)) as Hend. apply (pr_held _ _ _ _ Hp) in Hend. lia. }
  exists p', id. split; [done|]. split; [done|]. pose proof Hp as [Hv Hnd Hr _ Hfl Hh].
  destruct fl as [|x fl _] using rev_ind.
  - revert Ha. unfold cpool_alloc, cvector_count. rewrite (vr_count _ _ _ Hv). cbn [length Z.of_nat Z.ltb Z.compare].
    rewrite (proj2 (Z.leb_le _ _)) by lia. intros [= <- <-]. cbn [cp_mx].
    split_and!; try done; try lia; [rewrite w32_id by (unfold is_w32; lia); lia|]. intros _ x Hx. apply Hh. split; [lia|apply not_elem_of_nil].
  - destruct (cpool_alloc_reuse malloc_ok table_lim lim_ok Hmalloc (PDpool l) fl x Hv) as (v & Ha' & _).
    rewrite Ha' in Ha. injection Ha as <- <-. cbn [cp_mx]. pose proof (Hfl x ltac:(set_solver)).
    split_and!; try done; lia.
Qed.

(** Bounds (a defect): the pool of identifiers is one larger than the pool
    of page directories.  While a page directory is left, a process gets one
    that no other has; when all are assigned, the next process is given the one
    past the end of the arrays, where the code means to report that there is
    none. *)
Theorem pd_assign_overruns `{E : Env} A s :
  (∀ n, 0 < n ≤ 8 * table_lim → malloc_ok n = true) → pd_pool A (PDList s) →
  ((∃ x, pd_id x ∧ x ∉ A) →
     ∃ id p c s', pd_assign s = Ok (p, c) s' ∧ pd_id id ∧ id ∉ A ∧ znth (pd (PDList s)) (id - 1) = Some p ∧
       znth (cnode (PDList s)) (id - 1) = Some c ∧ pd_pool ({[id]} ∪ A) (PDList s')) ∧
  ((∀ x, pd_id x → x ∈ A) → pd_assign s = Panic).
Proof.
  intros Hmalloc Hp. pose proof Hp as [_ [Hs He] Hmx [Hl1 Hl2]].
  assert (PD_ID_BASE = 1) as Hbase by done. assert (PD_MAX = 64) as Hmax by done.
  destruct (pd_alloc Hmalloc A _ Hp) as (p' & id & Ha & HnA & Hid & Hp' & Hsame & Hmx' & Hlast).
  assert (∀ (B : Type) (k : cpool_t * Z → P B), kbind (kopt (cpool_alloc malloc_ok (PDpool (PDList s)))) k s = k (p', id) s) as Hk.
  { intros B k. by rewrite Ha. }
  unfold pd_assign. rewrite (kbind_Ok _ _ s s (PDList s)) by done. rewrite Hk.
  rewrite (kbind_Ok _ _ _ (upd_PDList (upd_pool p' (PDList s)) s) tt) by done.
  rewrite (proj2 (Z.eqb_neq id 0)) by lia. unfold pd_id. split.
  - intros (x & Hx & HxA). assert (id < 65).
    { destruct (decide (id = cp_mx (PDpool (PDList s)))) as [Hm|]; [|lia]. destruct (decide (id ≤ x)); [lia|].
      destruct HxA. apply (Hlast Hm). lia. }
    destruct (proj1 (znth_range (pd (PDList s)) (id - 1))) as [p Hpd]; [lia|].
    destruct (proj1 (znth_range (cnode (PDList s)) (id - 1))) as [c Hc]; [lia|].
    rewrite Hpd, (kopt_Some _ p) by done. rewrite Hc, (kopt_Some _ c) by done.
    exists id, p, c. eexists. split; [done|]. split_and!; try done; try lia.
    split; cbn; try done; [by destruct Hsame as [-> ->]|lia].
  - intros Hall. assert (¬ id < 65) by (intros ?; apply HnA, Hall; lia).
    destruct (znth (pd (PDList s)) (id - 1)) eqn:Hz; [|done].
    assert (0 ≤ id - 1 < Z.of_nat (length (pd (PDList s)))) by (apply znth_range; eauto). lia.
Qed.

(** All page directories assigned. *)
Definition full_pd_list : pd_list := PdList (cpool 1 65 65 cvector_init) (seqZ 100 64) (seqZ 200 64).
Lemma full_pd_pool : pd_pool (list_to_set (seqZ 1 64)) full_pd_list.
Proof.
  split; try done. exists []. split; cbn; try lia.
  - by apply cvector_init_vrep, lim_ok.
  - apply NoDup_nil_2.
  - unfold table_lim. lia.
  - by intros x ?%elem_of_nil.
  - intros x. rewrite elem_of_list_to_set, elem_of_seqZ, elem_of_nil. lia.
Qed.
Lemma pd_assign_overruns_witness :
  pd_assign (upd_PDList full_pd_list demo_tables) = Panic.
Proof.
  apply (@pd_assign_overruns numbered (list_to_set (seqZ 1 64)) (upd_PDList full_pd_list demo_tables)
    (λ _ _, eq_refl) full_pd_pool).
  intros x Hx. apply elem_of_list_to_set, elem_of_seqZ. unfold pd_id, PD_ID_BASE, PD_MAX in Hx. lia.
Defined.
