(* ===== verification/CapTheorems.v ===== *)
(** * Capabilities and message headers: well-formedness, rights, badges

    The widths of the fields of a capability, the algebra of rights, the life
    of a badge, and the round trips of the packed words ([Zombie_new] and the
    message header). *)

From S2P Require Import Prelude.
From S2P Require Import Word32.
From S2P Require Import Structures.
From S2P Require Import CapOps.

(** ** Message headers *)

(** A negative position holds no bit. *)
Lemma testbit_before x i : i < 0 → Z.testbit x i = false.
Proof. apply Z.testbit_neg_r. Qed.

Section Headers.
Context (label unwrapped extra len : Z).

#[local] Abbreviation mi := (message_info_new label unwrapped extra len).

Lemma message_info_bits i :
  0 ≤ i →
  Z.testbit mi i =
    if i <? 7 then Z.testbit len i
    else if i <? 9 then Z.testbit extra (i - 7)
    else if i <? 12 then Z.testbit unwrapped (i - 9)
    else if i <? 32 then Z.testbit label (i - 12) else false.
Proof.
  intros Hi. unfold message_info_new, field.
  rewrite !Z.lor_spec, !Z.shiftl_spec, !Z.land_spec by lia.
  repeat match goal with |- context [Z.ltb i ?b] => destruct (Z.ltb_spec i b) end;
    repeat match goal with
    | |- context [Z.testbit (Z.ones ?n) ?j] =>
        first [ rewrite (Z.ones_spec_low n j) by lia | rewrite (Z.ones_spec_high n j) by lia
              | rewrite (testbit_before (Z.ones n) j) by lia ]
    end;
    rewrite ?andb_true_r, ?andb_false_r, ?orb_false_r; done.
Qed.

Lemma message_info_field n k :
  0 ≤ k → 0 ≤ n → ∀ v,
  (∀ i, 0 ≤ i < n → Z.testbit mi (i + k) = Z.testbit v i) →
  field n (Z.shiftr mi k) = field n v.
Proof.
  intros Hk Hn v H. unfold field. apply Z.bits_inj'. intros i Hi.
  rewrite !Z.land_spec, Z.shiftr_spec by lia.
  destruct (Z.lt_ge_cases i n).
  - by rewrite H.
  - by rewrite Z.ones_spec_high, !andb_false_r by lia.
Qed.
End Headers.

(** Adding disjoint bits. *)
Lemma lor_disjoint a b k : 0 ≤ k → a mod 2 ^ k = 0 → 0 ≤ b < 2 ^ k → Z.lor a b = a + b.
Proof.
  intros Hk Ha Hb. assert (Z.land a b = 0) as Hd.
  { apply Z.bits_inj'. intros i Hi. rewrite Z.land_spec, Z.bits_0.
    destruct (Z.lt_ge_cases i k).
    - rewrite <- (Z.mod_pow2_bits_low a k i), Ha by lia. by rewrite Z.bits_0.
    - rewrite <- (Z.mod_small b (2 ^ k)), Z.mod_pow2_bits_high by lia. apply andb_false_r. }
  rewrite Z.add_nocarry_lxor by done. symmetry. by apply Z.lxor_lor.
Qed.

Lemma aligned_part x k : 0 ≤ k → (x - x mod 2 ^ k) mod 2 ^ k = 0.
Proof. intros Hk. rewrite Zminus_mod_idemp_r, Z.sub_diag. apply Z.mod_0_l. lia. Qed.

Lemma aligned_add_mod a b k : 0 ≤ k → a mod 2 ^ k = 0 → 0 ≤ b < 2 ^ k → (a + b) mod 2 ^ k = b.
Proof.
  intros Hk Ha Hb. rewrite Z.add_mod, Ha, Z.add_0_l, Z.mod_mod by lia. by apply Z.mod_small.
Qed.

Lemma msgLength_set w v :
  is_w32 w → 0 ≤ v < 128 →
  message_info_set_msgLength w v = w - w mod 128 + v.
Proof.
  intros Hw Hv. unfold message_info_set_msgLength.
  change (wnot 0x7f) with (wnot (MASK 7)). rewrite (land_wnot_MASK w 7 Hw), (field_id 7 v) by lia.
  apply (lor_disjoint _ _ 7); [lia|apply (aligned_part w 7); lia|lia].
Qed.

Lemma msgLength_set_high w v :
  is_w32 w → 0 ≤ v < 128 → Z.shiftr (message_info_set_msgLength w v) 7 = Z.shiftr w 7.
Proof.
  intros Hw Hv. rewrite msgLength_set, !Z.shiftr_div_pow2 by (done || lia).
  change (2 ^ 7) with 128. pose proof (Z.div_mod w 128).
  replace (w - w mod 128 + v) with (v + (w / 128) * 128) by lia.
  rewrite Z.div_add, Z.div_small by lia. lia.
Qed.

(** Packing a message header and reading its four fields back gives the
    fields truncated to their widths: labels of 20 bits, 3 bits of unwrapped
    capabilities, 2 of extra capabilities and 7 of length. *)
Theorem message_info_roundtrip label unwrapped extra len :
  let mi := message_info_new label unwrapped extra len in
  message_info_get_msgLabel mi = field 20 label ∧
  message_info_get_msgCapsUnwrapped mi = field 3 unwrapped ∧
  message_info_get_msgExtraCaps mi = field 2 extra ∧
  message_info_get_msgLength mi = field 7 len.
Proof.
  intros mi. unfold message_info_get_msgLabel, message_info_get_msgCapsUnwrapped,
    message_info_get_msgExtraCaps, message_info_get_msgLength.
  rewrite <- (Z.shiftr_0_r mi) at 4.
  split_and!; apply message_info_field; try lia; intros i Hi;
    rewrite message_info_bits by lia;
    repeat match goal with |- context [Z.ltb ?a ?b] => destruct (Z.ltb_spec a b) end;
    try lia; f_equal; lia.
Qed.

(** A user's message header is accepted as it is, except that its length is
    cut to [seL4_MsgMaxLength]: the other fields keep their values, and the
    kernel never reads more message registers than exist. *)
Theorem messageInfoFromWord_correct w :
  is_w32 w →
  let mi := messageInfoFromWord w in
  message_info_get_msgLength mi = Z.min seL4_MsgMaxLength (message_info_get_msgLength w) ∧
  message_info_get_msgLabel mi = message_info_get_msgLabel w ∧
  message_info_get_msgExtraCaps mi = message_info_get_msgExtraCaps w ∧
  message_info_get_msgCapsUnwrapped mi = message_info_get_msgCapsUnwrapped w.
Proof.
  intros Hw. cbv zeta. unfold messageInfoFromWord.
  destruct (Z.ltb_spec seL4_MsgMaxLength (message_info_get_msgLength w)) as [H|H].
  - pose proof (msgLength_set_high w seL4_MsgMaxLength Hw ltac:(unfold seL4_MsgMaxLength; lia)) as E.
    unfold message_info_get_msgLabel, message_info_get_msgExtraCaps,
      message_info_get_msgCapsUnwrapped.
    assert (∀ k, 7 ≤ k → Z.shiftr (message_info_set_msgLength w seL4_MsgMaxLength) k =
                         Z.shiftr w k) as Hk.
    { intros k Hk. replace k with (7 + (k - 7)) by lia.
      rewrite <- !Z.shiftr_shiftr, E by lia. done. }
    rewrite !Hk by lia. split_and!; try done.
    unfold message_info_get_msgLength at 1.
    rewrite field_mod, msgLength_set by (done || unfold seL4_MsgMaxLength; lia).
    rewrite (aligned_add_mod _ _ 7); [lia|lia|apply (aligned_part w 7); lia|].
    unfold seL4_MsgMaxLength; lia.
  - split_and!; try done. lia.
Qed.

Lemma messageInfoFromWord_correct_witness :
  is_w32 0x107f ∧ message_info_get_msgLength (messageInfoFromWord 0x107f) = 120.
Proof.
  split; [unfold is_w32; lia|].
  destruct (messageInfoFromWord_correct 0x107f) as [H _]; [unfold is_w32; lia|].
  rewrite H. reflexivity.
Defined.

(** ** Zombies *)

(** The types of zombies: a thread, or a CNode of the given radix. *)
Definition zombie_type_ok (type : Z) : Prop := type = ZombieType_ZombieTCB ∨ 0 ≤ type < 28.

Lemma zombie_bits_eq type :
  zombie_type_ok type →
  0 ≤ zombie_bits type + 1 < 32 ∧
  (if type =? ZombieType_ZombieTCB then MASK (TCB_CNODE_RADIX + 1) else MASK (type + 1)) =
    MASK (zombie_bits type + 1) ∧ field 6 type = type.
Proof.
  assert (ZombieType_ZombieTCB = 32) as HT by reflexivity.
  intros [-> |H]; [by vm_compute|]. unfold zombie_bits, ZombieType_ZombieCNode. rewrite HT.
  rewrite (proj2 (Z.eqb_neq type 32)), land_MASK, Z.mod_small by lia.
  split_and!; [lia|lia|done|]. apply field_id; lia.
Qed.

(** C38. A zombie packs a count of slots into the low bits of the address of its
    object: for an aligned object and a count that fits, both are read back,
    and replacing the count keeps the address, the type and the new count. *)
Theorem Zombie_roundtrip number type ptr n :
  zombie_type_ok type → is_w32 ptr → ptr mod 2 ^ (zombie_bits type + 1) = 0 →
  0 ≤ number < 2 ^ (zombie_bits type + 1) → 0 ≤ n < 2 ^ (zombie_bits type + 1) →
  let z := Zombie_new number type ptr in
  let z' := cap_zombie_cap_set_capZombieNumber z n in
  cap_zombie_cap_get_capZombieNumber z = number ∧
  cap_zombie_cap_get_capZombiePtr z = ptr ∧
  cap_zombie_cap_get_capZombieNumber z' = n ∧
  cap_zombie_cap_get_capZombiePtr z' = ptr ∧
  cap_zombie_cap_get_capZombieBits z' = zombie_bits type.
Proof.
  intros Ht Hp Ha Hnum Hn. destruct (zombie_bits_eq type Ht) as (Hb & Hm & Hf).
  set (k := zombie_bits type + 1) in *.
  assert (∀ v, 0 ≤ v < 2 ^ k → w32 (ptr + v) = ptr + v) as Hw.
  { intros v Hv. apply w32_id. unfold is_w32 in *. split; [lia|].
    assert (2 ^ 32 = 2 ^ (32 - k) * 2 ^ k) as E by (rewrite <- Z.pow_add_r by lia; f_equal; lia).
    pose proof (Z.div_mod ptr (2 ^ k) ltac:(lia)) as D. rewrite Ha in D.
    assert (ptr / 2 ^ k < 2 ^ (32 - k)) by (apply Z.div_lt_upper_bound; lia). nia. }
  assert (∀ v, 0 ≤ v < 2 ^ k → is_w32 (ptr + v)) as Hr by (intros v Hv; rewrite <- Hw by done; apply w32_range).
  assert (∀ v, 0 ≤ v < 2 ^ k → (ptr + v) mod 2 ^ k = v) as Hmod
    by (intros v Hv; apply aligned_add_mod; lia).
  assert (Zombie_new number type ptr = cap_zombie_cap (ptr + number) type) as ->.
  { unfold Zombie_new, cap_zombie_cap_new. cbv zeta. rewrite Hm, Hf. f_equal.
    rewrite land_wnot_MASK, land_MASK, Ha, (Z.mod_small number), Z.sub_0_r by (done || lia).
    rewrite (lor_disjoint _ _ k) by (done || lia). by apply Hw. }
  cbn [cap_zombie_cap_get_capZombieNumber cap_zombie_cap_get_capZombiePtr
       cap_zombie_cap_set_capZombieNumber cap_zombie_cap_get_capZombieBits]. fold k.
  rewrite (land_wnot_MASK (ptr + number)), (land_MASK n), (Z.mod_small n) by auto.
  rewrite Hmod by done. replace (ptr + number - number) with ptr by lia.
  rewrite (lor_disjoint _ _ k), Hw by (done || lia).
  rewrite !land_MASK, land_wnot_MASK, !Hmod by auto. split_and!; (done || lia).
Qed.

Lemma Zombie_roundtrip_witness :
  cap_zombie_cap_get_capZombiePtr (Zombie_new 9 4 0xE0001000) = 0xE0001000 ∧
  cap_zombie_cap_get_capZombieNumber (Zombie_new 9 4 0xE0001000) = 9.
Proof.
  destruct (Zombie_roundtrip 9 4 0xE0001000 3) as (H1 & H2 & _);
    [right; lia|unfold is_w32; lia|by vm_compute|by vm_compute|by vm_compute|].
  by split.
Defined.

(** ** Rights *)

(** The capabilities that carry rights: endpoints and frames. *)
Definition carries_rights (c : cap_t) : bool :=
  match c with
  | cap_endpoint_cap _ _ _ _ _ | cap_async_endpoint_cap _ _ _ _ | cap_frame_cap _ _ _ _ _ _ => true
  | _ => false
  end.
Definition is_frame (c : cap_t) : bool := cap_get_capType c =? 1.

Lemma maskVMRights_compose rights r1 r2 :
  0 ≤ rights < 4 →
  maskVMRights (maskVMRights rights r2) r1 = maskVMRights rights (rights_and r1 r2) ∧
  maskVMRights rights allRights = rights.
Proof.
  intros H. destruct r1 as [g1 [] []], r2 as [g2 [] []];
    destruct (vm_rights_cases rights H) as [-> |[-> |[-> | ->]]]; done.
Qed.

Lemma maskVMRights_authority rights r :
  0 ≤ rights < 4 →
  cap_authority (cap_frame_cap 0 0 0 (maskVMRights rights r) 0 0) =
    cap_rights true
      (capAllowRead (cap_authority (cap_frame_cap 0 0 0 rights 0 0)) && capAllowRead r)
      (capAllowWrite (cap_authority (cap_frame_cap 0 0 0 rights 0 0)) && capAllowWrite r &&
       capAllowRead r).
Proof.
  intros H. destruct r as [g [] []];
    destruct (vm_rights_cases rights H) as [-> |[-> |[-> | ->]]]; done.
Qed.

Lemma maskCapRights_frame r high idx size rights low base :
  maskCapRights r (cap_frame_cap high idx size rights low base) =
    cap_frame_cap high idx size (maskVMRights rights r) low base.
Proof.
  change (cap_frame_cap high idx size (field 2 (maskVMRights rights r)) low base =
    cap_frame_cap high idx size (maskVMRights rights r) low base).
  by rewrite maskVMRights_field.
Qed.



(** ** Field widths *)

(** A value stored in the [n] high bits of a word. *)
Definition high_field (n v : Z) : Prop := is_w32 v ∧ v mod 2 ^ (32 - n) = 0.
Definition low_field (n v : Z) : Prop := 0 ≤ v < 2 ^ n.

(** Every field of a capability fits in its bits. *)
Definition cap_wf (c : cap_t) : Prop :=
  match c with
  | cap_null_cap | cap_irq_control_cap | cap_domain_cap => True
  | cap_untyped_cap _ bits ptr => low_field 5 bits ∧ high_field 28 ptr
  | cap_endpoint_cap badge _ _ _ ptr => low_field 28 badge ∧ high_field 28 ptr
  | cap_async_endpoint_cap badge _ _ ptr => low_field 28 badge ∧ high_field 28 ptr
  | cap_reply_cap caller _ ptr => high_field 28 caller ∧ high_field 27 ptr
  | cap_cnode_cap radix gsize guard ptr =>
      low_field 5 radix ∧ low_field 5 gsize ∧ low_field 18 guard ∧ high_field 27 ptr
  | cap_thread_cap ptr => high_field 28 ptr
  | cap_irq_handler_cap irq => low_field 8 irq
  | cap_zombie_cap id type => is_w32 id ∧ low_field 6 type
  | cap_frame_cap high idx size rights low base =>
      low_field 20 high ∧ low_field 12 idx ∧ low_field 3 size ∧ low_field 2 rights ∧
      low_field 2 low ∧ high_field 20 base
  | cap_page_table_cap obj idx base => high_field 20 obj ∧ low_field 12 idx ∧ high_field 22 base
  | cap_page_directory_cap base => high_field 18 base
  end.

Create HintDb widths discriminated.

Lemma low_field_field n v : 0 ≤ n → low_field n (field n v).
Proof. apply field_range. Qed.
Lemma high_field_0 n : n ≤ 32 → high_field n 0.
Proof. intros Hn. split; [unfold is_w32; lia|]. apply Z.mod_0_l. lia. Qed.
Lemma high_field_new n v : is_w32 v → 0 < n ≤ 32 → high_field n (field_high n v).
Proof.
  intros Hv Hn. rewrite field_high_eq by done. split; [|apply aligned_part; lia].
  pose proof (Z.mod_pos_bound v (2 ^ (32 - n)) ltac:(lia)).
  pose proof (Z.mod_le v (2 ^ (32 - n)) (proj1 Hv) ltac:(lia)). unfold is_w32 in *. lia.
Qed.
#[local] Hint Extern 4 (0 ≤ _) => lia : widths.
#[local] Hint Extern 4 (0 < _ ≤ _) => lia : widths.
#[local] Hint Extern 4 (_ ≤ 32) => lia : widths.
#[local] Hint Resolve low_field_field high_field_0 high_field_new w32_range : widths.
#[local] Hint Extern 1 (_ ∧ _) => split : widths.

Lemma maskVMRights_low rights r : low_field 2 (maskVMRights rights r).
Proof. rewrite <- maskVMRights_field. auto with widths. Qed.

Lemma maskCapRights_wf r c : cap_wf c → cap_wf (maskCapRights r c).
Proof.
  intros Hc. destruct c; try exact Hc. rewrite maskCapRights_frame.
  destruct Hc as (? & ? & ? & _ & ? & ?). split_and!; auto using maskVMRights_low.
Qed.

Lemma updateCapData_wf p d c : cap_wf c → cap_wf (updateCapData p d c).
Proof.
  intros Hc. destruct c; try exact Hc;
    unfold updateCapData; change (isArchCap _) with false; cbv iota;
    case_match; try done; cbn -[field Z.land]; intuition auto with widths; apply Hc.
Qed.

Lemma resetMemMapping_wf c : cap_wf c → cap_wf (resetMemMapping c).
Proof. intros Hc. destruct c; try exact Hc; cbn -[field] in *; intuition auto with widths. Qed.

Lemma set_capZombieNumber_wf c n : cap_wf c → cap_wf (cap_zombie_cap_set_capZombieNumber c n).
Proof. intros Hc. destruct c; try exact Hc. destruct Hc. cbn -[Z.lor Z.land]. auto with widths. Qed.

Lemma set_capFMappedObject_wf c d : cap_wf c → cap_wf (cap_frame_cap_set_capFMappedObject c d).
Proof. intros Hc. destruct c; try exact Hc. cbn -[field] in *. intuition auto with widths. Qed.



(** ** Badges and guards *)

(** The data a user gives with a capability sets a badge once and for all:
    the badge of an unbadged endpoint becomes the low 28 bits of the data; a
    badged one, and any endpoint whose badge must be preserved, becomes null;
    in every case the capability is either null or still designates the same
    object with the same rights, and a CNode never gets a guard and radix that
    exceed a word. *)
Theorem updateCapData_correct preserve data c :
  let c' := updateCapData preserve data c in
  (cap_get_capType c = 4 ∨ cap_get_capType c = 6 →
     (cap_get_capBadge c ≠ 0 ∨ preserve = true → c' = cap_null_cap) ∧
     (cap_get_capBadge c = 0 ∧ preserve = false → cap_get_capBadge c' = field 28 data)) ∧
  (c' = cap_null_cap ∨
   cap_get_capType c' = cap_get_capType c ∧ cap_get_capPtr c' = cap_get_capPtr c ∧
   cap_authority c' = cap_authority c) ∧
  (∀ radix gsize guard ptr, cap_get_capType c = 10 → c' = cap_cnode_cap radix gsize guard ptr →
     gsize + radix ≤ wordBits ∧ 0 ≤ guard < 2 ^ gsize).
Proof.
  cbv zeta. destruct c as [| |badge g sd rv ptr|badge rv sd ptr| |radix gs gd ptr| | | | | | | |];
    try (split_and!; [by intros [|]|by right|by intros]).
  - unfold updateCapData. change (isArchCap _) with false. cbv iota. cbn [cap_get_capBadge].
    destruct preserve, (Z.eqb_spec badge 0); cbn [negb andb]; split_and!;
      try (by left); try (by right); try (by intros); intros _; (split; [by intros [|]|by intros [? ?]]).
  - unfold updateCapData. change (isArchCap _) with false. cbv iota. cbn [cap_get_capBadge].
    destruct preserve, (Z.eqb_spec badge 0); cbn [negb andb]; split_and!;
      try (by left); try (by right); try (by intros); intros _; (split; [by intros [|]|by intros [? ?]]).
  - split; [by intros [|]|]. unfold updateCapData. change (isArchCap _) with false. cbv iota.
    destruct (Z.ltb_spec wordBits (cnode_capdata_get_guardSize data + radix)) as [|Hle];
      split; [by left|by intros|by right|].
    intros r gs' gd' p' _ [= <- <- <- <-]. unfold cnode_capdata_get_guardSize in *.
    pose proof (field_range 5 (Z.shiftr data 3) ltac:(lia)) as Hr.
    rewrite (field_idemp 5) by lia. split; [done|].
    set (gz := field 5 (Z.shiftr data 3)) in *. rewrite land_MASK by lia.
    pose proof (field_range 18 (Z.shiftr data 8) ltac:(lia)) as Hg.
    change (cnode_capdata_get_guard data) with (field 18 (Z.shiftr data 8)).
    pose proof (Z.mod_pos_bound (field 18 (Z.shiftr data 8)) (2 ^ gz) ltac:(lia)).
    pose proof (Z.mod_le (field 18 (Z.shiftr data 8)) (2 ^ gz) ltac:(lia) ltac:(lia)).
    rewrite field_id; lia.
Qed.
