(* ===== verification/CSpaceTheorems.v ===== *)
(** * Capability address resolution

    [resolveAddressBits] refines the walk of [CSpace]; what it does with
    guards; the checks of the slot lookups made by CNode invocations. *)

From S2P Require Import Prelude.
From S2P Require Import Word32.
From S2P Require Import Structures.
From S2P Require Import State.
From S2P Require Import CSpace.

Section Resolution.
Context (s : kstate) (Hc : cnodes_ok (ks_cte s)).

(** A walk from a well-formed CNode ends in a slot that exists. *)
Lemma resolves_exists capptr c n slot left :
  resolves (ks_cte s) capptr c n slot left → cnode_ok (ks_cte s) c →
  is_Some (ks_cte s !! slot).
Proof using Hc.
  induction 1 as [radix gs g ptr Hr|radix gs g ptr n c Hr Hl Ht|radix gs g ptr n c slot left Hr Hl Ht _ IH];
    intros Hok.
  - destruct Hok as [Hr' Hs]. apply Hs, cnode_offset_range. lia.
  - by eexists.
  - apply IH. by apply (Hc _ _ Hl).
Qed.

(** The slot depends only on the bits that are resolved. *)
Lemma cnode_offset_low a b n radix :
  0 < radix < 32 → radix ≤ n → a mod 2 ^ n = b mod 2 ^ n →
  cnode_offset a n radix = cnode_offset b n radix.
Proof using.
  intros Hr Hn Hab. unfold cnode_offset. rewrite MASK_eq by lia.
  apply Z.bits_inj'. intros i Hi. rewrite !Z.land_spec.
  destruct (Z.lt_ge_cases i radix) as [Hlt|Hge].
  - rewrite !Z.shiftr_spec by lia. f_equal.
    rewrite <- (Z.mod_pow2_bits_low a n), <- (Z.mod_pow2_bits_low b n) by lia. by rewrite Hab.
  - by rewrite Z.ones_spec_high, !andb_false_r by lia.
Qed.

Lemma mod_pow_le a b m n : 0 ≤ n ≤ m → a mod 2 ^ m = b mod 2 ^ m → a mod 2 ^ n = b mod 2 ^ n.
Proof using.
  intros Hn Hab. apply Z.bits_inj'. intros i Hi.
  destruct (Z.lt_ge_cases i n).
  - rewrite !Z.mod_pow2_bits_low by lia.
    rewrite <- (Z.mod_pow2_bits_low a m), <- (Z.mod_pow2_bits_low b m) by lia. by rewrite Hab.
  - by rewrite !Z.mod_pow2_bits_high by lia.
Qed.

Lemma resolve_loop_low fuel radix ptr a b n :
  cnode_ok (ks_cte s) (cap_cnode_cap radix 0 0 ptr) → 0 ≤ n → a mod 2 ^ n = b mod 2 ^ n →
  resolve_loop fuel radix ptr a n s = resolve_loop fuel radix ptr b n s.
Proof using Hc.
  revert radix ptr n. induction fuel as [|fuel IH]; intros radix ptr n [Hr Hs] Hn Hab; [done|].
  cbn [resolve_loop]. rewrite !kassert_true by (apply negb_true_iff, Z.eqb_neq; lia).
  destruct (Z.ltb_spec n radix) as [|Hge]; [done|].
  rewrite (cnode_offset_low a b) by (done || lia).
  destruct (Z.leb_spec n radix) as [|Hgt]; [done|].
  destruct (Hs (cnode_offset b n radix)) as [c Hcte]; [by apply cnode_offset_range|].
  do 2 kload. pose proof (Hc _ _ Hcte) as Hok.
  destruct (cteCap c); try done. apply IH; [done|lia|]. apply (mod_pow_le _ _ n); [lia|done].
Qed.
End Resolution.


(** The size of a guard is a field of the capability. *)
Definition cap_wf_guard (c : cap_t) : Prop :=
  match c with cap_cnode_cap _ gs _ _ => 0 ≤ gs | _ => True end.

(** A CNode of 16 slots at address 0x1000 whose slot 5 is an endpoint. *)
Definition cnode16 : gmap Z cte_t :=
  <[ CTE_AT 0x1000 5 := cte (cap_endpoint_cap 0 true true true 0x2000) nullMDBNode ]>
    (list_to_map ((λ i, (CTE_AT 0x1000 i, null_cte)) <$> seqZ 0 16)).
Definition cnode16_state : kstate := upd_ks_cte cnode16 empty_kstate.

Lemma cnodes_ok_leaves h :
  map_Forall (λ _ c, cap_get_capType (cteCap c) ≠ 10) h → cnodes_ok h.
Proof.
  intros H p c Hp. pose proof (H p c Hp) as Hn. cbv beta in Hn. by destruct (cteCap c).
Qed.

Lemma cnode16_ok :
  cnodes_ok cnode16 ∧ ∀ gs g, cnode_ok cnode16 (cap_cnode_cap 4 gs g 0x1000).
Proof.
  split.
  - apply cnodes_ok_leaves. apply (bool_decide_eq_true_1 _). by vm_compute.
  - intros gs g. split; [lia|]. intros i Hi.
    assert (Forall (λ i, is_Some (cnode16 !! CTE_AT 0x1000 i)) (seqZ 0 16)) as HF
      by (apply (bool_decide_eq_true_1 _); by vm_compute).
    rewrite Forall_forall in HF. apply HF, elem_of_seqZ. lia.
Qed.


(** C40. The value of a guard is never compared: whatever guard a CNode has, two
    addresses that agree on the bits after it resolve alike, with the same
    faults. *)
Theorem resolveAddressBits_ignores_guard s radix gs g g' ptr a b n :
  cnodes_ok (ks_cte s) → cnode_ok (ks_cte s) (cap_cnode_cap radix gs g ptr) →
  0 ≤ n → a mod 2 ^ (n - gs) = b mod 2 ^ (n - gs) →
  resolveAddressBits (cap_cnode_cap radix gs g ptr) a n s =
  resolveAddressBits (cap_cnode_cap radix gs g' ptr) b n s.
Proof.
  intros Hc Hok Hn Hab. unfold resolveAddressBits. destruct (Z.ltb_spec n gs) as [|Hge]; [done|].
  unfold kbind. by rewrite (resolve_loop_low s Hc _ radix ptr a b) by (done || lia).
Qed.

Lemma resolveAddressBits_ignores_guard_witness :
  resolveAddressBits (cap_cnode_cap 4 4 0xf 0x1000) 0xf5 8 cnode16_state =
  resolveAddressBits (cap_cnode_cap 4 4 0xf 0x1000) 0x05 8 cnode16_state.
Proof.
  destruct cnode16_ok as [Hc Hok].
  apply (resolveAddressBits_ignores_guard cnode16_state 4 4 0xf 0xf 0x1000 0xf5 0x05 8 Hc
    (Hok 4 0xf)); [lia|by vm_compute].
Defined.

Lemma resolve_cases s root capptr n :
  cnodes_ok (ks_cte s) → cnode_ok (ks_cte s) root → cap_wf_guard root →
  0 ≤ n → cap_get_capType root = 10 →
  (∃ slot left, resolveAddressBits root capptr n s = Ok (EXCEPTION_NONE, slot, left) s ∧
     is_Some (ks_cte s !! slot) ∧ ∃ radix gs g ptr, root = cap_cnode_cap radix gs g ptr ∧
       resolves (ks_cte s) capptr root (n - gs) slot left) ∨
  (∃ fault, resolveAddressBits root capptr n s =
     Ok (EXCEPTION_LOOKUP_FAULT, 0, n) (upd_current_lookup_fault fault s)).
Proof.
  intros Hc Hok Hg Hn Ht. destruct root as [| | | | |radix gs g ptr| | | | | | | |]; try done.
  cbn in Hg. unfold resolveAddressBits.
  destruct (Z.ltb_spec n gs) as [|Hge]; [right; by eexists|].
  destruct (resolve_loop_spec s Hc (S (Z.to_nat n)) radix gs g ptr capptr (n - gs) Hok ltac:(lia))
    as [(slot & left & E & R)|(f & l & E & R)]; rewrite (kbind_Ok _ _ _ _ _ E).
  - left. exists slot, left. split; [done|]. split.
    + eapply resolves_exists; [exact Hc|exact R|exact Hok].
    + by exists radix, gs, g, ptr.
  - right. by eexists.
Qed.

Lemma failed_lookup_Ok isSource s :
  ∃ s', failed_lookup isSource s = Ok (EXCEPTION_SYSCALL_ERROR, 0) s' ∧ ks_cte s' = ks_cte s.
Proof. eexists. split; reflexivity. Qed.

(** A slot looked up for a CNode operation: the root must be a CNode and the
    depth between 1 and the word size; a slot is returned only when every one
    of the bits was resolved, and then it exists and nothing in the state
    changed; otherwise the lookup ends in a system-call error, without a slot.
    It always ends. *)
Theorem lookupSlotForCNodeOp_correct isSource root capptr depth s :
  cnodes_ok (ks_cte s) → cnode_ok (ks_cte s) root → cap_wf_guard root →
  ∃ status slot s', lookupSlotForCNodeOp isSource root capptr depth s = Ok (status, slot) s' ∧
    ks_cte s' = ks_cte s ∧
    (status = EXCEPTION_NONE ∧ s' = s ∧ is_Some (ks_cte s !! slot) ∧ 1 ≤ depth ≤ wordBits ∧
       (∃ radix gs g ptr, root = cap_cnode_cap radix gs g ptr ∧
         resolves (ks_cte s) capptr root (depth - gs) slot 0) ∨
     status = EXCEPTION_SYSCALL_ERROR ∧ slot = 0).
Proof.
  intros Hc Hok Hg. unfold lookupSlotForCNodeOp.
  destruct (Z.eqb_spec (cap_get_capType root) 10) as [Ht|Ht]; cbn [negb].
  2: { destruct (failed_lookup_Ok isSource (upd_current_lookup_fault lookup_fault_invalid_root s))
         as (s' & E & Ec). exists EXCEPTION_SYSCALL_ERROR, 0, s'. split_and!; auto. }
  destruct (Z.ltb_spec depth 1); cbn [orb]; [by eexists _, _, _; split_and!; [done|done|right]|].
  destruct (Z.ltb_spec wordBits depth); [by eexists _, _, _; split_and!; [done|done|right]|].
  destruct (resolve_cases s root capptr depth Hc Hok Hg ltac:(lia) Ht)
    as [(slot & left & E & Hs & radix & gs & g & ptr & -> & R)|(fault & E)];
    rewrite (kbind_Ok _ _ _ _ _ E).
  - destruct (Z.eqb_spec left 0) as [->|Hl]; cbn [negb].
    + exists EXCEPTION_NONE, slot, s. split_and!; try done. left. split_and!; try done; try lia.
      by exists radix, gs, g, ptr.
    + destruct (failed_lookup_Ok isSource (upd_current_lookup_fault
        (lookup_fault_depth_mismatch_new 0 left) s)) as (s' & E' & Ec).
      exists EXCEPTION_SYSCALL_ERROR, 0, s'. split_and!; auto.
  - destruct (failed_lookup_Ok isSource (upd_current_lookup_fault fault s)) as (s' & E' & Ec).
    exists EXCEPTION_SYSCALL_ERROR, 0, s'. split_and!; auto.
Qed.

Lemma lookupSlotForCNodeOp_correct_witness :
  ∃ status slot s',
    lookupSlotForCNodeOp true (cap_cnode_cap 4 4 0 0x1000) 0x05 8 cnode16_state =
      Ok (status, slot) s' ∧ ks_cte s' = cnode16.
Proof.
  destruct cnode16_ok as [Hc Hok].
  destruct (lookupSlotForCNodeOp_correct true (cap_cnode_cap 4 4 0 0x1000) 0x05 8 cnode16_state
    Hc (Hok 4 0) ltac:(cbn; lia)) as (st & slot & s' & E & Ec & _).
  by exists st, slot, s'.
Defined.
