(* ===== verification/EndpointInv.v ===== *)
(** * Endpoint queues

    The queue of an endpoint as the list of the threads that wait on it: the
    operations of [tcb.c] on endpoint queues refine append and removal of
    lists, and what blocking on an endpoint and taking its first thread do to
    the list. *)

From S2P Require Import Prelude.
From S2P Require Import Word32.
From S2P Require Import Structures.
From S2P Require Import State.
From S2P Require Import CapOps.
From S2P Require Import Queue.
From S2P Require Import VSpace.
From S2P Require Import Sched.
From S2P Require Import CSpace.
From S2P Require Import Finalise.
From S2P Require Import Ipc.
From S2P Require Import CapTheorems.

#[local] Existing Instance ep_links.

(** ** Threads up to their endpoint links *)
Definition ep_rest (t : tcb_t) : tcb_t := set_tcbEPNext 0 (set_tcbEPPrev 0 t).
Definition same_rest (h h' : gmap Z tcb_t) : Prop :=
  ∀ y, ep_rest <$> h' !! y = ep_rest <$> h !! y.

Lemma same_rest_refl h : same_rest h h.
Proof. done. Qed.
Lemma same_rest_trans h1 h2 h3 : same_rest h1 h2 → same_rest h2 h3 → same_rest h1 h3.
Proof. intros H1 H2 y. by rewrite H2. Qed.

Lemma same_rest_insert h y x x' :
  h !! y = Some x → ep_rest x' = ep_rest x → same_rest h (<[y := x']> h).
Proof.
  intros Hx E z. destruct (decide (z = y)) as [->|].
  - by rewrite lookup_insert_eq, Hx; cbn; rewrite E.
  - by rewrite lookup_insert_ne.
Qed.

Lemma same_rest_lookup h h' y x :
  same_rest h h' → h !! y = Some x → ∃ x', h' !! y = Some x' ∧ ep_rest x' = ep_rest x.
Proof.
  intros H Hx. specialize (H y). rewrite Hx in H. destruct (h' !! y) as [x'|]; [|done].
  exists x'. split; [done|]. cbn in H. congruence.
Qed.

Lemma ep_rest_state x x' : ep_rest x' = ep_rest x → tcbState x' = tcbState x.
Proof. intros E. change (tcbState (ep_rest x') = tcbState (ep_rest x)). by rewrite E. Qed.

Lemma upd_tcb_idem h1 h2 s : upd_ks_tcb h2 (upd_ks_tcb h1 s) = upd_ks_tcb h2 s.
Proof. done. Qed.

(** ** The operations on queues *)
Lemma tcbEPAppend_Ok t q ts x s :
  dqueue (ks_tcb s) q ts → t ∉ ts → t ≠ 0 → ks_tcb s !! t = Some x →
  ∃ q' h, tcbEPAppend t q s = Ok q' (upd_ks_tcb h s) ∧ dqueue h q' (ts ++ [t]) ∧
    same_rest (ks_tcb s) h.
Proof.
  intros Hq Ht Hnz Hx. pose proof (dqueue_append _ _ _ t x Hq Ht Hnz Hx) as Hq'.
  pose proof (dqueue_empty _ _ _ Hq) as He. unfold tcbEPAppend. cbv zeta in Hq'.
  assert (∃ h1, h1 = (if queue_head q =? 0 then ks_tcb s
    else match ks_tcb s !! queue_end q with
         | Some yt => <[queue_end q := set_lnext t yt]> (ks_tcb s) | None => ks_tcb s end) ∧
    (if queue_head q =? 0 then kret t
     else updTCB (queue_end q) (set_tcbEPNext t) ;;; kret (queue_head q)) s =
      Ok (if queue_head q =? 0 then t else queue_head q) (upd_ks_tcb h1 s) ∧
    h1 !! t = Some x ∧ same_rest (ks_tcb s) h1) as (h1 & Eh & E1 & Ht1 & Hs1).
  { destruct (Z.eqb_spec (queue_head q) 0) as [Hz|Hz].
    - exists (ks_tcb s). split_and!; try done. by destruct s.
    - destruct Hq as (Hnd & Hs & Hhd & Hend).
      destruct ts as [|y ts _] using rev_ind; [by destruct Hz; apply He|].
      rewrite last_last in Hend.
      destruct (dseg_lookup _ _ _ _ y Hs ltac:(set_solver)) as [yt Hy]. rewrite Hend, Hy.
      eexists. split; [done|]. split; [by kload|]. split.
      + rewrite lookup_insert_ne; [done|]. intros ->. set_solver.
      + by eapply same_rest_insert. }
  rewrite <- Eh in Hq'. rewrite (kbind_Ok _ _ _ _ _ E1).
  rewrite (kbind_Ok _ _ _ _ _ (updTCB_Ok t _ x (upd_ks_tcb h1 s) Ht1)).
  erewrite kbind_Ok; [|apply updTCB_Ok; cbn; apply lookup_insert_eq].
  eexists _, _. split; [cbn [ks_tcb upd_ks_tcb]; rewrite !upd_tcb_idem, insert_insert_eq; reflexivity|].
  split; [exact Hq'|]. eapply same_rest_trans; [done|]. by eapply same_rest_insert.
Qed.

Lemma tcbEPDequeue_Ok l1 t l2 q s :
  dqueue (ks_tcb s) q (l1 ++ t :: l2) →
  ∃ q' h, tcbEPDequeue t q s = Ok q' (upd_ks_tcb h s) ∧ dqueue h q' (l1 ++ l2) ∧
    same_rest (ks_tcb s) h.
Proof.
  intros Hq. pose proof Hq as (Hnd & Hs & _).
  apply NoDup_app_cons_inv in Hnd as (Ht1 & Ht2 & Hnd).
  destruct (dseg_lookup _ _ _ _ t Hs ltac:(set_solver)) as [x Hx].
  pose proof (dqueue_remove _ _ _ _ _ x Hq Hx) as (Hp & Hn & Hq'). cbv zeta in Hq'.
  cbn [lprev lnext ep_links] in *. unfold tcbEPDequeue. kload. kload.
  assert (∃ h1, h1 = (if tcbEPPrev x =? 0 then ks_tcb s
    else match ks_tcb s !! tcbEPPrev x with
         | Some yt => <[tcbEPPrev x := set_lnext (tcbEPNext x) yt]> (ks_tcb s)
         | None => ks_tcb s end) ∧
    (if negb (tcbEPPrev x =? 0) then updTCB (tcbEPPrev x) (set_tcbEPNext (tcbEPNext x)) ;;; kret (queue_head q)
     else kret (tcbEPNext x)) s =
      Ok (if tcbEPPrev x =? 0 then tcbEPNext x else queue_head q) (upd_ks_tcb h1 s) ∧
    h1 !! t = Some x ∧ same_rest (ks_tcb s) h1) as (h1 & Eh & E1 & Hx1 & Hs1).
  { destruct (Z.eqb_spec (tcbEPPrev x) 0) as [Hz|Hz]; cbn [negb].
    - exists (ks_tcb s). split_and!; try done. by destruct s.
    - destruct l1 as [|y l1 _] using rev_ind; [done|]. rewrite last_last in Hp. rewrite Hp.
      destruct (dseg_lookup _ _ _ _ y Hs ltac:(set_solver)) as [yt Hy]. rewrite Hy.
      eexists. split; [done|]. split; [by kload|]. split.
      + rewrite lookup_insert_ne; [done|]. intros ->. set_solver.
      + by eapply same_rest_insert. }
  rewrite <- Eh in Hq'. rewrite (kbind_Ok _ _ _ _ _ E1).
  rewrite (kbind_Ok _ _ _ _ _ (getTCBf_Ok tcbEPNext t x (upd_ks_tcb h1 s) Hx1)).
  rewrite (kbind_Ok _ _ _ _ _ (getTCBf_Ok tcbEPPrev t x (upd_ks_tcb h1 s) Hx1)).
  destruct (Z.eqb_spec (tcbEPNext x) 0) as [Hz|Hz]; cbn [negb].
  - eexists _, _. split; [reflexivity|]. split; [exact Hq'|done].
  - destruct l2 as [|y l2]; [done|]. cbn [hd] in Hn. rewrite Hn in *.
    assert (is_Some (h1 !! y)) as [yt Hy].
    { destruct (dseg_lookup _ _ _ _ y Hs ltac:(set_solver)) as [yt Hy].
      destruct (same_rest_lookup _ _ _ _ Hs1 Hy) as (yt' & Hy' & _). by exists yt'. }
    rewrite Hy in Hq'.
    erewrite kbind_Ok; [|erewrite kbind_Ok; [reflexivity|apply updTCB_Ok; exact Hy]].
    eexists _, _. split; [reflexivity|]. split; [exact Hq'|].
    eapply same_rest_trans; [done|]. by eapply same_rest_insert.
Qed.

(** ** Endpoints *)

(** The threads [ts] wait on the endpoint in this order, to do [st]. *)
Definition ep_waits (s : kstate) (epptr st : Z) (ts : list Z) : Prop :=
  ∃ e, ks_ep s !! epptr = Some e ∧
    ep_state e = (if bool_decide (ts = []) then EPState_Idle else st) ∧
    dqueue (ks_tcb s) (ep_ptr_get_queue e) ts ∧ Forall (high_field 28) ts.

(** What a thread waits to do: send or receive. *)
Definition waiting_state (st : Z) : Prop := st = EPState_Send ∨ st = EPState_Recv.

Lemma waiting_state_field st : waiting_state st → field 2 st = st ∧ st ≠ EPState_Idle.
Proof. by intros [-> | ->]. Qed.

Lemma high_field_id n v : high_field n v → 0 < n ≤ 32 → field_high n v = v.
Proof. intros [H1 H2] Hn. by apply field_high_id. Qed.

Lemma queue_ends_high h q ts :
  dqueue h q ts → Forall (high_field 28) ts → high_field 28 (queue_head q) ∧ high_field 28 (queue_end q).
Proof.
  intros (_ & _ & Hh & He) HF. rewrite Hh, He. destruct ts as [|t ts].
  - split; cbn; by apply high_field_0.
  - split; [by inversion HF|]. rewrite Forall_forall in HF. apply HF. by apply last_in.
Qed.

Lemma ep_queue_set h q ts e :
  dqueue h q ts → Forall (high_field 28) ts → ep_ptr_get_queue (endpoint_set_queue q e) = q.
Proof.
  intros Hq HF. destruct (queue_ends_high _ _ _ Hq HF) as [H1 H2].
  unfold ep_ptr_get_queue, endpoint_set_queue. cbn -[field_high].
  rewrite !high_field_id by (done || lia). by destruct q.
Qed.

Lemma same_links_upd h y x x' D :
  h !! y = Some x → lprev x' = lprev x → lnext x' = lnext x → same_links h (<[y := x']> h) D.
Proof.
  intros Hx Hp Hn z _. destruct (decide (z = y)) as [->|].
  - rewrite lookup_insert_eq, Hx. cbn in *. by rewrite Hp, Hn.
  - by rewrite lookup_insert_ne.
Qed.

Lemma ep_waits_frame s s' epptr st ts :
  ks_ep s' = ks_ep s → same_links (ks_tcb s) (ks_tcb s') ts →
  ep_waits s epptr st ts → ep_waits s' epptr st ts.
Proof.
  intros E Hl (e & He & Hst & Hq & HF). exists e. rewrite E. split_and!; try done.
  by eapply dqueue_frame.
Qed.

Section Endpoints.
Context {cfg : KernelConfig}.

(** Changing the state of a thread reschedules at most; it touches no queue of
    an endpoint. *)
Lemma scheduleTCB_Ok t x s :
  ks_tcb s !! t = Some x → ∃ a, scheduleTCB t s = Ok tt (upd_ksSchedulerAction a s).
Proof using.
  intros Hx. unfold scheduleTCB, isRunnable, getTsType. ksteps.
  destruct (_ && _) eqn:E; [|by exists (ksSchedulerAction s); destruct s].
  apply andb_true_iff in E as [_ E]. apply Z.eqb_eq in E.
  erewrite kbind_Ok; [|erewrite kbind_Ok; [reflexivity|by apply getTCBf_Ok]].
  destruct (thread_isRunnable _); cbn [negb kwhen]; [by exists (ksSchedulerAction s); destruct s|].
  unfold rescheduleRequired, setSchedulerAction. kstep. rewrite E. cbn [Z.eqb negb andb kwhen SchedulerAction_ResumeCurrentThread].
  kstep. by eexists.
Qed.

Lemma setThreadState_Ok t x ts s :
  ks_tcb s !! t = Some x →
  ∃ a, setThreadState t ts s = Ok tt (upd_ksSchedulerAction a
    (upd_ks_tcb (<[t := set_tcbState (thread_state_set_tsType ts (tcbState x)) x]> (ks_tcb s)) s)).
Proof using.
  intros Hx. unfold setThreadState, updState. kload.
  set (x' := set_tcbState _ x).
  destruct (scheduleTCB_Ok t x' (upd_ks_tcb (<[t := x']> (ks_tcb s)) s)) as [a E];
    [apply lookup_insert_eq|]. by exists a.
Qed.

(** Blocking puts the thread at the end of the queue. *)
Lemma block_on_endpoint_Ok epptr thread st f ts x s :
  waiting_state st → ep_waits s epptr st ts → thread ∉ ts → thread ≠ 0 → high_field 28 thread →
  ks_tcb s !! thread = Some x →
  ∃ s' x', block_on_endpoint epptr thread st f s = Ok tt s' ∧ ep_waits s' epptr st (ts ++ [thread]) ∧
    ks_tcb s' !! thread = Some x' ∧ tcbState x' = f (tcbState x) ∧
    ∀ y, y ≠ thread → ep_rest <$> ks_tcb s' !! y = ep_rest <$> ks_tcb s !! y.
Proof using.
  intros Hst (e & He & Hes & Hq & HF) Hnin Hnz Hhi Hx. unfold block_on_endpoint, updState. kload.
  set (x1 := set_tcbState (f (tcbState x)) x).
  set (s1 := upd_ks_tcb (<[thread := x1]> (ks_tcb s)) s).
  destruct (scheduleTCB_Ok thread x1 s1) as [a E]; [apply lookup_insert_eq|].
  rewrite (kbind_Ok _ _ _ _ _ E). set (s2 := upd_ksSchedulerAction a s1).
  rewrite (kbind_Ok _ _ s2 _ _ (getEP_Ok epptr e s2 He)).
  destruct (tcbEPAppend_Ok thread (ep_ptr_get_queue e) ts x1 s2) as (q & h & Eq & Hq' & Hs);
    [|done|done|apply lookup_insert_eq|].
  { eapply dqueue_frame; [|done]. cbn. by eapply same_links_upd. }
  rewrite (kbind_Ok _ _ _ _ _ Eq). set (s3 := upd_ks_tcb h s2).
  unfold endpoint_ptr_set_state, ep_ptr_set_queue.
  rewrite (kbind_Ok _ _ s3 _ _ (updEP_Ok epptr _ e s3 He)).
  rewrite (updEP_Ok epptr _ (endpoint_set_state st e)) by apply lookup_insert_eq.
  destruct (waiting_state_field st Hst) as [Hf _].
  destruct (same_rest_lookup _ _ thread x1 Hs) as (x' & Hx' & Er); [apply lookup_insert_eq|].
  assert (Forall (high_field 28) (ts ++ [thread])) as HF' by (apply Forall_app; auto).
  eexists _, x'. split; [reflexivity|]. split_and!.
  - eexists. split; [cbn; apply lookup_insert_eq|]. split_and!; [|..|done].
    + rewrite bool_decide_eq_false_2 by by destruct ts. exact Hf.
    + rewrite (ep_queue_set h q (ts ++ [thread])) by done. exact Hq'.
  - exact Hx'.
  - by apply ep_rest_state in Er.
  - intros y Hy. cbn. rewrite (Hs y). cbn. by rewrite lookup_insert_ne.
Qed.

(** Removing a waiting thread; the endpoint is idle when none is left. *)
Definition ep_remove (epptr thread : Z) (e : endpoint_t) : K unit :=
  let! queue := tcbEPDequeue thread (ep_ptr_get_queue e) in
  ep_ptr_set_queue epptr queue ;;;
  kwhen (queue_head queue =? 0) (endpoint_ptr_set_state epptr EPState_Idle).

Lemma ep_remove_Ok epptr t st l1 l2 e s :
  waiting_state st → ep_waits s epptr st (l1 ++ t :: l2) → ks_ep s !! epptr = Some e →
  ∃ h eps, ep_remove epptr t e s = Ok tt (upd_ks_ep eps (upd_ks_tcb h s)) ∧
    ep_waits (upd_ks_ep eps (upd_ks_tcb h s)) epptr st (l1 ++ l2) ∧ same_rest (ks_tcb s) h.
Proof using.
  intros Hst (e' & He' & Hes & Hq & HF) He. assert (e' = e) as -> by congruence.
  destruct (tcbEPDequeue_Ok l1 t l2 _ s Hq) as (q & h & Eq & Hq' & Hs).
  unfold ep_remove, ep_ptr_set_queue, endpoint_ptr_set_state.
  rewrite (kbind_Ok _ _ _ _ _ Eq).
  rewrite (kbind_Ok _ _ _ _ _ (updEP_Ok epptr _ e (upd_ks_tcb h s) He)).
  assert (Forall (high_field 28) (l1 ++ l2)) as HF'.
  { apply Forall_app in HF as [H1 H2]. inversion H2. by apply Forall_app. }
  rewrite bool_decide_eq_false_2 in Hes by by destruct l1.
  pose proof (dqueue_empty _ _ _ Hq') as Hemp.
  destruct (Z.eqb_spec (queue_head q) 0) as [Hz|Hz]; cbn [kwhen].
  - rewrite (updEP_Ok epptr _ (endpoint_set_queue q e)) by apply lookup_insert_eq.
    eexists h, _. split; [reflexivity|]. split; [|done].
    eexists. split; [cbn; apply lookup_insert_eq|]. split_and!; [|..|done].
    + rewrite (bool_decide_eq_true_2 (l1 ++ l2 = [])) by by apply Hemp. done.
    + change (dqueue h (ep_ptr_get_queue (endpoint_set_queue q e)) (l1 ++ l2)).
      by rewrite (ep_queue_set h q (l1 ++ l2)).
  - eexists h, _. split; [reflexivity|]. split; [|done].
    eexists. split; [cbn; apply lookup_insert_eq|]. split_and!; [|..|done].
    + rewrite (bool_decide_eq_false_2 (l1 ++ l2 = [])) by (by rewrite <- Hemp). done.
    + by rewrite (ep_queue_set h q (l1 ++ l2)).
Qed.
End Endpoints.
