(* ===== verification/IpcTheorems.v ===== *)
(** * Communication: endpoints and signals

    Threads that block on an endpoint are served in the order of their arrival;
    cancelling one removes exactly it; signals on an asynchronous endpoint are
    never lost. *)

From S2P Require Import Prelude.
From S2P Require Import Word32.
From S2P Require Import Structures.
From S2P Require Import State.
From S2P Require Import CapOps.
From S2P Require Import Queue.
From S2P Require Import VSpace.
From S2P Require Import Sched.
From S2P Require Import CSpace.
From S2P Require Import Finalise.
From S2P Require Import Ipc.
From S2P Require Import CapTheorems.
From S2P Require Import EndpointInv.

#[local] Existing Instance ep_links.

(** ** Blocking senders and receivers *)
Section Blocking.
Context {cfg : KernelConfig}.

(** The state [sendIPC] gives a thread that has to wait. *)
Definition blocked_sender (do_call : bool) (badge : Z) (canGrant : bool) (epptr : Z)
    (st : thread_state_t) : thread_state_t :=
  thread_state_set_blockingIPCIsCall do_call
    (thread_state_set_blockingIPCCanGrant canGrant
       (thread_state_set_blockingIPCBadge badge
          (thread_state_set_blockingIPCEndpoint epptr
             (thread_state_set_tsType ThreadState_BlockedOnSend st)))).

Lemma sendIPC_blocks do_call badge canGrant thread epptr ts x s :
  ep_waits s epptr EPState_Send ts → thread ∉ ts → thread ≠ 0 → high_field 28 thread →
  ks_tcb s !! thread = Some x →
  ∃ s' x', sendIPC true do_call badge canGrant thread epptr s = Ok tt s' ∧
    ep_waits s' epptr EPState_Send (ts ++ [thread]) ∧ ks_tcb s' !! thread = Some x' ∧
    tcbState x' = blocked_sender do_call badge canGrant epptr (tcbState x) ∧
    ∀ y, y ≠ thread → ep_rest <$> ks_tcb s' !! y = ep_rest <$> ks_tcb s !! y.
Proof using.
  intros Hw Hnin Hnz Hhi Hx. pose proof Hw as (e & He & Hes & _). unfold sendIPC. kload.
  assert ((ep_state e =? EPState_Idle) || (ep_state e =? EPState_Send) = true) as ->.
  { rewrite Hes. by destruct (bool_decide _). }
  cbn [kwhen].
  apply (block_on_endpoint_Ok epptr thread EPState_Send (blocked_sender do_call badge canGrant epptr)
    ts x s); try done. by left.
Qed.

(** Taking waiting threads one after the other. *)
Fixpoint take_waiting (n : nat) (epptr : Z) : K (list Z) :=
  match n with
  | O => kret []
  | S n =>
      let! t := ep_dequeue_head epptr in
      let! ts := take_waiting n epptr in
      kret (t :: ts)
  end.

Lemma ep_dequeue_head_Ok epptr t st ts s :
  waiting_state st → ep_waits s epptr st (t :: ts) →
  ∃ s', ep_dequeue_head epptr s = Ok t s' ∧ ep_waits s' epptr st ts ∧
    same_rest (ks_tcb s) (ks_tcb s').
Proof using.
  intros Hst Hw. pose proof Hw as (e & He & Hes & Hq & HF).
  unfold ep_dequeue_head. kload.
  assert (queue_head (ep_ptr_get_queue e) = t ∧ t ≠ 0) as [-> Hnz].
  { destruct Hq as (_ & Hs & Hh & _). split; [done|]. by destruct Hs. }
  rewrite kassert_true by by apply negb_true_iff, Z.eqb_neq.
  destruct (ep_remove_Ok epptr t st [] ts e s Hst Hw He) as (h & eps & E & Hw' & Hs).
  unfold ep_remove in E. apply kbind_Ok_inv in E as (q & s1 & E1 & E2).
  rewrite (kbind_Ok _ _ _ _ _ E1). apply kbind_Ok_inv in E2 as ([] & s2 & E2 & E3).
  rewrite (kbind_Ok _ _ _ _ _ E2), (kbind_Ok _ _ _ _ _ E3). by eexists.
Qed.

Lemma take_waiting_Ok epptr st ts s :
  waiting_state st → ep_waits s epptr st ts →
  ∃ s', take_waiting (length ts) epptr s = Ok ts s' ∧ ep_waits s' epptr st [].
Proof using.
  intros Hst. revert s. induction ts as [|t ts IH]; intros s Hw; [by exists s|].
  cbn [length take_waiting].
  destruct (ep_dequeue_head_Ok epptr t st ts s Hst Hw) as (s1 & E1 & Hw1 & _).
  destruct (IH s1 Hw1) as (s2 & E2 & Hw2).
  rewrite (kbind_Ok _ _ _ _ _ E1), (kbind_Ok _ _ _ _ _ E2). by exists s2.
Qed.

Lemma senders_block do_call badge canGrant epptr ts0 ts s :
  ep_waits s epptr EPState_Send ts0 → NoDup (ts0 ++ ts) →
  Forall (λ t, t ≠ 0 ∧ high_field 28 t ∧ is_Some (ks_tcb s !! t)) ts →
  ∃ s', kfor ts (λ t, sendIPC true do_call badge canGrant t epptr) s = Ok tt s' ∧
    ep_waits s' epptr EPState_Send (ts0 ++ ts).
Proof using.
  revert ts0 s. induction ts as [|t ts IH]; intros ts0 s Hw Hnd HF.
  - exists s. by rewrite app_nil_r.
  - apply Forall_cons in HF as [(Hnz & Hhi & x & Hx) HF].
    pose proof Hnd as (Ht1 & Ht2 & _)%NoDup_app_cons_inv.
    destruct (sendIPC_blocks do_call badge canGrant t epptr ts0 x s Hw Ht1 Hnz Hhi Hx)
      as (s1 & x' & E & Hw1 & _ & _ & Hrest).
    cbn [kfor]. rewrite (kbind_Ok _ _ _ _ _ E).
    replace (ts0 ++ t :: ts) with ((ts0 ++ [t]) ++ ts) in * by (by rewrite <- app_assoc).
    apply (IH (ts0 ++ [t]) s1 Hw1 Hnd).
    apply Forall_forall. rewrite Forall_forall in HF. intros y Hy.
    destruct (HF y Hy) as (? & ? & xy & Hxy). split_and!; try done.
    pose proof (Hrest y ltac:(by intros ->)) as Hr. rewrite Hxy in Hr.
    by destruct (ks_tcb s1 !! y).
Qed.

(** ** Signals *)
Lemma aep_set_active_Ok p b a s :
  ks_aep s !! p = Some a →
  aep_set_active p b s = Ok tt (upd_ks_aep (<[p := aep_set_msg b (aep_set_state AEPState_Active a)]>
    (ks_aep s)) s).
Proof using.
  intros Ha. unfold aep_set_active, async_endpoint_ptr_set_state. kload.
  rewrite (updAEP_Ok p _ (aep_set_state AEPState_Active a)) by apply lookup_insert_eq.
  cbn [ks_aep upd_ks_aep]. by rewrite insert_insert_eq.
Qed.

(** An asynchronous endpoint on which signals of union [m] are pending. *)
Definition pending (m : Z) (a : async_endpoint_t) : Prop :=
  aep_state a = AEPState_Active ∧ aepMsgIdentifier a = w32 m.

Lemma more_signals p bs m a s :
  ks_aep s !! p = Some a → pending m a → is_w32 m → Forall is_w32 bs →
  ∃ a', kfor bs (sendAsyncIPC p) s = Ok tt (upd_ks_aep (<[p := a']> (ks_aep s)) s) ∧
    pending (foldl Z.lor m bs) a'.
Proof using.
  revert m a s. induction bs as [|b bs IH]; intros m a s Ha [Hst Hm] Hw HF.
  - exists a. split; [|done]. cbn. rewrite insert_id by done. by destruct s.
  - apply Forall_cons in HF as [Hb HF]. cbn [kfor foldl].
    set (a1 := aep_set_msg (Z.lor m b) a).
    assert (sendAsyncIPC p b s = Ok tt (upd_ks_aep (<[p := a1]> (ks_aep s)) s)) as E.
    { unfold sendAsyncIPC. kload. rewrite Hst. cbn [Z.eqb AEPState_Active AEPState_Idle AEPState_Waiting Pos.eqb].
      rewrite Hm, (w32_id m) by done. by apply updAEP_Ok. }
    rewrite (kbind_Ok _ _ _ _ _ E).
    destruct (IH (Z.lor m b) a1 (upd_ks_aep (<[p := a1]> (ks_aep s)) s)) as (a' & E' & Hp');
      [apply lookup_insert_eq|done|by apply w32_lor|done|].
    exists a'. split; [|done]. rewrite E'. cbn [ks_aep upd_ks_aep]. by rewrite insert_insert_eq.
Qed.

(** Cancelling the wait of a thread on an endpoint. *)
Lemma ipcCancel_waiting fin t x epptr st l1 l2 s :
  waiting_state st → ep_waits s epptr st (l1 ++ t :: l2) → ks_tcb s !! t = Some x →
  tsType (tcbState x) = ThreadState_BlockedOnSend ∨
  tsType (tcbState x) = ThreadState_BlockedOnReceive →
  blockingIPCEndpoint (tcbState x) = epptr →
  ∃ s' x', ipcCancel_with fin t s = Ok tt s' ∧ ep_waits s' epptr st (l1 ++ l2) ∧
    ks_tcb s' !! t = Some x' ∧
    tcbState x' = thread_state_set_tsType ThreadState_Inactive (tcbState x) ∧
    ∀ y, y ≠ t → ep_rest <$> ks_tcb s' !! y = ep_rest <$> ks_tcb s !! y.
Proof using.
  intros Hst Hw Hx Hts Hep. pose proof Hw as (e & He & Hes & Hq & HF).
  rewrite bool_decide_eq_false_2 in Hes by by destruct l1.
  destruct (waiting_state_field st Hst) as [_ Hni].
  destruct (ep_remove_Ok epptr t st l1 l2 e s Hst Hw He) as (h & eps & E & Hw' & Hs).
  destruct (same_rest_lookup _ _ t x Hs Hx) as (x1 & Hx1 & Er).
  set (s1 := upd_ks_ep eps (upd_ks_tcb h s)) in *.
  destruct (setThreadState_Ok t x1 ThreadState_Inactive s1 Hx1) as [act Ea].
  unfold ep_remove in E. apply kbind_Ok_inv in E as (q & s2 & E2 & E3).
  apply kbind_Ok_inv in E3 as ([] & s3 & E3 & E4).
  set (x2 := set_tcbState _ x1) in *. eexists _, x2. split.
  - unfold ipcCancel_with. kload.
    destruct Hts as [-> | ->]; rewrite Hep; kload; rewrite Hes;
      (rewrite kassert_true by by apply negb_true_iff, Z.eqb_neq);
      rewrite (kbind_Ok _ _ _ _ _ E2), (kbind_Ok _ _ _ _ _ E3), (kbind_Ok _ _ _ _ _ E4); exact Ea.
  - split_and!.
    + apply (ep_waits_frame s1); [done| |exact Hw']. cbn. by eapply same_links_upd.
    + apply lookup_insert_eq.
    + unfold x2. cbn [tcbState set_tcbState]. by rewrite (ep_rest_state _ _ Er).
    + intros y Hy. cbn. rewrite lookup_insert_ne by done. apply Hs.
Qed.
End Blocking.

(** C30. A synchronous endpoint is a first-in first-out queue: threads that send
    in turn while nobody receives block in the order of their calls, and taking
    the waiting threads one after the other returns them in that order and
    leaves the endpoint idle; none of these operations fails. *)
Theorem endpoint_fifo {cfg : KernelConfig} do_call badge canGrant epptr ts s :
  ep_waits s epptr EPState_Send [] → NoDup ts →
  Forall (λ t, t ≠ 0 ∧ high_field 28 t ∧ is_Some (ks_tcb s !! t)) ts →
  ∃ s', (kfor ts (λ t, sendIPC true do_call badge canGrant t epptr) ;;;
         take_waiting (length ts) epptr) s = Ok ts s' ∧
    ep_waits s' epptr EPState_Send [].
Proof.
  intros Hw Hnd HF.
  destruct (senders_block do_call badge canGrant epptr [] ts s Hw Hnd HF) as (s1 & E1 & Hw1).
  destruct (take_waiting_Ok epptr EPState_Send ts s1 ltac:(by left) Hw1) as (s2 & E2 & Hw2).
  exists s2. by rewrite (kbind_Ok _ _ _ _ _ E1).
Qed.

(** Two threads and an idle endpoint. *)
Definition ipc_tcb : tcb_t :=
  tcb (repeat 0 18) (thread_state 0 false false false false 0 ThreadState_Running) 0
    fault_null_fault lookup_fault_invalid_root 0 100 5 0 0 0 0 0 0.
Definition ipc_state : kstate :=
  upd_ks_aep {[0xf0400000 := async_endpoint 0 0 0 0 AEPState_Idle]}
    (upd_ks_ep {[0xf0500000 := endpoint 0 0 EPState_Idle]}
      (upd_ks_tcb {[0xf0300100 := ipc_tcb; 0xf0300300 := ipc_tcb]} empty_kstate)).
Lemma ipc_state_idle : ep_waits ipc_state 0xf0500000 EPState_Send [].
Proof. exists (endpoint 0 0 EPState_Idle). split_and!; try done. by split_and!; [constructor|..]. Qed.
Lemma ipc_addr t : 0 ≤ t < 2 ^ 32 → t mod 16 = 0 → high_field 28 t.
Proof. by split. Qed.

Lemma endpoint_fifo_witness :
  ∃ s', (kfor [0xf0300300; 0xf0300100] (λ t, sendIPC (cfg := kzm_config) true true 7 false t 0xf0500000) ;;;
         take_waiting 2 0xf0500000) ipc_state = Ok [0xf0300300; 0xf0300100] s' ∧
    ep_waits s' 0xf0500000 EPState_Send [].
Proof.
  apply (endpoint_fifo (cfg := kzm_config) true 7 false 0xf0500000 [0xf0300300; 0xf0300100] ipc_state
    ipc_state_idle).
  - apply (bool_decide_eq_true_1 _). by vm_compute.
  - repeat constructor; try done; by eexists.
Defined.

(** A thread that sends while nobody receives: a blocking call puts it at
    the end of the queue, in the state that records the endpoint, its badge,
    whether it may grant and whether it calls; no other thread changes but for
    its links in the queue.  A non-blocking call is dropped without a trace. *)
Theorem sendIPC_waits {cfg : KernelConfig} do_call badge canGrant thread epptr ts x s :
  ep_waits s epptr EPState_Send ts → thread ∉ ts → thread ≠ 0 → high_field 28 thread →
  ks_tcb s !! thread = Some x →
  sendIPC false do_call badge canGrant thread epptr s = Ok tt s ∧
  ∃ s' x', sendIPC true do_call badge canGrant thread epptr s = Ok tt s' ∧
    ep_waits s' epptr EPState_Send (ts ++ [thread]) ∧ ks_tcb s' !! thread = Some x' ∧
    tsType (tcbState x') = ThreadState_BlockedOnSend ∧
    blockingIPCEndpoint (tcbState x') = field_high 28 epptr ∧
    blockingIPCBadge (tcbState x') = field 28 badge ∧
    blockingIPCCanGrant (tcbState x') = canGrant ∧ blockingIPCIsCall (tcbState x') = do_call ∧
    ∀ y, y ≠ thread → ep_rest <$> ks_tcb s' !! y = ep_rest <$> ks_tcb s !! y.
Proof.
  intros Hw Hnin Hnz Hhi Hx. split.
  - pose proof Hw as (e & He & Hes & _). unfold sendIPC. kload. rewrite Hes.
    by destruct (bool_decide _).
  - destruct (sendIPC_blocks do_call badge canGrant thread epptr ts x s Hw Hnin Hnz Hhi Hx)
      as (s' & x' & E & Hw' & Hx' & Est & Hrest).
    exists s', x'. by rewrite Est.
Qed.

Lemma sendIPC_waits_witness :
  ∃ s', sendIPC (cfg := kzm_config) true true 7 false 0xf0300100 0xf0500000 ipc_state = Ok tt s' ∧
    ep_waits s' 0xf0500000 EPState_Send [0xf0300100].
Proof.
  destruct (sendIPC_waits (cfg := kzm_config) true 7 false 0xf0300100 0xf0500000 [] ipc_tcb ipc_state
    ipc_state_idle) as (_ & s' & x' & E & Hw & _); [by intros ?%elem_of_nil|done|by apply ipc_addr|done|].
  by exists s'.
Defined.

(** C31. Cancelling the communication of a thread that waits on an endpoint takes
    exactly this thread out of the queue, wherever it stands, keeps the order
    of the others, makes the endpoint idle when it was the last one, and leaves
    the thread inactive. *)
Theorem ipcCancel_correct {cfg : KernelConfig} t x epptr st l1 l2 s :
  waiting_state st → ep_waits s epptr st (l1 ++ t :: l2) → ks_tcb s !! t = Some x →
  tsType (tcbState x) = ThreadState_BlockedOnSend ∨
  tsType (tcbState x) = ThreadState_BlockedOnReceive →
  blockingIPCEndpoint (tcbState x) = epptr →
  ∃ s' x', ipcCancel t s = Ok tt s' ∧ ep_waits s' epptr st (l1 ++ l2) ∧
    ks_tcb s' !! t = Some x' ∧
    tcbState x' = thread_state_set_tsType ThreadState_Inactive (tcbState x) ∧
    ∀ y, y ≠ t → ep_rest <$> ks_tcb s' !! y = ep_rest <$> ks_tcb s !! y.
Proof. apply ipcCancel_waiting. Qed.

Lemma ipcCancel_correct_witness :
  ∃ s s', ep_waits s 0xf0500000 EPState_Send [0xf0300100] ∧
    ipcCancel (cfg := kzm_config) 0xf0300100 s = Ok tt s' ∧
    ep_waits s' 0xf0500000 EPState_Send [].
Proof.
  destruct (sendIPC_blocks (cfg := kzm_config) true 7 false 0xf0300100 0xf0500000 [] ipc_tcb ipc_state
    ipc_state_idle) as (s & x & E & Hw & Hx & Est & _); [by intros ?%elem_of_nil|done|by apply ipc_addr|done|].
  exists s. destruct (ipcCancel_correct (cfg := kzm_config) 0xf0300100 x 0xf0500000 EPState_Send [] [] s)
    as (s' & x' & Ec & Hw' & _); [by left|done|done|left; by rewrite Est|by rewrite Est|].
  by exists s'.
Defined.

(** Signals are not lost: any number of signals sent to an asynchronous
    endpoint while nobody waits on it add up, and one receive then delivers the
    union of their badges in the badge register and empties the endpoint. *)
Theorem signals_accumulate {cfg : KernelConfig} p b bs a thread x recv send badge blocking s :
  ks_aep s !! p = Some a → aep_state a = AEPState_Idle → aepBoundTCB a = 0 →
  Forall is_w32 (b :: bs) → ks_tcb s !! thread = Some x → length (tcbContext x) = 18%nat →
  ∃ s' a' x', (kfor (b :: bs) (sendAsyncIPC p) ;;;
              receiveAsyncIPC thread (cap_async_endpoint_cap badge recv send p) blocking) s = Ok tt s' ∧
    ks_tcb s' !! thread = Some x' ∧
    nth (Z.to_nat badgeRegister) (tcbContext x') 0 = foldl Z.lor b bs ∧
    ks_aep s' !! p = Some a' ∧ aep_state a' = AEPState_Idle.
Proof.
  intros Ha Hidle Hb HF Hx Hlen. pose proof HF as [Hwb HFb]%Forall_cons.
  set (a1 := aep_set_msg b (aep_set_state AEPState_Active a)).
  set (s1 := upd_ks_aep (<[p := a1]> (ks_aep s)) s).
  assert (sendAsyncIPC p b s = Ok tt s1) as E1.
  { unfold sendAsyncIPC. kload. rewrite Hidle, Hb. by apply aep_set_active_Ok. }
  destruct (more_signals p bs b a1 s1) as (a2 & E2 & Hst & Hm);
    [apply lookup_insert_eq|done|done|done|].
  assert (is_w32 (foldl Z.lor b bs)) as Hw.
  { clear -Hwb HFb. revert b Hwb. induction HFb as [|c bs Hc HF IH]; intros b Hb; [done|].
    cbn. apply IH. by apply w32_lor. }
  assert (kfor (b :: bs) (sendAsyncIPC p) s =
    Ok tt (upd_ks_aep (<[p := a2]> (ks_aep s1)) s1)) as E by
    (cbn [kfor]; by rewrite (kbind_Ok _ _ _ _ _ E1)).
  set (s2 := upd_ks_aep (<[p := a2]> (ks_aep s1)) s1) in *.
  assert (ks_aep s2 !! p = Some a2) as Ha2 by apply lookup_insert_eq.
  rewrite (kbind_Ok _ _ _ _ _ E). unfold receiveAsyncIPC. cbn [kopt]. kstep. kload. rewrite Hst.
  cbn [orb Z.eqb AEPState_Active AEPState_Idle AEPState_Waiting Pos.eqb].
  unfold setRegister, async_endpoint_ptr_set_state.
  rewrite (kbind_Ok _ _ s2 _ _ (updTCB_Ok thread _ x s2 Hx)).
  erewrite updAEP_Ok by exact Ha2.
  eexists _, _, _. split; [reflexivity|]. split; [cbn; apply lookup_insert_eq|]. split.
  - cbn [tcbContext set_tcbContext]. rewrite Hm, w32_idemp, w32_id by done.
    destruct (tcbContext x); [done|]. done.
  - split; [cbn; apply lookup_insert_eq|done].
Qed.

Lemma signals_accumulate_witness :
  ∃ s' a' x', (kfor [1; 4; 16] (sendAsyncIPC (cfg := kzm_config) 0xf0400000) ;;;
    receiveAsyncIPC (cfg := kzm_config) 0xf0300100 (cap_async_endpoint_cap 0 true true 0xf0400000) false)
      ipc_state = Ok tt s' ∧
    ks_tcb s' !! 0xf0300100 = Some x' ∧ nth 0 (tcbContext x') 0 = 21 ∧
    ks_aep s' !! 0xf0400000 = Some a' ∧ aep_state a' = AEPState_Idle.
Proof.
  apply (signals_accumulate (cfg := kzm_config) 0xf0400000 1 [4; 16]
    (async_endpoint 0 0 0 0 AEPState_Idle) 0xf0300100 ipc_tcb true true 0 false ipc_state); try done.
  repeat (apply Forall_cons; split); [unfold is_w32; lia..|by apply Forall_nil].
Defined.
