(* ===== verification/FinaliseTheorems.v ===== *)
(** * Finalisation and deletion

    The mutual recursion of finalising and deleting is bounded: two levels are
    always enough.  The proof rewrites with the pointwise equality of
    computations. *)

From S2P Require Import Prelude.
From S2P Require Import Word32.
From S2P Require Import Structures.
From S2P Require Import State.
From S2P Require Import CapOps.
From S2P Require Import Cdt.
From S2P Require Import VSpace.
From S2P Require Import Sched.
From S2P Require Import CSpace.
From S2P Require Import Finalise.

(** [kcong tac] proves two computations equal that differ only where [tac]
    knows an equation. *)
Ltac kcong tac :=
  repeat first
    [ match goal with |- meq ?m ?m => reflexivity end | tac
    | apply kbind_proper; [|intros ?]
    | apply kwhen_proper
    | match goal with |- meq (match ?x with _ => _ end) _ => destruct x end ].

(** ** Nested calls *)
Section Nested.
Context {cfg : KernelConfig}.

(** Two finalisers that agree on exposed calls. *)
Definition same_exposed (fin fin' : cap_t → bool → bool → K (cap_t * Z)) : Prop :=
  ∀ c final, fin c final true ≡ₖ fin' c final true.


Lemma drop_cap_ext fin fin' slot :
  same_exposed fin fin' → drop_cap fin slot ≡ₖ drop_cap fin' slot.
Proof using. unfold same_exposed. intros H. unfold drop_cap. by setoid_rewrite H. Qed.

Lemma deleteCallerCap_ext fin fin' receiver :
  same_exposed fin fin' → deleteCallerCap_with fin receiver ≡ₖ deleteCallerCap_with fin' receiver.
Proof using. intros H. unfold deleteCallerCap_with. kcong ltac:(by apply drop_cap_ext). Qed.

Lemma ipcCancel_ext fin fin' t :
  same_exposed fin fin' → ipcCancel_with fin t ≡ₖ ipcCancel_with fin' t.
Proof using. intros H. unfold ipcCancel_with. kcong ltac:(by apply drop_cap_ext). Qed.

Lemma suspend_ext fin fin' t :
  same_exposed fin fin' → suspend_with fin t ≡ₖ suspend_with fin' t.
Proof using.
  intros H. unfold suspend_with.
  kcong ltac:(first [by apply ipcCancel_ext | by apply deleteCallerCap_ext]).
Qed.

Lemma cteDeleteOne_ext fin fin' slot :
  same_exposed fin fin' → cteDeleteOne_with fin slot ≡ₖ cteDeleteOne_with fin' slot.
Proof using. intros H. unfold cteDeleteOne_with. kcong ltac:(apply H). Qed.

Lemma finaliseCap_body_ext fin fin' c final exposed :
  same_exposed fin fin' →
  finaliseCap_body fin c final exposed ≡ₖ finaliseCap_body fin' c final exposed.
Proof using.
  intros H. unfold finaliseCap_body, deletingIRQHandler_with.
  kcong ltac:(first [by apply suspend_ext | by apply cteDeleteOne_ext]).
Qed.

(** A nested call makes no further one. *)
Lemma finaliseCap_exposed fin fin' : same_exposed (finaliseCap_body fin) (finaliseCap_body fin').
Proof using. intros c final. by destruct c. Qed.

Lemma finaliseCap_two n c final exposed :
  finaliseCap_fuel (S (S n)) c final exposed ≡ₖ finaliseCap c final exposed.
Proof using.
  apply finaliseCap_body_ext. cbn [finaliseCap_fuel]. apply finaliseCap_exposed.
Qed.

(** ** Deletion *)

(** Two deletions that agree on unexposed calls. *)
Definition same_unexposed (del del' : Z → bool → K exception_t) : Prop :=
  ∀ slot, del slot false ≡ₖ del' slot false.

Lemma reduceZombie_ext del del' slot immediate :
  (immediate = true → same_unexposed del del') →
  reduceZombie del slot immediate ≡ₖ reduceZombie del' slot immediate.
Proof using. intros H. unfold reduceZombie. destruct immediate; kcong ltac:(by apply H). Qed.

Lemma finaliseSlot_loop_ext del del' fuel slot immediate :
  (immediate = true → same_unexposed del del') →
  finaliseSlot_loop del fuel slot immediate ≡ₖ finaliseSlot_loop del' fuel slot immediate.
Proof using.
  intros H. revert slot. induction fuel as [|fuel IH]; intros slot; [done|].
  cbn [finaliseSlot_loop]. kcong ltac:(first [by apply reduceZombie_ext | apply IH]).
Qed.

Lemma cteDelete_body_ext del del' slot exposed :
  (exposed = true → same_unexposed del del') →
  cteDelete_body del slot exposed ≡ₖ cteDelete_body del' slot exposed.
Proof using.
  intros H. unfold cteDelete_body, finaliseSlot_with.
  kcong ltac:(by apply finaliseSlot_loop_ext).
Qed.

Lemma cteDelete_two n slot exposed : cteDelete_fuel (S (S n)) slot exposed ≡ₖ cteDelete slot exposed.
Proof using.
  apply cteDelete_body_ext. intros _ slot'. cbn [cteDelete_fuel].
  by apply cteDelete_body_ext.
Qed.
End Nested.

