(* ===== verification/FastpathInv.v ===== *)
(** * Lemmas on the fast path

    The two lookups of a capability agree; the transfer of a short message; the
    states of threads up to the fields that are dead. *)

From S2P Require Import Prelude.
From S2P Require Import Word32.
From S2P Require Import Structures.
From S2P Require Import State.
From S2P Require Import CapOps.
From S2P Require Import Queue.
From S2P Require Import VSpace.
From S2P Require Import Sched.
From S2P Require Import CSpace.
From S2P Require Import Finalise.
From S2P Require Import Ipc.
From S2P Require Import Labels.
From S2P Require Import Syscall.
From S2P Require Import Fastpath.
From S2P Require Import CapTheorems.
From S2P Require Import EndpointInv.

(** ** Looking up a capability *)

(** The index of a level, taken from the top of the shifted address. *)
Lemma radix_offset capptr n radix :
  is_w32 capptr → 0 < radix ≤ n → n ≤ 32 → radix < 32 →
  Z.shiftr (w32 (Z.shiftl capptr (32 - n))) (32 - radix) = cnode_offset capptr n radix.
Proof.
  intros Hw Hr Hn Hr32. unfold cnode_offset. rewrite MASK_eq by lia.
  apply Z.bits_inj'. intros i Hi. rewrite Z.land_spec, !Z.shiftr_spec by lia. unfold w32.
  destruct (Z.lt_ge_cases i radix) as [Hlt|Hge].
  - rewrite Z.mod_pow2_bits_low, Z.shiftl_spec, Z.ones_spec_low, andb_true_r by lia.
    f_equal. lia.
  - by rewrite Z.mod_pow2_bits_high, Z.ones_spec_high, andb_false_r by lia.
Qed.

Lemma lookup_fp_loop_resolves s capptr cap n slot left c :
  resolves (ks_cte s) capptr cap n slot left → cnodes_ok (ks_cte s) → cnode_ok (ks_cte s) cap →
  is_w32 capptr → n ≤ 32 → ks_cte s !! slot = Some c →
  (left = 0 ∨ cap_get_capType (cteCap c) ≠ 10) →
  ∀ radix gs g ptr fuel, cap = cap_cnode_cap radix gs g ptr → n < Z.of_nat fuel →
  lookup_fp_loop fuel radix ptr capptr (32 - n) s = Ok (cteCap c) s.
Proof.
  intros Hres Hc. revert c.
  induction Hres as [radix gs g ptr Hr|radix gs g ptr n c' Hr Hl Ht|radix gs g ptr n c' slot left Hr Hl Ht Hres IH];
    intros c Hok Hw Hn Hslot Hcap radix' gs' g' ptr' fuel [= <- <- <- <-] Hfuel;
    (destruct fuel as [|fuel]; [lia|]); cbn [lookup_fp_loop]; destruct Hok as [Hr' Hs'];
    rewrite radix_offset by (done || lia).
  - kload. destruct (cteCap c); try done.
    by rewrite (proj2 (Z.ltb_ge _ _)) by lia.
  - rewrite Hl in Hslot. injection Hslot as ->. kload.
    destruct (cteCap c); try done.
  - kload. pose proof (Hc _ _ Hl) as Hok'.
    destruct (cteCap c') as [| | | | |radix2 gs2 g2 ptr2| | | | | | | |] eqn:Ec; try done.
    rewrite (proj2 (Z.ltb_lt _ _)) by (apply resolves_left in Hres; lia).
    replace (32 - n + radix) with (32 - (n - radix)) by lia.
    eapply IH; eauto; lia.
Qed.

(** When the slow path finds a capability, the fast path finds the same. *)
Lemma lookup_fp_lookupCap s thread croot cptr cap s' :
  cnodes_ok (ks_cte s) → ks_cte s !! TCB_PTR_CTE_PTR thread tcbCTable = Some croot →
  cap_wf (cteCap croot) → is_w32 cptr →
  lookupCap thread cptr s = Ok (EXCEPTION_NONE, cap) s' →
  lookup_fp (cteCap croot) cptr s = Ok cap s ∧ s' = s ∧
  ∃ slot c, lookupSlot thread cptr s = Ok (EXCEPTION_NONE, slot) s ∧
    ks_cte s !! slot = Some c ∧ cteCap c = cap.
Proof.
  intros Hc Hroot Hwf Hw Hlk. pose proof (Hc _ _ Hroot) as Hok.
  unfold lookupCap, lookupSlot in Hlk. unfold lookupSlot.
  rewrite (kbind_Ok _ _ _ _ _ (getCap_Ok _ _ _ Hroot)).
  apply kbind_Ok_inv in Hlk as ([st slot] & s1 & Hsl & Hlk).
  rewrite (kbind_Ok _ _ _ _ _ (getCap_Ok _ _ _ Hroot)) in Hsl.
  destruct (cteCap croot) as [| | | | |radix gs g ptr| | | | | | | |] eqn:Ec;
    try (by cbn [resolveAddressBits] in Hsl; unfold set_lookup_fault in Hsl; rewrite kbind_Ok with (a:=(EXCEPTION_LOOKUP_FAULT, 0, wordBits)) (s':=upd_current_lookup_fault lookup_fault_invalid_root s) in Hsl by done; cbn in Hsl; injection Hsl as <- <- <-; cbn in Hlk).
  destruct Hwf as (Hr5 & Hgs & _). unfold low_field, wordBits in *.
  pose proof (resolve_loop_spec s Hc (S (Z.to_nat 32)) radix gs g ptr cptr (32 - gs) Hok ltac:(lia))
    as Hloop.
  assert (∀ st slot left s2, resolve_loop (S (Z.to_nat 32)) radix ptr cptr (32 - gs) s = Ok (st, slot, left) s2 →
    resolveAddressBits (cap_cnode_cap radix gs g ptr) cptr 32 s =
      Ok (st, slot, match st with EXCEPTION_NONE => left | _ => 32 end) s2) as Hra.
  { intros st0 slot0 left0 s2 E. unfold resolveAddressBits. rewrite (proj2 (Z.ltb_ge 32 gs)) by lia.
    by rewrite (kbind_Ok _ _ _ _ _ E). }
  destruct Hloop as [(slot' & left & E & R)|(f & l & E & R)]; apply Hra in E;
    rewrite (kbind_Ok _ _ _ _ _ E) in Hsl.
  2:{ cbn in Hsl. injection Hsl as <- <- <-. by cbn in Hlk. }
  cbn in Hsl. injection Hsl as <- <- <-.
  apply kbind_Ok_inv in Hlk as (c0 & s2 & Hget & Hret).
  unfold getCap in Hget. apply kbind_Ok_inv in Hget as (c & s3 & Hd & Hret2).
  unfold getCTE, deref in Hd. destruct (ks_cte s !! slot') as [c'|] eqn:Hs'; [|done].
  injection Hd as -> <-. cbn in Hret2. injection Hret2 as <- <-.
  cbn in Hret. injection Hret as <- <-.
  assert (left = 0 ∨ cap_get_capType (cteCap c) ≠ 10) as Hend.
  { clear -R Hs'. induction R as [| |? ? ? ? ? ? ? ? ? ? ? ? IH]; [by left| |by apply IH].
    right. congruence. }
  split; [|split; [done|]].
  - unfold lookup_fp.
    replace gs with (32 - (32 - gs)) at 1 by lia.
    eapply lookup_fp_loop_resolves; [exact R|done|done|done|lia|done|done|reflexivity|lia].
  - exists slot', c. split; [|done]. by rewrite (kbind_Ok _ _ _ _ _ E).
Qed.

(** ** Messages of at most four words *)
Lemma set_ctx_same t : set_tcbContext (tcbContext t) t = t.
Proof. by destruct t. Qed.

(** The first [n] message registers of [src], put into [dst]. *)
Definition copy_reg (src dst : list Z) (r : Z) : list Z :=
  <[Z.to_nat r := w32 (nth (Z.to_nat r) src 0)]> dst.
Definition copy_regs (n : Z) (src dst : list Z) : list Z :=
  foldl (copy_reg src) dst (take (Z.to_nat n) msgRegisters).

Definition upd_ctx (f : list Z → list Z) (p : Z) (s : kstate) : kstate :=
  upd_ks_tcb (alter (λ t, set_tcbContext (f (tcbContext t)) t) p (ks_tcb s)) s.

Lemma alter_insert_Some {A} (f : A → A) (m : gmap Z A) p x :
  m !! p = Some x → alter f p m = <[p := f x]> m.
Proof.
  intros H. apply map_eq. intros i. destruct (decide (i = p)) as [->|].
  - by rewrite lookup_alter_eq, H, lookup_insert_eq.
  - by rewrite lookup_alter_ne, lookup_insert_ne by done.
Qed.

Lemma alter_swap {A} (f g : A → A) (m : gmap Z A) p q :
  p ≠ q → alter f p (alter g q m) = alter g q (alter f p m).
Proof.
  intros H. apply map_eq. intros i.
  destruct (decide (i = p)) as [->|]; [|destruct (decide (i = q)) as [->|]];
    repeat (rewrite lookup_alter_eq || rewrite lookup_alter_ne by done); done.
Qed.

Lemma upd_ctx_id p s : upd_ctx (λ c, c) p s = s.
Proof.
  unfold upd_ctx. rewrite alter_id; [by destruct s|]. intros t _. apply set_ctx_same.
Qed.

Lemma upd_ctx_lookup f p s t :
  ks_tcb s !! p = Some t → ks_tcb (upd_ctx f p s) !! p = Some (set_tcbContext (f (tcbContext t)) t).
Proof. intros H. cbn. by rewrite lookup_alter_eq, H. Qed.
Lemma upd_ctx_lookup_ne f p q s : p ≠ q → ks_tcb (upd_ctx f p s) !! q = ks_tcb s !! q.
Proof. intros H. cbn. by rewrite lookup_alter_ne. Qed.

Lemma upd_ctx_ctx f g p s : upd_ctx g p (upd_ctx f p s) = upd_ctx (λ c, g (f c)) p s.
Proof.
  unfold upd_ctx. cbn [ks_tcb upd_ks_tcb]. rewrite upd_tcb_idem. f_equal.
  apply map_eq. intros i. destruct (decide (p = i)) as [->|].
  - rewrite !lookup_alter_eq. by destruct (ks_tcb s !! i).
  - by rewrite !lookup_alter_ne.
Qed.

Lemma getRegister_Ok p r t s :
  ks_tcb s !! p = Some t → getRegister p r s = Ok (nth (Z.to_nat r) (tcbContext t) 0) s.
Proof. intros H. unfold getRegister. by kload. Qed.
Lemma setRegister_Ok p r w t s :
  ks_tcb s !! p = Some t → setRegister p r w s = Ok tt (upd_ctx (<[Z.to_nat r := w32 w]>) p s).
Proof.
  intros H. unfold setRegister. rewrite (updTCB_Ok _ _ _ _ H). unfold upd_ctx.
  by rewrite (alter_insert_Some _ _ _ _ H).
Qed.

Lemma kbind_ext {S A B} (m : M S A) (k k' : A → M S B) s :
  (∀ a s', k a s' = k' a s') → kbind m k s = kbind m k' s.
Proof. intros H. unfold kbind. by destruct (m s). Qed.
Lemma kbind_ret_r {S} (m : M S unit) s : kbind m (λ _, kret tt) s = m s.
Proof. unfold kbind. by destruct (m s) as [[] ?| |]. Qed.

Section Transfers.
Context (src dst : Z) (Hne : src ≠ dst).

(** Copying one register, as the slow path and the fast path write it. *)
Lemma copy_one_Ok ts r td s :
  ks_tcb s !! src = Some ts → ks_tcb s !! dst = Some td →
  kbind (getRegister src r) (λ v, setRegister dst r v) s =
    Ok tt (upd_ctx (λ c, copy_reg (tcbContext ts) c r) dst s).
Proof using.
  intros Hs Hd. rewrite (kbind_Ok _ _ _ _ _ (getRegister_Ok _ r _ _ Hs)).
  by rewrite (setRegister_Ok _ _ _ _ _ Hd).
Qed.

Lemma copy_loop_Ok ts td (regs : list Z) s :
  ks_tcb s !! src = Some ts → ks_tcb s !! dst = Some td →
  kfor regs (λ r, kbind (getRegister src r) (λ v, setRegister dst r v)) s =
    Ok tt (upd_ctx (λ c, foldl (copy_reg (tcbContext ts)) c regs) dst s).
Proof using Hne.
  revert s td. induction regs as [|r regs IH]; intros s td Hs Hd.
  - cbn [kfor foldl]. by rewrite upd_ctx_id.
  - cbn [kfor]. rewrite (kbind_Ok _ _ _ _ _ (copy_one_Ok _ r _ _ Hs Hd)).
    erewrite IH; [|by rewrite upd_ctx_lookup_ne|by apply upd_ctx_lookup].
    by rewrite upd_ctx_ctx.
Qed.

Lemma copyMRs_Ok ts td sendBuf recvBuf n s :
  0 ≤ n ≤ 4 → ks_tcb s !! src = Some ts → ks_tcb s !! dst = Some td →
  copyMRs src sendBuf dst recvBuf n s =
    Ok n (upd_ctx (copy_regs n (tcbContext ts)) dst s).
Proof using Hne.
  intros Hn Hs Hd. unfold copyMRs, n_msgRegisters. rewrite Z.min_l by lia. cbv zeta.
  assert (kfor (upto n) (λ i, let! v := getRegister src (reg_at msgRegisters i) in
                              setRegister dst (reg_at msgRegisters i) v) s =
          Ok tt (upd_ctx (copy_regs n (tcbContext ts)) dst s)) as E.
  { etransitivity; [|exact (copy_loop_Ok ts td (take (Z.to_nat n) msgRegisters) s Hs Hd)].
    assert (n = 0 ∨ n = 1 ∨ n = 2 ∨ n = 3 ∨ n = 4) as Hc by lia.
    by destruct Hc as [->|[->|[->|[->| ->]]]]. }
  rewrite (kbind_Ok _ _ _ _ _ E).
  destruct (_ || _); [done|]. unfold from_to. rewrite Z.sub_diag. cbn. by rewrite Z.max_id.
Qed.

Lemma fastpath_copy_mrs_Ok ts td n s :
  0 ≤ n ≤ 4 → ks_tcb s !! src = Some ts → ks_tcb s !! dst = Some td →
  fastpath_copy_mrs n src dst s = Ok tt (upd_ctx (copy_regs n (tcbContext ts)) dst s).
Proof using Hne.
  intros Hn Hs Hd. unfold fastpath_copy_mrs. rewrite kassert_true by (apply Z.leb_le; lia).
  etransitivity; [|exact (copy_loop_Ok ts td (take (Z.to_nat n) msgRegisters) s Hs Hd)].
  assert (n = 0 ∨ n = 1 ∨ n = 2 ∨ n = 3 ∨ n = 4) as Hc by lia.
  destruct Hc as [->|[->|[->|[->| ->]]]]; try reflexivity.
  cbn [take kfor msgRegisters Z.to_nat Pos.to_nat Pos.iter_op Nat.add].
  unfold copy_mr, kwhen; cbn [Z.leb Z.compare Pos.compare Pos.compare_cont].
  do 3 (apply kbind_ext; intros [] ?). by rewrite kbind_ret_r.
Qed.
End Transfers.

(** ** Message headers *)
Lemma land_wnot w k : is_w32 w → 0 ≤ k < 2 ^ 32 → Z.land w (wnot k) = Z.ldiff w k.
Proof.
  intros Hw Hk. replace (wnot k) with (Z.ones 32 - k) by (unfold wnot; rewrite Z.ones_equiv; lia).
  rewrite Z.sub_nocarry_ldiff.
  - apply Z.bits_inj'. intros i Hi. rewrite Z.land_spec, !Z.ldiff_spec.
    destruct (Z.lt_ge_cases i 32); [by rewrite Z.ones_spec_low by lia|].
    assert (Z.testbit w i = false) as ->; [|done].
    rewrite <-(Z.mod_small w (2 ^ 32)) by exact Hw. by apply Z.mod_pow2_bits_high.
  - apply Z.ldiff_ones_r_low; [lia|].
    destruct (decide (k = 0)) as [->|]; [done|]. apply Z.log2_lt_pow2; lia.
Qed.

(** The check of the header: no extra capabilities and at most four words. *)
Lemma fastpath_mi_check_false w :
  is_w32 w → fastpath_mi_check w = false →
  message_info_get_msgExtraCaps w = 0 ∧ 0 ≤ message_info_get_msgLength w ≤ 4 ∧
  messageInfoFromWord w = w ∧ Z.land w 0x180 = 0.
Proof.
  intros Hw Hc. unfold fastpath_mi_check in Hc. apply Z.ltb_ge in Hc.
  change (MASK (seL4_MsgLengthBits + seL4_MsgExtraCapBits)) with (Z.ones 9) in Hc.
  set (v := Z.land w (Z.ones 9)) in *.
  assert (0 ≤ v) as Hv by (apply Z.land_nonneg; right; done).
  assert (∀ m, Z.land m (Z.ones 9) = m → Z.land w m = Z.land v m) as Hm.
  { intros m E. unfold v. by rewrite <-Z.land_assoc, (Z.land_comm (Z.ones 9)), E. }
  assert (Z.land w 0x180 = 0) as H180.
  { rewrite Hm by done. assert (v = 0 ∨ v = 1 ∨ v = 2 ∨ v = 3 ∨ v = 4) as Hcase by lia.
    by destruct Hcase as [->|[->|[->|[->| ->]]]]. }
  assert (message_info_get_msgLength w = v) as Hlen.
  { unfold message_info_get_msgLength, field. rewrite Hm by done.
    assert (v = 0 ∨ v = 1 ∨ v = 2 ∨ v = 3 ∨ v = 4) as Hcase by lia.
    by destruct Hcase as [->|[->|[->|[->| ->]]]]. }
  split_and!; [|lia|lia| |done].
  - unfold message_info_get_msgExtraCaps, field.
    apply Z.bits_inj'. intros i Hi. rewrite Z.land_spec, Z.shiftr_spec, Z.bits_0 by done.
    destruct (Z.lt_ge_cases i 2) as [Hlt|Hge]; [|by rewrite Z.ones_spec_high, andb_false_r by lia].
    apply (f_equal (λ x : Z, Z.testbit x (i + 7))) in H180.
    rewrite Z.land_spec, Z.bits_0 in H180.
    assert (i = 0 ∨ i = 1) as [-> | ->] by lia; cbn in H180 |- *;
      by rewrite andb_true_r in *.
  - unfold messageInfoFromWord, seL4_MsgMaxLength. rewrite Hlen.
    by rewrite (proj2 (Z.ltb_ge 120 v)) by lia.
Qed.

Lemma low_bits_kept w : field 7 w = Z.land (Z.ldiff w 0xe00) 0x7f.
Proof.
  unfold field. apply Z.bits_inj'. intros i Hi. rewrite !Z.land_spec, Z.ldiff_spec.
  destruct (Z.lt_ge_cases i 7) as [Hlt|Hge].
  - assert (Z.testbit 0xe00 i = false) as ->; [|by rewrite andb_true_r].
    assert (i = 0 ∨ i = 1 ∨ i = 2 ∨ i = 3 ∨ i = 4 ∨ i = 5 ∨ i = 6) as Hi7 by lia.
    by destruct Hi7 as [->|[->|[->|[->|[->|[->| ->]]]]]].
  - change 0x7f with (Z.ones 7). by rewrite (Z.ones_spec_high 7 i), !andb_false_r by lia.
Qed.

Lemma unwrapped_length w :
  is_w32 w →
  message_info_get_msgLength (message_info_set_msgCapsUnwrapped w 0) = message_info_get_msgLength w.
Proof.
  intros Hw. unfold message_info_set_msgCapsUnwrapped. change (Z.shiftl (field 3 0) 9) with 0.
  rewrite Z.lor_0_r, land_wnot by (done || lia).
  unfold message_info_get_msgLength. rewrite (low_bits_kept w). reflexivity.
Qed.

(** The header the slow path gives the receiver is the fast path's. *)
Lemma transfer_header w :
  is_w32 w → fastpath_mi_check w = false →
  message_info_set_msgLength
    (message_info_set_msgCapsUnwrapped (message_info_set_msgExtraCaps w 0) 0)
    (message_info_get_msgLength w) = message_info_set_msgCapsUnwrapped w 0.
Proof.
  intros Hw Hc. destruct (fastpath_mi_check_false w Hw Hc) as (_ & Hlen & _ & H180).
  assert (message_info_set_msgExtraCaps w 0 = w) as ->.
  { unfold message_info_set_msgExtraCaps. rewrite land_wnot by (done || lia).
    change (Z.shiftl (field 2 0) 7) with 0. rewrite Z.lor_0_r.
    apply Z.bits_inj'. intros i Hi. rewrite Z.ldiff_spec.
    apply (f_equal (λ x : Z, Z.testbit x i)) in H180. rewrite Z.land_spec, Z.bits_0 in H180.
    by destruct (Z.testbit w i), (Z.testbit 0x180 i). }
  unfold message_info_set_msgCapsUnwrapped. change (Z.shiftl (field 3 0) 9) with 0.
  rewrite Z.lor_0_r, (land_wnot w 0xe00) by (done || lia).
  set (b := Z.ldiff w 0xe00).
  assert (is_w32 b) as Hb.
  { unfold b. rewrite <-land_wnot by (done || lia). by apply w32_land. }
  unfold message_info_set_msgLength. rewrite land_wnot by (done || lia).
  assert (field 7 (message_info_get_msgLength w) = Z.land b 0x7f) as ->.
  { unfold message_info_get_msgLength. rewrite field_idemp by lia. apply low_bits_kept. }
  apply Z.bits_inj'. intros i Hi. rewrite Z.lor_spec, Z.ldiff_spec, Z.land_spec.
  by destruct (Z.testbit b i), (Z.testbit 0x7f i).
Qed.

(** ** Transfers *)
Definition frame_size_ok (c : cap_t) : Prop :=
  match c with cap_frame_cap _ _ size _ _ _ => is_Some (pageBitsForSize size) | _ => True end.
Definition caps_ok (h : gmap Z cte_t) : Prop :=
  ∀ p c, h !! p = Some c → cap_wf (cteCap c) ∧ frame_size_ok (cteCap c).
(** The slots that belong to a thread exist. *)
Definition slots_ok (h : gmap Z cte_t) (thread : Z) : Prop :=
  ∀ i, 0 ≤ i < tcbCNodeEntries → is_Some (h !! TCB_PTR_CTE_PTR thread i).

Lemma lookupIPCBuffer_Ok isR thread t s :
  ks_tcb s !! thread = Some t → slots_ok (ks_cte s) thread → caps_ok (ks_cte s) →
  ∃ b, lookupIPCBuffer isR thread s = Ok b s.
Proof.
  intros Ht Hs Hc. destruct (Hs tcbBuffer) as [c Hcte]; [unfold tcbBuffer, tcbCNodeEntries; lia|].
  unfold lookupIPCBuffer. kload. kload. destruct (Hc _ _ Hcte) as [_ Hf].
  destruct (cteCap c); try (by eexists). cbn in Hf.
  destruct (_ || _); [|by eexists]. destruct Hf as [bits Hb]. rewrite (kopt_Some _ _ _ _ Hb).
  by eexists.
Qed.

Definition no_extra_caps (s : kstate) : kstate :=
  upd_current_extra_caps (<[0%nat := 0]> (current_extra_caps s)) s.

Lemma no_extra_caps_idem s : no_extra_caps (no_extra_caps s) = no_extra_caps s.
Proof.
  unfold no_extra_caps. cbn [current_extra_caps upd_current_extra_caps].
  by rewrite list_insert_insert_eq.
Qed.

Lemma lookupExtraCaps_none thread buffer w s :
  message_info_get_msgExtraCaps w = 0 →
  lookupExtraCaps thread buffer w s = Ok EXCEPTION_NONE (no_extra_caps s).
Proof.
  intros Hw. unfold lookupExtraCaps. destruct (buffer =? 0); [done|]. by rewrite Hw.
Qed.

(** The registers of a receiver after a short message with header [w] and the
    message registers of [sc]. *)
Definition received (badge w : Z) (sc c : list Z) : list Z :=
  <[Z.to_nat badgeRegister := w32 badge]>
    (<[Z.to_nat msgInfoRegister := w32 (message_info_set_msgCapsUnwrapped w 0)]>
       (copy_regs (message_info_get_msgLength w) sc c)).

Section Short.
Context {cfg : KernelConfig} (src dst : Z) (Hne : src ≠ dst).

Lemma doNormalTransfer_short sb rb ep badge ts td w s :
  ks_tcb s !! src = Some ts → ks_tcb s !! dst = Some td →
  w = nth 1 (tcbContext ts) 0 → is_w32 w → fastpath_mi_check w = false →
  doNormalTransfer src sb ep badge true dst rb false s =
    Ok tt (upd_ctx (received badge w (tcbContext ts)) dst (no_extra_caps s)).
Proof using Hne.
  intros Hs Hd Hw Hww Hc. destruct (fastpath_mi_check_false w Hww Hc) as (Hx & Hlen & Hfw & _).
  unfold doNormalTransfer. rewrite (kbind_Ok _ _ _ _ _ (getRegister_Ok _ msgInfoRegister _ _ Hs)).
  change (nth (Z.to_nat msgInfoRegister) (tcbContext ts) 0) with (nth 1 (tcbContext ts) 0).
  rewrite <-Hw, Hfw.
  erewrite (kbind_Ok (kbind (lookupExtraCaps src sb w) _));
    [|by rewrite (kbind_Ok _ _ _ _ _ (lookupExtraCaps_none src sb w s Hx))].
  rewrite (kbind_Ok _ _ _ _ _ (copyMRs_Ok src dst Hne ts td sb rb _ (no_extra_caps s) Hlen Hs Hd)).
  set (s1 := upd_ctx _ dst (no_extra_caps s)).
  assert (transferCaps w (current_extra_caps (no_extra_caps s)) ep dst rb false s1 =
    Ok (message_info_set_msgCapsUnwrapped (message_info_set_msgExtraCaps w 0) 0) s1) as E.
  { unfold transferCaps. assert (nth 0 (current_extra_caps (no_extra_caps s)) 0 = 0) as ->; [|done].
    cbn. by destruct (current_extra_caps s). }
  rewrite (kbind_Ok _ _ _ _ _ E). cbv zeta. rewrite transfer_header by done.
  unfold wordFromMessageInfo.
  rewrite (kbind_Ok _ _ _ _ _ (setRegister_Ok dst _ _ _ s1 (upd_ctx_lookup _ _ _ _ Hd))).
  erewrite setRegister_Ok by (by do 2 apply upd_ctx_lookup).
  unfold s1. by rewrite !upd_ctx_ctx.
Qed.

Lemma doIPCTransfer_short ep badge ts td w s :
  ks_tcb s !! src = Some ts → ks_tcb s !! dst = Some td →
  slots_ok (ks_cte s) src → slots_ok (ks_cte s) dst → caps_ok (ks_cte s) →
  tcbFault ts = fault_null_fault →
  w = nth 1 (tcbContext ts) 0 → is_w32 w → fastpath_mi_check w = false →
  doIPCTransfer src ep badge true dst false s =
    Ok tt (upd_ctx (received badge w (tcbContext ts)) dst (no_extra_caps s)).
Proof using Hne.
  intros Hs Hd Hss Hsd Hc Hf Hw Hww Hmc. unfold doIPCTransfer.
  destruct (lookupIPCBuffer_Ok true dst td s Hd Hsd Hc) as [rb Hrb].
  destruct (lookupIPCBuffer_Ok false src ts s Hs Hss Hc) as [sb Hsb].
  rewrite (kbind_Ok _ _ _ _ _ Hrb). kload. rewrite Hf. cbn [fault_get_faultType Z.eqb].
  rewrite (kbind_Ok _ _ _ _ _ Hsb). by apply doNormalTransfer_short with td.
Qed.
End Short.

(** ** States up to dead fields *)

(** The fields of a thread state that are read in that state: those of other
    states are written before they are read again. *)
Definition live_state (st : thread_state_t) : thread_state_t :=
  match tsType st with
  | ThreadState_BlockedOnSend =>
      thread_state (blockingIPCBadge st) (blockingIPCCanGrant st) (blockingIPCIsCall st)
        (tcbQueued st) false (blockingIPCEndpoint st) (tsType st)
  | ThreadState_BlockedOnReceive =>
      thread_state 0 false false (tcbQueued st) (blockingIPCDiminishCaps st)
        (blockingIPCEndpoint st) (tsType st)
  | ThreadState_BlockedOnAsyncEvent =>
      thread_state 0 false false (tcbQueued st) false (blockingIPCEndpoint st) (tsType st)
  | ts => thread_state 0 false false (tcbQueued st) false 0 ts
  end.
Definition live_tcb (t : tcb_t) : tcb_t := set_tcbState (live_state (tcbState t)) t.

(** A state without what is dead between system calls: the dead fields of the
    threads and the four registers that report errors and extra capabilities
    inside a system call. *)
Definition live (s : kstate) : kstate :=
  KState (ks_cte s) (live_tcb <$> ks_tcb s) (ks_ep s) (ks_aep s) (ks_pde s) (ks_pte s) (ks_mem s)
    (ksReadyQueues s) (ksReadyQueuesL1Bitmap s) (ksReadyQueuesL2Bitmap s) (ksCurThread s)
    (ksIdleThread s) (ksSchedulerAction s) (ksWorkUnitsCompleted s) (ksRootCTE s)
    (intStateIRQTable s) (intStateIRQNode s) (ksCurDomain s) (ksDomainTime s)
    (ksDomScheduleIdx s) (armKSGlobalsFrame s) (armKSHWASIDTable s) (armKSNextASID s)
    lookup_fault_invalid_root fault_null_fault no_syscall_error [] (ks_irqs s) (ks_log s).
Definition same_live (s s' : kstate) : Prop := live s = live s'.
Infix "≃" := same_live (at level 70, no associativity) : kernel_scope.

#[export] Instance same_live_equivalence : Equivalence same_live.
Proof. split; [by intros s|by intros s s' H|unfold same_live; congruence]. Qed.

Lemma same_live_intro s s' :
  live_tcb <$> ks_tcb s = live_tcb <$> ks_tcb s' → ks_cte s = ks_cte s' → ks_ep s = ks_ep s' →
  ks_aep s = ks_aep s' → ks_pde s = ks_pde s' → ks_pte s = ks_pte s' → ks_mem s = ks_mem s' →
  ksReadyQueues s = ksReadyQueues s' → ksReadyQueuesL1Bitmap s = ksReadyQueuesL1Bitmap s' →
  ksReadyQueuesL2Bitmap s = ksReadyQueuesL2Bitmap s' → ksCurThread s = ksCurThread s' →
  ksIdleThread s = ksIdleThread s' → ksSchedulerAction s = ksSchedulerAction s' →
  ksWorkUnitsCompleted s = ksWorkUnitsCompleted s' → ksRootCTE s = ksRootCTE s' →
  intStateIRQTable s = intStateIRQTable s' → intStateIRQNode s = intStateIRQNode s' →
  ksCurDomain s = ksCurDomain s' → ksDomainTime s = ksDomainTime s' →
  ksDomScheduleIdx s = ksDomScheduleIdx s' → armKSGlobalsFrame s = armKSGlobalsFrame s' →
  armKSHWASIDTable s = armKSHWASIDTable s' → armKSNextASID s = armKSNextASID s' →
  ks_irqs s = ks_irqs s' → ks_log s = ks_log s' → s ≃ s'.
Proof.
  intros. unfold same_live, live.
  repeat match goal with H : _ = _ |- _ => rewrite H; clear H end. reflexivity.
Qed.

(** ** Elementary changes of the state *)
Definition mod_tcb (f : tcb_t → tcb_t) (p : Z) (s : kstate) : kstate :=
  upd_ks_tcb (alter f p (ks_tcb s)) s.
Definition mod_state (f : thread_state_t → thread_state_t) : Z → kstate → kstate :=
  mod_tcb (λ t, set_tcbState (f (tcbState t)) t).
Definition set_cap (p : Z) (c : cap_t) (s : kstate) : kstate :=
  upd_ks_cte (alter (λ x, cte c (cteMDBNode x)) p (ks_cte s)) s.

Lemma updTCB_mod p f t s : ks_tcb s !! p = Some t → updTCB p f s = Ok tt (mod_tcb f p s).
Proof.
  intros H. rewrite (updTCB_Ok _ _ _ _ H). unfold mod_tcb. by rewrite (alter_insert_Some _ _ _ _ H).
Qed.
Lemma updState_mod p f t s : ks_tcb s !! p = Some t → updState f p s = Ok tt (mod_state f p s).
Proof. apply updTCB_mod. Qed.
Lemma setCap_set p k c s : ks_cte s !! p = Some c → setCap p k s = Ok tt (set_cap p k s).
Proof.
  intros H. rewrite (setCap_Ok _ _ _ _ H). unfold set_cap. by rewrite (alter_insert_Some _ _ _ _ H).
Qed.
Lemma mod_tcb_lookup f p s t :
  ks_tcb s !! p = Some t → ks_tcb (mod_tcb f p s) !! p = Some (f t).
Proof. intros H. cbn. by rewrite lookup_alter_eq, H. Qed.
Lemma mod_tcb_lookup_ne f p q s : p ≠ q → ks_tcb (mod_tcb f p s) !! q = ks_tcb s !! q.
Proof. intros H. cbn. by rewrite lookup_alter_ne. Qed.
Lemma set_cap_lookup p k s c :
  ks_cte s !! p = Some c → ks_cte (set_cap p k s) !! p = Some (cte k (cteMDBNode c)).
Proof. intros H. cbn. by rewrite lookup_alter_eq, H. Qed.
Lemma set_cap_lookup_ne p q k s : p ≠ q → ks_cte (set_cap p k s) !! q = ks_cte s !! q.
Proof. intros H. cbn. by rewrite lookup_alter_ne. Qed.
Lemma mod_state_lookup f p s t :
  ks_tcb s !! p = Some t →
  ks_tcb (mod_state f p s) !! p = Some (set_tcbState (f (tcbState t)) t).
Proof. exact (mod_tcb_lookup _ p s t). Qed.
Lemma mod_state_lookup_ne f p q s : p ≠ q → ks_tcb (mod_state f p s) !! q = ks_tcb s !! q.
Proof. apply mod_tcb_lookup_ne. Qed.

(** ** Inverting reads *)
Lemma getTCB_inv {A} p (k : tcb_t → K A) s r s' :
  kbind (getTCB p) k s = Ok r s' → ∃ t, ks_tcb s !! p = Some t ∧ k t s = Ok r s'.
Proof.
  unfold kbind, getTCB, deref. destruct (ks_tcb s !! p) as [t|]; [|done]. intros H. by exists t.
Qed.
Lemma getTCBf_inv {A B} (f : tcb_t → B) p (k : B → K A) s r s' :
  kbind (getTCBf f p) k s = Ok r s' → ∃ t, ks_tcb s !! p = Some t ∧ k (f t) s = Ok r s'.
Proof.
  unfold kbind, getTCBf, getTCB, deref, kbind, kret. destruct (ks_tcb s !! p) as [t|]; [|done].
  intros H. by exists t.
Qed.
Lemma getCap_inv {A} p (k : cap_t → K A) s r s' :
  kbind (getCap p) k s = Ok r s' → ∃ c, ks_cte s !! p = Some c ∧ k (cteCap c) s = Ok r s'.
Proof.
  unfold kbind, getCap, getCTE, deref, kbind, kret. destruct (ks_cte s !! p) as [t|]; [|done].
  intros H. by exists t.
Qed.
Lemma getEP_inv {A} p (k : endpoint_t → K A) s r s' :
  kbind (getEP p) k s = Ok r s' → ∃ e, ks_ep s !! p = Some e ∧ k e s = Ok r s'.
Proof.
  unfold kbind, getEP, deref. destruct (ks_ep s !! p) as [t|]; [|done]. intros H. by exists t.
Qed.
Lemma kopt_inv {A B} (o : option B) (k : B → K A) s r s' :
  kbind (kopt o) k s = Ok r s' → ∃ b, o = Some b ∧ k b s = Ok r s'.
Proof. destruct o as [b|]; [|done]. intros H. by exists b. Qed.

(** ** The checks of the fast path *)
Lemma async_event_pending_pure t s b s' : async_event_pending t s = Ok b s' → s' = s.
Proof.
  unfold async_event_pending. destruct (_ =? 0); [by intros [= _ ->]|].
  unfold kbind, getAEP, deref. destruct (ks_aep s !! _); [|done]. by intros [= _ ->].
Qed.

(** The thread has a page directory with an assigned hardware ASID. *)
Definition has_space (s : kstate) (dest pd hw : Z) : Prop :=
  (∃ c, ks_cte s !! TCB_PTR_CTE_PTR dest tcbVTable = Some c ∧ cteCap c = cap_page_directory_cap pd) ∧
  ks_pde s !! PDE_AT pd PD_ASID_SLOT = Some (pde_pde_invalid hw true).

Lemma address_space_fp_inv dest s o s' :
  address_space_fp dest s = Ok o s' →
  s' = s ∧ ∀ pd a, o = Some (pd, a) → ∃ hw, a = pde_pde_invalid hw true ∧ has_space s dest pd hw.
Proof.
  intros H. unfold address_space_fp in H. apply getCap_inv in H as (c & Hc & H).
  destruct (cteCap c) eqn:Ec; cbn [cap_page_directory_cap_get_capPDBasePtr_np] in H;
    try (injection H as <- <-; by split).
  unfold kbind, getPDE, deref in H. destruct (ks_pde s !! _) as [pde|] eqn:Hpde; [|done].
  destruct pde as [hw valid| | |]; cbn in H; try done. injection H as <- <-. split; [done|].
  intros pd a. destruct valid; [|done]. intros [= -> <-]. exists hw. split; [done|]. split; [|done].
  by exists c.
Qed.

Lemma can_schedule_fp_inv {cfg : KernelConfig} thread cur s b s' :
  can_schedule_fp thread cur s = Ok b s' →
  s' = s ∧ (b = true → ∃ t c, ks_tcb s !! thread = Some t ∧ ks_tcb s !! cur = Some c ∧
                        tcbPriority c ≤ tcbPriority t).
Proof.
  intros H. unfold can_schedule_fp in H. apply getTCBf_inv in H as (t & Ht & H).
  apply getTCBf_inv in H as (c & Hc & H). apply getTCBf_inv in H as (t' & Ht' & H).
  cbn in H. injection H as <- <-. split; [done|]. intros [Hp _]%andb_prop. exists t, c.
  split_and!; [done|done|]. by apply negb_true_iff, Z.ltb_ge in Hp.
Qed.

(** ** The state between system calls *)

(** The invariants the kernel keeps between system calls, as far as the fast
    path relies on them. *)
Record syscall_inv (s : kstate) : Prop := {
  si_action : ksSchedulerAction s = SchedulerAction_ResumeCurrentThread;
  si_threads p t :
    ks_tcb s !! p = Some t →
    p ≠ 0 ∧ p ≠ SchedulerAction_ChooseNewThread ∧ slots_ok (ks_cte s) p ∧ Forall is_w32 (tcbContext t);
  si_caps : caps_ok (ks_cte s);
  si_cnodes : cnodes_ok (ks_cte s);
  (* the threads that wait on an endpoint form its queue *)
  si_endpoints p e :
    ks_ep s !! p = Some e →
    ∃ ts, ep_waits s p (ep_state e) ts ∧
      (ts = [] ∨ ep_state e = EPState_Send ∨ ep_state e = EPState_Recv) ∧
      ∀ t, t ∈ ts → t ≠ ksCurThread s ∧
        ∃ x, ks_tcb s !! t = Some x ∧ tcbQueued (tcbState x) = false ∧
          (ep_state e = EPState_Recv →
           tsType (tcbState x) = ThreadState_BlockedOnReceive ∧
           ∃ c, ks_cte s !! TCB_PTR_CTE_PTR t tcbCaller = Some c ∧ cteCap c = cap_null_cap);
  si_current : high_field 28 (ksCurThread s);
  (* capabilities and bindings name objects *)
  si_objects p c :
    ks_cte s !! p = Some c →
    match cteCap c with
    | cap_endpoint_cap _ _ _ _ ptr => is_Some (ks_ep s !! ptr)
    | cap_page_directory_cap pd =>
        ∃ hw v, ks_pde s !! PDE_AT pd PD_ASID_SLOT = Some (pde_pde_invalid hw v)
    | _ => True
    end;
  si_bound p t :
    ks_tcb s !! p = Some t → boundAsyncEndpoint t = 0 ∨ is_Some (ks_aep s !! boundAsyncEndpoint t);
  (* the current thread can be replied to *)
  si_reply :
    ∃ c v, ks_cte s !! TCB_PTR_CTE_PTR (ksCurThread s) tcbReply = Some c ∧
      cteCap c = cap_reply_cap v true 0;
  (* and replies to a thread that waits for it *)
  si_caller c :
    ks_cte s !! TCB_PTR_CTE_PTR (ksCurThread s) tcbCaller = Some c →
    cteCap c = cap_null_cap ∨
    ∃ v caller x, cteCap c = cap_reply_cap v false caller ∧ caller ≠ ksCurThread s ∧
      ks_tcb s !! caller = Some x ∧ tcbQueued (tcbState x) = false ∧
      tsType (tcbState x) = ThreadState_BlockedOnReply ∧
      ∃ c' v', ks_cte s !! TCB_PTR_CTE_PTR caller tcbReply = Some c' ∧
        cteCap c' = cap_reply_cap v' true 0
}.

(** The reads of the checks succeed. *)
Lemma async_event_pending_Ok s p t :
  syscall_inv s → ks_tcb s !! p = Some t → ∃ b, async_event_pending t s = Ok b s.
Proof.
  intros I Ht. unfold async_event_pending. destruct (si_bound _ I _ _ Ht) as [->|[a Ha]]; [by eexists|].
  destruct (_ =? 0); [by eexists|]. unfold kbind, getAEP, deref. rewrite Ha. by eexists.
Qed.
Lemma address_space_fp_Ok s p t :
  syscall_inv s → ks_tcb s !! p = Some t → ∃ o, address_space_fp p s = Ok o s.
Proof.
  intros I Ht. destruct (si_threads _ I _ _ Ht) as (_ & _ & Hs & _).
  destruct (Hs tcbVTable) as [c Hc]; [done|]. unfold address_space_fp. kload.
  pose proof (si_objects _ I _ _ Hc) as Ho.
  destruct (cteCap c); try by eexists. destruct Ho as (hw & v & Hp).
  cbn [cap_page_directory_cap_get_capPDBasePtr_np]. unfold kbind, getPDE, deref. rewrite Hp. by eexists.
Qed.
Lemma can_schedule_fp_Ok {cfg : KernelConfig} s thread cur t c :
  ks_tcb s !! thread = Some t → ks_tcb s !! cur = Some c → ∃ b, can_schedule_fp thread cur s = Ok b s.
Proof. intros Ht Hc. unfold can_schedule_fp. kload. kload. kload. by eexists. Qed.

Lemma register_word t r : Forall is_w32 (tcbContext t) → is_w32 (nth r (tcbContext t) 0).
Proof.
  intros H. destruct (nth_in_or_default r (tcbContext t) 0) as [Hin| ->]; [|unfold is_w32; lia].
  rewrite Forall_forall in H. by apply H, list_elem_of_In.
Qed.

