(* ===== verification/FastpathCall.v ===== *)
(** * The call of the fast path is the call of the slow path *)

From S2P Require Import Prelude.
From S2P Require Import Word32.
From S2P Require Import Structures.
From S2P Require Import State.
From S2P Require Import CapOps.
From S2P Require Import Queue.
From S2P Require Import VSpace.
From S2P Require Import Sched.
From S2P Require Import CSpace.
From S2P Require Import Finalise.
From S2P Require Import Ipc.
From S2P Require Import Labels.
From S2P Require Import Syscall.
From S2P Require Import Fastpath.
From S2P Require Import CapTheorems.
From S2P Require Import EndpointInv.
From S2P Require Import FastpathInv.

#[local] Existing Instance ep_links.

(** ** The first thread leaves an endpoint *)
Definition dequeued (epptr tail next : Z) (s : kstate) : kstate :=
  if next =? 0 then
    upd_ks_ep (<[epptr := endpoint 0 0 EPState_Idle]> (ks_ep s)) s
  else
    upd_ks_ep (<[epptr := endpoint next tail EPState_Recv]> (ks_ep s)) (mod_tcb (set_tcbEPPrev 0) next s).

(** The head [dest] of the queue of a receiving endpoint, and its neighbour. *)
Record first_receiver (s : kstate) (epptr : Z) (e : endpoint_t) (dest : Z) (td : tcb_t) : Prop := {
  fr_ep : ks_ep s !! epptr = Some e;
  fr_state : ep_state e = EPState_Recv;
  fr_head : epQueue_head e = dest;
  fr_nonzero : dest ≠ 0;
  fr_dest : ks_tcb s !! dest = Some td;
  fr_prev : tcbEPPrev td = 0;
  fr_tail : field_high 28 (epQueue_tail e) = epQueue_tail e;
  fr_next : tcbEPNext td ≠ 0 → tcbEPNext td ≠ dest ∧ field_high 28 (tcbEPNext td) = tcbEPNext td ∧
              is_Some (ks_tcb s !! tcbEPNext td)
}.

Lemma first_receiver_waits s epptr e dest ts :
  ep_waits s epptr EPState_Recv (dest :: ts) → ks_ep s !! epptr = Some e →
  ∃ td, first_receiver s epptr e dest td ∧ tcbEPNext td = hd 0 ts.
Proof.
  intros (e' & He' & Hst & (Hnd & Hseg & Hh & Hend) & HF) He.
  assert (e' = e) as -> by congruence. rewrite bool_decide_eq_false_2 in Hst by done.
  cbn [dseg] in Hseg. destruct Hseg as (Hnz & (td & Htd & Hp & Hn) & Hseg).
  cbn [lprev lnext ep_links] in *. exists td. split; [|done].
  destruct (queue_ends_high (ks_tcb s) (ep_ptr_get_queue e) (dest :: ts)) as [_ Htl].
  { split_and!; try done. cbn [dseg]. eauto 10. }
  { done. }
  split; try done.
  - by apply high_field_id.
  - intros Hnz'. rewrite Hn in *. destruct ts as [|y ts]; [done|]. cbn [hd] in *.
    apply NoDup_cons in Hnd as [Hnd _]. split_and!.
    + intros ->. set_solver.
    + inversion HF as [|? ? _ HF']. inversion HF'. by apply high_field_id.
    + by apply (dseg_lookup _ _ _ _ y Hseg); left.
Qed.

Section Call.
Context {cfg : KernelConfig} (Hdom : CONFIG_NUM_DOMAINS = 1).

(** Nobody changes the queue before its first thread. *)
Lemma tcbEPDequeue_head s epptr e dest td :
  first_receiver s epptr e dest td →
  tcbEPDequeue dest (ep_ptr_get_queue e) s =
    if tcbEPNext td =? 0 then Ok (tcb_queue 0 0) s
    else Ok (tcb_queue (tcbEPNext td) (epQueue_tail e)) (mod_tcb (set_tcbEPPrev 0) (tcbEPNext td) s).
Proof using.
  intros [He Hst Hh Hnz Htd Hp Htl Hnx]. unfold tcbEPDequeue. kload. kload.
  rewrite Hp. cbn [Z.eqb negb]. ksteps. kload. kload. rewrite Hp.
  destruct (Z.eqb_spec (tcbEPNext td) 0) as [Hz|Hz]; cbn [negb].
  - ksteps. by rewrite Hz.
  - destruct (Hnx Hz) as (Hne & _ & [tn Htn]).
    erewrite kbind_Ok by (rewrite (kbind_Ok _ _ _ _ _ (updTCB_mod _ _ _ _ Htn)); reflexivity).
    done.
Qed.

Lemma ep_dequeue_first_Ok s epptr e dest td :
  first_receiver s epptr e dest td →
  ep_dequeue_head epptr s = Ok dest (dequeued epptr (epQueue_tail e) (tcbEPNext td) s).
Proof using.
  intros Hfr. pose proof (tcbEPDequeue_head _ _ _ _ _ Hfr) as Hdq.
  destruct Hfr as [He Hst Hh Hnz Htd Hp Htl Hnx]. unfold ep_dequeue_head, dequeued. kload.
  cbn [ep_ptr_get_queue queue_head]. rewrite Hh.
  rewrite kassert_true by by apply negb_true_iff, Z.eqb_neq.
  change (tcb_queue (epQueue_head e) (epQueue_tail e)) with (ep_ptr_get_queue e).
  unfold ep_ptr_set_queue, endpoint_ptr_set_state.
  destruct (Z.eqb_spec (tcbEPNext td) 0) as [Hz|Hz].
  - rewrite (kbind_Ok _ _ _ _ _ Hdq). rewrite (kbind_Ok _ _ _ _ _ (updEP_Ok _ _ _ _ He)).
    cbn [queue_head Z.eqb kwhen].
    erewrite kbind_Ok by (apply updEP_Ok; cbn [ks_ep upd_ks_ep]; apply lookup_insert_eq).
    cbn [ks_ep upd_ks_ep]. rewrite insert_insert_eq. done.
  - rewrite (kbind_Ok _ _ _ _ _ Hdq). destruct (Hnx Hz) as (Hne & Hhi & _).
    rewrite (kbind_Ok _ _ _ _ _ (updEP_Ok epptr _ e (mod_tcb _ _ s) He)).
    cbn [queue_head]. rewrite (proj2 (Z.eqb_neq _ _) Hz). cbn [kwhen].
    unfold endpoint_set_queue. cbn [queue_head queue_end]. by rewrite Hhi, Htl, Hst.
Qed.

(** The same, as the fast path writes it. *)
Lemma dequeue_fp_Ok s epptr e dest td :
  first_receiver s epptr e dest td →
  (updEP epptr (endpoint_ptr_set_epQueue_head_np (tcbEPNext td)) ;;;
   if negb (tcbEPNext td =? 0) then updTCB (tcbEPNext td) (set_tcbEPPrev 0)
   else updEP epptr (endpoint_ptr_mset_epQueue_tail_state 0 EPState_Idle)) s =
  Ok tt (dequeued epptr (epQueue_tail e) (tcbEPNext td) s).
Proof using.
  intros [He Hst Hh Hnz Htd Hp Htl Hnx]. unfold dequeued.
  rewrite (kbind_Ok _ _ _ _ _ (updEP_Ok _ _ _ _ He)).
  destruct (Z.eqb_spec (tcbEPNext td) 0) as [Hz|Hz]; cbn [negb].
  - erewrite updEP_Ok by (cbn [ks_ep upd_ks_ep]; apply lookup_insert_eq).
    cbn [ks_ep upd_ks_ep]. rewrite insert_insert_eq, Hz. done.
  - destruct (Hnx Hz) as (Hne & Hhi & [tn Htn]).
    rewrite (updTCB_mod _ _ tn) by done.
    unfold endpoint_ptr_set_epQueue_head_np. by rewrite Hhi, Hst.
Qed.

(** ** Switching to a thread *)
Definition switched (dest pd hw buf : Z) (s : kstate) : kstate :=
  upd_ksCurThread dest
    (upd_ks_log
       (op_clearExMonitor :: op_setHardwareASID hw :: op_setCurrentPD (addrFromPPtr pd) :: ks_log s)
       (upd_ks_mem (<[armKSGlobalsFrame s := w32 buf]> (ks_mem s)) s)).

Lemma Arch_switchToThread_Ok s dest pd hw td :
  has_space s dest pd hw → ks_tcb s !! dest = Some td →
  (Arch_switchToThread dest ;;; modify (upd_ksCurThread dest)) s =
    Ok tt (switched dest pd hw (tcbIPCBuffer td) s).
Proof using.
  intros [(c & Hc & Hcap) Hpde] Htd. unfold Arch_switchToThread.
  assert (setVMRoot dest s = Ok tt (upd_ks_log
    (op_setHardwareASID hw :: op_setCurrentPD (addrFromPPtr pd) :: ks_log s) s)) as E.
  { unfold setVMRoot. kload. rewrite Hcap. unfold armv_contextSwitch.
    assert (getHWASID pd s = Ok hw s) as Eh.
    { unfold getHWASID, loadHWASID, getPDE, kbind, deref. by rewrite Hpde. }
    by rewrite (kbind_Ok _ _ _ _ _ Eh). }
  erewrite kbind_Ok by (rewrite (kbind_Ok _ _ _ _ _ E);
    rewrite (kbind_Ok _ _ _ _ _ (getTCB_Ok dest td (upd_ks_log _ s) Htd)); reflexivity).
  done.
Qed.

Lemma switchToThread_direct s dest pd hw td :
  has_space s dest pd hw → ks_tcb s !! dest = Some td → tcbQueued (tcbState td) = false →
  switchToThread dest s = Ok tt (switched dest pd hw (tcbIPCBuffer td) s).
Proof using.
  intros Hsp Htd Hq. pose proof (Arch_switchToThread_Ok s dest pd hw td Hsp Htd) as E.
  apply kbind_Ok_inv in E as ([] & s1 & E1 & E2). unfold switchToThread.
  rewrite (kbind_Ok _ _ _ _ _ E1). 
  apply (f_equal (λ r : res kstate unit, match r with Ok _ s' => s' | _ => s end)) in E2.
  cbv beta iota delta [modify] in E2.
  assert (ks_tcb s1 !! dest = Some td) as Htd1.
  { change (ks_tcb (upd_ksCurThread dest s1) !! dest = Some td). by rewrite E2. }
  assert (tcbSchedDequeue dest s1 = Ok tt s1) as Ed.
  { unfold tcbSchedDequeue. kload. by rewrite Hq. }
  rewrite (kbind_Ok _ _ _ _ _ Ed). unfold modify. by rewrite E2.
Qed.

Lemma switchToThread_fp_Ok s dest pd hw td :
  ks_tcb s !! dest = Some td →
  switchToThread_fp dest pd (pde_pde_invalid hw true) s =
    Ok tt (switched dest pd hw (tcbIPCBuffer td) s).
Proof using.
  intros Htd. unfold switchToThread_fp. rewrite (kopt_Some _ (hw, true)) by done.
  set (s1 := upd_ks_log (op_setHardwareASID hw :: op_setCurrentPD (addrFromPPtr pd) :: ks_log s) s).
  rewrite (kbind_Ok (armv_contextSwitch_HWASID pd hw) _ s s1 tt eq_refl).
  by rewrite (kbind_Ok _ _ _ _ _ (getTCB_Ok dest td s1 Htd)).
Qed.

(** ** Scheduling decisions *)
Lemma setThreadState_quiet p ts t s :
  ks_tcb s !! p = Some t →
  p ≠ ksCurThread s ∨ ksSchedulerAction s ≠ SchedulerAction_ResumeCurrentThread ∨
    thread_isRunnable ts = true →
  setThreadState p ts s = Ok tt (mod_state (thread_state_set_tsType ts) p s).
Proof using.
  intros Hp Hor. unfold setThreadState. rewrite (kbind_Ok _ _ _ _ _ (updState_mod _ _ _ _ Hp)).
  unfold scheduleTCB. ksteps.
  change (ksCurThread (mod_state _ _ s)) with (ksCurThread s).
  change (ksSchedulerAction (mod_state _ _ s)) with (ksSchedulerAction s).
  destruct (Z.eqb_spec p (ksCurThread s)) as [->|]; [|done]. cbn [andb].
  destruct (Z.eqb_spec (ksSchedulerAction s) SchedulerAction_ResumeCurrentThread) as [Ha|]; [|done].
  destruct Hor as [|[|Hr]]; [done..|]. unfold isRunnable, getTsType.
  erewrite kbind_Ok by (rewrite (kbind_Ok _ _ _ _ _ (getTCBf_Ok _ _ _ _ (mod_state_lookup _ _ _ _ Hp)));
    reflexivity).
  cbn [tcbState set_tcbState tsType thread_state_set_tsType]. by rewrite Hr.
Qed.

Lemma attemptSwitchTo_direct target tc tt_ s :
  ks_tcb s !! ksCurThread s = Some tc → ks_tcb s !! target = Some tt_ →
  tcbPriority tc ≤ tcbPriority tt_ → ksSchedulerAction s = SchedulerAction_ResumeCurrentThread →
  attemptSwitchTo target s = Ok tt (upd_ksSchedulerAction target s).
Proof using Hdom.
  intros Hc Ht Hp Ha. unfold attemptSwitchTo, possibleSwitchTo. kstep. kload. kload. kstep.
  rewrite Hdom, Ha. cbn [Z.ltb Z.compare Pos.compare Pos.compare_cont Z.eqb].
  assert ((tcbPriority tc <? tcbPriority tt_) || ((tcbPriority tt_ =? tcbPriority tc) && true) = true)
    as ->.
  { rewrite andb_true_r. apply orb_true_iff. rewrite Z.ltb_lt, Z.eqb_eq. lia. }
  done.
Qed.

(** The thread the scheduler action names is switched to and runs. *)
Lemma finish_direct s cur dest pd hw tc td :
  ksSchedulerAction s = dest → dest ≠ SchedulerAction_ChooseNewThread →
  dest ≠ SchedulerAction_ResumeCurrentThread → ksCurThread s = cur →
  ks_tcb s !! cur = Some tc → thread_isRunnable (tsType (tcbState tc)) = false →
  has_space s dest pd hw → ks_tcb s !! dest = Some td → tcbQueued (tcbState td) = false →
  tsType (tcbState td) = ThreadState_Running →
  finish s = Ok EXCEPTION_NONE
    (upd_ksSchedulerAction SchedulerAction_ResumeCurrentThread
       (switched dest pd hw (tcbIPCBuffer td) s)).
Proof using.
  intros Ha Hd1 Hd2 Hcur Htc Hnr Hsp Htd Hq Hr. unfold finish, schedule.
  assert (schedule s = Ok tt (upd_ksSchedulerAction SchedulerAction_ResumeCurrentThread
       (switched dest pd hw (tcbIPCBuffer td) s))) as E.
  { unfold schedule. kstep. rewrite Ha, (proj2 (Z.eqb_neq _ _) Hd1), (proj2 (Z.eqb_neq _ _) Hd2).
    cbn [negb]. assert (enqueueCurrent s = Ok tt s) as Ee.
    { unfold enqueueCurrent. kstep. rewrite Hcur. unfold isRunnable, getTsType.
      erewrite kbind_Ok by (rewrite (kbind_Ok _ _ _ _ _ (getTCBf_Ok _ _ _ _ Htc)); reflexivity).
      by rewrite Hnr. }
    rewrite (kbind_Ok _ _ _ _ _ Ee). kstep. rewrite Ha.
    by rewrite (kbind_Ok _ _ _ _ _ (switchToThread_direct s dest pd hw td Hsp Htd Hq)). }
  fold schedule. rewrite (kbind_Ok _ _ _ _ _ E). unfold activateThread.
  set (s1 := upd_ksSchedulerAction _ _).
  erewrite kbind_Ok; [reflexivity|]. kstep. unfold getTsType.
  rewrite (kbind_Ok _ _ _ _ _ (getTCBf_Ok _ dest td s1 Htd)). by rewrite Hr.
Qed.

(** ** Calling through an endpoint *)

(** The situation in which the fast path commits to a call, by [tc] at [cur] to
    [td] at [dest]. *)
Record call_ready (s : kstate) (cur : Z) (tc : tcb_t) (epptr : Z) (e : endpoint_t)
    (dest : Z) (td : tcb_t) (pd hw w : Z) : Prop := {
  cr_cur : ksCurThread s = cur;
  cr_tcb : ks_tcb s !! cur = Some tc;
  cr_fault : tcbFault tc = fault_null_fault;
  cr_action : ksSchedulerAction s = SchedulerAction_ResumeCurrentThread;
  cr_receiver : first_receiver s epptr e dest td;
  cr_ne : cur ≠ dest;
  cr_next : tcbEPNext td ≠ cur;
  cr_dest : dest ≠ SchedulerAction_ChooseNewThread;
  cr_cur_slots : slots_ok (ks_cte s) cur;
  cr_dest_slots : slots_ok (ks_cte s) dest;
  cr_caps : caps_ok (ks_cte s);
  cr_reply : ∃ c v, ks_cte s !! TCB_PTR_CTE_PTR cur tcbReply = Some c ∧
               cteCap c = cap_reply_cap v true 0;
  cr_caller : ∃ c, ks_cte s !! TCB_PTR_CTE_PTR dest tcbCaller = Some c ∧ cteCap c = cap_null_cap;
  cr_queued : tcbQueued (tcbState td) = false;
  cr_diminish : blockingIPCDiminishCaps (tcbState td) = false;
  cr_prio : tcbPriority tc ≤ tcbPriority td;
  cr_space : has_space s dest pd hw;
  cr_w : w = nth 1 (tcbContext tc) 0;
  cr_word : is_w32 w;
  cr_mi : fastpath_mi_check w = false
}.

Definition call_sent (cur : Z) (tc : tcb_t) (epptr : Z) (e : endpoint_t) (dest : Z) (td : tcb_t)
    (badge w : Z) (s : kstate) : kstate :=
  set_cap (TCB_PTR_CTE_PTR dest tcbCaller) (cap_reply_cap_new 0 false cur)
    (set_cap (TCB_PTR_CTE_PTR cur tcbReply)
       (cap_reply_cap (field_high 28 (TCB_PTR_CTE_PTR dest tcbCaller)) true 0)
       (mod_state (thread_state_set_tsType ThreadState_BlockedOnReply) cur
          (upd_ksSchedulerAction dest
             (mod_state (thread_state_set_tsType ThreadState_Running) dest
                (upd_ctx (received badge w (tcbContext tc)) dest
                   (no_extra_caps (dequeued epptr (epQueue_tail e) (tcbEPNext td) s))))))).

Lemma dequeued_tcb epptr tl next s p :
  next ≠ p ∨ next = 0 → ks_tcb (dequeued epptr tl next s) !! p = ks_tcb s !! p.
Proof using.
  intros Hp. unfold dequeued. destruct (Z.eqb_spec next 0) as [|Hz]; [done|].
  cbn. rewrite lookup_alter_ne; [done|]. by destruct Hp.
Qed.
Lemma dequeued_cte epptr tl next s : ks_cte (dequeued epptr tl next s) = ks_cte s.
Proof using. unfold dequeued. by destruct (next =? 0). Qed.
Lemma dequeued_cur epptr tl next s : ksCurThread (dequeued epptr tl next s) = ksCurThread s.
Proof using. unfold dequeued. by destruct (next =? 0). Qed.
Lemma dequeued_action epptr tl next s :
  ksSchedulerAction (dequeued epptr tl next s) = ksSchedulerAction s.
Proof using. unfold dequeued. by destruct (next =? 0). Qed.

Section Ready.
Context (s : kstate) (cur : Z) (tc : tcb_t) (epptr : Z) (e : endpoint_t) (dest : Z) (td : tcb_t)
        (pd hw w badge : Z) (R : call_ready s cur tc epptr e dest td pd hw w).

Lemma dequeued_both :
  let s1 := dequeued epptr (epQueue_tail e) (tcbEPNext td) s in
  ks_tcb s1 !! cur = Some tc ∧ ks_tcb s1 !! dest = Some td.
Proof using R.
  destruct R as [_ Htc _ _ [] _ Hnc _ _ _ _ _ _ _ _ _ _ _ _ _]. cbn.
  rewrite !dequeued_tcb; [done| |by left].
  destruct (decide (tcbEPNext td = 0)) as [|Hz]; [by right|left; by apply fr_next0].
Qed.

Lemma reply_caller_differ : TCB_PTR_CTE_PTR cur tcbReply ≠ TCB_PTR_CTE_PTR dest tcbCaller.
Proof using R.
  destruct (cr_reply _ _ _ _ _ _ _ _ _ _ R) as (c & v & Hc & Ec).
  destruct (cr_caller _ _ _ _ _ _ _ _ _ _ R) as (c' & Hc' & Ec').
  intros E. rewrite E in Hc. congruence.
Qed.

Lemma setupCallerCap_Ok s1 :
  ks_tcb s1 !! cur = Some tc → ksCurThread s1 = cur → ks_cte s1 = ks_cte s →
  ksSchedulerAction s1 = dest →
  setupCallerCap cur dest s1 = Ok tt
    (set_cap (TCB_PTR_CTE_PTR dest tcbCaller) (cap_reply_cap_new 0 false cur)
      (set_cap (TCB_PTR_CTE_PTR cur tcbReply)
         (cap_reply_cap (field_high 28 (TCB_PTR_CTE_PTR dest tcbCaller)) true 0)
         (mod_state (thread_state_set_tsType ThreadState_BlockedOnReply) cur s1))).
Proof using R.
  intros Htc Hcur Hcte Ha.
  pose proof reply_caller_differ as Hdiff.
  destruct (cr_reply _ _ _ _ _ _ _ _ _ _ R) as (c & v & Hc & Ec).
  destruct (cr_caller _ _ _ _ _ _ _ _ _ _ R) as (c' & Hc' & Ec').
  pose proof (fr_nonzero _ _ _ _ _ (cr_receiver _ _ _ _ _ _ _ _ _ _ R)) as Hnz.
  unfold setupCallerCap.
  rewrite (kbind_Ok _ _ _ _ _ (setThreadState_quiet cur ThreadState_BlockedOnReply tc s1 Htc
    ltac:(right; left; by rewrite Ha))).
  set (s2 := mod_state _ cur s1).
  assert (ks_cte s2 !! TCB_PTR_CTE_PTR cur tcbReply = Some c) as Hc2.
  { change (ks_cte s1 !! TCB_PTR_CTE_PTR cur tcbReply = Some c). by rewrite Hcte. }
  assert (ks_cte s2 !! TCB_PTR_CTE_PTR dest tcbCaller = Some c') as Hc2'.
  { change (ks_cte s1 !! TCB_PTR_CTE_PTR dest tcbCaller = Some c'). by rewrite Hcte. }
  cbv zeta. kload. rewrite Ec. cbn [andb Z.eqb]. rewrite kassert_true by done.
  unfold set_callerSlot.
  erewrite kbind_Ok by (kload; rewrite Ec; cbn [reply_set_callerSlot];
    rewrite (kopt_Some _ _ _ _ eq_refl); apply (setCap_set _ _ _ _ Hc2)).
  set (s3 := set_cap (TCB_PTR_CTE_PTR cur tcbReply) _ s2).
  assert (ks_cte s3 !! TCB_PTR_CTE_PTR dest tcbCaller = Some c') as Hc3.
  { unfold s3. by rewrite set_cap_lookup_ne. }
  kload. rewrite Ec'. rewrite kassert_true by done. by apply (setCap_set _ _ _ _ Hc3).
Qed.

Lemma sendIPC_call :
  sendIPC true true badge true cur epptr s =
    Ok tt (call_sent cur tc epptr e dest td badge w s).
Proof using R Hdom.
  destruct dequeued_both as [Htc1 Htd1].
  pose proof R as [Hcur Htc Hf Ha Hfr Hne Hnc Hch Hs1 Hs2 Hcaps _ _ Hq Hdim Hpr Hsp Hw Hww Hmi].
  unfold sendIPC. rewrite (kbind_Ok _ _ _ _ _ (getEP_Ok _ _ _ (fr_ep _ _ _ _ _ Hfr))).
  rewrite (fr_state _ _ _ _ _ Hfr). cbn [EPState_Recv EPState_Idle EPState_Send Z.eqb Pos.eqb orb].
  rewrite (kbind_Ok _ _ _ _ _ (ep_dequeue_first_Ok _ _ _ _ _ Hfr)).
  set (s1 := dequeued _ _ _ s) in *. cbv zeta in Htc1, Htd1.
  rewrite (kbind_Ok _ _ _ _ _ (getTCBf_Ok _ _ _ _ Htd1)). rewrite Hdim.
  rewrite (kbind_Ok _ _ _ _ _ (doIPCTransfer_short cur dest Hne epptr badge tc td w s1
    Htc1 Htd1 ltac:(by unfold s1; rewrite dequeued_cte) ltac:(by unfold s1; rewrite dequeued_cte)
    ltac:(by unfold s1; rewrite dequeued_cte) Hf Hw Hww Hmi)).
  set (s2 := upd_ctx _ dest _).
  pose proof (upd_ctx_lookup (received badge w (tcbContext tc)) dest (no_extra_caps s1) td Htd1) as Htd2.
  assert (ks_tcb s2 !! cur = Some tc) as Htc2 by (unfold s2; by rewrite upd_ctx_lookup_ne).
  assert (ksCurThread s2 = cur) as Hcur2.
  { change (ksCurThread s1 = cur). unfold s1. by rewrite dequeued_cur. }
  rewrite (kbind_Ok _ _ _ _ _ (setThreadState_quiet dest ThreadState_Running _ s2 Htd2
    ltac:(right; right; done))).
  set (s3 := mod_state _ dest s2).
  pose proof (mod_state_lookup (thread_state_set_tsType ThreadState_Running) dest s2 _ Htd2) as Htd3.
  assert (ks_tcb s3 !! cur = Some tc) as Htc3 by (unfold s3; by rewrite mod_state_lookup_ne).
  assert (ksCurThread s3 = cur) as Hcur3 by done.
  assert (ksSchedulerAction s3 = SchedulerAction_ResumeCurrentThread) as Ha3.
  { change (ksSchedulerAction s1 = SchedulerAction_ResumeCurrentThread).
    unfold s1. by rewrite dequeued_action. }
  rewrite (kbind_Ok _ _ _ _ _ (attemptSwitchTo_direct dest tc _ s3
    ltac:(by rewrite Hcur3) Htd3 Hpr Ha3)).
  set (s4 := upd_ksSchedulerAction dest s3).
  rewrite (kbind_Ok _ _ _ _ _ (getTCB_Ok cur tc s4 Htc3)).
  cbn [orb negb andb kwhen]. rewrite setupCallerCap_Ok; [done|done|done| |done].
  change (ks_cte s1 = ks_cte s). apply dequeued_cte.
Qed.

(** What a call leaves behind for the scheduler. *)
Lemma call_sent_facts :
  let s' := call_sent cur tc epptr e dest td badge w s in
  ks_tcb s' !! cur =
    Some (set_tcbState (thread_state_set_tsType ThreadState_BlockedOnReply (tcbState tc)) tc) ∧
  ks_tcb s' !! dest =
    Some (set_tcbState (thread_state_set_tsType ThreadState_Running (tcbState td))
            (set_tcbContext (received badge w (tcbContext tc) (tcbContext td)) td)) ∧
  ksSchedulerAction s' = dest ∧ ksCurThread s' = cur ∧ has_space s' dest pd hw.
Proof using R.
  destruct dequeued_both as [Htc1 Htd1]. cbv zeta in Htc1, Htd1.
  pose proof R as [Hcur Htc Hf Ha Hfr Hne Hnc Hch Hs1 Hs2 Hcaps Hrep Hcal Hq Hdim Hpr Hsp Hw Hww Hmi].
  unfold call_sent. set (s1 := dequeued _ _ _ s) in *. cbv zeta. split_and!.
  - cbn. rewrite lookup_alter_eq, lookup_alter_ne by done. rewrite lookup_alter_ne by done.
    by rewrite Htc1.
  - cbn. rewrite lookup_alter_ne, lookup_alter_eq, lookup_alter_eq by done. by rewrite Htd1.
  - done.
  - change (ksCurThread s1 = cur). unfold s1. by rewrite dequeued_cur.
  - destruct Hsp as [(c & Hc & Ec) Hpde]. destruct Hrep as (c1 & v & Hc1 & Ec1).
    destruct Hcal as (c2 & Hc2 & Ec2). split.
    + exists c. split; [|done]. rewrite !set_cap_lookup_ne.
      * change (ks_cte s1 !! TCB_PTR_CTE_PTR dest tcbVTable = Some c). unfold s1. by rewrite dequeued_cte.
      * intros E. rewrite E in Hc1. congruence.
      * intros E. rewrite E in Hc2. congruence.
    + change (ks_pde s1 !! PDE_AT pd PD_ASID_SLOT = Some (pde_pde_invalid hw true)).
      unfold s1, dequeued. by destruct (tcbEPNext td =? 0).
Qed.
End Ready.

(** The call on the slow path. *)
Lemma handleSyscall_call s cur tc epptr e dest td pd hw w badge canReceive slot :
  call_ready s cur tc epptr e dest td pd hw w →
  lookupCapAndSlot cur (nth 0 (tcbContext tc) 0) s =
    Ok (EXCEPTION_NONE, cap_endpoint_cap badge true true canReceive epptr, slot) s →
  handleSyscall SysCall s = Ok EXCEPTION_NONE
    (upd_ksSchedulerAction SchedulerAction_ResumeCurrentThread
       (switched dest pd hw (tcbIPCBuffer td)
          (call_sent cur (set_tcbState (thread_state_set_tsType ThreadState_Restart (tcbState tc)) tc)
             epptr e dest td badge w
             (mod_state (thread_state_set_tsType ThreadState_Restart) cur (no_extra_caps s))))).
Proof using Hdom.
  intros R Hlk.
  pose proof R as [Hcur Htc Hf Ha Hfr Hne Hnc Hch Hs1 Hs2 Hcaps Hrep Hcal Hq Hdim Hpr Hsp Hw Hww Hmi].
  destruct (fastpath_mi_check_false w Hww Hmi) as (Hx & Hlen & Hfw & _).
  set (tcr := set_tcbState (thread_state_set_tsType ThreadState_Restart (tcbState tc)) tc).
  set (sr := mod_state (thread_state_set_tsType ThreadState_Restart) cur (no_extra_caps s)).
  assert (ks_tcb sr !! cur = Some tcr) as Htcr by by apply mod_state_lookup.
  assert (call_ready sr cur tcr epptr e dest td pd hw w) as Rr.
  { split; try done.
    destruct Hfr as [? ? ? ? Htd ? ? Hnx]. split; try done.
    - unfold sr. by rewrite mod_state_lookup_ne.
    - intros Hz. destruct (Hnx Hz) as (? & ? & ?). split_and!; [done|done|].
      unfold sr. by rewrite mod_state_lookup_ne. }
  pose proof (sendIPC_call sr cur tcr epptr e dest td pd hw w badge Rr) as Hsend.
  destruct (call_sent_facts sr cur tcr epptr e dest td pd hw w badge Rr)
    as (Ftc & Ftd & Fact & Fcur & Fsp). cbv zeta in *.
  set (s' := call_sent cur tcr epptr e dest td badge w sr) in *.
  destruct (lookupIPCBuffer_Ok false cur tc s Htc Hs1 Hcaps) as [buf Hbuf].
  assert (handleInvocation true true s = Ok EXCEPTION_NONE s') as Hinv.
  { unfold handleInvocation. kstep. rewrite Hcur.
    rewrite (kbind_Ok _ _ _ _ _ (getRegister_Ok _ msgInfoRegister _ _ Htc)).
    change (nth (Z.to_nat msgInfoRegister) (tcbContext tc) 0) with (nth 1 (tcbContext tc) 0).
    rewrite <-Hw, Hfw.
    rewrite (kbind_Ok _ _ _ _ _ (getRegister_Ok _ capRegister _ _ Htc)).
    change (nth (Z.to_nat capRegister) (tcbContext tc) 0) with (nth 0 (tcbContext tc) 0).
    rewrite (kbind_Ok _ _ _ _ _ Hlk). cbv zeta.
    rewrite (kbind_Ok _ _ _ _ _ Hbuf).
    rewrite (kbind_Ok _ _ _ _ _ (lookupExtraCaps_none cur buf w s Hx)). kstep.
    match goal with |- context [decodeInvocation _ ?l] => set (len := l) end.
    assert (decodeInvocation (message_info_get_msgLabel w) len (nth 0 (tcbContext tc) 0) slot
      (cap_endpoint_cap badge true true canReceive epptr) (current_extra_caps (no_extra_caps s))
      true true buf (no_extra_caps s) = Ok EXCEPTION_NONE s') as Hdec.
    { cbn [decodeInvocation negb]. unfold restart_current.
      erewrite kbind_Ok; [|rewrite (kbind_Ok (gets ksCurThread) _ _ _ _ eq_refl);
        change (ksCurThread (no_extra_caps s)) with (ksCurThread s); rewrite Hcur;
        apply (setThreadState_quiet cur ThreadState_Restart tc); [done|by right; right]].
      fold sr. unfold performInvocation_Endpoint. kstep.
      change (ksCurThread sr) with (ksCurThread s). rewrite Hcur.
      by rewrite (kbind_Ok _ _ _ _ _ Hsend). }
    rewrite (kbind_Ok _ _ _ _ _ Hdec). unfold getTsType.
    by rewrite (kbind_Ok _ _ _ _ _ (getTCBf_Ok _ _ _ _ Ftc)). }
  unfold handleSyscall, invocation_event.
  erewrite kbind_Ok by (rewrite (kbind_Ok _ _ _ _ _ Hinv); reflexivity).
  rewrite (finish_direct s' cur dest pd hw _ _ Fact Hch (fr_nonzero _ _ _ _ _ Hfr) Fcur Ftc
    eq_refl Fsp Ftd Hq eq_refl).
  done.
Qed.

(** The call on the fast path. *)
Definition call_fast (cur : Z) (tc : tcb_t) (epptr : Z) (e : endpoint_t) (dest : Z) (td : tcb_t)
    (pd hw badge w : Z) (s : kstate) : kstate :=
  upd_ctx (λ c, <[Z.to_nat badgeRegister := w32 badge]>
                  (<[Z.to_nat msgInfoRegister := w32 (message_info_set_msgCapsUnwrapped w 0)]> c)) dest
    (switched dest pd hw (tcbIPCBuffer td)
       (mod_state (thread_state_ptr_set_tsType_np ThreadState_Running) dest
          (upd_ctx (copy_regs (message_info_get_msgLength w) (tcbContext tc)) dest
             (set_cap (TCB_PTR_CTE_PTR cur tcbReply)
                (cap_reply_cap (field_high 28 (TCB_PTR_CTE_PTR dest tcbCaller)) true 0)
                (set_cap (TCB_PTR_CTE_PTR dest tcbCaller) (cap_reply_cap 0 false (field_high 27 cur))
                   (mod_state (thread_state_ptr_set_tsType_np ThreadState_BlockedOnReply) cur
                      (dequeued epptr (epQueue_tail e) (tcbEPNext td) s))))))).

Lemma fastpath_call_commit_Ok s cur tc epptr e dest td pd hw w badge :
  call_ready s cur tc epptr e dest td pd hw w →
  fastpath_call_commit w (CallPlan epptr badge dest pd (pde_pde_invalid hw true)) s =
    Ok EXCEPTION_NONE (call_fast cur tc epptr e dest td pd hw badge w s).
Proof using.
  intros R. destruct (dequeued_both s cur tc epptr e dest td pd hw w R) as [Htc1 Htd1].
  pose proof (reply_caller_differ s cur tc epptr e dest td pd hw w R) as Hdiff.
  pose proof R as [Hcur Htc Hf Ha Hfr Hne Hnc Hch Hs1 Hs2 Hcaps Hrep Hcal Hq Hdim Hpr Hsp Hw Hww Hmi].
  destruct (fastpath_mi_check_false w Hww Hmi) as (_ & Hlen & _ & _).
  destruct Hrep as (c & v & Hc & _). destruct Hcal as (c' & Hc' & _). cbv zeta in Htc1, Htd1.
  unfold fastpath_call_commit, messageInfoFromWord_raw. cbn [call_dest call_ep call_badge call_pd call_asid].
  cbv zeta. rewrite unwrapped_length by done. kstep. rewrite Hcur.
  rewrite (kbind_Ok _ _ _ _ _ (getTCBf_Ok _ _ _ _ (fr_dest _ _ _ _ _ Hfr))).
  pose proof (dequeue_fp_Ok _ _ _ _ _ Hfr) as Edq.
  apply kbind_Ok_inv in Edq as ([] & s0 & E0 & Edq). rewrite (kbind_Ok _ _ _ _ _ E0).
  rewrite (kbind_Ok _ _ _ _ _ Edq). set (s1 := dequeued _ _ _ s) in *.
  rewrite (kbind_Ok _ _ _ _ _ (updState_mod cur _ _ _ Htc1)). set (s2 := mod_state _ cur s1).
  assert (ks_cte s2 = ks_cte s) as Ecte by apply dequeued_cte.
  unfold cap_reply_cap_ptr_new_np2, cap_reply_cap_ptr_new_np.
  rewrite (kbind_Ok _ _ _ _ _ (setCap_set _ _ c' s2 ltac:(by rewrite Ecte))).
  set (s3 := set_cap _ _ s2).
  rewrite (kbind_Ok _ _ _ _ _ (setCap_set (TCB_PTR_CTE_PTR cur tcbReply) _ c s3
    ltac:(unfold s3; by rewrite set_cap_lookup_ne, Ecte))).
  set (s4 := set_cap _ _ s3).
  pose proof (mod_state_lookup (thread_state_ptr_set_tsType_np ThreadState_BlockedOnReply) _ _ _ Htc1)
    as Htc4.
  assert (ks_tcb s4 !! dest = Some td) as Htd4.
  { change (ks_tcb s2 !! dest = Some td). unfold s2. by rewrite mod_state_lookup_ne. }
  rewrite (kbind_Ok _ _ _ _ _ (fastpath_copy_mrs_Ok cur dest Hne _ td _ s4 Hlen Htc4 Htd4)).
  set (s5 := upd_ctx _ dest s4). pose proof (upd_ctx_lookup (copy_regs (message_info_get_msgLength w)
    (tcbContext tc)) _ _ _ Htd4) as Htd5.
  rewrite (kbind_Ok _ _ _ _ _ (updState_mod dest _ _ s5 Htd5)).
  pose proof (mod_state_lookup (thread_state_ptr_set_tsType_np ThreadState_Running) dest s5 _ Htd5)
    as Htd6. set (s6 := mod_state _ dest s5) in *.
  rewrite (kbind_Ok _ _ _ _ _ (switchToThread_fp_Ok s6 dest pd hw _ Htd6)).
  kstep. set (s7 := switched _ _ _ _ s6). change (ksCurThread s7) with dest.
  unfold fastpath_restore, wordFromMessageInfo.
  erewrite kbind_Ok; [reflexivity|].
  rewrite (kbind_Ok _ _ _ _ _ (setRegister_Ok dest _ _ _ s7 Htd6)).
  erewrite setRegister_Ok by by apply upd_ctx_lookup. by rewrite upd_ctx_ctx.
Qed.

(** The two calls end in the same state, up to dead fields. *)
Lemma call_same_live s cur tc epptr e dest td pd hw w badge :
  call_ready s cur tc epptr e dest td pd hw w →
  call_fast cur tc epptr e dest td pd hw badge w s ≃
  upd_ksSchedulerAction SchedulerAction_ResumeCurrentThread
    (switched dest pd hw (tcbIPCBuffer td)
       (call_sent cur (set_tcbState (thread_state_set_tsType ThreadState_Restart (tcbState tc)) tc)
          epptr e dest td badge w
          (mod_state (thread_state_set_tsType ThreadState_Restart) cur (no_extra_caps s)))).
Proof using.
  intros R. pose proof (reply_caller_differ s cur tc epptr e dest td pd hw w R) as Hdiff.
  pose proof R as [Hcur Htc Hf Ha Hfr Hne Hnc Hch Hs1 Hs2 Hcaps Hrep Hcal Hq Hdim Hpr Hsp Hw Hww Hmi].
  unfold call_fast, call_sent, dequeued.
  apply same_live_intro; try (by destruct (tcbEPNext td =? 0)).
  - (* threads *)
    destruct Hfr as [_ _ _ _ Htd _ _ Hnx].
    apply map_eq. intros i. rewrite !lookup_fmap.
    destruct (Z.eqb_spec (tcbEPNext td) 0) as [Hz|Hz]; cbn.
    + destruct (decide (i = cur)) as [->|]; [|destruct (decide (i = dest)) as [->|]];
        repeat (rewrite lookup_alter_eq || rewrite lookup_alter_ne by done); [| |done].
      * rewrite Htc. by destruct tc as [? [? ? ? ? ? ? ?]].
      * rewrite Htd. by destruct td as [? [? ? ? ? ? ? ?]].
    + destruct (Hnx Hz) as (Hnd & _ & _).
      destruct (decide (i = cur)) as [->|]; [|destruct (decide (i = dest)) as [->|];
        [|destruct (decide (i = tcbEPNext td)) as [->|]]];
        repeat (rewrite lookup_alter_eq || rewrite lookup_alter_ne by done); [| |done|done].
      * rewrite Htc. by destruct tc as [? [? ? ? ? ? ? ?]].
      * rewrite Htd. by destruct td as [? [? ? ? ? ? ? ?]].
  - (* slots *)
    destruct (Z.eqb_spec (tcbEPNext td) 0) as [Hz|Hz]; cbn; by apply alter_swap.
Qed.

(** When the checks succeed, a call is ready. *)
Lemma fastpath_call_check_ready s cur tc cap p s' :
  syscall_inv s → ksCurThread s = cur → ks_tcb s !! cur = Some tc →
  lookupCap cur (nth 0 (tcbContext tc) 0) s = Ok (EXCEPTION_NONE, cap) s →
  fastpath_call_check (nth 0 (tcbContext tc) 0) (nth 1 (tcbContext tc) 0) s = Ok (Some p) s' →
  s' = s ∧ ∃ epptr e dest td pd hw badge r slot,
    p = CallPlan epptr badge dest pd (pde_pde_invalid hw true) ∧
    cap = cap_endpoint_cap badge true true r epptr ∧
    lookupCapAndSlot cur (nth 0 (tcbContext tc) 0) s = Ok (EXCEPTION_NONE, cap, slot) s ∧
    call_ready s cur tc epptr e dest td pd hw (nth 1 (tcbContext tc) 0).
Proof using.
  intros I Hcur Htc Hlk Hck. pose proof I as [Ha Hth Hcaps Hcn Hep _ _ _ Hrep _].
  destruct (Hth _ _ Htc) as (Hcur0 & _ & Hslots & Hctx).
  unfold fastpath_call_check in Hck. rewrite (kbind_Ok (gets ksCurThread) _ _ _ _ eq_refl), Hcur in Hck.
  apply getTCB_inv in Hck as (t & Ht & Hck). assert (t = tc) as -> by congruence.
  destruct (fastpath_mi_check _) eqn:Hmi; cbn [orb] in Hck; [done|].
  destruct (Z.eqb_spec (fault_get_faultType (tcbFault tc)) 0) as [Hf|]; cbn [negb] in Hck; [|done].
  apply kbind_Ok_inv in Hck as (pend & s1 & Hp & Hck).
  pose proof (async_event_pending_pure _ _ _ _ Hp) as ->. destruct pend; [done|].
  apply getCap_inv in Hck as (croot & Hroot & Hck).
  destruct (lookup_fp_lookupCap s cur croot _ cap s Hcn Hroot (proj1 (Hcaps _ _ Hroot))
    (register_word tc 0 Hctx) Hlk) as (Hfp & _ & slot & c & Hsl & Hc & Ecap).
  rewrite (kbind_Ok _ _ _ _ _ Hfp) in Hck.
  destruct cap as [| |badge canGrant canSend r epptr| | | | | | | | | | |]; try done.
  destruct canSend; [|done]. apply getEP_inv in Hck as (e & He & Hck).
  destruct (Z.eqb_spec (ep_state e) EPState_Recv) as [Hst|]; cbn [negb] in Hck; [|done].
  destruct (Hep _ _ He) as (ts & Hw & _ & Hts). pose proof Hw as (e' & He' & Hst' & _ & HF).
  assert (e' = e) as -> by congruence.
  destruct ts as [|dest ts]. { rewrite bool_decide_eq_true_2, Hst in Hst' by done. done. }
  rewrite Hst in Hw. destruct (first_receiver_waits s epptr e dest ts Hw He) as (td & Hfr & Hnext).
  rewrite (fr_head _ _ _ _ _ Hfr) in Hck.
  destruct (Hts dest ltac:(by left)) as (Hdc & x & Hx & Hq & Hcal).
  assert (x = td) as -> by (pose proof (fr_dest _ _ _ _ _ Hfr); congruence).
  apply kbind_Ok_inv in Hck as (sp & s2 & Hsp & Hck).
  destruct (address_space_fp_inv _ _ _ _ Hsp) as [-> Hspace].
  destruct sp as [[pd a]|]; [|done]. destruct (Hspace pd a eq_refl) as (hw & -> & Hs).
  apply kbind_Ok_inv in Hck as (sch & s3 & Hsch & Hck).
  destruct (can_schedule_fp_inv _ _ _ _ _ Hsch) as [-> Hprio].
  apply getTCBf_inv in Hck as (x & Hx2 & Hck). assert (x = td) as -> by congruence.
  destruct sch; cbn [negb orb] in Hck; [|done]. destruct canGrant; cbn [negb orb] in Hck; [|done].
  destruct (blockingIPCDiminishCaps (tcbState td)) eqn:Hdim; [done|]. injection Hck as <- <-.
  destruct (Hprio eq_refl) as (t1 & t2 & Ht1 & Ht2 & Hle).
  split; [done|]. exists epptr, e, dest, td, pd, hw, badge, r, slot. split_and!; try done.
  - unfold lookupCapAndSlot. rewrite (kbind_Ok _ _ _ _ _ Hsl). kload. by rewrite Ecap.
  - destruct (Hth _ _ Hx) as (_ & Hch & Hds & _).
    split; try done; try congruence.
    + by destruct (tcbFault tc).
    + rewrite Hnext. destruct ts as [|y ts]; cbn [hd].
      * by apply not_eq_sym.
      * rewrite <-Hcur. apply not_eq_sym. intros E. by destruct (Hts y ltac:(by right; left)) as [Hy _].
    + rewrite <-Hcur. apply Hrep.
    + by apply Hcal in Hst as [_ Hst].
    + by apply register_word.
Qed.
End Call.
