(* ===== verification/FastpathReply.v ===== *)
(** * Reply and wait of the fast path is that of the slow path *)

From S2P Require Import Prelude.
From S2P Require Import Word32.
From S2P Require Import Structures.
From S2P Require Import State.
From S2P Require Import CapOps.
From S2P Require Import Queue.
From S2P Require Import VSpace.
From S2P Require Import Sched.
From S2P Require Import CSpace.
From S2P Require Import Finalise.
From S2P Require Import Ipc.
From S2P Require Import Labels.
From S2P Require Import Syscall.
From S2P Require Import Fastpath.
From S2P Require Import CapTheorems.
From S2P Require Import EndpointInv.
From S2P Require Import FastpathInv.
From S2P Require Import FastpathCall.

#[local] Existing Instance ep_links.

(** ** Lookups do not see slots without CNodes *)

(** The heaps agree but for slots that hold no CNode capability in either. *)
Definition same_cnodes (h h' : gmap Z cte_t) : Prop :=
  ∀ p, (cteCap <$> h' !! p = cteCap <$> h !! p) ∨
    (∃ c c', h !! p = Some c ∧ h' !! p = Some c' ∧ cap_get_capType (cteCap c) ≠ 10 ∧
       cap_get_capType (cteCap c') ≠ 10).

Lemma resolve_loop_frame s s' fuel radix ptr capptr n slot left :
  same_cnodes (ks_cte s) (ks_cte s') →
  resolve_loop fuel radix ptr capptr n s = Ok (EXCEPTION_NONE, slot, left) s →
  resolve_loop fuel radix ptr capptr n s' = Ok (EXCEPTION_NONE, slot, left) s'.
Proof.
  intros Hh. revert radix ptr n. induction fuel as [|fuel IH]; intros radix ptr n; [done|].
  cbn [resolve_loop]. destruct (negb (radix =? 0)) eqn:Hr.
  2:{ by unfold kbind, kassert, kfail. }
  rewrite !kassert_true by done. destruct (n <? radix); [done|].
  destruct (n <=? radix); [by intros [= <- <-]|].
  intros H. apply getCap_inv in H as (c & Hc & H).
  destruct (Hh (CTE_AT ptr (cnode_offset capptr n radix))) as [Heq|(c1 & c2 & H1 & H2 & Ht1 & Ht2)].
  - rewrite Hc in Heq. destruct (ks_cte s' !! _) as [c'|] eqn:Hc'; [|done].
    cbn in Heq. injection Heq as Heq. kload. rewrite Heq.
    destruct (cteCap c); first [by apply IH | by injection H as <- <-].
  - assert (c1 = c) as -> by congruence.
    rewrite (kbind_Ok _ _ _ _ _ (getCap_Ok _ _ _ H2)).
    assert (Ok (EXCEPTION_NONE, CTE_AT ptr (cnode_offset capptr n radix), n - radix) s =
            Ok (EXCEPTION_NONE, slot, left) s) as E by by destruct (cteCap c).
    injection E as <- <-. by destruct (cteCap c2).
Qed.

Lemma lookupSlot_frame s s' thread capptr slot :
  same_cnodes (ks_cte s) (ks_cte s') →
  cteCap <$> ks_cte s' !! TCB_PTR_CTE_PTR thread tcbCTable =
    cteCap <$> ks_cte s !! TCB_PTR_CTE_PTR thread tcbCTable →
  lookupSlot thread capptr s = Ok (EXCEPTION_NONE, slot) s →
  lookupSlot thread capptr s' = Ok (EXCEPTION_NONE, slot) s'.
Proof.
  intros Hh Hroot H. unfold lookupSlot in *. apply getCap_inv in H as (c & Hc & H).
  rewrite Hc in Hroot. destruct (ks_cte s' !! _) as [c'|] eqn:Hc'; [|done].
  cbn in Hroot. injection Hroot as Hroot. kload. rewrite Hroot.
  apply kbind_Ok_inv in H as ([[st sl] left] & s1 & Hra & H).
  cbn in H. injection H as -> -> ->. unfold resolveAddressBits in *.
  destruct (cteCap c); try done.
  destruct (wordBits <? _); [done|].
  apply kbind_Ok_inv in Hra as ([[st2 sl2] left2] & s2 & Hra & H2).
  cbn in H2. injection H2 as -> -> _ ->.
  erewrite kbind_Ok; [|rewrite (kbind_Ok _ _ _ _ _ (resolve_loop_frame _ _ _ _ _ _ _ _ _ Hh Hra));
    reflexivity].
  reflexivity.
Qed.

(** ** The current thread joins an endpoint *)
Definition enqueued (epptr : Z) (e : endpoint_t) (cur : Z) (s : kstate) : kstate :=
  upd_ks_ep
    (<[epptr := endpoint (if epQueue_head e =? 0 then cur else epQueue_head e) cur EPState_Recv]>
       (ks_ep s))
    (mod_tcb (λ t, set_tcbEPNext 0 (set_tcbEPPrev (epQueue_tail e) t)) cur
       (if epQueue_head e =? 0 then s else mod_tcb (set_tcbEPNext cur) (epQueue_tail e) s)).

(** A queue that [cur] may join. *)
Record joinable (s : kstate) (epptr : Z) (e : endpoint_t) (cur : Z) : Prop := {
  jo_ep : ks_ep s !! epptr = Some e;
  jo_state : ep_state e = EPState_Idle ∨ ep_state e = EPState_Recv;
  jo_empty : epQueue_head e = 0 ↔ epQueue_tail e = 0;
  jo_head : field_high 28 (epQueue_head e) = epQueue_head e;
  jo_cur : field_high 28 cur = cur ∧ cur ≠ 0;
  jo_tail : epQueue_tail e ≠ 0 → epQueue_tail e ≠ cur ∧ is_Some (ks_tcb s !! epQueue_tail e)
}.

Section Reply.
Context {cfg : KernelConfig} (Hdom : CONFIG_NUM_DOMAINS = 1).

Lemma mod_tcb_mod_tcb f g p s : mod_tcb g p (mod_tcb f p s) = mod_tcb (λ t, g (f t)) p s.
Proof using.
  unfold mod_tcb. cbn [ks_tcb upd_ks_tcb]. rewrite upd_tcb_idem. f_equal.
  apply map_eq. intros i. destruct (decide (p = i)) as [->|].
  - rewrite !lookup_alter_eq. by destruct (ks_tcb s !! i).
  - by rewrite !lookup_alter_ne.
Qed.

(** As the slow path does it. *)
Lemma join_slow_Ok s epptr e cur x :
  joinable s epptr e cur → ks_tcb s !! cur = Some x →
  (let! ep := getEP epptr in
   let! queue := tcbEPAppend cur (ep_ptr_get_queue ep) in
   endpoint_ptr_set_state epptr EPState_Recv ;;;
   ep_ptr_set_queue epptr queue) s = Ok tt (enqueued epptr e cur s).
Proof using.
  intros [He Hst Hemp Hh [Hc Hc0] Htl] Hx. kload.
  assert (tcbEPAppend cur (ep_ptr_get_queue e) s =
    Ok (tcb_queue (if epQueue_head e =? 0 then cur else epQueue_head e) cur)
      (mod_tcb (λ t, set_tcbEPNext 0 (set_tcbEPPrev (epQueue_tail e) t)) cur
        (if epQueue_head e =? 0 then s else mod_tcb (set_tcbEPNext cur) (epQueue_tail e) s))) as E.
  { unfold tcbEPAppend. cbn [ep_ptr_get_queue queue_head queue_end].
    destruct (Z.eqb_spec (epQueue_head e) 0) as [Hz|Hz].
    - kstep. rewrite (kbind_Ok _ _ _ _ _ (updTCB_mod cur _ x s Hx)).
      rewrite (kbind_Ok _ _ _ _ _ (updTCB_mod cur _ _ _ (mod_tcb_lookup _ _ _ _ Hx))).
      by rewrite mod_tcb_mod_tcb.
    - destruct Htl as [Hne [y Hy]]; [by rewrite <-Hemp|].
      erewrite kbind_Ok by (rewrite (kbind_Ok _ _ _ _ _ (updTCB_mod _ _ y s Hy)); reflexivity).
      assert (ks_tcb (mod_tcb (set_tcbEPNext cur) (epQueue_tail e) s) !! cur = Some x) as Hx'
        by by rewrite mod_tcb_lookup_ne.
      rewrite (kbind_Ok _ _ _ _ _ (updTCB_mod cur _ x _ Hx')).
      rewrite (kbind_Ok _ _ _ _ _ (updTCB_mod cur _ _ _ (mod_tcb_lookup _ _ _ _ Hx'))).
      by rewrite mod_tcb_mod_tcb. }
  rewrite (kbind_Ok _ _ _ _ _ E). set (s1 := mod_tcb _ cur _).
  assert (ks_ep s1 = ks_ep s) as Eep by (unfold s1; by destruct (epQueue_head e =? 0)).
  unfold endpoint_ptr_set_state, ep_ptr_set_queue.
  rewrite (kbind_Ok _ _ _ _ _ (updEP_Ok epptr _ e s1 ltac:(by rewrite Eep))).
  erewrite updEP_Ok by (cbn [ks_ep upd_ks_ep]; apply lookup_insert_eq).
  cbn [ks_ep upd_ks_ep]. rewrite insert_insert_eq.
  unfold enqueued, endpoint_set_queue, endpoint_set_state. cbn [queue_head queue_end ep_state].
  fold s1. rewrite Eep, Hc. by destruct (epQueue_head e =? 0); rewrite ?Hc, ?Hh.
Qed.

(** As the fast path does it. *)
Lemma join_fast_Ok s epptr e cur x {A} (k : unit → K A) :
  joinable s epptr e cur → ks_tcb s !! cur = Some x →
  (let! ep := getEP epptr in
   let endpointTail := epQueue_tail ep in
   (if endpointTail =? 0 then
      updTCB cur (set_tcbEPPrev 0) ;;;
      updEP epptr (endpoint_ptr_set_epQueue_head_np cur)
    else
      updTCB endpointTail (set_tcbEPNext cur) ;;;
      updTCB cur (set_tcbEPPrev endpointTail)) ;;;
   updEP epptr (endpoint_ptr_mset_epQueue_tail_state cur EPState_Recv) ;;;
   let! u := updTCB cur (set_tcbEPNext 0) in k u) s = k tt (enqueued epptr e cur s).
Proof using.
  intros [He Hst Hemp Hh [Hc Hc0] Htl] Hx. kload. unfold enqueued.
  destruct (Z.eqb_spec (epQueue_tail e) 0) as [Hz|Hz].
  - rewrite (proj2 (Z.eqb_eq _ _) (proj2 Hemp Hz)).
    set (s1 := mod_tcb (set_tcbEPPrev 0) cur s).
    erewrite kbind_Ok by (rewrite (kbind_Ok _ _ _ _ _ (updTCB_mod cur _ x s Hx));
      apply (updEP_Ok epptr _ e s1 He)).
    erewrite kbind_Ok by (apply updEP_Ok; cbn [ks_ep upd_ks_ep]; apply lookup_insert_eq).
    cbn [ks_ep upd_ks_ep]. rewrite insert_insert_eq.
    set (s2 := upd_ks_ep _ _).
    rewrite (kbind_Ok _ _ _ _ _ (updTCB_mod cur _ _ s2 (mod_tcb_lookup (set_tcbEPPrev 0) cur s x Hx))).
    f_equal. unfold s2, s1, endpoint_ptr_mset_epQueue_tail_state, endpoint_ptr_set_epQueue_head_np.
    cbn [epQueue_head]. rewrite Hc, Hz.
    rewrite <-(mod_tcb_mod_tcb (set_tcbEPPrev 0) (set_tcbEPNext 0)). done.
  - rewrite (proj2 (Z.eqb_neq _ _)) by by rewrite Hemp.
    destruct (Htl Hz) as [Hne [y Hy]]. set (s1 := mod_tcb (set_tcbEPNext cur) (epQueue_tail e) s).
    assert (ks_tcb s1 !! cur = Some x) as Hx1 by (unfold s1; by rewrite mod_tcb_lookup_ne).
    erewrite kbind_Ok by (rewrite (kbind_Ok _ _ _ _ _ (updTCB_mod _ _ y s Hy));
      apply (updTCB_mod cur _ x s1 Hx1)).
    set (s2 := mod_tcb _ cur s1).
    rewrite (kbind_Ok _ _ _ _ _ (updEP_Ok epptr _ e s2 He)). set (s3 := upd_ks_ep _ s2).
    rewrite (kbind_Ok _ _ _ _ _ (updTCB_mod cur _ _ s3 (mod_tcb_lookup _ cur s1 x Hx1))).
    f_equal. unfold s3, s2, endpoint_ptr_mset_epQueue_tail_state. rewrite Hc.
    rewrite <-(mod_tcb_mod_tcb (set_tcbEPPrev (epQueue_tail e)) (set_tcbEPNext 0)). done.
Qed.

(** ** Replying and waiting *)

(** The situation in which the fast path commits: [tc] at [cur] replies to [tk]
    at [caller] and waits on the endpoint [epptr]. *)
Record reply_ready (s : kstate) (cur : Z) (tc : tcb_t) (epptr : Z) (e : endpoint_t)
    (caller : Z) (tk : tcb_t) (pd hw w : Z) : Prop := {
  rr_cur : ksCurThread s = cur;
  rr_tcb : ks_tcb s !! cur = Some tc;
  rr_caller : ks_tcb s !! caller = Some tk;
  rr_fault : tcbFault tc = fault_null_fault;
  rr_caller_fault : tcbFault tk = fault_null_fault;
  rr_state : tsType (tcbState tk) = ThreadState_BlockedOnReply;
  rr_action : ksSchedulerAction s = SchedulerAction_ResumeCurrentThread;
  rr_join : joinable s epptr e cur;
  rr_tail : epQueue_tail e ≠ caller;
  rr_ne : cur ≠ caller;
  rr_nonzero : caller ≠ 0;
  rr_dest : caller ≠ SchedulerAction_ChooseNewThread;
  rr_cur_slots : slots_ok (ks_cte s) cur;
  rr_caller_slots : slots_ok (ks_cte s) caller;
  rr_caps : caps_ok (ks_cte s);
  rr_cnodes : cnodes_ok (ks_cte s);
  rr_caller_cap : ∃ c v, ks_cte s !! TCB_PTR_CTE_PTR cur tcbCaller = Some c ∧
                    cteCap c = cap_reply_cap v false caller;
  rr_reply : ∃ c v, ks_cte s !! TCB_PTR_CTE_PTR caller tcbReply = Some c ∧
               cteCap c = cap_reply_cap v true 0;
  rr_queued : tcbQueued (tcbState tk) = false;
  rr_prio : tcbPriority tc ≤ tcbPriority tk;
  rr_space : has_space s caller pd hw;
  rr_pending : async_event_pending tc s = Ok false s;
  rr_w : w = nth 1 (tcbContext tc) 0;
  rr_word : is_w32 w;
  rr_mi : fastpath_mi_check w = false
}.

(** The reply of the slow path. *)
Definition replied (cur : Z) (tc : tcb_t) (caller w : Z) (s : kstate) : kstate :=
  set_cap (TCB_PTR_CTE_PTR cur tcbCaller) cap_null_cap_new
    (set_cap (TCB_PTR_CTE_PTR caller tcbReply) (cap_reply_cap 0 true 0)
       (upd_ksSchedulerAction caller
          (mod_state (thread_state_set_tsType ThreadState_Running) caller
             (upd_ctx (received 0 w (tcbContext tc)) caller (no_extra_caps s))))).

Definition waiting (epptr : Z) (diminish : bool) (st : thread_state_t) : thread_state_t :=
  thread_state_set_blockingIPCDiminishCaps diminish
    (thread_state_set_blockingIPCEndpoint epptr
       (thread_state_set_tsType ThreadState_BlockedOnReceive st)).

Section Ready.
Context (s : kstate) (cur : Z) (tc : tcb_t) (epptr : Z) (e : endpoint_t) (caller : Z) (tk : tcb_t)
        (pd hw w : Z) (R : reply_ready s cur tc epptr e caller tk pd hw w).

Lemma caller_reply_differ : TCB_PTR_CTE_PTR cur tcbCaller ≠ TCB_PTR_CTE_PTR caller tcbReply.
Proof using R.
  destruct (rr_caller_cap _ _ _ _ _ _ _ _ _ _ R) as (c & v & Hc & Ec).
  destruct (rr_reply _ _ _ _ _ _ _ _ _ _ R) as (c' & v' & Hc' & Ec').
  intros E. rewrite E in Hc. congruence.
Qed.

Lemma handleReply_Ok : handleReply s = Ok tt (replied cur tc caller w s).
Proof using R Hdom.
  pose proof caller_reply_differ as Hdiff.
  destruct (rr_caller_cap _ _ _ _ _ _ _ _ _ _ R) as (c & v & Hc & Ec).
  destruct (rr_reply _ _ _ _ _ _ _ _ _ _ R) as (c' & v' & Hc' & Ec').
  pose proof R as [Hcur Htc Htk Hf Hfk Hst Ha Hj Htl Hne Hnz Hch Hs1 Hs2 Hcaps Hcn _ _ Hq Hpr Hsp Hpend Hw Hww Hmi].
  unfold handleReply. kstep. rewrite Hcur. cbv zeta. kload. rewrite Ec.
  rewrite kassert_true by (apply negb_true_iff, Z.eqb_neq; congruence).
  unfold doReplyTransfer. kload. rewrite Hst. rewrite kassert_true by done. rewrite Hfk.
  cbn [fault_get_faultType Z.eqb].
  assert ((doIPCTransfer cur 0 0 true caller false ;;;
           setThreadState caller ThreadState_Running ;;; attemptSwitchTo caller) s =
    Ok tt (upd_ksSchedulerAction caller
          (mod_state (thread_state_set_tsType ThreadState_Running) caller
             (upd_ctx (received 0 w (tcbContext tc)) caller (no_extra_caps s))))) as E.
  { rewrite (kbind_Ok _ _ _ _ _ (doIPCTransfer_short cur caller Hne 0 0 tc tk w s Htc Htk Hs1 Hs2
      Hcaps Hf Hw Hww Hmi)).
    set (s2 := upd_ctx _ caller _).
    pose proof (upd_ctx_lookup (received 0 w (tcbContext tc)) caller (no_extra_caps s) tk Htk) as Htk2.
    rewrite (kbind_Ok _ _ _ _ _ (setThreadState_quiet caller ThreadState_Running _ s2 Htk2
      ltac:(right; right; done))).
    set (s3 := mod_state _ caller s2).
    pose proof (mod_state_lookup (thread_state_set_tsType ThreadState_Running) caller s2 _ Htk2) as Htk3.
    assert (ks_tcb s3 !! cur = Some tc) as Htc3.
    { unfold s3. rewrite mod_state_lookup_ne by done. unfold s2. by rewrite upd_ctx_lookup_ne. }
    eapply (attemptSwitchTo_direct Hdom caller tc); [|exact Htk3|done|done].
    change (ksCurThread s3) with (ksCurThread s). by rewrite Hcur. }
  rewrite (kbind_Ok _ _ _ _ _ E). set (s4 := upd_ksSchedulerAction caller _).
  assert (ks_cte s4 = ks_cte s) as Ecte by done.
  unfold drop_cap. rewrite (kbind_Ok _ _ _ _ _ (getCap_Ok _ c s4 Hc)). rewrite Ec.
  assert (finaliseCap (cap_reply_cap v false caller) true true s4 =
    Ok (cap_null_cap_new, irqInvalid)
      (set_cap (TCB_PTR_CTE_PTR caller tcbReply) (cap_reply_cap 0 true 0) s4)) as Efin.
  { unfold finaliseCap. cbn [finaliseCap_fuel finaliseCap_body].
    erewrite kbind_Ok; [reflexivity|]. unfold set_callerSlot.
    rewrite (kbind_Ok _ _ _ _ _ (getCap_Ok _ c' s4 Hc')). rewrite Ec'.
    cbn [reply_set_callerSlot]. rewrite (kopt_Some _ _ _ _ eq_refl).
    by apply (setCap_set _ _ c'). }
  rewrite (kbind_Ok _ _ _ _ _ Efin).
  apply (setCap_set _ _ c). by rewrite set_cap_lookup_ne.
Qed.

(** What the reply leaves for the wait. *)
Lemma replied_facts canGrant canSend badge slot c0 :
  let s' := replied cur tc caller w s in
  lookupSlot cur (nth 0 (tcbContext tc) 0) s = Ok (EXCEPTION_NONE, slot) s →
  ks_cte s !! slot = Some c0 → cteCap c0 = cap_endpoint_cap badge canGrant canSend true epptr →
  lookupCap cur (nth 0 (tcbContext tc) 0) s' = Ok (EXCEPTION_NONE, cteCap c0) s' ∧
  ks_tcb s' !! cur = Some tc ∧ has_space s' caller pd hw ∧ joinable s' epptr e cur ∧
  (∃ c, ks_cte s' !! TCB_PTR_CTE_PTR cur tcbCaller = Some c ∧ cteCap c = cap_null_cap).
Proof using R.
  intros s' Hsl Hslot Ec0. pose proof caller_reply_differ as Hdiff.
  destruct (rr_caller_cap _ _ _ _ _ _ _ _ _ _ R) as (c & v & Hc & Ec).
  destruct (rr_reply _ _ _ _ _ _ _ _ _ _ R) as (c' & v' & Hc' & Ec').
  pose proof R as [Hcur Htc Htk Hf Hfk Hst Ha Hj Htl Hne Hnz Hch Hs1 Hs2 Hcaps Hcn _ _ Hq Hpr Hsp Hpend Hw Hww Hmi].
  assert (∀ p x, ks_cte s !! p = Some x → (∀ a b t, cteCap x ≠ cap_reply_cap a b t) →
    ks_cte s' !! p = Some x) as Hkeep.
  { intros p x Hp Hx. unfold s', replied. rewrite !set_cap_lookup_ne; [exact Hp|..].
    - intros E. rewrite E in Hc'. apply (Hx v' true 0). congruence.
    - intros E. rewrite E in Hc. apply (Hx v false caller). congruence. }
  assert (ks_cte s' !! TCB_PTR_CTE_PTR cur tcbCaller = Some (cte cap_null_cap (cteMDBNode c))) as Hc2.
  { unfold s', replied. apply set_cap_lookup. by rewrite set_cap_lookup_ne. }
  assert (ks_cte s' !! TCB_PTR_CTE_PTR caller tcbReply =
          Some (cte (cap_reply_cap 0 true 0) (cteMDBNode c'))) as Hc2'.
  { unfold s', replied. rewrite set_cap_lookup_ne by done. by apply set_cap_lookup. }
  assert (same_cnodes (ks_cte s) (ks_cte s')) as Hsame.
  { intros p. destruct (decide (p = TCB_PTR_CTE_PTR cur tcbCaller)) as [->|].
    { right. exists c, (cte cap_null_cap (cteMDBNode c)). by rewrite Ec. }
    destruct (decide (p = TCB_PTR_CTE_PTR caller tcbReply)) as [->|].
    { right. exists c', (cte (cap_reply_cap 0 true 0) (cteMDBNode c')). by rewrite Ec'. }
    left. unfold s', replied. by rewrite !set_cap_lookup_ne. }
  split_and!.
  - destruct (Hs1 tcbCTable) as [cr Hcr]; [done|].
    assert (∀ a b t, cteCap cr ≠ cap_reply_cap a b t) as Hcr2.
    { intros a b t E. unfold lookupSlot in Hsl. rewrite (kbind_Ok _ _ _ _ _ (getCap_Ok _ _ _ Hcr)), E in Hsl.
      done. }
    unfold lookupCap. erewrite kbind_Ok.
    2:{ apply (lookupSlot_frame s); [done|by rewrite (Hkeep _ _ Hcr Hcr2), Hcr|exact Hsl]. }
    assert (ks_cte s' !! slot = Some c0) as Hslot' by (apply Hkeep; [done|]; by rewrite Ec0).
    cbv beta iota. by rewrite (kbind_Ok _ _ _ _ _ (getCap_Ok _ _ _ Hslot')).
  - unfold s', replied. change (ks_tcb (mod_state (thread_state_set_tsType ThreadState_Running) caller
      (upd_ctx (received 0 w (tcbContext tc)) caller (no_extra_caps s))) !! cur = Some tc).
    rewrite mod_state_lookup_ne by done. by rewrite upd_ctx_lookup_ne.
  - destruct Hsp as [(cv & Hcv & Ecv) Hpde]. split; [|done].
    exists cv. split; [|done]. apply Hkeep; [done|]. by rewrite Ecv.
  - destruct Hj as [He Hes Hem Hh Hcc Htail]. split; try done.
    intros Hz. destruct (Htail Hz) as [Hn [y Hy]]. split; [done|]. exists y.
    unfold s', replied. change (ks_tcb (mod_state (thread_state_set_tsType ThreadState_Running) caller
      (upd_ctx (received 0 w (tcbContext tc)) caller (no_extra_caps s))) !! epQueue_tail e = Some y).
    rewrite mod_state_lookup_ne by done. by rewrite upd_ctx_lookup_ne.
  - by eexists.
Qed.

(** The wait of the slow path, after the reply. *)
Definition waited (diminish : bool) (s1 : kstate) : kstate :=
  enqueued epptr e cur (mod_state (waiting epptr diminish) cur s1).

Lemma receiveIPC_Ok s1 badge canGrant canSend :
  ks_tcb s1 !! cur = Some tc → joinable s1 epptr e cur → async_event_pending tc s1 = Ok false s1 →
  ksSchedulerAction s1 = caller → ksCurThread s1 = cur →
  receiveIPC cur (cap_endpoint_cap badge canGrant canSend true epptr) s1 =
    Ok tt (waited (negb canSend) s1).
Proof using R.
  intros Htc Hj Hpend Ha Hcur. pose proof (rr_nonzero _ _ _ _ _ _ _ _ _ _ R) as Hnz.
  unfold receiveIPC. rewrite (kopt_Some _ (canSend, epptr)) by done. cbv zeta.
  rewrite (kbind_Ok _ _ _ _ _ (getTCBf_Ok _ _ _ _ Htc)).
  unfold async_event_pending in Hpend. rewrite (kbind_Ok _ _ _ _ _ Hpend).
  cbv beta iota. rewrite (kbind_Ok _ _ _ _ _ (getEP_Ok _ _ _ (jo_ep _ _ _ _ Hj))).
  assert ((ep_state e =? EPState_Idle) || (ep_state e =? EPState_Recv) = true) as ->.
  { by destruct (jo_state _ _ _ _ Hj) as [-> | ->]. }
  unfold block_on_endpoint.
  rewrite (kbind_Ok _ _ _ _ _ (updState_mod cur (waiting epptr (negb canSend)) _ _ Htc)).
  set (s2 := mod_state _ cur s1).
  assert (scheduleTCB cur s2 = Ok tt s2) as Es.
  { unfold scheduleTCB. ksteps. change (ksSchedulerAction s2) with (ksSchedulerAction s1).
    rewrite Ha. change (ksCurThread s2) with (ksCurThread s1). rewrite Hcur, Z.eqb_refl.
    by rewrite (proj2 (Z.eqb_neq caller SchedulerAction_ResumeCurrentThread)). }
  rewrite (kbind_Ok _ _ _ _ _ Es).
  eapply join_slow_Ok; [|by apply mod_state_lookup].
  destruct Hj as [? ? ? ? ? Htl]. split; try done.
  intros Hz. destruct (Htl Hz) as [Hn Hy]. split; [done|]. unfold s2.
  by rewrite mod_state_lookup_ne.
Qed.

(** What the wait leaves for the scheduler. *)
Definition tk_running : tcb_t :=
  set_tcbState (thread_state_set_tsType ThreadState_Running (tcbState tk))
    (set_tcbContext (received 0 w (tcbContext tc) (tcbContext tk)) tk).
Definition tc_waiting (diminish : bool) : tcb_t :=
  set_tcbEPNext 0 (set_tcbEPPrev (epQueue_tail e)
    (set_tcbState (waiting epptr diminish (tcbState tc)) tc)).

Lemma waited_threads diminish s1 i :
  ks_tcb (waited diminish s1) !! i =
    (if decide (i = cur) then
       (λ t, set_tcbEPNext 0 (set_tcbEPPrev (epQueue_tail e)
          (set_tcbState (waiting epptr diminish (tcbState t)) t))) <$> ks_tcb s1 !! cur
     else if decide (i = epQueue_tail e ∧ epQueue_head e ≠ 0) then
       set_tcbEPNext cur <$> ks_tcb s1 !! i
     else ks_tcb s1 !! i).
Proof using R.
  destruct (rr_join _ _ _ _ _ _ _ _ _ _ R) as [_ _ Hemp _ _ Htl].
  unfold waited, enqueued. cbn [ks_tcb upd_ks_ep mod_tcb upd_ks_tcb].
  destruct (decide (i = cur)) as [->|Hi].
  - rewrite lookup_alter_eq. destruct (Z.eqb_spec (epQueue_head e) 0) as [Hz|Hz].
    + cbn. rewrite lookup_alter_eq, <-option_fmap_compose. done.
    + destruct Htl as [Hn _]; [by rewrite <-Hemp|]. cbn. rewrite lookup_alter_ne by done.
      by rewrite lookup_alter_eq, <-option_fmap_compose.
  - rewrite lookup_alter_ne by done. destruct (Z.eqb_spec (epQueue_head e) 0) as [Hz|Hz].
    + rewrite decide_False by tauto. cbn. by rewrite lookup_alter_ne.
    + destruct (decide _) as [[-> _]|Hd]; cbn.
      * by rewrite lookup_alter_eq, lookup_alter_ne.
      * rewrite lookup_alter_ne; [by rewrite lookup_alter_ne|]. intros E. by apply Hd.
Qed.

Lemma replied_threads i :
  ks_tcb (replied cur tc caller w s) !! i = if decide (i = caller) then Some tk_running else ks_tcb s !! i.
Proof using R.
  change (ks_tcb (replied cur tc caller w s)) with
    (ks_tcb (mod_state (thread_state_set_tsType ThreadState_Running) caller
       (upd_ctx (received 0 w (tcbContext tc)) caller (no_extra_caps s)))).
  destruct (decide (i = caller)) as [->|].
  - by rewrite (mod_state_lookup _ _ _ _ (upd_ctx_lookup _ _ (no_extra_caps s) _
      (rr_caller _ _ _ _ _ _ _ _ _ _ R))).
  - rewrite mod_state_lookup_ne by done. by rewrite upd_ctx_lookup_ne.
Qed.

(** The system call on the slow path. *)
Lemma handleSyscall_reply_wait canGrant canSend badge slot c0 :
  lookupSlot cur (nth 0 (tcbContext tc) 0) s = Ok (EXCEPTION_NONE, slot) s →
  ks_cte s !! slot = Some c0 → cteCap c0 = cap_endpoint_cap badge canGrant canSend true epptr →
  handleSyscall SysReplyWait s = Ok EXCEPTION_NONE
    (upd_ksSchedulerAction SchedulerAction_ResumeCurrentThread
       (switched caller pd hw (tcbIPCBuffer tk)
          (waited (negb canSend) (replied cur tc caller w s)))).
Proof using R Hdom.
  intros Hsl Hslot Ec0.
  destruct (replied_facts canGrant canSend badge slot c0 Hsl Hslot Ec0) as (Hlk & Htc & Hsp & Hj & c & Hc & Ec).
  set (s1 := replied cur tc caller w s) in *.
  assert (handleWait true s1 = Ok tt (waited (negb canSend) s1)) as Hwait.
  { unfold handleWait. kstep. change (ksCurThread s1) with (ksCurThread s).
    rewrite (rr_cur _ _ _ _ _ _ _ _ _ _ R).
    rewrite (kbind_Ok _ _ _ _ _ (getRegister_Ok _ capRegister _ _ Htc)).
    change (nth (Z.to_nat capRegister) (tcbContext tc) 0) with (nth 0 (tcbContext tc) 0).
    rewrite (kbind_Ok _ _ _ _ _ Hlk), Ec0. cbn [negb orb].
    assert (deleteCallerCap cur s1 = Ok tt s1) as Ed.
    { unfold deleteCallerCap, deleteCallerCap_with. rewrite (kbind_Ok _ _ _ _ _ (getCap_Ok _ _ _ Hc)).
      by rewrite Ec. }
    rewrite (kbind_Ok _ _ _ _ _ Ed).
    apply receiveIPC_Ok; [done|done| |done|].
    - pose proof (rr_pending _ _ _ _ _ _ _ _ _ _ R) as Hp. unfold async_event_pending in *.
      destruct (boundAsyncEndpoint tc =? 0); [done|].
      unfold kbind, getAEP, deref, kret in *. change (ks_aep s1) with (ks_aep s).
      destruct (ks_aep s !! _) as [x|]; [|done]. by injection Hp as ->.
    - change (ksCurThread s1) with (ksCurThread s). by apply (rr_cur _ _ _ _ _ _ _ _ _ _ R). }
  unfold handleSyscall.
  erewrite kbind_Ok by (rewrite (kbind_Ok _ _ _ _ _ handleReply_Ok); exact Hwait).
  destruct R as [Hcur _ _ _ _ _ _ _ Htl Hne Hnz Hch _ _ _ _ _ _ Hq _ _ _ _ _ _].
  rewrite (finish_direct _ cur caller pd hw (tc_waiting (negb canSend)) tk_running); try done.
  - by unfold waited, enqueued; destruct (epQueue_head e =? 0).
  - unfold waited, enqueued. by destruct (epQueue_head e =? 0).
  - by rewrite waited_threads, decide_True, Htc.
  - destruct Hsp as [Hsp1 Hsp2]. unfold waited, enqueued. by destruct (epQueue_head e =? 0).
  - rewrite waited_threads, !decide_False; [|by intros [? _]|done].
    unfold s1. by rewrite replied_threads, decide_True.
Qed.

(** The system call on the fast path. *)
Definition waiting_fast (canSend : bool) (st : thread_state_t) : thread_state_t :=
  thread_state_ptr_set_blockingIPCDiminish_np (negb canSend)
    (thread_state_ptr_mset_blockingIPCEndpoint_tsType epptr ThreadState_BlockedOnReceive st).

Definition reply_fast (canSend : bool) : kstate :=
  upd_ctx (λ c, <[Z.to_nat badgeRegister := w32 0]>
                  (<[Z.to_nat msgInfoRegister := w32 (message_info_set_msgCapsUnwrapped w 0)]> c)) caller
    (switched caller pd hw (tcbIPCBuffer tk)
       (mod_state (thread_state_ptr_set_tsType_np ThreadState_Running) caller
          (upd_ctx (copy_regs (message_info_get_msgLength w) (tcbContext tc)) caller
             (set_cap (TCB_PTR_CTE_PTR cur tcbCaller) cap_null_cap_new
                (set_cap (TCB_PTR_CTE_PTR caller tcbReply) (cap_reply_cap 0 true 0)
                   (enqueued epptr e cur (mod_state (waiting_fast canSend) cur s))))))).

Lemma reply_enqueued_threads canSend :
  let s1 := enqueued epptr e cur (mod_state (waiting_fast canSend) cur s) in
  ks_tcb s1 !! caller = Some tk ∧
  ∃ x, ks_tcb s1 !! cur = Some x ∧ tcbContext x = tcbContext tc.
Proof using R.
  destruct R as [Hcur Htc Htk _ _ _ _ [_ _ Hemp _ _ Hjt] Htl Hne _ _ _ _ _ _ _ _ _ _ _ _ _ _ _].
  cbv zeta. unfold enqueued. cbn [ks_tcb upd_ks_ep].
  rewrite (mod_tcb_lookup_ne _ cur caller) by done.
  destruct (Z.eqb_spec (epQueue_head e) 0) as [Hz|Hz].
  - rewrite mod_state_lookup_ne by done. split; [done|].
    erewrite mod_tcb_lookup by by apply mod_state_lookup. by eexists.
  - destruct Hjt as [Hn _]; [by rewrite <-Hemp|].
    rewrite mod_tcb_lookup_ne, mod_state_lookup_ne by done. split; [done|].
    erewrite mod_tcb_lookup by (rewrite mod_tcb_lookup_ne by done; by apply mod_state_lookup).
    by eexists.
Qed.

Lemma fastpath_reply_wait_commit_Ok canSend :
  fastpath_reply_wait_commit w (ReplyPlan epptr canSend caller pd (pde_pde_invalid hw true)) s =
    Ok EXCEPTION_NONE (reply_fast canSend).
Proof using R.
  pose proof caller_reply_differ as Hdiff.
  destruct (reply_enqueued_threads canSend) as (Hk1 & x & Hx1 & Hctx). cbv zeta in *.
  destruct (rr_caller_cap _ _ _ _ _ _ _ _ _ _ R) as (c & v & Hc & _).
  destruct (rr_reply _ _ _ _ _ _ _ _ _ _ R) as (c' & v' & Hc' & _).
  pose proof R as [Hcur Htc Htk _ _ _ _ Hj Htl Hne _ _ _ _ _ _ _ _ _ _ _ _ Hw Hww Hmi].
  destruct (fastpath_mi_check_false w Hww Hmi) as (_ & Hlen & _ & _).
  unfold fastpath_reply_wait_commit, messageInfoFromWord_raw.
  cbn [reply_ep reply_canSend reply_caller reply_pd reply_asid]. cbv zeta.
  rewrite unwrapped_length by done. kstep. rewrite Hcur.
  rewrite (kbind_Ok _ _ _ _ _ (updState_mod cur _ _ _ Htc)).
  rewrite (kbind_Ok _ _ _ _ _ (updState_mod cur _ _ _ (mod_state_lookup _ _ _ _ Htc))).
  unfold mod_state at 1 2. rewrite mod_tcb_mod_tcb.
  change (mod_tcb _ cur s) with (mod_state (waiting_fast canSend) cur s).
  set (s0 := mod_state (waiting_fast canSend) cur s) in *.
  rewrite (join_fast_Ok s0 epptr e cur (set_tcbState (waiting_fast canSend (tcbState tc)) tc)).
  2:{ destruct Hj as [? ? ? ? ? Hjt]. split; try done. intros Hz. destruct (Hjt Hz) as [Hn Hy].
      split; [done|]. unfold s0. by rewrite mod_state_lookup_ne. }
  2:{ by apply mod_state_lookup. }
  set (s1 := enqueued epptr e cur s0) in *.
  assert (ks_cte s1 = ks_cte s) as Ecte.
  { unfold s1, enqueued. by destruct (epQueue_head e =? 0). }
  unfold cap_reply_cap_ptr_new_np.
  rewrite (kbind_Ok _ _ _ _ _ (setCap_set _ _ c' s1 ltac:(by rewrite Ecte))).
  set (s2 := set_cap _ _ s1).
  rewrite (kbind_Ok _ _ _ _ _ (setCap_set (TCB_PTR_CTE_PTR cur tcbCaller) _ c s2
    ltac:(unfold s2; by rewrite set_cap_lookup_ne, Ecte by done))).
  set (s3 := set_cap _ _ s2).
  rewrite (kbind_Ok _ _ _ _ _ (fastpath_copy_mrs_Ok cur caller Hne x tk _ s3 Hlen Hx1 Hk1)).
  rewrite Hctx. set (s4 := upd_ctx _ caller s3).
  pose proof (upd_ctx_lookup (copy_regs (message_info_get_msgLength w) (tcbContext tc)) _ s3 _ Hk1) as Hk4.
  rewrite (kbind_Ok _ _ _ _ _ (updState_mod caller _ _ s4 Hk4)).
  pose proof (mod_state_lookup (thread_state_ptr_set_tsType_np ThreadState_Running) caller s4 _ Hk4)
    as Hk5. set (s5 := mod_state _ caller s4) in *.
  rewrite (kbind_Ok _ _ _ _ _ (switchToThread_fp_Ok s5 caller pd hw _ Hk5)).
  kstep. set (s6 := switched _ _ _ _ s5). change (ksCurThread s6) with caller.
  unfold fastpath_restore, wordFromMessageInfo.
  erewrite kbind_Ok; [reflexivity|].
  rewrite (kbind_Ok _ _ _ _ _ (setRegister_Ok caller _ _ _ s6 Hk5)).
  erewrite setRegister_Ok by by apply upd_ctx_lookup. by rewrite upd_ctx_ctx.
Qed.

Lemma switched_threads d p h b s1 :
  ks_tcb (upd_ksSchedulerAction SchedulerAction_ResumeCurrentThread (switched d p h b s1)) = ks_tcb s1.
Proof using. done. Qed.
Lemma upd_ctx_switched f q d p h b s1 :
  ks_tcb (upd_ctx f q (switched d p h b s1)) = ks_tcb (upd_ctx f q s1).
Proof using. done. Qed.

(** The two end in the same state, up to dead fields. *)
Lemma reply_same_live canSend :
  reply_fast canSend ≃
  upd_ksSchedulerAction SchedulerAction_ResumeCurrentThread
    (switched caller pd hw (tcbIPCBuffer tk) (waited (negb canSend) (replied cur tc caller w s))).
Proof using R.
  pose proof R as [Hcur Htc Htk _ _ _ _ [_ _ Hemp _ _ Hjt] Htl Hne _ _ _ _ _ _ _ _ _ _ _ _ _ _ _].
  apply same_live_intro;
    try (unfold reply_fast, waited, enqueued; by destruct (epQueue_head e =? 0)).
  - unfold reply_fast. set (s1 := set_cap _ _ _). set (s2 := waited _ _).
    set (s3 := mod_state _ caller (upd_ctx _ caller s1)). set (f := λ c, <[_ := w32 0]> _).
    rewrite upd_ctx_switched, switched_threads.
    assert (∀ j, ks_tcb s1 !! j = ks_tcb (enqueued epptr e cur (mod_state (waiting_fast canSend) cur s)) !! j)
      as Hs1 by done.
    apply map_eq. intros i. unfold s2. rewrite !lookup_fmap, waited_threads, !replied_threads.
    rewrite (decide_False (P:=cur = caller)) by done.
    destruct (decide (i = caller)) as [->|Hik].
    + rewrite !decide_False by (done || by intros [? _]).
      destruct (reply_enqueued_threads canSend) as (Hk1 & _). cbv zeta in Hk1. rewrite <-Hs1 in Hk1.
      unfold s3. erewrite upd_ctx_lookup; [|by apply mod_state_lookup, upd_ctx_lookup].
      by f_equal.
    + unfold s3. rewrite upd_ctx_lookup_ne, mod_state_lookup_ne, upd_ctx_lookup_ne by done. rewrite Hs1.
      unfold enqueued. cbn [ks_tcb upd_ks_ep].
      destruct (decide (i = cur)) as [->|Hic].
      * rewrite Htc.
        destruct (Z.eqb_spec (epQueue_head e) 0) as [Hz|Hz].
        -- erewrite mod_tcb_lookup by by apply mod_state_lookup.
           by destruct tc as [? [? ? ? ? ? ? ?]].
        -- destruct Hjt as [Hn _]; [by rewrite <-Hemp|].
           erewrite mod_tcb_lookup by (rewrite mod_tcb_lookup_ne by done; by apply mod_state_lookup).
           by destruct tc as [? [? ? ? ? ? ? ?]].
      * rewrite mod_tcb_lookup_ne by done.
        destruct (Z.eqb_spec (epQueue_head e) 0) as [Hz|Hz].
        -- rewrite decide_False by tauto. by rewrite mod_state_lookup_ne.
        -- destruct (decide _) as [[-> _]|Hd].
           ++ cbn. by rewrite lookup_alter_eq, lookup_alter_ne.
           ++ rewrite mod_tcb_lookup_ne by (intros E; by apply Hd).
              by rewrite mod_state_lookup_ne.
  - unfold reply_fast, enqueued. rewrite <-(rr_action _ _ _ _ _ _ _ _ _ _ R).
    by destruct (epQueue_head e =? 0).
Qed.
End Ready.

(** ** The checks *)
Lemma waits_joinable s epptr e ts cur :
  ep_waits s epptr (ep_state e) ts → ks_ep s !! epptr = Some e →
  ts = [] ∨ ep_state e = EPState_Send ∨ ep_state e = EPState_Recv → ep_state e ≠ EPState_Send →
  high_field 28 cur → cur ≠ 0 → cur ∉ ts → joinable s epptr e cur.
Proof using.
  intros (e' & He' & Hst & Hq & HF) He Hor Hns Hhi Hc0 Hnin. assert (e' = e) as -> by congruence.
  destruct (queue_ends_high _ _ _ Hq HF) as [Hh _]. destruct Hq as (Hnd & Hseg & Hhd & Htl).
  cbn [ep_ptr_get_queue queue_head queue_end] in *.
  assert (ts ≠ [] → List.last ts 0 ∈ ts) as Hlast by (destruct ts; [done|intros _; by apply last_in]).
  split; try done.
  - destruct Hor as [->|Hor]; [left; by rewrite bool_decide_eq_true_2 in Hst|].
    right. by destruct Hor.
  - rewrite Hhd, Htl. destruct ts as [|x ts]; [done|]. cbn [hd]. split; intros Hz; exfalso.
    + cbn [dseg] in Hseg. by destruct Hseg.
    + destruct (dseg_lookup _ _ _ _ _ Hseg (Hlast ltac:(done))) as [? ?].
      by apply (dseg_nonzero _ _ _ _ _ Hseg (Hlast ltac:(done))).
  - by apply high_field_id.
  - split; [by apply high_field_id|done].
  - rewrite Htl. intros Hz. assert (ts ≠ []) as Hne by by intros ->.
    split; [intros E; apply Hnin; rewrite <-E; auto|].
    by apply (dseg_lookup _ _ _ _ _ Hseg (Hlast Hne)).
Qed.

Lemma waits_state s epptr e ts t :
  ep_waits s epptr (ep_state e) ts → ts = [] ∨ ep_state e = EPState_Send ∨ ep_state e = EPState_Recv →
  ep_state e ≠ EPState_Send → t ∈ ts → ep_state e = EPState_Recv.
Proof using. intros _ [->|[?|?]] Hns Hin; [by apply not_elem_of_nil in Hin|done|done]. Qed.

Lemma fastpath_reply_wait_check_ready s cur tc cap p s' :
  syscall_inv s → ksCurThread s = cur → ks_tcb s !! cur = Some tc →
  lookupCap cur (nth 0 (tcbContext tc) 0) s = Ok (EXCEPTION_NONE, cap) s →
  fastpath_reply_wait_check (nth 0 (tcbContext tc) 0) (nth 1 (tcbContext tc) 0) s = Ok (Some p) s' →
  s' = s ∧ ∃ epptr e caller tk pd hw badge canGrant canSend slot c,
    p = ReplyPlan epptr canSend caller pd (pde_pde_invalid hw true) ∧
    cteCap c = cap_endpoint_cap badge canGrant canSend true epptr ∧
    lookupSlot cur (nth 0 (tcbContext tc) 0) s = Ok (EXCEPTION_NONE, slot) s ∧
    ks_cte s !! slot = Some c ∧
    reply_ready s cur tc epptr e caller tk pd hw (nth 1 (tcbContext tc) 0).
Proof using.
  intros I Hcur Htc Hlk Hck. pose proof I as [Ha Hth Hcaps Hcn Hep Hhi _ _ _ Hcal].
  destruct (Hth _ _ Htc) as (Hcur0 & _ & Hslots & Hctx).
  unfold fastpath_reply_wait_check in Hck. rewrite (kbind_Ok (gets ksCurThread) _ _ _ _ eq_refl), Hcur in Hck.
  apply getTCB_inv in Hck as (t & Ht & Hck). assert (t = tc) as -> by congruence.
  destruct (fastpath_mi_check _) eqn:Hmi; cbn [orb] in Hck; [done|].
  destruct (Z.eqb_spec (fault_get_faultType (tcbFault tc)) 0) as [Hf|]; cbn [negb] in Hck; [|done].
  apply getCap_inv in Hck as (croot & Hroot & Hck).
  destruct (lookup_fp_lookupCap s cur croot _ cap s Hcn Hroot (proj1 (Hcaps _ _ Hroot))
    (register_word tc 0 Hctx) Hlk) as (Hfp & _ & slot & c & Hsl & Hc & Ecap).
  rewrite (kbind_Ok _ _ _ _ _ Hfp) in Hck.
  destruct cap as [| |badge canGrant canSend r epptr| | | | | | | | | | |]; try done.
  destruct r; [|done].
  apply kbind_Ok_inv in Hck as (pend & s1 & Hp & Hck).
  pose proof (async_event_pending_pure _ _ _ _ Hp) as ->. destruct pend; [done|].
  cbv zeta in Hck. apply getCap_inv in Hck as (ck & Hck1 & Hck).
  apply getEP_inv in Hck as (e & He & Hck).
  destruct (Z.eqb_spec (ep_state e) EPState_Send) as [|Hst]; [done|].
  rewrite Hcur in Hcal. destruct (Hcal _ Hck1) as [En|(v & caller & tk & Ecap' & Hne & Htk & Hq & Hts & Hrep)].
  { by rewrite En in Hck. }
  rewrite Ecap' in Hck. cbn [is_null] in Hck.
  apply kopt_inv in Hck as (k & Ek & Hck). injection Ek as <-.
  apply getTCBf_inv in Hck as (x & Hx & Hck). assert (x = tk) as -> by congruence.
  destruct (Z.eqb_spec (fault_get_faultType (tcbFault tk)) 0) as [Hfk|]; cbn [negb] in Hck; [|done].
  apply kbind_Ok_inv in Hck as (sp & s2 & Hsp & Hck).
  destruct (address_space_fp_inv _ _ _ _ Hsp) as [-> Hspace].
  destruct sp as [[pd a]|]; [|done]. destruct (Hspace pd a eq_refl) as (hw & -> & Hs).
  apply kbind_Ok_inv in Hck as (sch & s3 & Hsch & Hck).
  destruct (can_schedule_fp_inv _ _ _ _ _ Hsch) as [-> Hprio].
  destruct sch; cbn [negb] in Hck; [|done]. injection Hck as <- <-.
  destruct (Hprio eq_refl) as (t1 & t2 & Ht1 & Ht2 & Hle).
  split; [done|]. exists epptr, e, caller, tk, pd, hw, badge, canGrant, canSend, slot, c.
  destruct (Hep _ _ He) as (ts & Hw & Hor & Hwts).
  assert (∀ t, t ∈ ts → t ≠ cur ∧ t ≠ caller) as Hin.
  { intros t Hin. destruct (Hwts t Hin) as (Hn & x & Hx2 & _ & Hr). rewrite Hcur in Hn. split; [done|].
    intros ->. destruct (Hr (waits_state _ _ _ _ _ Hw Hor Hst Hin)) as [Hr' _].
    assert (x = tk) as -> by congruence. by rewrite Hts in Hr'. }
  destruct (Hth _ _ Htk) as (Hk0 & Hch & Hds & _).
  split_and!; try done. split; try done; try congruence.
  - by destruct (tcbFault tc).
  - by destruct (tcbFault tk).
  - eapply waits_joinable; eauto; [by rewrite <-Hcur|]. intros H. by destruct (Hin _ H).
  - destruct Hw as (e' & He' & _ & (_ & _ & _ & Htl) & _). assert (e' = e) as -> by congruence.
    cbn [ep_ptr_get_queue queue_end] in Htl. rewrite Htl. destruct ts as [|y ts]; [by apply not_eq_sym|].
    apply Hin. by apply last_in.
  - by exists ck, v.
  - by apply register_word.
Qed.
End Reply.
