(* ===== verification/FastpathTheorems.v ===== *)
(** * The fast path is the slow path

    On every system call that finds its capability, the entry of [traps.S]
    gives the result of [handleSyscall], up to fields that are dead between
    system calls.  Where the capability is not found because the address runs
    out of bits inside a CNode, the two differ. *)

From S2P Require Import Prelude.
From S2P Require Import Word32.
From S2P Require Import Structures.
From S2P Require Import State.
From S2P Require Import CapOps.
From S2P Require Import Queue.
From S2P Require Import VSpace.
From S2P Require Import Sched.
From S2P Require Import CSpace.
From S2P Require Import Finalise.
From S2P Require Import Ipc.
From S2P Require Import Labels.
From S2P Require Import Syscall.
From S2P Require Import Fastpath.
From S2P Require Import CapTheorems.
From S2P Require Import CSpaceTheorems.
From S2P Require Import EndpointInv.
From S2P Require Import FastpathInv.
From S2P Require Import FastpathCall.
From S2P Require Import FastpathReply.

(** The same outcome: the same value, and states that agree on what is live. *)
Definition same_result {A} (r r' : res kstate A) : Prop :=
  match r, r' with
  | Ok a s, Ok a' s' => a = a' ∧ s ≃ s'
  | Panic, Panic | NoFuel, NoFuel => True
  | _, _ => False
  end.

#[export] Instance same_result_reflexive {A} : Reflexive (@same_result A).
Proof. by intros [a s| |]. Qed.

(** The capability of the address in [r0] is found. *)
Definition finds_cap (s : kstate) (tc : tcb_t) (cap : cap_t) : Prop :=
  ks_tcb s !! ksCurThread s = Some tc ∧
  lookupCap (ksCurThread s) (nth 0 (tcbContext tc) 0) s = Ok (EXCEPTION_NONE, cap) s.

Lemma finds_cap_fp s tc cap :
  syscall_inv s → finds_cap s tc cap →
  ∃ croot slot c, ks_cte s !! TCB_PTR_CTE_PTR (ksCurThread s) tcbCTable = Some croot ∧
    lookup_fp (cteCap croot) (nth 0 (tcbContext tc) 0) s = Ok cap s ∧
    ks_cte s !! slot = Some c ∧ cteCap c = cap.
Proof.
  intros I [Htc Hlk]. destruct (si_threads _ I _ _ Htc) as (_ & _ & Hs & Hctx).
  destruct (Hs tcbCTable) as [croot Hroot]; [done|].
  destruct (lookup_fp_lookupCap s _ croot _ cap s (si_cnodes _ I) Hroot
    (proj1 (si_caps _ I _ _ Hroot)) (register_word tc 0 Hctx) Hlk) as (Hfp & _ & slot & c & _ & Hc & Ec).
  by exists croot, slot, c.
Qed.

Section Agree.
Context {cfg : KernelConfig}.

(** The checks neither fail nor change the state. *)
Lemma fastpath_call_check_Ok s tc cap msgInfo :
  syscall_inv s → finds_cap s tc cap →
  ∃ o, fastpath_call_check (nth 0 (tcbContext tc) 0) msgInfo s = Ok o s.
Proof using.
  intros I Hf. destruct (finds_cap_fp _ _ _ I Hf) as (croot & slot & c & Hroot & Hfp & Hc & Ec).
  destruct Hf as [Htc _]. pose proof (si_objects _ I _ _ Hc) as Ho. rewrite Ec in Ho.
  unfold fastpath_call_check. kstep. kload. destruct (_ || _); [by eexists|].
  destruct (async_event_pending_Ok _ _ _ I Htc) as [b Hb]. rewrite (kbind_Ok _ _ _ _ _ Hb).
  destruct b; [by eexists|]. kload. rewrite (kbind_Ok _ _ _ _ _ Hfp).
  destruct cap as [| |badge g snd r ep| | | | | | | | | | |]; try by eexists.
  destruct snd; [|by eexists]. destruct Ho as [e He]. kload.
  destruct (Z.eqb_spec (ep_state e) EPState_Recv) as [Hst|]; cbn [negb]; [|by eexists].
  destruct (si_endpoints _ I _ _ He) as (ts & (e' & He' & Hst' & Hq & _) & _ & Hts).
  assert (e' = e) as -> by congruence.
  destruct ts as [|d ts]; [rewrite bool_decide_eq_true_2, Hst in Hst' by done; done|].
  destruct Hq as (_ & _ & Hh & _). cbn [ep_ptr_get_queue queue_head hd] in Hh. rewrite Hh.
  destruct (Hts d ltac:(by left)) as (_ & x & Hx & _).
  destruct (address_space_fp_Ok _ _ _ I Hx) as [o Ho]. rewrite (kbind_Ok _ _ _ _ _ Ho).
  destruct o as [[pd a]|]; [|by eexists].
  destruct (can_schedule_fp_Ok s d (ksCurThread s) _ _ Hx Htc) as [b Hb2].
  rewrite (kbind_Ok _ _ _ _ _ Hb2). kload. destruct (_ || _); by eexists.
Qed.

Lemma fastpath_reply_wait_check_Ok s tc cap msgInfo :
  syscall_inv s → finds_cap s tc cap →
  ∃ o, fastpath_reply_wait_check (nth 0 (tcbContext tc) 0) msgInfo s = Ok o s.
Proof using.
  intros I Hf. destruct (finds_cap_fp _ _ _ I Hf) as (croot & slot & c & Hroot & Hfp & Hc & Ec).
  destruct Hf as [Htc _]. pose proof (si_objects _ I _ _ Hc) as Ho. rewrite Ec in Ho.
  unfold fastpath_reply_wait_check. kstep. kload. destruct (_ || _); [by eexists|].
  kload. rewrite (kbind_Ok _ _ _ _ _ Hfp).
  destruct cap as [| |badge g snd r ep| | | | | | | | | | |]; try by eexists.
  destruct r; [|by eexists]. destruct Ho as [e He].
  destruct (async_event_pending_Ok _ _ _ I Htc) as [b Hb]. rewrite (kbind_Ok _ _ _ _ _ Hb).
  destruct b; [by eexists|].
  destruct (si_threads _ I _ _ Htc) as (_ & _ & Hs & _). destruct (Hs tcbCaller) as [ck Hck]; [done|].
  kload. kload. destruct (_ =? _); [by eexists|].
  destruct (si_caller _ I _ Hck) as [->|(v & caller & x & -> & _ & Hx & _)]; [by eexists|].
  change (is_null (cap_reply_cap v false caller)) with false. cbv iota.
  rewrite (kopt_Some _ caller) by done. kload. destruct (negb _); [by eexists|].
  destruct (address_space_fp_Ok _ _ _ I Hx) as [o Ho]. rewrite (kbind_Ok _ _ _ _ _ Ho).
  destruct o as [[pd a]|]; [|by eexists].
  destruct (can_schedule_fp_Ok s caller (ksCurThread s) _ _ Hx Htc) as [b Hb2].
  rewrite (kbind_Ok _ _ _ _ _ Hb2). destruct (negb _); by eexists.
Qed.

Context (Hdom : CONFIG_NUM_DOMAINS = 1).

Lemma fastpath_call_agrees s tc cap :
  syscall_inv s → finds_cap s tc cap →
  same_result (fastpath_call (nth 0 (tcbContext tc) 0) (nth 1 (tcbContext tc) 0) s)
    (handleSyscall SysCall s).
Proof using Hdom.
  intros I Hf. destruct (fastpath_call_check_Ok s tc cap (nth 1 (tcbContext tc) 0) I Hf) as [o Ho].
  destruct Hf as [Htc Hlk]. unfold fastpath_call. rewrite (kbind_Ok _ _ _ _ _ Ho).
  destruct o as [p|]; [|done].
  destruct (fastpath_call_check_ready s _ tc cap p s I eq_refl Htc Hlk Ho)
    as (_ & epptr & e & dest & td & pd & hw & badge & r & slot & -> & -> & Hsl & R).
  erewrite fastpath_call_commit_Ok, handleSyscall_call by eassumption.
  split; [done|]. by apply call_same_live.
Qed.

Lemma fastpath_reply_wait_agrees s tc cap :
  syscall_inv s → finds_cap s tc cap →
  same_result (fastpath_reply_wait (nth 0 (tcbContext tc) 0) (nth 1 (tcbContext tc) 0) s)
    (handleSyscall SysReplyWait s).
Proof using Hdom.
  intros I Hf.
  destruct (fastpath_reply_wait_check_Ok s tc cap (nth 1 (tcbContext tc) 0) I Hf) as [o Ho].
  destruct Hf as [Htc Hlk]. unfold fastpath_reply_wait. rewrite (kbind_Ok _ _ _ _ _ Ho).
  destruct o as [p|]; [|done].
  destruct (fastpath_reply_wait_check_ready s _ tc cap p s I eq_refl Htc Hlk Ho)
    as (_ & epptr & e & caller & tk & pd & hw & badge & g & canSend & slot & c & -> & Ec & Hsl & Hc & R).
  erewrite fastpath_reply_wait_commit_Ok by eassumption.
  erewrite handleSyscall_reply_wait by eassumption.
  split; [done|]. by apply reply_same_live.
Qed.
End Agree.

(** C9. The entry for system calls gives the result of the slow path: with one
    domain, whenever the current thread's capability is found, a call, a reply
    with a wait, or any other system call returns the same value through the
    entry, fast path included, as [handleSyscall] does, and the two states
    agree on every field that is live between system calls. *)
Theorem arm_swi_syscall_correct {cfg : KernelConfig} syscall s tc cap :
  CONFIG_NUM_DOMAINS = 1 → syscall_inv s → finds_cap s tc cap →
  same_result (arm_swi_syscall syscall s) (handleSyscall syscall s).
Proof.
  intros Hdom I Hf. pose proof Hf as [Htc _]. unfold arm_swi_syscall. kstep.
  rewrite (kbind_Ok _ _ _ _ _ (getRegister_Ok _ 0 _ _ Htc)).
  rewrite (kbind_Ok _ _ _ _ _ (getRegister_Ok _ 1 _ _ Htc)).
  destruct syscall; try reflexivity.
  - by eapply fastpath_call_agrees.
  - by eapply fastpath_reply_wait_agrees.
Qed.

(** ** Two concrete states

    A client (at [0xf0300100]) and a server (at [0xf0300300]) share a CNode of
    two slots, of which the first holds an endpoint, and an address space. *)
Definition client : Z := 0xf0300100.
Definition server : Z := 0xf0300300.
Definition fp_tcb (ctx : list Z) (ts : _thread_state) (prio : Z) : tcb_t :=
  tcb ctx (thread_state 0 false false false false 0xf0500000 ts) 0 fault_null_fault
    lookup_fault_invalid_root 0 prio 5 0 0xa000 0 0 0 0.
Definition fp_cte (c : cap_t) : cte_t := cte c nullMDBNode.
Definition fp_ctes (cnode client_reply server_caller : cap_t) : gmap Z cte_t :=
  <[0xf0300000 := fp_cte cnode]>
  (<[0xf0300010 := fp_cte (cap_page_directory_cap 0xf0600000)]>
  (<[0xf0300020 := fp_cte client_reply]>
  (<[0xf0300030 := fp_cte cap_null_cap]>
  (<[0xf0300040 := fp_cte cap_null_cap]>
  (<[0xf0300200 := fp_cte cnode]>
  (<[0xf0300210 := fp_cte (cap_page_directory_cap 0xf0600000)]>
  (<[0xf0300220 := fp_cte (cap_reply_cap 0 true 0)]>
  (<[0xf0300230 := fp_cte server_caller]>
  (<[0xf0300240 := fp_cte cap_null_cap]>
  (<[0xf0400000 := fp_cte (cap_endpoint_cap 7 true true true 0xf0500000)]>
  (<[0xf0400010 := fp_cte cap_null_cap]> ∅))))))))))).
Definition fp_state (cur : Z) (cnode client_reply server_caller : cap_t) (ep : endpoint_t)
    (tclient tserver : tcb_t) : kstate :=
  upd_ksCurThread cur
    (upd_ks_cte (fp_ctes cnode client_reply server_caller)
      (upd_ks_pde (<[PDE_AT 0xf0600000 PD_ASID_SLOT := pde_pde_invalid 3 true]> ∅)
        (upd_ks_ep (<[0xf0500000 := ep]> ∅)
          (upd_ks_tcb (<[client := tclient]> (<[server := tserver]> ∅)) empty_kstate)))).

(** The client is about to call the server with two words. *)
Definition fp_cnode : cap_t := cap_cnode_cap 1 31 0 0xf0400000.
Definition message : list Z := [0; 0x5002; 11; 12; 0; 0; 0; 0; 0; 0; 0; 0; 0; 0; 0; 0; 0; 0].
Definition fp_call_state : kstate :=
  fp_state client fp_cnode (cap_reply_cap 0 true 0) cap_null_cap
    (endpoint server server EPState_Recv)
    (fp_tcb message ThreadState_Running 100) (fp_tcb message ThreadState_BlockedOnReceive 100).
(** The server is about to reply and to wait for the next call. *)
Definition fp_reply_state : kstate :=
  fp_state server fp_cnode (cap_reply_cap 0xf0300230 true 0)
    (cap_reply_cap 0 false client) (endpoint 0 0 EPState_Idle)
    (fp_tcb message ThreadState_BlockedOnReply 100) (fp_tcb message ThreadState_Running 100).

Ltac peel H :=
  repeat (apply lookup_insert_Some in H as [[<- <-]|[_ H]]); [..|by rewrite lookup_empty in H].

Lemma five_cases i : 0 ≤ i < tcbCNodeEntries → i = 0 ∨ i = 1 ∨ i = 2 ∨ i = 3 ∨ i = 4.
Proof. unfold tcbCNodeEntries. lia. Qed.

Lemma fp_slots cn c r thread :
  thread = client ∨ thread = server → slots_ok (fp_ctes cn c r) thread.
Proof.
  intros Hor i Hi. apply five_cases in Hi.
  by destruct Hor as [-> | ->]; destruct Hi as [->|[->|[->|[->| ->]]]]; eexists; vm_compute.
Qed.

Lemma fp_caps_ok cn c r :
  cap_wf cn → cap_wf c → cap_wf r → frame_size_ok cn → frame_size_ok c → frame_size_ok r →
  caps_ok (fp_ctes cn c r).
Proof.
  intros ? ? ? ? ? ? p x Hx. unfold fp_ctes in Hx. peel Hx; split; cbn [cteCap fp_cte]; try done; by vm_compute.
Qed.

Lemma fp_cnodes_ok c r :
  cap_get_capType c ≠ 10 → cap_get_capType r ≠ 10 → cnodes_ok (fp_ctes fp_cnode c r).
Proof.
  intros Hc Hr p x Hx. assert (cnode_ok (fp_ctes fp_cnode c r) fp_cnode) as Hn.
  { split; [lia|]. intros i Hi. assert (i = 0 ∨ i = 1) as [-> | ->] by lia; eexists; by vm_compute. }
  unfold fp_ctes in Hx. peel Hx; try exact Hn; try exact I; cbn [cteCap fp_cte];
    [by destruct c|by destruct r].
Qed.

Lemma message_words : Forall is_w32 message.
Proof. repeat (apply Forall_cons; split; [unfold is_w32; lia|]). by apply Forall_nil. Qed.

Lemma fp_call_inv : syscall_inv fp_call_state.
Proof.
  split; try done.
  - intros p t Ht. cbn in Ht. peel Ht; (split_and!; [done|done|apply fp_slots; auto|apply message_words]).
  - by apply fp_caps_ok.
  - by apply fp_cnodes_ok.
  - intros p e He. cbn in He. peel He. exists [server]. split_and!.
    + exists (endpoint server server EPState_Recv). split_and!; try done.
      * split_and!; try done; [by apply NoDup_singleton|]. cbn [dseg]. split_and!; try done.
        by eexists.
      * by apply Forall_singleton.
    + by right; right.
    + intros t ->%list_elem_of_singleton. split; [done|]. eexists. split_and!; try done.
      intros _. split; [done|]. eexists. by split; [by vm_compute|].
  - intros p c Hc. cbn in Hc. unfold fp_ctes in Hc.
    peel Hc; try exact I; [by eexists _, _|by eexists _, _|by eexists].
  - intros p t Ht. cbn in Ht. by peel Ht; left.
  - by eexists _, _.
  - intros c Hc. left. by injection Hc as <-.
Qed.

Lemma fp_reply_inv : syscall_inv fp_reply_state.
Proof.
  split; try done.
  - intros p t Ht. cbn in Ht. peel Ht; (split_and!; [done|done|apply fp_slots; auto|apply message_words]).
  - by apply fp_caps_ok.
  - by apply fp_cnodes_ok.
  - intros p e He. cbn in He. peel He. exists []. split_and!.
    + exists (endpoint 0 0 EPState_Idle). split_and!; try done. split_and!; try done. by apply NoDup_nil.
    + by left.
    + by intros t ?%not_elem_of_nil.
  - intros p c Hc. cbn in Hc. unfold fp_ctes in Hc.
    peel Hc; try exact I; [by eexists _, _|by eexists _, _|by eexists].
  - intros p t Ht. cbn in Ht. by peel Ht; left.
  - by eexists _, _.
  - intros c Hc. right. injection Hc as <-. exists 0, client.
    eexists. split_and!; try done. by eexists _, _.
Qed.

Lemma fp_finds s tc : 
  s = fp_call_state ∨ s = fp_reply_state → ks_tcb s !! ksCurThread s = Some tc → tcbContext tc = message →
  finds_cap s tc (cap_endpoint_cap 7 true true true 0xf0500000).
Proof. intros [-> | ->] Htc Hctx; (split; [done|]); rewrite Hctx; by vm_compute. Qed.

(** Whether the checks of the fast path succeed. *)
Definition commits {A} (r : res kstate (option A)) : bool :=
  match r with Ok (Some _) _ => true | _ => false end.

Lemma arm_swi_syscall_correct_witness :
  (commits (fastpath_call_check (cfg := kzm_config) 0 0x5002 fp_call_state) = true ∧
   same_result (arm_swi_syscall (cfg := kzm_config) SysCall fp_call_state)
     (handleSyscall (cfg := kzm_config) SysCall fp_call_state)) ∧
  (commits (fastpath_reply_wait_check (cfg := kzm_config) 0 0x5002 fp_reply_state) = true ∧
   same_result (arm_swi_syscall (cfg := kzm_config) SysReplyWait fp_reply_state)
     (handleSyscall (cfg := kzm_config) SysReplyWait fp_reply_state)).
Proof.
  split; (split; [by vm_compute|]).
  - apply (arm_swi_syscall_correct (cfg := kzm_config) SysCall fp_call_state
      (fp_tcb message ThreadState_Running 100) (cap_endpoint_cap 7 true true true 0xf0500000) eq_refl
      fp_call_inv). by apply fp_finds; [left|..].
  - apply (arm_swi_syscall_correct (cfg := kzm_config) SysReplyWait fp_reply_state
      (fp_tcb message ThreadState_Running 100) (cap_endpoint_cap 7 true true true 0xf0500000) eq_refl
      fp_reply_inv). by apply fp_finds; [right|..].
Defined.

(** ** An address that runs out of bits *)

(** Where the address is too short for the CNode it enters, the two paths
    part: with a guard of less than 32 bits and a radix that overshoots them,
    the slow path reports a lookup fault, but the fast path, which stops as soon
    as 32 bits or more are consumed, takes the capability in the slot that the
    remaining bits, padded with zeros, select. *)
Theorem lookup_fp_accepts_overshoot s thread croot cptr radix gs g ptr :
  ks_cte s !! TCB_PTR_CTE_PTR thread tcbCTable = Some croot →
  cteCap croot = cap_cnode_cap radix gs g ptr → cnode_ok (ks_cte s) (cteCap croot) →
  0 ≤ gs < 32 → 32 < gs + radix →
  (∃ c, ks_cte s !! CTE_AT ptr (Z.shiftr (w32 (Z.shiftl cptr gs)) (32 - radix)) = Some c ∧
     lookup_fp (cteCap croot) cptr s = Ok (cteCap c) s) ∧
  (∃ s', lookupCap thread cptr s = Ok (EXCEPTION_LOOKUP_FAULT, cap_null_cap) s').
Proof.
  intros Hroot Ec Hok Hgs Hover. rewrite Ec in *. destruct Hok as [Hr Hslots]. split.
  - destruct (Hslots (Z.shiftr (w32 (Z.shiftl cptr gs)) (32 - radix))) as [c Hc].
    { rewrite Z.shiftr_div_pow2 by lia. pose proof (w32_range (Z.shiftl cptr gs)) as Hw.
      split; [apply Z.div_pos; [apply Hw|lia]|].
      apply Z.div_lt_upper_bound; [lia|]. rewrite <-Z.pow_add_r by lia.
      replace (32 - radix + radix) with 32 by lia. apply Hw. }
    exists c. split; [done|]. unfold lookup_fp. cbn [lookup_fp_loop]. cbv zeta. kload.
    rewrite (proj2 (Z.ltb_ge (gs + radix) 32)) by lia. by destruct (cteCap c).
  - assert (∃ s1, resolveAddressBits (cap_cnode_cap radix gs g ptr) cptr wordBits s =
      Ok (EXCEPTION_LOOKUP_FAULT, 0, wordBits) s1) as [s1 E].
    { assert (∀ fuel, ∃ s1, resolve_loop (S fuel) radix ptr cptr (32 - gs) s =
        Ok (EXCEPTION_LOOKUP_FAULT, 0, 32 - gs) s1) as Hloop.
      { intros fuel. cbn [resolve_loop]. rewrite kassert_true by (apply negb_true_iff, Z.eqb_neq; lia).
        rewrite (proj2 (Z.ltb_lt (32 - gs) radix)) by lia. by eexists. }
      destruct (Hloop (Z.to_nat 32)) as [s1 E]. exists s1.
      unfold resolveAddressBits, wordBits. rewrite (proj2 (Z.ltb_ge 32 gs)) by lia.
      by rewrite (kbind_Ok _ _ _ _ _ E). }
    exists s1. unfold lookupCap, lookupSlot.
    erewrite kbind_Ok by (rewrite (kbind_Ok _ _ _ _ _ (getCap_Ok _ _ _ Hroot)), Ec;
      rewrite (kbind_Ok _ _ _ _ _ E); reflexivity).
    reflexivity.
Qed.

(** The state of the call, with a CNode of four slots behind a guard of 31 bits. *)
Definition overshoot_cnode : cap_t := cap_cnode_cap 2 31 0 0xf0400000.
Definition overshoot_state : kstate :=
  let s := fp_state client overshoot_cnode (cap_reply_cap 0 true 0) cap_null_cap
    (endpoint server server EPState_Recv)
    (fp_tcb message ThreadState_Running 100) (fp_tcb message ThreadState_BlockedOnReceive 100) in
  upd_ks_cte (<[0xf0400020 := fp_cte cap_null_cap]> (<[0xf0400030 := fp_cte cap_null_cap]> (ks_cte s))) s.

Lemma lookup_fp_accepts_overshoot_witness :
  commits (fastpath_call_check (cfg := kzm_config) 0 0x5002 overshoot_state) = true ∧
  (∃ c, ks_cte overshoot_state !! 0xf0400000 = Some c ∧
     lookup_fp overshoot_cnode 0 overshoot_state = Ok (cteCap c) overshoot_state) ∧
  (∃ s', lookupCap client 0 overshoot_state = Ok (EXCEPTION_LOOKUP_FAULT, cap_null_cap) s').
Proof.
  split; [by vm_compute|].
  apply (lookup_fp_accepts_overshoot overshoot_state client (fp_cte overshoot_cnode) 0 2 31 0 0xf0400000);
    try done. split; [lia|]. intros i Hi.
  assert (i = 0 ∨ i = 1 ∨ i = 2 ∨ i = 3) as [->|[->|[->| ->]]] by lia; eexists; by vm_compute.
Defined.
