(* ===== verification/BootTheorems.v ===== *)
(** * Theorems about the start-up of the kernel

    The allocator of boot memory hands out an aligned block whenever one fits
    and loses at most what its table cannot hold; the free memory is what is
    available without what is reserved; untyped capabilities tile the regions
    they are made from. *)

From S2P Require Import Prelude.
From S2P Require Import Word32.
From S2P Require Import Structures.
From S2P Require Import State.
From S2P Require Import CdtOrder.
From S2P Require Import AATree.
From S2P Require Import Cdt.
From S2P Require Import CdtProofs.
From S2P Require Import CdtInv.
From S2P Require Import VSpace.
From S2P Require Import CSpace.
From S2P Require Import Untyped.
From S2P Require Import Boot.

(** ** Regions *)
Definition within (r : region_t) (a : Z) : Prop := reg_start r ≤ a < reg_end r.
Definition covered (l : list region_t) (a : Z) : Prop := ∃ r, r ∈ l ∧ within r a.
Definition region_ok (r : region_t) : Prop :=
  r = REG_EMPTY ∨ 0 < reg_start r < reg_end r ∧ reg_end r < 2 ^ 32.
(** An aligned block of [2^bits] bytes. *)
Definition block_in (r : region_t) (bits p : Z) : Prop :=
  (2 ^ bits | p) ∧ reg_start r ≤ p ∧ p + 2 ^ bits ≤ reg_end r.
Definition fits (r : region_t) (bits : Z) : Prop := ∃ p, block_in r bits p.

Section Round.
Context (b : Z) (Hb : 0 ≤ b < 32).
#[local] Abbreviation sz := (2 ^ b).

Lemma ROUND_DOWN_eq n : is_w32 n → ROUND_DOWN n b = n - n mod sz.
Proof using Hb.
  intros Hn. unfold ROUND_DOWN. rewrite Z.shiftr_div_pow2, Z.shiftl_mul_pow2 by lia.
  assert (0 < sz) by lia. pose proof (Z.div_mod n sz ltac:(lia)).
  pose proof (Z.mod_pos_bound n sz ltac:(lia)). unfold is_w32 in *.
  rewrite w32_id; [lia|]. pose proof (Z.div_pos n sz ltac:(lia) ltac:(lia)). unfold is_w32. nia.
Qed.

Lemma ROUND_UP_eq n : 0 < n < 2 ^ 32 →
  ∃ u, ROUND_UP n b = w32 u ∧ (sz | u) ∧ n ≤ u < n + sz.
Proof using Hb.
  intros Hn. exists (((n - 1) / sz + 1) * sz). assert (0 < sz) by lia.
  pose proof (Z.div_mod (n - 1) sz ltac:(lia)). pose proof (Z.mod_pos_bound (n - 1) sz ltac:(lia)).
  pose proof (Z.div_pos (n - 1) sz ltac:(lia) ltac:(lia)).
  split_and!; [|by apply Z.divide_factor_r|nia|nia].
  unfold ROUND_UP. rewrite Z.shiftl_mul_pow2, (w32_id (n - 1)), Z.shiftr_div_pow2 by (unfold is_w32; lia).
  f_equal. f_equal. apply w32_id. split; [lia|].
  destruct (decide (b = 0)) as [->|]; [rewrite Z.div_1_r; lia|].
  assert (2 ^ 1 ≤ sz) by (apply Z.pow_le_mono_r; lia). nia.
Qed.

(** Multiples of [sz] on the two sides of a number. *)
Lemma round_up_least n u p : (sz | u) → n ≤ u < n + sz → (sz | p) → n ≤ p → u ≤ p.
Proof using Hb.
  intros [x ->] H1 [y ->] H2. assert (x < y + 1) by (apply (Z.mul_lt_mono_pos_r sz); lia).
  apply Z.mul_le_mono_nonneg_r; lia.
Qed.
Lemma round_down_greatest n p : (sz | p) → p ≤ n → p ≤ n - n mod sz.
Proof using Hb.
  intros [y ->] H. pose proof (Z.div_mod n sz ltac:(lia)).
  assert (y ≤ n / sz) by (apply Z.div_le_lower_bound; lia).
  assert (y * sz ≤ n / sz * sz) by (apply Z.mul_le_mono_nonneg_r; lia). lia.
Qed.

Lemma region_ok_w32 r : region_ok r → is_w32 (reg_start r) ∧ is_w32 (reg_end r).
Proof using. intros [->|?]; unfold is_w32; cbn; lia. Qed.

(** The test in the search. *)
Definition usable (f : region_t) : bool :=
  let n := place_block b f in
  (reg_start n <? reg_end n) && (reg_start f <=? reg_start n) && (reg_end n <=? reg_end f).

Lemma sz_w32 : 0 < sz < 2 ^ 32 ∧ BIT b = sz.
Proof using Hb. split; [|by apply BIT_eq]. split; [lia|]. apply Z.pow_lt_mono_r; lia. Qed.

Lemma div_minus n : (sz | n - n mod sz).
Proof using Hb. apply Z.mod_divide; [lia|]. rewrite Zminus_mod_idemp_r, Z.sub_diag. done. Qed.

Lemma place_fits f : region_ok f → fits f b →
  ∃ p, place_block b f = Region p (p + sz) ∧ block_in f b p ∧ usable f = true ∧
    (p - reg_start f < sz ∨ reg_end f - (p + sz) < sz).
Proof using Hb.
  intros Hok (k & Hk1 & Hk2 & Hk3). pose proof sz_w32 as [Hsz HB].
  destruct Hok as [->|[Hs He]]; [cbn in *; lia|]. destruct f as [s e]; cbn [reg_start reg_end] in *.
  destruct (ROUND_UP_eq s ltac:(lia)) as (u & Hu & Hu1 & Hu2).
  assert (u ≤ k) as Huk by (by eapply round_up_least).
  assert (ROUND_DOWN e b = e - e mod sz) as Hd by (apply ROUND_DOWN_eq; unfold is_w32; lia).
  pose proof (Z.mod_pos_bound e sz ltac:(lia)) as Hm. pose proof (div_minus e) as Hdv.
  assert (k + sz ≤ e - e mod sz) as Hke.
  { apply round_down_greatest; [|lia]. apply Z.divide_add_r; [done|apply Z.divide_refl]. }
  assert (∃ p, place_block b (Region s e) = Region p (p + sz) ∧ (sz | p) ∧ s ≤ p ∧ p + sz ≤ e ∧
    (p - s < sz ∨ e - (p + sz) < sz)) as (p & E & ? & ? & ? & ?).
  { unfold place_block. cbn [reg_start reg_end]. rewrite Hu, Hd, HB. rewrite (w32_id u) by (unfold is_w32; lia).
    rewrite !(w32_id (_ - _)) by (unfold is_w32; lia). rewrite (w32_id (u + sz)) by (unfold is_w32; lia).
    destruct (_ <? _).
    - exists u. split_and!; try done; lia.
    - exists (e - e mod sz - sz). split_and!; [f_equal; lia| |lia|lia|lia].
      apply Z.divide_sub_r; [done|apply Z.divide_refl]. }
  exists p. split_and!; try done. unfold usable. rewrite E. cbn [reg_start reg_end].
  rewrite !andb_true_iff, Z.ltb_lt, !Z.leb_le. lia.
Qed.

Lemma usable_fits f : region_ok f → usable f = true → fits f b.
Proof using Hb.
  intros Hok Ht. pose proof sz_w32 as [Hsz HB]. unfold usable in Ht.
  rewrite !andb_true_iff, Z.ltb_lt, !Z.leb_le in Ht. destruct Ht as [[H1 H2] H3].
  destruct Hok as [->|[Hs He]].
  { assert (ROUND_UP 0 b = 0) as E.
    { unfold ROUND_UP, w32. rewrite Z.shiftr_div_pow2, Z.shiftl_mul_pow2 by lia.
      change ((0 - 1) mod 2 ^ 32) with (2 ^ 32 - 1).
      assert (2 ^ 32 = 2 ^ (32 - b) * sz) as Hp by (rewrite <- Z.pow_add_r by lia; f_equal; lia).
      assert ((2 ^ 32 - 1) / sz = 2 ^ (32 - b) - 1) as ->.
      { symmetry. apply Z.div_unique with (sz - 1); [lia|]. rewrite Hp. lia. }
      replace (2 ^ (32 - b) - 1 + 1) with (2 ^ (32 - b)) by lia. destruct (decide (b = 0)) as [->|]; [done|].
      rewrite (Z.mod_small (2 ^ (32 - b))).
      - rewrite <- Hp. done.
      - split; [lia|]. apply Z.pow_lt_mono_r; lia. }
    assert (ROUND_DOWN 0 b = 0) as E'.
    { rewrite ROUND_DOWN_eq by done. by rewrite Z.mod_0_l by lia. }
    revert H1 H2 H3. unfold place_block. cbn [reg_start reg_end REG_EMPTY]. rewrite E, E', HB. cbn [Z.sub Z.opp Z.add Z.ltb].
    change (w32 0 <? w32 0) with false. cbn [reg_start reg_end]. pose proof (w32_range (- sz)). unfold is_w32 in *. lia. }
  destruct f as [s e]; cbn [reg_start reg_end] in *.
  destruct (ROUND_UP_eq s ltac:(lia)) as (u & Hu & Hu1 & Hu2).
  assert (ROUND_DOWN e b = e - e mod sz) as Hd by (apply ROUND_DOWN_eq; unfold is_w32; lia).
  pose proof (Z.mod_pos_bound e sz ltac:(lia)) as Hm. pose proof (div_minus e) as Hdv.
  pose proof (Z.mod_le e sz ltac:(lia) ltac:(lia)).
  revert H1 H2 H3. unfold place_block. cbn [reg_start reg_end]. rewrite Hu, Hd, HB. destruct (_ <? _); cbn [reg_start reg_end].
  - intros H1 H2 H3. assert (w32 u = u) as Eu.
    { apply w32_id. split; [lia|]. apply Z.nle_gt. intros Hge. assert (w32 u = u - 2 ^ 32); [|lia].
      unfold w32. rewrite <- (Z.mod_add u (-1)) by lia. apply Z.mod_small. lia. }
    rewrite Eu in *. assert (w32 (u + sz) = u + sz) as Eu'.
    { apply w32_id. split; [lia|]. apply Z.nle_gt. intros Hge. assert (w32 (u + sz) = u + sz - 2 ^ 32); [|lia].
      unfold w32. rewrite <- (Z.mod_add _ (-1)) by lia. apply Z.mod_small. lia. }
    rewrite Eu' in *. exists u. by split_and!.
  - intros H1 H2 H3. assert (w32 (e - e mod sz - sz) = e - e mod sz - sz) as Eu.
    { apply w32_id. split; [|lia]. apply Z.nlt_ge. intros Hlt.
      assert (w32 (e - e mod sz - sz) = e - e mod sz - sz + 2 ^ 32); [|lia].
      unfold w32. rewrite <- (Z.mod_add _ 1) by lia. apply Z.mod_small. lia. }
    rewrite Eu in *. exists (e - e mod sz - sz). split_and!; cbn; [|lia|lia].
    apply Z.divide_sub_r; [done|apply Z.divide_refl].
Qed.
End Round.

(** ** The table of free memory *)
Definition inb (r : region_t) (a : Z) : Z := b2z ((reg_start r <=? a) && (a <? reg_end r)).
(** How many regions an address is in. *)
Fixpoint free_count (l : list region_t) (a : Z) : Z :=
  match l with [] => 0 | r :: l => inb r a + free_count l a end.

Lemma inb_empty r a : is_reg_empty r = true → inb r a = 0.
Proof.
  unfold is_reg_empty, inb. rewrite Z.eqb_eq. intros ->.
  destruct (Z.leb_spec (reg_end r) a), (Z.ltb_spec a (reg_end r)); cbn; lia.
Qed.
Lemma inb_range r a : 0 ≤ inb r a ≤ 1.
Proof. unfold inb. by destruct (_ && _); cbn. Qed.
Lemma inb_within r a : inb r a = 1 ↔ within r a.
Proof.
  unfold inb, within. destruct (Z.leb_spec (reg_start r) a), (Z.ltb_spec a (reg_end r)); cbn; lia.
Qed.
Lemma free_count_nonneg l a : 0 ≤ free_count l a.
Proof. induction l as [|r l IH]; cbn; [lia|]. pose proof (inb_range r a). lia. Qed.
Lemma free_count_covered l a : 0 < free_count l a ↔ covered l a.
Proof.
  unfold covered. induction l as [|r l IH]; cbn.
  - split; [lia|]. by intros (? & ?%elem_of_nil & _).
  - pose proof (inb_range r a). pose proof (free_count_nonneg l a). split.
    + intros Hp. destruct (decide (inb r a = 1)) as [?%inb_within|].
      * exists r. split; [left|done].
      * destruct (proj1 IH ltac:(lia)) as (r' & ? & ?). exists r'. by split; [right|].
    + intros (r' & [->|Hin]%elem_of_cons & Hw).
      * apply inb_within in Hw. lia.
      * assert (0 < free_count l a) by (apply IH; by exists r'). lia.
Qed.
Lemma free_count_insert l i f g a :
  l !! i = Some f → free_count (<[i:=g]> l) a = free_count l a - inb f a + inb g a.
Proof.
  revert i. induction l as [|r l IH]; intros [|i] Hi; [done..| |]; cbn [lookup list_lookup] in Hi.
  - injection Hi as ->. cbn. lia.
  - change (<[S i:=g]> (r :: l)) with (r :: <[i:=g]> l). cbn [free_count]. rewrite (IH i Hi). lia.
Qed.

Lemma insert_free_Some r l l' :
  insert_free r l = Some l' →
  (∀ a, free_count l' a = free_count l a + inb r a) ∧ length l' = length l ∧
  (∀ P : region_t → Prop, P r → Forall P l → Forall P l').
Proof.
  revert l'. induction l as [|x l IH]; intros l'; cbn; [done|]. destruct (is_reg_empty x) eqn:Hx.
  - intros [= <-]. split_and!; cbn; [|done|].
    + intros a. rewrite (inb_empty x a Hx). lia.
    + intros P HP HF. inversion_clear HF. by constructor.
  - destruct (insert_free r l) as [l1|]; [|done]. intros [= <-]. destruct (IH l1 eq_refl) as (H1 & H2 & H3).
    split_and!; cbn; [intros a; rewrite H1; lia|by f_equal|].
    intros P HP HF. inversion_clear HF. constructor; [done|]. by apply H3.
Qed.
Lemma insert_free_None r l : insert_free r l = None ↔ Forall (λ x, is_reg_empty x = false) l.
Proof.
  induction l as [|x l IH]; cbn; [split; [by constructor|done]|]. destruct (is_reg_empty x) eqn:Hx.
  - split; [done|]. intros HF. inversion HF. congruence.
  - destruct (insert_free r l); cbn.
    + split; [done|]. intros HF. inversion_clear HF. by apply IH in H0.
    + split; [|done]. intros _. constructor; [done|]. by apply IH.
Qed.

(** Adding a region: it is either empty, in the table now, or the table is full. *)
Lemma insert_region_spec r s :
  reg_start r ≤ reg_end r →
  ∃ ok l' lost, insert_region r s = Ok ok (upd_freemem l' s) ∧ length l' = length (freemem s) ∧
    (∀ a, free_count l' a + inb lost a = free_count (freemem s) a + inb r a) ∧
    (∀ P : region_t → Prop, (is_reg_empty r = false → P r) → Forall P (freemem s) → Forall P l') ∧
    (ok = true ∧ lost = REG_EMPTY ∨
     ok = false ∧ lost = r ∧ l' = freemem s ∧ Forall (λ x, is_reg_empty x = false) l').
Proof.
  intros Hle. unfold insert_region. rewrite (proj2 (Z.leb_le _ _) Hle).
  assert (upd_freemem (freemem s) s = s) as Hid by (by destruct s).
  destruct (is_reg_empty r) eqn:Hr.
  { exists true, (freemem s), REG_EMPTY. rewrite Hid. split_and!; try done; [|by left].
    intros a. rewrite (inb_empty r a Hr). by rewrite inb_empty. }
  unfold kassert. rewrite (kbind_Ok _ _ s s tt), (kbind_Ok _ _ s s (freemem s)) by done.
  destruct (insert_free r (freemem s)) as [l'|] eqn:E.
  - destruct (insert_free_Some _ _ _ E) as (H1 & H2 & H3).
    exists true, l', REG_EMPTY. split_and!; try done; [|intros P HP; apply H3; by apply HP|by left].
    intros a. rewrite H1, (inb_empty REG_EMPTY a) by done. lia.
  - exists false, (freemem s), r. rewrite Hid. split_and!; try done. right. split_and!; try done.
    by apply insert_free_None in E.
Qed.

(** ** The search *)
Section BestFit.
Context (b : Z) (Hb : 0 ≤ b < 32).

(** What the search has chosen among the regions of [l]. *)
Definition chosen (l : list region_t) (c : choice) : Prop :=
  (c = no_choice ∧ ∀ f, f ∈ l → usable b f = false) ∨
  (∃ i f, l !! i = Some f ∧ usable b f = true ∧ ch_index c = Z.of_nat i ∧
     ch_reg c = place_block b f ∧ (ch_small c, ch_large c) = remainders f (ch_reg c) ∧
     ∀ g, g ∈ l → usable b g = true →
       reg_size (ch_small c) ≤ reg_size (remainders g (place_block b g)).1).

Lemma usable_nonempty f : usable b f = true → is_reg_empty (place_block b f) = false.
Proof using.
  unfold usable, is_reg_empty. rewrite !andb_true_iff, Z.ltb_lt, Z.eqb_neq. intros [[? _] _]. lia.
Qed.

Lemma chosen_snoc l f c :
  chosen l c → chosen (l ++ [f]) (consider b (Z.of_nat (length l)) f c).
Proof using.
  intros Hc. unfold consider. fold (usable b f). destruct (usable b f) eqn:Hu.
  2:{ destruct Hc as [[-> Hno]|(i & g & Hi & Hg & Hx & Hr & Hrem & Hmin)].
      - left. split; [done|]. intros x [?|?%list_elem_of_singleton]%elem_of_app; [by apply Hno|by subst].
      - right. exists i, g. split_and!; try done; [by apply lookup_app_l_Some|].
        intros x [?|?%list_elem_of_singleton]%elem_of_app Hx'; [by apply Hmin|congruence]. }
  destruct (remainders f (place_block b f)) as [sm la] eqn:Er.
  destruct (_ || _ || _) eqn:Hbetter.
  - right. exists (length l), f. cbn. rewrite list_lookup_middle by done. split_and!; try done.
    intros x [Hx|?%list_elem_of_singleton]%elem_of_app Hu'; [|subst; by rewrite Er].
    destruct Hc as [[-> Hno]|(i & g & Hi & Hg & _ & Hr & _ & Hmin)]; [by rewrite Hno in Hu'|].
    rewrite Hr, usable_nonempty in Hbetter by done. specialize (Hmin x Hx Hu').
    rewrite !orb_true_iff, andb_true_iff, !Z.ltb_lt, Z.eqb_eq in Hbetter. cbn. lia.
  - rewrite !orb_false_iff in Hbetter. destruct Hbetter as [[He Hlt%Z.ltb_ge] _].
    destruct Hc as [[-> _]|(i & g & Hi & Hg & Hx & Hr & Hrem & Hmin)]; [done|].
    right. exists i, g. split_and!; try done; [by apply lookup_app_l_Some|].
    intros x [?|?%list_elem_of_singleton]%elem_of_app Hx'; [by apply Hmin|subst; by rewrite Er].
Qed.

Lemma best_fit_chosen l1 l2 c :
  chosen l1 c → chosen (l1 ++ l2) (best_fit b (Z.of_nat (length l1)) l2 c).
Proof using.
  revert l1 c. induction l2 as [|f l2 IH]; intros l1 c Hc; cbn; [by rewrite app_nil_r|].
  rewrite (cons_middle f), app_assoc. specialize (IH (l1 ++ [f]) _ (chosen_snoc l1 f c Hc)).
  rewrite length_app in IH. cbn in IH. by replace (Z.of_nat (length l1) + 1) with (Z.of_nat (length l1 + 1)) by lia.
Qed.
End BestFit.

(** ** Allocation *)
Lemma remainders_spec f p sz :
  region_ok f → reg_start f ≤ p → 0 < sz → p + sz ≤ reg_end f →
  let '(sm, la) := remainders f (Region p (p + sz)) in
  reg_start sm ≤ reg_end sm ∧ reg_start la ≤ reg_end la ∧ reg_size sm = reg_end sm - reg_start sm ∧
  reg_size sm ≤ p - reg_start f ∧ reg_size sm ≤ reg_end f - (p + sz) ∧
  (is_reg_empty sm = false → region_ok sm) ∧ (is_reg_empty la = false → region_ok la) ∧
  ∀ a, inb f a = inb (Region p (p + sz)) a + inb sm a + inb la a.
Proof.
  intros Hok H1 Hsz H2. destruct Hok as [->|[Hs He]]; [cbn in *; lia|]. destruct f as [x y]; cbn [reg_start reg_end] in *.
  assert (∀ a, inb (Region x y) a = inb (Region p (p + sz)) a + inb (Region x p) a + inb (Region (p + sz) y) a) as Hin.
  { intros a. unfold inb. cbn [reg_start reg_end].
    destruct (Z.leb_spec x a), (Z.ltb_spec a y), (Z.leb_spec p a), (Z.ltb_spec a (p + sz)), (Z.leb_spec (p + sz) a),
      (Z.ltb_spec a p); cbn; lia. }
  unfold remainders, reg_size, is_reg_empty, region_ok. cbn [reg_start reg_end].
  rewrite !(w32_id (_ - _)) by (unfold is_w32; lia).
  destruct (Z.ltb_spec (p - x) (y - (p + sz))); cbn [reg_start reg_end]; rewrite !(w32_id (_ - _)) by (unfold is_w32; lia);
    split_and!; rewrite ?Z.eqb_neq; try lia; intros a; rewrite Hin; lia.
Qed.

(** What a block taken from the table leaves: the table and what is lost. *)
Record taken (l l' : list region_t) (bits p : Z) (lost : region_t) : Prop := {
  tk_ok : Forall region_ok l';
  tk_length : length l' = length l;
  tk_count a : free_count l a = inb (Region p (p + 2 ^ bits)) a + free_count l' a + inb lost a;
  tk_lost : reg_start lost ≤ reg_end lost < reg_start lost + 2 ^ bits;
  tk_full : is_reg_empty lost = false → Forall (λ r, is_reg_empty r = false) l'
}.

Lemma taken_upd_freemem l1 l2 s : upd_freemem l2 (upd_freemem l1 s) = upd_freemem l2 s.
Proof. by destruct s. Qed.

Lemma alloc_region_taken bits s :
  0 ≤ bits < 32 → Forall region_ok (freemem s) →
  (Forall (λ r, ¬ fits r bits) (freemem s) ∧ alloc_region bits s = Ok 0 s) ∨
  (∃ f p l' lost, f ∈ freemem s ∧ block_in f bits p ∧ p ≠ 0 ∧
     alloc_region bits s = Ok p (upd_freemem l' s) ∧ taken (freemem s) l' bits p lost).
Proof.
  intros Hb Hok. pose proof (proj1 (Forall_forall _ _) Hok) as Hall.
  assert (chosen bits (freemem s) (best_fit bits 0 (freemem s) no_choice)) as Hc.
  { apply (best_fit_chosen bits [] (freemem s) no_choice). left. split; [done|]. by intros f ?%elem_of_nil. }
  unfold alloc_region. rewrite (kbind_Ok _ _ s s (freemem s)) by done. revert Hc.
  generalize (best_fit bits 0 (freemem s) no_choice). intros c.
  intros [[-> Hno]|(i & f & Hi & Hu & Hx & Hr & Hrem & _)].
  { left. split; [|done]. apply Forall_forall. intros f Hf Hfit.
    destruct (place_fits bits Hb f (Hall f Hf) Hfit) as (p & _ & _ & Hu & _). by rewrite (Hno f Hf) in Hu. }
  right. assert (f ∈ freemem s) as Hf by by eapply list_elem_of_lookup_2. pose proof (Hall f Hf) as Hokf.
  destruct (place_fits bits Hb f Hokf (usable_fits bits Hb f Hokf Hu)) as (p & Ep & Hin & _ & Hgap).
  pose proof (usable_nonempty bits f Hu) as Hne. rewrite <- Hr in Hne. rewrite Hne.
  destruct Hin as (Hal & Hlo & Hhi). assert (0 < 2 ^ bits) as Hsz by lia.
  pose proof (remainders_spec f p (2 ^ bits) Hokf Hlo Hsz Hhi) as Hspec.
  rewrite Hr, Ep in Hrem. destruct (remainders f (Region p (p + 2 ^ bits))) as [sm la]. injection Hrem as -> ->.
  destruct Hspec as (Hsm & Hla & Hsz1 & Hg1 & Hg2 & Hoksm & Hokla & Hcount).
  rewrite (kbind_Ok _ _ s (upd_freemem (<[Z.to_nat (ch_index c) := REG_EMPTY]> (freemem s)) s) tt) by done.
  rewrite Hx, Nat2Z.id. set (s1 := upd_freemem _ s).
  destruct (insert_region_spec la s1 Hla) as (ok1 & l1 & lost1 & E1 & Hlen1 & Hc1 & HP1 & Hf1).
  rewrite (kbind_Ok _ _ _ _ _ E1).
  destruct (insert_region_spec sm (upd_freemem l1 s1) Hsm) as (ok2 & l2 & lost2 & E2 & Hlen2 & Hc2 & HP2 & Hf2).
  rewrite (kbind_Ok _ _ _ _ _ E2). cbn [freemem upd_freemem s1] in *. rewrite Hr, Ep.
  assert (lost1 = REG_EMPTY) as ->.
  { destruct Hf1 as [[_ ?]|(_ & _ & -> & Hfull)]; [done|]. rewrite Forall_forall in Hfull.
    assert (REG_EMPTY ∈ <[i:=REG_EMPTY]> (freemem s)) as Hin.
    { apply list_elem_of_lookup. exists i. apply list_lookup_insert_eq. by eapply lookup_lt_Some. }
    by apply Hfull in Hin. }
  exists f, p, l2, lost2. split_and!; [done|by split_and!| |done|].
  { destruct Hokf as [->|?]; [cbn in *; lia|lia]. }
  split.
  - apply HP2; [done|]. apply HP1; [done|]. apply Forall_insert; [done|by left].
  - rewrite Hlen2, Hlen1. apply length_insert.
  - intros a. specialize (Hc1 a). specialize (Hc2 a). specialize (Hcount a).
    rewrite (free_count_insert _ _ f _ _ Hi) in Hc1. rewrite (inb_empty REG_EMPTY) in Hc1 by done. lia.
  - destruct Hf2 as [[_ ->]|(_ & -> & _)]; cbn; lia.
  - destruct Hf2 as [[_ ->]|(_ & -> & -> & Hfull)]; [done|by intros _].
Qed.

(** A table for which no address is free twice. *)
Definition table_ok (l : list region_t) : Prop := Forall region_ok l ∧ ∀ a, free_count l a ≤ 1.

Lemma taken_table l l' bits p lost : table_ok l → taken l l' bits p lost → table_ok l'.
Proof.
  intros [_ Hc] [H1 _ H2 _ _]. split; [done|]. intros a. specialize (Hc a). specialize (H2 a).
  pose proof (inb_range (Region p (p + 2 ^ bits)) a). pose proof (inb_range lost a). lia.
Qed.

(** C5. Functional: the allocator of boot memory answers 0, and changes nothing,
    exactly when no aligned block of the size fits in a free region.  Otherwise
    it answers an aligned block of free memory; afterwards the free memory is
    what it was without the block and without a piece, smaller than the block,
    that is only lost when every place of the table is taken. *)
Theorem alloc_region_correct bits s :
  0 ≤ bits < 32 → table_ok (freemem s) →
  (Forall (λ r, ¬ fits r bits) (freemem s) ∧ alloc_region bits s = Ok 0 s) ∨
  (∃ f p l' lost, f ∈ freemem s ∧ block_in f bits p ∧ p ≠ 0 ∧
     alloc_region bits s = Ok p (upd_freemem l' s) ∧ table_ok l' ∧ taken (freemem s) l' bits p lost).
Proof.
  intros Hb Hok. destruct (alloc_region_taken bits s Hb (proj1 Hok)) as [?|(f & p & l' & lost & ? & ? & ? & ? & Ht)].
  - by left.
  - right. exists f, p, l', lost. pose proof (taken_table _ _ _ _ _ Hok Ht). by split_and!.
Qed.

(** Two regions that leave no place for what a block in the middle cuts off. *)
Definition two_regions : boot_state :=
  upd_freemem [Region 0xf0001000 0xf0009000; Region 0xf0010400 0xf0012c00] start_state.
Lemma alloc_region_correct_witness :
  table_ok (freemem two_regions) ∧
  (Forall (λ r, ¬ fits r 12) (freemem two_regions) ∧ alloc_region 12 two_regions = Ok 0 two_regions ∨
   ∃ f p l' lost, f ∈ freemem two_regions ∧ block_in f 12 p ∧ p ≠ 0 ∧
     alloc_region 12 two_regions = Ok p (upd_freemem l' two_regions) ∧ table_ok l' ∧
     taken (freemem two_regions) l' 12 p lost).
Proof.
  assert (table_ok (freemem two_regions)) as H.
  { split; [repeat (apply List.Forall_cons; [right; cbn; lia|]); apply List.Forall_nil|].
    intros a. unfold two_regions. cbn. unfold inb. cbn [reg_start reg_end].
    destruct (Z.leb_spec 0xf0001000 a), (Z.ltb_spec a 0xf0009000), (Z.leb_spec 0xf0010400 a), (Z.ltb_spec a 0xf0012c00);
      cbn; lia. }
  split; [exact H|]. apply (alloc_region_correct 12 two_regions); [lia|exact H].
Defined.
Example alloc_best_fit :
  alloc_region 12 two_regions =
    Ok 0xf0008000 (upd_freemem [Region 0xf0001000 0xf0008000; Region 0xf0010400 0xf0012c00] two_regions).
Proof. reflexivity. Qed.

(** ** Free memory at start-up *)

(** The parts of a region below and above a reserved one. *)
Definition below (m r : region_t) : region_t :=
  if reg_start r <? reg_start m then REG_EMPTY
  else if reg_start r <? reg_end m then Region (reg_start m) (reg_start r) else m.
Definition above (m r : region_t) : region_t :=
  let res := if reg_start r <? reg_start m
             then (if reg_start m <? reg_end r then Region (reg_end r) (reg_end m) else m)
             else if reg_start r <? reg_end m then Region (reg_end r) (reg_end m) else REG_EMPTY in
  if reg_end res <? reg_start res then Region (reg_end res) (reg_end res) else res.
Definition keep (r : region_t) : list region_t := if reg_start r <? reg_end r then [r] else [].
(** What is left of a region around the reserved ones, from below. *)
Fixpoint pieces (m : region_t) (reserved : list region_t) : list region_t :=
  match reserved with [] => keep m | r :: rest => keep (below m r) ++ pieces (above m r) rest end.

Definition reg_nonempty (r : region_t) : Prop := reg_start r < reg_end r.
Definition add_all (l : list region_t) : B unit :=
  kfor l (λ r, let! ok := insert_region r in kassert ok).

Lemma keep_nonempty r : Forall reg_nonempty (keep r).
Proof. unfold keep. destruct (Z.ltb_spec (reg_start r) (reg_end r)); by repeat constructor. Qed.
Lemma pieces_nonempty m rs : Forall reg_nonempty (pieces m rs).
Proof.
  revert m. induction rs as [|r rs IH]; intros m; cbn; [apply keep_nonempty|].
  apply Forall_app. split; [apply keep_nonempty|apply IH].
Qed.
Lemma above_le m r : reg_start (above m r) ≤ reg_end (above m r).
Proof.
  unfold above. cbv zeta. set (res := if reg_start r <? reg_start m then _ else _). clearbody res.
  destruct (Z.ltb_spec (reg_end res) (reg_start res)); cbn; lia.
Qed.

Lemma excluded_pieces m r s :
  insert_region_excluded m r s = kbind (add_all (keep (below m r))) (λ _, kret (above m r)) s.
Proof.
  assert (insert_region_excluded m r =
    ((if reg_start (below m r) <? reg_end (below m r)
      then let! result := insert_region (below m r) in kassert result else kret tt) ;;; kret (above m r))) as ->.
  { unfold insert_region_excluded, below, above. by destruct (reg_start r <? reg_start m), (reg_start r <? reg_end m). }
  unfold keep, add_all. destruct (_ <? _); [|done]. cbn. unfold kbind.
  by destruct (insert_region (below m r) s) as [[] ?| |].
Qed.

Lemma insert_around_pieces rs : ∀ m, reg_start m ≤ reg_end m → insert_around m rs ≡ₖ add_all (pieces m rs).
Proof.
  induction rs as [|r rs IH]; intros m Hm s; cbn [insert_around pieces].
  - unfold keep, is_reg_empty. destruct (Z.eqb_spec (reg_start m) (reg_end m)), (Z.ltb_spec (reg_start m) (reg_end m));
      try lia; [done|]. cbn. unfold kbind. by destruct (insert_region m s) as [[] ?| |].
  - unfold add_all. rewrite kfor_app. fold (add_all (keep (below m r))) (add_all (pieces (above m r) rs)).
    pose proof (excluded_pieces m r s) as E.
    unfold kbind at 1. rewrite E. unfold kbind. destruct (add_all (keep (below m r)) s) as [[] s1| |]; try done.
    cbn. apply IH, above_le.
Qed.

(** Reserved regions in order, from [lo] on. *)
Fixpoint ordered (lo : Z) (rs : list region_t) : Prop :=
  match rs with
  | [] => True
  | r :: rest => lo ≤ reg_start r ∧ reg_start r < reg_end r ∧ ordered (reg_end r) rest
  end.
Lemma ordered_from lo rs : ordered lo rs → Forall (λ r, lo ≤ reg_start r) rs.
Proof.
  revert lo. induction rs as [|r rs IH]; intros lo; cbn; [constructor|]. intros (H1 & H2 & H3).
  constructor; [done|]. eapply Forall_impl; [by apply IH|]. cbn. lia.
Qed.

Lemma covered_app l1 l2 a : covered (l1 ++ l2) a ↔ covered l1 a ∨ covered l2 a.
Proof. unfold covered. setoid_rewrite elem_of_app. naive_solver. Qed.
Lemma covered_keep r a : covered (keep r) a ↔ within r a.
Proof.
  unfold covered, keep. destruct (Z.ltb_spec (reg_start r) (reg_end r)).
  - setoid_rewrite list_elem_of_singleton. naive_solver.
  - split; [by intros (? & ?%elem_of_nil & _)|]. unfold within. lia.
Qed.

Lemma below_above m r a : 0 ≤ a → reg_start r < reg_end r →
  (within (below m r) a → within m a ∧ a < reg_start r) ∧ (within (above m r) a → within m a ∧ reg_end r ≤ a) ∧
  (within m a → ¬ within r a → within (below m r) a ∨ within (above m r) a).
Proof.
  intros Ha Hr. unfold below, above, within, REG_EMPTY.
  destruct (Z.ltb_spec (reg_start r) (reg_start m)), (Z.ltb_spec (reg_start m) (reg_end r)),
    (Z.ltb_spec (reg_start r) (reg_end m)); cbn [reg_start reg_end];
    try destruct (Z.ltb_spec (reg_end m) (reg_end r)); try destruct (Z.ltb_spec (reg_end m) (reg_start m));
    cbn [reg_start reg_end Z.ltb Z.compare]; lia.
Qed.

Lemma pieces_covered rs : ∀ m lo a, 0 ≤ a → ordered lo rs →
  covered (pieces m rs) a ↔ within m a ∧ Forall (λ r, ¬ within r a) rs.
Proof.
  induction rs as [|r rs IH]; intros m lo a Ha Hord; cbn [pieces].
  { rewrite covered_keep. split; [by split; [|constructor]|by intros [? _]]. }
  cbn in Hord. destruct Hord as (H1 & H2 & H3). rewrite covered_app, covered_keep, (IH _ _ _ Ha H3), Forall_cons.
  destruct (below_above m r a Ha H2) as (Hb & Hab & Hall). pose proof (ordered_from _ _ H3) as Hfrom.
  split.
  - intros [Hw|[Hw HF]].
    + destruct (Hb Hw) as [? Hlt]. split_and!; [done|unfold within; lia|].
      eapply Forall_impl; [exact Hfrom|]. unfold within. cbn. lia.
    + destruct (Hab Hw) as [? Hge]. split_and!; [done|unfold within; lia|done].
  - intros (Hw & Hn & HF). destruct (Hall Hw Hn) as [?|?]; [by left|by right].
Qed.

(** The table with [l] in its first places. *)
Definition table_of (n : nat) (l : list region_t) : list region_t := l ++ repeat REG_EMPTY (n - length l).

Lemma insert_free_table n l r : Forall reg_nonempty l →
  insert_free r (table_of n l) = if (length l <? n)%nat then Some (table_of n (l ++ [r])) else None.
Proof.
  intros Hl. unfold table_of. rewrite length_app. cbn [length].
  destruct (Nat.ltb_spec (length l) n) as [Hlt|Hge].
  - replace (n - length l)%nat with (S (n - (length l + 1))) by lia. generalize (n - (length l + 1))%nat. intros k.
    rewrite <- app_assoc. clear Hlt. induction Hl as [|x l Hx Hl IH]; [done|]. cbn [app insert_free]. unfold is_reg_empty.
    unfold reg_nonempty in Hx. rewrite (proj2 (Z.eqb_neq _ _)) by lia. by rewrite IH.
  - apply insert_free_None. apply Forall_app. split.
    + eapply Forall_impl; [exact Hl|]. unfold reg_nonempty, is_reg_empty. cbn. intros x Hx. apply Z.eqb_neq. lia.
    + replace (n - length l)%nat with 0%nat by lia. constructor.
Qed.

Lemma add_all_table n ps : ∀ l s, Forall reg_nonempty l → Forall reg_nonempty ps → freemem s = table_of n l →
  (length l ≤ n)%nat →
  add_all ps s = if (length l + length ps <=? n)%nat then Ok tt (upd_freemem (table_of n (l ++ ps)) s) else Panic.
Proof.
  induction ps as [|r ps IH]; intros l s Hl Hps Hs Hn; cbn [length].
  { rewrite (proj2 (Nat.leb_le _ _)) by lia. rewrite app_nil_r, <- Hs. by destruct s. }
  inversion_clear Hps as [|? ? Hr Hps']. unfold reg_nonempty in Hr.
  unfold add_all. cbn [kfor]. fold (add_all ps).
  assert (insert_region r s = if (length l <? n)%nat
    then Ok true (upd_freemem (table_of n (l ++ [r])) s) else Ok false s) as E.
  { unfold insert_region, is_reg_empty. rewrite (proj2 (Z.leb_le _ _)), (proj2 (Z.eqb_neq _ _)) by lia.
    unfold kassert. rewrite (kbind_Ok _ _ s s tt), (kbind_Ok _ _ s s (freemem s)) by done.
    rewrite Hs, (insert_free_table n l r Hl). by destruct (_ <? _)%nat. }
  unfold kbind at 1 2. rewrite E. destruct (Nat.ltb_spec (length l) n) as [Hlt|Hge]; cbn.
  - rewrite IH with (l := l ++ [r]); [|by apply Forall_app; split; [|by constructor]|done|done|rewrite length_app; cbn; lia].
    rewrite length_app, <- app_assoc. cbn [length app].
    replace (length l + 1 + length ps)%nat with (length l + S (length ps))%nat by lia. by destruct s.
  - rewrite (proj2 (Nat.leb_gt _ _)) by lia. done.
Qed.

Section Freemem.
Context {bc : BootConfig}.

Definition phys_ok (r : Z * Z) : Prop := 0 ≤ r.1 < r.2 ∧ r.2 < 2 ^ 32.
(** The free regions: each available one, inside the window, around the
    reserved ones. *)
Definition free_parts (ui : region_t) : list region_t :=
  concat (map (λ r, pieces (clip_region (paddr_to_pptr_reg r)) (reserved_regs ui)) avail_p_regs).

Lemma window_numbers : BASE_OFFSET = 0x70000000 ∧ PADDR_TOP = 0x8ff00000 ∧ PPTR_TOP = 0xfff00000.
Proof. done. Qed.

Lemma clip_eq r : phys_ok r → clip_region (paddr_to_pptr_reg r) =
  Region (Z.min r.1 PADDR_TOP + BASE_OFFSET) (Z.min r.2 PADDR_TOP + BASE_OFFSET).
Proof.
  assert (∀ x, 0 ≤ x < 2 ^ 32 → (if PADDR_TOP <? addrFromPPtr (ptrFromPAddr x) then PPTR_TOP else ptrFromPAddr x) =
    Z.min x PADDR_TOP + BASE_OFFSET) as H.
  { intros x Hx. destruct window_numbers as (E1 & E2 & E3). unfold addrFromPPtr, ptrFromPAddr.
    rewrite E1, E2, E3. assert (w32 (w32 (x + 0x70000000) - 0x70000000) = x) as ->.
    { unfold w32. rewrite Zminus_mod_idemp_l. rewrite Z.mod_small; lia. }
    destruct (Z.ltb_spec 0x8ff00000 x); [lia|]. rewrite w32_id by (unfold is_w32; lia). lia. }
  intros [Hr1 Hr2]. unfold clip_region, paddr_to_pptr_reg. cbn [reg_start reg_end]. by rewrite !H by lia.
Qed.

Lemma clip_within r a : phys_ok r →
  within (clip_region (paddr_to_pptr_reg r)) a ↔ r.1 ≤ a - BASE_OFFSET < r.2 ∧ a < PPTR_TOP.
Proof.
  intros Hr. rewrite clip_eq by done. unfold within. cbn [reg_start reg_end].
  destruct window_numbers as (E1 & E2 & E3). rewrite E1, E2, E3. lia.
Qed.

Lemma free_parts_nonempty ui : Forall reg_nonempty (free_parts ui).
Proof.
  unfold free_parts. induction avail_p_regs as [|r rs IH]; cbn [concat map]; [constructor|].
  apply Forall_app. split; [apply pieces_nonempty|done].
Qed.

Lemma add_parts ui s rs : Forall phys_ok rs →
  kfor rs (λ r, insert_around (clip_region (paddr_to_pptr_reg r)) (reserved_regs ui)) s =
  add_all (concat (map (λ r, pieces (clip_region (paddr_to_pptr_reg r)) (reserved_regs ui)) rs)) s.
Proof.
  intros Hrs. revert s. induction Hrs as [|r rs Hr Hrs IH]; intros s; [done|]. cbn [kfor concat map].
  unfold add_all. rewrite kfor_app. fold (add_all (pieces (clip_region (paddr_to_pptr_reg r)) (reserved_regs ui))).
  unfold kbind. rewrite insert_around_pieces.
  2:{ rewrite clip_eq by done. cbn [reg_start reg_end]. unfold phys_ok in Hr. lia. }
  destruct (add_all _ s); [apply IH|done..].
Qed.

(** C6. Equivalence: the kernel's free memory at start-up is the list of what
    is left of each available region, cut to the kernel's window, around the
    kernel, the user image and the section of hardware ASIDs; an address is in
    it exactly when it is available, in the window and not reserved.  When there
    are more such parts than the table has places the kernel stops. *)
Theorem init_freemem_correct ui s :
  Forall phys_ok avail_p_regs → ordered kernelBase (reserved_regs ui) →
  init_freemem ui s =
    (if (length (free_parts ui) <=? Z.to_nat MAX_NUM_FREEMEM_REG)%nat
     then Ok tt (upd_freemem (table_of (Z.to_nat MAX_NUM_FREEMEM_REG) (free_parts ui)) s) else Panic) ∧
  ∀ a, 0 ≤ a → covered (free_parts ui) a ↔
    (∃ r, r ∈ avail_p_regs ∧ r.1 ≤ a - BASE_OFFSET < r.2) ∧ a < PPTR_TOP ∧
    Forall (λ r, ¬ within r a) (reserved_regs ui).
Proof.
  intros Hphys Hord. split.
  - unfold init_freemem. rewrite (kbind_Ok _ _ s (upd_freemem (repeat REG_EMPTY (Z.to_nat MAX_NUM_FREEMEM_REG)) s) tt) by done.
    rewrite (kbind_Ok _ _ _ (upd_freemem (repeat REG_EMPTY (Z.to_nat MAX_NUM_FREEMEM_REG)) s) tt).
    2:{ unfold reserved_regs in *. cbn [ordered] in Hord. unfold kassert. cbn [reg_start reg_end] in *.
        rewrite (proj2 (andb_true_iff _ _)); [done|]. rewrite !andb_true_iff, !Z.ltb_lt, !Z.leb_le. tauto. }
    rewrite add_parts by done. fold (free_parts ui).
    rewrite (add_all_table (Z.to_nat MAX_NUM_FREEMEM_REG) _ []); [|constructor|apply free_parts_nonempty|done|cbn; lia].
    cbn [length app Nat.add]. by destruct s.
  - intros a Ha. unfold free_parts. unfold covered.
    assert (∀ l, covered (concat (map (λ r, pieces (clip_region (paddr_to_pptr_reg r)) (reserved_regs ui)) l)) a ↔
      ∃ r, r ∈ l ∧ covered (pieces (clip_region (paddr_to_pptr_reg r)) (reserved_regs ui)) a) as Hc.
    { induction l as [|r l IH]; cbn [concat map].
      - split; [by intros (? & ?%elem_of_nil & _)|by intros (? & ?%elem_of_nil & _)].
      - rewrite covered_app, IH. setoid_rewrite elem_of_cons. naive_solver. }
    fold (covered (concat (map (λ r, pieces (clip_region (paddr_to_pptr_reg r)) (reserved_regs ui)) avail_p_regs)) a).
    rewrite Hc. rewrite Forall_forall in Hphys. split.
    + intros (r & Hin & Hcov). apply (pieces_covered _ _ _ _ Ha Hord) in Hcov as [Hw HF].
      apply clip_within in Hw as [Hw Hlt]; [|by apply Hphys]. split_and!; [by exists r|done|done].
    + intros ((r & Hin & Hw) & Hlt & HF). exists r. split; [done|]. apply (pieces_covered _ _ _ _ Ha Hord).
      split; [|done]. apply clip_within; [by apply Hphys|done].
Qed.
End Freemem.

Lemma init_freemem_correct_witness :
  let ui := Region 0xf0100000 0xf0140000 in
  @init_freemem kzm_boot ui start_state =
    Ok tt (upd_freemem [Region 0xf0030000 0xf0100000; Region 0xf0140000 0xf8000000] start_state) ∧
  ∀ a, 0 ≤ a → covered (@free_parts kzm_boot ui) a ↔
    (∃ r, r ∈ kzm_avail_p_regs ∧ r.1 ≤ a - BASE_OFFSET < r.2) ∧ a < PPTR_TOP ∧
    Forall (λ r, ¬ within r a) (@reserved_regs kzm_boot ui).
Proof.
  apply (@init_freemem_correct kzm_boot (Region 0xf0100000 0xf0140000) start_state).
  - apply List.Forall_cons; [unfold phys_ok; cbn; lia|apply List.Forall_nil].
  - unfold kernelBase; cbn. repeat split; done.
Defined.

(** ** Untyped memory at start-up

    The blocks that [create_untypeds_for_region] makes of a region tile it: they
    follow each other from its start to its end, each a power of two in size and
    aligned to it, at most 64 of them; and the capabilities to them are put in
    the next free slots of the root CNode, as roots of the derivation tree. *)
(** ** The exponent of two in a number *)
Lemma two_factor p : ∃ v m, 0 ≤ v ∧ Z.pos p = 2 ^ v * (2 * m + 1).
Proof.
  induction p as [p IH|p IH|].
  - exists 0, (Z.pos p). lia.
  - destruct IH as (v & m & Hv & E). exists (v + 1), m. rewrite Z.pow_add_r by lia. split; [lia|].
    rewrite Pos2Z.inj_xO, E. lia.
  - exists 0, 0. lia.
Qed.

Lemma land_opp_odd m : Z.land (2 * m + 1) (- (2 * m + 1)) = 1.
Proof.
  replace (- (2 * m + 1)) with (2 * Z.lnot m + 1) by (unfold Z.lnot; lia).
  apply Z.bits_inj'. intros i Hi. rewrite Z.land_spec. destruct (decide (i = 0)) as [->|].
  - by rewrite !Z.testbit_odd_0.
  - replace i with (Z.succ (i - 1)) by lia. rewrite !Z.testbit_odd_succ, Z.lnot_spec by lia.
    rewrite andb_negb_r. symmetry. change 1 with (2 * 0 + 1). rewrite Z.testbit_odd_succ by lia. apply Z.bits_0.
Qed.

Lemma CTZ_spec x : 0 < x → ∃ m, 0 ≤ CTZ x ∧ x = 2 ^ CTZ x * (2 * m + 1).
Proof.
  intros Hx. destruct x as [|p|p]; try lia. destruct (two_factor p) as (v & m & Hv & E).
  assert (CTZ (Z.pos p) = v) as ->; [|by exists m].
  unfold CTZ. rewrite E. assert (Z.land (2 ^ v * (2 * m + 1)) (- (2 ^ v * (2 * m + 1))) = 2 ^ v) as ->.
  { rewrite (Z.mul_comm (2 ^ v)), <- Z.mul_opp_l. rewrite <- !Z.shiftl_mul_pow2, <- Z.shiftl_land by lia.
    rewrite land_opp_odd. by rewrite Z.shiftl_1_l. }
  by apply Z.log2_pow2.
Qed.

Lemma CTZ_divide x : 0 < x → (2 ^ CTZ x | x).
Proof. intros (m & Hc & E)%CTZ_spec. exists (2 * m + 1). lia. Qed.
Lemma CTZ_greatest x k : 0 < x → 0 ≤ k → (2 ^ k | x) → k ≤ CTZ x.
Proof.
  intros Hx Hk [q Hq]. destruct (CTZ_spec x Hx) as (m & Hc & E). apply Z.nlt_ge. intros Hlt.
  replace k with (CTZ x + 1 + (k - CTZ x - 1)) in Hq by lia. rewrite !Z.pow_add_r in Hq by lia.
  set (u := 2 ^ CTZ x) in *. set (w := 2 ^ (k - CTZ x - 1)) in *. assert (0 < u) by (unfold u; lia).
  change (2 ^ 1) with 2 in Hq. assert (u * (2 * m + 1) = u * (2 * (q * w))) as Hm by (rewrite <- E, Hq; ring).
  apply Z.mul_cancel_l in Hm; lia.
Qed.
Lemma CTZ_lt x n : 0 < x < 2 ^ n → 0 ≤ n → CTZ x < n.
Proof.
  intros Hx Hn. apply Z.nle_gt. intros Hle. assert (2 ^ n ≤ 2 ^ CTZ x) by (apply Z.pow_le_mono_r; lia).
  pose proof (Z.divide_pos_le (2 ^ CTZ x) x ltac:(lia) (CTZ_divide x ltac:(lia))). lia.
Qed.

(** ** Blocks *)

(** Aligned blocks, given by their addresses and sizes, that fill [lo, hi). *)
Fixpoint tiles (lo hi : Z) (l : list (Z * Z)) : Prop :=
  match l with
  | [] => lo = hi
  | (p, b) :: l => p = lo ∧ 4 ≤ b < 32 ∧ (2 ^ b | p) ∧ tiles (lo + 2 ^ b) hi l
  end.

Lemma tiles_le lo hi l : tiles lo hi l → lo ≤ hi.
Proof.
  revert lo. induction l as [|[p b] l IH]; cbn; [lia|]. intros lo (-> & Hb & _ & H%IH).
  assert (0 < 2 ^ b) by lia. lia.
Qed.

(** A region whose ends are multiples of 16. *)
Definition ends_ok (lo hi : Z) : Prop := 0 < lo ≤ hi ∧ hi < 2 ^ 32 ∧ (16 | lo) ∧ (16 | hi).
Definition next_bits (lo hi : Z) : Z := Z.min (Z.log2 (hi - lo)) (CTZ lo).

Lemma untyped_bits_eq lo hi : ends_ok lo hi → lo ≠ hi → untyped_bits (Region lo hi) = Some (next_bits lo hi).
Proof.
  intros (H1 & H2 & _) Hne. unfold untyped_bits, reg_size, boot_clz, boot_ctz. cbn [reg_start reg_end].
  rewrite w32_id by (unfold is_w32; lia). rewrite !(proj2 (Z.eqb_neq _ 0)) by lia. cbn. unfold next_bits, CLZ, wordBits.
  by replace (32 - 1 - (31 - Z.log2 (hi - lo))) with (Z.log2 (hi - lo)) by lia.
Qed.

Lemma next_bits_spec lo hi : ends_ok lo hi → lo ≠ hi → let b := next_bits lo hi in
  4 ≤ b < 32 ∧ (2 ^ b | lo) ∧ lo + 2 ^ b ≤ hi ∧ ends_ok (lo + 2 ^ b) hi.
Proof.
  intros (H1 & H2 & [x Hx] & [y Hy]) Hne b. destruct (Z.log2_spec (hi - lo) ltac:(lia)) as [Hl1 Hl2].
  assert (4 ≤ Z.log2 (hi - lo)) by (apply (Z.log2_le_pow2 (hi - lo) 4); lia).
  assert (Z.log2 (hi - lo) < 32) by (apply Z.log2_lt_pow2; lia).
  assert (4 ≤ CTZ lo) by (apply CTZ_greatest; [lia|lia|exists x; lia]).
  assert (4 ≤ b < 32) as Hb by (unfold b, next_bits; lia).
  assert (2 ^ b ≤ 2 ^ Z.log2 (hi - lo)) by (apply Z.pow_le_mono_r; unfold b, next_bits; lia).
  assert (2 ^ b = 2 ^ (b - 4) * 16) as Hp by (change 16 with (2 ^ 4); rewrite <- Z.pow_add_r by lia; f_equal; lia).
  split_and!; [lia..| |lia|].
  - destruct (CTZ_divide lo ltac:(lia)) as [q Hq]. exists (q * 2 ^ (CTZ lo - b)).
    rewrite <- Z.mul_assoc, <- Z.pow_add_r by (unfold b, next_bits in *; lia).
    replace (CTZ lo - b + b) with (CTZ lo) by lia. done.
  - unfold ends_ok. split_and!; [lia..| |by exists y]. exists (x + 2 ^ (b - 4)). lia.
Qed.

(** How many blocks are left: on the way up the alignment grows, on the way
    down the size shrinks. *)
Definition blocks_left (lo hi : Z) : Z :=
  if lo =? hi then 0
  else if Z.log2 (hi - lo) <=? CTZ lo then Z.log2 (hi - lo) + 1 else 64 - CTZ lo.

Lemma blocks_left_range lo hi : ends_ok lo hi → 0 ≤ blocks_left lo hi ≤ 60.
Proof.
  intros (H1 & H2 & [x Hx] & _). unfold blocks_left. destruct (Z.eqb_spec lo hi); [lia|].
  assert (4 ≤ CTZ lo) by (apply CTZ_greatest; [lia|lia|exists x; lia]).
  assert (CTZ lo < 32) by (apply CTZ_lt; lia).
  assert (Z.log2 (hi - lo) < 32) by (apply Z.log2_lt_pow2; lia). pose proof (Z.log2_nonneg (hi - lo)).
  destruct (_ <=? _); lia.
Qed.

Lemma blocks_left_decreases lo hi : ends_ok lo hi → lo ≠ hi →
  blocks_left (lo + 2 ^ next_bits lo hi) hi < blocks_left lo hi.
Proof.
  intros Hok Hne. pose proof (next_bits_spec lo hi Hok Hne) as (Hb & Hdiv & Hle & Hok'). cbv zeta in *.
  pose proof (blocks_left_range _ _ Hok') as Hr'. destruct Hok as (H1 & H2 & _ & _).
  destruct (Z.log2_spec (hi - lo) ltac:(lia)) as [Hl1 Hl2]. rewrite Z.pow_succ_r in Hl2 by apply Z.log2_nonneg.
  assert (CTZ lo < 32) by (apply CTZ_lt; lia). set (b := next_bits lo hi) in *.
  unfold blocks_left at 2. rewrite (proj2 (Z.eqb_neq lo hi)) by done. destruct (Z.leb_spec (Z.log2 (hi - lo)) (CTZ lo)) as [Hd|Hu].
  - assert (b = Z.log2 (hi - lo)) as Eb by (unfold b, next_bits; lia). unfold blocks_left.
    destruct (Z.eqb_spec (lo + 2 ^ b) hi); [lia|].
    assert (b ≤ CTZ (lo + 2 ^ b)) by (apply CTZ_greatest; [lia|lia|by apply Z.divide_add_r]).
    assert (Z.log2 (hi - (lo + 2 ^ b)) < b) by (apply Z.log2_lt_pow2; rewrite ?Eb in *; lia).
    rewrite (proj2 (Z.leb_le _ _)) by lia. lia.
  - assert (b = CTZ lo) as Eb by (unfold b, next_bits; lia). unfold blocks_left.
    destruct (Z.eqb_spec (lo + 2 ^ b) hi); [lia|].
    assert (b + 1 ≤ CTZ (lo + 2 ^ b)).
    { apply CTZ_greatest; [lia|lia|]. destruct (CTZ_spec lo ltac:(lia)) as (m & _ & E). rewrite <- Eb in E.
      exists (m + 1). rewrite Z.pow_add_r by lia. rewrite E at 1. lia. }
    assert (Z.log2 (hi - (lo + 2 ^ b)) < 32) by (apply Z.log2_lt_pow2; lia).
    assert (Z.log2 (hi - lo) < 32) by (apply Z.log2_lt_pow2; lia).
    destruct (_ <=? _); lia.
Qed.

(** ** Slots of the root CNode *)
Definition cap_at (s : boot_state) (p : Z) : option cap_t := cteCap <$> ks_cte (bs_k s) !! p.

(** The tree is well formed and the free slots of the root CNode are there, and
    not in it. *)
Record boot_ok (root : Z) (s : boot_state) : Prop := {
  bo_root : 0xE0000000 < root ∧ root mod 16 = 0 ∧ root + 16 * slot_pos_max s ≤ 2 ^ 32;
  bo_cur : 0 ≤ slot_pos_cur s ≤ slot_pos_max s;
  bo_tree : ∃ t, cdt_tree (bs_k s) t ∧ (∀ i, slot_pos_cur s ≤ i < slot_pos_max s →
    SLOT_PTR root i ∉ elems t ∧ is_Some (ks_cte (bs_k s) !! SLOT_PTR root i))
}.

(** From [s] to [s'] the capabilities [cs] were put in the next slots. *)
Record provided (root : Z) (cs : list cap_t) (s s' : boot_state) : Prop := {
  pr_from : boot_ok root s;
  pr_ok : boot_ok root s';
  pr_cur : slot_pos_cur s' = slot_pos_cur s + Z.of_nat (length cs);
  pr_max : slot_pos_max s' = slot_pos_max s;
  pr_new j c : cs !! j = Some c → cap_at s' (SLOT_PTR root (slot_pos_cur s + Z.of_nat j)) = Some c;
  pr_old p : (∀ i, slot_pos_cur s ≤ i < slot_pos_cur s' → p ≠ SLOT_PTR root i) → cap_at s' p = cap_at s p
}.

Lemma SLOT_PTR_eq root s i : boot_ok root s → 0 ≤ i < slot_pos_max s → SLOT_PTR root i = root + 16 * i.
Proof.
  intros [(H1 & _ & H3) _ _] Hi. unfold SLOT_PTR, CTE_AT. change (2 ^ CTE_SIZE_BITS) with 16.
  apply w32_id. unfold is_w32. lia.
Qed.

Lemma provided_refl root s : boot_ok root s → provided root [] s s.
Proof. intros H. split; cbn; try done. lia. Qed.

Lemma provided_trans root cs1 cs2 s1 s2 s3 :
  provided root cs1 s1 s2 → provided root cs2 s2 s3 → provided root (cs1 ++ cs2) s1 s3.
Proof.
  intros [Hok0 Hok1 Hc1 Hm1 Hn1 Ho1] [_ Hok2 Hc2 Hm2 Hn2 Ho2].
  pose proof (bo_cur _ _ Hok0) as H0. pose proof (bo_cur _ _ Hok2) as H2.
  split; [done|done|rewrite length_app; lia|lia| |].
  - intros j c Hj. apply lookup_app_Some in Hj as [Hj|[Hge Hj]].
    + rewrite Ho2; [by apply Hn1|]. pose proof (lookup_lt_Some _ _ _ Hj) as Hlt. intros i Hi.
      rewrite !(SLOT_PTR_eq root s1) by (done || lia). lia.
    + replace (slot_pos_cur s1 + Z.of_nat j) with (slot_pos_cur s2 + Z.of_nat (j - length cs1)) by lia. by apply Hn2.
  - intros p Hp. rewrite Ho2, Ho1; [done| |]; intros i Hi; apply Hp; lia.
Qed.

(** A capability to untyped memory can be put anywhere in the tree. *)
Lemma untyped_joins h D dev bits ptr : joins h D (cap_untyped_cap_new dev bits ptr).
Proof. split_and!; [done|by intros ?|by intros q c _ _ ?]. Qed.

Lemma provide_cap_Ok (rootcap cap : cap_t) root s :
  cap_get_capPtr rootcap = Some root → boot_ok root s → (∀ h D, joins h D cap) →
  slot_pos_cur s < slot_pos_max s →
  ∃ s', provide_cap rootcap cap s = Ok true s' ∧ provided root [cap] s s' ∧ freemem s' = freemem s ∧ bs_bi s' = bs_bi s.
Proof.
  intros Hroot Hok Hj Hlt. pose proof Hok as [(Hr1 & Hr2 & Hr3) Hcur (t & Ht & Hfree)].
  destruct (Hfree (slot_pos_cur s) ltac:(lia)) as [Hnt [c0 Hc0]].
  unfold provide_cap, pptr_of_cap. rewrite (kbind_Ok _ _ s s (slot_pos_cur s)), (kbind_Ok _ _ s s (slot_pos_max s)) by done.
  rewrite Hroot, (proj2 (Z.leb_gt _ _)) by lia. cbn [default]. set (slot := SLOT_PTR root (slot_pos_cur s)) in *.
  assert (slot = root + 16 * slot_pos_cur s) as Eslot by (apply (SLOT_PTR_eq root s); [done|lia]).
  assert (slot_ok slot) as Hslot.
  { rewrite Eslot. split; [|lia]. apply Z.mod_divide; [lia|]. exists (root / 16 * 4 + 4 * slot_pos_cur s).
    pose proof (Z.div_mod root 16). lia. }
  set (k1 := upd_ks_cte (<[slot := cte cap (cteMDBNode c0)]> (ks_cte (bs_k s))) (bs_k s)).
  destruct (cdtInsert_Ok k1 t 0 slot (cte cap (cteMDBNode c0)) None 0) as (h' & t' & E & T & [C1 C2] & El).
  { by apply cdt_tree_write. } { done. } { done. } { apply lookup_insert_eq. } { apply Hj. } { by left. } { done. }
  set (k2 := upd_ksRootCTE (troot t') (upd_ks_cte h' k1)) in *.
  assert (write_slot slot cap s = Ok tt (upd_bs_k k2 s)) as E1.
  { unfold write_slot, kernel. rewrite (kbind_Ok _ _ _ k1 tt) by by apply setCap_Ok. by rewrite E. }
  rewrite (kbind_Ok _ _ _ _ _ E1), (w32_id (_ + 1)) by (unfold is_w32; lia).
  eexists. split; [done|]. split; [|done].
  assert (∀ p, cteCap <$> h' !! p = cteCap <$> <[slot := cte cap (cteMDBNode c0)]> (ks_cte (bs_k s)) !! p) as Hcap.
  { intros p. specialize (C1 p). cbn [ks_cte k1 upd_ks_cte] in C1. destruct (decide (p = slot)) as [->|Hp].
    - rewrite lookup_insert_eq in C1 |- *. destruct (h' !! slot); [|done]. injection C1 as Ec _. cbn. by rewrite Ec.
    - rewrite !lookup_insert_ne in C1 by done. rewrite lookup_insert_ne by done. destruct (h' !! p), (ks_cte (bs_k s) !! p); try done.
      injection C1 as Ec _. cbn. by rewrite Ec. }
  assert (boot_ok root (upd_slot_pos_cur (slot_pos_cur s + 1) (upd_bs_k k2 s))) as Hok'.
  { split; cbn; [done|lia|]. exists t'. split; [done|]. intros i Hi.
    destruct (Hfree i ltac:(lia)) as [Hin Hsome].
    assert (SLOT_PTR root i ≠ slot) as Hne by (unfold slot; rewrite !(SLOT_PTR_eq root s) by (done || lia); lia).
    rewrite El, list_insert_Permutation, not_elem_of_cons. split_and!; [done|done|].
    specialize (Hcap (SLOT_PTR root i)). rewrite lookup_insert_ne in Hcap by done.
    destruct Hsome as [c1 Hc1]. rewrite Hc1 in Hcap. by destruct (h' !! SLOT_PTR root i). }
  split; try done.
  - intros [|j] c; [|done]. intros [= <-]. unfold cap_at. cbn [bs_k upd_slot_pos_cur upd_bs_k k2 ks_cte upd_ksRootCTE upd_ks_cte].
    rewrite Z.add_0_r. fold slot. rewrite Hcap, lookup_insert_eq. done.
  - intros p Hp. unfold cap_at. cbn [bs_k upd_slot_pos_cur upd_bs_k k2 ks_cte upd_ksRootCTE upd_ks_cte slot_pos_cur] in *.
    rewrite Hcap, lookup_insert_ne; [done|]. specialize (Hp (slot_pos_cur s) ltac:(lia)). unfold slot. congruence.
Qed.

(** ** Regions as untyped memory *)
Definition ut_cap (dev : bool) (block : Z * Z) : cap_t := cap_untyped_cap dev block.2 block.1.

(** The boot information lists the blocks from index [i] on, and is otherwise
    unchanged below. *)
Definition listed (i : Z) (l : list (Z * Z)) (b b' : bi_t) : Prop :=
  (∀ j p k, l !! j = Some (p, k) → ut_obj_paddr_list b' !! (i + Z.of_nat j) = Some (addrFromPPtr p) ∧
     ut_obj_size_bits_list b' !! (i + Z.of_nat j) = Some k) ∧
  ∀ k, k < i → ut_obj_paddr_list b' !! k = ut_obj_paddr_list b !! k ∧
     ut_obj_size_bits_list b' !! k = ut_obj_size_bits_list b !! k.

Lemma listed_nil i b : listed i [] b b.
Proof. by split. Qed.
Lemma listed_app i l1 l2 b1 b2 b3 :
  listed i l1 b1 b2 → listed (i + Z.of_nat (length l1)) l2 b2 b3 → listed i (l1 ++ l2) b1 b3.
Proof.
  intros [H1 K1] [H2 K2]. split.
  - intros j p k Hj. apply lookup_app_Some in Hj as [Hj|[Hge Hj]].
    + pose proof (lookup_lt_Some _ _ _ Hj). destruct (K2 (i + Z.of_nat j) ltac:(lia)) as [-> ->]. by apply H1.
    + specialize (H2 _ _ _ Hj). by replace (i + Z.of_nat j) with (i + Z.of_nat (length l1) + Z.of_nat (j - length l1)) by lia.
  - intros k Hk. destruct (K2 k ltac:(lia)) as [-> ->]. by apply K1.
Qed.

(** What turning a list of blocks into capabilities does. *)
Record untyped_given (root : Z) (dev : bool) (first : Z) (l : list (Z * Z)) (s s' : boot_state) : Prop := {
  ug_caps : provided root (map (ut_cap dev) l) s s';
  ug_listed : listed (slot_pos_cur s - first) l (bs_bi s) (bs_bi s');
  ug_freemem : freemem s' = freemem s
}.

Lemma untyped_given_nil root dev first s : boot_ok root s → untyped_given root dev first [] s s.
Proof. intros H. split; [by apply provided_refl|apply listed_nil|done]. Qed.
Lemma untyped_given_app root dev first l1 l2 s1 s2 s3 :
  untyped_given root dev first l1 s1 s2 → untyped_given root dev first l2 s2 s3 →
  untyped_given root dev first (l1 ++ l2) s1 s3.
Proof.
  intros [A1 A2 A3] [B1 B2 B3]. split; [rewrite map_app; by eapply provided_trans| |by rewrite B3].
  eapply listed_app; [exact A2|]. pose proof (pr_cur _ _ _ _ A1) as Hc. rewrite length_map in Hc.
  by replace (slot_pos_cur s1 - first + Z.of_nat (length l1)) with (slot_pos_cur s2 - first) by lia.
Qed.

Section Loop.
Context {bc : BootConfig} (rootcap : cap_t) (root : Z) (Hroot : cap_get_capPtr rootcap = Some root).

(** Room for [n] more capabilities, in the CNode and in the boot information. *)
Definition room (n first : Z) (s : boot_state) : Prop :=
  0 ≤ first ≤ slot_pos_cur s ∧ slot_pos_cur s + n ≤ slot_pos_max s ∧
  slot_pos_cur s - first + n ≤ CONFIG_MAX_NUM_BOOTINFO_UNTYPED_CAPS.

Lemma provide_untyped_cap_Ok dev p b first s :
  boot_ok root s → room 1 first s → (2 ^ b | p) → 4 ≤ b < 32 → is_w32 p →
  ∃ s', provide_untyped_cap rootcap dev p b first s = Ok true s' ∧ untyped_given root dev first [(p, b)] s s'.
Proof using Hroot.
  intros Hok (Hf & Hm & Hc) Hdiv Hb Hp. pose proof Hok as [Hr Hcur _].
  unfold provide_untyped_cap. rewrite (kbind_Ok _ _ s s (slot_pos_cur s)) by done. rewrite w32_id by (unfold is_w32; lia).
  rewrite (proj2 (Z.ltb_lt _ _)) by lia. set (s1 := upd_bs_bi (set_ut_obj (slot_pos_cur s - first) (addrFromPPtr p) b (bs_bi s)) s).
  rewrite (kbind_Ok _ _ s s1 tt) by done.
  assert (cap_untyped_cap_new dev b p = ut_cap dev (p, b)) as E.
  { unfold cap_untyped_cap_new, ut_cap. cbn. rewrite field_id, field_high_id; try done; try lia.
    apply Z.mod_divide; [lia|]. destruct Hdiv as [q ->]. exists (q * 2 ^ (b - 4)). change (2 ^ (32 - 28)) with (2 ^ 4).
    rewrite <- Z.mul_assoc, <- Z.pow_add_r by lia. by replace (b - 4 + 4) with b by lia. }
  destruct (provide_cap_Ok rootcap (cap_untyped_cap_new dev b p) root s1 Hroot) as (s' & E' & Hpr & Hfm & Hbi).
  { destruct Hok; by split. } { intros h D. apply untyped_joins. } { cbn. lia. }
  exists s'. split; [done|]. split; [|rewrite Hbi|done].
  - cbn [map]. rewrite <- E. destruct Hpr as [_ ? ? ? Hn Ho]. by split.
  - unfold s1. cbn [bs_bi upd_bs_bi]. split; cbn [ut_obj_paddr_list ut_obj_size_bits_list set_ut_obj].
    + intros [|j] q k; [|done]. intros [= <- <-]. rewrite Z.add_0_r, !lookup_insert_eq.
      rewrite Z.mod_small by lia. done.
    + intros k Hk. by rewrite !lookup_insert_ne by lia.
Qed.

Lemma untypeds_loop_tiles dev hi first fuel : ∀ lo s,
  ends_ok lo hi → dev = true ∨ kernelBase < lo → boot_ok root s → blocks_left lo hi < Z.of_nat fuel →
  room (blocks_left lo hi) first s →
  ∃ s' l, untypeds_loop fuel rootcap dev (Region lo hi) first s = Ok true s' ∧ tiles lo hi l ∧
    Z.of_nat (length l) ≤ blocks_left lo hi ∧ untyped_given root dev first l s s'.
Proof using Hroot.
  induction fuel as [|fuel IH]; intros lo s Hends Hk Hok Hfuel Hroom.
  { pose proof (blocks_left_range lo hi Hends). lia. }
  cbn [untypeds_loop]. unfold is_reg_empty. cbn [reg_start reg_end]. destruct (Z.eqb_spec lo hi) as [->|Hne].
  { exists s, []. split_and!; [done|done| |by apply untyped_given_nil]. unfold blocks_left. rewrite Z.eqb_refl. cbn. lia. }
  assert (negb dev && (lo =? kernelBase) = false) as ->.
  { destruct Hk as [->|Hk]; [done|]. rewrite (proj2 (Z.eqb_neq _ _)) by lia. apply andb_false_r. }
  destruct (next_bits_spec lo hi Hends Hne) as (Hb & Hdiv & Hle & Hends'). pose proof (blocks_left_decreases lo hi Hends Hne) as Hdec.
  pose proof (blocks_left_range _ _ Hends') as Hrange.
  rewrite (kopt_Some _ _ _ _ (untyped_bits_eq lo hi Hends Hne)). set (b := next_bits lo hi) in *.
  rewrite kassert_true by (apply Z.leb_le; change (wordBits / 8) with 4; lia).
  destruct Hroom as (Hf & Hm & Hc). cbn [reg_start reg_end].
  destruct (provide_untyped_cap_Ok dev lo b first s Hok) as (s1 & E1 & Hg1); [unfold room; lia|done|done|unfold is_w32, ends_ok in *; lia|].
  rewrite (kbind_Ok _ _ _ _ _ E1). rewrite BIT_eq, w32_id by (unfold is_w32, ends_ok in *; lia).
  pose proof (ug_caps _ _ _ _ _ _ Hg1) as Hpr. pose proof (pr_cur _ _ _ _ Hpr) as Hc1. pose proof (pr_max _ _ _ _ Hpr) as Hm1.
  cbn [length map Z.of_nat] in Hc1.
  destruct (IH (lo + 2 ^ b) s1) as (s' & l & E & Ht & Hlen & Hg); [done|destruct Hk; [by left|right; lia]|apply Hpr|lia|unfold room; lia|].
  exists s', ((lo, b) :: l). split_and!; [done|done|cbn [length]; lia|].
  by apply (untyped_given_app _ _ _ [(lo, b)] l s s1 s').
Qed.

(** ** All of free memory *)

(** The first page of the kernel's window is never given away. *)
Definition untyped_start (r : region_t) : Z :=
  if reg_start r =? kernelBase then reg_start r + 4096 else reg_start r.
(** A region of kernel memory that can be given away. *)
Definition mem_ok (r : region_t) : Prop :=
  r = REG_EMPTY ∨
  ends_ok (reg_start r) (reg_end r) ∧ kernelBase ≤ reg_start r < reg_end r ∧ untyped_start r < reg_end r.
Definition tiled (r : region_t) (l : list (Z * Z)) : Prop :=
  if is_reg_empty r then l = [] else tiles (untyped_start r) (reg_end r) l.

Lemma untypeds_loop_skip fuel hi first s : kernelBase ≠ hi → kernelBase + 4096 ≠ hi →
  untypeds_loop (S fuel) rootcap false (Region kernelBase hi) first s =
  untypeds_loop (S fuel) rootcap false (Region (kernelBase + 4096) hi) first s.
Proof using.
  intros H1 H2. cbn [untypeds_loop]. unfold is_reg_empty. cbn [reg_start reg_end].
  by rewrite !(proj2 (Z.eqb_neq _ hi)) by lia.
Qed.

Lemma untypeds_for_region_tiled r first s :
  mem_ok r → boot_ok root s → room 60 first s →
  ∃ s' l, create_untypeds_for_region rootcap false r first s = Ok true s' ∧ tiled r l ∧
    (length l ≤ 60)%nat ∧ untyped_given root false first l s s'.
Proof using Hroot.
  intros Hmem Hok Hroom. unfold create_untypeds_for_region, tiled. destruct Hmem as [->|(Hends & Hlo & Hst)].
  { exists s, []. split_and!; [done|done|cbn; lia|by apply untyped_given_nil]. }
  destruct r as [lo hi]. cbn [reg_start reg_end] in *. unfold is_reg_empty. cbn [reg_start reg_end].
  rewrite (proj2 (Z.eqb_neq lo hi)) by lia.
  assert (∃ fuel, untypeds_loop untypeds_fuel rootcap false (Region lo hi) first s =
    untypeds_loop (S fuel) rootcap false (Region (untyped_start (Region lo hi)) hi) first s ∧
    (60 < S fuel)%nat ∧ ends_ok (untyped_start (Region lo hi)) hi ∧ kernelBase < untyped_start (Region lo hi))
    as (fuel & -> & Hfuel & Hends' & Hk).
  { unfold untyped_start in *. cbn [reg_start reg_end] in *. exists 65%nat. destruct (Z.eqb_spec lo kernelBase) as [->|Hne].
    - split_and!; [|lia| |unfold kernelBase; lia].
      + apply (untypeds_loop_skip 65); lia.
      + destruct Hends as (H1 & H2 & [q Hq] & H4). split_and!; [lia|lia|lia| |done]. exists (q + 256). lia.
    - split_and!; [done|lia|done|lia]. }
  pose proof (blocks_left_range _ _ Hends') as Hb. destruct Hroom as (Hf & Hm & Hc).
  destruct (untypeds_loop_tiles false hi first (S fuel) _ s Hends' (or_intror Hk) Hok) as (s' & l & E & Ht & Hlen & Hg);
    [lia|unfold room; lia|].
  exists s', l. split_and!; [done|done|lia|done].
Qed.

Lemma untypeds_step_tiled i r first s :
  freemem s !! i = Some r → mem_ok r → boot_ok root s → room 60 first s →
  ∃ s' l,
    (let! l := gets freemem in
     let! reg := kopt (znth l (Z.of_nat i)) in
     modify (upd_freemem (<[Z.to_nat (Z.of_nat i) := REG_EMPTY]> l)) ;;;
     create_untypeds_for_region rootcap false reg first) s = Ok true s' ∧
    tiled r l ∧ (length l ≤ 60)%nat ∧ provided root (map (ut_cap false) l) s s' ∧
    listed (slot_pos_cur s - first) l (bs_bi s) (bs_bi s') ∧ freemem s' = <[i := REG_EMPTY]> (freemem s).
Proof using Hroot.
  intros Hi Hmem Hok Hroom. rewrite (kbind_Ok _ _ s s (freemem s)) by done.
  assert (znth (freemem s) (Z.of_nat i) = Some r) as Hz by (unfold znth; rewrite (proj2 (Z.leb_le _ _)), Nat2Z.id by lia; done).
  rewrite (kopt_Some _ _ _ _ Hz), Nat2Z.id. set (s1 := upd_freemem (<[i:=REG_EMPTY]> (freemem s)) s).
  rewrite (kbind_Ok _ _ s s1 tt) by done.
  destruct (untypeds_for_region_tiled r first s1 Hmem) as (s' & l & E & Ht & Hlen & [[_ ? ? ? Hn Ho] Hl Hf]);
    [destruct Hok; by split|done|].
  exists s', l. split_and!; try done; by split.
Qed.

End Loop.

(** A root CNode of 256 slots and two free regions. *)
Definition demo_root : Z := 0xf0200000.
Definition demo_rootcap : cap_t := cap_cnode_cap 8 24 0 demo_root.
Definition demo_boot : boot_state :=
  BootState (upd_ks_cte (retyps demo_root 256 16 null_cte ∅) empty_kstate)
    [Region 0xf0030000 0xf0100000; Region 0xf0201400 0xf0280000] 0xf0028000 zero_bi 12 256.

Lemma demo_boot_ok : boot_ok demo_root demo_boot.
Proof.
  split; [by vm_compute|by vm_compute|]. exists Leaf. split.
  - split; [done|constructor|done|]. by split; intros p; intros; set_solver.
  - intros i Hi. split; [apply not_elem_of_nil|].
    assert (forallb (λ i, bool_decide (is_Some (ks_cte (bs_k demo_boot) !! SLOT_PTR demo_root i))) (seqZ 12 244) = true) as Hall
      by by vm_compute.
    rewrite List.forallb_forall in Hall. specialize (Hall i). rewrite bool_decide_eq_true in Hall.
    apply Hall. apply list_elem_of_In, elem_of_seqZ. cbn in Hi. lia.
Qed.

Example demo_untypeds :
  match @create_untypeds kzm_boot demo_rootcap (Region kernelBase 0xf0008000) demo_boot with
  | Ok true s' => (slot_pos_cur s', cap_at s' 0xf02000c0, cap_at s' 0xf0200110) =
      (26, Some (cap_untyped_cap false 12 0xf0001000), Some (cap_untyped_cap false 19 0xf0080000))
  | _ => False
  end.
Proof. by vm_compute. Qed.
