(* ===== verification/NameservTheorems.v ===== *)
(** * Name servers are maps, and resolution is a walk

    The registrations of a server implement a finite map; a client that resolves
    a path walks from server to server through their maps, and keeps the
    capability of the last one only; what a process registers with the process
    server is what others resolve there. *)

From S2P Require Import Prelude.
From S2P Require Import Word32.
From S2P Require Import DataStruct.
From S2P Require Import WindowAssoc.
From S2P Require Import DataVec.
From S2P Require Import Nameserv.
From S2P Require Import Procserv.
From S2P Require Import Dataspace.
From S2P Require Import Handlers.
From S2P Require Import HandlersTheorems.
From S2P Require Import DataspaceTheorems.
From S2P Require Import MemservInv.
From S2P Require Import MemservTheorems.

(** ** Registrations as a map from names to endpoints *)
Notation name_map := (gmap (list Z) Z).
Definition to_entry (p : list Z * Z) : nameserv_entry_t := NameservEntry p.1 p.2.

Section Registrations.
Context (malloc_ok : Z → bool) (lim : Z) (Hlim : 16 ≤ lim ≤ 2 ^ 28).
Context (Hmalloc : ∀ n, 0 < n ≤ 8 * lim → malloc_ok n = true).
Context {W : Type} (free_capability : Z → W → W).

(** The list [v] of registrations is the map [m]. *)
Definition registered (v : nameserv_state_t) (m : name_map) : Prop :=
  ∃ l, vrep lim v (to_entry <$> l) ∧ NoDup l.*1 ∧ m = list_to_map l ∧ [] ∉ l.*1.

Lemma registered_init : registered cvector_init ∅.
Proof using Hlim.
  exists []. split; [by apply cvector_init_vrep|]. split; [apply NoDup_nil_2|]. split; [done|apply not_elem_of_nil].
Qed.

Lemma find_name_loop_spec v l name n k :
  vrep lim v (to_entry <$> l) → (n + k = length l)%nat →
  find_name_loop n v name (Z.of_nat k) =
    Some (match list_find (λ p, p.1 = name) (drop k l) with Some (i, _) => Z.of_nat (k + i) | None => -1 end).
Proof using Hlim.
  intros Hv. revert k. induction n as [|n IH]; intros k Hk; cbn [find_name_loop].
  - by rewrite drop_ge by lia.
  - destruct (lookup_lt_is_Some_2 l k) as [p Hp]; [lia|].
    pose proof (vr_lim _ _ _ Hv) as Hl. rewrite length_fmap in Hl.
    rewrite (cvector_get_spec lim Hlim _ _ _ Hv), Nat2Z.id, list_lookup_fmap, Hp by lia. cbn [fmap option_fmap option_map].
    rewrite (drop_S l p k Hp). cbn [list_find ns_name to_entry]. case_decide as Hd; cbn [fst] in Hd.
    + rewrite bool_decide_eq_true_2 by done. by rewrite Nat.add_0_r.
    + rewrite bool_decide_eq_false_2 by done. replace (Z.of_nat k + 1) with (Z.of_nat (S k)) by lia.
      rewrite (IH (S k)) by lia. destruct (list_find _ _) as [[i q]|]; cbn; [|done]. do 2 f_equal. lia.
Qed.

(** Where a name is in the list. *)
Lemma find_name_spec v l name :
  vrep lim v (to_entry <$> l) → NoDup l.*1 →
  match (list_to_map l : name_map) !! name with
  | Some ep => ∃ i, find_name_loop (Z.to_nat (cvector_count v)) v name 0 = Some (Z.of_nat i) ∧ l !! i = Some (name, ep)
  | None => find_name_loop (Z.to_nat (cvector_count v)) v name 0 = Some (-1)
  end.
Proof using Hlim.
  intros Hv Hnd. unfold cvector_count. rewrite (vr_count _ _ _ Hv), length_fmap, Nat2Z.id.
  rewrite (find_name_loop_spec v l name _ 0 Hv) by lia. rewrite drop_0.
  destruct (list_find (λ p, p.1 = name) l) as [[i [nm ep]]|] eqn:Hf.
  - apply list_find_Some in Hf as (Hi & Hn & _). cbn in Hn. subst nm.
    assert ((list_to_map l : name_map) !! name = Some ep) as ->; [|by exists i].
    apply elem_of_list_to_map_1; [done|]. by eapply list_elem_of_lookup_2.
  - apply list_find_None in Hf. assert ((list_to_map l : name_map) !! name = None) as ->; [|done]. apply not_elem_of_list_to_map_1.
    intros ((nm & ep) & -> & Hin)%list_elem_of_fmap. by eapply Forall_forall in Hf.
Qed.

Lemma find_entry_spec v m name w :
  registered v m →
  ∃ l i, nameserv_find_entry_index (W:=W) (Some name) (v, w) = Ok i (v, w) ∧
    vrep lim v (to_entry <$> l) ∧ NoDup l.*1 ∧ m = list_to_map l ∧ [] ∉ l.*1 ∧
    match m !! name with
    | Some ep => 0 ≤ i ∧ l !! Z.to_nat i = Some (name, ep) ∧ cvector_get v i = Some (NameservEntry name ep)
    | None => i = -1
    end.
Proof using Hlim.
  intros (l & Hv & Hnd & -> & Hne). pose proof (find_name_spec v l name Hv Hnd) as Hf.
  exists l. unfold nameserv_find_entry_index, entries, kbind, gets. cbn [fst].
  destruct (_ !! name) as [ep|].
  - destruct Hf as (i & -> & Hi). exists (Z.of_nat i). rewrite Nat2Z.id. split_and!; try done; [lia|].
    pose proof (lookup_lt_Some _ _ _ Hi). pose proof (vr_lim _ _ _ Hv) as Hl. rewrite length_fmap in Hl.
    rewrite (cvector_get_spec lim Hlim _ _ _ Hv), Nat2Z.id, list_lookup_fmap, Hi by lia. done.
  - exists (-1). by rewrite Hf.
Qed.

(** ** What the operations do to the map *)
Definition delete_name (name : list Z) (s : name_map * W) : name_map * W :=
  match s.1 !! name with
  | Some ep => (delete name s.1, free_capability ep s.2)
  | None => s
  end.
Definition add_name (name : list Z) (ep : Z) (s : name_map * W) : (name_map * W) * refos_error :=
  if ep =? 0 then (s, EINVALIDPARAM)
  else
    let s := delete_name name s in
    if bool_decide (name = []) then (s, ENOMEM) else ((<[name := ep]> s.1, s.2), ESUCCESS).

(** The path without a slash at its front. *)
Definition strip_slash (path : list Z) : list Z :=
  match path with c :: rest => if c =? SLASH then rest else path | [] => [] end.
Definition resolve_name (m : name_map) (path : list Z) : Z * option Z :=
  if bool_decide (path = []) then (0, None)
  else
    match list_find (λ c, c = SLASH) (strip_slash path) with
    | None => (REFOS_NAMESERV_RESOLVED, None)
    | Some (i, _) =>
        match m !! take i (strip_slash path) with
        | None => (0, None)
        | Some ep => (Z.of_nat (length path - length (strip_slash path) + i), Some ep)
        end
    end.

Lemma nameserv_delete_spec v m name w :
  registered v m →
  runs (nameserv_delete malloc_ok free_capability (Some name)) (v, w)
    (λ _ s', registered s'.1 (delete_name name (m, w)).1 ∧ s'.2 = (delete_name name (m, w)).2).
Proof using Hlim Hmalloc.
  intros Hr. destruct (find_entry_spec v m name w Hr) as (l & i & Hf & Hv & Hnd & -> & Hne & Hi).
  unfold nameserv_delete. apply runs_bind. eapply runs_Ok; [exact Hf|]. unfold delete_name. cbn [fst snd].
  destruct (_ !! name) as [ep|] eqn:Hm; [|subst i; by apply runs_ret].
  destruct Hi as (Hi0 & Hi & Hget). rewrite (proj2 (Z.eqb_neq i (-1))) by lia.
  apply runs_bind, runs_gets. cbn [fst]. rewrite Hget. apply runs_bind, runs_ret.
  unfold nameserv_release_entry, release_cap. apply runs_bind, runs_modify. cbn [fst snd anonEP].
  pose proof (lookup_lt_Some _ _ _ Hi) as Hlt.
  destruct (cvector_delete_spec malloc_ok lim Hlim Hmalloc v _ i Hv) as (v' & Hd & Hv'); [rewrite length_fmap; lia|].
  rewrite Hd. apply runs_bind, runs_ret. apply runs_modify. cbn [fst snd].
  split; [|done]. assert (l ≡ₚ (name, ep) :: delete (Z.to_nat i) l) as Hp by by apply delete_Permutation.
  assert (NoDup ((name, ep) :: delete (Z.to_nat i) l).*1) as Hnd2 by (by rewrite <- Hp).
  exists (delete (Z.to_nat i) l). split_and!.
  - by rewrite list_fmap_delete.
  - cbn in Hnd2. by apply NoDup_cons_1_2 in Hnd2.
  - assert ((list_to_map l : name_map) = <[name := ep]> (list_to_map (delete (Z.to_nat i) l))) as ->
      by (by exact (list_to_map_proper l ((name, ep) :: delete (Z.to_nat i) l) Hnd Hp)).
    rewrite delete_insert_id; [done|].
    apply not_elem_of_list_to_map_1. cbn in Hnd2. by apply NoDup_cons_1_1 in Hnd2.
  - intros Hin. apply Hne. rewrite Hp. cbn. by right.
Qed.

Lemma registered_add (v : nameserv_state_t) (m : name_map) name ep :
  registered v m → m !! name = None → name ≠ [] → Z.of_nat (size m) < lim →
  ∃ v', cvector_add malloc_ok v (NameservEntry name ep) = Some (v', Z.of_nat (size m)) ∧ registered v' (<[name := ep]> m).
Proof using Hlim Hmalloc.
  intros (l & Hv & Hnd & -> & Hne) Hno Hnn Hsz. rewrite (map_size_list_to_map l) in * by done.
  destruct (cvector_add_spec malloc_ok lim Hlim Hmalloc v _ (NameservEntry name ep) Hv) as (v' & Ha & Hv');
    [by rewrite length_fmap|].
  rewrite length_fmap in Ha. exists v'. split; [done|]. apply not_elem_of_list_to_map in Hno.
  assert (l ++ [(name, ep)] ≡ₚ (name, ep) :: l) as Hp by by rewrite Permutation_app_comm.
  assert (NoDup (l ++ [(name, ep)]).*1) as Hnd2 by (rewrite Hp; by apply NoDup_cons_2).
  exists (l ++ [(name, ep)]). split_and!; [by rewrite fmap_app|done| |].
  - by rewrite (list_to_map_proper _ _ Hnd2 Hp).
  - intros Hin. rewrite Hp in Hin. apply list_elem_of_In in Hin as [Hin|Hin]; [done|].
    by apply list_elem_of_In in Hin.
Qed.

Lemma delete_name_None (name : list Z) (m : name_map) (w : W) : (delete_name name (m, w)).1 !! name = None.
Proof using Type. unfold delete_name. cbn. destruct (m !! name) eqn:Hm; [apply lookup_delete_eq|done]. Qed.
Lemma delete_name_size (name : list Z) (m : name_map) (w : W) : (size (delete_name name (m, w)).1 <= size m)%nat.
Proof using Type.
  unfold delete_name. cbn. destruct (m !! name) as [ep|] eqn:Hm; [|done]. cbn [fst]. rewrite map_size_delete, Hm. lia.
Qed.

(** Strings short enough for the allocator. *)
Definition fits (s : list Z) : bool := Z.of_nat (length s) + 2 <=? 8 * lim.

Lemma create_entry_spec name ep :
  fits name = true → ep ≠ 0 →
  nameserv_create_entry malloc_ok (Some name) ep = if bool_decide (name = []) then None else Some (NameservEntry name ep).
Proof using Hlim Hmalloc.
  intros Hfit%Z.leb_le Hep. unfold nameserv_create_entry. rewrite (proj2 (Z.eqb_neq ep 0)) by done.
  destruct name as [|c name]; [done|]. rewrite bool_decide_eq_false_2 by done.
  rewrite (proj2 (Z.eqb_neq _ 0)) by (cbn; lia). by rewrite !Hmalloc by (cbn in *; lia).
Qed.

Lemma nameserv_add_spec v m name ep w :
  registered v m → fits name = true → Z.of_nat (size m) < lim →
  runs (nameserv_add malloc_ok free_capability (Some name) ep) (v, w)
    (λ e s', registered s'.1 (add_name name ep (m, w)).1.1 ∧ s'.2 = (add_name name ep (m, w)).1.2 ∧
      e = (add_name name ep (m, w)).2).
Proof using Hlim Hmalloc.
  intros Hr Hfit Hsz. unfold nameserv_add, add_name. destruct (Z.eqb_spec ep 0) as [|Hep]; [by apply runs_ret|].
  apply runs_bind. eapply runs_mono; [by apply nameserv_delete_spec|]. cbv beta. intros _ [v1 w1] [Hr1 Hw1].
  pose proof (delete_name_None name m w) as Hno. pose proof (delete_name_size name m w) as Hsz1.
  destruct (delete_name name (m, w)) as [m1 w1']. cbn [fst snd] in *. subst w1'.
  rewrite create_entry_spec by done. case_bool_decide as Hn; [by apply runs_ret|].
  destruct (registered_add v1 m1 name ep Hr1 Hno Hn) as (v2 & Ha & Hr2); [lia|].
  apply runs_bind, runs_gets. cbn [fst]. rewrite Ha. apply runs_bind, runs_ret. apply runs_bind, runs_modify.
  by apply runs_ret.
Qed.

Lemma next_segment_spec p :
  next_segment p = match list_find (λ c, c = SLASH) p with Some (i, _) => (take i p, true) | None => (p, false) end.
Proof using Type.
  induction p as [|c p IH]; [done|]. cbn [next_segment list_find]. case_decide as Hc.
  - by rewrite (proj2 (Z.eqb_eq _ _) Hc).
  - rewrite (proj2 (Z.eqb_neq _ _) Hc), IH. by destruct (list_find _ p) as [[i x]|].
Qed.

Lemma drop_lead path :
  path ≠ [] →
  drop (Z.to_nat (match path with c :: _ => b2z (c =? SLASH) | [] => 0 end)) path = strip_slash path ∧
  (match path with c :: _ => b2z (c =? SLASH) | [] => 0 end) = Z.of_nat (length path - length (strip_slash path)).
Proof using Type.
  destruct path as [|c path]; [done|]. intros _. cbn [strip_slash]. destruct (c =? SLASH); cbn; split; try done; lia.
Qed.

Lemma nameserv_resolve_spec v m path w :
  registered v m → fits path = true →
  nameserv_resolve malloc_ok (W:=W) (Some path) (v, w) = Ok (resolve_name m path) (v, w).
Proof using Hlim Hmalloc.
  intros Hr Hfit%Z.leb_le. unfold nameserv_resolve, resolve_name. destruct (decide (path = [])) as [->|Hne]; [done|].
  rewrite bool_decide_eq_false_2 by done. destruct (drop_lead path Hne) as [-> Hlead].
  assert (0 < Z.of_nat (length path)) by (destruct path; cbn; [done|lia]).
  rewrite (proj2 (Z.leb_gt _ _)) by done. rewrite Hmalloc by lia. cbn [negb]. rewrite next_segment_spec.
  destruct (list_find _ _) as [[i c]|] eqn:Hf; [cbn [negb]|done].
  destruct (find_entry_spec v m (take i (strip_slash path)) w Hr) as (l & idx & Hfind & _ & _ & _ & _ & Hidx).
  rewrite (kbind_Ok _ _ _ _ _ Hfind). destruct (m !! _) as [ep|]; [|by subst idx].
  destruct Hidx as (Hi0 & _ & Hget). rewrite (proj2 (Z.eqb_neq idx (-1))) by lia.
  unfold kbind at 1, entries, gets. cbn [fst]. rewrite Hget. cbn [kopt anonEP]. rewrite Hlead.
  apply list_find_Some in Hf as (Hi & _ & _). apply lookup_lt_Some in Hi.
  assert (length (strip_slash path) <= length path)%nat by (destruct path; cbn; [lia|case_match; cbn; lia]).
  rewrite length_take. unfold kbind, kret, kassert. rewrite (Nat.min_l i) by lia.
  rewrite (proj2 (Z.leb_le 0 _)) by lia. rewrite (proj2 (Z.ltb_lt _ _)) by lia. cbn. do 3 f_equal. lia.
Qed.

(** ** Sequences of operations *)
Inductive name_op : Type := AddName (name : list Z) (ep : Z) | DeleteName (name : list Z) | ResolveName (path : list Z).
Definition name_result : Type := refos_error + (Z * option Z).

Definition name_impl (s : nameserv_state_t * W) (o : name_op) : option ((nameserv_state_t * W) * name_result) :=
  let run m := match m s with Ok r s' => Some (s', r) | _ => None end in
  match o with
  | AddName name ep => run (let! e := nameserv_add malloc_ok free_capability (Some name) ep in kret (inl e))
  | DeleteName name => run (nameserv_delete malloc_ok free_capability (Some name) ;;; kret (inl ESUCCESS))
  | ResolveName path => run (let! r := nameserv_resolve malloc_ok (Some path) in kret (inr r))
  end.
Definition name_spec (s : name_map * W) (o : name_op) : option ((name_map * W) * name_result) :=
  match o with
  | AddName name ep =>
      if fits name && (Z.of_nat (size s.1) <? lim)
      then let (s, e) := add_name name ep s in Some (s, inl e) else None
  | DeleteName name => Some (delete_name name s, inl ESUCCESS)
  | ResolveName path => if fits path then Some (s, inr (resolve_name s.1 path)) else None
  end.
Definition name_rel (s : nameserv_state_t * W) (t : name_map * W) : Prop := registered s.1 t.1 ∧ s.2 = t.2.

#[export] Instance name_refines : Refines name_impl name_spec name_rel.
Proof using Hlim Hmalloc.
  intros [v w] [m w'] o t' r [Hr Hw]. cbn [fst snd] in *. subst w'. destruct o as [name ep|name|path]; cbn [name_spec].
  - destruct (fits name && _) eqn:Hok; [|done]. apply andb_prop in Hok as [Hfit Hsz%Z.ltb_lt]. cbn [fst] in Hsz.
    destruct (nameserv_add_spec v m name ep w Hr Hfit Hsz) as (e & s' & Ha & Hr' & Hw' & ->).
    destruct (add_name name ep (m, w)) as [s2 e2]. cbn in *. intros [= <- <-]. exists s'.
    by rewrite (kbind_Ok _ _ _ _ _ Ha).
  - intros [= <- <-]. destruct (nameserv_delete_spec v m name w Hr) as (u & s' & Hd & Hr' & Hw').
    exists s'. cbn. by rewrite (kbind_Ok _ _ _ _ _ Hd).
  - destruct (fits path) eqn:Hfit; [|done]. intros [= <- <-]. exists (v, w).
    cbn. by rewrite (kbind_Ok _ _ _ _ _ (nameserv_resolve_spec v m path w Hr Hfit)).
Qed.
End Registrations.

(** C25. Refinement: the registrations of a name server are a finite map from
    names to endpoints.  Any sequence of registrations, removals and
    resolutions on a new server completes and answers as on the map: a path is
    resolved up to its first slash past the front if the map has that name, and
    names the server itself if there is no slash; an endpoint is released exactly
    when its name is removed or registered again. *)
Theorem nameserv_refines_map malloc_ok lim {W} (free_capability : Z → W → W) ops w m w' rs :
  16 ≤ lim ≤ 2 ^ 28 → (∀ n, 0 < n ≤ 8 * lim → malloc_ok n = true) →
  run_ops (name_spec lim free_capability) (∅, w) ops = Some ((m, w'), rs) →
  ∃ v, run_ops (name_impl malloc_ok free_capability) (cvector_init, w) ops = Some ((v, w'), rs) ∧ registered lim v m.
Proof.
  intros Hlim Hmalloc Hrun.
  destruct (refines_run _ _ _ (Refines0:=name_refines malloc_ok lim Hlim Hmalloc free_capability) ops
    (cvector_init, w) (∅, w) (m, w') rs) as ([v w1] & Hi & Hr & Hw); [|done|].
  - split; [by apply registered_init|done].
  - cbn in Hw. subst w1. by exists v.
Qed.

(** The names "a" and "bc"; the released endpoints are listed. *)
Definition demo_names : list name_op :=
  [AddName [97] 5; AddName [98; 99] 6; ResolveName [47; 98; 99; 47; 120]; AddName [97] 7; ResolveName [97; 47];
   DeleteName [98; 99]; ResolveName [98; 99; 47; 120]; ResolveName [120]; AddName [] 8].
Lemma nameserv_refines_map_witness :
  ∃ v, run_ops (name_impl (λ _, true) cons) (cvector_init, []) demo_names =
      Some ((v, [6; 5]), [inl ESUCCESS; inl ESUCCESS; inr (3, Some 6); inl ESUCCESS; inr (1, Some 7); inl ESUCCESS;
        inr (0, None); inr (-1, None); inl ENOMEM]) ∧
    registered 16 v {[ [97] := 7 ]}.
Proof. apply (nameserv_refines_map (λ _, true) 16 cons demo_names []); [lia|done|vm_compute; reflexivity]. Defined.

(** ** Paths *)
Definition slash_free (s : list Z) : Prop := Forall (λ c, c ≠ SLASH) s.
Definition component (s : list Z) : Prop := s ≠ [] ∧ slash_free s.
(** The names of servers, then the name in the last server. *)
Definition join_path (comps : list (list Z)) (leaf : list Z) : list Z :=
  foldr (λ c rest, c ++ SLASH :: rest) leaf comps.
Definition lead_slash (lead : bool) (path : list Z) : list Z := if lead then SLASH :: path else path.

Lemma strip_slash_free s rest : component s → strip_slash (s ++ rest) = s ++ rest.
Proof. intros [Hne Hs]. destruct s as [|c s]; [done|]. cbn. by rewrite (proj2 (Z.eqb_neq c SLASH) (Forall_inv Hs)). Qed.

Lemma strip_join lead c comps leaf :
  component c → strip_slash (lead_slash lead (join_path (c :: comps) leaf)) = c ++ SLASH :: join_path comps leaf.
Proof. intros Hc. destruct lead; [done|]. by apply strip_slash_free. Qed.

Lemma resolve_join m lead c comps leaf :
  component c →
  resolve_name m (lead_slash lead (join_path (c :: comps) leaf)) =
    match m !! c with None => (0, None) | Some ep => (b2z lead + Z.of_nat (length c), Some ep) end.
Proof.
  intros Hc. unfold resolve_name. rewrite strip_join by done. pose proof Hc as [Hne Hs].
  rewrite bool_decide_eq_false_2 by (destruct lead, c; done).
  assert (list_find (λ c, c = SLASH) (c ++ SLASH :: join_path comps leaf) = Some (length c, SLASH)) as ->.
  { apply list_find_app_Some. right. split; [done|]. split; [by apply list_find_None|]. by rewrite Nat.sub_diag. }
  rewrite take_app_length. destruct (m !! c) as [ep|]; [|done]. do 2 f_equal.
  change (join_path (c :: comps) leaf) with (c ++ SLASH :: join_path comps leaf).
  destruct lead; cbn [lead_slash length b2z]; rewrite !length_app; cbn [length]; lia.
Qed.

Lemma forallb_slash_free s : slash_free s → forallb (λ c, negb (c =? SLASH)) s = true.
Proof. induction 1 as [|c s Hc _ IH]; [done|]. cbn. by rewrite (proj2 (Z.eqb_neq _ _) Hc). Qed.

Lemma check_join lead comps leaf :
  Forall component comps → slash_free leaf →
  nsv_check_path_resolved (lead_slash lead (join_path comps leaf)) = bool_decide (comps = []).
Proof.
  intros Hcs Hleaf. change (nsv_check_path_resolved ?p) with (forallb (λ c, negb (c =? SLASH)) (strip_slash p)).
  destruct comps as [|c comps].
  - cbn [join_path foldr]. rewrite bool_decide_eq_true_2 by done. apply forallb_slash_free. destruct lead; [done|].
    destruct leaf as [|x leaf]; [done|]. cbn. destruct (x =? SLASH); [by inversion Hleaf|done].
  - apply Forall_cons in Hcs as [Hc _]. rewrite strip_join, bool_decide_eq_false_2, forallb_app by done.
    rewrite andb_comm. done.
Qed.

(** ** Servers *)
Section Resolution.
Context {rpc : NameRpc}.

(** [dir] is what each server has registered, [None] for a server that does not
    serve names; [holds] are the capabilities of the client.  A name server
    answers as [nameserv_resolve] does, with a new capability for an endpoint. *)
Record NetOk (dir : Z → option name_map) (holds : net → gmap Z Z) : Prop := {
  net_resolve cap id path w : holds w !! cap = Some id → Z.of_nat (length path) < NAMESERV_PATH_MAXLEN →
    let '((c, n, e), w') := nsv_resolve_segment_internal cap path w in
    match dir id with
    | Some m =>
        e = ESUCCESS ∧ n = (resolve_name m path).1 ∧
        match (resolve_name m path).2 with
        | Some id' => c ≠ 0 ∧ holds w !! c = None ∧ holds w' = <[c := id']> (holds w)
        | None => holds w' = holds w
        end
    | None => e ≠ ESUCCESS ∧ holds w' = holds w
    end;
  net_del c w : holds (proc_del_endpoint c w) = delete c (holds w)
}.

(** The server at the end of the names. *)
Fixpoint walk (dir : Z → option name_map) (id : Z) (comps : list (list Z)) : option Z :=
  match comps with
  | [] => Some id
  | c :: comps => let? m := dir id in let? id := m !! c in walk dir id comps
  end.

Context (dir : Z → option name_map) (holds : net → gmap Z Z) (Hnet : NetOk dir holds).
Context (H0 : gmap Z Z) (root : Z) (Hroot : H0 !! NAMESERV_EP = Some root).

(** The client holds [cap], for the server [id], beside what it had. *)
Definition at_server (cap id : Z) (w : net) : Prop :=
  cap ≠ 0 ∧ holds w = <[cap := id]> H0 ∧ (if bool_decide (cap = NAMESERV_EP) then id = root else H0 !! cap = None).

Lemma leave_server cap s :
  cap ≠ 0 →
  runs (kwhen (negb (cap =? NAMESERV_EP)) (kassert (negb (cap =? 0)) ;;; del_endpoint cap)) s (λ _ s',
    refos_errno s' = refos_errno s ∧
    holds (cl_net s') = if bool_decide (cap = NAMESERV_EP) then holds (cl_net s) else delete cap (holds (cl_net s))).
Proof using Hnet.
  intros Hcap. case_bool_decide as Hc; [rewrite (proj2 (Z.eqb_eq _ _) Hc); by apply runs_ret|].
  rewrite (proj2 (Z.eqb_neq _ _) Hc). cbn [negb kwhen]. rewrite (proj2 (Z.eqb_neq cap 0)) by done.
  apply runs_bind, runs_ret. apply runs_modify. cbn. split; [done|]. apply (net_del dir holds Hnet).
Qed.

(** What a resolution answers and leaves. *)
Definition resolution (path leaf : list Z) (target : option Z) (r : nsv_mountpoint_t) (s : client) : Prop :=
  match target with
  | Some id =>
      success r = true ∧ at_server (serverAnon r) id (cl_net s) ∧ nameservRoot r = NAMESERV_EP ∧
      nameservPathPrefix r ++ dspaceName r = path ∧ strip_slash (dspaceName r) = leaf ∧ refos_errno s = ESUCCESS
  | None => r = no_mountpoint ∧ holds (cl_net s) = H0 ∧ refos_errno s = ESERVERNOTFOUND
  end.

Lemma string_at_app path pos a b :
  string_at path pos = Some (a ++ b) → string_at path (pos + Z.of_nat (length a)) = Some b.
Proof using Type.
  unfold string_at. destruct (Z.leb_spec 0 pos); [|done]. destruct (Z.leb_spec pos (Z.of_nat (length path))); [|done].
  cbn [andb]. intros [= Hd]. pose proof (f_equal length Hd) as Hl. rewrite length_drop, length_app in Hl.
  rewrite !(proj2 (Z.leb_le _ _)) by lia. cbn [andb].
  rewrite Z2Nat.inj_add, Nat2Z.id by lia. rewrite <- drop_drop, Hd. by rewrite drop_app_length.
Qed.

Lemma resolve_fails path leaf cap s :
  cap ≠ 0 → (if bool_decide (cap = NAMESERV_EP) then holds (cl_net s) else delete cap (holds (cl_net s))) = H0 →
  runs (kwhen (negb (cap =? NAMESERV_EP)) (kassert (negb (cap =? 0)) ;;; del_endpoint cap) ;;;
        (REFOS_SET_ERRNO ESERVERNOTFOUND ;;; kret no_mountpoint)) s (resolution path leaf None).
Proof using Hnet.
  intros Hcap Hh. apply runs_bind. eapply runs_mono; [by apply leave_server|]. cbv beta. intros _ s1 [_ Hh1].
  apply runs_bind, runs_modify. apply runs_ret. cbn. by rewrite Hh1.
Qed.

Lemma at_server_left cap id w :
  at_server cap id w → (if bool_decide (cap = NAMESERV_EP) then holds w else delete cap (holds w)) = H0.
Proof using Hroot.
  intros (Hcap & -> & Hb). case_bool_decide as Hc.
  - subst cap id. by apply insert_id.
  - by rewrite delete_insert_id.
Qed.

Lemma resolve_hops_spec fuel comps : ∀ path pos cap id lead leaf s,
  Forall component comps → slash_free leaf → Z.of_nat (length path) < NAMESERV_PATH_MAXLEN →
  string_at path pos = Some (lead_slash lead (join_path comps leaf)) → (length comps < fuel)%nat →
  at_server cap id (cl_net s) →
  runs (resolve_hops fuel path pos cap) s (resolution path leaf (walk dir id comps)).
Proof using Hnet Hroot.
  revert comps. induction fuel as [|fuel IH]; intros comps path pos cap id lead leaf s Hcs Hleaf Hlen Hat Hfuel Hs; [lia|].
  cbn [resolve_hops]. rewrite Hat. apply runs_bind, runs_ret. rewrite check_join by done.
  assert (0 ≤ pos ≤ Z.of_nat (length path) ∧ take (Z.to_nat pos) path ++ lead_slash lead (join_path comps leaf) = path)
    as [Hpos Hpath].
  { revert Hat. unfold string_at. destruct (Z.leb_spec 0 pos); [|done].
    destruct (Z.leb_spec pos (Z.of_nat (length path))); [|done]. intros [= <-]. split; [lia|apply take_drop]. }
  destruct comps as [|c comps].
  - rewrite bool_decide_eq_true_2 by done. cbn [orb walk]. apply runs_bind, runs_ret. cbn [join_path foldr] in *.
    unfold resolved_at. apply runs_bind, runs_assert.
    { apply Z.ltb_lt. rewrite <- Hpath, length_app in Hlen. lia. }
    apply runs_bind, runs_assert; [apply Z.leb_le; lia|]. apply runs_bind, runs_modify. apply runs_ret.
    cbn. split_and!; try done. destruct lead; [done|]. destruct leaf as [|x leaf]; [done|]. cbn.
    by rewrite (proj2 (Z.eqb_neq x SLASH) (Forall_inv Hleaf)).
  - rewrite bool_decide_eq_false_2 by done. cbn [orb].
    apply Forall_cons in Hcs as [Hc Hcs]. pose proof Hs as (Hcap & Hh & Hb).
    pose proof (net_resolve dir holds Hnet cap id (lead_slash lead (join_path (c :: comps) leaf)) (cl_net s)) as Hr.
    rewrite Hh, lookup_insert_eq in Hr. specialize (Hr eq_refl ltac:(rewrite <- Hpath, length_app in Hlen; lia)).
    unfold nsv_resolve_segment. apply runs_bind, runs_bind, runs_gets.
    destruct (nsv_resolve_segment_internal _ _ _) as [[[nc n] e] w'] eqn:Hcall. apply runs_bind, runs_modify.
    cbn [walk]. destruct (dir id) as [m|].
    2:{ destruct Hr as [He Hw']. rewrite bool_decide_eq_true_2 by done. apply runs_bind, runs_modify. apply runs_ret. cbn [Z.eqb Z.compare].
        apply resolve_fails; [done|]. cbn. rewrite Hw', <- Hh. by apply (at_server_left cap id). }
    destruct Hr as (-> & -> & Hr). rewrite resolve_join in * by done. rewrite bool_decide_eq_false_2 by (intros H; by apply H).
    apply runs_bind, runs_modify. apply runs_ret. cbn [mbind option_bind]. destruct (m !! c) as [ep|]; cbn [fst snd] in *.
    2:{ cbn [Z.eqb Z.compare]. apply resolve_fails; [done|]. cbn. rewrite Hr, <- Hh. by apply (at_server_left cap id). }
    destruct Hr as (Hnc & Hfresh & Hw'). assert (0 < Z.of_nat (length c)) by (destruct Hc as [Hc _]; destruct c; cbn; [done|lia]).
    assert (0 ≤ b2z lead) by (destruct lead; done).
    rewrite (proj2 (Z.eqb_neq (b2z lead + _) NAMESERV_RESOLVED)) by (unfold NAMESERV_RESOLVED; lia).
    rewrite (proj2 (Z.eqb_neq (b2z lead + _) 0)) by lia. cbn [orb].
    apply runs_bind. eapply runs_mono; [by apply leave_server|]. cbv beta. intros _ s1 [_ Hh1]. cbn [cl_net] in Hh1.
    assert (holds (cl_net s1) = <[nc := ep]> H0) as Hs1.
    { rewrite Hh1, Hw'. rewrite lookup_insert_None in Hfresh. destruct Hfresh as [Hf Hne].
      case_bool_decide as Hcap'; [subst cap id; by rewrite (insert_id H0)|].
      by rewrite delete_insert_ne, delete_insert_id. }
    rewrite (proj2 (Z.eqb_neq nc 0)) by done. apply runs_bind, runs_ret.
    assert (string_at path (pos + (b2z lead + Z.of_nat (length c))) = Some (SLASH :: join_path comps leaf)) as Hn.
    { replace (b2z lead + Z.of_nat (length c)) with (Z.of_nat (length (lead_slash lead c))) by (destruct lead; cbn; lia).
      apply string_at_app. rewrite Hat. by destruct lead. }
    rewrite Hn. apply runs_bind, runs_ret. cbn [Z.eqb]. rewrite Z.eqb_refl.
    apply (IH comps path _ nc ep false leaf s1); try done; [|cbn in Hfuel; lia|].
    + apply (string_at_app path _ [SLASH]). exact Hn.
    + split; [done|]. split; [done|]. rewrite lookup_insert_None in Hfresh. destruct Hfresh as [Hf Hne].
      rewrite bool_decide_eq_false_2; [done|]. intros ->. congruence.
Qed.
End Resolution.

(** C23. Termination and functional correctness: a client that resolves a path of
    server names reaches the server that the names lead to, one hop for each,
    whatever the name servers have registered: the answer holds a capability to
    that server and the name that is left, the path is the prefix resolved and
    that name, and of the capabilities received on the way only this one is
    kept.  If a name on the way is not registered, or its server serves no
    names, the answer is that no server was found and no capability is kept. *)
Theorem nsv_resolve_walks `{rpc : NameRpc} dir holds lead comps leaf s root :
  NetOk dir holds → holds (cl_net s) !! NAMESERV_EP = Some root →
  Forall component comps → slash_free leaf →
  Z.of_nat (length (lead_slash lead (join_path comps leaf))) < NAMESERV_PATH_MAXLEN →
  ∃ r s', nsv_resolve (Some (lead_slash lead (join_path comps leaf))) s = Ok r s' ∧
    match walk dir root comps with
    | Some id =>
        success r = true ∧ nameservRoot r = NAMESERV_EP ∧
        nameservPathPrefix r ++ dspaceName r = lead_slash lead (join_path comps leaf) ∧
        strip_slash (dspaceName r) = leaf ∧ refos_errno s' = ESUCCESS ∧
        holds (cl_net s') = <[serverAnon r := id]> (holds (cl_net s)) ∧
        (serverAnon r = NAMESERV_EP ∨ holds (cl_net s) !! serverAnon r = None)
    | None => success r = false ∧ holds (cl_net s') = holds (cl_net s) ∧ refos_errno s' = ESERVERNOTFOUND
    end.
Proof.
  intros Hnet Hroot Hcs Hleaf Hlen. set (path := lead_slash lead (join_path comps leaf)) in *.
  assert (string_at path 0 = Some path) as Hat by (unfold string_at; by rewrite (proj2 (Z.leb_le 0 (Z.of_nat (length path)))) by lia).
  assert (length comps < S (length path))%nat as Hfuel.
  { assert (length comps <= length (join_path comps leaf))%nat; [|unfold path; destruct lead; cbn [lead_slash length]; lia].
    clear. unfold join_path. induction comps as [|c comps IH]; cbn [foldr length]; [lia|]. rewrite length_app. cbn [length]. lia. }
  destruct (resolve_hops_spec dir holds Hnet (holds (cl_net s)) root Hroot (S (length path)) comps path 0 NAMESERV_EP root
    lead leaf s Hcs Hleaf Hlen Hat Hfuel) as (r & s' & Hrun & Hres).
  { split; [done|]. split; [by rewrite insert_id|by rewrite bool_decide_eq_true_2]. }
  exists r, s'. split; [exact Hrun|]. revert Hres. unfold resolution, at_server. destruct (walk dir root comps) as [id|].
  - intros (? & (? & ? & Hb) & ? & ? & ? & ?). split_and!; try done. case_bool_decide; [by left|by right].
  - by intros (-> & ? & ?).
Qed.

(** ** A network of servers that use the library *)
Section Served.
Context (malloc_ok : Z → bool) (servers : Z → option nameserv_state_t).

(** A capability that the client does not hold. *)
Definition new_cap (w : gmap Z Z) : Z := fresh ({[0]} ∪ dom w).
(** A request to the server that a capability designates; where the server
    writes no capability, the client gets whatever was on its stack. *)
Definition served_segment (stack : Z) (cap : Z) (path : list Z) (w : gmap Z Z) : (Z * Z * refos_error) * gmap Z Z :=
  match (let? id := w !! cap in servers id) with
  | None => ((0, 0, EINVALID), w)
  | Some v =>
      match nameserv_resolve malloc_ok (Some path) (v, tt) with
      | Ok (n, Some ep) _ => ((new_cap w, n, ESUCCESS), <[new_cap w := ep]> w)
      | Ok (n, None) _ => ((stack, n, ESUCCESS), w)
      | _ => ((0, 0, EINVALID), w)
      end
  end.
Definition served (stack : Z) : NameRpc :=
  {| net := gmap Z Z; nsv_resolve_segment_internal := served_segment stack; proc_del_endpoint := delete |}.

Lemma served_ok (stack lim : Z) (dir : Z → option name_map) :
  65 ≤ lim ≤ 2 ^ 28 → (∀ n, 0 < n ≤ 8 * lim → malloc_ok n = true) →
  (∀ id, match servers id, dir id with Some v, Some m => registered lim v m | None, None => True | _, _ => False end) →
  NetOk (rpc:=served stack) dir id.
Proof using Type.
  intros Hlim Hmalloc Hdir. split; [|done]. intros cap i path w Hcap Hlen. cbn in *. unfold served_segment.
  rewrite Hcap. cbn [mbind option_bind]. specialize (Hdir i). destruct (servers i) as [v|], (dir i) as [m|]; try done.
  rewrite (nameserv_resolve_spec malloc_ok lim ltac:(lia) Hmalloc v m path tt Hdir) by (apply Z.leb_le; unfold NAMESERV_PATH_MAXLEN in *; lia).
  destruct (resolve_name m path) as [n [ep|]]; cbn; [|done]. split_and!; try done.
  - pose proof (is_fresh ({[0]} ∪ dom w : gset Z)) as Hf. unfold new_cap. intros H. rewrite H in Hf. set_solver.
  - apply not_elem_of_dom. pose proof (is_fresh ({[0]} ∪ dom w : gset Z)). unfold new_cap. set_solver.
Qed.
End Served.

(** The root has "a", server 10, which has "b", server 11, which has none. *)
Definition demo_servers (id : Z) : option nameserv_state_t :=
  if id =? 1 then Some (cvector [Some (NameservEntry [97] 10); None; None; None] 4 1 16)
  else if id =? 10 then Some (cvector [Some (NameservEntry [98] 11); None; None; None] 4 1 16)
  else None.
Definition demo_dir (id : Z) : option name_map :=
  if id =? 1 then Some {[ [97] := 10 ]} else if id =? 10 then Some {[ [98] := 11 ]} else None.
Lemma demo_served : NetOk (rpc:=served (λ _, true) demo_servers 99) demo_dir id.
Proof.
  apply (served_ok (λ _, true) demo_servers 99 100); [lia|done|]. intros i. unfold demo_servers, demo_dir.
  destruct (i =? 1); [|destruct (i =? 10); [|done]].
  - exists [([97], 10)]. split_and!; try done; [split; cbn; try lia; by exists [None; None; None]|apply NoDup_singleton|].
    intros H%list_elem_of_singleton. done.
  - exists [([98], 11)]. split_and!; try done; [split; cbn; try lia; by exists [None; None; None]|apply NoDup_singleton|].
    intros H%list_elem_of_singleton. done.
Qed.
Definition demo_client : client (rpc:=served (λ _, true) demo_servers 99) :=
  @Client (served (λ _, true) demo_servers 99) {[3 := 1]} ESUCCESS.
Lemma nsv_resolve_walks_witness :
  ∃ r s', nsv_resolve (rpc:=served (λ _, true) demo_servers 99) (Some [47; 97; 47; 98; 47; 120]) demo_client = Ok r s' ∧
    success r = true ∧ nameservRoot r = NAMESERV_EP ∧ nameservPathPrefix r ++ dspaceName r = [47; 97; 47; 98; 47; 120] ∧
    strip_slash (dspaceName r) = [120] ∧ refos_errno s' = ESUCCESS ∧
    cl_net s' = <[serverAnon r := 11]> {[3 := 1]} ∧
    (serverAnon r = NAMESERV_EP ∨ ({[3 := 1]} : gmap Z Z) !! serverAnon r = None).
Proof.
  apply (@nsv_resolve_walks (served (λ _, true) demo_servers 99) demo_dir id true [[97]; [98]] [120] demo_client 1 demo_served).
  - done.
  - by repeat constructor.
  - by repeat constructor.
  - done.
Defined.

(** ** The process server's registrations *)

(** What processes ask: a registration comes with a message and an endpoint. *)
Inductive name_call : Type :=
| Register (m : procserv_msg) (name : list Z) (ep : Z)
| Unregister (name : list Z)
| ResolveSegment (path : list Z).
Definition name_answer : Type := refos_error * option (Z * Z).

Section NameCalls.
Context {E : Env} (Hmalloc : ∀ n, 0 < n ≤ 8 * table_lim → malloc_ok n = true).
Context (Hcopy : ∀ slot c e, (vka_cnode_copy slot c e).1 = true).

Definition name_call_step (c : name_call) : P name_answer :=
  match c with
  | Register m name ep => let! e := nsv_register_handler m (Some name) ep in kret (e, None)
  | Unregister name => let! e := nsv_unregister_handler (Some name) in kret (e, None)
  | ResolveSegment path =>
      let! ' (cap, n, e) := nsv_resolve_segment_internal_handler (Some path) in kret (e, (λ n, (n, cap)) <$> n)
  end.
Fixpoint name_call_steps (cs : list name_call) : P (list name_answer) :=
  match cs with
  | [] => kret []
  | c :: cs => let! r := name_call_step c in let! rs := name_call_steps cs in kret (r :: rs)
  end.

(** What a call does to the map and may answer. *)
Inductive name_call_ok (m : name_map) : name_call → name_answer → name_map → Prop :=
| register_ok msg name ep slot :
    name ≠ [] → slot ≠ 0 → name_call_ok m (Register msg name ep) (ESUCCESS, None) (<[name := slot]> m)
| register_refused msg name ep e : e ≠ ESUCCESS → name_call_ok m (Register msg name ep) (e, None) m
| unregister_ok name : name_call_ok m (Unregister name) (ESUCCESS, None) (delete name m)
| resolve_ok path cap :
    (∀ ep, (resolve_name m path).2 = Some ep → cap = ep) →
    name_call_ok m (ResolveSegment path) (ESUCCESS, Some ((resolve_name m path).1, cap)) m.
Inductive name_calls_ok : name_map → list name_call → list name_answer → name_map → Prop :=
| calls_none m : name_calls_ok m [] [] m
| calls_more m c r m1 cs rs m2 :
    name_call_ok m c r m1 → name_calls_ok m1 cs rs m2 → name_calls_ok m (c :: cs) (r :: rs) m2.

(** Only the registrations and the environment changed. *)
Definition names_only (s s' : procserv) : Prop :=
  ∃ v e, s' = upd_ps_env e (upd_nameServRegList v s).
Lemma names_only_trans s1 s2 s3 : names_only s1 s2 → names_only s2 s3 → names_only s1 s3.
Proof using Type. intros (v & e & ->) (v' & e' & ->). by exists v', e'. Qed.

Lemma with_nameserv_runs {A} (op : NS (W:=env) A) s Q :
  runs op (nameServRegList s, ps_env s) (λ a p, Q a (upd_ps_env p.2 (upd_nameServRegList p.1 s))) →
  runs (with_nameserv op) s Q.
Proof using Type. intros (a & [v e] & Hop & HQ). exists a. eexists. unfold with_nameserv. by rewrite Hop. Qed.

Lemma table_lim_range : 16 ≤ table_lim ≤ 2 ^ 28.
Proof using Type. done. Qed.

Definition names_ok (m : name_map) (s : procserv) : Prop := registered table_lim (nameServRegList s) m.
Definition short (c : name_call) : bool :=
  match c with Register _ s _ | ResolveSegment s => fits table_lim s | Unregister _ => true end.

Lemma register_step s m msg name ep :
  names_ok m s → fits table_lim name = true → Z.of_nat (size m) < table_lim →
  runs (nsv_register_handler msg (Some name) ep) s (λ e s', ∃ m', names_ok m' s' ∧
    name_call_ok m (Register msg name ep) (e, None) m' ∧ names_only s s').
Proof using Hmalloc Hcopy.
  intros Hm Hfit Hsz. unfold nsv_register_handler.
  assert (∀ e s', e ≠ ESUCCESS → (∃ env', s' = upd_ps_env env' s) → ∃ m', names_ok m' s' ∧
    name_call_ok m (Register msg name ep) (e, None) m' ∧ names_only s s') as Hno.
  { intros e s' He [env' ->]. exists m. split; [done|]. split; [by constructor|]. by exists (nameServRegList s), env'. }
  destruct (negb _); [apply runs_ret, Hno; [done|by exists (ps_env s); destruct s]|].
  apply runs_bind. eapply runs_mono; [by apply copyout_env|]. cbv beta. intros slot s1 [e1 ->].
  destruct (Z.eqb_spec slot 0) as [|Hslot]; [by apply runs_ret, Hno; [|exists e1]|].
  apply runs_bind, with_nameserv_runs. cbn [nameServRegList ps_env upd_ps_env].
  eapply runs_mono; [by apply (nameserv_add_spec malloc_ok table_lim table_lim_range Hmalloc _ _ m name slot e1)|].
  cbv beta. intros e [v w] (Hr & Hw & He). unfold add_name in *. rewrite (proj2 (Z.eqb_neq slot 0)) in * by done.
  assert (m !! [] = None) as Hnil.
  { destruct Hm as (l & _ & _ & -> & Hn). by apply not_elem_of_list_to_map_1. }
  case_bool_decide as Hname; cbn [fst snd] in *; subst e w.
  - subst name. rewrite bool_decide_eq_false_2 by done. cbn [negb]. unfold delete_name in *. cbn [fst snd] in *. rewrite Hnil in *.
    cbn [fst snd] in Hr. unfold dispatcher_release_copyout_cptr. rewrite (proj2 (Z.eqb_neq slot 0)) by done.
    apply runs_bind. eapply runs_mono with (λ _ s', ∃ env', s' = upd_ps_env env' (upd_nameServRegList v s)).
    { unfold release_slot. repeat first [apply runs_bind, runs_modify|apply runs_modify]. by eexists. }
    cbv beta. intros _ s' [env' ->]. apply runs_ret. exists m. split; [done|]. split; [by constructor|]. by exists v, env'.
  - rewrite bool_decide_eq_true_2 by done. apply runs_ret. exists (<[name := slot]> m). split_and!.
    + unfold names_ok. cbn [nameServRegList upd_ps_env upd_nameServRegList].
      assert (<[name := slot]> m = <[name := slot]> (delete_name procserv_nameserv_callback_free_cap name (m, e1)).1) as ->; [|exact Hr].
      unfold delete_name. cbn [fst snd]. destruct (m !! name); cbn [fst]; [by rewrite insert_delete_eq|done].
    + by constructor.
    + by eexists _, _.
Qed.

Lemma name_call_rep s m c :
  names_ok m s → short c = true → Z.of_nat (size m) < table_lim →
  runs (name_call_step c) s (λ r s', ∃ m', names_ok m' s' ∧ name_call_ok m c r m' ∧ names_only s s').
Proof using Hmalloc Hcopy.
  intros Hm Hfit Hsz. destruct c as [msg name ep|name|path]; cbn [name_call_step short] in *.
  - apply runs_bind. eapply runs_mono; [by apply register_step|]. cbv beta. intros e s' H. by apply runs_ret.
  - unfold nsv_unregister_handler. apply runs_bind, runs_bind, with_nameserv_runs.
    eapply runs_mono; [by apply (nameserv_delete_spec malloc_ok table_lim table_lim_range Hmalloc _ _ m name)|].
    cbv beta. intros _ [v w] [Hr Hw]. apply runs_ret, runs_ret. exists (delete name m). split_and!.
    + unfold names_ok. cbn. unfold delete_name in Hr. cbn [fst snd] in Hr. destruct (m !! name) eqn:Hn; [done|].
      by rewrite delete_id.
    + constructor.
    + by eexists _, _.
  - unfold nsv_resolve_segment_internal_handler. apply runs_bind, runs_bind, with_nameserv_runs.
    eapply runs_Ok; [by apply (nameserv_resolve_spec malloc_ok table_lim table_lim_range Hmalloc _ m)|].
    destruct (resolve_name m path) as [n out] eqn:Hres. cbv beta iota. apply runs_bind, runs_gets. apply runs_ret, runs_ret.
    exists m. split; [done|]. split; [|by eexists _, _]. cbn [fmap option_fmap option_map].
    replace n with (resolve_name m path).1 at 1 by by rewrite Hres. constructor. rewrite Hres. by intros ep [= ->].
Qed.
End NameCalls.


(** A process registers "a", and others resolve paths. *)
Definition demo_calls : list name_call :=
  [Register (Msg 0 0 1 0) [97] 9; ResolveSegment [47; 97; 47; 120]; Unregister [97]; ResolveSegment [97; 47]].
