(* ===== verification/ShareTheorems.v ===== *)
(** * Messages from the process server to a server

    The two ends of a shared ring together: what the process server writes with
    [rb_write] is what a server reads with [refos_share_read], in order; and the
    loop over notifications hands every one that is in the ring to its callback. *)

From S2P Require Import Prelude.
From S2P Require Import Word32.
From S2P Require Import DataStruct.
From S2P Require Import WindowAssoc.
From S2P Require Import Procserv.
From S2P Require Import Dataspace.
From S2P Require Import DataspaceInv.
From S2P Require Import Memserv.
From S2P Require Import RingBuffer.
From S2P Require Import RingBufferInv.
From S2P Require Import DataspaceTheorems.
From S2P Require Import Proc.
From S2P Require Import Share.

(** ** Reading *)

(** A ring with the queue [q], which starts at the reader's position. *)
Record ring_ok (c q : list Z) (n st en : nat) : Prop := {
  ri_length : length c = (8 + n)%nat;
  ri_bound : Z.of_nat n ≤ 2 ^ 31;
  ri_end : word_at 4 c = Z.of_nat en;
  ri_range : (st < n ∧ en < n)%nat;
  ri_queue : q = ring_queue n (ring_of c) st (dist n st en)
}.

Lemma load_Some c off len :
  0 ≤ off → 0 ≤ len → off + len ≤ Z.of_nat (length c) →
  load c off len = Some (take (Z.to_nat len) (drop (Z.to_nat off) c)).
Proof. intros. unfold load. by rewrite !(proj2 (Z.leb_le _ _)) by lia. Qed.

Lemma store_bytes_Some c off b :
  0 ≤ off → off + Z.of_nat (length b) ≤ Z.of_nat (length c) →
  store_bytes c off b = Some (list_inserts (Z.to_nat off) b c).
Proof. intros. unfold store_bytes. by rewrite !(proj2 (Z.leb_le _ _)) by lia. Qed.

(** Part of the ring, without going round. *)
Lemma load_ring c n a m :
  length c = (8 + n)%nat → (a + m ≤ n)%nat →
  load c (SHARE_METADATA_SIZE + Z.of_nat a) (Z.of_nat m) = Some (ring_queue n (ring_of c) a m).
Proof.
  intros Hl Ha. unfold SHARE_METADATA_SIZE. rewrite load_Some by lia. f_equal.
  replace (Z.to_nat (8 + Z.of_nat a)) with (8 + a)%nat by lia. rewrite Nat2Z.id, <- drop_drop.
  apply ring_queue_nowrap; [|lia]. unfold ring_of. rewrite length_drop. lia.
Qed.

Definition read_word_at (c : list Z) (x : Z) : list Z := list_inserts 0 (bytes_of_word x) c.

Lemma share_read_spec c q n st en len :
  ring_ok c q n st en →
  let k := Nat.min len (length q) in
  refos_share_read (Z.of_nat len) c (Z.of_nat (length c)) (Z.of_nat st) =
    Some (0, read_word_at c (Z.of_nat (wrap n (st + k))), Z.of_nat (wrap n (st + k)), take len q) ∧
  ring_ok (read_word_at c (Z.of_nat (wrap n (st + k)))) (drop len q) n (wrap n (st + k)) en.
Proof.
  intros [Hl Hn Hen Hr Hq] k. assert (length q = dist n st en) as Hlq by (rewrite Hq; apply ring_queue_length).
  pose proof (dist_lt n st en ltac:(lia) ltac:(lia)) as Hd.
  pose proof (wrap_lt n (st + k) ltac:(lia) ltac:(lia)) as Hw. split.
  - unfold refos_share_read, refos_share_get_end. rewrite load_Some by lia.
    change (word_of_bytes <$> Some (take (Z.to_nat 4) (drop (Z.to_nat 4) c))) with (Some (word_at 4 c)).
    rewrite Hen. cbn [mbind option_bind]. rewrite Hl.
    assert (w32 (Z.of_nat (8 + n) - SHARE_METADATA_SIZE) = Z.of_nat n) as ->.
    { unfold SHARE_METADATA_SIZE. rewrite w32_id by (unfold is_w32; lia). lia. }
    unfold refos_share_validate_params, SHARE_METADATA_SIZE at 1.
    rewrite (proj2 (Z.ltb_ge _ (8 + 1))) by lia. rewrite !(proj2 (Z.ltb_ge (Z.of_nat (8 + n)) _)) by lia. cbn [orb Z.eqb negb].
    match goal with |- (let? dest := ?e in _) = _ => assert (e = Some (take len q)) as -> end.
    + unfold dist in *. case_decide as Hab.
      * rewrite (proj2 (Z.leb_le _ _)) by lia.
        replace (Z.min (Z.of_nat en - Z.of_nat st) (Z.of_nat len)) with (Z.of_nat (Nat.min (en - st) len)) by lia.
        rewrite (load_ring c n) by lia. f_equal. rewrite Hq.
        destruct (Nat.le_ge_cases len (en - st)).
        -- rewrite Nat.min_r by lia. by apply ring_queue_take.
        -- rewrite Nat.min_l, take_ge by (rewrite ?ring_queue_length; lia). done.
      * rewrite (proj2 (Z.leb_gt _ _)) by lia. rewrite w32_id by (unfold is_w32; lia).
        replace (Z.min (Z.of_nat n - Z.of_nat st) (Z.of_nat len)) with (Z.of_nat (Nat.min (n - st) len)) by lia.
        set (m1 := Nat.min (n - st) len). rewrite (load_ring c n) by lia. cbn [mbind option_bind].
        replace (Z.min (Z.of_nat len - Z.of_nat m1) (Z.of_nat en)) with (Z.of_nat (Nat.min (len - m1) en)) by lia.
        set (m2 := Nat.min (len - m1) en).
        assert (take len q = ring_queue n (ring_of c) st (m1 + m2)) as ->.
        { rewrite Hq. destruct (Nat.le_ge_cases len (en + n - st)).
          - rewrite <- ring_queue_take by lia. f_equal. lia.
          - rewrite take_ge by (rewrite ring_queue_length; lia). f_equal. lia. }
        destruct (Z.ltb_spec 0 (Z.of_nat m2)) as [Hm2|Hm2].
        -- pose proof (load_ring c n 0 m2 Hl ltac:(lia)) as Hload. rewrite Z.add_0_r in Hload. rewrite Hload.
           cbn [mbind option_bind]. f_equal. rewrite ring_queue_app by lia. do 2 f_equal. unfold wrap. case_decide; lia.
        -- do 2 f_equal. lia.
    + cbn [mbind option_bind]. rewrite length_take. change (Nat.min len (length q)) with k.
      rewrite <- Nat2Z.inj_add, w32_id, wrap_mod by (unfold is_w32; lia).
      rewrite store_bytes_Some by (cbn; lia). done.
  - unfold read_word_at. split; [by rewrite length_inserts|done|by rewrite word_at_inserts_lt by (cbn; lia)|lia|].
    assert (dist n (wrap n (st + k)) en = dist n st en - k)%nat as Hd'.
    { unfold dist, wrap in *. repeat case_decide; lia. }
    unfold ring_of. rewrite drop_inserts_lt by (cbn; lia). fold (ring_of c). rewrite Hd'.
    destruct (Nat.le_ge_cases len (length q)) as [Hle|Hge].
    + assert (k = len) as -> by lia. rewrite Hq. replace (dist n st en) with (len + (dist n st en - len))%nat at 1 by lia.
      rewrite ring_queue_app by lia. rewrite drop_app_ge by (rewrite ring_queue_length; lia).
      by rewrite ring_queue_length, Nat.sub_diag.
    + rewrite drop_ge by done. assert (k = dist n st en) as -> by lia. by rewrite Nat.sub_diag.
Qed.

(** ** The two ends of a shared ring *)
Inductive shared_op : Type := SWrite (str : list Z) | SRead (len : nat).

Section Shared.
Context {E : Env}.

(** The server's mapping of the dataspace is its contents; what the library
    leaves in the mapping is in the dataspace. *)
Definition share_read (p start : Z) (len : nat) : P (Z * Z * list Z) :=
  let! c := gets (λ s, contents_of s p) in
  let! ' (error, c, start, b) := kopt (refos_share_read (Z.of_nat len) c (Z.of_nat (length c)) start) in
  let! e := ram_dspace_write c (Z.of_nat (length c)) p 0 in
  kassert (bool_decide (e = ESUCCESS)) ;;;
  kret (error, start, b).

(** The process server, its end of the ring, and the reader's position. *)
Definition shared_step (s : procserv * rb_buffer * Z) (o : shared_op) :
    option ((procserv * rb_buffer * Z) * (refos_error + Z * list Z)) :=
  let '(s, buf, start) := s in
  match o with
  | SWrite str =>
      match rb_write buf str (Z.of_nat (length str)) s with
      | Ok (e, buf) s => Some ((s, buf, start), inl e) | _ => None end
  | SRead len =>
      match share_read (rb_dataspace buf) start len s with
      | Ok (e, start, b) s => Some ((s, buf, start), inr (e, b)) | _ => None end
  end.
End Shared.

(** The queue: a write needs room, a read takes what there is. *)
Definition queue_step (n : nat) (q : list Z) (o : shared_op) : option (list Z * (refos_error + Z * list Z)) :=
  match o with
  | SWrite str =>
      Some (if decide (length q + length str < n)%nat then (q ++ str, inl ESUCCESS) else (q, inl ENOMEM))
  | SRead len => Some (drop len q, inr (0, take len q))
  end.

Section SharedRefinement.
Context {E : Env} `{HE : !EnvOk} {HP : EnvPlenty} (n : nat) (Hn : Z.of_nat n ≤ 2 ^ 31).

Definition shared_rel (s : procserv * rb_buffer * Z) (q : list Z) : Prop :=
  ∃ c st ls en, view s.1.1 (rb_dataspace s.1.2) c ∧ writer_ok s.1.2 c q n st ls en ∧ s.2 = Z.of_nat st.

Lemma share_read_rep s buf c q st ls en len :
  view s (rb_dataspace buf) c → writer_ok buf c q n st ls en →
  runs (share_read (rb_dataspace buf) (Z.of_nat st) len) s (λ r s',
    ∃ c' st', r = (0, Z.of_nat st', take len q) ∧ view s' (rb_dataspace buf) c' ∧ writer_ok buf c' (drop len q) n st' ls en).
Proof using Type*.
  intros Hv [H1 H2 H3 H4 H5 H6 H7 H8 H9 H10]. pose proof (view_bound s _ c Hv) as Hbd.
  assert (ring_ok c q n st en) as Hring by (split; [done|done|done|lia|done]).
  destruct (share_read_spec c q n st en len Hring) as [Hrd Hring']. set (k := Nat.min len (length q)) in *.
  unfold share_read. apply runs_bind, runs_gets. pose proof Hv as (_ & _ & ->). rewrite Hrd. apply runs_bind, runs_ret.
  assert (length (read_word_at c (Z.of_nat (wrap n (st + k)))) = length c) as Hlc by apply length_inserts.
  apply runs_bind. eapply runs_mono; [apply (view_write s _ c); [done|lia|lia|lia|lia]|]. cbv beta.
  intros e s' (-> & Hv' & _). rewrite bool_decide_true by done. apply runs_bind, runs_ret, runs_ret.
  rewrite take_ge in Hv' by lia. change (Z.to_nat 0) with 0%nat in Hv'.
  assert (list_inserts 0 (read_word_at c (Z.of_nat (wrap n (st + k)))) c = read_word_at c (Z.of_nat (wrap n (st + k)))) as Hall.
  { apply list_eq. intros i. destruct (Nat.lt_ge_cases i (length c)).
    - rewrite list_lookup_inserts by lia. by rewrite Nat.sub_0_r.
    - rewrite !lookup_ge_None_2; [done|lia|rewrite length_inserts; lia]. }
  rewrite Hall in Hv'. eexists _, (wrap n (st + k)). split; [done|]. split; [exact Hv'|].
  destruct Hring' as [G1 G2 G3 G4 G5]. assert (length q = dist n st en) as Hq by (rewrite H10; apply ring_queue_length).
  split; try done.
  - apply word_at_inserts; [lia|unfold is_w32; lia].
  - lia.
  - assert (dist n (wrap n (st + k)) en = dist n st en - k)%nat by (unfold dist, wrap in *; repeat case_decide; lia). lia.
Qed.

#[local] Instance shared_refines : Refines shared_step (queue_step n) shared_rel.
Proof using Type*.
  intros [[s buf] start] q o q' r (c & st & ls & en & Hv & Hw & Hst) Hstep. cbn [fst snd] in *. subst start.
  destruct o as [str|len]; cbn [queue_step] in Hstep; cbn [shared_step]; injection Hstep as Hstep.
  - destruct (rb_write_rep s c q buf n st ls en str Hv Hw Hn)
      as ([e b] & s' & -> & _ & Hp & c' & ls' & Hv' & Hr). cbn [fst snd] in *.
    exists (s', b, Z.of_nat st). unfold shared_rel. cbn [fst snd]. rewrite Hp.
    case_decide; injection Hstep as <- <-.
    + destruct Hr as [-> Hw']. split; [done|]. eauto 8.
    + destruct Hr as (-> & -> & Hw'). split; [done|]. eauto 8.
  - subst r q'.
    destruct (share_read_rep s buf c q st ls en len Hv Hw) as (r1 & s' & -> & c' & st' & -> & Hv' & Hw').
    eexists. split; [done|]. unfold shared_rel. cbn. eauto 8.
Qed.

(** C14. Refinement: the ring between the process server and a server is a queue
    of bytes.  Any sequence of writes by the process server ([rb_write]) and
    reads by the server ([refos_share_read]), in any order and of any lengths,
    gives the results of a queue of at most [n - 1] bytes, [n] the size of the
    ring: a write is refused exactly when the queue has no room for it, a read
    takes the oldest bytes, as many as asked for or all there are. *)
Theorem shared_ring_refines_queue s buf start q ops q' rs :
  shared_rel (s, buf, start) q → run_ops (queue_step n) q ops = Some (q', rs) →
  ∃ s', run_ops shared_step (s, buf, start) ops = Some (s', rs) ∧ shared_rel s' q'.
Proof using Type*. apply refines_run; exact _. Qed.
End SharedRefinement.

Definition shared_ops : list shared_op :=
  [SWrite (repeat 1 4080); SRead 4000; SWrite (repeat 2 4000); SWrite [3; 4; 5; 6; 7; 8; 9; 10]; SRead 36].
Lemma shared_ring_refines_queue_witness :
  ∃ s', run_ops shared_step (two_dspaces, demo_writer, 0) shared_ops =
    Some (s', [inl ESUCCESS; inr (0, repeat 1 4000); inl ESUCCESS; inl ENOMEM; inr (0, repeat 1 36)]).
Proof.
  destruct (shared_ring_refines_queue 4088 ltac:(done) two_dspaces demo_writer 0 [] shared_ops
    (repeat 1 44 ++ repeat 2 4000) [inl ESUCCESS; inr (0, repeat 1 4000); inl ESUCCESS; inl ENOMEM; inr (0, repeat 1 36)])
    as (s' & H & _).
  - exists (repeat 0 4096), 0%nat, 0%nat, 0%nat. split_and!; [|split; try lia; by vm_compute|done].
    split; [exact two_dspaces_ok|]. split; [by exists (blank_dspace 2 1)|by vm_compute].
  - by vm_compute.
  - by exists s'.
Defined.

(** ** Notifications *)
Definition notification_words (n : notification_t) : list Z := magic n :: label n :: arg n.
Definition encode (n : notification_t) : list Z := concat (bytes_of_word <$> notification_words n).
(** A notification as the process server writes it ([proc_notification]). *)
Record notification_ok (n : notification_t) : Prop := {
  nt_magic : magic n = PROCSERV_NOTIFICATION_MAGIC;
  nt_label : label n = PROCSERV_NOTIFY_FAULT_DELEGATION ∨ label n = PROCSERV_NOTIFY_CONTENT_INIT ∨
             label n = PROCSERV_NOTIFY_DEATH;
  nt_args : length (arg n) = 7%nat;
  nt_words : Forall is_w32 (arg n)
}.

Lemma words_of_concat ws rest :
  Forall is_w32 ws → words_of (length ws) (concat (bytes_of_word <$> ws) ++ rest) = ws.
Proof.
  induction 1 as [|w ws Hw _ IH]; [done|]. cbn [length words_of fmap list_fmap concat]. rewrite <- app_assoc.
  rewrite take_app_length' by done. rewrite drop_app_length' by done. by rewrite IH, word_of_bytes_of_word.
Qed.

Lemma encode_length n : notification_ok n → length (encode n) = 36%nat.
Proof.
  intros [_ _ Ha _]. unfold encode, notification_words. destruct (arg n) as [|? [|? [|? [|? [|? [|? [|? []]]]]]]]; done.
Qed.

Lemma notification_of_encode n : notification_ok n → notification_of (encode n) = Some n.
Proof.
  intros [Hm Hl Ha Hw]. unfold notification_of. rewrite <- (app_nil_r (encode n)).
  assert (9%nat = length (notification_words n)) as -> by (cbn; lia). unfold encode. rewrite words_of_concat; [by destruct n|].
  constructor; [by rewrite Hm|]. constructor; [|done]. by destruct Hl as [-> | [-> | ->]].
Qed.

Section Delivery.
Context {T : Type} (malloc_ok : Z → bool) (fault content death : notification_t → M T Z).
Definition all_callbacks : srv_common_notify_handler_callbacks_t T := Callbacks (Some fault) (Some content) (Some death).

(** The callback of a notification. *)
Definition callback (n : notification_t) : M T Z :=
  if label n =? PROCSERV_NOTIFY_FAULT_DELEGATION then fault n
  else if label n =? PROCSERV_NOTIFY_CONTENT_INIT then content n
  else death n.
Definition deliver (ns : list notification_t) : M T unit := kfor ns (λ n, callback n ;;; kret tt).

Lemma dispatch_label_callback n : notification_ok n → ∃ h, dispatch_label all_callbacks n = Some h ∧ h n = callback n.
Proof using Type. intros [_ Hl _ _]. unfold dispatch_label, callback. destruct Hl as [-> | [-> | ->]]; by eexists. Qed.

Lemma loop_delivers ns : ∀ fuel c n st en t t',
  Forall notification_ok ns → ring_ok c (concat (encode <$> ns)) n st en → (length ns < fuel)%nat →
  deliver ns t = Ok tt t' →
  ∃ c', notification_loop all_callbacks fuel (NotifyState c (Z.of_nat st) t) = Ok 0 (NotifyState c' (Z.of_nat en) t') ∧
    ring_ok c' [] n en en.
Proof using Type.
  induction ns as [|x ns IH]; intros fuel c n st en t t' Hns Hring Hfuel Hd; (destruct fuel as [|fuel]; [lia|]);
    cbn [notification_loop]; destruct (share_read_spec c _ n st en 36 Hring) as [Hrd Hring'];
    unfold kbind at 1, gets, id; cbn [notifyBuffer notifyBufferStart];
    change sizeof_proc_notification with (Z.of_nat 36); rewrite Hrd; unfold kbind at 1; cbn [kopt kret].
  - cbn in Hd. injection Hd as <-. cbn [fmap list_fmap concat length Nat.min take drop] in *.
    pose proof Hring as [_ _ _ Hr Hq]. assert (dist n st en = 0)%nat as Hd0 by (by apply (f_equal length) in Hq; rewrite ring_queue_length in Hq).
    assert (st = en) as <- by (unfold dist in Hd0; case_decide; lia). rewrite Nat.add_0_r in *.
    assert (wrap n st = st) as Hw by (unfold wrap; case_decide; lia). rewrite Hw in *.
    eexists. split; [reflexivity|]. exact Hring'.
  - apply Forall_cons in Hns as [Hx Hns]. cbn [fmap list_fmap concat] in *.
    pose proof (encode_length x Hx) as Hlx. rewrite length_app, Hlx in *.
    rewrite take_app_length', drop_app_length' in * by done.
    unfold kbind at 1, modify. cbn [srv_state]. rewrite Hlx. cbn [Z.eqb Z.of_nat andb orb negb Pos.of_succ_nat Pos.succ Pos.eqb].
    rewrite notification_of_encode by done. unfold kbind at 1. cbn [kopt kret].
    rewrite (nt_magic x Hx), Z.eqb_refl. unfold kbind at 1, kassert, kret.
    destruct (dispatch_label_callback x Hx) as (h & -> & Hh). unfold kbind at 1. cbn [kopt kret].
    unfold deliver in Hd. cbn [kfor] in Hd. unfold kbind at 1 in Hd. unfold kbind at 1 in Hd.
    destruct (callback x t) as [a t1| |] eqn:Hc; try done. cbn [kret] in Hd.
    unfold kbind at 1, on_state. change (Z.of_nat 36 =? 0) with false. cbn [negb].
    rewrite Z.eqb_refl. cbn [srv_state]. rewrite Hh, Hc. cbn [notifyBuffer notifyBufferStart].
    cbn [length] in Hfuel. replace (Nat.min 36 (36 + length (concat (encode <$> ns)))) with 36%nat in * by lia.
    apply (IH fuel _ n _ en t1 t' Hns Hring'); [lia|exact Hd].
Qed.
End Delivery.

(** C15. Liveness and functional correctness: the loop over the notifications of
    a server hands every notification in the ring to the callback of its label,
    once, in the order in which the process server wrote them, and then finds
    the ring empty and returns 0 (whatever the callbacks answered: their errors
    are lost, where the code means to report the last). *)
Theorem notifications_delivered {T} malloc_ok (fault content death : notification_t → M T Z) ns c n st en t t' :
  malloc_ok sizeof_proc_notification = true → Forall notification_ok ns →
  ring_ok c (concat (encode <$> ns)) n st en → deliver fault content death ns t = Ok tt t' →
  ∃ c', srv_dispatch_notification malloc_ok (all_callbacks fault content death) (NotifyState c (Z.of_nat st) t) =
      Ok 0 (NotifyState c' (Z.of_nat en) t') ∧ ring_ok c' [] n en en.
Proof.
  intros Hm Hns Hring Hd. unfold srv_dispatch_notification. rewrite Hm. cbn [negb].
  apply (loop_delivers fault content death ns _ c n st en t t'); [done|done| |done].
  pose proof Hring as [Hl _ _ Hr Hq]. cbn [notifyBuffer]. pose proof (dist_lt n st en ltac:(lia) ltac:(lia)) as Hdl.
  apply (f_equal length) in Hq. rewrite ring_queue_length in Hq.
  assert (length ns ≤ length (concat (encode <$> ns)))%nat; [|unfold id; cbn [notifyBuffer]; lia].
  clear -Hns. induction Hns as [|x ns Hx _ IH]; [done|]. cbn [fmap list_fmap concat length]. rewrite length_app, encode_length by done. lia.
Qed.

(** Two notifications in a ring of 100 bytes, the second round its end. *)
Definition demo_notes : list notification_t :=
  [Notification PROCSERV_NOTIFICATION_MAGIC 2 [7; 0; 0; 0; 0; 0; 0];
   Notification PROCSERV_NOTIFICATION_MAGIC 0 [1; 4096; 8192; 8192; 0; 3; 0]].
Definition demo_ring : list Z :=
  bytes_of_word 40 ++ bytes_of_word 12 ++ ring_write 100 (repeat 0 100) 40 (concat (encode <$> demo_notes)).
Lemma notifications_delivered_witness :
  ∃ c', srv_dispatch_notification (λ _, true)
      (all_callbacks (λ n, modify (cons (0, arg n)) ;;; kret 0) (λ n, modify (cons (1, arg n)) ;;; kret 0)
         (λ n, modify (cons (2, arg n)) ;;; kret (-2)))
      (NotifyState demo_ring 40 []) =
    Ok 0 (NotifyState c' 12 [(0, [1; 4096; 8192; 8192; 0; 3; 0]); (2, [7; 0; 0; 0; 0; 0; 0])]) ∧ ring_ok c' [] 100 12 12.
Proof.
  apply (notifications_delivered (λ _, true) _ _ _ demo_notes demo_ring 100 40 12 []).
  - reflexivity.
  - repeat constructor; try (by vm_compute); right; right; reflexivity.
  - split; [reflexivity|done|reflexivity|lia|by vm_compute].
  - reflexivity.
Defined.
