(* ===== verification/DevicesTheorems.v ===== *)
(** * Theorems on the timer and the console servers

    Who waits is answered: every sleeper whose time has come, in the order in
    which they went to sleep; and those who wait for a character in the order in
    which they asked, as long as there are characters.  Clients that die while
    they wait are not forgotten, which the console server does not survive. *)

From S2P Require Import Prelude.
From S2P Require Import Word32.
From S2P Require Import DataStruct.
From S2P Require Import DataVec.
From S2P Require Import WindowAssoc.
From S2P Require Import Share.
From S2P Require Import Servlib.
From S2P Require Import Devices.

Section Waiting.
Context {SE : ServerEnv} {DE : DeviceEnv}.
Context (lim : Z) (Hlim : 16 ≤ lim ≤ 2 ^ 28) (Hmalloc : ∀ n, 0 < n ≤ 8 * lim → heap_ok n = true).

Section Server.
Context {D W : Type} (reply client : W → Z).

(** The structures [ws], with their addresses, wait in this order: the clients
    live, and the slots of their replies have room in the free list. *)
Record waiting (s : dev_server D W) (ws : list (Z * W)) : Prop := {
  wt_list : vrep lim (waiterList s) ws.*1;
  wt_nodup : NoDup ws.*1;
  wt_heap p w : (p, w) ∈ ws → waiters s !! p = Some w;
  wt_caps p w : (p, w) ∈ ws → reply w ≠ 0 ∧ client w ≠ 0;
  wt_clients p w : (p, w) ∈ ws → is_Some (ct_clients (dv_common s) !! client w);
  wt_slots : 0 ≤ cspaceFreeListNum (srv_cspace (dv_common s)) ∧
    cspaceFreeListNum (srv_cspace (dv_common s)) + Z.of_nat (length ws) ≤
      Z.of_nat (length (cspaceFreeList (srv_cspace (dv_common s))))
}.

(** The answer to one of them, with [answer]. *)
Definition freed (slot : Z) (c : cspace_t) : cspace_t :=
  Cspace (<[Z.to_nat (cspaceFreeListNum c) := slot]> (cspaceFreeList c)) (cspaceFreeListNum c + 1).
Definition answered_common (slot : Z) (answer : senv → senv) (c : srv_common) : srv_common :=
  upd_srv_cspace (freed slot (srv_cspace c)) (upd_srv_env (cnode_delete slot (answer (srv_env c))) c).

Lemma csfree_room c slot :
  0 ≤ cspaceFreeListNum c < Z.of_nat (length (cspaceFreeList c)) → csfree c slot = Some (freed slot c).
Proof.
  intros H. unfold csfree, guard. rewrite bool_decide_false.
  2:{ intros E. rewrite E in H. cbn in H. lia. }
  cbn [negb]. by rewrite store_Some.
Qed.

Lemma set_skip_reply_Ok (s : dev_server D W) c b :
  is_Some (ct_clients (dv_common s) !! c) →
  set_skip_reply c b s = Ok tt (upd_skip_reply (<[c := b]> (skip_reply s)) s).
Proof.
  intros [x Hx]. unfold set_skip_reply, dcommon, kbind, getClient. rewrite Hx. by destruct s as [[] ? ? ? ?].
Qed.
Lemma getWaiter_Ok (s : dev_server D W) p w : waiters s !! p = Some w → getWaiter p s = Ok w s.
Proof. intros H. unfold getWaiter. by rewrite H. Qed.
Lemma dcall__Ok (s : dev_server D W) f : dcall_ f s = Ok tt (upd_dv_common (upd_srv_env (f (srv_env (dv_common s))) (dv_common s)) s).
Proof. done. Qed.

Lemma free_waiter_Ok (s : dev_server D W) p slot :
  0 ≤ cspaceFreeListNum (srv_cspace (dv_common s)) < Z.of_nat (length (cspaceFreeList (srv_cspace (dv_common s)))) →
  free_waiter p slot s = Ok tt (upd_waiters (delete p (waiters s)) (upd_dv_common (answered_common slot id (dv_common s)) s)).
Proof.
  intros H. unfold free_waiter, slot_delete, slot_free, dcommon, kbind, scall_, modify, gets. cbn [srv_cspace upd_srv_env].
  by rewrite (csfree_room _ slot H).
Qed.
Lemma remove_waiter_Ok (s : dev_server D W) l i :
  vrep lim (waiterList s) l → 0 ≤ i < Z.of_nat (length l) →
  ∃ v, remove_waiter i s = Ok tt (upd_waiterList v s) ∧ vrep lim v (delete (Z.to_nat i) l).
Proof.
  intros Hv Hi. destruct (cvector_delete_spec heap_ok lim Hlim Hmalloc _ _ i Hv Hi) as (v & Hd & Hv').
  exists v. split; [|done]. unfold remove_waiter. kstep. by rewrite (kopt_Some _ v).
Qed.

(** After the one in the middle has been answered and removed. *)
Definition after_answer (p : Z) (w : W) (answer : senv → senv) (v : cvector_t Z) (s : dev_server D W) : dev_server D W :=
  DevServer (answered_common (reply w) answer (dv_common s)) (<[client w := false]> (skip_reply s)) v
    (delete p (waiters s)) (device s).

Lemma waiting_after kept p w rest answer v s :
  waiting s (kept ++ (p, w) :: rest) → vrep lim v (kept ++ rest).*1 →
  waiting (after_answer p w answer v s) (kept ++ rest).
Proof.
  intros [Hl Hnd Hh Hc Hcl [Hs Hs']] Hv. rewrite fmap_app, fmap_cons in Hnd. cbn [fst] in Hnd.
  assert (∀ q x, (q, x) ∈ kept ++ rest → (q, x) ∈ kept ++ (p, w) :: rest ∧ q ≠ p) as Hin.
  { intros q x Hq. split; [set_solver|]. intros ->. apply NoDup_app_cons_inv in Hnd as Hx.
    assert (p ∈ kept.*1 ++ rest.*1); [|naive_solver set_solver].
    rewrite <- fmap_app. apply list_elem_of_fmap. by exists (p, x). }
  split; cbn [waiterList waiters dv_common after_answer answered_common upd_srv_cspace upd_srv_env ct_clients srv_cspace freed
    cspaceFreeListNum cspaceFreeList].
  - done.
  - rewrite fmap_app. apply NoDup_app in Hnd as (H1 & H2 & [H3 H4]%NoDup_cons). apply NoDup_app. set_solver.
  - intros q x [Hq Hne]%Hin. rewrite lookup_delete_ne by done. by apply Hh.
  - intros q x [Hq _]%Hin. by apply (Hc q).
  - intros q x [Hq _]%Hin. by apply (Hcl q).
  - rewrite length_insert. rewrite length_app in *. cbn [length] in Hs'. lia.
Qed.

Lemma lookup_middle kept p w rest v :
  vrep lim v (kept ++ (p, w) :: rest : list (Z * W)).*1 → cvector_get v (Z.of_nat (length kept)) = Some p.
Proof using Hlim.
  intros Hl. rewrite (cvector_get_spec lim Hlim _ _ _ Hl).
  - by rewrite Nat2Z.id, list_lookup_fmap, list_lookup_middle.
  - pose proof (vr_lim _ _ _ Hl) as Hb. rewrite length_fmap, length_app in Hb. lia.
Qed.
Lemma fmap_delete_middle kept p w rest :
  delete (length kept) (kept ++ (p, w) :: rest : list (Z * W)).*1 = (kept ++ rest).*1.
Proof. rewrite !fmap_app, <- (length_fmap fst kept). apply delete_middle. Qed.

Lemma answer_remove {A} kept p w rest answer s (k : DV A) :
  waiting s (kept ++ (p, w) :: rest) →
  ∃ v, (answer_waiter (client w) answer ;;; free_waiter p (reply w) ;;; remove_waiter (Z.of_nat (length kept)) ;;; k) s =
      k (after_answer p w answer v s) ∧
    waiting (after_answer p w answer v s) (kept ++ rest).
Proof using Hlim Hmalloc.
  intros Hs. pose proof Hs as [Hl _ _ _ Hcl [Hn Hroom]].
  set (s1 := upd_dv_common (upd_srv_env (answer (srv_env (dv_common s))) (dv_common s))
    (upd_skip_reply (<[client w := false]> (skip_reply s)) s)).
  assert (answer_waiter (client w) answer s = Ok tt s1) as H1.
  { unfold answer_waiter. rewrite (kbind_Ok _ _ _ _ _ (set_skip_reply_Ok s (client w) false (Hcl p w ltac:(set_solver)))). done. }
  rewrite length_app in Hroom. cbn [length] in Hroom.
  pose proof (free_waiter_Ok s1 p (reply w)) as H2. cbn [s1 dv_common srv_cspace upd_dv_common upd_skip_reply upd_srv_env] in H2.
  specialize (H2 ltac:(lia)). set (s2 := upd_waiters _ _) in H2.
  destruct (remove_waiter_Ok s2 (kept ++ (p, w) :: rest).*1 (Z.of_nat (length kept))) as (v & H3 & Hv).
  { done. }
  { rewrite length_fmap, length_app. cbn [length]. lia. }
  rewrite Nat2Z.id, fmap_delete_middle in Hv. exists v. split; [|by apply waiting_after].
  rewrite (kbind_Ok _ _ _ _ _ H1), (kbind_Ok _ _ _ _ _ H2), (kbind_Ok _ _ _ _ _ H3). done.
Qed.
End Server.

(** ** Sleepers *)
#[local] Abbreviation sleeping := (waiting tw_reply tw_client).
Definition due (now : Z) (ws : list (Z * device_timer_waiter)) := filter (λ pw, tw_time pw.2 ≤ now) ws.
Definition later (now : Z) (ws : list (Z * device_timer_waiter)) := filter (λ pw, now < tw_time pw.2) ws.
(** What the kernel sees: an answer through each capability, and its deletion. *)
Definition wake_up (e : senv) (pw : Z * device_timer_waiter) : senv :=
  cnode_delete (tw_reply pw.2) (reply_data_write (tw_reply pw.2) 4 e).
Definition env_of {D W} (s : dev_server D W) : senv := srv_env (dv_common s).

Lemma sleepers_loop_spec now rest : ∀ kept (s : timeserv),
  sleeping s (kept ++ rest) →
  ∃ s', sleepers_loop (length rest) (Z.of_nat (length kept)) now s = Ok tt s' ∧
    sleeping s' (kept ++ later now rest) ∧ env_of s' = foldl wake_up (env_of s) (due now rest) ∧
    device s' = device s ∧ waiters s' = foldl (λ m pw, delete pw.1 m) (waiters s) (due now rest).
Proof using Hlim Hmalloc.
  induction rest as [|[p w] rest IH]; intros kept s Hs; cbn [length sleepers_loop].
  - by exists s.
  - pose proof Hs as [Hl Hnd Hh Hc Hcl Hsl]. assert ((p, w) ∈ kept ++ (p, w) :: rest) as Hin by set_solver.
    kstep. rewrite (kopt_Some _ p) by (by apply (lookup_middle kept p w rest)).
    rewrite (kbind_Ok _ _ _ _ _ (getWaiter_Ok s p w (Hh p w Hin))). destruct (Hc p w Hin) as [H1 H2].
    rewrite kassert_true by (by rewrite !(proj2 (Z.eqb_neq _ _))). unfold due, later.
    destruct (Z.ltb_spec now (tw_time w)) as [Ht|Ht].
    + rewrite !filter_cons, (decide_True (P:=now < tw_time w)), decide_False by (cbn; lia || done).
      destruct (IH (kept ++ [(p, w)]) s) as (s' & Hrun & Hs' & He & Hd & Hg); [by rewrite <- app_assoc|].
      rewrite length_app in Hrun. cbn [length] in Hrun. replace (Z.of_nat (length kept + 1)) with (Z.of_nat (length kept) + 1) in Hrun by lia.
      exists s'. split_and!; try done. by rewrite <- app_assoc in Hs'.
    + rewrite !filter_cons, (decide_False (P:=now < tw_time w)), decide_True by (cbn; lia || done).
      destruct (answer_remove tw_reply tw_client kept p w rest (reply_data_write (tw_reply w) 4) s
        (sleepers_loop (length rest) (Z.of_nat (length kept)) now) Hs) as (v & -> & Hs1).
      destruct (IH kept _ Hs1) as (s' & Hrun & Hs' & He & Hd & Hg). by exists s'.
Qed.

Lemma device_timer_get_time_env (s : timeserv) now s1 :
  device_timer_get_time s = Ok now s1 → ∃ e, s1 = upd_dv_common (upd_srv_env e (dv_common s)) s.
Proof.
  unfold device_timer_get_time, kbind, gets, dcall, dcommon, scall. destruct (timer_get_time _) as [x e].
  unfold kassert. destruct (upcounter || _); [|done]. intros [= _ <-]. by exists e.
Qed.

(** C18. Liveness and functional correctness of sleeping: at an interrupt of the
    timer, every client whose time has come is answered, through its own reply
    capability and in the order in which they went to sleep; the capabilities
    and structures are given back, and exactly the others go on waiting, in
    their order.  The pass over the list, which removes while it goes, never
    skips one and always ends. *)
Theorem sleepers_woken (s : timeserv) ws now s1 :
  sleeping s ws → device_timer_get_time s = Ok now s1 →
  ∃ s', device_timer_update_sleepers s = Ok tt s' ∧
    sleeping s' (later now ws) ∧
    env_of s' = foldl wake_up (env_of s1) (due now ws) ∧
    waiters s' = foldl (λ m pw, delete pw.1 m) (waiters s) (due now ws) ∧
    device s' = device s.
Proof using Hlim Hmalloc.
  intros Hs Ht. destruct (device_timer_get_time_env s now s1 Ht) as [e ->].
  set (s1 := upd_dv_common _ s) in *.
  assert (sleeping s1 ws) as Hs1 by (by destruct Hs).
  unfold device_timer_update_sleepers. rewrite (kbind_Ok _ _ _ _ _ Ht). kstep.
  unfold cvector_count. rewrite (vr_count _ _ _ (wt_list _ _ _ _ Hs1)), length_fmap, Nat2Z.id.
  destruct (sleepers_loop_spec now ws [] s1 Hs1) as (s' & Hrun & Hs' & He & Hd & Hg). by exists s'.
Qed.

(** ** Input *)
#[local] Abbreviation listening := (waiting iw_reply iw_client).
Definition backlog (s : conserv) (l : list Z) : Prop :=
  qrep (inputBacklog (device s)) l ∧ maxSize (inputBacklog (device s)) = CONSERV_DEVICE_INPUT_BACKLOG_MAXSIZE.
(** With another queue of characters and environment. *)
Definition at_console (s : conserv) (q : cqueue_t) (e : senv) : conserv :=
  DevServer (upd_srv_env e (dv_common s)) (skip_reply s) (waiterList s) (waiters s)
    (ConservState q (screen_initialised (device s)) (serialBadgeEP (device s)) (screenBadgeEP (device s))).
(** The newest two. *)
Definition last2 (l : list Z) : list Z := drop (length l - 2) l.

Lemma at_console_id s : at_console s (inputBacklog (device s)) (env_of s) = s.
Proof. by destruct s as [[] ? ? ? []]. Qed.

Lemma with_env_console (s : conserv) e :
  upd_dv_common (upd_srv_env e (dv_common s)) s = at_console s (inputBacklog (device s)) e.
Proof. by destruct s as [[] ? ? ? []]. Qed.

Lemma backlog_short s l : backlog s l → (length l ≤ 2)%nat.
Proof. intros [[_ _ _ Hc Hf _] Hm]. unfold CONSERV_DEVICE_INPUT_BACKLOG_MAXSIZE in Hm. lia. Qed.
Lemma backlog_size s l : backlog s l → cqueue_size (inputBacklog (device s)) = Z.of_nat (length l).
Proof. intros [[_ _ _ Hc _ _] _]. done. Qed.

Lemma backlog_pop_Ok s c l :
  backlog s (c :: l) → ∃ q, backlog_pop s = Ok c (at_console s q (env_of s)) ∧ backlog (at_console s q (env_of s)) l.
Proof.
  intros [Hq Hm]. destruct (cqueue_pop_spec _ _ _ Hq) as (q & Hp & Hm' & Hq'). exists q. split.
  - unfold backlog_pop. kstep. rewrite (kopt_Some _ (q, c)) by done. by destruct s as [[] ? ? ? []].
  - split; cbn; [done|congruence].
Qed.

Lemma last2_last2 a b : last2 (last2 a ++ b) = last2 (a ++ b).
Proof.
  unfold last2. set (n := (length a - 2)%nat). rewrite !length_app, length_drop.
  replace (a ++ b) with (take n a ++ (drop n a ++ b)) by (by rewrite app_assoc, take_drop).
  rewrite (drop_app_ge (take n a)) by (rewrite length_take; lia). f_equal. rewrite length_take. lia.
Qed.

Lemma input_push_char_Ok s l c :
  backlog s l →
  ∃ q, input_push_char c s = Ok tt (at_console s q (env_of s)) ∧ backlog (at_console s q (env_of s)) (last2 (l ++ [c])).
Proof.
  intros Hb. pose proof (backlog_short _ _ Hb) as Hsh.
  assert (∃ q, prune_backlog (length l) s = Ok tt (at_console s q (env_of s)) ∧
    backlog (at_console s q (env_of s)) (drop (length l - 1) l)) as (q & Hr & Hq).
  { destruct l as [|a [|b [|]]]; cbn [length] in *; try lia; cbn [prune_backlog].
    - exists (inputBacklog (device s)). rewrite at_console_id. kstep. by rewrite (backlog_size _ _ Hb).
    - exists (inputBacklog (device s)). rewrite at_console_id. kstep. by rewrite (backlog_size _ _ Hb).
    - kstep. rewrite (backlog_size _ _ Hb), (proj2 (Z.ltb_ge _ _)) by done.
      destruct (backlog_pop_Ok _ _ _ Hb) as (q & Hp & Hq). exists q. split; [|done].
      rewrite (kbind_Ok _ _ _ _ _ Hp). kstep. by rewrite (backlog_size _ _ Hq), (proj2 (Z.ltb_lt _ _)). }
  destruct Hq as [Hq Hm]. destruct (cqueue_push_spec _ _ c Hq) as (q' & Hp & Hm' & Hq').
  assert (length (drop (length l - 1) l) ≤ 1)%nat as Hd by (rewrite length_drop; lia).
  rewrite Hm in Hp, Hq'. unfold CONSERV_DEVICE_INPUT_BACKLOG_MAXSIZE in Hp, Hq'.
  rewrite (proj2 (Z.leb_gt _ _)) in Hp, Hq' by lia.
  exists q'. split.
  - unfold input_push_char. kstep. rewrite (backlog_size _ _ Hb), Nat2Z.id, (kbind_Ok _ _ _ _ _ Hr). kstep.
    rewrite (kopt_Some _ (q', true)) by done. by destruct s as [[] ? ? ? []].
  - split; cbn [inputBacklog device at_console]; [|by rewrite Hm'].
    assert (last2 (l ++ [c]) = drop (length l - 1) l ++ [c]) as ->; [|done].
    unfold last2. rewrite length_app. cbn [length]. rewrite drop_app_le by lia. do 2 f_equal. lia.
Qed.

(** The device gives these characters and then no more. *)
Inductive device_gives : senv → list Z → senv → Prop :=
| gives_none e e' : cdev_getchar e = (-1, e') → device_gives e [] e'
| gives_char e c e1 cs e' :
    cdev_getchar e = (c, e1) → c ≠ -1 → device_gives e1 cs e' → device_gives e (c :: cs) e'.

Lemma getchar_loop_Ok cs : ∀ n s l e',
  (length cs ≤ n)%nat → backlog s l → device_gives (env_of s) cs e' →
  ∃ q, getchar_loop n s = Ok tt (at_console s q e') ∧ backlog (at_console s q e') (last2 (l ++ cs)).
Proof.
  induction cs as [|c cs IH]; intros n s l e' Hn Hb Hg; inversion Hg as [? ? Hc|? ? e1 ? ? Hc Hne Hg']; subst;
    pose proof (backlog_short _ _ Hb) as Hsh; destruct n as [|n]; cbn [length] in Hn; try lia; cbn [getchar_loop];
    unfold dcall, dcommon, scall, kbind at 1; fold (env_of s); rewrite Hc, with_env_console.
  1, 2: exists (inputBacklog (device s)); split; [done|];
    rewrite app_nil_r; unfold last2; rewrite (proj2 (Nat.sub_0_le _ _)) by done; exact Hb.
  rewrite (proj2 (Z.eqb_neq _ _)) by done.
  destruct (input_push_char_Ok (at_console s (inputBacklog (device s)) e1) l c Hb) as (q & Hp & Hb1).
  rewrite (kbind_Ok _ _ _ (at_console s q e1) tt) by exact Hp.
  destruct (IH n (at_console s q e1) _ e' ltac:(lia) Hb1 Hg') as (q' & Hr & Hb').
  exists q'. split; [done|]. by rewrite last2_last2, <- app_assoc in Hb'.
Qed.

(** What the kernel sees of one who gets a character. *)
Definition give_char (e : senv) (x : (Z * input_waiter) * Z) : senv :=
  cnode_delete (iw_reply x.1.2) (reply_data_getc (iw_reply x.1.2) x.2 e).

Lemma listening_console s ws q e : listening s ws → listening (at_console s q e) ws.
Proof. by intros []. Qed.

Lemma input_waiters_loop_spec ws : ∀ s l,
  listening s ws → backlog s l → (∀ pw, pw ∈ ws → iw_type pw.2 = INPUT_WAITERTYPE_GETC) →
  ∃ s', input_waiters_loop (length ws) 0 s = Ok tt s' ∧
    listening s' (drop (length l) ws) ∧ backlog s' (drop (length ws) l) ∧
    env_of s' = foldl give_char (env_of s) (zip ws l).
Proof using Hlim Hmalloc.
  induction ws as [|[p w] ws IH]; intros s l Hs Hb Hty; cbn [length input_waiters_loop].
  - exists s. rewrite drop_nil. split_and!; try done.
  - pose proof Hs as [Hl Hnd Hh Hc Hcl Hsl]. assert ((p, w) ∈ (p, w) :: ws) as Hin by set_solver.
    kstep. rewrite (kopt_Some _ p) by (by apply (lookup_middle [] p w ws)).
    rewrite (kbind_Ok _ _ _ _ _ (getWaiter_Ok s p w (Hh p w Hin))). destruct (Hc p w Hin) as [H1 H2].
    rewrite kassert_true by (by rewrite !(proj2 (Z.eqb_neq _ _))). kstep. rewrite (backlog_size _ _ Hb).
    destruct l as [|c l].
    { exists s. by split_and!. }
    cbn [length]. rewrite (proj2 (Z.leb_gt _ _)) by lia.
    set (s1 := upd_skip_reply (<[iw_client w := false]> (skip_reply s)) s).
    rewrite (kbind_Ok _ _ _ _ _ (set_skip_reply_Ok s (iw_client w) false (Hcl p w Hin))). fold s1.
    pose proof (Hty (p, w) Hin) as Htw. cbn [snd] in Htw. rewrite kassert_true by (by rewrite Htw).
    destruct (backlog_pop_Ok s1 c l Hb) as (q & Hp & Hq). rewrite (kbind_Ok _ _ _ _ _ Hp).
    set (e2 := reply_data_getc (iw_reply w) c (env_of s)).
    rewrite (kbind_Ok _ _ _ (at_console s1 q e2) tt) by done.
    cbn [length] in Hsl.
    pose proof (free_waiter_Ok (at_console s1 q e2) p (iw_reply w) ltac:(cbn; lia)) as Hf.
    rewrite (kbind_Ok _ _ _ _ _ Hf). kstep. set (s3 := upd_waiters _ _).
    destruct (cvector_set_spec lim Hlim _ _ 0 0 Hl ltac:(cbn; lia)) as (v & Hv & Hrep).
    rewrite (kopt_Some _ v) by exact Hv. kstep.
    destruct (remove_waiter_Ok (upd_waiterList v s3) _ 0 Hrep) as (v' & Hr & Hv').
    { rewrite length_insert. cbn. lia. }
    rewrite (kbind_Ok _ _ _ _ _ Hr).
    assert (listening (upd_waiterList v' (upd_waiterList v s3)) ws) as Hs'.
    { apply (waiting_after iw_reply iw_client [] p w ws (reply_data_getc (iw_reply w) c) v' (at_console s q (env_of s))).
      - by apply listening_console.
      - exact Hv'. }
    destruct (IH _ l Hs' Hq) as (s' & Hrun & Hs'' & Hb' & He).
    { intros pw Hpw. apply Hty. set_solver. }
    exists s'. by split_and!.
Qed.

(** C19. Liveness and functional correctness of the console's input: at an
    interrupt of the device the characters it holds go into a backlog of two,
    which loses its oldest ones, and the characters of the backlog go to the
    clients that wait, the oldest to the one that asked first, each once through
    its own reply capability, until there are no more clients or no more
    characters.  The rest of both is kept in order. *)
Theorem input_served (s : conserv) ws l cs irq e :
  listening s ws → (∀ pw, pw ∈ ws → iw_type pw.2 = INPUT_WAITERTYPE_GETC) → backlog s l →
  device_gives (cdev_handle_irq irq (env_of s)) cs e →
  (length cs ≤ cdev_waiting (cdev_handle_irq irq (env_of s)))%nat →
  let chars := last2 (l ++ cs) in
  ∃ s', input_handle_irq irq s = Ok tt s' ∧
    listening s' (drop (length chars) ws) ∧ backlog s' (drop (length ws) chars) ∧
    env_of s' = foldl give_char e (zip ws chars).
Proof using Hlim Hmalloc.
  intros Hs Hty Hb Hg Hn chars. unfold input_handle_irq.
  rewrite (kbind_Ok _ _ _ _ _ (dcall__Ok s _)), with_env_console. kstep. unfold id.
  destruct (getchar_loop_Ok cs _ (at_console s (inputBacklog (device s)) (cdev_handle_irq irq (env_of s))) l e Hn Hb Hg)
    as (q & Hr & Hq).
  rewrite (kbind_Ok _ _ _ _ _ Hr). kstep. unfold cvector_count.
  change (waiterList _) with (waiterList s). rewrite (vr_count _ _ _ (wt_list _ _ _ _ Hs)), length_fmap, Nat2Z.id.
  by apply (input_waiters_loop_spec ws _ chars (listening_console s ws q e Hs)).
Qed.

(** Error behaviour: the console server does not forget a client that dies
    while it waits for a character.  Once its structure has been freed, the next
    character makes the server use it: with the model's memory a panic. *)
Theorem input_for_dead_client (s : conserv) l cs irq e v p w :
  backlog s l → device_gives (cdev_handle_irq irq (env_of s)) cs e →
  (length cs ≤ cdev_waiting (cdev_handle_irq irq (env_of s)))%nat → cs ≠ [] →
  waiterList s = v → 0 < cvector_count v → cvector_get v 0 = Some p → waiters s !! p = Some w →
  ct_clients (dv_common s) !! iw_client w = None →
  input_handle_irq irq s = Panic.
Proof using Type.
  intros Hb Hg Hn Hcs Hv Hc Hget Hw Hdead. unfold input_handle_irq.
  rewrite (kbind_Ok _ _ _ _ _ (dcall__Ok s _)), with_env_console. kstep. unfold id.
  destruct (getchar_loop_Ok cs _ (at_console s (inputBacklog (device s)) (cdev_handle_irq irq (env_of s))) l e Hn Hb Hg)
    as (q & Hr & Hq).
  rewrite (kbind_Ok _ _ _ _ _ Hr). kstep. change (waiterList _) with (waiterList s). rewrite Hv.
  destruct (Z.to_nat (cvector_count v)) as [|n] eqn:En; [lia|]. cbn [input_waiters_loop]. kstep.
  change (waiterList _) with (waiterList s). rewrite Hv, (kopt_Some _ p) by done.
  rewrite (kbind_Ok _ _ _ _ _ (getWaiter_Ok (at_console s q e) p w Hw)).
  destruct (negb (iw_reply w =? 0) && _); [|done]. rewrite kassert_true by done. kstep. rewrite (backlog_size (at_console s q e) _ Hq).
  assert (0 < Z.of_nat (length (last2 (l ++ cs)))) as Hlen.
  { unfold last2. rewrite length_drop, length_app. destruct cs; [done|]. cbn [length]. lia. }
  rewrite (proj2 (Z.leb_gt _ _)) by lia. unfold set_skip_reply, dcommon, kbind, getClient. cbn. by rewrite Hdead.
Qed.
End Waiting.

(** ** Servers with two waiting clients *)
Definition log_env : Type := list Z * list (Z * Z).
Definition log_reply (cap v : Z) (e : log_env) : log_env := (e.1, e.2 ++ [(cap, v)]).
Definition next_char (e : log_env) : Z * log_env :=
  match e.1 with [] => (-1, e) | c :: cs => (c, (cs, e.2)) end.
Definition chars_left (e : log_env) : nat := length e.1.

(** The characters still to come, and the answers; the clock says 100. *)
Definition demo_server : ServerEnv := {|
  senv := log_env;
  heap_ok _ := true;
  heap_object e := (Some 1000, e);
  cnode_mint _ _ _ e := (true, e);
  cnode_revoke _ e := e;
  cnode_delete _ e := e;
  rpc_copyout_cptr c e := (c, e);
  proc_watch_client _ _ e := ((ESUCCESS, 1), e);
  proc_unwatch_client _ e := e
|}.
Section Demo.
#[local] Existing Instance demo_server.
Definition demo_devices : DeviceEnv := {|
  cnode_save_caller _ e := (true, e);
  reply_data_write := log_reply;
  reply_data_getc := log_reply;
  timer_get_time e := (100, e);
  upcounter := true;
  timer_handle_irq _ e := e;
  tick_handle_irq _ e := e;
  cdev_handle_irq _ e := e;
  cdev_getchar := next_char;
  cdev_waiting := chars_left;
  cdev_putchar _ e := e;
  vterm_write _ e := e
|}.
#[local] Existing Instance demo_devices.

Definition demo_client (id : Z) : srv_client := SrvClient id 0 0 0 0 0 0.
Definition demo_clients : srv_common :=
  SrvCommon (coat (cpool_init 1 8) cvector_init []) {[10 := demo_client 1; 11 := demo_client 2]} cvector_init 8 48 1 2
    (Cspace [40; 41; 42] 1) ([65; 66; 67], []).
Definition two_waiting : cvector_t Z := cvector [Some 300; Some 301] 2 2 8.
Definition demo_sleepers : list (Z * device_timer_waiter) := [(300, TimerWaiter 500 41 10); (301, TimerWaiter 50 42 11)].
Definition demo_timer : timeserv :=
  DevServer demo_clients ∅ two_waiting (list_to_map demo_sleepers) (TimerState 0 1000 7).
Definition demo_listeners : list (Z * input_waiter) := [(300, InputWaiter 41 10 false); (301, InputWaiter 42 11 false)].
Definition demo_console (c : srv_common) : conserv :=
  DevServer c ∅ two_waiting (list_to_map demo_listeners) (ConservState (cqueue [None; None] 0 0 2) false 7 8).

(** Two waiting clients, for either server. *)
Lemma demo_waiting {D W} (reply client : W → Z) (s : dev_server D W) w1 w2 :
  dv_common s = demo_clients → waiterList s = two_waiting → waiters s = list_to_map [(300, w1); (301, w2)] →
  reply w1 = 41 → client w1 = 10 → reply w2 = 42 → client w2 = 11 →
  waiting 16 reply client s [(300, w1); (301, w2)].
Proof.
  intros Hc Hl Hw R1 C1 R2 C2.
  split; rewrite ?Hc, ?Hl, ?Hw; cbn [fmap list_fmap fst];
    try (intros p w [[= -> ->]|[[= -> ->]|[]%elem_of_nil]%elem_of_cons]%elem_of_cons; rewrite ?R1, ?C1, ?R2, ?C2; try done; by eexists).
  - split; try done. by exists [].
  - by apply (bool_decide_unpack _).
  - cbn. lia.
Qed.

Lemma sleepers_woken_witness :
  ∃ s', device_timer_update_sleepers demo_timer = Ok tt s' ∧
    waiting 16 tw_reply tw_client s' [(300, TimerWaiter 500 41 10)] ∧ env_of s' = ([65; 66; 67], [(42, 4)]).
Proof.
  destruct (sleepers_woken 16 ltac:(done) ltac:(done) demo_timer demo_sleepers 100 demo_timer) as (s' & H1 & H2 & H3 & _).
  - by apply demo_waiting.
  - reflexivity.
  - exists s'. split_and!; [exact H1|exact H2|exact H3].
Defined.

Lemma demo_backlog c : backlog (demo_console c) [].
Proof. split; [split; try done; by intros k x|done]. Qed.
Lemma demo_gives log : device_gives (([65; 66; 67], log) : senv) [65; 66; 67] (([], log) : senv).
Proof. by repeat econstructor. Qed.

(** Of three characters the first is lost. *)
Lemma input_served_witness :
  ∃ s', input_handle_irq 3 (demo_console demo_clients) = Ok tt s' ∧ backlog s' [] ∧
    env_of s' = ([], [(41, 66); (42, 67)]).
Proof.
  destruct (input_served 16 ltac:(done) ltac:(done) (demo_console demo_clients) demo_listeners [] [65; 66; 67] 3 ([], []))
    as (s' & H1 & _ & H2 & H3).
  - by apply demo_waiting.
  - by intros pw [->|[->|[]%elem_of_nil]%elem_of_cons]%elem_of_cons.
  - apply demo_backlog.
  - apply demo_gives.
  - cbn. lia.
  - exists s'. split_and!; [exact H1|exact H2|exact H3].
Defined.

Lemma input_for_dead_client_witness :
  input_handle_irq 3 (demo_console (upd_ct_clients ∅ demo_clients)) = Panic.
Proof.
  apply (input_for_dead_client (demo_console (upd_ct_clients ∅ demo_clients)) [] [65; 66; 67] 3 ([], []) two_waiting 300
    (InputWaiter 41 10 false)); [apply demo_backlog|apply demo_gives|cbn; lia|done|done|done|reflexivity|reflexivity|reflexivity].
Defined.
End Demo.
