(* ===== verification/FileTheorems.v ===== *)
(** * Theorems on the file server

    What a client sees of its files: the page that a fault in a window brings is
    the file's part for that page; what a write leaves can be read back; and
    what happens when the end of a write is past the end of a word. *)

From S2P Require Import Prelude.
From S2P Require Import Word32.
From S2P Require Import DataStruct.
From S2P Require Import WindowAssoc.
From S2P Require Import Procserv.
From S2P Require Import Dataspace.
From S2P Require Import DataspaceInv.
From S2P Require Import Memserv.
From S2P Require Import RingBuffer.
From S2P Require Import Process.
From S2P Require Import Proc.
From S2P Require Import Share.
From S2P Require Import Handlers.
From S2P Require Import Servlib.
From S2P Require Import FileServer.

Section Files.
Context {SE : ServerEnv} {FE : FileEnv}.

(** ** The bytes of files *)
Definition ramfs_byte (a : gmap Z Z) (i k : Z) : Z := default 0 (a !! (i * CPIO_RAMFS_MAX_FILESSIZE + k)).
Definition file_byte (s : fs_state) (data : file_data) (k : Z) : Z :=
  match data with
  | CpioFile b => default 0 (b !! Z.to_nat k)
  | RamFile i => ramfs_byte (ramfs_archive s) i k
  end.
(** The recorded size is within the file's bytes. *)
Definition file_ok (data : file_data) (size : Z) : Prop :=
  0 ≤ size < 2 ^ 31 ∧
  match data with
  | CpioFile b => size ≤ Z.of_nat (length b)
  | RamFile i => 0 ≤ i < CPIO_RAMFS_MAX_CREATED_FILES ∧ size ≤ CPIO_RAMFS_MAX_FILESSIZE
  end.

Lemma s32_small x : 0 ≤ x < 2 ^ 31 → s32 x = x.
Proof. intros. unfold s32. rewrite Z.mod_small by lia. lia. Qed.

Lemma take_drop_seqZ (b : list Z) off n :
  0 ≤ off → 0 ≤ n → off + n ≤ Z.of_nat (length b) →
  take (Z.to_nat n) (drop (Z.to_nat off) b) = (λ k, default 0 (b !! Z.to_nat k)) <$> seqZ off n.
Proof.
  intros. apply list_eq. intros i. destruct (Nat.lt_ge_cases i (Z.to_nat n)).
  - rewrite lookup_take_lt, lookup_drop by done. rewrite list_lookup_fmap, lookup_seqZ_lt by lia. cbn.
    replace (Z.to_nat (off + Z.of_nat i)) with (Z.to_nat off + i)%nat by lia.
    destruct (lookup_lt_is_Some_2 b (Z.to_nat off + i)) as [x Hx]; [lia|]. by rewrite Hx.
  - rewrite !lookup_ge_None_2; [done|rewrite length_fmap, length_seqZ; lia|rewrite length_take; lia].
Qed.

Lemma read_archive_Some a pos n :
  0 ≤ pos → 0 ≤ n → pos + n ≤ ramfs_size → read_archive a pos n = Some ((λ k, default 0 (a !! k)) <$> seqZ pos n).
Proof. intros. unfold read_archive. by rewrite !(proj2 (Z.leb_le _ _)) by lia. Qed.

Lemma seqZ_shift (f : Z → Z) base off n : (f <$> seqZ (base + off) n) = (λ k, f (base + k)) <$> seqZ off n.
Proof. rewrite <- fmap_add_seqZ, <- list_fmap_compose. done. Qed.

Lemma read_file_spec s data size off n :
  file_ok data size → 0 ≤ off → 0 ≤ n → off + n ≤ size →
  read_file data off n s = Ok (file_byte s data <$> seqZ off n) s.
Proof.
  intros [Hs Hd] Ho Hn Hle. unfold read_file. destruct data as [b|i].
  - rewrite s32_small by lia. rewrite !(proj2 (Z.leb_le _ _)) by lia. cbn. by rewrite take_drop_seqZ by lia.
  - kstep. unfold archive_pos, CPIO_RAMFS_MAX_CREATED_FILES, CPIO_RAMFS_MAX_FILESSIZE in *. rewrite s32_small by lia.
    rewrite read_archive_Some by (unfold ramfs_size, CPIO_RAMFS_MAX_CREATED_FILES, CPIO_RAMFS_MAX_FILESSIZE; lia).
    cbn. by rewrite seqZ_shift.
Qed.

(** ** Page faults *)

(** The pool of frames gives the identifier [k] next. *)
Record next_frame (s : fs_state) (pl : cpool_t) (k : Z) : Prop := {
  nf_init : fb_initialised (pageFrameBlock s) = true;
  nf_pool : cpool_alloc heap_ok (framePool (pageFrameBlock s)) = Some (pl, k);
  nf_range : 0 ≤ k;
  nf_block : 0 < frameBlockVAddr (pageFrameBlock s) ∧
             frameBlockVAddr (pageFrameBlock s) + frameBlockNumPages (pageFrameBlock s) * REFOS_PAGE_SIZE ≤ 2 ^ 32
}.
Definition frame_at (s : fs_state) (k : Z) : Z := frameBlockVAddr (pageFrameBlock s) + k * REFOS_PAGE_SIZE.
Definition with_pool (pl : cpool_t) (s : fs_state) : fs_state :=
  let fb := pageFrameBlock s in
  upd_pageFrameBlock (FrameBlock (fb_initialised fb) pl (fb_dataspace fb) (fb_window fb)
    (frameBlockVAddr fb) (frameBlockNumPages fb)) s.
Definition is_frame (s : fs_state) (k : Z) : Prop := 1 ≤ k < frameBlockNumPages (pageFrameBlock s).

Lemma pager_alloc_frame_spec s pl k :
  next_frame s pl k →
  pager_alloc_frame s = Ok (if decide (is_frame s k) then frame_at s k else 0) (with_pool pl s).
Proof.
  intros [Hi Hp Hk Hb]. unfold pager_alloc_frame, is_frame in *. kstep. rewrite Hi. kstep.
  rewrite Hp. unfold kbind at 1. cbn [kopt kret]. unfold kbind at 1, set_framePool, modify. case_decide as Hd.
  - rewrite (proj2 (Z.eqb_neq _ _)), (proj2 (Z.leb_gt _ _)) by lia. cbn [orb]. unfold kret. f_equal.
    unfold frame_at, REFOS_PAGE_SIZE in *. apply w32_id. unfold is_w32. lia.
  - destruct (Z.eqb_spec k 0); [done|]. by rewrite (proj2 (Z.leb_le _ _)) by lia.
Qed.

(** The page of a window of a file: the bytes of the file where the page, the
    window and the file meet, and zeros elsewhere; [va] is an address. *)
Definition window_byte (s : fs_state) (d : fs_dataspace) (dsOffset winBase winSize va : Z) : Z :=
  if (winBase <=? va) && (va <? winBase + winSize) && (dsOffset + (va - winBase) <? fileDataSize d)
  then file_byte s (fileData d) (dsOffset + (va - winBase)) else 0.
Definition window_page (s : fs_state) (d : fs_dataspace) (dsOffset winBase winSize page : Z) : list Z :=
  window_byte s d dsOffset winBase winSize <$> seqZ page REFOS_PAGE_SIZE.

Lemma lookup_zeros n i : (i < n)%nat → repeat 0 n !! i = Some 0.
Proof. revert i. induction n as [|n IH]; intros [|i] ?; [lia|lia|done|]. apply IH. lia. Qed.

Lemma store_zeros skip n (f : Z → Z) :
  0 ≤ skip → 0 ≤ n → skip + n ≤ REFOS_PAGE_SIZE →
  store_bytes (repeat 0 (Z.to_nat REFOS_PAGE_SIZE)) skip (f <$> seqZ 0 n) =
    Some ((λ k, if (skip <=? k) && (k <? skip + n) then f (k - skip) else 0) <$> seqZ 0 REFOS_PAGE_SIZE).
Proof.
  intros H1 H2 H3. unfold store_bytes. rewrite repeat_length, length_fmap, length_seqZ, !(proj2 (Z.leb_le _ _)) by lia.
  cbn [andb]. f_equal. apply list_eq. intros i. destruct (Nat.lt_ge_cases i (Z.to_nat REFOS_PAGE_SIZE)) as [Hi|Hi].
  2:{ rewrite !lookup_ge_None_2; [done|rewrite length_fmap, length_seqZ; lia|rewrite length_inserts, repeat_length; lia]. }
  rewrite list_lookup_fmap, lookup_seqZ_lt by lia. cbn [fmap option_fmap option_map].
  destruct (decide (Z.to_nat skip ≤ i < Z.to_nat skip + Z.to_nat n)%nat) as [Hin|Hout].
  - rewrite list_lookup_inserts by (rewrite ?repeat_length, ?length_fmap, ?length_seqZ; lia).
    rewrite list_lookup_fmap, lookup_seqZ_lt by lia. cbn.
    rewrite (proj2 (Z.leb_le _ _)), (proj2 (Z.ltb_lt _ _)) by lia. cbn. do 2 f_equal. lia.
  - assert (repeat 0 (Z.to_nat REFOS_PAGE_SIZE) !! i = Some 0) as Hz by (apply lookup_zeros; lia).
    destruct (decide (i < Z.to_nat skip)%nat).
    + rewrite list_lookup_inserts_lt, Hz by lia. by rewrite (proj2 (Z.leb_gt _ _)) by lia.
    + rewrite list_lookup_inserts_ge, Hz by (rewrite length_fmap, length_seqZ; lia).
      rewrite (proj2 (Z.ltb_ge _ _)) by lia. by rewrite andb_false_r.
Qed.

(** A difference of words that goes below zero. *)
Lemma w32_below x : - 2 ^ 32 ≤ x < 0 → w32 x = x + 2 ^ 32.
Proof. intros. unfold w32. symmetry. apply (Z.mod_unique _ _ (-1)); lia. Qed.

(** The numbers of a fault, for a window at [base] of [wsize] bytes. *)
Lemma fault_numbers fsize dsOff base wsize addr :
  let page := REFOS_PAGE_ALIGN addr in
  let skip := initFrameSkip base page in
  let off := dataspaceSkipWinOffset base page in
  0 ≤ base ≤ addr → addr < base + wsize ≤ 2 ^ 32 → 0 ≤ dsOff → dsOff + wsize < 2 ^ 32 → 0 ≤ fsize < 2 ^ 31 →
  0 ≤ skip < REFOS_PAGE_SIZE ∧ 0 ≤ off < wsize ∧ page + skip = base + off ∧ (skip = 0 ∨ off = 0) ∧
  (nbytes_overflowed fsize dsOff off = false ↔ dsOff + off ≤ fsize) ∧
  (dsOff + off ≤ fsize →
   fault_nbytes fsize dsOff wsize skip off = Z.min (Z.min (REFOS_PAGE_SIZE - skip) (fsize - off - dsOff)) (wsize - off)).
Proof.
  intros page skip off Hb Ha Hd Hw Hf.
  pose proof (skip_bytes addr ltac:(lia)) as Hp. pose proof (Z.mod_pos_bound addr REFOS_PAGE_SIZE ltac:(done)) as Hmod.
  fold page in Hp. assert (0 ≤ skip < REFOS_PAGE_SIZE ∧ 0 ≤ off < wsize ∧ page + skip = base + off ∧ (skip = 0 ∨ off = 0)) as Hso.
  { unfold skip, off, initFrameSkip, dataspaceSkipWinOffset. destruct (Z.ltb_spec page base); lia. }
  destruct Hso as (H1 & H2 & H3 & H4). split_and!; try done; try lia.
  - unfold nbytes_overflowed. rewrite !orb_false_iff, !Z.ltb_ge. split.
    + intros [[Hx _] _]. destruct (Z.le_gt_cases (dsOff + off) fsize); [done|]. rewrite w32_below in Hx by lia. lia.
    + intros Hle. rewrite !w32_id by (unfold is_w32; lia). lia.
  - intros Hle. unfold fault_nbytes. unfold REFOS_PAGE_SIZE in *. rewrite !w32_id by (unfold is_w32; lia). done.
Qed.

(** A window of a file that faults, and what the server knows of it. *)
Record fault_in (s : fs_state) (winID dwa p : Z) (a : dataspace_association_info) (d : fs_dataspace) : Prop := {
  fi_window : chash_get (windowAssocTable s) winID = Some dwa ∧ dwa ≠ 0;
  fi_assoc : fs_assocs s !! dwa = Some a;
  fi_id : 0 ≤ dataspaceID a < FILESERVER_MAX_DATASPACES;
  fi_table : coat_get (allocTable s) (dataspaceID a) = Some p ∧ p ≠ 0;
  fi_dspace : fs_dspaces s !! p = Some d;
  fi_file : file_ok (fileData d) (fileDataSize d);
  fi_offset : 0 ≤ dataspaceOffset a
}.

Lemma dspace_get_spec s id p :
  0 ≤ id < FILESERVER_MAX_DATASPACES → coat_get (allocTable s) id = Some p → dspace_get id s = Ok p s.
Proof.
  intros Hid Ht. unfold dspace_get. rewrite (proj2 (Z.ltb_ge _ _)), (proj2 (Z.leb_gt _ _)) by lia. cbn [orb].
  unfold oat_get. kstep. by rewrite Ht.
Qed.
Lemma getFsDataspace_spec s p d : fs_dspaces s !! p = Some d → getFsDataspace p s = Ok d s.
Proof. intros H. unfold getFsDataspace. by rewrite H. Qed.
Lemma window_page_pool pl s d dsOff base wsize page :
  window_page (with_pool pl s) d dsOff base wsize page = window_page s d dsOff base wsize page.
Proof.
  unfold window_page. apply list_fmap_ext. intros i k _. unfold window_byte. case_match; [|done].
  by destruct (fileData d).
Qed.

(** The page that is put together is the page of the window. *)
Lemma window_page_eq s d dsOff base wsize addr :
  let page := REFOS_PAGE_ALIGN addr in
  let skip := initFrameSkip base page in
  let off := dataspaceSkipWinOffset base page in
  let n := fault_nbytes (fileDataSize d) dsOff wsize skip off in
  0 ≤ base ≤ addr → addr < base + wsize ≤ 2 ^ 32 → 0 ≤ dsOff → dsOff + wsize < 2 ^ 32 →
  file_ok (fileData d) (fileDataSize d) → dsOff + off ≤ fileDataSize d →
  read_file (fileData d) (w32 (dsOff + off)) n s = Ok (file_byte s (fileData d) <$> seqZ (dsOff + off) n) s ∧
  store_bytes (repeat 0 (Z.to_nat REFOS_PAGE_SIZE)) skip (file_byte s (fileData d) <$> seqZ (dsOff + off) n) =
    Some (window_page s d dsOff base wsize page).
Proof.
  intros page skip off n Hb Ha Hd Hw Hf Hle. pose proof Hf as [Hsz _].
  destruct (fault_numbers (fileDataSize d) dsOff base wsize addr Hb Ha Hd Hw Hsz) as (H1 & H2 & H3 & H4 & _ & Hn).
  specialize (Hn Hle). fold page in H1, H2, H3, H4, Hn. fold skip off in H1, H2, H3, H4, Hn. fold n in Hn.
  split.
  - rewrite w32_id by (unfold is_w32; lia). apply (read_file_spec s _ (fileDataSize d)); [done|lia|lia|lia].
  - rewrite <- (Z.add_0_r (dsOff + off)), seqZ_shift, store_zeros by lia. f_equal.
    unfold window_page. rewrite <- (Z.add_0_r page), seqZ_shift. apply list_fmap_ext. intros i k Hk.
    apply lookup_seqZ in Hk as [-> Hk]. unfold window_byte. rewrite Z.add_0_l.
    destruct (Z.leb_spec skip (Z.of_nat i)), (Z.ltb_spec (Z.of_nat i) (skip + n)),
      (Z.leb_spec base (page + Z.of_nat i)), (Z.ltb_spec (page + Z.of_nat i) (base + wsize)),
      (Z.ltb_spec (dsOff + (page + Z.of_nat i - base)) (fileDataSize d)); cbn [andb]; try lia; try done.
    f_equal. lia.
Qed.

(** The state after a fault: the frame has the page, and the process server has
    mapped it. *)
Definition paged (s : fs_state) (pl : cpool_t) (k : Z) (page : list Z) (cap off : Z) : fs_state :=
  upd_commonState (upd_srv_env (proc_window_map cap off (frame_at s k) (srv_env (commonState s))).2 (commonState s))
    (upd_frame_pages (<[frame_at s k := page]> (frame_pages s)) (with_pool pl s)).

(** C16. Functional correctness of the pager of files, for a fault anywhere in a
    window that shows a file from [dataspaceOffset] on, whether or not the
    window begins at a page.  With a frame left, the page mapped has the bytes
    of the file at each address where the window and the file reach, and zeros
    everywhere else; the process server is asked to map it at the fault's place
    of the window.  Without a frame the fault is answered with an error.  A page
    of the window that begins past the end of the file fails the assertion,
    which stops the server. *)
Theorem file_fault_maps_the_file s nt rest winID winSize faultAddr winBase dwa p a d pl k :
  (∀ cap off frame e, (proc_window_map cap off frame e).1 = ESUCCESS) →
  arg nt = winID :: winSize :: faultAddr :: winBase :: rest →
  fault_in s winID dwa p a d → next_frame s pl k →
  0 ≤ winBase ≤ faultAddr → faultAddr < winBase + winSize ≤ 2 ^ 32 → dataspaceOffset a + winSize < 2 ^ 32 →
  let page := REFOS_PAGE_ALIGN faultAddr in
  handle_fileserver_fault nt s =
    if decide (is_frame s k) then
      if decide (dataspaceOffset a + Z.max 0 (page - winBase) ≤ fileDataSize d) then
        Ok DISPATCH_SUCCESS
          (paged s pl k (window_page s d (dataspaceOffset a) winBase winSize page) (objectCap a) (faultAddr - winBase))
      else Panic
    else Ok DISPATCH_ERROR (with_pool pl s).
Proof.
  intros Hmap Harg [[Hw Hw0] Ha Hid [Ht Ht0] Hd Hf Ho] Hnf Hb Hi Hdo page.
  pose proof (pager_alloc_frame_spec s pl k Hnf) as Hal. pose proof Hf as [Hsz _].
  destruct (fault_numbers (fileDataSize d) (dataspaceOffset a) winBase winSize faultAddr Hb Hi Ho Hdo Hsz)
    as (N1 & N2 & N3 & N4 & N5 & N6). fold page in N1, N2, N3, N4, N5, N6.
  unfold handle_fileserver_fault. rewrite Harg. unfold dspace_window_find, dspace_externalID_find.
  rewrite (kbind_Ok _ _ s s dwa) by (kstep; by rewrite Hw).
  rewrite kassert_true by (by rewrite (proj2 (Z.eqb_neq _ _))).
  rewrite (kbind_Ok _ _ s s a) by (unfold getAssoc; by rewrite Ha).
  rewrite (kbind_Ok _ _ s s p) by (by apply dspace_get_spec).
  rewrite kassert_true by (by rewrite (proj2 (Z.eqb_neq _ _))).
  rewrite (kbind_Ok _ _ s s d) by (by apply getFsDataspace_spec). rewrite (kbind_Ok _ _ _ _ _ Hal). fold page.
  case_decide as Hk; [|done].
  assert (frame_at s k ≠ 0) as Hk0.
  { destruct Hnf as [_ _ _ Hbl]. unfold is_frame, frame_at, REFOS_PAGE_SIZE in *. lia. }
  rewrite (proj2 (Z.eqb_neq _ _) Hk0). cbv zeta.
  assert (dataspaceSkipWinOffset winBase page = Z.max 0 (page - winBase)) as Hoff.
  { unfold dataspaceSkipWinOffset. destruct (Z.ltb_spec page winBase); lia. }
  rewrite <- Hoff. case_decide as Hle.
  - rewrite kassert_true by (by rewrite (proj2 N5)).
    destruct (window_page_eq (with_pool pl s) d (dataspaceOffset a) winBase winSize faultAddr Hb Hi Ho Hdo Hf Hle) as [Hrd Hst].
    fold page in Hrd, Hst. rewrite window_page_pool in Hst. rewrite (kbind_Ok _ _ _ _ _ Hrd), (kopt_Some _ _ _ _ Hst).
    unfold set_frame_page. kstep. rewrite w32_id by (unfold is_w32; lia).
    unfold fcall, common, scall, kbind, paged. cbn [commonState upd_frame_pages with_pool upd_pageFrameBlock srv_env].
    specialize (Hmap (objectCap a) (faultAddr - winBase) (frame_at s k) (srv_env (commonState s))).
    destruct (proc_window_map _ _ _ _) as [e env] eqn:He. cbn in Hmap |- *. by rewrite Hmap.
  - destruct (nbytes_overflowed _ _ _) eqn:Hn; [done|]. destruct Hle. by apply N5.
Qed.

(** ** Reading and writing *)
Lemma write_bytes_lookup b : ∀ a pos k,
  write_bytes a pos b !! k =
    if decide (pos ≤ k < pos + Z.of_nat (length b)) then b !! Z.to_nat (k - pos) else a !! k.
Proof.
  induction b as [|x b IH]; intros a pos k; cbn [write_bytes length]; [by rewrite decide_False by lia|].
  rewrite IH. case_decide as H1.
  - rewrite decide_True by lia. replace (Z.to_nat (k - pos)) with (S (Z.to_nat (k - (pos + 1)))) by lia. done.
  - case_decide as H2.
    + assert (k = pos) as -> by lia. by rewrite lookup_insert_eq, Z.sub_diag.
    + by rewrite lookup_insert_ne by lia.
Qed.

(** What was written, read from the same position. *)
Lemma read_written a pos b :
  (λ k, default 0 (write_bytes a pos b !! k)) <$> seqZ pos (Z.of_nat (length b)) = b.
Proof.
  apply list_eq. intros i. destruct (Nat.lt_ge_cases i (length b)) as [Hi|Hi].
  - rewrite list_lookup_fmap, lookup_seqZ_lt by lia. cbn. rewrite write_bytes_lookup, decide_True by lia.
    replace (Z.to_nat (pos + Z.of_nat i - pos)) with i by lia.
    destruct (lookup_lt_is_Some_2 b i Hi) as [x ->]. done.
  - rewrite !lookup_ge_None_2; [done|done|rewrite length_fmap, length_seqZ; lia].
Qed.

(** An open file of the RAM file system: the badge [fd] is the one of the
    dataspace [d] at [p], for the array [i]. *)
Record file_open (s : fs_state) (fd p i : Z) (d : fs_dataspace) : Prop := {
  fo_badge : FS_DSPACE_BADGE_BASE ≤ fd < FS_DSPACE_BADGE_BASE + FILESERVER_MAX_DATASPACES;
  fo_table : coat_get (allocTable s) (fd - FS_DSPACE_BADGE_BASE) = Some p ∧ p ≠ 0;
  fo_dspace : fs_dspaces s !! p = Some d;
  fo_data : fileData d = RamFile i ∧ fileCreated d = true;
  fo_file : file_ok (RamFile i) (fileDataSize d);
  fo_files : i < ramfs_curfile s ∧ length (ramfs_filesz s) = Z.to_nat CPIO_RAMFS_MAX_CREATED_FILES
}.

Lemma dspace_get_badge_spec s fd p :
  FS_DSPACE_BADGE_BASE ≤ fd < FS_DSPACE_BADGE_BASE + FILESERVER_MAX_DATASPACES →
  coat_get (allocTable s) (fd - FS_DSPACE_BADGE_BASE) = Some p → dspace_get_badge fd s = Ok p s.
Proof.
  intros Hb Ht. unfold dspace_get_badge. rewrite (proj2 (Z.ltb_ge _ _)), (proj2 (Z.leb_gt _ _)) by lia. cbn [orb].
  apply dspace_get_spec; [lia|done].
Qed.

(** The state after a write: [a] is the memory of the arrays, [size] the new size. *)
Definition written (s : fs_state) (p i size : Z) (d : fs_dataspace) (a : gmap Z Z) : fs_state :=
  upd_ramfs a (ramfs_filename s) (<[Z.to_nat i := size]> (ramfs_filesz s)) (ramfs_curfile s)
    (upd_fs_dspaces (<[p := set_fileDataSize size d]> (fs_dspaces s)) s).
Definition after_write (d : fs_dataspace) (offset count : Z) : Z := Z.max (fileDataSize d) (w32 (offset + count)).

(** A write whose last position, as a word, is in the file's array. *)
Lemma data_write_spec s m fd p i d offset b :
  check_dispatch_caps m 1 1 = true → file_open s fd p i d →
  let count := Z.of_nat (length b) in
  let pos := archive_pos i offset in
  w32 (offset + count) ≤ CPIO_RAMFS_MAX_FILESSIZE → 0 ≤ pos → pos + count ≤ ramfs_size →
  fs_data_write_handler m fd offset b s =
    Ok count (written s p i (after_write d offset count) d (write_bytes (ramfs_archive s) pos b)).
Proof.
  intros Hm [Hb [Ht Ht0] Hd [Hdata Hcr] [Hsz [Hi Hsz']] [Hcur Hlen]] count pos Hw Hp Hpos.
  unfold fs_data_write_handler. rewrite Hm. cbn [negb]. fold count.
  rewrite (kbind_Ok _ _ _ _ _ (dspace_get_badge_spec _ _ _ Hb Ht)), (proj2 (Z.eqb_neq _ _)) by done.
  rewrite (kbind_Ok _ _ s s d) by (by apply getFsDataspace_spec). rewrite Hcr. cbn [negb]. cbv zeta.
  rewrite (kbind_Ok _ _ s s tt).
  2:{ unfold kwhen. case_match; [|done]. by rewrite (proj2 (Z.leb_le _ _)). }
  assert ((if fileDataSize d <? w32 (offset + count) then set_fileDataSize (w32 (offset + count)) d else d) =
    set_fileDataSize (after_write d offset count) d) as ->.
  { unfold after_write. destruct (Z.ltb_spec (fileDataSize d) (w32 (offset + count))).
    - by rewrite Z.max_r by lia.
    - rewrite Z.max_l by lia. by destruct d. }
  set (size := after_write d offset count). unfold setFsDataspace. kstep.
  unfold set_filesz. cbn [fileData set_fileDataSize fileDataSize]. rewrite Hdata. unfold kbind at 1. kstep.
  cbn [ramfs_curfile upd_fs_dspaces]. rewrite (proj2 (Z.ltb_lt _ _)) by done. unfold kwhen. kstep.
  cbn [ramfs_filesz upd_fs_dspaces]. rewrite store_Some by (rewrite Hlen; unfold CPIO_RAMFS_MAX_CREATED_FILES in *; lia).
  unfold kbind at 1. cbn [kopt kret modify]. unfold write_file. unfold kbind at 1. kstep.
  unfold write_archive. cbn [ramfs_archive upd_ramfs upd_fs_dspaces]. fold pos count.
  rewrite !(proj2 (Z.leb_le _ _)) by done. cbn [andb]. unfold kbind at 1. by cbn [kopt kret modify].
Qed.

Lemma data_read_spec s m fd p i d offset count :
  check_dispatch_caps m 1 1 = true → file_open s fd p i d → 0 ≤ offset → 0 ≤ count → offset + count ≤ fileDataSize d →
  fs_data_read_handler m fd offset count s = Ok (count, ramfs_byte (ramfs_archive s) i <$> seqZ offset count) s.
Proof.
  intros Hm [Hb [Ht Ht0] Hd [Hdata Hcr] Hf _] Ho Hc Hle.
  unfold fs_data_read_handler. rewrite Hm. cbn [negb].
  rewrite (kbind_Ok _ _ _ _ _ (dspace_get_badge_spec _ _ _ Hb Ht)), (proj2 (Z.eqb_neq _ _)) by done.
  rewrite (kbind_Ok _ _ s s d) by (by apply getFsDataspace_spec). destruct (Z.leb_spec (fileDataSize d) offset).
  - by assert (count = 0) as -> by lia.
  - cbv zeta. rewrite Z.min_r, Hdata by lia. by rewrite (kbind_Ok _ _ _ _ _ (read_file_spec s _ _ offset count Hf Ho Hc Hle)).
Qed.

Lemma file_open_written s fd p i d size a :
  file_open s fd p i d → 0 ≤ size ≤ CPIO_RAMFS_MAX_FILESSIZE →
  file_open (written s p i size d a) fd p i (set_fileDataSize size d).
Proof.
  intros [Hb Ht Hd Hda [Hsz [Hi Hsz']] [Hcur Hlen]] Hs. split; cbn; try done.
  - by rewrite lookup_insert_eq.
  - unfold CPIO_RAMFS_MAX_FILESSIZE in *. unfold file_ok, CPIO_RAMFS_MAX_FILESSIZE; lia.
  - split; [done|]. by rewrite length_insert.
Qed.

(** C17. Round trip of files of the RAM file system: a write that ends within the
    file's array takes all its bytes; then a read at the same place gives them
    back, the size is the larger of the old size and the end of the write, and
    no other byte of this file or of another one has changed. *)
Theorem data_write_reads_back s m fd p i d offset b :
  check_dispatch_caps m 1 1 = true → file_open s fd p i d →
  let count := Z.of_nat (length b) in
  0 ≤ offset → offset + count ≤ CPIO_RAMFS_MAX_FILESSIZE →
  let size := Z.max (fileDataSize d) (offset + count) in
  ∃ s', fs_data_write_handler m fd offset b s = Ok count s' ∧
    fs_data_read_handler m fd offset count s' = Ok (count, b) s' ∧
    fs_data_get_size_handler m fd s' = Ok size s' ∧
    file_open s' fd p i (set_fileDataSize size d) ∧
    ∀ j k, 0 ≤ k < CPIO_RAMFS_MAX_FILESSIZE → ¬ (j = i ∧ offset ≤ k < offset + count) →
      ramfs_byte (ramfs_archive s') j k = ramfs_byte (ramfs_archive s) j k.
Proof.
  intros Hm Hop count Ho Hle size. pose proof Hop as [Hb [Ht Ht0] Hd [Hda Hcr] [Hsz [Hi Hsz']] _].
  assert (archive_pos i offset = i * CPIO_RAMFS_MAX_FILESSIZE + offset) as Hpos.
  { unfold archive_pos, CPIO_RAMFS_MAX_FILESSIZE in *. rewrite s32_small by lia. done. }
  assert (w32 (offset + count) = offset + count) as Hw by (apply w32_id; unfold is_w32, CPIO_RAMFS_MAX_FILESSIZE in *; lia).
  assert (after_write d offset count = size) as Hsize by (unfold after_write; by rewrite Hw).
  set (pos := i * CPIO_RAMFS_MAX_FILESSIZE + offset) in *.
  assert (0 ≤ pos ∧ pos + count ≤ ramfs_size) as Hin.
  { unfold pos, ramfs_size, CPIO_RAMFS_MAX_FILESSIZE, CPIO_RAMFS_MAX_CREATED_FILES in *. lia. }
  set (s' := written s p i size d (write_bytes (ramfs_archive s) pos b)).
  assert (file_open s' fd p i (set_fileDataSize size d)) as Hop' by (apply file_open_written; [done|lia]).
  exists s'. split_and!; [| | |done|].
  - unfold s'. rewrite <- Hpos, <- Hsize. apply data_write_spec; [done|done|fold count; lia|lia|fold count; lia].
  - rewrite (data_read_spec s' m fd p i _ offset count Hm Hop') by (cbn [fileDataSize set_fileDataSize]; lia).
    do 2 f_equal. transitivity ((λ k, default 0 (write_bytes (ramfs_archive s) pos b !! k)) <$> seqZ pos count).
    + unfold pos at 2. by rewrite seqZ_shift.
    + apply read_written.
  - unfold fs_data_get_size_handler. rewrite Hm. cbn [negb].
    rewrite (kbind_Ok _ _ _ _ _ (dspace_get_badge_spec s' _ _ Hb Ht)), (proj2 (Z.eqb_neq _ _)) by done.
    by rewrite (kbind_Ok _ _ s' s' (set_fileDataSize size d)) by (apply getFsDataspace_spec, Hop').
  - intros j k Hk Hne. unfold ramfs_byte, s'. cbn [ramfs_archive written upd_ramfs]. rewrite write_bytes_lookup.
    rewrite decide_False; [done|]. fold count. unfold pos, CPIO_RAMFS_MAX_FILESSIZE in *. intros Hx. apply Hne. clear - Hx Hk Ho Hle. fold count in Hx. lia.
Qed.

(** C39. Bounds: the end of a write is a word, and the check that it is in the
    file's array is made on the sum after it has wrapped around.  A write to one
    file at an offset just below 2^32 succeeds, and its first bytes become the
    last ones of the file made before it, as whoever reads that file sees. *)
Theorem data_write_wraps_around s m fd p i d fd' p' d' b b' :
  check_dispatch_caps m 1 1 = true → file_open s fd p i d → file_open s fd' p' (i - 1) d' → p' ≠ p →
  fileDataSize d' = CPIO_RAMFS_MAX_FILESSIZE →
  let count := Z.of_nat (length b) in
  0 < count ≤ CPIO_RAMFS_MAX_FILESSIZE → Z.of_nat (length b') ≤ CPIO_RAMFS_MAX_FILESSIZE →
  ∃ s', fs_data_write_handler m fd (2 ^ 32 - count) (b ++ b') s = Ok (Z.of_nat (length (b ++ b'))) s' ∧
    fs_data_read_handler m fd' (CPIO_RAMFS_MAX_FILESSIZE - count) count s' = Ok (count, b) s'.
Proof.
  intros Hm Hop Hop' Hp Hsz' count Hc Hb'.
  pose proof Hop as [_ _ _ _ [Hsz [Hi _]] _]. pose proof Hop' as [Hfd Ht Hd Hda [Hf1 [Hi' Hf2]] [Hcur Hlen]].
  assert (archive_pos i (2 ^ 32 - count) = i * CPIO_RAMFS_MAX_FILESSIZE - count) as Hpos.
  { unfold archive_pos, s32, CPIO_RAMFS_MAX_FILESSIZE in *.
    rewrite <- (Z.mod_unique (2 ^ 32 - count + 2 ^ 31) (2 ^ 32) 1 (2 ^ 31 - count)) by lia. lia. }
  assert (w32 (2 ^ 32 - count + Z.of_nat (length (b ++ b'))) = Z.of_nat (length b')) as Hw.
  { rewrite length_app. unfold w32, CPIO_RAMFS_MAX_FILESSIZE in *. symmetry. apply (Z.mod_unique _ _ 1); lia. }
  eexists. split.
  - apply data_write_spec; [done|done|by rewrite Hw| |].
    + rewrite Hpos. unfold CPIO_RAMFS_MAX_FILESSIZE in *. lia.
    + rewrite Hpos, length_app. unfold ramfs_size, CPIO_RAMFS_MAX_FILESSIZE, CPIO_RAMFS_MAX_CREATED_FILES in *. lia.
  - rewrite Hpos. erewrite data_read_spec; [|done| |lia|lia|].
    2:{ split; [exact Hfd|exact Ht| |exact Hda| |]; cbn.
        - rewrite lookup_insert_ne by done. exact Hd.
        - split; [exact Hf1|done].
        - split; [done|]. by rewrite length_insert. }
    2:{ lia. }
    do 2 f_equal.
    transitivity ((λ k, default 0 (write_bytes (ramfs_archive s) (i * CPIO_RAMFS_MAX_FILESSIZE - count) b !! k)) <$>
      seqZ (i * CPIO_RAMFS_MAX_FILESSIZE - count) count); [|apply read_written].
    replace (i * CPIO_RAMFS_MAX_FILESSIZE - count)
      with ((i - 1) * CPIO_RAMFS_MAX_FILESSIZE + (CPIO_RAMFS_MAX_FILESSIZE - count)) by lia.
    rewrite seqZ_shift. apply list_fmap_ext. intros j k Hk. apply lookup_seqZ in Hk as [-> Hj].
    unfold ramfs_byte. cbn [ramfs_archive written upd_ramfs]. rewrite !write_bytes_lookup, length_app.
    rewrite !decide_True by lia. rewrite lookup_app_l by lia. done.
Qed.
End Files.

(** ** A server *)

(** What the server calls succeeds; the mappings are logged. *)
Definition demo_server : ServerEnv := {|
  senv := list (Z * Z * Z);
  heap_ok _ := true;
  heap_object e := (Some 1000, e);
  cnode_mint _ _ _ e := (true, e);
  cnode_revoke _ e := e;
  cnode_delete _ e := e;
  rpc_copyout_cptr c e := (c, e);
  proc_watch_client _ _ e := ((ESUCCESS, 1), e);
  proc_unwatch_client _ e := e
|}.
Section Demo.
#[local] Existing Instance demo_server.
Definition log_mapping (cap off frame : Z) (e : list (Z * Z * Z)) : refos_error * list (Z * Z * Z) :=
  (ESUCCESS, (cap, off, frame) :: e).
Definition demo_files : FileEnv := {|
  cpio_get_file _ := None;
  fs_register_as_pager _ _ e := ((ESUCCESS, 1), e);
  proc_window_getID _ e := (1, e);
  fs_have_data _ _ e := ((ESUCCESS, 1), e);
  fs_unhave_data _ e := e;
  data_provide_data _ _ _ e := (ESUCCESS, e);
  proc_window_map := log_mapping;
  data_open_anon _ e := ((ESUCCESS, 1), e);
  walloc _ e := ((4096, 1), e);
  fs_datamap _ _ e := (ESUCCESS, e);
  fs_data_close _ e := e;
  proc_delete_mem_window _ e := e
|}.

#[local] Existing Instance demo_files.

(** Dataspace 1 is a file of the archive, and 2 and 3 are the first arrays of
    the RAM file system; window 5 shows the first from its byte 3 on. *)
Definition demo_common : srv_common :=
  SrvCommon (coat (cpool_init 1 8) cvector_init []) ∅ cvector_init 8 50 1 2 (Cspace [] 0) [].
Definition demo_cpio : fs_dataspace := FsDataspace 1 0 70 0 (CpioFile (seqZ 1 10)) 10 false.
Definition demo_ram (id size : Z) : fs_dataspace := FsDataspace id 0 (70 + id) 0 (RamFile (id - 2)) size true.
Definition demo_fs : fs_state :=
  FsState demo_common {[100 := demo_cpio; 101 := demo_ram 2 40960; 102 := demo_ram 3 0]}
    (coat (cpool 1 8192 4 cvector_init) (cvector [Some 0; Some 100; Some 101; Some 102] 4 4 8) [])
    (chash [cvector [Some (chash_entry 5 200)] 1 1 8] 1) (chash [cvector_init] 1)
    {[200 := AssocInfo 1 3 77]} (FrameBlock true (cpool_init 1 128) 3 4 0x100000 128) ∅ ∅
    (repeat [] 64) (repeat 0 64) 2.
Definition demo_fault : notification_t :=
  Notification PROCSERV_NOTIFICATION_MAGIC 0 [5; 0x2000; 0x10020; 0x10010; 0; 3; 0].
Definition demo_badge (id : Z) : Z := FS_DSPACE_BADGE_BASE + id.

(** The window begins at 0x10010, in the page at 0x10000. *)
Lemma file_fault_maps_the_file_witness :
  let page := window_page demo_fs demo_cpio 3 0x10010 0x2000 0x10000 in
  handle_fileserver_fault demo_fault demo_fs =
    Ok DISPATCH_SUCCESS (paged demo_fs (cpool 1 128 2 cvector_init) 1 page 77 16) ∧
  window_byte demo_fs demo_cpio 3 0x10010 0x2000 0x1000f = 0 ∧
  window_byte demo_fs demo_cpio 3 0x10010 0x2000 0x10010 = 4 ∧
  window_byte demo_fs demo_cpio 3 0x10010 0x2000 0x10016 = 10 ∧
  window_byte demo_fs demo_cpio 3 0x10010 0x2000 0x10017 = 0.
Proof.
  split_and!; [|reflexivity..].
  assert (fault_in demo_fs 5 200 100 (AssocInfo 1 3 77) demo_cpio) as Hin.
  { by split. }
  rewrite (file_fault_maps_the_file demo_fs demo_fault [0; 3; 0] 5 0x2000 0x10020 0x10010 200 100 (AssocInfo 1 3 77)
    demo_cpio (cpool 1 128 2 cvector_init) 1) by done.
  rewrite decide_True by done. by rewrite decide_True by done.
Defined.

Lemma demo_open id p size :
  (id = 2 ∧ p = 101 ∧ size = 40960) ∨ (id = 3 ∧ p = 102 ∧ size = 0) →
  file_open demo_fs (demo_badge id) p (id - 2) (demo_ram id size).
Proof. intros [(-> & -> & ->)|(-> & -> & ->)]; by repeat split. Qed.
Definition demo_msg : procserv_msg := Msg 0 1 1 0.

Lemma data_write_reads_back_witness :
  ∃ s', fs_data_write_handler demo_msg (demo_badge 3) 5 [7; 8; 9] demo_fs = Ok 3 s' ∧
    fs_data_read_handler demo_msg (demo_badge 3) 5 3 s' = Ok (3, [7; 8; 9]) s' ∧
    fs_data_get_size_handler demo_msg (demo_badge 3) s' = Ok 8 s'.
Proof.
  destruct (data_write_reads_back demo_fs demo_msg (demo_badge 3) 102 1 (demo_ram 3 0) 5 [7; 8; 9])
    as (s' & H1 & H2 & H3 & _); [done|apply (demo_open 3); auto|done|done|by exists s'].
Defined.

(** The last bytes of the first array are written through the second file. *)
Lemma data_write_wraps_around_witness :
  ∃ s', fs_data_write_handler demo_msg (demo_badge 3) (2 ^ 32 - 2) [7; 8; 9] demo_fs = Ok 3 s' ∧
    fs_data_read_handler demo_msg (demo_badge 2) 40958 2 s' = Ok (2, [7; 8]) s'.
Proof.
  apply (data_write_wraps_around demo_fs demo_msg (demo_badge 3) 102 1 (demo_ram 3 0) (demo_badge 2) 101
    (demo_ram 2 40960) [7; 8] [9]); done.
Defined.
End Demo.
